(* ===== verification/_CoqProject ===== *)
-Q . S2P
Prelude.v
PyDict.v
PyStr.v
PyVal.v
PyFormat.v
Errors.v
Roles.v
Allowlist.v
Privilege.v
Origin.v
AuthLevels.v
RateLimit.v
JobModel.v
JobProofs.v
JobInv.v
JobEvol.v
JobProps.v
JobLive.v
JobBuffer.v
Authenticator.v
Sessions.v
Login.v
SessionInv.v
SessionProps.v
SecondFactor.v
SessionDemo.v
Rpc.v
RpcInv.v
RpcProps.v
RpcDemo.v
EventSources.v
EventProps.v
EventDemo.v
AlertBase.v
Alerts.v
AlertInv.v
AlertSteps.v
AlertFrames.v
AlertProps.v
AlertNotify.v
AlertEvents.v
AlertDemo.v
AlertConfig.v
AccountDb.v
Groups.v
Users.v
AccountInv.v
AccountRoot.v
AccountUids.v
AccountSample.v
AccountProps.v
AccountDemo.v
Ipaddr.v
NetDb.v
Ifaces.v
NetCheck.v
NetOps.v
NetPending.v
NetInv.v
NetRestore.v
NetSpec.v
NetChecked.v
NetClaims.v
NetNets.v
NetPorts.v
NetDelete.v
NetCreate.v
NetRound.v
NetFault.v
NetRace.v
NetProps.v
NetChoices.v
NetSync.v
NetApply.v
NetDemo.v
