(* ===== verification/Prelude.v ===== *)
(** * TrueNAS middleware: verification development

    The middleware is the daemon behind every interface of a TrueNAS system.
    Clients connect over a web socket, log in, and call methods of services; long
    running methods become jobs.  This development models the parts of it that
    decide who may do what and in which order things happen, from
    src/middlewared/middlewared/ (paths below are relative to that directory).

    ** Parts and files

    - Foundations.  [Prelude] (this file): results, the state and error monad
      [STE], invariants of handlers ([keeps]), reachability.  [PyDict]: Python
      dictionaries in insertion order.  [PyStr]: the [str] methods the code uses.
      [PyVal]: JSON-like values.  [PyFormat]:
      stable sorting, [json.dumps], [repr] and the [%] operator.  [Errors]: service_exception.py.
    - Roles.  [Roles]: role.py, the shipped table of roles, [ResourceManager],
      [RoleManager].  [Allowlist]: utils/allowlist.py.  [Privilege]:
      plugins/account_/privilege.py and utils/privilege.py, from the groups of an
      account to its composed privilege.
    - Sessions.  [Origin]: utils/origin.py.  [AuthLevels]: utils/auth.py, the
      assurance levels and the one-time passwords.  [RateLimit]:
      utils/rate_limit/cache.py.  [Authenticator]:
      utils/account/authenticator.py, the PAM conversations.  [Sessions]: auth.py
      and plugins/auth.py, credentials, tokens, the session manager.  [Login]:
      [auth.login_ex] with its five mechanisms (plugins/auth_/login_ex_impl.py),
      the authorization of calls (main.py), and the operations a history is made
      of.  [SessionInv], [SessionProps], [SecondFactor], [SessionDemo]: invariants,
      theorems, concrete histories.
    - Jobs.  [JobModel]: job.py, the queue, the locks, the registry and the life
      of a job.  [JobProofs], [JobInv], [JobEvol]: invariants.  [JobProps],
      [JobLive]: theorems.  [JobBuffer]: [JobProgressBuffer].
    - The server.  [Rpc]: utils/limits.py, utils/lock.py and
      api/base/server/, the messages, the concurrency limits, the calls and their
      responses, on the sessions of [Login].  [RpcInv], [RpcProps], [RpcDemo].
    - Events.  [EventSources]: common/event_source/manager.py, event.py and the
      subscriptions of a connection.  [EventProps], [EventDemo].
    - Alerts.  [AlertBase]: alert/base.py and alert/schedule.py, the classes of
      alerts, alerts, schedules and the texts of notifications.  [Alerts]:
      plugins/alert/alert.py, the service: the runs of the checks, dismissal,
      blocking, the policies and their notifications, the table of alerts and the
      one-shot alerts.  [AlertInv], [AlertSteps], [AlertFrames]: what its steps
      keep.  [AlertProps], [AlertNotify], [AlertEvents]: theorems.  [AlertDemo]:
      concrete histories.  [AlertConfig]: the categories offered to users,
      plugins/alert/classes.py and plugins/alert/service.py.
    - Accounts.  [AccountDb]: the tables of users, groups, memberships and
      privileges with the writes of plugins/datastore/write.py and the constraints
      of the database, and utils/reserved_ids.py.  [Groups]: the services group and
      privilege of plugins/account.py, plugins/account_/privilege.py and
      plugins/account_/builtin_administrator.py.  [Users]: the service user, and
      the histories ([Users.exec]).  [AccountInv], [AccountRoot], [AccountUids]:
      what the operations leave alone, keep and protect.  [AccountProps]:
      theorems.  [AccountSample], [AccountDemo]: a concrete system and its runs.
    - Network.  [Ipaddr]: the addresses and networks of Python's [ipaddress].
      [NetDb]: the tables of interfaces of plugins/network.py with the cascades of
      their foreign keys and the writes of plugins/datastore/write.py.  [Ifaces]:
      the entries [interface.query] makes of the tables and the state of the
      kernel.  [NetCheck]: the validation of creations and updates.  [NetOps]:
      what they and deletions write.  [NetPending]: the service, the saved tables,
      commit, check-in, rollback and its timer, and the histories ([Net.exec]).
      [NetChoices]: the interfaces offered as members, ports and parents.
      [NetSync]: plugins/interface/, the commands given to the kernel.  [NetInv],
      [NetRestore], [NetSpec]: consistency of the tables and the specification with
      two copies of them.  [NetChecked], [NetClaims], [NetNets], [NetPorts],
      [NetDelete], [NetCreate], [NetRound]: what the checks ensure and what the
      writes do.  [NetRace]: calls that overlap.  [NetFault]: creations while the
      database fails.  [NetProps], [NetApply]: theorems.  [NetDemo]: concrete
      histories.

    ** State and operations

    Mutable Python objects that are shared live in heaps: users, credentials,
    tokens and authenticators of [Sessions.world] by reference, jobs and locks of
    [JobModel.st] and alerts of [Alerts.st] by number, so that two sessions with one parent see the same
    object.  Coroutines of jobs, of the server and of the alert service are cut at
    their awaits: each segment is one definition, and a history is any sequence of
    segments ([JobModel.exec], [Rpc.rpc_exec], [Alerts.exec]).  Elsewhere a history is
    a sequence of calls and a call is one step, although it awaits on the way: the
    operations of sessions ([Login.exec]: a login with its PAM conversation, the
    lookup of a token with its destruction), of event sources, of accounts
    ([Users.exec], where only the creations of users and groups are cut, around the
    choice of the id) and of interfaces ([Net.exec]).  Theorems on such histories are
    about calls that are made one after another.  [NetRace.rexec] cuts the calls of the
    service interface between their checks and their writes and lets them overlap, and
    [AccountDemo] cuts [group.update] in the middle of its writes.
    Time is an argument of the operations.  Exceptions are values of [Errors.exn];
    what an operation did before raising stays done.

    ** Theorems

    - Jobs: two jobs with one lock name never hold it together; every
      interleaving ends, with the queue empty but for jobs behind a lock that a job
      with a failed log file or pipe keeps; the scheduler starts the first job that
      can start; the finally block of [Job.run] on both of its paths; states only
      move forward;
      a user sees its own jobs; the bounds of the queue and of the registry; the
      log excerpt; the progress buffer.  Theorems show the defects: a job whose
      log file cannot be opened, or whose log file or pipes cannot be closed, keeps its
      lock, queued jobs without a lock are merged, and the registry holds one job more
      than its limit.
    - Sessions: expired credentials stay expired; the session table and the
      applications agree; at the levels that require a second factor no login but
      SCRAM succeeds without one; a token session has
      the authority of its parent; single-use tokens are used once; an operation
      affects no other session; an invalid session ends at its next message;
      failed logins are audited; and, from the groups of an account to the
      decision on a call, the exact condition under which a session may call a
      method.  Two theorems show defects of a second login and of
      [become_readonly].
    - Roles: the two closures of the role manager agree, without a STIG and but for
      the roles that include themselves; a read-only administrator gets a writing
      method only by a registration that names its role; composing privileges grants
      exactly the union; STIG filtering; the two roles that include themselves.
    - The server: every request is answered exactly once with its id; calls do
      not block each other for ever; at most ten run and twenty are in progress;
      a body starts only for credentials that authorize it.  One theorem shows
      that logging out during a call reveals secrets.
    - Events: subscribers, subscriptions and running event sources agree, and
      removing a subscription never fails.  One theorem shows that plain
      subscriptions outlive the session.

    - Alerts: in any history no two alerts have the same identity or uuid; a
      dismissed alert stays dismissed; a blocked source keeps its alerts; a check
      is not run twice within its interval; alerts survive a restart; a service is
      sent exactly the alerts that are new or gone, did not come back and are not
      dismissed; a client that reads the list when it has been announced and follows
      the events has the list.  Three theorems show the defects: a
      dismissal during a notification leaves a ghost at the subscribers, a run that
      is undone loses the dismissals made in it, and alerts of two classes with
      one key are taken for one.
    - Accounts: by calls that do not overlap the root user cannot lose its place among
      the administrators or its role;
      creations that overlap get different uids, each the least that is free;
      [user.set_password] writes only for those who may, and only one row; a failed
      creation leaves nothing behind; the history of passwords is read as it was
      written by [user.update]; which modes of home directories are accepted.
      [AccountDemo] has the runs that show defects: [group.delete] deletes an
      administrator that [user.delete] protects, [set_password] spoils the history
      it stores, administrators by primary group alone are not counted, uids given
      by the caller are not reserved, a temporary lock is made permanent, and an
      update of a group that overlaps with a deletion loses its members.
    - Network: the service refines a specification with a committed and a working
      copy of its tables, for calls that fail as well; what was not accepted is
      undone, by call, by timer or by a commit that fails, in the tables that are
      saved; a commit arms the timer, [checkin_waiting] counts down to it and a
      check-in disarms it; in any history of calls that overlap, as long as nobody
      writes between the checks and the writes of a call, the networks of two
      interfaces are disjoint and no interface is a port of two; a deletion ends and
      is complete; a creation that fails leaves nothing, also when the database fails,
      but for the row of a VLAN; a created interface has the addresses asked
      for; the choices for members of bridges are those the validation accepts;
      synchronisation takes down nothing that is configured, whatever the kernel
      answers, and leaves an interface with the addresses of the database.
      [NetDemo] has the runs that show defects: two creations that overlap and clash,
      the row of a VLAN that is left over, a timer that is never cancelled,
      nameservers that are not rolled back, a check that never fails, the parent of
      a VLAN as a port, offers that are refused, an update that fails half-way, and
      the inverted guards of the hook on hot-plugged interfaces.

    ** Fuel and parameters

    [roles_for_role] recurses on the inclusion of roles; six levels are enough for
    every role of the table that terminates, and the two that do not are the
    subject of a theorem.  [Job.set_progress] recurses over wrapping jobs up to
    Python's [recursion_limit].  Credentials are followed to depth two: the
    invariant [wf] shows that the parent of a token is never a token session.  A
    PAM conversation has as many [rounds] as its caller gives, for every number.
    Code outside of the repository is a parameter: the PAM stack ([PamStack]), the
    digest of one-time passwords, the [errno] names and the JSON library
    ([RpcLib]), the operating system ([os_env]), the datastore rows a login reads
    ([config]).

    The steps of the alert service take the answers of everything they await: the
    clock, the state of the system, the configuration and the alert services
    ([Alerts.Env]), the other controller ([Alerts.Remote]), the checks
    ([Alerts.check_result]).  Alerts a check returns are new objects of registered
    classes ([AlertSteps.admissible]), a uuid is never drawn twice,
    [flush_alerts] and [initialize] are one step each and [initialize] does not
    run in the middle of [send_alerts].  Arguments of alerts are JSON values
    without floats, in ASCII.

    The account services read the clock, the configuration, the name service of
    directory services, the hashes and the file system from [Groups.aenv] and
    [Users.uenv]; a call that leaves the process has the outcome the environment
    gives it and is recorded in the state.  Requests are those the API models
    admit; [group.update] has no field [gid] ([AccountRoot.api_label]).  The
    theorem on uids is about creations that leave the uid to the service and end
    within the 3600 seconds of a reservation ([AccountUids.on_time]).  Names,
    passwords and texts are in ASCII.

    [interface.delete] recurses over nested link aggregations; its fuel is two more
    than their number, which is enough since the interfaces on the way have
    different ones ([interface_delete_complete] shows that it is never used up).  [get_next] tries one number more than there are names.  The calls of
    the service interface read the kernel, failover, other services and the
    outcome of a synchronisation from [Ifaces.nenv], a new one for each call, and
    the theorems hold for all of them.  The kernel of [NetSync] answers each
    command arbitrarily, as a function of the commands so far; the address objects
    of its library are the class [NetSync.AddrInfo].  Sets of addresses are lists
    without duplicates in order of insertion.  Times are in microseconds.  The column
    [interface] of the bridges is nullable and never null in the rows the service
    writes; it is an id here.  A write of [NetDb] fails on constraints only; in
    [NetFault] any call of the datastore may fail, given by a list.

    ** Not modelled

    The queries of the datastore and its connection, the services over it but for
    accounts, alerts and interfaces (sharing, pools, and of the network the global
    configuration, DNS, routes, [interface.ip_in_use], the options of
    [interface.query] and the control socket of dhcpcd), plugins/account_/sync_builtin.py
    and the script that writes the first administrator, the files of SSH keys and
    the copies of home directories, the failover protocol, the individual checks and notification services of the
    alerts, the conversion between API versions (pydantic models), the native filter
    engine, system commands and their
    wrappers, and the command line tools. *)

From stdpp Require Export base tactics decidable gmap strings list sets pretty.
From Stdlib Require Export ZArith Lia.

(** ** Fallible code *)

(** A Python call either returns a value or raises. *)
Inductive result (E A : Type) : Type :=
| Ok (a : A)
| Err (e : E).
Arguments Ok {E A} a.
Arguments Err {E A} e.

#[global] Instance result_mret {E} : MRet (result E) := fun A a => Ok a.

#[global] Instance result_mbind {E} : MBind (result E) :=
  fun A B f m => match m with Ok a => f a | Err e => Err e end.

Definition is_ok {E A} (r : result E A) : bool :=
  match r with Ok _ => true | Err _ => false end.

Lemma result_bind_ok {E A B} (m : result E A) (f : A -> result E B) b :
  m ≫= f = Ok b <-> exists a, m = Ok a /\ f a = Ok b.
Proof. destruct m; simpl; naive_solver. Qed.

Lemma result_bind_err {E A B} (m : result E A) (f : A -> result E B) e :
  m ≫= f = Err e <-> m = Err e \/ exists a, m = Ok a /\ f a = Err e.
Proof. destruct m; simpl; naive_solver. Qed.

(** Monadic traversal: [for x in l: out.append(f(x))] where [f] may raise. *)
Fixpoint mapE {E A B} (f : A -> result E B) (l : list A) : result E (list B) :=
  match l with
  | [] => Ok []
  | x :: l => y ← f x; ys ← mapE f l; Ok (y :: ys)
  end.

(** Monadic left fold: a loop body that threads a state and may raise. *)
Fixpoint foldE {E S A} (f : S -> A -> result E S) (l : list A) (s : S) : result E S :=
  match l with
  | [] => Ok s
  | x :: l => s' ← f s x; foldE f l s'
  end.

(** ** Stateful fallible code

    A handler that threads a state and may raise; what it did to the state
    before raising stays done. *)
Definition STE (S E A : Type) : Type := S -> S * result E A.

#[global] Instance ste_mret {S E} : MRet (STE S E) := fun A a s => (s, Ok a).

#[global] Instance ste_mbind {S E} : MBind (STE S E) :=
  fun A B f m s => match m s with (s, Ok a) => f a s | (s, Err e) => (s, Err e) end.

Section ste.
Context {S E : Type}.

Definition raise {A} (e : E) : STE S E A := fun s => (s, Err e).
Definition gets {A} (f : S -> A) : STE S E A := fun s => (s, Ok (f s)).
Definition modify (f : S -> S) : STE S E unit := fun s => (f s, Ok tt).
Definition update {A} (f : S -> S * A) : STE S E A := fun s => let '(s, a) := f s in (s, Ok a).
Definition lift {A} (r : result E A) : STE S E A := fun s => (s, r).

(** [d[k]], [x.attr]: raise when absent *)
Definition expect {A} (o : option A) (e : E) : STE S E A := fun s => (s, match o with Some a => Ok a | None => Err e end).

Lemma ste_bind_ok {A B} (m : STE S E A) (f : A -> STE S E B) s s' b :
  (m ≫= f) s = (s', Ok b) <-> exists a s1, m s = (s1, Ok a) /\ f a s1 = (s', Ok b).
Proof.
  unfold mbind, ste_mbind. destruct (m s) as [s1 [a|e]]; naive_solver.
Qed.

Lemma ste_bind_gets {A B} (f : S -> A) (k : A -> STE S E B) s : (gets f ≫= k) s = k (f s) s.
Proof. done. Qed.

(** An invariant [J] of the state is kept, also when an exception is raised, and
    the value returned satisfies [Q]. *)
Definition keeps (J : S -> Prop) {A} (m : STE S E A) (Q : A -> Prop) : Prop :=
  forall s, J s -> J (m s).1 /\ forall a, (m s).2 = Ok a -> Q a.

Definition anything {A} (_ : A) : Prop := True.

Lemma keeps_bind J {A B} (m : STE S E A) (f : A -> STE S E B) Q Q' :
  keeps J m Q -> (forall a, Q a -> keeps J (f a) Q') -> keeps J (m ≫= f) Q'.
Proof.
  intros Hm Hf s Hs. unfold mbind, ste_mbind. destruct (Hm s Hs) as [H1 H2]. destruct (m s) as [s1 [a|e]]; [|done].
  apply (Hf a (H2 a eq_refl)), H1.
Qed.

Lemma keeps_weaken J {A} (m : STE S E A) (Q Q' : A -> Prop) : keeps J m Q -> (forall a, Q a -> Q' a) -> keeps J m Q'.
Proof. intros Hm HQ s Hs. destruct (Hm s Hs). eauto. Qed.
Lemma keeps_any J {A} (m : STE S E A) (Q : A -> Prop) : keeps J m Q -> keeps J m anything.
Proof. intros Hm. by apply (keeps_weaken _ _ _ _ Hm). Qed.
Lemma keeps_ret J {A} (a : A) (Q : A -> Prop) : Q a -> keeps J (mret a) Q.
Proof. intros HQ s Hs. split; [done|]. by intros ? [= <-]. Qed.
Lemma keeps_raise J {A} (e : E) (Q : A -> Prop) : keeps J (raise e) Q.
Proof. by intros s Hs. Qed.
Lemma keeps_gets J {A} (f : S -> A) (Q : A -> Prop) : (forall s, J s -> Q (f s)) -> keeps J (gets f) Q.
Proof. intros HQ s Hs. split; [done|]. intros ? [= <-]. auto. Qed.
Lemma keeps_lift J {A} (r : result E A) : keeps J (lift r) (fun a => r = Ok a).
Proof. by intros s. Qed.
Lemma keeps_expect J {A} (o : option A) e : keeps J (expect o e) (fun a => o = Some a).
Proof. intros s Hs. split; [done|]. destruct o; naive_solver. Qed.
Lemma keeps_modify J f (Q : unit -> Prop) : (forall s, J s -> J (f s)) -> Q tt -> keeps J (modify f) Q.
Proof. intros H HQ s Hs. split; [by apply H|]. by intros [] _. Qed.
End ste.

(** [if c: m] *)
Notation when c m := (if c then m else mret tt).

(** [next(x for x in l if f(x))]: the element found and what precedes it. *)
Lemma find_split {A} (f : A -> bool) (l : list A) x :
  List.find f l = Some x -> exists b a, l = b ++ x :: a /\ f x = true /\ forall y, y ∈ b -> f y = false.
Proof.
  induction l as [|z l IH]; simpl; [done|]. destruct (f z) eqn:Hz.
  - intros [= ->]. exists [], l. split_and!; [done..|]. set_solver.
  - intros (b & a & -> & Hx & Hb)%IH. exists (z :: b), a. split_and!; [done..|].
    intros y [->|Hy]%elem_of_cons; auto.
Qed.

(** ** Lists of rows: [filter], [find] and keys *)

Lemma find_elem {A} (f : A -> bool) (l : list A) x : List.find f l = Some x -> x ∈ l /\ f x = true.
Proof. intros H%find_some. by rewrite list_elem_of_In. Qed.

(** Two rows with the same key are the same row. *)
Lemma key_inj {A B} (f : A -> B) (l : list A) x y : NoDup (map f l) -> x ∈ l -> y ∈ l -> f x = f y -> x = y.
Proof.
  intros Hnd Hx Hy E. apply list_elem_of_lookup in Hx as [i Hi]. apply list_elem_of_lookup in Hy as [j Hj].
  assert (i = j) as ->; [|congruence]. eapply (NoDup_lookup _ i j (f x) Hnd); change (map f l) with (f <$> l);
    rewrite list_lookup_fmap; [by rewrite Hi|rewrite Hj; simpl; by rewrite E].
Qed.

Lemma find_key {A} (f : A -> Z) (l : list A) x : NoDup (map f l) -> x ∈ l -> List.find (fun y => f y =? f x)%Z l = Some x.
Proof.
  intros Hnd Hx. destruct (List.find _ l) as [y|] eqn:E.
  - apply find_elem in E as [Hy E%Z.eqb_eq]. f_equal. by eapply key_inj.
  - eapply find_none in E; [|by apply list_elem_of_In]. by rewrite Z.eqb_refl in E.
Qed.

Lemma find_name {A} (f : A -> string) (l : list A) x :
  NoDup (map f l) -> x ∈ l -> List.find (fun y => String.eqb (f y) (f x)) l = Some x.
Proof.
  intros Hnd Hx. destruct (List.find _ l) as [y|] eqn:E.
  - apply find_elem in E as [Hy E%String.eqb_eq]. f_equal. by eapply key_inj.
  - eapply find_none in E; [|by apply list_elem_of_In]. by rewrite String.eqb_refl in E.
Qed.

Lemma filter_elem {A} (f : A -> bool) (l : list A) x : x ∈ List.filter f l <-> x ∈ l /\ f x = true.
Proof. rewrite !list_elem_of_In. apply filter_In. Qed.

Lemma filter_sublist {A} (f : A -> bool) (l : list A) : List.filter f l `sublist_of` l.
Proof. induction l as [|x l IH]; simpl; [done|]. destruct (f x); by constructor. Qed.

Lemma bool_filter_sublist {A} (f : A -> bool) l l' : l `sublist_of` l' -> List.filter f l `sublist_of` List.filter f l'.
Proof. induction 1; simpl; [done| |]; case_match; by try constructor. Qed.

Lemma filter_Forall {A} (P : A -> Prop) f (l : list A) : Forall P l -> Forall P (List.filter f l).
Proof. rewrite !Forall_forall. intros H x [Hx _]%filter_elem. auto. Qed.

Lemma filter_NoDup {A B} (k : A -> B) f (l : list A) : NoDup (map k l) -> NoDup (map k (List.filter f l)).
Proof. intros H. eapply sublist_NoDup; [exact H|]. apply fmap_sublist, filter_sublist. Qed.

Lemma existsb_false {A} (f : A -> bool) l : existsb f l = false -> forall x, x ∈ l -> f x = false.
Proof.
  intros H x Hx. destruct (f x) eqn:E; [|done]. assert (existsb f l = true); [|congruence].
  apply existsb_exists. exists x. by rewrite <-list_elem_of_In.
Qed.

Lemma filter_subseteq {A} (f : A -> bool) (l : list A) : List.filter f l ⊆ l.
Proof. intros x [Hx _]%filter_elem. done. Qed.

Lemma filter_all {A} (f : A -> bool) l : (forall x, x ∈ l -> f x = true) -> List.filter f l = l.
Proof.
  induction l as [|x l IH]; intros H; simpl; [done|]. rewrite (H x) by (by left). f_equal. apply IH. intros y Hy. apply H. by right.
Qed.

Lemma filter_none {A} (f : A -> bool) l : (forall x, x ∈ l -> f x = false) -> List.filter f l = [].
Proof. induction l as [|x l IH]; intros H; simpl; [done|]. rewrite (H x) by (by left). apply IH. intros y Hy. apply H. by right. Qed.

(** A measure that sums a weight over indices decreases when one weight does. *)
Lemma sum_decreases (f g : nat -> nat) (l : list nat) x :
  x ∈ l -> g x < f x -> (forall y, g y <= f y) -> sum_list_with g l < sum_list_with f l.
Proof.
  intros Hx Hlt Hle. induction l as [|y l IH]; [set_solver|]. simpl.
  assert (sum_list_with g l <= sum_list_with f l) as Hl.
  { clear -Hle. induction l as [|z l IH]; simpl; [lia|]. specialize (Hle z). lia. }
  apply elem_of_cons in Hx as [->|Hx]; [lia|]. specialize (IH Hx). specialize (Hle y). lia.
Qed.

(** ** Reachability of a step relation *)

Section reach.
Context {S : Type} (init : S -> Prop) (step : S -> S -> Prop).

Inductive reachable : S -> Prop :=
| reach_init s : init s -> reachable s
| reach_step s s' : reachable s -> step s s' -> reachable s'.

Lemma reachable_invariant (P : S -> Prop) :
  (forall s, init s -> P s) ->
  (forall s s', P s -> step s s' -> P s') ->
  forall s, reachable s -> P s.
Proof. intros Hi Hs s Hr. induction Hr; eauto. Qed.
End reach.
