(* ===== verification/PyDict.v ===== *)
(** * Python dictionaries

    A Python [dict] (and [collections.OrderedDict]) keeps its keys in insertion
    order and several routines of the middleware depend on that order (the job
    deque evicts the oldest finished job, policies are processed in the order
    they were declared).  The dictionary is therefore an association list with
    distinct keys: assignment to an existing key keeps its position, a new key
    goes to the end. *)

From S2P Require Import Prelude.

Module Dict.
Section dict.
Context {K V : Type} `{EqDecision K}.
Implicit Types (d : list (K * V)) (k : K) (v : V).

(** [d.get(k)] *)
Fixpoint get (k : K) (d : list (K * V)) : option V :=
  match d with
  | [] => None
  | (k', v) :: d => if decide (k = k') then Some v else get k d
  end.

(** [k in d] *)
Definition mem (k : K) (d : list (K * V)) : bool := bool_decide (is_Some (get k d)).

(** [d[k] = v] *)
Fixpoint set (k : K) (v : V) (d : list (K * V)) : list (K * V) :=
  match d with
  | [] => [(k, v)]
  | (k', v') :: d => if decide (k = k') then (k', v) :: d else (k', v') :: set k v d
  end.

(** [d.pop(k, None)] *)
Fixpoint pop (k : K) (d : list (K * V)) : list (K * V) :=
  match d with
  | [] => []
  | (k', v') :: d => if decide (k = k') then d else (k', v') :: pop k d
  end.

Definition keys (d : list (K * V)) : list K := d.*1.
Definition values (d : list (K * V)) : list V := d.*2.

Definition wf (d : list (K * V)) : Prop := NoDup (keys d).

Lemma get_set_eq k v d : get k (set k v d) = Some v.
Proof. induction d as [|[k' v'] d IH]; simpl; repeat case_decide; simpl; by repeat case_decide. Qed.

Lemma get_set_ne k k' v d : k ≠ k' -> get k' (set k v d) = get k' d.
Proof.
  intros Hne. induction d as [|[k2 v2] d IH]; simpl; repeat case_decide; simpl; subst;
    repeat case_decide; congruence.
Qed.

Lemma get_pop_ne k k' d : k ≠ k' -> get k' (pop k d) = get k' d.
Proof.
  intros Hne. induction d as [|[k2 v2] d IH]; simpl; repeat case_decide; simpl; subst;
    repeat case_decide; congruence.
Qed.

Lemma get_None k d : get k d = None <-> k ∉ keys d.
Proof.
  unfold keys. induction d as [|[k2 v2] d IH]; simpl; [set_solver|].
  case_decide; set_solver.
Qed.

Lemma get_is_Some k d : is_Some (get k d) <-> k ∈ keys d.
Proof.
  pose proof (get_None k d) as HN. destruct (get k d); split; intros H; eauto.
  - destruct (decide (k ∈ keys d)) as [|Hn]; [done|]. apply HN in Hn. done.
  - by destruct H.
  - destruct (proj1 HN eq_refl H).
Qed.

Lemma mem_spec k d : mem k d = true <-> k ∈ keys d.
Proof. unfold mem. by rewrite bool_decide_eq_true, get_is_Some. Qed.

Lemma mem_false k d : mem k d = false <-> get k d = None.
Proof. unfold mem. rewrite bool_decide_eq_false. by rewrite eq_None_not_Some. Qed.

Lemma get_Some_elem k v d : get k d = Some v -> (k, v) ∈ d.
Proof.
  induction d as [|[k2 v2] d IH]; simpl; [done|]. case_decide; [intros [= ->]; subst; set_solver|set_solver].
Qed.

Lemma elem_get k v d : wf d -> (k, v) ∈ d -> get k d = Some v.
Proof.
  unfold wf, keys. induction d as [|[k2 v2] d IH]; simpl; [set_solver|].
  intros Hnd Hin. apply NoDup_cons in Hnd as [Hni Hnd].
  apply elem_of_cons in Hin as [[= -> ->]|Hin]; [by case_decide|].
  case_decide; [subst; destruct Hni; apply list_elem_of_fmap; by exists (k2, v)|auto].
Qed.

Lemma keys_set_old k v d : k ∈ keys d -> keys (set k v d) = keys d.
Proof.
  unfold keys. induction d as [|[k2 v2] d IH]; simpl; [set_solver|].
  intros Hin. case_decide; simpl; [done|]. f_equal. apply IH. set_solver.
Qed.

Lemma set_new k v d : k ∉ keys d -> set k v d = d ++ [(k, v)].
Proof.
  unfold keys. induction d as [|[k2 v2] d IH]; simpl; [done|].
  intros Hin. case_decide; [set_solver|]. f_equal. apply IH. set_solver.
Qed.

Lemma keys_set_new k v d : k ∉ keys d -> keys (set k v d) = keys d ++ [k].
Proof. intros Hin. unfold keys. by rewrite set_new, fmap_app. Qed.

Lemma elem_keys_set k k' v d : k' ∈ keys (set k v d) <-> k' = k \/ k' ∈ keys d.
Proof.
  destruct (decide (k ∈ keys d)) as [Hin|Hni].
  - rewrite keys_set_old by done. set_solver.
  - rewrite keys_set_new by done. set_solver.
Qed.

Lemma wf_set k v d : wf d -> wf (set k v d).
Proof.
  unfold wf. intros Hwf. destruct (decide (k ∈ keys d)) as [Hin|Hni].
  - by rewrite keys_set_old.
  - rewrite keys_set_new by done. apply NoDup_app.
    split; [done|split; [set_solver|apply NoDup_singleton]].
Qed.

Lemma keys_pop_sublist k d : keys (pop k d) `sublist_of` keys d.
Proof.
  unfold keys. induction d as [|[k2 v2] d IH]; simpl; [done|].
  case_decide; simpl; [by apply sublist_cons|by apply sublist_skip].
Qed.

Lemma pop_sublist k d : pop k d `sublist_of` d.
Proof.
  induction d as [|[k2 v2] d IH]; simpl; [done|].
  case_decide; simpl; [by apply sublist_cons|by apply sublist_skip].
Qed.

Lemma wf_pop k d : wf d -> wf (pop k d).
Proof. intros Hwf. eapply sublist_NoDup; [exact Hwf|apply keys_pop_sublist]. Qed.

Lemma get_pop_eq k d : wf d -> get k (pop k d) = None.
Proof.
  unfold wf, keys. induction d as [|[k2 v2] d IH]; simpl; [done|].
  intros [Hni Hnd]%NoDup_cons. case_decide; subst; simpl.
  - by apply get_None.
  - case_decide; [done|]. auto.
Qed.

Lemma elem_keys_pop k k' d : wf d -> (k' ∈ keys (pop k d) <-> k' ≠ k /\ k' ∈ keys d).
Proof.
  intros Hwf. rewrite <-!get_is_Some. destruct (decide (k = k')) as [->|Hne].
  - rewrite get_pop_eq by done. split; [by intros []|tauto].
  - rewrite get_pop_ne by done. naive_solver.
Qed.

Lemma pop_notin k d : k ∉ keys d -> pop k d = d.
Proof.
  unfold keys. induction d as [|[k2 v2] d IH]; simpl; [done|].
  intros Hni. case_decide; [set_solver|]. f_equal. apply IH. set_solver.
Qed.

Lemma length_pop k d : k ∈ keys d -> S (length (pop k d)) = length d.
Proof.
  unfold keys. induction d as [|[k2 v2] d IH]; simpl; [set_solver|].
  intros Hin. case_decide; simpl; [done|]. f_equal. apply IH. set_solver.
Qed.

Lemma length_set_new k v d : k ∉ keys d -> length (set k v d) = S (length d).
Proof. intros Hin. rewrite set_new by done. rewrite length_app. simpl. lia. Qed.

Lemma set_same_get k v d : get k d = Some v -> set k v d = d.
Proof.
  induction d as [|[k2 v2] d IH]; simpl; [done|]. case_decide.
  - by intros [= ->].
  - intros. f_equal. auto.
Qed.

Lemma elem_set k v k' v' d :
  wf d -> ((k', v') ∈ set k v d <-> (k' = k /\ v' = v) \/ (k' ≠ k /\ (k', v') ∈ d)).
Proof.
  intros Hwf. split.
  - intros Hin%elem_get; [|by apply wf_set]. destruct (decide (k = k')) as [->|Hne].
    + rewrite get_set_eq in Hin. left. naive_solver.
    + rewrite get_set_ne in Hin by done. right. split; [done|by apply get_Some_elem].
  - intros [[-> ->]|[Hne Hin]].
    + apply get_Some_elem, get_set_eq.
    + apply get_Some_elem. rewrite get_set_ne by done. by apply elem_get.
Qed.

(** A part of a dict: unique keys, and what it maps the dict maps. *)
Lemma wf_sublist d' d : d' `sublist_of` d -> wf d -> wf d'.
Proof. intros Hs Hwf. eapply sublist_NoDup; [exact Hwf|]. by apply fmap_sublist. Qed.

Lemma get_sublist k v d' d : d' `sublist_of` d -> wf d -> get k d' = Some v -> get k d = Some v.
Proof.
  intros Hs Hwf Hg%get_Some_elem. apply elem_get; [done|].
  by apply (sublist_subseteq _ _ Hs).
Qed.
End dict.
End Dict.

Create HintDb pydict.
Create Rewrite HintDb pydict.
#[export] Hint Resolve Dict.wf_set Dict.wf_pop : pydict.
#[export] Hint Rewrite @Dict.get_set_eq : pydict.
#[export] Hint Rewrite @Dict.get_set_ne @Dict.get_pop_ne using done : pydict.
