(* ===== verification/PyStr.v ===== *)
(** * Python strings

    The [str] operations the modelled code uses, on strings of characters:
    [startswith], [endswith], [find] of a character, [split] on a one-character
    separator, [join], [isdigit], [int] of a digit string and ASCII case
    folding, with the round-trip lemmas the components rely on. *)

From S2P Require Import Prelude.
From Stdlib Require Import Ascii.

Module Str.

Definition startswith (p s : string) : bool := String.prefix p s.

(** [s[n:]] *)
Fixpoint drop (n : nat) (s : string) : string :=
  match n, s with
  | O, _ => s
  | S n, "" => ""
  | S n, String _ s => drop n s
  end.

(** [s[:n]] *)
Fixpoint take (n : nat) (s : string) : string :=
  match n, s with
  | O, _ => ""
  | S n, "" => ""
  | S n, String c s => String c (take n s)
  end.

(** [s.endswith(p)]: some suffix of [s] is [p]. *)
Fixpoint endswith (p s : string) : bool :=
  bool_decide (s = p) ||
  match s with
  | "" => false
  | String _ s => endswith p s
  end.

(** [c in s] for a single character *)
Fixpoint contains (c : ascii) (s : string) : bool :=
  match s with
  | "" => false
  | String c' s => bool_decide (c = c') || contains c s
  end.

(** [s.find(c)], [None] for -1 *)
Fixpoint find (c : ascii) (s : string) : option nat :=
  match s with
  | "" => None
  | String c' s => if decide (c = c') then Some 0 else S <$> find c s
  end.

(** [sub in s] for a substring *)
Fixpoint has_sub (sub s : string) : bool :=
  startswith sub s || match s with "" => false | String _ s => has_sub sub s end.

(** [s.split(c)] *)
Fixpoint split (c : ascii) (s : string) : list string :=
  match s with
  | "" => [""]
  | String c' s =>
      if decide (c = c') then "" :: split c s
      else match split c s with
           | [] => [String c' ""]
           | w :: ws => String c' w :: ws
           end
  end.

(** [sep.join(l)] *)
Fixpoint join (sep : string) (l : list string) : string :=
  match l with
  | [] => ""
  | [w] => w
  | w :: ws => w +:+ sep +:+ join sep ws
  end.

Definition is_digit (c : ascii) : bool :=
  (48 <=? N_of_ascii c)%N && (N_of_ascii c <=? 57)%N.

Fixpoint all (f : ascii -> bool) (s : string) : bool :=
  match s with "" => true | String c s => f c && all f s end.

Fixpoint any (f : ascii -> bool) (s : string) : bool :=
  match s with "" => false | String c s => f c || any f s end.

(** [s.isdigit()] *)
Definition isdigit (s : string) : bool := negb (bool_decide (s = "")) && all is_digit s.

(** [int(s)] for a string of digits, most significant digit first *)
Fixpoint to_Z_acc (acc : Z) (s : string) : Z :=
  match s with
  | "" => acc
  | String c s => to_Z_acc (10 * acc + (Z.of_N (N_of_ascii c) - 48))%Z s
  end.
Definition to_Z (s : string) : Z := to_Z_acc 0 s.

(** ASCII lower case ([str.casefold] on ASCII text) *)
Definition lower_char (c : ascii) : ascii :=
  if (65 <=? N_of_ascii c)%N && (N_of_ascii c <=? 90)%N
  then ascii_of_N (N_of_ascii c + 32) else c.
Fixpoint lower (s : string) : string :=
  match s with "" => "" | String c s => String (lower_char c) (lower s) end.

(** [int(s)] of an ASCII text: surrounding blanks, a sign and single underscores
    between digits are accepted. *)
Definition is_blank (c : ascii) : bool := let n := nat_of_ascii c in (n =? 32) || ((9 <=? n) && (n <=? 13)) || ((28 <=? n) && (n <=? 31)).

Fixpoint strip_left (s : string) : string :=
  match s with String c s' => if is_blank c then strip_left s' else s | "" => "" end.

Fixpoint rev_string (acc s : string) : string :=
  match s with "" => acc | String c s => rev_string (String c acc) s end.

Definition strip (s : string) : string := rev_string "" (strip_left (rev_string "" (strip_left s))).

Definition digits_int (s : string) : option Z :=
  let parts := split "_" s in
  if forallb isdigit parts then Some (to_Z (join "" parts)) else None.

Definition py_int (s : string) : option Z :=
  match strip s with
  | String "+" s => digits_int s
  | String "-" s => Z.opp <$> digits_int s
  | s => digits_int s
  end.

Lemma app_cons c s t : (String c s +:+ t) = String c (s +:+ t).
Proof. reflexivity. Qed.

Lemma app_nil_r s : s +:+ "" = s.
Proof. induction s as [|c s IH]; [done|]. by rewrite app_cons, IH. Qed.

Lemma app_assoc (s t u : string) : (s +:+ t) +:+ u = s +:+ (t +:+ u).
Proof. induction s as [|c s IH]; [done|]. by rewrite !app_cons, IH. Qed.

Lemma startswith_spec p s : startswith p s = true <-> exists t, s = p +:+ t.
Proof.
  unfold startswith. revert s. induction p as [|c p IH]; intros s; simpl.
  - split; [intros _; by exists s|by destruct s].
  - destruct s as [|c' s]; simpl; [split; [done|by intros [? [=]]]|].
    case_match; subst.
    + rewrite IH. split; intros [t Ht]; exists t; [by rewrite Ht|]. rewrite app_cons in Ht. congruence.
    + split; [done|]. intros [t Ht]. rewrite app_cons in Ht. congruence.
Qed.

Lemma endswith_spec p s : endswith p s = true <-> exists t, s = t +:+ p.
Proof.
  induction s as [|c s IH]; simpl; rewrite orb_true_iff, bool_decide_eq_true.
  - split; [intros [<-|?]; [by exists ""|done]|].
    intros [[|c t] Ht]; [by left|]. by rewrite app_cons in Ht.
  - rewrite IH. split.
    + intros [<-|[t ->]]; [by exists ""|]. by exists (String c t).
    + intros [[|c' t] Ht]; [by left|]. rewrite app_cons in Ht. injection Ht as -> ->. right; by exists t.
Qed.

Lemma drop_app p t : drop (String.length p) (p +:+ t) = t.
Proof. induction p as [|c p IH]; [done|]. by rewrite app_cons. Qed.

Lemma contains_find c s : contains c s = true <-> is_Some (find c s).
Proof.
  induction s as [|c' s IH]; simpl; [split; [done|by intros []]|].
  rewrite orb_true_iff, bool_decide_eq_true, IH. case_decide; [naive_solver|].
  rewrite fmap_is_Some. naive_solver.
Qed.

Lemma find_None c s : find c s = None <-> contains c s = false.
Proof. rewrite eq_None_not_Some, <-contains_find. by destruct (contains c s). Qed.

Lemma contains_app c s t : contains c (s +:+ t) = contains c s || contains c t.
Proof. induction s as [|c' s IH]; [done|]. rewrite app_cons. simpl. rewrite IH. by rewrite orb_assoc. Qed.

Lemma find_Some_split c s n :
  find c s = Some n -> s = take n s +:+ String c (drop (S n) s) /\ contains c (take n s) = false.
Proof.
  revert n. induction s as [|c' s IH]; intros n; simpl; [done|].
  case_decide; [by intros [= <-]; subst|].
  destruct (find c s) as [m|]; [|done]. intros [= <-].
  destruct (IH m eq_refl) as [He Hc]. split.
  - change (String c' s = String c' (take m s +:+ String c (drop (S m) s))). by f_equal.
  - simpl. rewrite Hc. by rewrite bool_decide_eq_false_2.
Qed.

Lemma split_ne c s : split c s ≠ [].
Proof. destruct s as [|c' s]; simpl; [done|]. case_decide; [done|]. by destruct (split c s). Qed.

Lemma split_notin c s : contains c s = false -> split c s = [s].
Proof.
  induction s as [|c' s IH]; simpl; [done|]. intros [Hd Hc]%orb_false_iff.
  rewrite bool_decide_eq_false in Hd. rewrite decide_False by done. by rewrite IH.
Qed.

Lemma split_app c s t : contains c s = false -> split c (s +:+ String c t) = s :: split c t.
Proof.
  induction s as [|c' s IH]; intros Hc.
  - change ("" +:+ String c t) with (String c t). simpl. by rewrite decide_True.
  - apply orb_false_iff in Hc as [Hd Hc]. rewrite bool_decide_eq_false in Hd.
    rewrite app_cons. cbn [split]. rewrite decide_False by done. by rewrite IH.
Qed.

Lemma join_split c s : join (String c "") (split c s) = s.
Proof.
  induction s as [|c' s IH]; simpl; [done|]. pose proof (split_ne c s).
  case_decide as Hc; [|destruct (split c s) as [|w [|w' ws]]; simpl in *; by rewrite <-IH].
  destruct (split c s) as [|w ws]; [done|].
  change (join (String c "") ("" :: w :: ws)) with (String c (join (String c "") (w :: ws))).
  by rewrite IH, Hc.
Qed.

Lemma split_no_sep c s : Forall (fun w => contains c w = false) (split c s).
Proof.
  induction s as [|c' s IH]; simpl; [by repeat constructor|].
  case_decide; [by constructor|].
  destruct (split c s) as [|w ws]; inversion IH; subst; constructor; simpl; auto.
  - by rewrite bool_decide_eq_false_2.
  - apply orb_false_iff; split; [by rewrite bool_decide_eq_false_2|done].
Qed.

Lemma split_join c l :
  l ≠ [] -> Forall (fun w => contains c w = false) l -> split c (join (String c "") l) = l.
Proof.
  induction l as [|w l IH]; [done|]. intros _ [Hw Hl]%Forall_cons.
  destruct l as [|w' l].
  - simpl. by apply split_notin.
  - change (join (String c "") (w :: w' :: l))
      with (w +:+ String c "" +:+ join (String c "") (w' :: l)).
    change (String c "" +:+ ?t) with (String c t).
    rewrite split_app by done. f_equal. by apply IH.
Qed.

Lemma to_Z_acc_nonneg acc s : (0 <= acc)%Z -> all is_digit s = true -> (0 <= to_Z_acc acc s)%Z.
Proof.
  revert acc. induction s as [|c s IH]; intros acc Hacc; simpl; [done|].
  intros [Hd Hs]%andb_true_iff. apply IH; [|done].
  unfold is_digit in Hd. apply andb_true_iff in Hd as [H1%N.leb_le H2%N.leb_le]. lia.
Qed.

Lemma to_Z_nonneg s : isdigit s = true -> (0 <= to_Z s)%Z.
Proof. intros [_ Hd]%andb_true_iff. by apply to_Z_acc_nonneg. Qed.
End Str.

Create HintDb pystr.
#[export] Hint Resolve Str.split_ne Str.split_no_sep : pystr.
