(* ===== verification/PyVal.v ===== *)
(** * Python values carried by API calls

    Arguments, results and message bodies are JSON-like Python values.  A dict
    is an association list in insertion order. *)

From S2P Require Import Prelude PyDict.

Inductive json :=
| JNull
| JBool (b : bool)
| JInt (z : Z)
| JStr (s : string)
| JList (l : list json)
| JDict (d : list (string * json)).

(** Induction with hypotheses on the elements of lists and dicts. *)
Section json_rect.
Context (P : json -> Prop).
Context (Hnull : P JNull) (Hbool : forall b, P (JBool b)) (Hint : forall z, P (JInt z)) (Hstr : forall s, P (JStr s)).
Context (Hlist : forall l, Forall P l -> P (JList l)).
Context (Hdict : forall d, Forall (fun kv => P kv.2) d -> P (JDict d)).

Fixpoint json_nested_ind (j : json) : P j :=
  match j with
  | JNull => Hnull
  | JBool b => Hbool b
  | JInt z => Hint z
  | JStr s => Hstr s
  | JList l => Hlist l ((fix go l := match l return Forall P l with
                         | [] => List.Forall_nil _
                         | x :: l => List.Forall_cons _ x l (json_nested_ind x) (go l)
                         end) l)
  | JDict d => Hdict d ((fix go d := match d return Forall (fun kv => P kv.2) d with
                         | [] => List.Forall_nil _
                         | kv :: d => List.Forall_cons _ kv d (json_nested_ind kv.2) (go d)
                         end) d)
  end.
End json_rect.

Fixpoint json_eqb (x y : json) {struct x} : bool :=
  match x, y with
  | JNull, JNull => true
  | JBool a, JBool b => eqb a b
  | JInt a, JInt b => (a =? b)%Z
  | JStr a, JStr b => String.eqb a b
  | JList a, JList b =>
      (fix go a b := match a, b with
       | [], [] => true
       | x :: a, y :: b => json_eqb x y && go a b
       | _, _ => false
       end) a b
  | JDict a, JDict b =>
      (fix go a b := match a, b with
       | [], [] => true
       | (k, x) :: a, (k', y) :: b => String.eqb k k' && json_eqb x y && go a b
       | _, _ => false
       end) a b
  | _, _ => false
  end.

Lemma json_eqb_eq x : forall y, json_eqb x y = true <-> x = y.
Proof.
  induction x as [| | | |l IH|d IH] using json_nested_ind; intros [| | | |l'|d']; simpl;
    try (split; [done|congruence]); try done.
  - rewrite eqb_true_iff. split; congruence.
  - rewrite Z.eqb_eq. split; congruence.
  - rewrite String.eqb_eq. split; congruence.
  - trans (l = l'); [|split; congruence]. revert l'.
    induction IH as [|x l Hx _ IHl]; intros [|y l']; try done.
    rewrite andb_true_iff, Hx, IHl. split; [intros [-> ->]; done|by intros [= -> ->]].
  - trans (d = d'); [|split; congruence]. revert d'.
    induction IH as [|[k x] d Hx _ IHd]; intros [|[k' y] d']; try done. simpl in Hx.
    rewrite !andb_true_iff, String.eqb_eq, Hx, IHd.
    split; [intros [[-> ->] ->]; done|by intros [= -> -> ->]].
Qed.

#[global] Instance json_eq_dec : EqDecision json.
Proof.
  intros x y. destruct (json_eqb x y) eqn:E; [left|right].
  - by apply json_eqb_eq.
  - intros H%json_eqb_eq. congruence.
Defined.

(** [bool(x)] of a value. *)
Definition truthy (j : json) : bool :=
  match j with
  | JNull => false
  | JBool b => b
  | JInt z => negb (z =? 0)%Z
  | JStr s => negb (String.eqb s "")
  | JList l => match l with [] => false | _ => true end
  | JDict d => match d with [] => false | _ => true end
  end.

(** [d.get(k)] and [k in d] of a value that is a dict. *)
Definition jget (k : string) (j : json) : option json :=
  match j with JDict d => Dict.get k d | _ => None end.
