(* ===== verification/PyFormat.v ===== *)
(** * Printing of Python values: [json.dumps], [repr], [str] and the [%] operator

    Alerts identify themselves by [json.dumps(..., sort_keys=True)] of their
    arguments and format their text with [text % args].  The functions cover the
    values of [PyVal.json] (no floats) and strings of ASCII characters; [%]
    covers the conversions [s], [d], [r] and [%%], by position or by name. *)

From Stdlib Require Import Ascii Sorted.
From S2P Require Import Prelude PyDict PyStr PyVal.

Module Fmt.

(** ** Stable sorting ([sorted]) *)

Section sort.
Context {A : Type} (leb : A -> A -> bool).

Fixpoint insert (x : A) (l : list A) : list A :=
  match l with
  | [] => [x]
  | y :: l' => if leb x y then x :: l else y :: insert x l'
  end.

(** [sorted(l)]: an element goes before the first one it is not greater than, from
    the right, so equal elements keep their order. *)
Definition sorted (l : list A) : list A := foldr insert [] l.

Lemma insert_Permutation x l : insert x l ≡ₚ x :: l.
Proof.
  induction l as [|y l IH]; simpl; [done|]. destruct (leb x y); [done|].
  rewrite IH. apply Permutation_swap.
Qed.

Lemma sorted_Permutation l : sorted l ≡ₚ l.
Proof. induction l as [|x l IH]; simpl; [done|]. by rewrite insert_Permutation, IH. Qed.

Context (Htotal : forall x y, leb x y = true \/ leb y x = true)
  (Htrans : forall x y z, leb x y = true -> leb y z = true -> leb x z = true).

Lemma insert_sorted x l :
  StronglySorted (fun a b => leb a b = true) l -> StronglySorted (fun a b => leb a b = true) (insert x l).
Proof.
  induction 1 as [|y l Hl IH Hy]; simpl; [by repeat constructor|].
  destruct (leb x y) eqn:E.
  - constructor; [by constructor|]. constructor; [done|].
    eapply Forall_impl; [exact Hy|]. simpl. eauto.
  - constructor; [done|]. apply Forall_forall. intros z Hz.
    rewrite insert_Permutation in Hz. apply elem_of_cons in Hz as [->|Hz].
    + destruct (Htotal x y); congruence.
    + rewrite Forall_forall in Hy. auto.
Qed.

Lemma sorted_sorted l : StronglySorted (fun a b => leb a b = true) (sorted l).
Proof. induction l as [|x l IH]; simpl; [constructor|by apply insert_sorted]. Qed.

(** Stability: among the elements that are equal to [x], the order is kept. *)
Lemma insert_filter_eq (P : A -> bool) x l :
  (forall y z, P y = true -> P z = true -> leb y z = true) ->
  List.filter P (insert x l) = List.filter P (x :: l).
Proof.
  intros HP. induction l as [|y l IH]; [done|]. simpl. destruct (leb x y) eqn:E; [done|].
  simpl in *. rewrite IH. destruct (P x) eqn:Px, (P y) eqn:Py; try done.
  rewrite (HP x y) in E by done. done.
Qed.

Lemma sorted_stable (P : A -> bool) l :
  (forall y z, P y = true -> P z = true -> leb y z = true) ->
  List.filter P (sorted l) = List.filter P l.
Proof.
  intros HP. induction l as [|x l IH]; [done|]. simpl.
  rewrite insert_filter_eq by done. simpl. by rewrite IH.
Qed.
End sort.

(** Comparison of strings by code point. *)
Definition str_leb (s t : string) : bool :=
  match String.compare s t with Gt => false | _ => true end.

(** ** [json.dumps(x, sort_keys=True)] *)

Definition hex_digit (n : nat) : ascii :=
  ascii_of_nat (if n <? 10 then 48 + n else 87 + n).

Definition hex2 (c : ascii) : string :=
  let n := nat_of_ascii c in String (hex_digit (n / 16)) (String (hex_digit (n mod 16)) "").

Definition one (c : ascii) : string := String c "".
Definition quote : ascii := ascii_of_nat 34.
Definition backslash : ascii := ascii_of_nat 92.

Definition json_char (c : ascii) : string :=
  let n := nat_of_ascii c in
  if n =? 34 then one backslash +:+ one quote
  else if n =? 92 then one backslash +:+ one backslash
  else if n =? 10 then one backslash +:+ "n"
  else if n =? 13 then one backslash +:+ "r"
  else if n =? 9 then one backslash +:+ "t"
  else if n =? 12 then one backslash +:+ "f"
  else if n =? 8 then one backslash +:+ "b"
  else if n <? 32 then one backslash +:+ "u00" +:+ hex2 c
  else one c.

Fixpoint concat_map (f : ascii -> string) (s : string) : string :=
  match s with "" => "" | String c s => f c +:+ concat_map f s end.

Definition json_str (s : string) : string := one quote +:+ concat_map json_char s +:+ one quote.

Fixpoint dumps (j : json) : string :=
  match j with
  | JNull => "null"
  | JBool true => "true"
  | JBool false => "false"
  | JInt z => pretty z
  | JStr s => json_str s
  | JList l => "[" +:+ Str.join ", " (map dumps l) +:+ "]"
  | JDict d =>
      let items := map (fun kv : string * json => (kv.1, json_str kv.1 +:+ ": " +:+ dumps kv.2)) d in
      "{" +:+ Str.join ", " (map snd (sorted (fun a b => str_leb a.1 b.1) items)) +:+ "}"
  end.

(** ** [repr(x)] and [str(x)] *)

Definition apostrophe : ascii := ascii_of_nat 39.

Definition repr_char (q c : ascii) : string :=
  let n := nat_of_ascii c in
  if decide (c = q) then one backslash +:+ one c
  else if n =? 92 then one backslash +:+ one backslash
  else if n =? 10 then one backslash +:+ "n"
  else if n =? 13 then one backslash +:+ "r"
  else if n =? 9 then one backslash +:+ "t"
  else if (n <? 32) || (n =? 127) then one backslash +:+ "x" +:+ hex2 c
  else one c.

Definition repr_str (s : string) : string :=
  let q := if Str.contains apostrophe s && negb (Str.contains quote s) then quote else apostrophe in
  one q +:+ concat_map (repr_char q) s +:+ one q.

Fixpoint repr (j : json) : string :=
  match j with
  | JNull => "None"
  | JBool true => "True"
  | JBool false => "False"
  | JInt z => pretty z
  | JStr s => repr_str s
  | JList l => "[" +:+ Str.join ", " (map repr l) +:+ "]"
  | JDict d => "{" +:+ Str.join ", " (map (fun kv : string * json => repr_str kv.1 +:+ ": " +:+ repr kv.2) d) +:+ "}"
  end.

Definition str (j : json) : string := match j with JStr s => s | _ => repr j end.

(** ** [text % args] *)

(** One conversion; [None] is the [TypeError] or [ValueError] Python raises. *)
Definition convert (c : ascii) (j : json) : option string :=
  match nat_of_ascii c with
  | 115 => Some (str j)
  | 114 => Some (repr j)
  | 100 => match j with
           | JInt z => Some (pretty z)
           | JBool b => Some (if b then "1" else "0")
           | _ => None
           end
  | _ => None
  end.

(** The name in [%(name)s] and what follows the parenthesis. *)
Fixpoint until_paren (s : string) : option (string * string) :=
  match s with
  | "" => None
  | String ")" s => Some ("", s)
  | String c s => match until_paren s with Some (n, r) => Some (String c n, r) | None => None end
  end.

(** [args] as [%] takes it: a tuple of values, or a mapping that also counts as
    the one positional value and whose left-over is not an error. *)
Inductive operand := Positional (l : list json) | Mapping (d : list (string * json)) (rest : list json).

Fixpoint percent_loop (fuel : nat) (s : string) (a : operand) : option string :=
  match fuel with
  | O => None
  | S fuel =>
      match s with
      | "" => match a with Positional (_ :: _) => None | _ => Some "" end
      | String "%" (String "%" s) => (fun t => String "%" t) <$> percent_loop fuel s a
      | String "%" (String "(" s) =>
          match a, until_paren s with
          | Mapping d rest, Some (k, String c s) =>
              match Dict.get k d ≫= convert c, percent_loop fuel s a with
              | Some t, Some u => Some (t +:+ u)
              | _, _ => None
              end
          | _, _ => None
          end
      | String "%" (String c s) =>
          match a with
          | Positional (j :: l) | Mapping _ (j :: l) =>
              let a' := match a with Positional _ => Positional l | Mapping d _ => Mapping d l end in
              match convert c j, percent_loop fuel s a' with
              | Some t, Some u => Some (t +:+ u)
              | _, _ => None
              end
          | _ => None
          end
      | String "%" "" => None
      | String c s => (fun t => String c t) <$> percent_loop fuel s a
      end
  end.

Definition percent (text : string) (a : operand) : option string :=
  percent_loop (S (String.length text)) text a.

Example percent_example :
  percent "disk %(name)s: %(n)d %%" (Mapping [("name", JStr "sda"); ("n", JInt 3)] []) = Some "disk sda: 3 %".
Proof. vm_compute. reflexivity. Qed.
End Fmt.
