(* ===== verification/Errors.v ===== *)
(** * Exceptions (src/middlewared/middlewared/service_exception.py)

    [CallError], [ValidationError] and [ValidationErrors], the exceptions every
    service raises, and the conversion of subprocess failures. *)

From S2P Require Import Prelude PyDict PyStr PyVal.

(** The [errno] constants used by the modelled code. *)
Definition EPERM : Z := 1.
Definition ENOENT : Z := 2.
Definition EAGAIN : Z := 11.
Definition EACCES : Z := 13.
Definition EFAULT : Z := 14.
Definition EBUSY : Z := 16.
Definition EINVAL : Z := 22.
Definition ENONET : Z := 64.
Definition EOPNOTSUPP : Z := 95.

Definition NL : string := String (Ascii.ascii_of_nat 10) EmptyString.

(** ** The exceptions *)

Record ValidationError := mkVE {
  ve_attribute : option string;
  ve_errmsg : string;
  ve_errno : Z;
}.

#[global] Instance ValidationError_eq_dec : EqDecision ValidationError.
Proof. solve_decision. Defined.

(** [cmd] of a [subprocess.CalledProcessError]. *)
Inductive command := CmdList (l : list string) | CmdStr (s : string).

(** A Python exception as the middleware distinguishes them.  The class name of
    a subclass is kept for [etype.__name__]. *)
Inductive exn :=
| ECallError (cls errmsg : string) (errno : Z) (extra : json)
| EValidationError (e : ValidationError)
| EValidationErrors (errors : list ValidationError)
| ECalledProcess (cmd : command) (returncode : Z) (stdout stderr : option string)
| EOther (cls str : string).

#[global] Instance command_eq_dec : EqDecision command.
Proof. solve_decision. Defined.
#[global] Instance exn_eq_dec : EqDecision exn.
Proof. solve_decision. Defined.

Definition CallError (errmsg : string) (errno : Z) : exn := ECallError "CallError" errmsg errno JNull.

(** [InstanceNotFound(errmsg)] *)
Definition InstanceNotFound (errmsg : string) : exn := EValidationError (mkVE None errmsg ENOENT).

(** [NetworkActivityDisabled(errmsg)] *)
Definition NetworkActivityDisabled (errmsg : string) : exn :=
  ECallError "NetworkActivityDisabled" errmsg ENONET JNull.

(** [str(None)] is ["None"] when an attribute is formatted. *)
Definition attr_str (a : option string) : string := default "None" a.

(** ** Error names and messages

    [errorcode] is Python's [errno.errorcode]; [ErrnoMixin._get_errname] belongs
    to the API client package. *)
Section errname.
Context (errorcode : Z -> option string) (mixin_errname : Z -> option string).

Definition get_errname (code : Z) : string :=
  let or_else (o : option string) (k : string) := match o with Some n => if String.eqb n "" then k else n | None => k end in
  or_else (errorcode code) (or_else (mixin_errname code) "EUNKNOWN").

Definition CallError_str (errmsg : string) (errno : Z) : string :=
  "[" ++ get_errname errno ++ "] " ++ errmsg.

Definition ValidationError_str (e : ValidationError) : string :=
  "[" ++ get_errname (ve_errno e) ++ "] " ++ attr_str (ve_attribute e) ++ ": " ++ ve_errmsg e.

Definition ValidationErrors_str (errors : list ValidationError) : string :=
  foldl (fun output e => output +:+ (ValidationError_str e +:+ NL)) "" errors.
End errname.

(** ** [ValidationErrors], a mutable list of errors *)
Module VErrors.
Definition t := list ValidationError.

Definition add (attribute : option string) (errmsg : string) (errno : Z) (v : t) : t :=
  v ++ [mkVE attribute errmsg errno].

Definition add_validation_error (e : ValidationError) (v : t) : t := v ++ [e].

Definition child_attr (attribute : string) (e : ValidationError) : string :=
  attribute ++ "." ++ attr_str (ve_attribute e).

Definition add_child (attribute : string) (child v : t) : t :=
  foldl (fun v e => add (Some (child_attr attribute e)) (ve_errmsg e) (ve_errno e) v) v child.

Definition extend (errors v : t) : t :=
  foldl (fun v e => add (ve_attribute e) (ve_errmsg e) (ve_errno e) v) v errors.

Definition bool (v : t) : Datatypes.bool := match v with [] => false | _ => true end.

Definition check (v : t) : result exn unit := if bool v then Err (EValidationErrors v) else Ok tt.

(** [__iter__] yields the tuples shown to API clients. *)
Definition iter (v : t) : list (option string * string * Z) :=
  map (fun e => (ve_attribute e, ve_errmsg e, ve_errno e)) v.

Definition contains (item : option string) (v : t) : Datatypes.bool := bool_decide (item ∈ map ve_attribute v).

Lemma add_not_nil a m n v : add a m n v ≠ [].
Proof. unfold add. by destruct v. Qed.
End VErrors.

(** [output.rstrip()] for the ASCII white space of [str.rstrip]. *)
Definition is_space (c : Ascii.ascii) : bool :=
  let n := Ascii.nat_of_ascii c in bool_decide (n ∈ [9; 10; 11; 12; 13; 28; 29; 30; 31; 32]).

Fixpoint rstrip (s : string) : string :=
  match s with
  | EmptyString => EmptyString
  | String c s' =>
      match rstrip s' with
      | EmptyString => if is_space c then EmptyString else String c EmptyString
      | r => String c r
      end
  end.

(** [adapt_exception]; [join_commandline] (utils/shell.py) quotes a command
    with [shlex.quote], which is a parameter here. *)
Definition adapt_exception (join_commandline : list string -> string) (e : exn) : option exn :=
  match e with
  | ECalledProcess cmd returncode stdout stderr =>
      let cmd := match cmd with CmdList l => join_commandline l | CmdStr s => s end in
      let output := rstrip (default "" stdout ++ default "" stderr) in
      Some (CallError ("Command " ++ cmd ++ " failed (code " ++ pretty returncode ++ "):" ++ NL ++ output) EFAULT)
  | _ => None
  end.

(** ** Facts *)

Lemma add_child_app a child v :
  VErrors.add_child a child v =
  v ++ map (fun e => mkVE (Some (VErrors.child_attr a e)) (ve_errmsg e) (ve_errno e)) child.
Proof.
  unfold VErrors.add_child, VErrors.add. revert v. induction child as [|e child IH]; intros v; simpl.
  - by rewrite app_nil_r.
  - by rewrite IH, <-(assoc_L (++)).
Qed.

Lemma extend_app es v : VErrors.extend es v = v ++ es.
Proof.
  unfold VErrors.extend, VErrors.add. revert v. induction es as [|[] es IH]; intros v; simpl.
  - by rewrite app_nil_r.
  - by rewrite IH, <-(assoc_L (++)).
Qed.

(** Collecting validation errors.  Errors added through children and
    extensions are all kept, in order: the attributes reported after nesting
    the errors of a child under [a] and extending with others are those already
    present, the child's prefixed with [a.], then the others; and [check] raises
    exactly when one of the three collections had an error. *)
Theorem validation_errors_compose (a : string) (v child others : VErrors.t) :
  let w := VErrors.extend others (VErrors.add_child a child v) in
  VErrors.iter w = VErrors.iter v ++
     map (fun e => (Some (VErrors.child_attr a e), ve_errmsg e, ve_errno e)) child ++ VErrors.iter others /\
  (forall x, VErrors.contains x w = VErrors.contains x v
     || bool_decide (x ∈ map (fun e => Some (VErrors.child_attr a e)) child) || VErrors.contains x others) /\
  VErrors.check w =
    (if VErrors.bool v || VErrors.bool child || VErrors.bool others then Err (EValidationErrors w) else Ok tt).
Proof.
  cbv zeta. rewrite extend_app, add_child_app. split; [|split].
  - unfold VErrors.iter. by rewrite !map_app, map_map, <-(assoc_L (++)).
  - intros x. unfold VErrors.contains. rewrite !map_app, map_map. simpl.
    rewrite !bool_decide_decide. do 4 destruct (decide _); simpl; try done; exfalso; set_solver.
  - unfold VErrors.check. by destruct v, child, others.
Qed.
