(* ===== verification/Roles.v ===== *)
(** * Roles and the role manager (src/middlewared/middlewared/role.py)

    A role includes other roles; methods and events are registered with the
    roles that may use them.  [ResourceManager] keeps the registrations of one
    kind of resource, [RoleManager] the two managers (methods and events) and
    the two closures over the inclusion graph: downwards from a role to
    everything it grants ([roles_for_role]) and upwards from a resource to
    every role that reaches it ([roles_for_resource]). *)

From S2P Require Import Prelude PyDict PyStr.
From stdpp Require Import sorting.

(** ** Data *)

(** [STIGType], an [IntFlag]: [NONE = 0], [GPOS = 1]. *)
Definition STIG_NONE : Z := 0.
Definition GPOS : Z := 1.

Record Role := mkRole {
  includes : list string;
  full_admin : bool;
  builtin : bool;
  stig : option Z;
}.

(** [Role(includes=...)] with the dataclass defaults. *)
Definition role (incs : list string) : Role := mkRole incs false true (Some GPOS).

Definition ROLES_part1 : list (string * Role) := [
  ("ACCOUNT_READ", role []);
  ("ACCOUNT_WRITE", role ["ACCOUNT_READ"]);
  ("API_KEY_READ", role []);
  ("API_KEY_WRITE", mkRole ["API_KEY_READ"] false true None);
  ("AUTH_SESSIONS_READ", role []);
  ("AUTH_SESSIONS_WRITE", role ["AUTH_SESSIONS_READ"]);
  ("BOOT_ENV_READ", role []);
  ("BOOT_ENV_WRITE", role ["BOOT_ENV_READ"]);
  ("DIRECTORY_SERVICE_READ", role []);
  ("DIRECTORY_SERVICE_WRITE", role ["DIRECTORY_SERVICE_READ"]);
  ("DISK_READ", role []);
  ("DISK_WRITE", role ["DISK_READ"]);
  ("FAILOVER_READ", role []);
  ("FAILOVER_WRITE", role ["FAILOVER_READ"]);
  ("FILESYSTEM_ATTRS_READ", role []);
  ("FILESYSTEM_ATTRS_WRITE", role ["FILESYSTEM_ATTRS_READ"]);
  ("FILESYSTEM_DATA_READ", role []);
  ("FILESYSTEM_DATA_WRITE", role ["FILESYSTEM_DATA_READ"]);
  ("FILESYSTEM_FULL_CONTROL", role ["FILESYSTEM_ATTRS_WRITE"; "FILESYSTEM_DATA_WRITE"]);
  ("IPMI_READ", role []);
  ("IPMI_WRITE", role ["IPMI_READ"]);
  ("KMIP_READ", role []);
  ("KMIP_WRITE", role ["KMIP_READ"]);
  ("MAIL_WRITE", role []);
  ("PRIVILEGE_READ", role []);
  ("PRIVILEGE_WRITE", role ["PRIVILEGE_WRITE"]);
  ("REPORTING_READ", role []);
  ("REPORTING_WRITE", role ["REPORTING_READ"]);
  ("SUPPORT_READ", role []);
  ("SUPPORT_WRITE", role ["SUPPORT_READ"]);
  ("SSH_READ", role []);
  ("SSH_WRITE", role ["SSH_READ"]);
  ("SYSTEM_AUDIT_READ", role []);
  ("SYSTEM_AUDIT_WRITE", role []);
  ("FULL_ADMIN", mkRole [] true false (Some GPOS));
  ("ALERT_LIST_READ", role []);
  ("ALERT_LIST_WRITE", role ["ALERT_LIST_READ"]);
  ("ALERT_READ", role ["ALERT_LIST_READ"]);
  ("ALERT_WRITE", role ["ALERT_LIST_WRITE"; "ALERT_READ"]);
  ("CLOUD_BACKUP_READ", role []);
  ("CLOUD_BACKUP_WRITE", role ["CLOUD_BACKUP_READ"]);
  ("CLOUD_SYNC_READ", role []);
  ("CLOUD_SYNC_WRITE", role ["CLOUD_SYNC_READ"]);
  ("SERVICE_READ", role []);
  ("SERVICE_WRITE", role []);
  ("ENCLOSURE_READ", role []);
  ("ENCLOSURE_WRITE", role ["ENCLOSURE_READ"]);
  ("NETWORK_GENERAL_READ", role []);
  ("NETWORK_GENERAL_WRITE", role ["NETWORK_GENERAL_READ"]);
  ("NETWORK_INTERFACE_READ", role []);
  ("NETWORK_INTERFACE_WRITE", role ["NETWORK_INTERFACE_READ"]);
  ("VM_READ", role []);
  ("VM_WRITE", mkRole ["VM_READ"] false true None);
  ("VM_DEVICE_READ", role ["VM_READ"]);
  ("VM_DEVICE_WRITE", mkRole ["VM_WRITE"; "VM_DEVICE_READ"] false true None);
  ("CONTAINER_READ", role []);
  ("CONTAINER_WRITE", mkRole ["CONTAINER_READ"] false true None);
  ("LXC_CONFIG_READ", role []);
  ("LXC_CONFIG_WRITE", mkRole ["LXC_CONFIG_READ"] false true None);
  ("CONTAINER_DEVICE_READ", role ["CONTAINER_READ"]);
  ("CONTAINER_DEVICE_WRITE", mkRole ["CONTAINER_WRITE"; "CONTAINER_DEVICE_READ"] false true None);
  ("CONTAINER_IMAGE_READ", role []);
  ("CONTAINER_IMAGE_WRITE", mkRole ["CONTAINER_IMAGE_READ"] false true None);
  ("JBOF_READ", role []);
  ("JBOF_WRITE", role ["JBOF_READ"]);
  ("TRUECOMMAND_READ", role []);
  ("TRUECOMMAND_WRITE", mkRole ["TRUECOMMAND_READ"] false true None);
  ("TRUENAS_CONNECT_READ", role []);
  ("TRUENAS_CONNECT_WRITE", mkRole ["TRUENAS_CONNECT_READ"] false true None);
  ("CERTIFICATE_READ", role []);
  ("CERTIFICATE_WRITE", role ["CERTIFICATE_READ"]);
  ("CATALOG_READ", role []);
  ("CATALOG_WRITE", mkRole ["CATALOG_READ"] false true None);
  ("DOCKER_READ", role []);
  ("DOCKER_WRITE", mkRole ["DOCKER_READ"] false true None);
  ("APPS_READ", role ["CATALOG_READ"]);
  ("APPS_WRITE", mkRole ["CATALOG_WRITE"; "APPS_READ"] false true None);
  ("SHARING_FTP_READ", role [])
].

Definition ROLES_part2 : list (string * Role) := [
  ("SHARING_FTP_WRITE", role ["SHARING_FTP_READ"]);
  ("SHARING_ISCSI_AUTH_READ", role []);
  ("SHARING_ISCSI_AUTH_WRITE", role ["SHARING_ISCSI_AUTH_READ"]);
  ("SHARING_ISCSI_EXTENT_READ", role []);
  ("SHARING_ISCSI_EXTENT_WRITE", role ["SHARING_ISCSI_EXTENT_READ"]);
  ("SHARING_ISCSI_GLOBAL_READ", role []);
  ("SHARING_ISCSI_GLOBAL_WRITE", role ["SHARING_ISCSI_GLOBAL_READ"]);
  ("SHARING_ISCSI_HOST_READ", role []);
  ("SHARING_ISCSI_HOST_WRITE", role ["SHARING_ISCSI_HOST_READ"]);
  ("SHARING_ISCSI_INITIATOR_READ", role []);
  ("SHARING_ISCSI_INITIATOR_WRITE", role ["SHARING_ISCSI_INITIATOR_READ"]);
  ("SHARING_ISCSI_PORTAL_READ", role []);
  ("SHARING_ISCSI_PORTAL_WRITE", role ["SHARING_ISCSI_PORTAL_READ"]);
  ("SHARING_ISCSI_TARGET_READ", role []);
  ("SHARING_ISCSI_TARGET_WRITE", role ["SHARING_ISCSI_TARGET_READ"]);
  ("SHARING_ISCSI_TARGETEXTENT_READ", role []);
  ("SHARING_ISCSI_TARGETEXTENT_WRITE", role ["SHARING_ISCSI_TARGETEXTENT_READ"]);
  ("SHARING_ISCSI_READ", role ["SHARING_ISCSI_AUTH_READ"; "SHARING_ISCSI_EXTENT_READ";
      "SHARING_ISCSI_GLOBAL_READ"; "SHARING_ISCSI_HOST_READ";
      "SHARING_ISCSI_INITIATOR_READ"; "SHARING_ISCSI_PORTAL_READ";
      "SHARING_ISCSI_TARGET_READ"; "SHARING_ISCSI_TARGETEXTENT_READ"]);
  ("SHARING_ISCSI_WRITE", role ["SHARING_ISCSI_AUTH_WRITE"; "SHARING_ISCSI_EXTENT_WRITE";
      "SHARING_ISCSI_GLOBAL_WRITE"; "SHARING_ISCSI_HOST_WRITE";
      "SHARING_ISCSI_INITIATOR_WRITE"; "SHARING_ISCSI_PORTAL_WRITE";
      "SHARING_ISCSI_TARGET_WRITE"; "SHARING_ISCSI_TARGETEXTENT_WRITE"]);
  ("SHARING_NFS_READ", role []);
  ("SHARING_NFS_WRITE", role ["SHARING_NFS_READ"]);
  ("SHARING_NVME_TARGET_READ", role []);
  ("SHARING_NVME_TARGET_WRITE", role ["SHARING_NVME_TARGET_READ"]);
  ("SHARING_SMB_READ", role []);
  ("SHARING_SMB_WRITE", role ["SHARING_SMB_READ"]);
  ("SHARING_WEBSHARE_READ", role []);
  ("SHARING_WEBSHARE_WRITE", role ["SHARING_WEBSHARE_READ"]);
  ("SHARING_READ", role ["SHARING_ISCSI_READ"; "SHARING_NFS_READ"; "SHARING_NVME_TARGET_READ";
      "SHARING_SMB_READ"; "SHARING_FTP_READ"; "SHARING_WEBSHARE_READ"]);
  ("SHARING_WRITE", role ["SHARING_ISCSI_WRITE"; "SHARING_NFS_WRITE"; "SHARING_NVME_TARGET_WRITE";
      "SHARING_SMB_WRITE"; "SHARING_FTP_WRITE"; "SHARING_WEBSHARE_WRITE"]);
  ("KEYCHAIN_CREDENTIAL_READ", role []);
  ("KEYCHAIN_CREDENTIAL_WRITE", role ["KEYCHAIN_CREDENTIAL_READ"]);
  ("REPLICATION_TASK_CONFIG_READ", role []);
  ("REPLICATION_TASK_CONFIG_WRITE", role ["REPLICATION_TASK_CONFIG_READ"]);
  ("REPLICATION_TASK_READ", role []);
  ("REPLICATION_TASK_WRITE", role ["REPLICATION_TASK_READ"]);
  ("REPLICATION_TASK_WRITE_PULL", role ["REPLICATION_TASK_WRITE"]);
  ("SNAPSHOT_TASK_READ", role []);
  ("SNAPSHOT_TASK_WRITE", role ["SNAPSHOT_TASK_READ"]);
  ("POOL_SCRUB_READ", role []);
  ("POOL_SCRUB_WRITE", role ["POOL_SCRUB_READ"]);
  ("POOL_READ", role ["POOL_SCRUB_READ"]);
  ("POOL_WRITE", role ["POOL_READ"; "POOL_SCRUB_WRITE"]);
  ("DATASET_READ", role []);
  ("DATASET_WRITE", role ["DATASET_READ"]);
  ("DATASET_DELETE", role []);
  ("SNAPSHOT_READ", role []);
  ("SNAPSHOT_WRITE", role ["SNAPSHOT_READ"]);
  ("SNAPSHOT_DELETE", role []);
  ("REPLICATION_ADMIN", mkRole ["KEYCHAIN_CREDENTIAL_WRITE"; "REPLICATION_TASK_CONFIG_WRITE";
      "REPLICATION_TASK_WRITE"; "SNAPSHOT_TASK_WRITE"; "SNAPSHOT_WRITE"] false false (Some GPOS));
  ("SHARING_ADMIN", mkRole ["READONLY_ADMIN"; "DATASET_WRITE"; "SHARING_WRITE"; "ZFS_RESOURCE_WRITE";
      "FILESYSTEM_ATTRS_WRITE"; "SERVICE_READ"] false false (Some GPOS));
  ("SYSTEM_GENERAL_READ", role []);
  ("SYSTEM_GENERAL_WRITE", role ["SYSTEM_GENERAL_READ"]);
  ("SYSTEM_PRODUCT_READ", role []);
  ("SYSTEM_PRODUCT_WRITE", role ["SYSTEM_PRODUCT_WRITE"]);
  ("SYSTEM_ADVANCED_READ", role []);
  ("SYSTEM_ADVANCED_WRITE", role ["SYSTEM_ADVANCED_READ"]);
  ("SYSTEM_SECURITY_READ", role []);
  ("SYSTEM_SECURITY_WRITE", role ["SYSTEM_SECURITY_READ"]);
  ("SYSTEM_TUNABLE_READ", role []);
  ("SYSTEM_TUNABLE_WRITE", role ["SYSTEM_TUNABLE_READ"]);
  ("SYSTEM_CRON_READ", role []);
  ("SYSTEM_CRON_WRITE", role ["SYSTEM_CRON_READ"]);
  ("SYSTEM_UPDATE_READ", role []);
  ("SYSTEM_UPDATE_WRITE", role ["SYSTEM_UPDATE_READ"]);
  ("ZFS_RESOURCE_READ", role []);
  ("ZFS_RESOURCE_WRITE", role ["ZFS_RESOURCE_READ"]);
  ("ZFS_RESOURCE_DELETE", role [])
].

(** [ROLES] with the line that adds [READONLY_ADMIN] after the table. *)
Definition ROLES : list (string * Role) :=
  let table := ROLES_part1 ++ ROLES_part2 in
  Dict.set "READONLY_ADMIN"
    (mkRole (filter (fun r => Is_true (Str.endswith "_READ" r)) (Dict.keys table)) false false (Some GPOS))
    table.

Definition READ_RESOURCE_BLACKLIST : list string :=
  [".create"; ".do_create"; ".update"; ".do_update"; ".delete"; ".do_delete"].

(** Exceptions raised by the managers. [RecursionError] stands for a call whose
    recursion does not bottom out within the fuel. *)
Inductive role_exn :=
| ValueError (msg : string)
| KeyError (key : string)
| RecursionError.

(** An allow list entry [{"method": ..., "resource": ...}]. *)
Definition allow_entry : Type := string * string.

(** ** ResourceManager *)

Record ResourceManager := mkRM {
  resource_title : string;
  resource_method : string;
  resources : list (string * list string);
  allowlists_for_roles : gmap string (list allow_entry);
}.

Definition new_ResourceManager (title method : string) : ResourceManager :=
  mkRM title method [] ∅.

(** [resource_name.endswith(READ_RESOURCE_BLACKLIST)] *)
Definition blacklisted (resource_name : string) : bool :=
  existsb (fun suf => Str.endswith suf resource_name) READ_RESOURCE_BLACKLIST.

(** The validation loop of [add_roles_to_resource]. *)
Fixpoint check_roles (rs : list (string * Role)) (resource_name : string) (l : list string)
  : result role_exn unit :=
  match l with
  | [] => Ok tt
  | r :: l =>
      if negb (Dict.mem r rs) then Err (ValueError ("Invalid role " +:+ r))
      else if Str.endswith "_READ" r && blacklisted resource_name
      then Err (ValueError (resource_name +:+ ": resource may not be granted to " +:+ r))
      else check_roles rs resource_name l
  end.

Definition allow_default (m : gmap string (list allow_entry)) (r : string) : list allow_entry :=
  default [] (m !! r).

Definition add_roles_to_resource (rs : list (string * Role)) (resource_name : string)
    (l : list string) (rm : ResourceManager) : ResourceManager * result role_exn unit :=
  match Dict.get resource_name (resources rm) with
  | None => (rm, Err (ValueError (resource_title rm +:+ " " +:+ resource_name
                       +:+ " is not registered in this role manager")))
  | Some old =>
      match check_roles rs resource_name l with
      | Err e => (rm, Err e)
      | Ok _ =>
          (mkRM (resource_title rm) (resource_method rm)
             (Dict.set resource_name (old ++ l) (resources rm))
             (foldl (fun m r =>
                <[r := allow_default m r ++ [(resource_method rm, resource_name)]]> m)
                (allowlists_for_roles rm) l),
           Ok tt)
      end
  end.

Definition register_resource (rs : list (string * Role)) (resource_name : string)
    (l : list string) (exist_ok : bool) (rm : ResourceManager)
  : ResourceManager * result role_exn unit :=
  if Dict.mem resource_name (resources rm) then
    if negb exist_ok then
      (rm, Err (ValueError (resource_title rm +:+ " " +:+ resource_name
                  +:+ " is already registered in this role manager")))
    else add_roles_to_resource rs resource_name l rm
  else
    add_roles_to_resource rs resource_name l
      (mkRM (resource_title rm) (resource_method rm)
         (Dict.set resource_name [] (resources rm)) (allowlists_for_roles rm)).

Definition atomic_roles_for_resource (resource_name : string) (rm : ResourceManager) : gset string :=
  list_to_set (default [] (Dict.get resource_name (resources rm))).

(** One execution of the [for] loop of [roles_for_resource]. *)
Definition closure_visit (st : gset string * bool) (item : string * Role) : gset string * bool :=
  let '(roles, changed) := st in
  let '(role_name, r) := item in
  if decide (role_name ∈ roles) then (roles, changed)
  else foldl (fun '(roles, changed) child =>
         if decide (child ∈ roles) then ({[role_name]} ∪ roles, true) else (roles, changed))
         (roles, changed) (includes r).

Definition closure_pass (rs : list (string * Role)) (roles : gset string) : gset string * bool :=
  foldl closure_visit (roles, false) rs.

(** The [while changed] loop; [None] when the fuel runs out. *)
Fixpoint closure_loop (fuel : nat) (rs : list (string * Role)) (roles : gset string)
  : option (gset string) :=
  match fuel with
  | O => None
  | S fuel =>
      let '(roles', changed) := closure_pass rs roles in
      if changed then closure_loop fuel rs roles' else Some roles'
  end.

Definition roles_for_resource (rs : list (string * Role)) (resource_name : string)
    (rm : ResourceManager) : option (list string) :=
  roles ← closure_loop (S (length rs)) rs (atomic_roles_for_resource resource_name rm);
  Some (merge_sort String.le (elements roles)).

(** ** RoleManager *)

Record RoleManager := mkRoleManager {
  roles : list (string * Role);
  methods : ResourceManager;
  events : ResourceManager;
}.

Definition new_RoleManager (rs : list (string * Role)) : RoleManager :=
  mkRoleManager rs (new_ResourceManager "Method" "CALL") (new_ResourceManager "Event" "SUBSCRIBE").

Definition register_method (name : string) (l : list string) (exist_ok : bool) (m : RoleManager)
  : RoleManager * result role_exn unit :=
  let '(ms, r) := register_resource (roles m) name l exist_ok (methods m) in
  (mkRoleManager (roles m) ms (events m), r).

Definition add_roles_to_method (name : string) (l : list string) (m : RoleManager)
  : RoleManager * result role_exn unit :=
  let '(ms, r) := add_roles_to_resource (roles m) name l (methods m) in
  (mkRoleManager (roles m) ms (events m), r).

Definition register_event (name : string) (l : list string) (exist_ok : bool) (m : RoleManager)
  : RoleManager * result role_exn unit :=
  let '(es, r) := register_resource (roles m) name l exist_ok (events m) in
  (mkRoleManager (roles m) (methods m) es, r).

(** [not enabled_stig]: [None] or the empty flag. *)
Definition stig_unset (enabled : option Z) : bool :=
  match enabled with None => true | Some z => Z.eqb z 0 end.

Definition role_stig_check (rs : list (string * Role)) (role_name : string) (enabled : option Z)
  : result role_exn bool :=
  if stig_unset enabled then Ok true
  else match Dict.get role_name rs with
       | None => Err (KeyError role_name)
       | Some r =>
           match stig r with
           | None => Ok false
           | Some s => Ok (negb (Z.eqb (Z.land s (default 0%Z enabled)) 0))
           end
       end.

(** [{x for x in l if f(x)}] where the test may raise. *)
Fixpoint filterE (f : string -> result role_exn bool) (l : list string) : result role_exn (list string) :=
  match l with
  | [] => Ok []
  | x :: l => b ← f x; xs ← filterE f l; Ok (if b : bool then x :: xs else xs)
  end.

Fixpoint roles_for_role (fuel : nat) (rs : list (string * Role)) (enabled : option Z) (name : string)
  : result role_exn (gset string) :=
  match fuel with
  | O => Err RecursionError
  | S fuel =>
      match Dict.get name rs with
      | None => Ok ∅
      | Some r =>
          if full_admin r then
            l ← filterE (fun n => role_stig_check rs n enabled) (Dict.keys rs);
            Ok (list_to_set l)
          else
            subs ← mapE (fun inc =>
                ok ← role_stig_check rs inc enabled;
                if ok : bool then roles_for_role fuel rs enabled inc else Ok ∅) (includes r);
            Ok ({[name]} ∪ ⋃ subs)
      end
  end.

(** [sum([methods.allowlists_for_roles[r] + events.allowlists_for_roles[r] for r in ...], [])] *)
Definition allowlists_of (m : RoleManager) (s : gset string) : list allow_entry :=
  concat (map (fun r => allow_default (allowlists_for_roles (methods m)) r
                        ++ allow_default (allowlists_for_roles (events m)) r) (elements s)).

Definition ALLOW_LIST_FULL_ADMIN : allow_entry := ("*", "*").

Definition allowlist_for_role (fuel : nat) (m : RoleManager) (enabled : option Z) (name : string)
  : result role_exn (list allow_entry) :=
  match Dict.get name (roles m) with
  | Some r =>
      if full_admin r then
        if negb (stig_unset enabled) then
          s ← roles_for_role fuel (roles m) enabled name; Ok (allowlists_of m s)
        else Ok [ALLOW_LIST_FULL_ADMIN]
      else s ← roles_for_role fuel (roles m) enabled name; Ok (allowlists_of m s)
  | None => s ← roles_for_role fuel (roles m) enabled name; Ok (allowlists_of m s)
  end.

Definition roles_for_method (name : string) (m : RoleManager) : option (list string) :=
  roles_for_resource (roles m) name (methods m).
Definition atomic_roles_for_method (name : string) (m : RoleManager) : gset string :=
  atomic_roles_for_resource name (methods m).
Definition roles_for_event (name : string) (m : RoleManager) : option (list string) :=
  roles_for_resource (roles m) name (events m).
Definition atomic_roles_for_event (name : string) (m : RoleManager) : gset string :=
  atomic_roles_for_resource name (events m).

(** ** The inclusion graph *)

Definition incl (rs : list (string * Role)) (r c : string) : Prop :=
  exists R, Dict.get r rs = Some R /\ c ∈ includes R.

(** *** Upward closure: [roles_for_resource] *)

Section upward.
Context (rs : list (string * Role)).
Implicit Types (A B : gset string) (ch : bool).

Definition has_child A (r : Role) : Prop := Exists (fun c => c ∈ A) (includes r).

#[local] Instance has_child_dec A r : Decision (has_child A r).
Proof. unfold has_child. apply _. Defined.

Lemma closure_inner A ch n l :
  foldl (fun '(roles, changed) child =>
      if decide (child ∈ roles) then ({[n]} ∪ roles, true) else (roles, changed)) (A, ch) l
  = if decide (Exists (fun c => c ∈ A) l) then ({[n]} ∪ A, true) else (A, ch).
Proof.
  revert A ch. induction l as [|c l IH]; intros A ch; cbn [foldl];
    [rewrite decide_False; [done|by inversion 1]|].
  destruct (decide (c ∈ A)) as [Hc|Hc].
  - assert (Exists (fun c => c ∈ A) (c :: l)) as He by (by constructor).
    rewrite IH, (decide_True _ _ He).
    assert ({[n]} ∪ ({[n]} ∪ A) = {[n]} ∪ A) as -> by set_solver.
    by case_decide.
  - rewrite IH. apply decide_ext. rewrite Exists_cons. naive_solver.
Qed.

Lemma closure_visit_eq A ch n r :
  closure_visit (A, ch) (n, r)
  = if decide ((n ∉ A) /\ has_child A r) then ({[n]} ∪ A, true) else (A, ch).
Proof.
  unfold closure_visit. rewrite closure_inner. unfold has_child.
  repeat case_decide; naive_solver.
Qed.

Lemma closure_fold_spec (l : list (string * Role)) A ch B ch' :
  foldl closure_visit (A, ch) l = (B, ch') ->
  A ⊆ B /\
  (forall x, x ∈ B -> x ∈ A \/ exists r, (x, r) ∈ l /\ exists c, c ∈ includes r /\ c ∈ B) /\
  (ch' = false -> ch = false /\ B = A /\ forall n r, (n, r) ∈ l -> has_child A r -> n ∈ A) /\
  (ch' = true -> ch = true \/ exists x, x ∈ B /\ (x ∉ A) /\ x ∈ l.*1).
Proof.
  revert A ch. induction l as [|[n r] l IH]; intros A ch; cbn [foldl].
  - intros [= <- <-]. split_and!; [done|auto|set_solver|auto].
  - rewrite closure_visit_eq. case_decide as Hd; intros HB.
    + destruct Hd as [Hn Hc]. destruct (IH _ _ HB) as (Hsub & Hin & Hf & Ht). split_and!.
      * set_solver.
      * intros x [Hx|(r' & Hr & Hc')]%Hin; [|right; exists r'; set_solver].
        destruct (decide (x ∈ A)) as [|Hx']; [by left|]. right. exists r.
        assert (x = n) as -> by set_solver. split; [set_solver|].
        apply Exists_exists in Hc as (c & ? & ?). exists c. set_solver.
      * intros Hch. by destruct (Hf Hch).
      * intros _. right. exists n. set_solver.
    + destruct (IH _ _ HB) as (Hsub & Hin & Hf & Ht). split_and!.
      * done.
      * intros x [Hx|(r' & Hr & Hc')]%Hin; [by left|right; exists r'; set_solver].
      * intros Hch. destruct (Hf Hch) as (-> & -> & Hcl). split_and!; [done..|].
        intros n' r' [[= -> ->]|Hin']%elem_of_cons Hc; [|by eapply Hcl].
        destruct (decide (n ∈ A)); [done|]. naive_solver.
      * intros Hch. destruct (Ht Hch) as [|(x & ? & ? & ?)]; [by left|right; exists x; set_solver].
Qed.

Definition up_closed (A : gset string) : Prop := forall x c, incl rs x c -> c ∈ A -> x ∈ A.

(** The roles from which some role of [A] can be reached. *)
Definition above (A : gset string) (x : string) : Prop := exists a, a ∈ A /\ rtc (incl rs) x a.

Lemma above_closed A B x : (forall y, y ∈ B -> above A y) -> above B x -> above A x.
Proof. intros H (a & Ha & Hr). destruct (H a Ha) as (b & Hb & Hr'). exists b. split; [done|by etrans]. Qed.

Hypothesis rs_wf : Dict.wf rs.

Lemma closure_pass_sound A B ch : closure_pass rs A = (B, ch) -> forall x, x ∈ B -> above A x.
Proof.
  unfold closure_pass. intros HB.
  assert (forall l A ch B ch', l ⊆ rs -> foldl closure_visit (A, ch) l = (B, ch') ->
            forall x, x ∈ B -> above A x) as Hgen.
  { clear -rs_wf. induction l as [|[n r] l IH]; intros A ch B ch' Hl; cbn [foldl].
    - intros [= <- <-] x Hx. exists x. split; [done|apply rtc_refl].
    - rewrite closure_visit_eq. case_decide as Hd; intros HB x Hx.
      + destruct Hd as [Hn Hc]. eapply above_closed; [|eapply IH; [set_solver|done|done]].
        intros y [->%elem_of_singleton|Hy]%elem_of_union; [|exists y; split; [done|apply rtc_refl]].
        apply Exists_exists in Hc as (c & Hc1 & Hc2). exists c. split; [done|].
        apply rtc_once. exists r. split; [|done]. apply Dict.elem_get; [done|]. set_solver.
      + eapply IH; [set_solver|done|done]. }
  eapply Hgen; [|done]. done.
Qed.

Lemma closure_pass_stable A B : closure_pass rs A = (B, false) -> B = A /\ up_closed A.
Proof.
  unfold closure_pass. intros HB. destruct (closure_fold_spec _ _ _ _ _ HB) as (_ & _ & Hf & _).
  destruct (Hf eq_refl) as (_ & -> & Hcl). split; [done|].
  intros x c (R & HR & Hc) HcA. eapply Hcl; [by apply Dict.get_Some_elem|].
  apply Exists_exists. eauto.
Qed.

Lemma up_closed_above A x : up_closed A -> above A x -> x ∈ A.
Proof. intros Hcl (a & Ha & Hr). induction Hr; eauto. Qed.

Lemma closure_loop_sound fuel A B :
  closure_loop fuel rs A = Some B -> forall x, x ∈ B <-> above A x.
Proof.
  revert A. induction fuel as [|fuel IH]; intros A; simpl; [done|].
  destruct (closure_pass rs A) as [A' ch] eqn:Hp.
  assert (A ⊆ A') as Hsub by (unfold closure_pass in Hp; by destruct (closure_fold_spec _ _ _ _ _ Hp)).
  destruct ch; intros Hl x.
  - rewrite (IH _ Hl x). split.
    + apply above_closed. by eapply closure_pass_sound.
    + intros (a & Ha & Hr). exists a. set_solver.
  - injection Hl as <-. destruct (closure_pass_stable _ _ Hp) as [-> Hcl].
    split; [|by apply up_closed_above]. intros Hx. exists x. split; [done|apply rtc_refl].
Qed.

Lemma closure_loop_total fuel A :
  size (list_to_set (Dict.keys rs) ∖ A) < fuel -> is_Some (closure_loop fuel rs A).
Proof.
  revert A. induction fuel as [|fuel IH]; intros A Hf; simpl; [lia|].
  destruct (closure_pass rs A) as [B [|]] eqn:Hp; [|eauto]. apply IH.
  unfold closure_pass in Hp. destruct (closure_fold_spec _ _ _ _ _ Hp) as (Hsub & _ & _ & Ht).
  destruct (Ht eq_refl) as [|(x & HxB & HxA & Hxk)]; [done|].
  assert (list_to_set (Dict.keys rs) ∖ B ⊂ list_to_set (Dict.keys rs) ∖ A) as Hlt%subset_size.
  { split; [set_solver|]. intros Hc. specialize (Hc x). unfold Dict.keys in Hc. set_solver. }
  lia.
Qed.

Lemma roles_for_resource_closure name rm :
  exists l, roles_for_resource rs name rm = Some l /\
    forall r, r ∈ l <-> above (atomic_roles_for_resource name rm) r.
Proof.
  unfold roles_for_resource.
  destruct (closure_loop_total (S (length rs)) (atomic_roles_for_resource name rm)) as [B HB].
  { eapply Nat.le_lt_trans; [apply (subseteq_size _ (list_to_set (Dict.keys rs))); set_solver|].
    rewrite size_list_to_set by done. unfold Dict.keys. rewrite length_fmap. lia. }
  rewrite HB. simpl. eexists. split; [done|]. intros r.
  rewrite merge_sort_Permutation, elem_of_elements. by eapply closure_loop_sound.
Qed.
End upward.

(** *** Downward closure: [roles_for_role] *)

Lemma roles_for_role_S fuel rs enabled name S :
  roles_for_role fuel rs enabled name = Ok S ->
  forall fuel', fuel <= fuel' -> roles_for_role fuel' rs enabled name = Ok S.
Proof.
  revert name S. induction fuel as [|fuel IH]; intros name S; simpl; [done|].
  intros HS [|fuel'] Hle; [lia|]. simpl.
  destruct (Dict.get name rs) as [R|]; [|done]. destruct (full_admin R); [done|].
  apply result_bind_ok in HS as (subs & Hsubs & HS). apply result_bind_ok. exists subs. split; [|done].
  clear HS. revert subs Hsubs. induction (includes R) as [|c l IHl]; intros subs; [done|]. simpl.
  rewrite result_bind_ok. intros (s1 & Hs1 & Hrest).
  apply result_bind_ok in Hs1 as (b & Hb & Hs1). rewrite Hb. simpl.
  apply result_bind_ok in Hrest as (l' & Hl' & Heq).
  rewrite (IHl _ Hl'). destruct b; [rewrite (IH _ _ Hs1) by lia|injection Hs1 as <-]; exact Heq.
Qed.

(** Inclusion restricted to the roles the enabled STIG admits. *)
Definition incl_stig (rs : list (string * Role)) (enabled : option Z) (r c : string) : Prop :=
  incl rs r c /\ role_stig_check rs c enabled = Ok true.

Lemma incl_stig_None rs r c : incl_stig rs None r c <-> incl rs r c.
Proof. unfold incl_stig, role_stig_check. simpl. naive_solver. Qed.

Lemma mapE_ok_Forall2 {E A B} (f : A -> result E B) l l' :
  mapE f l = Ok l' <-> Forall2 (fun x y => f x = Ok y) l l'.
Proof.
  revert l'. induction l as [|x l IH]; intros l'; simpl.
  - split; [intros [= <-]; constructor|by inversion 1].
  - rewrite result_bind_ok. setoid_rewrite result_bind_ok. setoid_rewrite IH. split.
    + intros (y & Hy & ys & Hys & [= <-]). by constructor.
    + inversion 1; subst; naive_solver.
Qed.

(** No role but a top-level one carries [full_admin]. *)
Definition no_admin_included (rs : list (string * Role)) : Prop :=
  forall r c R, incl rs r c -> Dict.get c rs = Some R -> full_admin R = false.

Lemma roles_for_role_closure rs enabled fuel name R S :
  no_admin_included rs -> Dict.get name rs = Some R -> full_admin R = false ->
  roles_for_role fuel rs enabled name = Ok S ->
  forall x, x ∈ S <-> rtc (incl_stig rs enabled) name x /\ x ∈ Dict.keys rs.
Proof.
  intros Hna. revert name R S. induction fuel as [|fuel IH]; intros name R S HR HA; simpl; [done|].
  rewrite HR, HA. rewrite result_bind_ok. intros (subs & Hsubs & [= <-]) x.
  rewrite mapE_ok_Forall2 in Hsubs.
  assert (forall c Sc, c ∈ includes R ->
    (ok ← role_stig_check rs c enabled; if ok : bool then roles_for_role fuel rs enabled c else Ok ∅) = Ok Sc ->
    x ∈ Sc <-> role_stig_check rs c enabled = Ok true /\ rtc (incl_stig rs enabled) c x /\ x ∈ Dict.keys rs) as Hsub.
  { intros c Sc Hc HSc. apply result_bind_ok in HSc as (b & Hb & HSc). rewrite Hb.
    destruct b; [|injection HSc as <-; set_solver].
    destruct (Dict.get c rs) as [Rc|] eqn:HRc.
    - assert (full_admin Rc = false) as Hadm by (eapply (Hna name c); [by exists R|done]).
      rewrite (IH c Rc Sc) by done. naive_solver.
    - destruct fuel; simpl in HSc; [done|]. rewrite HRc in HSc. injection HSc as <-.
      split; [set_solver|]. intros (_ & Hr & Hk). apply Dict.get_is_Some in Hk as [Rx HRx].
      apply rtc_inv in Hr as [->|(? & [(? & ? & ?) _] & _)]; congruence. }
  rewrite elem_of_union, elem_of_singleton, elem_of_union_list. split.
  - intros [->|(Sc & HSc & Hx)]; [split; [apply rtc_refl|apply Dict.get_is_Some; eauto]|].
    apply list_elem_of_lookup in HSc as [i Hi].
    destruct (Forall2_lookup_r _ _ _ _ _ Hsubs Hi) as (c & Hc & HSc).
    apply list_elem_of_lookup_2 in Hc. destruct (proj1 (Hsub c Sc Hc HSc) Hx) as (Hst & Hr & Hk).
    split; [|done]. eapply rtc_l; [|done]. split; [by exists R|done].
  - intros [Hr Hk]. apply rtc_inv in Hr as [->|(c & [(R' & HR' & Hc) Hst] & Hr')]; [by left|right].
    assert (R' = R) as -> by congruence.
    apply list_elem_of_lookup in Hc as [i Hi].
    destruct (Forall2_lookup_l _ _ _ _ _ Hsubs Hi) as (Sc & Hsc & HSc).
    exists Sc. split; [by eapply list_elem_of_lookup_2|].
    apply (Hsub c); [by eapply list_elem_of_lookup_2|done|done].
Qed.

(** ** Registrations *)

(** What the managers of a running system went through. *)
Inductive role_op :=
| RegisterMethod (name : string) (l : list string) (exist_ok : bool)
| AddRolesToMethod (name : string) (l : list string)
| RegisterEvent (name : string) (l : list string) (exist_ok : bool).

Definition exec_op (m : RoleManager) (op : role_op) : RoleManager :=
  match op with
  | RegisterMethod name l ok => (register_method name l ok m).1
  | AddRolesToMethod name l => (add_roles_to_method name l m).1
  | RegisterEvent name l ok => (register_event name l ok m).1
  end.

Definition run_ops (rs : list (string * Role)) (ops : list role_op) : RoleManager :=
  foldl exec_op (new_RoleManager rs) ops.

(** The invariant of one manager: the allow lists are exactly the transpose of
    the registrations, every registered role exists, and no [_READ] role is
    granted a write method. *)
Record rm_inv (rs : list (string * Role)) (rm : ResourceManager) : Prop := {
  rmi_wf : Dict.wf (resources rm);
  rmi_transpose r meth res :
    (meth, res) ∈ allow_default (allowlists_for_roles rm) r <->
    meth = resource_method rm /\ r ∈ default [] (Dict.get res (resources rm));
  rmi_known r res : r ∈ default [] (Dict.get res (resources rm)) -> r ∈ Dict.keys rs;
  rmi_read r res : r ∈ default [] (Dict.get res (resources rm)) ->
    Str.endswith "_READ" r = true -> blacklisted res = false;
}.

Lemma check_roles_ok rs res l :
  check_roles rs res l = Ok tt ->
  forall r, r ∈ l -> r ∈ Dict.keys rs /\ (Str.endswith "_READ" r = true -> blacklisted res = false).
Proof.
  induction l as [|x l IH]; [set_solver|]. cbn [check_roles].
  destruct (Dict.mem x rs) eqn:Hm; [|done]. simpl negb. cbv iota.
  destruct (Str.endswith "_READ" x && blacklisted res) eqn:Hb; [done|].
  intros Hl r [->|Hr]%elem_of_cons; [|by apply IH].
  split; [by apply Dict.mem_spec|]. intros He. by rewrite He in Hb.
Qed.

Lemma allow_fold_spec (m : gmap string (list allow_entry)) (e : allow_entry) l r x :
  x ∈ allow_default (foldl (fun m r => <[r := allow_default m r ++ [e]]> m) m l) r <->
  x ∈ allow_default m r \/ (x = e /\ r ∈ l).
Proof.
  revert m. induction l as [|y l IH]; intros m; cbn [foldl]; [set_solver|].
  rewrite IH. unfold allow_default at 1. rewrite lookup_insert. case_decide as Hd; simpl.
  - subst. rewrite elem_of_app. set_solver.
  - fold (allow_default m r). set_solver.
Qed.

Lemma add_roles_inv rs res l rm : rm_inv rs rm -> rm_inv rs (add_roles_to_resource rs res l rm).1.
Proof.
  intros [Hwf Htr Hkn Hrd]. unfold add_roles_to_resource.
  destruct (Dict.get res (resources rm)) as [old|] eqn:Hold; [|done].
  destruct (check_roles rs res l) as [[]|] eqn:Hck; [|done]. pose proof (check_roles_ok _ _ _ Hck) as Hok.
  assert (forall res' r, r ∈ default [] (Dict.get res' (Dict.set res (old ++ l) (resources rm))) <->
      r ∈ default [] (Dict.get res' (resources rm)) \/ (res' = res /\ r ∈ l)) as Hget.
  { intros res' r. destruct (decide (res = res')) as [<-|Hne].
    - rewrite Dict.get_set_eq, Hold. simpl. rewrite elem_of_app. naive_solver.
    - rewrite Dict.get_set_ne by done. naive_solver. }
  split; cbn [fst resources allowlists_for_roles resource_method].
  - by apply Dict.wf_set.
  - intros r meth res'. rewrite allow_fold_spec, Htr, Hget. naive_solver.
  - intros r res'. rewrite Hget. naive_solver.
  - intros r res'. rewrite Hget. naive_solver.
Qed.

Lemma register_resource_inv rs res l ok rm : rm_inv rs rm -> rm_inv rs (register_resource rs res l ok rm).1.
Proof.
  intros Hi. unfold register_resource. destruct (Dict.mem res (resources rm)) eqn:Hm.
  - destruct ok; simpl; [by apply add_roles_inv|done].
  - apply add_roles_inv. apply Dict.mem_false in Hm. destruct Hi as [Hwf Htr Hkn Hrd].
    assert (forall res' r, r ∈ default [] (Dict.get res' (Dict.set res [] (resources rm))) <->
      r ∈ default [] (Dict.get res' (resources rm))) as Hget.
    { intros res' r. destruct (decide (res = res')) as [<-|Hne].
      - by rewrite Dict.get_set_eq, Hm.
      - by rewrite Dict.get_set_ne. }
    split; simpl; [by apply Dict.wf_set| | |]; intros *; rewrite Hget; eauto.
Qed.

(** The invariant of the role manager. *)
Record mgr_inv (rs : list (string * Role)) (m : RoleManager) : Prop := {
  mi_roles : roles m = rs;
  mi_methods : rm_inv rs (methods m);
  mi_events : rm_inv rs (events m);
  mi_call : resource_method (methods m) = "CALL";
  mi_subscribe : resource_method (events m) = "SUBSCRIBE";
}.

Lemma resource_method_add rs res l rm :
  resource_method (add_roles_to_resource rs res l rm).1 = resource_method rm.
Proof. unfold add_roles_to_resource. by repeat case_match. Qed.

Lemma resource_method_register rs res l ok rm :
  resource_method (register_resource rs res l ok rm).1 = resource_method rm.
Proof. unfold register_resource. repeat case_match; by rewrite ?resource_method_add. Qed.

Lemma rm_inv_new rs t me : rm_inv rs (new_ResourceManager t me).
Proof.
  split; simpl; [by apply NoDup_nil| |set_solver..].
  intros. unfold allow_default. rewrite lookup_empty. set_solver.
Qed.

Lemma run_ops_inv rs ops : mgr_inv rs (run_ops rs ops).
Proof.
  unfold run_ops.
  enough (forall m, mgr_inv rs m -> mgr_inv rs (foldl exec_op m ops)) as H.
  { apply H. split; try done; apply rm_inv_new. }
  induction ops as [|op ops IH]; intros m Hm; simpl; [done|]. apply IH. clear IH.
  destruct Hm as [Hr Hm He Hc Hs], op as [name l ok|name l|name l ok]; simpl;
    unfold register_method, add_roles_to_method, register_event; rewrite Hr.
  - pose proof (register_resource_inv rs name l ok _ Hm). pose proof (resource_method_register rs name l ok (methods m)).
    destruct (register_resource _ _ _ _ _); split; simpl in *; congruence || done.
  - pose proof (add_roles_inv rs name l _ Hm). pose proof (resource_method_add rs name l (methods m)).
    destruct (add_roles_to_resource _ _ _ _); split; simpl in *; congruence || done.
  - pose proof (register_resource_inv rs name l ok _ He). pose proof (resource_method_register rs name l ok (events m)).
    destruct (register_resource _ _ _ _ _); split; simpl in *; congruence || done.
Qed.

Lemma allowlists_of_spec m s e :
  e ∈ allowlists_of m s <-> exists r, r ∈ s /\
    (e ∈ allow_default (allowlists_for_roles (methods m)) r \/ e ∈ allow_default (allowlists_for_roles (events m)) r).
Proof.
  unfold allowlists_of. rewrite list_elem_of_In, in_concat. setoid_rewrite in_map_iff. split.
  - intros (l & (r & <- & Hr) & He). exists r. apply list_elem_of_In in Hr, He.
    rewrite elem_of_elements in Hr. by rewrite elem_of_app in He.
  - intros (r & Hr & He). eexists. split; [exists r; split; [done|]|].
    + by apply list_elem_of_In, elem_of_elements.
    + by apply list_elem_of_In, elem_of_app.
Qed.

(** ** The shipped role table *)

Lemma ROLES_wf : Dict.wf ROLES.
Proof. apply (bool_decide_unpack _). vm_compute. exact I. Qed.

Definition no_admin_included_b (rs : list (string * Role)) : bool :=
  forallb (fun '(_, R) =>
    forallb (fun c => match Dict.get c rs with Some Rc => negb (full_admin Rc) | None => true end)
      (includes R)) rs.

Lemma no_admin_included_b_sound rs : no_admin_included_b rs = true -> no_admin_included rs.
Proof.
  intros H r c R (Rr & Hr & Hc) HR. unfold no_admin_included_b in H. rewrite forallb_forall in H.
  apply Dict.get_Some_elem, list_elem_of_In in Hr. specialize (H _ Hr). simpl in H.
  rewrite forallb_forall in H. apply list_elem_of_In in Hc. specialize (H _ Hc).
  rewrite HR in H. by destruct (full_admin R).
Qed.

Lemma ROLES_no_admin_included : no_admin_included ROLES.
Proof. apply no_admin_included_b_sound. vm_compute. reflexivity. Qed.

(** The two entries of the table that include themselves. *)
Definition self_including : list string := ["PRIVILEGE_WRITE"; "SYSTEM_PRODUCT_WRITE"].

(** Fuel 6 covers the longest inclusion chain of the table
    (SHARING_ADMIN > SHARING_WRITE > SHARING_ISCSI_WRITE > ..._WRITE > ..._READ). *)
Lemma ROLES_returns enabled name :
  enabled = None \/ enabled = Some GPOS -> name ∉ self_including ->
  exists S, roles_for_role 6 ROLES enabled name = Ok S.
Proof.
  intros He Hn. destruct (Dict.get name ROLES) as [R|] eqn:HR; [|cbn [roles_for_role]; rewrite HR; eauto].
  assert (Forall (fun n => n ∉ self_including -> is_ok (roles_for_role 6 ROLES enabled n) = true)
            (Dict.keys ROLES)) as Hall.
  { apply Forall_forall. intros n Hin%list_elem_of_In Hself.
    assert (forallb (fun n => bool_decide (n ∈ self_including) || is_ok (roles_for_role 6 ROLES enabled n))
              (Dict.keys ROLES) = true) as Hb by (destruct He as [-> | ->]; vm_compute; reflexivity).
    rewrite forallb_forall in Hb. apply Hb, orb_true_iff in Hin as [Hd|]; [|done].
    by apply bool_decide_eq_true in Hd. }
  rewrite Forall_forall in Hall. assert (name ∈ Dict.keys ROLES) as Hk by (apply Dict.get_is_Some; eauto).
  specialize (Hall name Hk Hn). destruct (roles_for_role 6 ROLES enabled name); [eauto|done].
Qed.

Lemma grant_iff rs ops fuel enabled name R S meth :
  no_admin_included rs -> Dict.get name rs = Some R -> full_admin R = false ->
  roles_for_role fuel rs enabled name = Ok S ->
  ("CALL", meth) ∈ allowlists_of (run_ops rs ops) S <->
  exists a, a ∈ atomic_roles_for_method meth (run_ops rs ops) /\ rtc (incl_stig rs enabled) name a.
Proof.
  intros Hna HR Hadm HS. destruct (run_ops_inv rs ops) as [Hrs Hm He Hc Hsb].
  rewrite allowlists_of_spec. unfold atomic_roles_for_method, atomic_roles_for_resource.
  pose proof (roles_for_role_closure _ _ _ _ _ _ Hna HR Hadm HS) as Hcl. split.
  - intros (r & Hr & [Hin|Hin]).
    + apply (rmi_transpose _ _ Hm) in Hin as [_ Hin]. exists r. rewrite elem_of_list_to_set.
      split; [done|]. by apply Hcl.
    + apply (rmi_transpose _ _ He) in Hin as [Heq _]. congruence.
  - intros (a & Ha & Hr). rewrite elem_of_list_to_set in Ha. exists a. split.
    + apply Hcl. split; [done|]. by eapply (rmi_known _ _ Hm).
    + left. by apply (rmi_transpose _ _ Hm).
Qed.

(** Every role granted by [READONLY_ADMIN] is itself or a [_READ] role. *)
Lemma ROLES_readonly_members enabled :
  enabled = None \/ enabled = Some GPOS ->
  match roles_for_role 6 ROLES enabled "READONLY_ADMIN" with
  | Ok rs => forallb (fun x => bool_decide (x = "READONLY_ADMIN") || Str.endswith "_READ" x) (elements rs)
  | Err _ => false
  end = true.
Proof. intros [-> | ->]; vm_compute; reflexivity. Qed.

(** Only [FULL_ADMIN] carries the flag. *)
Lemma ROLES_full_admin name R :
  Dict.get name ROLES = Some R -> full_admin R = bool_decide (name = "FULL_ADMIN").
Proof.
  intros HR%Dict.get_Some_elem%list_elem_of_In.
  assert (forallb (fun '(n, R) => Bool.eqb (full_admin R) (bool_decide (n = "FULL_ADMIN"))) ROLES = true) as Hb
    by (vm_compute; reflexivity).
  rewrite forallb_forall in Hb. apply Hb in HR. by apply Bool.eqb_prop in HR.
Qed.

(** A non-administrative role of the table: its allow list holds a method
    exactly when some role registered for the method is reachable from it. *)
Lemma role_allowlist ops name R :
  Dict.get name ROLES = Some R -> full_admin R = false -> (name ∉ self_including) ->
  exists al, allowlist_for_role 6 (run_ops ROLES ops) None name = Ok al /\
    forall meth, ("CALL", meth) ∈ al <-> above ROLES (atomic_roles_for_method meth (run_ops ROLES ops)) name.
Proof.
  intros HR Hadm Hself. destruct (ROLES_returns None name (or_introl eq_refl) Hself) as [S HS].
  assert (roles (run_ops ROLES ops) = ROLES) as Hrs by apply run_ops_inv.
  exists (allowlists_of (run_ops ROLES ops) S). split.
  { unfold allowlist_for_role. by rewrite Hrs, HR, Hadm, HS. }
  intros meth. rewrite (grant_iff _ _ _ _ _ _ _ _ ROLES_no_admin_included HR Hadm HS).
  assert (forall a, rtc (incl_stig ROLES None) name a <-> rtc (incl ROLES) name a) as Hrtc.
  { intros a. split; apply rtc_congruence with (f := id); intros ??; apply incl_stig_None. }
  setoid_rewrite Hrtc. done.
Qed.

Lemma roles_for_method_iff ops meth name :
  (exists l, roles_for_method meth (run_ops ROLES ops) = Some l /\ name ∈ l) <->
  above ROLES (atomic_roles_for_method meth (run_ops ROLES ops)) name.
Proof.
  unfold roles_for_method. assert (roles (run_ops ROLES ops) = ROLES) as -> by apply run_ops_inv.
  destruct (roles_for_resource_closure ROLES ROLES_wf meth (methods (run_ops ROLES ops))) as (l & Hl & Hin).
  rewrite Hl. fold (atomic_roles_for_method meth (run_ops ROLES ops)) in Hin.
  rewrite <-Hin. split; [by intros (l' & [= <-] & Hl')|intros Hl'; by exists l].
Qed.

(** ** Properties *)

(** C38: top-down and bottom-up authorization agree.  For every role of the
    shipped table that is not the full administrator (and is not one of the two
    self-including entries), without a STIG and after any history of registrations, the allow list
    built for the role contains a method exactly when the role is among the
    roles [roles_for_method] reports for that method. *)
Theorem grant_equivalence (ops : list role_op) (name : string) (R : Role)
  (HR : Dict.get name ROLES = Some R) (Hadm : full_admin R = false) (Hself : name ∉ self_including) :
  exists al, allowlist_for_role 6 (run_ops ROLES ops) None name = Ok al /\
    forall meth, ("CALL", meth) ∈ al <->
      exists l, roles_for_method meth (run_ops ROLES ops) = Some l /\ name ∈ l.
Proof.
  destruct (role_allowlist ops name R HR Hadm Hself) as (al & Hal & Hspec).
  exists al. split; [exact Hal|]. intros meth. by rewrite Hspec, roles_for_method_iff.
Qed.

Lemma grant_equivalence_witness :
  let m := run_ops ROLES [RegisterMethod "pool.dataset.query" ["DATASET_READ"] false] in
  exists al, allowlist_for_role 6 m None "SHARING_ADMIN" = Ok al /\
    (("CALL", "pool.dataset.query") ∈ al <->
     exists l, roles_for_method "pool.dataset.query" m = Some l /\ "SHARING_ADMIN" ∈ l).
Proof.
  cbv zeta. destruct (Dict.get "SHARING_ADMIN" ROLES) as [R|] eqn:HR; [|vm_compute in HR; discriminate].
  destruct (grant_equivalence [RegisterMethod "pool.dataset.query" ["DATASET_READ"] false]
              "SHARING_ADMIN" R HR) as (al & Hal & Hspec).
  - by rewrite (ROLES_full_admin _ _ HR).
  - apply (bool_decide_unpack _). vm_compute. exact I.
  - exists al. split; [exact Hal|exact (Hspec "pool.dataset.query")].
Defined.

(** C39: a read-only administrator never obtains a create, update or delete
    method through role inclusion.  With no STIG or the GPOS STIG, whatever was
    registered, an allow list entry of [READONLY_ADMIN] on such a resource can
    only come from a registration that names [READONLY_ADMIN] itself. *)
Theorem readonly_admin_cannot_write (ops : list role_op) (enabled : option Z)
  (He : enabled = None \/ enabled = Some GPOS) :
  exists al, allowlist_for_role 6 (run_ops ROLES ops) enabled "READONLY_ADMIN" = Ok al /\
    forall meth res, (meth, res) ∈ al -> blacklisted res = true ->
      "READONLY_ADMIN" ∈ atomic_roles_for_method res (run_ops ROLES ops) \/
      "READONLY_ADMIN" ∈ atomic_roles_for_event res (run_ops ROLES ops).
Proof.
  destruct (ROLES_returns enabled "READONLY_ADMIN" He) as [S HS]; [by apply (bool_decide_unpack _); vm_compute|].
  destruct (run_ops_inv ROLES ops) as [Hrs Hm Hev _ _].
  assert (forall x, x ∈ S -> x = "READONLY_ADMIN" \/ Str.endswith "_READ" x = true) as Hread.
  { intros x Hx%elem_of_elements%list_elem_of_In.
    pose proof (ROLES_readonly_members enabled He) as Hb. rewrite HS in Hb. rewrite forallb_forall in Hb. apply Hb, orb_true_iff in Hx as [Hx%bool_decide_eq_true|]; auto. }
  exists (allowlists_of (run_ops ROLES ops) S). split.
  { unfold allowlist_for_role. rewrite Hrs.
    destruct (Dict.get "READONLY_ADMIN" ROLES) as [R|] eqn:HR; [|by rewrite HS].
    pose proof (ROLES_full_admin "READONLY_ADMIN" R HR) as ->. by rewrite HS. }
  intros meth res (r & Hr & Hin)%allowlists_of_spec Hbl.
  unfold atomic_roles_for_method, atomic_roles_for_event, atomic_roles_for_resource.
  rewrite !elem_of_list_to_set.
  destruct Hin as [[_ Hin]%(rmi_transpose _ _ Hm)|[_ Hin]%(rmi_transpose _ _ Hev)];
    destruct (Hread r Hr) as [->|Hrd]; auto.
  - pose proof (rmi_read _ _ Hm _ _ Hin Hrd). congruence.
  - pose proof (rmi_read _ _ Hev _ _ Hin Hrd). congruence.
Qed.

Lemma readonly_admin_cannot_write_witness :
  let m := run_ops ROLES [RegisterMethod "user.create" ["ACCOUNT_READ"] false;
                          RegisterMethod "user.query" ["ACCOUNT_READ"] false] in
  exists al, allowlist_for_role 6 m (Some GPOS) "READONLY_ADMIN" = Ok al /\
    (forall meth res, (meth, res) ∈ al -> blacklisted res = true ->
      "READONLY_ADMIN" ∈ atomic_roles_for_method res m \/ "READONLY_ADMIN" ∈ atomic_roles_for_event res m) /\
    al = [("CALL", "user.query")].
Proof.
  cbv zeta.
  destruct (readonly_admin_cannot_write
    [RegisterMethod "user.create" ["ACCOUNT_READ"] false; RegisterMethod "user.query" ["ACCOUNT_READ"] false]
    (Some GPOS) (or_intror eq_refl)) as (al & Hal & Hspec).
  exists al. split; [exact Hal|]. split; [exact Hspec|].
  assert (allowlist_for_role 6 (run_ops ROLES [RegisterMethod "user.create" ["ACCOUNT_READ"] false;
    RegisterMethod "user.query" ["ACCOUNT_READ"] false]) (Some GPOS) "READONLY_ADMIN"
    = Ok [("CALL", "user.query")]) as Heq by (vm_compute; reflexivity).
  rewrite Heq in Hal. by injection Hal as <-.
Defined.

(** the two roles of the shipped table that include themselves make the
    recursion of [roles_for_role] endless, while every other role of the table
    returns within six levels. *)
Theorem self_including_roles_diverge (fuel : nat) (name : string) :
  (name ∈ self_including -> roles_for_role fuel ROLES None name = Err RecursionError) /\
  ((name ∉ self_including) -> exists S, roles_for_role (6 + fuel) ROLES None name = Ok S).
Proof.
  split.
  - intros Hin. induction fuel as [|fuel IH]; [done|].
    assert (exists b s, Dict.get name ROLES = Some (mkRole [name] false b s)) as (b & s & Hget).
    { apply elem_of_cons in Hin as [->|Hin]; [vm_compute; eauto|].
      apply list_elem_of_singleton in Hin as ->. vm_compute. eauto. }
    cbn [roles_for_role]. rewrite Hget. cbn [full_admin includes mapE]. by rewrite IH.
  - intros Hn. destruct (ROLES_returns None name (or_introl eq_refl) Hn) as [S HS]. exists S.
    eapply roles_for_role_S; [exact HS|lia].
Qed.

Lemma self_including_roles_diverge_witness :
  roles_for_role 900 ROLES None "PRIVILEGE_WRITE" = Err RecursionError.
Proof.
  apply (self_including_roles_diverge 900 "PRIVILEGE_WRITE"). apply (bool_decide_unpack _). vm_compute. exact I.
Defined.

(** under an enabled STIG, a role reached by inclusion, or through the full
    administrator, is one the STIG admits: its [stig] flags are set and share a
    bit with the enabled ones.  Only the role named in the call itself escapes
    the test. *)
Theorem stig_filters_included_roles (rs : list (string * Role)) (fuel : nat) (flags : Z)
  (name : string) (R : Role) (S : gset string)
  (Hf : flags ≠ 0%Z) (Hna : no_admin_included rs) (HR : Dict.get name rs = Some R)
  (HS : roles_for_role fuel rs (Some flags) name = Ok S) :
  forall x, x ∈ S -> (x = name /\ full_admin R = false) \/
    exists Rx s, Dict.get x rs = Some Rx /\ stig Rx = Some s /\ Z.land s flags ≠ 0%Z.
Proof.
  assert (forall x, role_stig_check rs x (Some flags) = Ok true ->
    exists Rx s, Dict.get x rs = Some Rx /\ stig Rx = Some s /\ Z.land s flags ≠ 0%Z) as Hck.
  { intros x. unfold role_stig_check. simpl. rewrite (proj2 (Z.eqb_neq _ _) Hf).
    destruct (Dict.get x rs) as [Rx|]; [|done]. destruct (stig Rx) as [s|] eqn:Hs; [|done].
    intros [= Hl%negb_true_iff%Z.eqb_neq]. eauto. }
  intros x Hx. destruct (full_admin R) eqn:Hadm.
  - right. apply Hck. destruct fuel as [|fuel]; [done|]. cbn [roles_for_role] in HS. rewrite HR, Hadm in HS.
    apply result_bind_ok in HS as (l & Hl & [= <-]). apply elem_of_list_to_set in Hx.
    revert l Hl Hx. induction (Dict.keys rs) as [|k ks IH]; intros l; simpl; [intros [= <-]; set_solver|].
    rewrite result_bind_ok. intros (b & Hb & Hrest). apply result_bind_ok in Hrest as (xs & Hxs & [= <-]).
    destruct b; [intros [->|Hx]%elem_of_cons|intros Hx]; eauto.
  - apply (roles_for_role_closure _ _ _ _ _ _ Hna HR Hadm HS) in Hx as [Hr _].
    apply rtc_inv_r in Hr as [->|(y & _ & [_ Hst])]; [by left|right; by apply Hck].
Qed.

Lemma stig_filters_included_roles_witness :
  exists R S, Dict.get "FULL_ADMIN" ROLES = Some R /\ roles_for_role 6 ROLES (Some GPOS) "FULL_ADMIN" = Ok S /\
    ("VM_READ" ∈ S) /\ (forall x, x ∈ S -> (x = "FULL_ADMIN" /\ full_admin R = false) \/
      exists Rx s, Dict.get x ROLES = Some Rx /\ stig Rx = Some s /\ Z.land s GPOS ≠ 0%Z).
Proof.
  destruct (Dict.get "FULL_ADMIN" ROLES) as [R|] eqn:HR; [|vm_compute in HR; discriminate].
  destruct (roles_for_role 6 ROLES (Some GPOS) "FULL_ADMIN") as [S|] eqn:HS; [|exfalso; cut (is_ok (roles_for_role 6 ROLES (Some GPOS) "FULL_ADMIN") = true);
         [by rewrite HS|vm_compute; reflexivity]].
  exists R, S. split; [done|]. split; [done|]. split.
  - assert (match roles_for_role 6 ROLES (Some GPOS) "FULL_ADMIN" with
            | Ok rs => bool_decide ("VM_READ" ∈ rs) | Err _ => false end = true) as Hb by (vm_compute; reflexivity).
    rewrite HS in Hb. by apply bool_decide_eq_true in Hb.
  - apply (stig_filters_included_roles ROLES 6 GPOS "FULL_ADMIN" R S); [done| |done..].
    apply no_admin_included_b_sound. vm_compute. reflexivity.
Defined.

(** Tactics of the client files should not unfold the table. *)
#[global] Opaque ROLES.
