(* ===== verification/Allowlist.v ===== *)
(** * Allow lists (src/middlewared/middlewared/utils/allowlist.py)

    An [Allowlist] is compiled from a list of (method, resource) entries:
    resources with a star become glob patterns ([fnmatch.translate] of the
    Python standard library), the others go to a set of exact names. *)

From S2P Require Import Prelude PyDict PyStr Roles.
From Stdlib Require Import Ascii.

(** ** Shell patterns: [re.compile(fnmatch.translate(pat)).match(s)] *)

Inductive gtok :=
| GStar
| GAny
| GLit (c : ascii)
| GClass (neg : bool) (ranges : list (ascii * ascii)).

Definition in_range (c : ascii) (r : ascii * ascii) : bool :=
  (N_of_ascii r.1 <=? N_of_ascii c)%N && (N_of_ascii c <=? N_of_ascii r.2)%N.

(** The body of a bracket expression: [a-z] ranges and single characters; a
    hyphen at either end is itself, a range whose ends are reversed is empty. *)
Fixpoint class_ranges (fuel : nat) (l : list ascii) : list (ascii * ascii) :=
  match fuel with
  | O => []
  | S fuel =>
      match l with
      | c :: "-"%char :: d :: l => (c, d) :: class_ranges fuel l
      | c :: l => (c, c) :: class_ranges fuel l
      | [] => []
      end
  end.

(** Split at the first closing bracket. *)
Fixpoint to_bracket (l : list ascii) : option (list ascii * list ascii) :=
  match l with
  | [] => None
  | "]"%char :: l => Some ([], l)
  | c :: l => '(a, b) ← to_bracket l; Some (c :: a, b)
  end.

(** What follows an opening bracket: the class and the rest of the pattern, or
    [None] when the bracket is never closed. *)
Definition bracket (l : list ascii) : option (gtok * list ascii) :=
  let '(neg, l) := match l with "!"%char :: l => (true, l) | _ => (false, l) end in
  let '(first, l) := match l with "]"%char :: l => (["]"%char], l) | _ => ([], l) end in
  '(body, rest) ← to_bracket l;
  let body := first ++ body in
  Some (GClass neg (class_ranges (length body) body), rest).

Fixpoint translate_fuel (fuel : nat) (l : list ascii) : list gtok :=
  match fuel with
  | O => []
  | S fuel =>
      match l with
      | [] => []
      | "*"%char :: l => GStar :: translate_fuel fuel l
      | "?"%char :: l => GAny :: translate_fuel fuel l
      | "["%char :: l =>
          match bracket l with
          | Some (tok, l) => tok :: translate_fuel fuel l
          | None => GLit "["%char :: translate_fuel fuel l
          end
      | c :: l => GLit c :: translate_fuel fuel l
      end
  end.

Definition translate (pat : string) : list gtok :=
  let l := String.list_ascii_of_string pat in translate_fuel (length l) l.

Fixpoint gmatch (p : list gtok) (s : string) : bool :=
  match p with
  | [] => match s with "" => true | _ => false end
  | GStar :: p =>
      (fix star (s : string) : bool :=
         gmatch p s || match s with "" => false | String _ s => star s end) s
  | GAny :: p => match s with "" => false | String _ s => gmatch p s end
  | GLit c :: p => match s with "" => false | String c' s => bool_decide (c = c') && gmatch p s end
  | GClass neg rs :: p =>
      match s with
      | "" => false
      | String c s => Bool.eqb (existsb (in_range c) rs) (negb neg) && gmatch p s
      end
  end.

(** ** Allowlist *)

Record Allowlist := mkAllowlist {
  exact : gmap string (gset string);
  al_full_admin : bool;
  patterns : gmap string (list (list gtok));
}.

Definition add_entry (a : Allowlist) (e : allow_entry) : Allowlist :=
  let '(method, resource) := e in
  if Str.contains "*" resource then
    mkAllowlist (exact a) (al_full_admin a)
      (<[method := default [] (patterns a !! method) ++ [translate resource]]> (patterns a))
  else
    mkAllowlist (<[method := {[resource]} ∪ default ∅ (exact a !! method)]> (exact a))
      (al_full_admin a) (patterns a).

(** [Allowlist(allowlist)] *)
Definition new_Allowlist (al : list allow_entry) : Allowlist :=
  foldl add_entry (mkAllowlist ∅ (bool_decide (ALLOW_LIST_FULL_ADMIN ∈ al)) ∅) al.

Definition _authorize_internal (a : Allowlist) (method resource : string) : bool :=
  bool_decide (resource ∈ default ∅ (exact a !! method)) ||
  existsb (fun p => gmatch p resource) (default [] (patterns a !! method)).

Definition authorize (a : Allowlist) (method resource : string) : bool :=
  _authorize_internal a "*" resource || _authorize_internal a method resource.

(** ** Lemmas *)

(** What one entry means: a starred resource is a pattern, any other a name. *)
Definition entry_allows (e : allow_entry) (resource : string) : bool :=
  if Str.contains "*" e.2 then gmatch (translate e.2) resource else bool_decide (e.2 = resource).

Lemma authorize_internal_spec al method resource :
  _authorize_internal (new_Allowlist al) method resource = true <->
  exists e, e ∈ al /\ e.1 = method /\ entry_allows e resource = true.
Proof.
  unfold new_Allowlist. generalize (bool_decide (ALLOW_LIST_FULL_ADMIN ∈ al)). intros fa.
  enough (forall a, _authorize_internal (foldl add_entry a al) method resource = true <->
    _authorize_internal a method resource = true \/
    exists e, e ∈ al /\ e.1 = method /\ entry_allows e resource = true) as H.
  { rewrite H. unfold _authorize_internal. cbn [exact patterns]. rewrite !lookup_empty. simpl.
    rewrite orb_true_iff, bool_decide_eq_true. set_solver. }
  induction al as [|[m r] al IH]; intros a; cbn [foldl]; [set_solver|]. rewrite IH.
  assert (_authorize_internal (add_entry a (m, r)) method resource = true <->
    _authorize_internal a method resource = true \/ m = method /\ entry_allows (m, r) resource = true) as ->.
  { unfold _authorize_internal, add_entry, entry_allows. cbn [snd].
    destruct (Str.contains "*" r); cbn [exact patterns]; rewrite lookup_insert;
      (case_decide; [subst|naive_solver]); simpl; rewrite !orb_true_iff, ?existsb_app, ?bool_decide_eq_true; simpl.
    - rewrite orb_false_r, orb_true_iff. naive_solver.
    - rewrite elem_of_union, elem_of_singleton. naive_solver. }
  setoid_rewrite elem_of_cons. split.
  - intros [[HA|[Hm He]]|(e & He & Hm)]; [by left|right..]; [exists (m, r)|exists e]; auto.
  - intros [HA|(e & [->|He] & Hm)]; [by left; left|left; right; exact Hm|right; eauto].
Qed.

Lemma gmatch_star p s : gmatch (GStar :: p) s =
  gmatch p s || match s with "" => false | String _ s => gmatch (GStar :: p) s end.
Proof. by destruct s. Qed.

Lemma gmatch_star_all s : gmatch [GStar] s = true.
Proof. induction s as [|c s IH]; [done|]. rewrite gmatch_star, IH. by rewrite orb_true_r. Qed.

Lemma add_entry_full_admin l a : al_full_admin (foldl add_entry a l) = al_full_admin a.
Proof.
  revert a. induction l as [|[m r] l IH]; intros a; [done|]. cbn [foldl]. rewrite IH.
  simpl. by case_match.
Qed.

Lemma new_Allowlist_full_admin al : al_full_admin (new_Allowlist al) = true <-> ("*", "*") ∈ al.
Proof.
  unfold new_Allowlist. rewrite add_entry_full_admin. cbn [al_full_admin]. by rewrite bool_decide_eq_true.
Qed.

(** A pattern without metacharacters, glued to a star, is a prefix test. *)
Lemma gmatch_lits l s :
  gmatch (GLit <$> l) s = bool_decide (String.list_ascii_of_string s = l).
Proof.
  revert s. induction l as [|c l IH]; intros [|c' s]; try done. simpl. rewrite IH.
  destruct (decide (c = c')) as [->|Hne].
  - rewrite (bool_decide_eq_true_2 (c' = c')) by done. simpl. apply bool_decide_ext. naive_solver.
  - rewrite (bool_decide_eq_false_2 (c = c')) by done. symmetry. apply bool_decide_eq_false_2. naive_solver.
Qed.

Lemma authorize_iff al method resource :
  authorize (new_Allowlist al) method resource = true <->
  exists e, e ∈ al /\ (e.1 = "*" \/ e.1 = method) /\ entry_allows e resource = true.
Proof. unfold authorize. rewrite orb_true_iff, !authorize_internal_spec. naive_solver. Qed.

(** ** Properties *)

(** the compiled allow list decides exactly what its entries say: a
    (method, resource) call is authorized when some entry has that method or the
    wildcard method and its resource names, or matches as a pattern, the one
    called.  Splitting entries into an exact set and compiled patterns loses
    nothing. *)
Theorem authorize_spec (al : list allow_entry) (method resource : string) :
  authorize (new_Allowlist al) method resource = true <->
  exists e, e ∈ al /\ (e.1 = "*" \/ e.1 = method) /\ entry_allows e resource = true.
Proof. apply authorize_iff. Qed.

(** The [full_admin] flag is honest: it is set exactly when the list holds the
    entry [{'method': '*', 'resource': '*'}], and then every call is
    authorized. *)
Theorem full_admin_authorizes (al : list allow_entry) :
  (al_full_admin (new_Allowlist al) = true <-> ALLOW_LIST_FULL_ADMIN ∈ al) /\
  (al_full_admin (new_Allowlist al) = true ->
   forall method resource, authorize (new_Allowlist al) method resource = true).
Proof.
  split; [apply new_Allowlist_full_admin|].
  intros Hf%new_Allowlist_full_admin method resource. unfold authorize. apply orb_true_iff. left.
  apply authorize_internal_spec. exists ("*", "*"). split; [done|]. split; [done|].
  unfold entry_allows. simpl. apply gmatch_star_all.
Qed.
