(* ===== verification/Privilege.v ===== *)
(** * Privileges (src/middlewared/middlewared/plugins/account_/privilege.py and
    utils/privilege.py)

    A privilege grants roles to groups.  The privileges of a user's groups are
    composed into the set of roles and the allow list stored in the session. *)

From Stdlib Require Import Ascii.
From S2P Require Import Prelude PyDict PyStr Roles Allowlist.

(** A group is named by GID or, for directory services, by SID. *)
Inductive group_id := Gid (n : Z) | Sid (s : string).

#[global] Instance group_id_eq_dec : EqDecision group_id.
Proof. solve_decision. Defined.

#[global] Instance group_id_countable : Countable group_id.
Proof.
  refine (inj_countable' (fun g => match g with Gid n => inl n | Sid s => inr s end)
            (fun x => match x with inl n => Gid n | inr s => Sid s end) _). by intros [].
Defined.

(** A row of [account.privilege]. *)
Record privilege := mkPrivilege {
  p_name : string;
  p_local_groups : list group_id;
  p_ds_groups : list group_id;
  p_roles : list string;
  p_web_shell : bool;
}.

Inductive groups_key := local_groups | ds_groups.

Definition key_groups (k : groups_key) (p : privilege) : list group_id :=
  match k with local_groups => p_local_groups p | ds_groups => p_ds_groups p end.

(** [privileges_group_mapping]: the roles and the privileges of a group list. *)
Definition privileges_group_mapping (privileges : list privilege) (group_ids : list group_id)
    (k : groups_key) : gset string * list privilege :=
  let group_ids_ : gset group_id := list_to_set group_ids in
  foldl (fun '(roles, out) p =>
    if decide ((list_to_set (key_groups k p) : gset group_id) ∩ group_ids_ = ∅) then (roles, out)
    else (roles ∪ list_to_set (p_roles p), out ++ [p])) (∅, []) privileges.

(** [privileges_for_groups]: for directory services groups the GIDs are extended
    with the SIDs [idmap.convert_unixids] maps them to, [None] when that call
    raises. *)
Definition privileges_for_groups (k : groups_key) (group_ids : list group_id)
    (convert_unixids : list group_id -> option (list string)) (privileges : list privilege) : list privilege :=
  let ids := match k with
             | ds_groups => match convert_unixids group_ids with
                            | None => group_ids
                            | Some sids => group_ids ++ map Sid sids
                            end
             | local_groups => group_ids
             end in
  (privileges_group_mapping privileges ids k).2.

(** [any(ROLES[role].builtin is False for role in privilege['roles'])] *)
Fixpoint has_non_builtin (rs : list (string * Role)) (l : list string) : result role_exn bool :=
  match l with
  | [] => Ok false
  | r :: l =>
      match Dict.get r rs with
      | None => Err (KeyError r)
      | Some R => if builtin R then has_non_builtin rs l else Ok true
      end
  end.

Definition privilege_has_webui_access (p : privilege) : result role_exn bool :=
  has_non_builtin ROLES (p_roles p).

Definition system_security_config_to_stig_type (enable_gpos_stig : bool) : Z :=
  if enable_gpos_stig then GPOS else STIG_NONE.

Record composed := mkComposed {
  c_roles : gset string;
  c_allowlist : list allow_entry;
  c_web_shell : bool;
  c_webui_access : bool;
}.

(** The inner loop of [compose_privilege], over one privilege's roles. *)
Definition compose_role (fuel : nat) (m : RoleManager) (enabled : option Z) (c : composed) (r : string)
  : result role_exn composed :=
  rs ← roles_for_role fuel (roles m) enabled r;
  al ← allowlist_for_role fuel m enabled r;
  Ok (mkComposed (c_roles c ∪ rs) (c_allowlist c ++ al) (c_web_shell c) (c_webui_access c)).

Definition compose_one (fuel : nat) (m : RoleManager) (enabled : option Z) (c : composed) (p : privilege)
  : result role_exn composed :=
  c ← foldE (compose_role fuel m enabled) (p_roles p) c;
  ui ← privilege_has_webui_access p;
  Ok (mkComposed (c_roles c) (c_allowlist c) (c_web_shell c || p_web_shell p) (c_webui_access c || ui)).

Definition compose_privilege (fuel : nat) (m : RoleManager) (enable_gpos_stig : bool)
    (privileges : list privilege) : result role_exn composed :=
  let enabled := Some (system_security_config_to_stig_type enable_gpos_stig) in
  c ← foldE (compose_one fuel m enabled) privileges (mkComposed ∅ [] false false);
  Ok (if stig_unset enabled then c
      else mkComposed (c_roles c) (c_allowlist c) false (c_webui_access c)).

Definition full_privilege : composed :=
  mkComposed {["FULL_ADMIN"]} [ALLOW_LIST_FULL_ADMIN] true true.

(** ** Lemmas *)

Lemma roles_for_role_stig_unset fuel rs enabled name :
  stig_unset enabled = true -> roles_for_role fuel rs enabled name = roles_for_role fuel rs None name.
Proof.
  intros He. assert (forall n, role_stig_check rs n enabled = role_stig_check rs n None) as Hck.
  { intros n. unfold role_stig_check. by rewrite He. }
  revert name. induction fuel as [|fuel IH]; intros name; [done|]. cbn [roles_for_role].
  destruct (Dict.get name rs) as [R|]; [|done]. destruct (full_admin R).
  - f_equal. induction (Dict.keys rs) as [|k ks IHk]; [done|]. simpl. by rewrite Hck, IHk.
  - f_equal. induction (includes R) as [|c l IHl]; [done|]. simpl. by rewrite IH, IHl, Hck.
Qed.

Lemma allowlist_stig_unset fuel m enabled name :
  stig_unset enabled = true -> allowlist_for_role fuel m enabled name = allowlist_for_role fuel m None name.
Proof. intros He. unfold allowlist_for_role. by rewrite He, !(roles_for_role_stig_unset _ _ _ _ He). Qed.

Lemma foldE_inv {E S A} (f : S -> A -> result E S) (P : A -> Prop) (Q : S -> Prop) l s s' :
  (forall s a s', P a -> Q s -> f s a = Ok s' -> Q s') ->
  Forall P l -> Q s -> foldE f l s = Ok s' -> Q s'.
Proof.
  intros Hf Hl. revert s. induction Hl as [|a l Ha Hl IH]; intros s HQ; simpl; [by intros [= <-]|].
  rewrite result_bind_ok. intros (s1 & Hs1 & Hr). eauto.
Qed.

Lemma foldE_total {E S A} (f : S -> A -> result E S) l s :
  (forall s a, a ∈ l -> is_ok (f s a) = true) -> is_ok (foldE f l s) = true.
Proof.
  revert s. induction l as [|a l IH]; intros s Hf; simpl; [done|].
  pose proof (Hf s a ltac:(set_solver)). destruct (f s a); [|done]. simpl. apply IH. set_solver.
Qed.

Lemma foldE_app_ok {E S A} (f : S -> A -> result E S) l1 l2 s s2 :
  foldE f (l1 ++ l2) s = Ok s2 <-> exists s1, foldE f l1 s = Ok s1 /\ foldE f l2 s1 = Ok s2.
Proof.
  revert s. induction l1 as [|a l1 IH]; intros s; simpl; [naive_solver|].
  rewrite result_bind_ok. setoid_rewrite result_bind_ok. setoid_rewrite IH. naive_solver.
Qed.

(** The allow list of a composition is the concatenation of its roles' lists. *)
Lemma compose_roles_allow fuel m enabled l c c' :
  foldE (compose_role fuel m enabled) l c = Ok c' ->
  forall e, e ∈ c_allowlist c' <-> e ∈ c_allowlist c \/
    exists r al, r ∈ l /\ allowlist_for_role fuel m enabled r = Ok al /\ e ∈ al.
Proof.
  revert c. induction l as [|r l IH]; intros c; simpl; [intros [= <-]; set_solver|].
  rewrite result_bind_ok. intros (c1 & Hc1 & Hrest) e. rewrite (IH _ Hrest e).
  unfold compose_role in Hc1. apply result_bind_ok in Hc1 as (rs & Hrs & Hc1).
  apply result_bind_ok in Hc1 as (al & Hal & [= <-]). simpl. rewrite elem_of_app. split.
  - intros [[He|He]|(r' & al' & Hr' & ? & ?)]; [by left|right; exists r, al; set_solver|].
    right. exists r', al'. set_solver.
  - intros [He|(r' & al' & [->|Hr']%elem_of_cons & Hal' & He)]; [by left; left| |].
    + assert (al' = al) as -> by congruence. by left; right.
    + right. eauto.
Qed.

Lemma compose_allow fuel m enabled ps c c' :
  foldE (compose_one fuel m enabled) ps c = Ok c' ->
  forall e, e ∈ c_allowlist c' <-> e ∈ c_allowlist c \/
    exists p r al, p ∈ ps /\ r ∈ p_roles p /\ allowlist_for_role fuel m enabled r = Ok al /\ e ∈ al.
Proof.
  revert c. induction ps as [|p ps IH]; intros c; simpl; [intros [= <-]; set_solver|].
  rewrite result_bind_ok. intros (c1 & Hc1 & Hrest) e. rewrite (IH _ Hrest e).
  unfold compose_one in Hc1. apply result_bind_ok in Hc1 as (c2 & Hc2 & Hc1).
  apply result_bind_ok in Hc1 as (ui & _ & [= <-]). simpl. rewrite (compose_roles_allow _ _ _ _ _ _ Hc2 e).
  split.
  - intros [[He|(r & al & ? & ? & ?)]|(p' & r & al & ? & ? & ? & ?)]; [by left| |];
      right; [exists p, r, al|exists p', r, al]; set_solver.
  - intros [He|(p' & r & al & [->|Hp]%elem_of_cons & ? & ? & ?)]; [by left; left| |].
    + left. right. eauto.
    + right. eauto 10.
Qed.

Lemma has_non_builtin_total rs l : (forall r, r ∈ l -> r ∈ Dict.keys rs) -> is_ok (has_non_builtin rs l) = true.
Proof.
  induction l as [|r l IH]; intros Hk; simpl; [done|].
  destruct (proj2 (Dict.get_is_Some r rs) (Hk r ltac:(set_solver))) as [R ->].
  destruct (builtin R); [apply IH; set_solver|done].
Qed.

(** The roles an administrator can put in a privilege without hitting the
    endless recursion. *)
Definition role_usable (r : string) : Prop := r ∈ Dict.keys ROLES /\ (r ∉ self_including).

Lemma allowlist_returns ops enabled r :
  enabled = None \/ enabled = Some GPOS -> role_usable r ->
  exists rs al, roles_for_role 6 ROLES enabled r = Ok rs /\
    allowlist_for_role 6 (run_ops ROLES ops) enabled r = Ok al.
Proof.
  intros He [_ Hs]. destruct (ROLES_returns enabled r He Hs) as [S HS].
  assert (roles (run_ops ROLES ops) = ROLES) as Hrs by apply run_ops_inv.
  unfold allowlist_for_role. rewrite Hrs, HS. exists S.
  destruct (Dict.get r ROLES) as [R|]; [|eexists; split; reflexivity].
  destruct (full_admin R); [destruct (stig_unset enabled)|]; eexists; split; reflexivity.
Qed.

Lemma compose_returns ops stig ps :
  Forall (fun p => Forall role_usable (p_roles p)) ps ->
  exists c, compose_privilege 6 (run_ops ROLES ops) stig ps = Ok c.
Proof.
  intros Hps. unfold compose_privilege.
  set (enabled := Some (system_security_config_to_stig_type stig)).
  assert (forall r, role_usable r -> exists rs al, roles_for_role 6 ROLES enabled r = Ok rs /\
    allowlist_for_role 6 (run_ops ROLES ops) enabled r = Ok al) as Hret.
  { intros r Hr. subst enabled. destruct stig; unfold system_security_config_to_stig_type.
    - by apply allowlist_returns; [right|].
    - rewrite roles_for_role_stig_unset, allowlist_stig_unset by done. by apply allowlist_returns; [left|]. }
  assert (is_ok (foldE (compose_one 6 (run_ops ROLES ops) enabled) ps (mkComposed ∅ [] false false)) = true) as Hok.
  { apply foldE_total. intros c p Hp. rewrite Forall_forall in Hps. specialize (Hps p Hp).
    rewrite Forall_forall in Hps. unfold compose_one.
    assert (is_ok (foldE (compose_role 6 (run_ops ROLES ops) enabled) (p_roles p) c) = true) as Hr.
    { apply foldE_total. intros c' r Hr. destruct (Hret r (Hps r Hr)) as (rs & al & Hrs & Hal).
      unfold compose_role. assert (roles (run_ops ROLES ops) = ROLES) as -> by apply run_ops_inv.
      rewrite Hrs. simpl. by rewrite Hal. }
    destruct (foldE (compose_role _ _ _) (p_roles p) c); [|done]. simpl.
    unfold privilege_has_webui_access.
    pose proof (has_non_builtin_total ROLES (p_roles p) (fun r Hr => proj1 (Hps r Hr))) as Hui.
    by destruct (has_non_builtin ROLES (p_roles p)). }
  destruct (foldE (compose_one _ _ _) ps _) as [c|]; [|done]. simpl. eauto.
Qed.

(** A registration whose resource names are plain names. *)
Definition op_name (op : role_op) : string :=
  match op with
  | RegisterMethod n _ _ | AddRolesToMethod n _ | RegisterEvent n _ _ => n
  end.
Definition ops_plain (ops : list role_op) : Prop := Forall (fun op => Str.contains "*"%char (op_name op) = false) ops.

Lemma run_ops_plain ops : ops_plain ops ->
  forall res r, r ∈ default [] (Dict.get res (resources (methods (run_ops ROLES ops)))) -> Str.contains "*"%char res = false.
Proof.
  intros Hops. unfold run_ops.
  enough (forall m, (forall res, is_Some (Dict.get res (resources (methods m))) -> Str.contains "*"%char res = false) ->
    forall res, is_Some (Dict.get res (resources (methods (foldl exec_op m ops)))) -> Str.contains "*"%char res = false) as H.
  { intros res r Hr. apply (H (new_RoleManager ROLES)); [by intros ? []|].
    destruct (Dict.get res _); [eauto|]. simpl in Hr. set_solver. }
  assert (forall rs res l rm,
    (forall x, is_Some (Dict.get x (resources rm)) -> Str.contains "*"%char x = false) ->
    forall x, is_Some (Dict.get x (resources (add_roles_to_resource rs res l rm).1)) -> Str.contains "*"%char x = false) as Hadd.
  { intros rs res l rm Hrm x. unfold add_roles_to_resource.
    destruct (Dict.get res (resources rm)) as [old|] eqn:Ho; [|apply Hrm].
    destruct (check_roles rs res l); [|apply Hrm]. cbn [fst resources].
    rewrite Dict.get_is_Some, Dict.elem_keys_set, <-Dict.get_is_Some. intros [->|?]; eauto. }
  assert (forall rs res l ok rm, Str.contains "*"%char res = false ->
    (forall x, is_Some (Dict.get x (resources rm)) -> Str.contains "*"%char x = false) ->
    forall x, is_Some (Dict.get x (resources (register_resource rs res l ok rm).1)) -> Str.contains "*"%char x = false) as Hreg.
  { intros rs res l ok rm Hres Hrm x. unfold register_resource.
    destruct (Dict.mem res (resources rm)); [destruct ok; [apply Hadd, Hrm|apply Hrm]|].
    apply Hadd. intros y. cbn [resources].
    rewrite Dict.get_is_Some, Dict.elem_keys_set, <-Dict.get_is_Some. intros [->|?]; eauto. }
  induction Hops as [|op ops Hop Hops IH]; intros m Hm; [exact Hm|]. cbn [foldl]. apply IH. clear IH.
  destruct op as [n l ok|n l|n l ok]; simpl in Hop |- *; unfold register_method, add_roles_to_method, register_event.
  - specialize (Hreg (roles m) n l ok _ Hop Hm). by destruct (register_resource _ _ _ _ _).
  - specialize (Hadd (roles m) n l _ Hm). by destruct (add_roles_to_resource _ _ _ _).
  - by destruct (register_resource _ _ _ _ _).
Qed.

(** The entries of a role other than the full administrator. *)
Lemma allowlist_entry_method ops r al e :
  r ≠ "FULL_ADMIN" -> allowlist_for_role 6 (run_ops ROLES ops) None r = Ok al -> e ∈ al ->
  e.1 = "CALL" \/ e.1 = "SUBSCRIBE".
Proof.
  intros Hr. destruct (run_ops_inv ROLES ops) as [Hrs Hm He Hc Hs].
  assert (forall S, e ∈ allowlists_of (run_ops ROLES ops) S -> e.1 = "CALL" \/ e.1 = "SUBSCRIBE") as Hof.
  { destruct e as [em er].
    intros S (x & _ & [[-> _]%(rmi_transpose _ _ Hm)|[-> _]%(rmi_transpose _ _ He)])%allowlists_of_spec; auto. }
  unfold allowlist_for_role. rewrite Hrs. destruct (Dict.get r ROLES) as [R|] eqn:HR.
  - rewrite (ROLES_full_admin r R HR), bool_decide_eq_false_2 by done.
    rewrite result_bind_ok; intros (S & _ & [= <-]); apply Hof.
  - rewrite result_bind_ok; intros (S & _ & [= <-]); apply Hof.
Qed.

(** The entries of one usable role decide a call the way the role manager does. *)
Lemma role_allows ops r al meth :
  ops_plain ops -> role_usable r -> allowlist_for_role 6 (run_ops ROLES ops) None r = Ok al ->
  (exists e, e ∈ al /\ (e.1 = "*" \/ e.1 = "CALL") /\ entry_allows e meth = true) <->
  r = "FULL_ADMIN" \/ exists l, roles_for_method meth (run_ops ROLES ops) = Some l /\ r ∈ l.
Proof.
  intros Hplain [[R HR]%Dict.get_is_Some Hself] Hal. rewrite roles_for_method_iff.
  assert (roles (run_ops ROLES ops) = ROLES) as Hrs by apply run_ops_inv.
  pose proof (ROLES_full_admin r R HR) as Hfa. destruct (full_admin R) eqn:Hadm.
  - symmetry in Hfa. apply bool_decide_eq_true in Hfa as ->.
    unfold allowlist_for_role in Hal. rewrite Hrs, HR, Hadm in Hal. injection Hal as <-.
    split; [by left|]. intros _. exists ("*", "*"). split; [set_solver|]. split; [by left|apply gmatch_star_all].
  - symmetry in Hfa. apply bool_decide_eq_false in Hfa.
    destruct (role_allowlist ops r R HR Hadm Hself) as (al' & Hal' & Hspec).
    assert (al' = al) as -> by congruence. rewrite <-Hspec.
    assert (forall res, ("CALL", res) ∈ al -> entry_allows ("CALL", res) meth = bool_decide (res = meth)) as Hent.
    { intros res (a & Ha & _)%Hspec. unfold atomic_roles_for_method, atomic_roles_for_resource in Ha.
      apply elem_of_list_to_set in Ha. unfold entry_allows. cbn [snd].
      by rewrite (run_ops_plain ops Hplain res a Ha). }
    split.
    + intros ([em er] & He & Hm & Hall). right. simpl in Hm.
      destruct (allowlist_entry_method ops r al _ Hfa Hal He) as [Hc|Hs]; simpl in *; subst.
      * rewrite Hent in Hall by done. by apply bool_decide_eq_true in Hall as ->.
      * by destruct Hm.
    + intros [?|Hin]; [done|]. exists ("CALL", meth). split; [done|]. split; [by right|].
      rewrite Hent by done. by apply bool_decide_eq_true.
Qed.

Lemma readonly_admin_usable : role_usable "READONLY_ADMIN".
Proof. split; apply (bool_decide_unpack _); vm_compute; exact I. Qed.

(** The composed allow list allows a call exactly when a granted role does. *)
Lemma compose_authorizes_iff (ops : list role_op) (ps : list privilege) (meth : string) :
  ops_plain ops -> Forall (fun p => Forall role_usable (p_roles p)) ps ->
  exists c, compose_privilege 6 (run_ops ROLES ops) false ps = Ok c /\
    (authorize (new_Allowlist (c_allowlist c)) "CALL" meth = true <->
     exists p r, p ∈ ps /\ r ∈ p_roles p /\
       (r = "FULL_ADMIN" \/ exists l, roles_for_method meth (run_ops ROLES ops) = Some l /\ r ∈ l)).
Proof.
  intros Hplain Hps.
  destruct (compose_returns ops false ps Hps) as [c Hc]. exists c. split; [done|].
  unfold compose_privilege in Hc. apply result_bind_ok in Hc as (c' & Hc' & [= <-]).
  rewrite authorize_iff. setoid_rewrite (compose_allow _ _ _ _ _ _ Hc').
  setoid_rewrite allowlist_stig_unset; [|done].
  assert (forall p r, p ∈ ps -> r ∈ p_roles p -> role_usable r) as Hus.
  { intros p r Hp Hr. rewrite Forall_forall in Hps. specialize (Hps p Hp). rewrite Forall_forall in Hps. auto. }
  split.
  - intros (e & [He|(p & r & al & Hp & Hr & Hal & He)] & Hm); [simpl in He; set_solver|].
    exists p, r. split; [done|]. split; [done|]. eapply role_allows; eauto.
  - intros (p & r & Hp & Hr & Hg). destruct (allowlist_returns ops None r) as (Sr & al & Hret & Hal); [by left|by apply (Hus p)|].
    apply (role_allows ops r al meth Hplain (Hus p r Hp Hr) Hal) in Hg as (e & He & Hm).
    exists e. split; [|done]. right. eauto 10.
Qed.


(** [privileges_for_groups] selects the privileges that name one of the groups. *)
Lemma group_mapping_elem privileges ids k p :
  p ∈ (privileges_group_mapping privileges ids k).2 <-> p ∈ privileges /\ exists g, g ∈ key_groups k p /\ g ∈ ids.
Proof.
  unfold privileges_group_mapping. cbv zeta.
  match goal with |- context [foldl ?f _ _] => set (F := f) end.
  enough (forall acc, p ∈ (foldl F acc privileges).2 <->
          p ∈ acc.2 \/ (p ∈ privileges /\ exists g, g ∈ key_groups k p /\ g ∈ ids)) as Hgen.
  { rewrite (Hgen (∅, [])). simpl. set_solver. }
  induction privileges as [|q qs IH]; intros [rs out]; [simpl; set_solver|]. cbn [foldl]. rewrite IH. clear IH. unfold F.
  assert ((list_to_set (key_groups k q) : gset group_id) ∩ list_to_set ids ≠ ∅ <->
          exists g, g ∈ key_groups k q /\ g ∈ ids) as Hiff.
  { split.
    - intros Hne. apply set_choose_L in Hne as [g Hg]. exists g. set_solver.
    - intros (g & H1 & H2) He. assert (g ∈ (∅ : gset group_id)) by (rewrite <- He; set_solver). set_solver. }
  case_decide as He; simpl; rewrite elem_of_cons.
  - assert (p = q -> ~ exists g, g ∈ key_groups k p /\ g ∈ ids) by (intros -> Hg; by apply Hiff in Hg). naive_solver.
  - assert (p = q -> exists g, g ∈ key_groups k p /\ g ∈ ids) by (intros ->; by apply Hiff).
    rewrite elem_of_app, list_elem_of_singleton. naive_solver.
Qed.

(** ** Properties *)

(** C37: end-to-end authorization of method calls.  Compose the privileges of a
    user (roles of the shipped table but the two that include themselves, no STIG,
    registered names without asterisks), compile the allow list and ask for a method: the call is allowed exactly when one of the granted roles is
    [FULL_ADMIN] or is among the roles the role manager reports for the method.
    Composition itself returns. *)
Theorem compose_privilege_authorizes (ops : list role_op) (ps : list privilege) (meth : string)
  (Hplain : ops_plain ops) (Hps : Forall (fun p => Forall role_usable (p_roles p)) ps) :
  exists c, compose_privilege 6 (run_ops ROLES ops) false ps = Ok c /\
    (authorize (new_Allowlist (c_allowlist c)) "CALL" meth = true <->
     exists p r, p ∈ ps /\ r ∈ p_roles p /\
       (r = "FULL_ADMIN" \/ exists l, roles_for_method meth (run_ops ROLES ops) = Some l /\ r ∈ l)).
Proof. by apply compose_authorizes_iff. Qed.

Lemma compose_privilege_authorizes_witness :
  let ops := [RegisterMethod "pool.dataset.query" ["DATASET_READ"] false; RegisterMethod "pool.create" ["POOL_WRITE"] false] in
  let ps := [mkPrivilege "ro" [Gid 951] [] ["READONLY_ADMIN"] false] in
  exists c, compose_privilege 6 (run_ops ROLES ops) false ps = Ok c /\
    authorize (new_Allowlist (c_allowlist c)) "CALL" "pool.dataset.query" = true.
Proof.
  cbv zeta.
  destruct (compose_privilege_authorizes
    [RegisterMethod "pool.dataset.query" ["DATASET_READ"] false; RegisterMethod "pool.create" ["POOL_WRITE"] false]
    [mkPrivilege "ro" [Gid 951] [] ["READONLY_ADMIN"] false] "pool.dataset.query") as (c & Hc & Hspec).
  - repeat constructor.
  - constructor; [|constructor]. constructor; [apply readonly_admin_usable|constructor].
  - exists c. split; [exact Hc|]. apply Hspec.
    exists (mkPrivilege "ro" [Gid 951] [] ["READONLY_ADMIN"] false), "READONLY_ADMIN".
    split; [by constructor|]. split; [by constructor|]. right. eexists. split; [vm_compute; reflexivity|].
    apply (bool_decide_unpack _). vm_compute. exact I.
Defined.
