(* ===== verification/Origin.v ===== *)
(** * Where a connection comes from (src/middlewared/middlewared/utils/origin.py) *)

From S2P Require Import Prelude PyDict PyStr.

Inductive family := AF_UNIX | AF_INET | AF_INET6.

#[global] Instance family_eq_dec : EqDecision family.
Proof. solve_decision. Defined.

Definition AUID_UNSET : Z := 2 ^ 32 - 1.
Definition AUID_FAULTED : Z := 2 ^ 32 - 2.

Definition HA_HEARTBEAT_IPS : list string := ["169.254.10.1"; "169.254.10.2"].

Record ConnectionOrigin := mkOrigin {
  o_family : family;
  loc_addr : option string;
  loc_port : option Z;
  rem_addr : option string;
  rem_port : option Z;
  o_pid : option Z;
  o_uid : option Z;
  o_gid : option Z;
  loginuid : option Z;
  o_ssl : bool;
}.

#[global] Instance ConnectionOrigin_eq_dec : EqDecision ConnectionOrigin.
Proof. solve_decision. Defined.

Definition is_tcp_ip_family (o : ConnectionOrigin) : bool :=
  match o_family o with AF_INET | AF_INET6 => true | AF_UNIX => false end.

Definition is_unix_family (o : ConnectionOrigin) : bool := bool_decide (o_family o = AF_UNIX).

Definition is_ha_connection (o : ConnectionOrigin) : bool :=
  is_tcp_ip_family o
  && match rem_port o with Some p => (p <=? 1024)%Z | None => false end
  && match rem_addr o with Some a => bool_decide (a ∈ HA_HEARTBEAT_IPS) | None => false end.

Definition origin_match (self origin : ConnectionOrigin) : bool :=
  if is_unix_family self then bool_decide (o_uid self = o_uid origin) && bool_decide (o_gid self = o_gid origin)
  else bool_decide (rem_addr self = rem_addr origin).

Definition session_is_interactive (o : ConnectionOrigin) : bool :=
  match loginuid o with
  | None => true
  | Some l => negb (l =? AUID_UNSET)%Z
  end.

(** [is_loopback] of the [ipaddress] module, [None] when the text is not an
    address. *)
Definition secure_transport (is_loopback : string -> option bool) (o : ConnectionOrigin) : bool :=
  if o_ssl o || is_unix_family o || is_ha_connection o then true
  else if is_tcp_ip_family o then
    match rem_addr o with
    | None => false
    | Some a => match is_loopback a with Some b => b | None => false end
    end
  else false.

(** [is_external_call], of an application's origin *)
Definition is_external_call (app_origin : option (option ConnectionOrigin)) : bool :=
  match app_origin with
  | None | Some None => false
  | Some (Some o) => if is_ha_connection o then false else session_is_interactive o
  end.
