(* ===== verification/AuthLevels.v ===== *)
(** * Authenticator levels and one-time passwords (src/middlewared/middlewared/utils/auth.py) *)

From Stdlib Require Import Ascii.
From S2P Require Import Prelude PyDict PyStr.

(** ** Mechanisms and assurance levels *)

Inductive AuthMech := API_KEY_PLAIN | PASSWORD_PLAIN | TOKEN_PLAIN | OTP_TOKEN | SCRAM.

#[global] Instance AuthMech_eq_dec : EqDecision AuthMech.
Proof. solve_decision. Defined.

Inductive AuthResp := ASuccess | AUTH_ERR | AExpired | OTP_REQUIRED | REDIRECT | SCRAM_RESPONSE | DENIED.

#[global] Instance AuthResp_eq_dec : EqDecision AuthResp.
Proof. solve_decision. Defined.

Record AuthenticatorAssuranceLevel := mkAAL {
  max_session_age : Z;
  max_inactivity : option Z;
  mechanisms : list AuthMech;
  otp_mandatory : bool;
  min_fail_delay : Z;
}.

#[global] Instance AAL_eq_dec : EqDecision AuthenticatorAssuranceLevel.
Proof. solve_decision. Defined.

Definition AA_LEVEL1 : AuthenticatorAssuranceLevel :=
  mkAAL (86400 * 30) None [API_KEY_PLAIN; TOKEN_PLAIN; PASSWORD_PLAIN; SCRAM] false 1.
Definition AA_LEVEL2 : AuthenticatorAssuranceLevel :=
  mkAAL (12 * 60 * 60) (Some (30 * 60)%Z) [PASSWORD_PLAIN; SCRAM] true 4.
Definition AA_LEVEL3 : AuthenticatorAssuranceLevel :=
  mkAAL (13 * 60) (Some (15 * 60)%Z) [] true 4.

Definition aal_auth_mechanism_check (mechanism : AuthMech) (aal : AuthenticatorAssuranceLevel) : bool :=
  match mechanism with
  | OTP_TOKEN => true
  | _ => bool_decide (mechanism ∈ mechanisms aal)
  end.

(** ** One-time passwords *)

Inductive OTPWResponseCode := OtpSuccess | OtpExpired | NO_KEY | ALREADY_USED | WRONG_USER | BAD_PASSKEY.

#[global] Instance OTPWResponseCode_eq_dec : EqDecision OTPWResponseCode.
Proof. solve_decision. Defined.

Record UserOnetimePassword := mkOtp {
  otp_uid : Z;
  otp_expires : Z;
  otp_keyhash : string;
  otp_used : bool;
  password_set_override : bool;
}.

Record OnetimePasswordManager := mkOtpManager {
  otpasswd : list (string * UserOnetimePassword);
  otp_cnt : Z;
}.

Definition new_OnetimePasswordManager : OnetimePasswordManager := mkOtpManager [] 0.

(** [sha512_crypt] and [check_unixhash] (utils/crypto.py, on top of the crypt
    library) hash a password and check one against a hash. *)
Section otp.
Context (sha512_crypt : string -> string) (check_unixhash : string -> string -> bool).

(** [p] is the random string of 24 characters. *)
Definition human_friendly (p : string) : string :=
  Str.join "-" [Str.take 6 p; Str.take 6 (Str.drop 6 p); Str.take 6 (Str.drop 12 p); Str.take 6 (Str.drop 18 p)].

Definition generate_for_uid (p : string) (now uid : Z) (admin_generated : bool) (m : OnetimePasswordManager)
    : OnetimePasswordManager * string :=
  let entry := mkOtp uid (now + 86400) (sha512_crypt (human_friendly p)) false admin_generated in
  let cnt := (otp_cnt m + 1)%Z in
  (mkOtpManager (Dict.set (pretty cnt) entry (otpasswd m)) cnt, pretty cnt +:+ "_" +:+ human_friendly p).

Definition authenticate (now uid : Z) (plaintext : string) (m : OnetimePasswordManager)
    : OnetimePasswordManager * OTPWResponseCode :=
  match Str.split "_" plaintext with
  | [idx; passwd] =>
      match Dict.get idx (otpasswd m) with
      | None => (m, NO_KEY)
      | Some entry =>
          if negb (otp_uid entry =? uid)%Z then (m, WRONG_USER)
          else if otp_used entry then (m, ALREADY_USED)
          else if (otp_expires entry <? now)%Z then (m, OtpExpired)
          else if negb (check_unixhash passwd (otp_keyhash entry)) then (m, BAD_PASSKEY)
          else
            let entry := mkOtp (otp_uid entry) (otp_expires entry) (otp_keyhash entry) true (password_set_override entry) in
            (mkOtpManager (Dict.set idx entry (otpasswd m)) (otp_cnt m), OtpSuccess)
      end
  | _ => (m, NO_KEY)
  end.

(** ** Histories *)

Inductive otp_op :=
| Generate (p : string) (now uid : Z) (admin : bool)
| Authenticate (now uid : Z) (plaintext : string).

Definition otp_exec (m : OnetimePasswordManager) (o : otp_op) : OnetimePasswordManager * option OTPWResponseCode :=
  match o with
  | Generate p now uid admin => ((generate_for_uid p now uid admin m).1, None)
  | Authenticate now uid t => let '(m, r) := authenticate now uid t m in (m, Some r)
  end.

Fixpoint otp_run (m : OnetimePasswordManager) (os : list otp_op) : list (option OTPWResponseCode) * OnetimePasswordManager :=
  match os with
  | [] => ([], m)
  | o :: os => let '(m, r) := otp_exec m o in let '(rs, m) := otp_run m os in (r :: rs, m)
  end.

(** The index of a passkey. *)
Definition otp_index (t : string) : option string :=
  match Str.split "_" t with [idx; _] => Some idx | _ => None end.

(** The successful authentications with the passkey of index [idx]. *)
Definition success_of (idx : string) (x : otp_op * option OTPWResponseCode) : bool :=
  match x with
  | (Authenticate _ _ t, Some OtpSuccess) => bool_decide (otp_index t = Some idx)
  | _ => false
  end.

Definition successes (idx : string) (os : list otp_op) (rs : list (option OTPWResponseCode)) : nat :=
  length (filter (fun x => success_of idx x = true) (zip os rs)).

(** Indices are the decimal numbers up to the counter. *)
Definition otp_inv (m : OnetimePasswordManager) : Prop :=
  (0 <= otp_cnt m)%Z /\ forall i, is_Some (Dict.get (pretty i) (otpasswd m)) -> (i <= otp_cnt m)%Z.

Lemma otp_inv_exec m o : otp_inv m -> otp_inv (otp_exec m o).1.
Proof.
  intros [Hc Hi]. destruct o as [p now uid ad|now uid t]; simpl.
  - split; simpl; [lia|]. intros i. destruct (decide (i = (otp_cnt m + 1)%Z)) as [->|Hne]; [lia|].
    rewrite Dict.get_set_ne by (intros H; apply (inj pretty) in H; congruence). intros H%Hi. lia.
  - unfold authenticate. destruct (Str.split "_" t) as [|idx [|passwd [|]]]; try done.
    destruct (Dict.get idx (otpasswd m)) as [e|] eqn:He; [|done].
    destruct (negb _); [done|]. destruct (otp_used e); [done|]. destruct (_ <? _)%Z; [done|]. destruct (negb _); [done|].
    split; simpl; [done|]. intros i. destruct (decide (pretty i = idx)) as [<-|Hne].
    + intros _. apply Hi. eauto.
    + rewrite Dict.get_set_ne by done. apply Hi.
Qed.

(** What one operation does to the entry of [idx]. *)
Lemma otp_exec_entry m o i : otp_inv m -> (i <= otp_cnt m)%Z ->
  let '(m', r) := otp_exec m o in
  (i <= otp_cnt m')%Z /\
  (if success_of (pretty i) (o, r)
   then (exists e, Dict.get (pretty i) (otpasswd m) = Some e /\ otp_used e = false) /\
        exists e', Dict.get (pretty i) (otpasswd m') = Some e' /\ otp_used e' = true
   else Dict.get (pretty i) (otpasswd m') = Dict.get (pretty i) (otpasswd m)).
Proof.
  intros Hinv Hle. destruct o as [p now uid ad|now uid t]; simpl.
  - split; [lia|]. rewrite Dict.get_set_ne; [done|]. intros H. apply (inj pretty) in H. lia.
  - unfold authenticate, otp_index. destruct (Str.split "_" t) as [|idx [|passwd [|]]]; try done.
    destruct (Dict.get idx (otpasswd m)) as [e|] eqn:He; [|done].
    destruct (negb _); [done|]. destruct (otp_used e) eqn:Hu; [done|]. destruct (_ <? _)%Z; [done|]. destruct (negb _); [done|].
    split; [done|]. case_bool_decide as Hidx.
    + injection Hidx as ->. split; [eauto|]. eexists. cbn [otpasswd]. by rewrite Dict.get_set_eq.
    + simpl. rewrite Dict.get_set_ne; [done|]. congruence.
Qed.

Lemma otp_run_cons m o os : otp_run m (o :: os) =
  let '(m', r) := otp_exec m o in (r :: (otp_run m' os).1, (otp_run m' os).2).
Proof. simpl. destruct (otp_exec m o) as [m' r]. by destruct (otp_run m' os). Qed.

Lemma successes_cons idx o os r rs :
  successes idx (o :: os) (r :: rs) = (if success_of idx (o, r) then 1 else 0) + successes idx os rs.
Proof. unfold successes. cbn [zip zip_with]. rewrite filter_cons. destruct (success_of idx (o, r)); by case_decide. Qed.

Lemma successes_bound os : forall m i, otp_inv m -> (i <= otp_cnt m)%Z ->
  successes (pretty i) os (otp_run m os).1 <=
  (match Dict.get (pretty i) (otpasswd m) with Some e => if otp_used e then 0 else 1 | None => 0 end).
Proof.
  induction os as [|o os IH]; intros m i Hinv Hle; [unfold successes; simpl; lia|].
  rewrite otp_run_cons. pose proof (otp_exec_entry m o i Hinv Hle) as He. pose proof (otp_inv_exec m o Hinv) as Hinv'.
  destruct (otp_exec m o) as [m' r]. destruct He as [Hle' He]. cbn [fst] in *. rewrite successes_cons.
  specialize (IH m' i Hinv' Hle'). destruct (success_of (pretty i) (o, r)).
  - destruct He as [(e & -> & ->) (e' & He' & Hu')]. rewrite He', Hu' in IH. lia.
  - rewrite He in IH. lia.
Qed.

Lemma successes_app os : forall m i, otp_inv m -> (i <= otp_cnt m)%Z -> successes (pretty i) os (otp_run m os).1 <= 1.
Proof.
  intros m i Hinv Hle. pose proof (successes_bound os m i Hinv Hle) as Hb.
  destruct (Dict.get _ _) as [e|]; [destruct (otp_used e)|]; lia.
Qed.

(** one-time passwords are used at most once.  In any history of generated
    passwords and authentication attempts, each index is accepted at most once,
    whatever the users and the times of the attempts. *)
Theorem onetime_password_once (os : list otp_op) (i : Z) :
  successes (pretty i) os (otp_run new_OnetimePasswordManager os).1 <= 1.
Proof.
  assert (forall os m, otp_inv m -> (otp_cnt m < i)%Z -> successes (pretty i) os (otp_run m os).1 <= 1) as Hgen.
  { clear os. induction os as [|o os IH]; intros m Hinv Hlt; [unfold successes; simpl; lia|].
    rewrite otp_run_cons. pose proof (otp_inv_exec m o Hinv) as Hinv'.
    assert (Dict.get (pretty i) (otpasswd m) = None) as Hnone.
    { destruct (Dict.get _ _) eqn:E; [|done]. destruct Hinv as [_ Hi]. specialize (Hi i). rewrite E in Hi.
      specialize (Hi ltac:(eauto)). lia. }
    assert (success_of (pretty i) (o, (otp_exec m o).2) = false) as Hno.
    { destruct o as [|now uid t]; [done|]. simpl. unfold authenticate, otp_index.
      destruct (Str.split "_" t) as [|idx [|passwd [|]]]; try done.
      destruct (Dict.get idx (otpasswd m)) as [e|] eqn:He; [|done].
      destruct (negb _); [done|]. destruct (otp_used e); [done|]. destruct (_ <? _)%Z; [done|]. destruct (negb _); [done|].
      simpl. apply bool_decide_eq_false_2. congruence. }
    destruct (otp_exec m o) as [m' r]. cbn [fst snd] in *. rewrite successes_cons, Hno. cbn [Nat.add].
    destruct (decide (otp_cnt m' < i)%Z); [by apply IH|]. apply successes_app; [done|lia]. }
  assert (otp_inv new_OnetimePasswordManager) as Hinv by (split; simpl; [done|intros j [? ?]; done]).
  destruct (decide (0 < i)%Z); [by apply Hgen|].
  pose proof (successes_bound os new_OnetimePasswordManager i) as Hb. simpl in Hb.
  specialize (Hb Hinv ltac:(lia)). lia.
Qed.

(** The decimal digits contain no underscore. *)
Lemma pretty_N_go_no_underscore (x : N) : forall s,
  Str.contains "_" (pretty_N_go x s) = Str.contains "_" s.
Proof.
  induction x as [x IH] using (well_founded_induction N.lt_wf_0). intros s.
  destruct (decide (0 < x)%N) as [Hx|Hx].
  - rewrite pretty_N_go_step by done. rewrite IH by (apply N.div_lt; lia). cbn [Str.contains].
    rewrite bool_decide_eq_false_2; [done|].
    unfold pretty_N_char. destruct (x `mod` 10)%N as [|p]; [done|]. by repeat (destruct p as [p|p|]; try done).
  - assert (x = 0%N) as -> by lia. by rewrite pretty_N_go_0.
Qed.

Lemma pretty_pos_no_underscore (i : Z) : (0 < i)%Z -> Str.contains "_" (pretty i) = false.
Proof.
  intros Hi. destruct i as [|p|p]; [lia| |lia]. unfold pretty at 1, pretty_Z. unfold pretty, pretty_positive, pretty, pretty_N.
  rewrite decide_False by done. by rewrite pretty_N_go_no_underscore.
Qed.

(** a generated passkey works.  If hashing a password gives a hash it checks
    against, the passkey shown to the administrator authenticates its user during
    the following day, and nobody else; after that success it is refused. *)
Theorem onetime_password_round_trip (p : string) (now now' uid uid' : Z) (admin : bool) (m : OnetimePasswordManager)
  (Hcnt : (0 <= otp_cnt m)%Z) (Hp : Str.contains "_" (human_friendly p) = false)
  (Hhash : forall x, check_unixhash x (sha512_crypt x) = true) (Htime : (now <= now' <= now + 86400)%Z) :
  let '(m1, key) := generate_for_uid p now uid admin m in
  (uid' ≠ uid -> authenticate now' uid' key m1 = (m1, WRONG_USER)) /\
  let '(m2, r) := authenticate now' uid key m1 in
  r = OtpSuccess /\ forall t, (authenticate t uid key m2).2 = ALREADY_USED.
Proof.
  unfold generate_for_uid. set (cnt := (otp_cnt m + 1)%Z).
  assert (Str.split "_" (pretty cnt +:+ "_" +:+ human_friendly p) = [pretty cnt; human_friendly p]) as Hsplit.
  { change ("_" +:+ human_friendly p) with (String "_" (human_friendly p)).
    rewrite Str.split_app by (apply pretty_pos_no_underscore; unfold cnt; lia). by rewrite Str.split_notin. }
  unfold authenticate. rewrite Hsplit. cbn [otpasswd otp_cnt]. rewrite Dict.get_set_eq. cbn [otp_uid otp_used otp_expires otp_keyhash].
  split.
  - intros Hne. by rewrite (proj2 (Z.eqb_neq _ _)) by done.
  - rewrite Z.eqb_refl. cbn [negb]. rewrite (proj2 (Z.ltb_ge _ _)) by lia. rewrite Hhash. cbn [negb].
    split; [done|]. intros t. cbn [otpasswd]. rewrite Dict.get_set_eq. cbn [otp_uid otp_used]. by rewrite Z.eqb_refl.
Qed.
End otp.

Lemma onetime_password_round_trip_witness :
  let check := fun x h => String.eqb x h in
  let '(m1, key) := generate_for_uid (fun x => x) "abcdefghijklmnopqrstuvwx" 10 1000 false new_OnetimePasswordManager in
  let '(m2, r) := authenticate check 20 1000 key m1 in
  r = OtpSuccess /\ (authenticate check 21 1000 key m2).2 = ALREADY_USED.
Proof.
  cbv zeta.
  pose proof (onetime_password_round_trip (fun x => x) (fun x h => String.eqb x h) "abcdefghijklmnopqrstuvwx" 10 20 1000 0
    false new_OnetimePasswordManager) as H.
  destruct (generate_for_uid _ _ _ _ _ _) as [m1 key].
  destruct H as [_ H]; [done|vm_compute; reflexivity|intros x; apply String.eqb_refl|lia|].
  destruct (authenticate _ 20 1000 key m1) as [m2 r]. destruct H as [H1 H2]. split; [exact H1|apply H2].
Defined.
