(* ===== verification/RateLimit.v ===== *)
(** * Rate limit of unauthenticated calls (src/middlewared/middlewared/utils/rate_limit/cache.py)

    The cache counts the calls per method and remote address.  Time is the
    monotonic clock, in seconds, as an argument. *)

From S2P Require Import Prelude PyDict PyStr Origin.

Definition max_calls : Z := 20.
Definition max_period : Z := 60.
Definition max_cache_entries : nat := 100.
Definition separator : string := "_##_".

Record RateLimitObject := mkRL { num_times_called : Z; last_reset : Z }.

(** [RL_CACHE] *)
Definition cache : Type := list (string * RateLimitObject).

Definition cache_key (method_name ip : string) : string := method_name +:+ separator +:+ ip.

(** The update of an entry in [rate_limit_exceeded] *)
Definition bump (now : Z) (e : RateLimitObject) : RateLimitObject :=
  let e := if (max_period - (now - last_reset e) <=? 0)%Z then mkRL 0 now else e in
  mkRL (num_times_called e + 1) (last_reset e).

Definition rate_limit_exceeded (now : Z) (method_name ip : string) (c : cache) : cache * bool :=
  let key := cache_key method_name ip in
  match Dict.get key c with
  | Some e => let e := bump now e in (Dict.set key e c, (max_calls <? num_times_called e)%Z)
  | None => (c, false)
  end.

(** [RateLimit.add]; [None] is an origin that is not there. *)
Definition add (now : Z) (method_name : string) (origin : option ConnectionOrigin) (c : cache) : cache * option string :=
  match origin with
  | None => (c, None)
  | Some o =>
      if is_ha_connection o || is_unix_family o then (c, None)
      else match rem_addr o, rem_port o with
           | Some ip, Some _ =>
               let key := cache_key method_name ip in
               (if Dict.mem key c then c else Dict.set key (mkRL 0 now) c, Some ip)
           | _, _ => (c, None)
           end
  end.

Definition cache_pop (method_name ip : string) (c : cache) : cache := Dict.pop (cache_key method_name ip) c.
Definition cache_clear (c : cache) : cache := [].
Definition max_entries_reached (c : cache) : bool := Nat.eqb (length c) max_cache_entries.

(** The rate limit part of [authorize_method_call] (main.py): whether the call
    goes on. *)
Definition check_rate_limit (now : Z) (method_name : string) (origin : option ConnectionOrigin) (c : cache) : cache * bool :=
  match add now method_name origin c with
  | (c, None) => (c, true)
  | (c, Some ip) =>
      let reached := max_entries_reached c in
      let '(c, exceeded) := rate_limit_exceeded now method_name ip c in
      (c, negb (reached || exceeded))
  end.

(** ** Counting accepted calls *)

(** A sequence of calls of one method, with their times and addresses, and for
    each whether it was accepted. *)
Fixpoint serve (method_name : string) (calls : list (Z * option ConnectionOrigin)) (c : cache) : list bool * cache :=
  match calls with
  | [] => ([], c)
  | (now, o) :: calls =>
      let '(c, ok) := check_rate_limit now method_name o c in
      let '(oks, c) := serve method_name calls c in
      (ok :: oks, c)
  end.

(** The address an origin is limited by. *)
Definition limited_ip (o : option ConnectionOrigin) : option string :=
  match o with
  | None => None
  | Some o =>
      if is_ha_connection o || is_unix_family o then None
      else match rem_addr o, rem_port o with Some ip, Some _ => Some ip | _, _ => None end
  end.

Lemma cache_key_inj method_name ip ip' : cache_key method_name ip = cache_key method_name ip' -> ip = ip'.
Proof. unfold cache_key. intros H. by apply (inj (String.append _)), (inj (String.append _)) in H. Qed.

(** One call: the entry of its own key is created or bumped, the others stay. *)
Lemma check_spec now method_name o c :
  let '(c', ok) := check_rate_limit now method_name o c in
  match limited_ip o with
  | None => c' = c /\ ok = true
  | Some ip =>
      let e := bump now (default (mkRL 0 now) (Dict.get (cache_key method_name ip) c)) in
      Dict.get (cache_key method_name ip) c' = Some e /\
      (forall k, k ≠ cache_key method_name ip -> Dict.get k c' = Dict.get k c) /\
      (ok = true -> (num_times_called e <= max_calls)%Z)
  end.
Proof.
  unfold check_rate_limit, add, limited_ip. destruct o as [o|]; [|done].
  destruct (is_ha_connection o || is_unix_family o); [done|].
  destruct (rem_addr o) as [ip|]; [|done]. destruct (rem_port o); [|done]. cbv zeta.
  set (key := cache_key method_name ip). set (c1 := if Dict.mem key c then c else Dict.set key (mkRL 0 now) c).
  assert (Dict.get key c1 = Some (default (mkRL 0 now) (Dict.get key c))) as H1.
  { unfold c1. destruct (Dict.mem key c) eqn:Hm.
    - apply Dict.mem_spec, Dict.get_is_Some in Hm as [e He]. by rewrite He.
    - apply Dict.mem_false in Hm. rewrite Dict.get_set_eq, Hm. done. }
  assert (forall k, k ≠ key -> Dict.get k c1 = Dict.get k c) as H2.
  { intros k Hk. unfold c1. destruct (Dict.mem key c); [done|]. by rewrite Dict.get_set_ne. }
  unfold rate_limit_exceeded. fold key. rewrite H1. split_and!.
  - apply Dict.get_set_eq.
  - intros k Hk. rewrite Dict.get_set_ne by done. by apply H2.
  - destruct (max_entries_reached c1); [done|]. simpl. intros Hok. apply negb_true_iff, Z.ltb_ge in Hok. done.
Qed.

(** The times of the calls from [ip] that were accepted. *)
Definition accepted (ip : string) (calls : list (Z * option ConnectionOrigin)) (oks : list bool) : list Z :=
  omap (fun '((now, o), ok) => if ok && bool_decide (limited_ip o = Some ip) then Some now else None) (zip calls oks).

(** Calls in time order, from time [t]. *)
Fixpoint ordered (t : Z) (calls : list (Z * option ConnectionOrigin)) : Prop :=
  match calls with
  | [] => True
  | (now, _) :: calls => (t <= now)%Z /\ ordered now calls
  end.

(** How many of some times are before [t]. *)
Definition before (t : Z) (l : list Z) : Z := Z.of_nat (length (filter (fun x => (x < t)%Z) l)).

Lemma before_cons t x l : before t (x :: l) = ((if decide (x < t)%Z then 1 else 0) + before t l)%Z.
Proof. unfold before. rewrite filter_cons. destruct (decide _); simpl; lia. Qed.

Lemma before_nonneg t l : (0 <= before t l)%Z.
Proof. unfold before. lia. Qed.

(** One step of [serve] on the accepted calls. *)
Lemma accepted_cons ip now o calls ok oks :
  accepted ip ((now, o) :: calls) (ok :: oks) =
  (if ok && bool_decide (limited_ip o = Some ip) then [now] else []) ++ accepted ip calls oks.
Proof. unfold accepted. simpl. by destruct (ok && _). Qed.

Lemma ordered_before ip t t' calls oks : ordered t calls -> (t' <= t)%Z -> before t' (accepted ip calls oks) = 0%Z.
Proof.
  revert t oks. induction calls as [|[now o] calls IH]; intros t oks Ho Ht; [done|].
  destruct Ho as [Hn Ho]. destruct oks as [|ok oks]; [done|].
  rewrite accepted_cons. destruct (ok && _); simpl.
  - rewrite before_cons, decide_False by lia. rewrite (IH now); [done|done|lia].
  - apply (IH now); [done|lia].
Qed.

Lemma serve_cons method_name now o calls c :
  serve method_name ((now, o) :: calls) c =
  let '(c1, ok) := check_rate_limit now method_name o c in
  (ok :: (serve method_name calls c1).1, (serve method_name calls c1).2).
Proof. simpl. destruct (check_rate_limit _ _ _ _) as [c1 ok]. by destruct (serve method_name calls c1). Qed.

Section window.
Context (method_name ip : string).
Let key := cache_key method_name ip.

(** What a call does to the entry of [ip]. *)
Lemma check_entry now o c c' ok :
  check_rate_limit now method_name o c = (c', ok) ->
  if bool_decide (limited_ip o = Some ip) then
    let e := bump now (default (mkRL 0 now) (Dict.get key c)) in
    Dict.get key c' = Some e /\ (ok = true -> (num_times_called e <= max_calls)%Z)
  else Dict.get key c' = Dict.get key c.
Proof.
  intros Hc. pose proof (check_spec now method_name o c) as Hs. rewrite Hc in Hs.
  destruct (limited_ip o) as [ip'|] eqn:Hl.
  - cbv zeta in Hs. destruct Hs as (H1 & H2 & H3). case_bool_decide as Heq.
    + injection Heq as ->. done.
    + apply H2. intros Hk. apply cache_key_inj in Hk. congruence.
  - destruct Hs as [-> _]. by rewrite bool_decide_eq_false_2.
Qed.

(** Calls accepted until the end of the window of the entry. *)
Lemma window_first t calls : forall c e,
  ordered t calls -> Dict.get key c = Some e -> (0 <= num_times_called e)%Z ->
  (before (last_reset e + max_period) (accepted ip calls (serve method_name calls c).1)
     <= Z.max 0 (max_calls - num_times_called e))%Z.
Proof.
  revert t. induction calls as [|[now o] calls IH]; intros t c e Ho He Hn.
  { unfold before, accepted. simpl. lia. }
  destruct Ho as [Ht Ho]. rewrite serve_cons. destruct (check_rate_limit now method_name o c) as [c1 ok] eqn:Hc.
  cbn [fst]. rewrite accepted_cons. pose proof (check_entry now o c c1 ok Hc) as Hs.
  case_bool_decide as Hip.
  - cbv zeta in Hs. rewrite He in Hs. destruct Hs as [H1 H2]. simpl in H1, H2. unfold bump in H1, H2.
    destruct (Z.leb_spec (max_period - (now - last_reset e)) 0) as [Hreset|Hno].
    + assert (forall l, before (last_reset e + max_period) ((if ok && true then [now] else []) ++ l) =
        before (last_reset e + max_period) l) as ->.
      { intros l. destruct ok; [|done]. simpl. rewrite before_cons, decide_False by lia. lia. }
      rewrite (ordered_before ip now); [lia|done|lia].
    + simpl in H1, H2. pose proof (IH now c1 _ Ho H1 ltac:(simpl; lia)) as Hrest. simpl in Hrest.
      destruct ok; simpl.
      * specialize (H2 eq_refl). rewrite before_cons, decide_True by lia. lia.
      * lia.
  - rewrite andb_false_r. simpl. apply (IH now); [done| |done]. by rewrite Hs.
Qed.

(** Calls accepted in any period as long as a window: those the current window
    still allows, and a whole new window. *)
Lemma window_any t0 t calls : forall c,
  (t <= t0)%Z -> ordered t0 calls -> (forall e, Dict.get key c = Some e -> (0 <= num_times_called e)%Z) ->
  (before (t + max_period) (accepted ip calls (serve method_name calls c).1)
     <= match Dict.get key c with Some e => Z.max 0 (max_calls - num_times_called e) | None => 0 end + max_calls)%Z.
Proof.
  revert t0. induction calls as [|[now o] calls IH]; intros t0 c Ht Ho Hnn.
  { unfold before, accepted. simpl. unfold max_calls. destruct (Dict.get key c); lia. }
  destruct Ho as [Hle Ho]. rewrite serve_cons. destruct (check_rate_limit now method_name o c) as [c1 ok] eqn:Hc.
  cbn [fst]. rewrite accepted_cons. pose proof (check_entry now o c c1 ok Hc) as Hs.
  assert (forall e, Dict.get key c1 = Some e -> num_times_called e = 1%Z -> last_reset e = now ->
    (before (t + max_period) (accepted ip calls (serve method_name calls c1).1) <= max_calls - 1)%Z) as Hfresh.
  { intros e He H1 H2. pose proof (window_first now calls c1 e Ho He ltac:(lia)) as Hw. rewrite H1, H2 in Hw.
    assert (forall l, before (t + max_period) l <= before (now + max_period) l)%Z as Hmono.
    { clear -Hle Ht. induction l as [|x l IHl]; [done|]. rewrite !before_cons.
      destruct (decide (x < t + max_period)%Z), (decide (x < now + max_period)%Z); lia. }
    specialize (Hmono (accepted ip calls (serve method_name calls c1).1)). unfold max_calls in *. lia. }
  case_bool_decide as Hip.
  - cbv zeta in Hs. destruct Hs as [H1 H2]. rewrite andb_true_r.
    assert (forall l, before (t + max_period) ((if ok then [now] else []) ++ l) <= 1 + before (t + max_period) l)%Z as Hone.
    { intros l. destruct ok; simpl; [|lia]. rewrite before_cons. destruct (decide _); lia. }
    destruct (Dict.get key c) as [e|] eqn:He; simpl in H1, H2.
    + specialize (Hnn e eq_refl). unfold bump in H1, H2.
      destruct (Z.leb_spec (max_period - (now - last_reset e)) 0) as [Hreset|Hno]; simpl in H1, H2.
      * specialize (Hfresh _ H1 eq_refl eq_refl). specialize (Hone (accepted ip calls (serve method_name calls c1).1)). lia.
      * pose proof (IH now c1 ltac:(lia) Ho) as Hrest. rewrite H1 in Hrest. simpl in Hrest.
        specialize (Hrest ltac:(intros ? [= <-]; simpl; lia)).
        destruct ok; [specialize (H2 eq_refl)|];
          specialize (Hone (accepted ip calls (serve method_name calls c1).1)); simpl in *; lia.
    + unfold bump in H1. simpl in H1. destruct (Z.leb_spec (max_period - (now - now)) 0);
        [unfold max_period in *; lia|]. simpl in H1.
      specialize (Hfresh _ H1 eq_refl eq_refl). specialize (Hone (accepted ip calls (serve method_name calls c1).1)). lia.
  - rewrite andb_false_r. simpl. rewrite <-Hs. apply (IH now); [lia|done|]. intros e. rewrite Hs. apply Hnn.
Qed.
End window.

(** C40: the rate limit.  Whatever calls arrive and whatever the cache holds, in
    any period of [max_period] seconds at most twice [max_calls] unauthenticated
    calls of a method are accepted from one remote address, and at most
    [max_calls] from an address the cache does not know yet. *)
Theorem rate_limit_holds (method_name ip : string) (t : Z) (calls : list (Z * option ConnectionOrigin)) (c : cache)
  (Ho : ordered t calls)
  (Hnn : forall e, Dict.get (cache_key method_name ip) c = Some e -> (0 <= num_times_called e)%Z) :
  (before (t + max_period) (accepted ip calls (serve method_name calls c).1) <= 2 * max_calls)%Z /\
  (Dict.get (cache_key method_name ip) c = None ->
   (before (t + max_period) (accepted ip calls (serve method_name calls c).1) <= max_calls)%Z).
Proof.
  pose proof (window_any method_name ip t t calls c ltac:(lia) Ho Hnn) as Hw.
  destruct (Dict.get _ c) as [e|] eqn:He; [specialize (Hnn e eq_refl)|]; split; try done; unfold max_calls in *; lia.
Qed.

Definition demo_origin : ConnectionOrigin :=
  mkOrigin AF_INET None None (Some "192.0.2.1") (Some 40000%Z) None None None None true.

Lemma rate_limit_holds_witness :
  (before 60 (accepted "192.0.2.1" (replicate 30 (5%Z, Some demo_origin))
     (serve "auth.login" (replicate 30 (5%Z, Some demo_origin)) []).1) <= max_calls)%Z /\
  before 60 (accepted "192.0.2.1" (replicate 30 (5%Z, Some demo_origin))
     (serve "auth.login" (replicate 30 (5%Z, Some demo_origin)) []).1) = 20%Z.
Proof.
  split; [|vm_compute; reflexivity].
  apply (rate_limit_holds "auth.login" "192.0.2.1" 0 (replicate 30 (5%Z, Some demo_origin)) []);
    [|done|reflexivity]. simpl. lia.
Defined.

(** the bound on the number of entries is an equality test after the
    insertion, so it does not bound the cache.  Once there are at least
    [max_cache_entries] entries, a call from any further address is accepted and
    adds one more entry. *)
Theorem cache_grows_past_limit (now : Z) (method_name ip : string) (o : ConnectionOrigin) (c : cache)
  (Hip : limited_ip (Some o) = Some ip) (Hnew : Dict.get (cache_key method_name ip) c = None)
  (Hfull : max_cache_entries <= length c) :
  let '(c', ok) := check_rate_limit now method_name (Some o) c in ok = true /\ length c' = S (length c).
Proof.
  unfold check_rate_limit, add. unfold limited_ip in Hip.
  destruct (is_ha_connection o || is_unix_family o); [done|].
  destruct (rem_addr o) as [ip'|]; [|done]. destruct (rem_port o); [|done]. injection Hip as ->.
  set (key := cache_key method_name ip) in *.
  assert (Dict.mem key c = false) as -> by by apply Dict.mem_false.
  unfold rate_limit_exceeded. fold key. rewrite Dict.get_set_eq.
  assert (max_entries_reached (Dict.set key (mkRL 0 now) c) = false) as ->.
  { unfold max_entries_reached. apply Nat.eqb_neq.
    rewrite Dict.length_set_new by by apply Dict.get_None. lia. }
  unfold bump. simpl. destruct (Z.leb_spec (max_period - (now - now)) 0); [unfold max_period in *; lia|]. simpl.
  split; [done|].
  assert (forall (d : cache) v v', length (Dict.set key v (Dict.set key v' d)) = length (Dict.set key v' d)) as ->.
  { intros d v v'. rewrite <-!(length_fmap fst). change (fst <$> ?x) with (Dict.keys x).
    by rewrite Dict.keys_set_old by (apply Dict.elem_keys_set; by left). }
  by rewrite Dict.length_set_new by by apply Dict.get_None.
Qed.

Definition full_cache : cache := map (fun n => (pretty n, mkRL 1 0)) (seq 0 100).

Lemma cache_grows_past_limit_witness :
  let '(c', ok) := check_rate_limit 5 "auth.login" (Some demo_origin) full_cache in ok = true /\ length c' = 101.
Proof.
  apply (cache_grows_past_limit 5 "auth.login" "192.0.2.1" demo_origin full_cache);
    [reflexivity|vm_compute; reflexivity|vm_compute; reflexivity].
Defined.
