(* ===== verification/JobModel.v ===== *)
(** * Jobs: data and operations (src/middlewared/middlewared/job.py)

    A [Job] is a long-running method call.  [JobsQueue] assigns ids, keeps the
    jobs in a bounded registry, and starts queued jobs one at a time per lock.
    Jobs and locks are mutable objects shared by the queue, the registry, the
    running coroutines and one another, so the model keeps a heap of each and
    passes references.

    [Job.run] is a coroutine.  Between two [await]s it runs without
    interruption, so each such segment is one definition and the program counter
    [j_pc] says which [await] the coroutine is suspended at. *)

From S2P Require Import Prelude PyDict PyStr PyVal Errors.

(** ** What jobs need of the session that started them *)

Class JobCredential (C : Type) := {
  jc_is_user_session : C -> bool;
  jc_username : C -> option string;
  jc_full_admin : C -> bool;
  jc_has_role : C -> string -> bool;
  jc_class_name : C -> string;
  jc_dump : C -> json;
}.

(** A user session always has a user name. *)
Class JobCredentialLaws (C : Type) `{JobCredential C} := {
  jc_user_named : forall c, jc_is_user_session c = true -> is_Some (jc_username c);
}.

(** The parts of the middleware a job calls: secrets redaction of arguments and
    results, the quoting of command lines, and the interpreter's recursion
    limit. *)
Class JobEnv := {
  dump_args : string -> list json -> list json;
  dump_result : string -> json -> result string json;
  join_commandline : list string -> string;
  exn_str : exn -> string;
  exn_repr : exn -> string;
  format_exception : exn -> string;
  recursion_limit : nat;
}.

(** ** Data *)

Inductive State := WAITING | RUNNING | SUCCESS | FAILED | ABORTED.

#[global] Instance State_eq_dec : EqDecision State.
Proof. solve_decision. Defined.

Definition State_name (x : State) : string :=
  match x with
  | WAITING => "WAITING" | RUNNING => "RUNNING" | SUCCESS => "SUCCESS"
  | FAILED => "FAILED" | ABORTED => "ABORTED"
  end.

(** [State.__members__[name]] *)
Definition State_member (name : string) : option State :=
  List.find (fun x => String.eqb (State_name x) name) [WAITING; RUNNING; SUCCESS; FAILED; ABORTED].

Definition finished_state (x : State) : bool :=
  match x with SUCCESS | FAILED | ABORTED => true | _ => false end.

Inductive JobAccess := READ | ABORT.

#[global] Instance JobAccess_eq_dec : EqDecision JobAccess.
Proof. solve_decision. Defined.

(** [options['lock']]: a constant name or a callable on the arguments. *)
Inductive lock_spec :=
| LockConst (name : string)
| LockCall (f : list json -> result exn (option string)).

Inductive pipe_name := input | output.

Record job_options := mkOptions {
  o_lock : option lock_spec;
  o_lock_queue_size : option Z;
  o_logs : bool;
  o_pipes : list pipe_name;
  o_check_pipes : bool;
  o_transient : bool;
  o_description : option (list json -> result exn string);
  o_abortable : bool;
  o_read_roles : list string;
}.

Record pipes := mkPipes { p_input : bool; p_output : bool }.

Record progress := mkProgress {
  percent : Z;
  description : string;
  extra : json;
}.

#[global] Instance progress_eq_dec : EqDecision progress.
Proof. solve_decision. Defined.

(** A percentage given as an [int] or as a [float] with that exact value. *)
Inductive number := NInt (z : Z) | NFloat (num : Z) (den : positive).

(** [int(x)] truncates towards zero. *)
Definition py_int (n : number) : Z :=
  match n with NInt z => z | NFloat a b => Z.quot a (Zpos b) end.

(** Where the coroutine [Job.run] is: not started because the job was merged
    into or refused in favour of another ([PDiscarded]), in the queue, about to
    start, waiting for the log file, for the body, for the log and pipes to
    close, for the finish callback, finished; or ended by an exception outside
    its [try] ([PCrashed]) or of closing the log or the pipes in its [finally]
    ([PUnclosed]).  [PReceived] is a job copied from the other controller. *)
Inductive pc :=
| PDiscarded | PQueued | PScheduled | PLogging | PBody | PClosing | POnFinish | PDone | PCrashed | PUnclosed | PReceived.

#[global] Instance pc_eq_dec : EqDecision pc.
Proof. solve_decision. Defined.

(** What the constructor fixes: the method, its arguments and the caller. *)
Record job_call := mkCall {
  j_method : string;
  j_coroutine : bool;
  j_args : list json;
  j_options : job_options;
  j_pipes : pipes;
  j_progress_cb : bool;
  j_silent : bool;
  j_app : option nat;
  j_time_started : Z;
}.

(** What scheduling reads and writes; [s_finished] is the [_finished] event and
    [s_future] says whether [future] was created. *)
Record job_sched := mkSched {
  s_id : option Z;
  s_lock : option nat;
  s_state : State;
  s_aborted : bool;
  s_future : bool;
  s_finished : bool;
  s_pc : pc;
}.

(** The rest: outcome, progress, logs and callbacks.  [d_cancelled] records
    [future.cancel()], [d_cb_runs] how often the finish callback ran and
    [d_unhandled] an exception that left [run] after its [finally]. *)
Record job_data := mkData {
  d_message_ids : list string;
  d_result : option json;
  d_error : option string;
  d_exception : option string;
  d_exc_info : option exn;
  d_aborted_event : bool;
  d_cancelled : bool;
  d_description : option string;
  d_progress : progress;
  d_time_finished : option Z;
  d_wrapped : list nat;
  d_on_finish_cb : bool;
  d_cb_runs : nat;
  d_on_finish_cb_called : bool;
  d_logs_path : option string;
  d_logs_fd : bool;
  d_logs_excerpt : option string;
  d_unhandled : option string;
}.

Record job := mkJob {
  j_call : job_call;
  j_sched : job_sched;
  j_data : job_data;
}.

Definition set_s_id (v : option Z) (x : job_sched) : job_sched :=
  mkSched v (s_lock x) (s_state x) (s_aborted x) (s_future x) (s_finished x) (s_pc x).
Definition set_s_lock (v : option nat) (x : job_sched) : job_sched :=
  mkSched (s_id x) v (s_state x) (s_aborted x) (s_future x) (s_finished x) (s_pc x).
Definition set_s_state (v : State) (x : job_sched) : job_sched :=
  mkSched (s_id x) (s_lock x) v (s_aborted x) (s_future x) (s_finished x) (s_pc x).
Definition set_s_aborted (v : bool) (x : job_sched) : job_sched :=
  mkSched (s_id x) (s_lock x) (s_state x) v (s_future x) (s_finished x) (s_pc x).
Definition set_s_future (v : bool) (x : job_sched) : job_sched :=
  mkSched (s_id x) (s_lock x) (s_state x) (s_aborted x) v (s_finished x) (s_pc x).
Definition set_s_finished (v : bool) (x : job_sched) : job_sched :=
  mkSched (s_id x) (s_lock x) (s_state x) (s_aborted x) (s_future x) v (s_pc x).
Definition set_s_pc (v : pc) (x : job_sched) : job_sched :=
  mkSched (s_id x) (s_lock x) (s_state x) (s_aborted x) (s_future x) (s_finished x) v.

Definition set_d_message_ids (v : list string) (d : job_data) : job_data :=
  mkData v (d_result d) (d_error d) (d_exception d) (d_exc_info d) (d_aborted_event d) (d_cancelled d) (d_description d) (d_progress d) (d_time_finished d) (d_wrapped d) (d_on_finish_cb d) (d_cb_runs d) (d_on_finish_cb_called d) (d_logs_path d) (d_logs_fd d) (d_logs_excerpt d) (d_unhandled d).
Definition set_d_result (v : option json) (d : job_data) : job_data :=
  mkData (d_message_ids d) v (d_error d) (d_exception d) (d_exc_info d) (d_aborted_event d) (d_cancelled d) (d_description d) (d_progress d) (d_time_finished d) (d_wrapped d) (d_on_finish_cb d) (d_cb_runs d) (d_on_finish_cb_called d) (d_logs_path d) (d_logs_fd d) (d_logs_excerpt d) (d_unhandled d).
Definition set_d_error (v : option string) (d : job_data) : job_data :=
  mkData (d_message_ids d) (d_result d) v (d_exception d) (d_exc_info d) (d_aborted_event d) (d_cancelled d) (d_description d) (d_progress d) (d_time_finished d) (d_wrapped d) (d_on_finish_cb d) (d_cb_runs d) (d_on_finish_cb_called d) (d_logs_path d) (d_logs_fd d) (d_logs_excerpt d) (d_unhandled d).
Definition set_d_exception (v : option string) (d : job_data) : job_data :=
  mkData (d_message_ids d) (d_result d) (d_error d) v (d_exc_info d) (d_aborted_event d) (d_cancelled d) (d_description d) (d_progress d) (d_time_finished d) (d_wrapped d) (d_on_finish_cb d) (d_cb_runs d) (d_on_finish_cb_called d) (d_logs_path d) (d_logs_fd d) (d_logs_excerpt d) (d_unhandled d).
Definition set_d_exc_info (v : option exn) (d : job_data) : job_data :=
  mkData (d_message_ids d) (d_result d) (d_error d) (d_exception d) v (d_aborted_event d) (d_cancelled d) (d_description d) (d_progress d) (d_time_finished d) (d_wrapped d) (d_on_finish_cb d) (d_cb_runs d) (d_on_finish_cb_called d) (d_logs_path d) (d_logs_fd d) (d_logs_excerpt d) (d_unhandled d).
Definition set_d_aborted_event (v : bool) (d : job_data) : job_data :=
  mkData (d_message_ids d) (d_result d) (d_error d) (d_exception d) (d_exc_info d) v (d_cancelled d) (d_description d) (d_progress d) (d_time_finished d) (d_wrapped d) (d_on_finish_cb d) (d_cb_runs d) (d_on_finish_cb_called d) (d_logs_path d) (d_logs_fd d) (d_logs_excerpt d) (d_unhandled d).
Definition set_d_cancelled (v : bool) (d : job_data) : job_data :=
  mkData (d_message_ids d) (d_result d) (d_error d) (d_exception d) (d_exc_info d) (d_aborted_event d) v (d_description d) (d_progress d) (d_time_finished d) (d_wrapped d) (d_on_finish_cb d) (d_cb_runs d) (d_on_finish_cb_called d) (d_logs_path d) (d_logs_fd d) (d_logs_excerpt d) (d_unhandled d).
Definition set_d_description (v : option string) (d : job_data) : job_data :=
  mkData (d_message_ids d) (d_result d) (d_error d) (d_exception d) (d_exc_info d) (d_aborted_event d) (d_cancelled d) v (d_progress d) (d_time_finished d) (d_wrapped d) (d_on_finish_cb d) (d_cb_runs d) (d_on_finish_cb_called d) (d_logs_path d) (d_logs_fd d) (d_logs_excerpt d) (d_unhandled d).
Definition set_d_progress (v : progress) (d : job_data) : job_data :=
  mkData (d_message_ids d) (d_result d) (d_error d) (d_exception d) (d_exc_info d) (d_aborted_event d) (d_cancelled d) (d_description d) v (d_time_finished d) (d_wrapped d) (d_on_finish_cb d) (d_cb_runs d) (d_on_finish_cb_called d) (d_logs_path d) (d_logs_fd d) (d_logs_excerpt d) (d_unhandled d).
Definition set_d_time_finished (v : option Z) (d : job_data) : job_data :=
  mkData (d_message_ids d) (d_result d) (d_error d) (d_exception d) (d_exc_info d) (d_aborted_event d) (d_cancelled d) (d_description d) (d_progress d) v (d_wrapped d) (d_on_finish_cb d) (d_cb_runs d) (d_on_finish_cb_called d) (d_logs_path d) (d_logs_fd d) (d_logs_excerpt d) (d_unhandled d).
Definition set_d_wrapped (v : list nat) (d : job_data) : job_data :=
  mkData (d_message_ids d) (d_result d) (d_error d) (d_exception d) (d_exc_info d) (d_aborted_event d) (d_cancelled d) (d_description d) (d_progress d) (d_time_finished d) v (d_on_finish_cb d) (d_cb_runs d) (d_on_finish_cb_called d) (d_logs_path d) (d_logs_fd d) (d_logs_excerpt d) (d_unhandled d).
Definition set_d_on_finish_cb (v : bool) (d : job_data) : job_data :=
  mkData (d_message_ids d) (d_result d) (d_error d) (d_exception d) (d_exc_info d) (d_aborted_event d) (d_cancelled d) (d_description d) (d_progress d) (d_time_finished d) (d_wrapped d) v (d_cb_runs d) (d_on_finish_cb_called d) (d_logs_path d) (d_logs_fd d) (d_logs_excerpt d) (d_unhandled d).
Definition set_d_cb_runs (v : nat) (d : job_data) : job_data :=
  mkData (d_message_ids d) (d_result d) (d_error d) (d_exception d) (d_exc_info d) (d_aborted_event d) (d_cancelled d) (d_description d) (d_progress d) (d_time_finished d) (d_wrapped d) (d_on_finish_cb d) v (d_on_finish_cb_called d) (d_logs_path d) (d_logs_fd d) (d_logs_excerpt d) (d_unhandled d).
Definition set_d_on_finish_cb_called (v : bool) (d : job_data) : job_data :=
  mkData (d_message_ids d) (d_result d) (d_error d) (d_exception d) (d_exc_info d) (d_aborted_event d) (d_cancelled d) (d_description d) (d_progress d) (d_time_finished d) (d_wrapped d) (d_on_finish_cb d) (d_cb_runs d) v (d_logs_path d) (d_logs_fd d) (d_logs_excerpt d) (d_unhandled d).
Definition set_d_logs_path (v : option string) (d : job_data) : job_data :=
  mkData (d_message_ids d) (d_result d) (d_error d) (d_exception d) (d_exc_info d) (d_aborted_event d) (d_cancelled d) (d_description d) (d_progress d) (d_time_finished d) (d_wrapped d) (d_on_finish_cb d) (d_cb_runs d) (d_on_finish_cb_called d) v (d_logs_fd d) (d_logs_excerpt d) (d_unhandled d).
Definition set_d_logs_fd (v : bool) (d : job_data) : job_data :=
  mkData (d_message_ids d) (d_result d) (d_error d) (d_exception d) (d_exc_info d) (d_aborted_event d) (d_cancelled d) (d_description d) (d_progress d) (d_time_finished d) (d_wrapped d) (d_on_finish_cb d) (d_cb_runs d) (d_on_finish_cb_called d) (d_logs_path d) v (d_logs_excerpt d) (d_unhandled d).
Definition set_d_logs_excerpt (v : option string) (d : job_data) : job_data :=
  mkData (d_message_ids d) (d_result d) (d_error d) (d_exception d) (d_exc_info d) (d_aborted_event d) (d_cancelled d) (d_description d) (d_progress d) (d_time_finished d) (d_wrapped d) (d_on_finish_cb d) (d_cb_runs d) (d_on_finish_cb_called d) (d_logs_path d) (d_logs_fd d) v (d_unhandled d).
Definition set_d_unhandled (v : option string) (d : job_data) : job_data :=
  mkData (d_message_ids d) (d_result d) (d_error d) (d_exception d) (d_exc_info d) (d_aborted_event d) (d_cancelled d) (d_description d) (d_progress d) (d_time_finished d) (d_wrapped d) (d_on_finish_cb d) (d_cb_runs d) (d_on_finish_cb_called d) (d_logs_path d) (d_logs_fd d) (d_logs_excerpt d) v.

Definition on_sched (f : job_sched -> job_sched) (j : job) : job := mkJob (j_call j) (f (j_sched j)) (j_data j).
Definition on_data (f : job_data -> job_data) (j : job) : job := mkJob (j_call j) (j_sched j) (f (j_data j)).

Definition j_state (j : job) : State := s_state (j_sched j).
Definition j_lock (j : job) : option nat := s_lock (j_sched j).
Definition j_pc (j : job) : pc := s_pc (j_sched j).
Definition j_id (j : job) : option Z := s_id (j_sched j).
Definition j_progress (j : job) : progress := d_progress (j_data j).

(** [JobSharedLock]: the jobs that asked for it and its [asyncio.Lock]. *)
Record JobSharedLock := mkLock {
  l_name : string;
  l_jobs : gset nat;
  l_locked : bool;
}.

(** [JobSharedLock.add_job], [remove_job], [acquire] and [release].  An
    [asyncio.Lock] that is free is acquired without suspending; releasing a free
    one raises [RuntimeError]. *)
Definition add_job (r : nat) (l : JobSharedLock) : JobSharedLock := mkLock (l_name l) ({[r]} ∪ l_jobs l) (l_locked l).
Definition remove_job (r : nat) (l : JobSharedLock) : JobSharedLock := mkLock (l_name l) (l_jobs l ∖ {[r]}) (l_locked l).
Definition acquire (l : JobSharedLock) : JobSharedLock := mkLock (l_name l) (l_jobs l) true.
Definition release (l : JobSharedLock) : result exn JobSharedLock :=
  if l_locked l then Ok (mkLock (l_name l) (l_jobs l) false)
  else Err (EOther "RuntimeError" "Lock is not acquired.").

(** What [Job.__encode__] returns. *)
Record encoded := mkEncoded {
  e_id : option Z;
  e_message_ids : list string;
  e_method : string;
  e_arguments : list json;
  e_transient : bool;
  e_description : option string;
  e_abortable : bool;
  e_logs_path : option string;
  e_logs_excerpt : option string;
  e_progress : progress;
  e_result : option json;
  e_result_encoding_error : option string;
  e_error : option string;
  e_exception : option string;
  e_exc_info : option (string * string * option Z * json);
  e_state : State;
  e_time_started : Z;
  e_time_finished : option Z;
  e_credentials : option (string * json);
}.

(** What the queue emits: [core.get_jobs] events and progress callbacks. *)
Inductive job_event :=
| EvAdded (r : nat) (e : encoded)
| EvChanged (r : nat) (e : encoded)
| EvProgress (r : nat) (e : encoded).

(** [JobsQueue] with its [JobsDeque] ([maxlen], [count], [dict]), the heaps of
    jobs and locks, the credentials of the connected applications and the log
    files (name to text). *)
Record st (C : Type) := mkSt {
  jobs : gmap nat job;
  locks : gmap nat JobSharedLock;
  nref : nat;
  maxlen : Z;
  count : Z;
  dict : list (Z * nat);
  queue : list nat;
  queue_event : bool;
  job_locks : list (string * nat);
  apps : gmap nat C;
  sent : list job_event;
  files : gmap string string;
}.

Arguments mkSt {C}.
Arguments jobs {C}.
Arguments locks {C}.
Arguments nref {C}.
Arguments maxlen {C}.
Arguments count {C}.
Arguments dict {C}.
Arguments queue {C}.
Arguments queue_event {C}.
Arguments job_locks {C}.
Arguments apps {C}.
Arguments sent {C}.
Arguments files {C}.

Definition set_jobs {C} (v : gmap nat job) (s : st C) : st C :=
  mkSt v (locks s) (nref s) (maxlen s) (count s) (dict s) (queue s) (queue_event s) (job_locks s) (apps s) (sent s) (files s).
Definition set_locks {C} (v : gmap nat JobSharedLock) (s : st C) : st C :=
  mkSt (jobs s) v (nref s) (maxlen s) (count s) (dict s) (queue s) (queue_event s) (job_locks s) (apps s) (sent s) (files s).
Definition set_nref {C} (v : nat) (s : st C) : st C :=
  mkSt (jobs s) (locks s) v (maxlen s) (count s) (dict s) (queue s) (queue_event s) (job_locks s) (apps s) (sent s) (files s).
Definition set_count {C} (v : Z) (s : st C) : st C :=
  mkSt (jobs s) (locks s) (nref s) (maxlen s) v (dict s) (queue s) (queue_event s) (job_locks s) (apps s) (sent s) (files s).
Definition set_dict {C} (v : list (Z * nat)) (s : st C) : st C :=
  mkSt (jobs s) (locks s) (nref s) (maxlen s) (count s) v (queue s) (queue_event s) (job_locks s) (apps s) (sent s) (files s).
Definition set_queue {C} (v : list nat) (s : st C) : st C :=
  mkSt (jobs s) (locks s) (nref s) (maxlen s) (count s) (dict s) v (queue_event s) (job_locks s) (apps s) (sent s) (files s).
Definition set_queue_event {C} (v : bool) (s : st C) : st C :=
  mkSt (jobs s) (locks s) (nref s) (maxlen s) (count s) (dict s) (queue s) v (job_locks s) (apps s) (sent s) (files s).
Definition set_job_locks {C} (v : list (string * nat)) (s : st C) : st C :=
  mkSt (jobs s) (locks s) (nref s) (maxlen s) (count s) (dict s) (queue s) (queue_event s) v (apps s) (sent s) (files s).
Definition set_apps {C} (v : gmap nat C) (s : st C) : st C :=
  mkSt (jobs s) (locks s) (nref s) (maxlen s) (count s) (dict s) (queue s) (queue_event s) (job_locks s) v (sent s) (files s).
Definition set_sent {C} (v : list job_event) (s : st C) : st C :=
  mkSt (jobs s) (locks s) (nref s) (maxlen s) (count s) (dict s) (queue s) (queue_event s) (job_locks s) (apps s) v (files s).
Definition set_files {C} (v : gmap string string) (s : st C) : st C :=
  mkSt (jobs s) (locks s) (nref s) (maxlen s) (count s) (dict s) (queue s) (queue_event s) (job_locks s) (apps s) (sent s) v.

Section jobs.
Context {C : Type} `{!JobCredential C} `{!JobEnv}.
Implicit Types (s : st C) (r : nat).

(** ** Credentials (utils/privilege.py) *)

Definition credential_is_limited_to_own_jobs (c : option C) : bool :=
  match c with
  | None => false
  | Some c => if jc_is_user_session c then negb (jc_full_admin c) else false
  end.

(** [a.user['username'] == b.user['username']] *)
Definition same_username (a b : C) : bool :=
  match jc_username a, jc_username b with
  | Some x, Some y => String.eqb x y
  | _, _ => false
  end.

(** [Job.credentials] *)
Definition credentials (s : st C) (j : job) : option C :=
  match j_app (j_call j) with
  | None => None
  | Some a => apps s !! a
  end.

(** [Job.credential_access_error]; an application without credentials passes
    [None]. *)
Definition credential_access_error (s : st C) (j : job) (credential : option C) (access : JobAccess) : option string :=
  if negb (credential_is_limited_to_own_jobs credential) then None
  else
    match credential with
    | None => None
    | Some credential =>
        if bool_decide (access = READ)
           && (jc_is_user_session credential && existsb (jc_has_role credential) (o_read_roles (j_options (j_call j))))
        then None
        else if negb (jc_is_user_session credential) || jc_full_admin credential then None
        else match credentials s j with
             | None => Some "Only users with full administrative privileges can access internally ran jobs"
             | Some own =>
                 if negb (jc_is_user_session own)
                 then Some "Only users with full administrative privileges can access internally ran jobs"
                 else if same_username own credential then None
                 else Some "Job is not owned by current session"
             end
    end.

Definition credential_can_access (s : st C) (j : job) (credential : option C) (access : JobAccess) : bool :=
  match credential_access_error s j credential access with None => true | Some _ => false end.

(** ** Job objects *)

Definition upd_job (r : nat) (f : job -> job) (s : st C) : st C := set_jobs (alter f r (jobs s)) s.
Definition upd_lock (l : nat) (f : JobSharedLock -> JobSharedLock) (s : st C) : st C := set_locks (alter f l (locks s)) s.

Definition job_state_is (s : st C) (P : State -> bool) (r : nat) : bool :=
  match jobs s !! r with Some j => P (j_state j) | None => false end.
Definition lock_of (s : st C) (r : nat) : option nat := jobs s !! r ≫= j_lock.
Definition pc_of (s : st C) (r : nat) : option pc := j_pc <$> jobs s !! r.

(** [check_pipe]; [job.pipes.input] is the first input pipe. *)
Definition check_pipe (p : pipes) (n : pipe_name) : result exn unit :=
  match n with
  | input => if p_input p then Ok tt else Err (EOther "ValueError" "Pipe 'input' is not open")
  | output => if p_output p then Ok tt else Err (EOther "ValueError" "Pipe 'output' is not open")
  end.

(** [Job.__init__] *)
Definition new_Job (c : job_call) (message_id : option string) : result exn job :=
  let o := j_options c in
  _ ← (if o_check_pipes o then mapE (check_pipe (j_pipes c)) (o_pipes o) else Ok []);
  let descr := match o_description o with
               | None => None
               | Some f => match f (j_args c) with Ok d => Some d | Err _ => None end
               end in
  let ids := match message_id with Some m => if String.eqb m "" then [] else [m] | None => [] end in
  Ok (mkJob c (mkSched None None WAITING false false false PDiscarded)
        (mkData ids None None None None false false descr (mkProgress 0 "" JNull) None [] false 0 false
           None false None None)).

Definition get_lock_name (c : job_call) : result exn (option string) :=
  match o_lock (j_options c) with
  | None => Ok None
  | Some (LockConst n) => Ok (Some n)
  | Some (LockCall f) =>
      match f (j_args c) with
      | Ok n => Ok n
      | Err _ => Err (CallError
          "Error handling job lock. This is most likely caused by invalid call arguments." EINVAL)
      end
  end.

(** [exc_info] of [__encode__]: repr, type, errno and extra. *)
Definition verror_json (e : ValidationError) : json :=
  JList [match ve_attribute e with Some a => JStr a | None => JNull end; JStr (ve_errmsg e); JInt (ve_errno e)].

Definition encode_exc_info (e : exn) : string * string * option Z * json :=
  match e with
  | EValidationError v => (exn_repr e, "VALIDATION", Some (ve_errno v), JList [verror_json v])
  | EValidationErrors vs => (exn_repr e, "VALIDATION", None, JList (map verror_json vs))
  | ECallError cls _ no ex => (exn_repr e, cls, Some no, ex)
  | ECalledProcess _ _ _ _ => (exn_repr e, "CalledProcessError", None, JNull)
  | EOther cls _ => (exn_repr e, cls, None, JNull)
  end.

(** [Job.__encode__] *)
Definition encode (raw_result : bool) (s : st C) (j : job) : encoded :=
  let d := j_data j in
  let c := j_call j in
  let res :=
    match j_state j with
    | SUCCESS =>
        if raw_result then (d_result d, None)
        else match dump_result (j_method c) (default JNull (d_result d)) with
             | Ok v => (Some v, None)
             | Err e => (None, Some e)
             end
    | _ => (None, None)
    end in
  mkEncoded (j_id j) (d_message_ids d) (j_method c) (dump_args (j_method c) (j_args c))
    (o_transient (j_options c)) (d_description d) (o_abortable (j_options c)) (d_logs_path d) (d_logs_excerpt d)
    (d_progress d) res.1 res.2 (d_error d) (d_exception d) (encode_exc_info <$> d_exc_info d)
    (j_state j) (j_time_started c) (d_time_finished d)
    ((fun cr => (jc_class_name cr, jc_dump cr)) <$> credentials s j).

(** [send_job_event] *)
Definition send_job_event (mk : nat -> encoded -> job_event) (r : nat) (s : st C) : st C :=
  match jobs s !! r with
  | None => s
  | Some j => if o_transient (j_options (j_call j)) then s else set_sent (sent s ++ [mk r (encode true s j)]) s
  end.

(** [should_send_job_event] *)
Definition should_send_job_event (s : st C) (j : job) (client : option C) : bool :=
  match client with
  | Some c => credential_can_access s j (Some c) READ
  | None => false
  end.

Definition send_changed_event (r : nat) (s : st C) : st C := send_job_event EvChanged r s.

(** [Job.set_state]; [Err] is the [AssertionError]. *)
Definition set_state (x : State) (now : Z) (j : job) : result exn job :=
  let bad :=
    match j_state j with
    | WAITING => bool_decide (x = WAITING \/ x = SUCCESS)
    | RUNNING => bool_decide (x = WAITING \/ x = RUNNING)
    | _ => true
    end in
  if bad then Err (EOther "AssertionError" "")
  else let j := on_sched (set_s_state x) j in
       Ok (if finished_state x then on_data (set_d_time_finished (Some now)) j else j).

Definition set_result (v : json) : job -> job := on_data (set_d_result (Some v)).

Definition set_exception (e : exn) : job -> job :=
  on_data (fun d => set_d_exc_info (Some e) (set_d_exception (Some (format_exception e)) (set_d_error (Some (exn_str e)) d))).

Definition set_description (descr : option string) (r : nat) (s : st C) : st C :=
  match jobs s !! r with
  | Some j =>
      if bool_decide (d_description (j_data j) = descr) then s
      else send_changed_event r (upd_job r (on_data (set_d_description descr)) s)
  | None => s
  end.

(** The update of [self.progress] in [set_progress] and whether it changed. *)
Definition update_progress (pct : option number) (descr : option string) (ex : json) (p : progress) : progress * bool :=
  let '(p, changed) := match pct with
    | Some n => let n := py_int n in
                if (percent p =? n)%Z then (p, false) else (mkProgress n (description p) (extra p), true)
    | None => (p, false)
    end in
  let '(p, changed) := match descr with
    | Some t => if String.eqb t "" || String.eqb (description p) t then (p, changed)
                else (mkProgress (percent p) t (extra p), true)
    | None => (p, changed)
    end in
  if truthy ex && negb (bool_decide (extra p = ex)) then (mkProgress (percent p) (description p) ex, true)
  else (p, changed).

(** [Job.set_progress]; the flag is false when the chain of wrapped jobs is
    deeper than the recursion limit ([RecursionError]). *)
Fixpoint set_progress (fuel : nat) (pct : option number) (descr : option string) (ex : json) (r : nat) (s : st C)
    : st C * bool :=
  match fuel with
  | O => (s, false)
  | S fuel =>
      match jobs s !! r with
      | None => (s, true)
      | Some j =>
          let '(p, changed) := update_progress pct descr ex (j_progress j) in
          let s := upd_job r (on_data (set_d_progress p)) s in
          let s := if j_progress_cb (j_call j)
                   then set_sent (sent s ++ [EvProgress r (encode true s (on_data (set_d_progress p) j))]) s else s in
          let s := if changed then send_changed_event r s else s in
          foldl (fun (acc : st C * bool) w =>
                   if acc.2 then set_progress fuel (Some (NInt (percent p))) (Some (description p)) (extra p) w acc.1
                   else acc)
            (s, true) (d_wrapped (j_data j))
      end
  end.

(** ** Log files *)

Definition LOGS_DIR : string := "/var/log/jobs".

(** [_logs_path]; an unset id prints as [None]. *)
Definition logs_path (j : job) : string :=
  LOGS_DIR +:+ "/" +:+ match j_id j with Some i => pretty i | None => "None" end +:+ ".log".

(** Iterating over a text file: universal newlines, each line with its end. *)
Fixpoint text_lines (cur : string) (t : string) : list string :=
  match t with
  | EmptyString => if String.eqb cur "" then [] else [cur]
  | String c t =>
      if bool_decide (c = Ascii.ascii_of_nat 10) then (cur +:+ NL) :: text_lines "" t
      else if bool_decide (c = Ascii.ascii_of_nat 13) then
        match t with
        | String c' t' =>
            if bool_decide (c' = Ascii.ascii_of_nat 10) then (cur +:+ NL) :: text_lines "" t'
            else (cur +:+ NL) :: text_lines "" t
        | EmptyString => [cur +:+ NL]
        end
      else text_lines (cur +:+ String c "") t
  end.

(** One iteration of the reading loop: [head], [tail] and [lines]. *)
Definition excerpt_step (acc : list string * list string * Z) (line : string) : list string * list string * Z :=
  let '(head, tail, lines) := acc in
  if (length head <? 10)%nat then (head ++ [line], tail, (lines + 1)%Z)
  else let tail := tail ++ [line] in (head, drop (length tail - 10) tail, (lines + 1)%Z).

(** [get_logs_excerpt] of [__close_logs] *)
Definition get_logs_excerpt (file : option string) : string :=
  match file with
  | None => "Log file was removed"
  | Some text =>
      let '(head, tail, lines) := foldl excerpt_step ([], [], 0%Z) (text_lines "" text) in
      if (20 <? lines)%Z
      then String.concat "" head +:+ "... " +:+ pretty (lines - 20)%Z +:+ " more lines ..." +:+ NL +:+ String.concat "" tail
      else String.concat "" (head ++ tail)
  end.

(** [__close_logs] *)
Definition close_logs (r : nat) (s : st C) : st C :=
  match jobs s !! r with
  | Some j =>
      if d_logs_fd (j_data j) then
        match d_logs_excerpt (j_data j) with
        | Some (String _ _) => s
        | _ => upd_job r (on_data (set_d_logs_excerpt
                 (Some (get_logs_excerpt (d_logs_path (j_data j) ≫= fun p => files s !! p))))) s
        end
      else s
  | None => s
  end.

(** [Job.cleanup] *)
Definition cleanup (r : nat) (s : st C) : st C :=
  match jobs s !! r ≫= fun j => d_logs_path (j_data j) with
  | Some (String _ _ as p) => set_files (delete p (files s)) s
  | _ => s
  end.

(** [Job.start_logging]: create the log file, or open it for appending. *)
Definition start_logging (r : nat) (s : st C) : st C :=
  match jobs s !! r ≫= fun j => d_logs_path (j_data j) with
  | Some p => upd_job r (on_data (set_d_logs_fd true)) (set_files (<[p := default "" (files s !! p)]> (files s)) s)
  | None => s
  end.

(** [logs_fd_write] *)
Definition logs_fd_write (data : string) (r : nat) (s : st C) : st C :=
  match jobs s !! r with
  | Some j => match d_logs_fd (j_data j), d_logs_path (j_data j) with
              | true, Some p => set_files (alter (fun t => t +:+ data) p (files s)) s
              | _, _ => s
              end
  | None => s
  end.

(** ** [JobsDeque] *)

(** [JobsDeque.remove] *)
Definition deque_remove (job_id : Z) (s : st C) : st C :=
  match Dict.get job_id (dict s) with
  | Some r => let s := cleanup r s in set_dict (Dict.pop job_id (dict s)) s
  | None => s
  end.

Definition get_next_id (s : st C) : st C * Z := (set_count (count s + 1)%Z s, (count s + 1)%Z).

(** The eviction loop of [JobsDeque.add]: the first finished job goes. *)
Definition evict (s : st C) : st C :=
  match List.find (fun kv => job_state_is s finished_state kv.2) (dict s) with
  | Some (old, _) => deque_remove old s
  | None => s
  end.

Definition deque_add (r : nat) (s : st C) : st C :=
  let '(s, i) := get_next_id s in
  let s := upd_job r (on_sched (set_s_id (Some i))) s in
  let s := if (maxlen s <? Z.of_nat (length (dict s)))%Z then evict s else s in
  set_dict (Dict.set i r (dict s)) s.

(** ** [JobsQueue] *)

(** [handle_lock] once the lock has a name *)
Definition join_lock (name : string) (r : nat) (s : st C) : st C :=
  let '(s, l) :=
    match Dict.get name (job_locks s) with
    | Some l => (s, l)
    | None =>
        let l := nref s in
        (set_nref (S l) (set_job_locks (Dict.set name l (job_locks s))
          (set_locks (<[l := mkLock name ∅ false]> (locks s)) s)), l)
    end in
  upd_job r (on_sched (set_s_lock (Some l))) (upd_lock l (add_job r) s).

Definition handle_lock (r : nat) (s : st C) : st C * result exn unit :=
  match jobs s !! r with
  | None => (s, Ok tt)
  | Some j =>
      match get_lock_name (j_call j) with
      | Err e => (s, Err e)
      | Ok None => (s, Ok tt)
      | Ok (Some name) => (join_lock name r s, Ok tt)
      end
  end.

(** The test of [add] whether a queued job may stand in for the new one. *)
Definition may_merge (s : st C) (r q : nat) : bool :=
  let job_creds := jobs s !! r ≫= credentials s in
  let queued_creds := jobs s !! q ≫= credentials s in
  negb (credential_is_limited_to_own_jobs job_creds) ||
  match job_creds, queued_creds with
  | Some a, Some b => jc_is_user_session a && jc_is_user_session b && same_username a b
  | _, _ => false
  end.

(** [queued_job.message_ids += job.message_ids] and its event *)
Definition merge_into (r q : nat) (s : st C) : st C :=
  match jobs s !! r ≫= fun j => Some (d_message_ids (j_data j)) with
  | Some (m :: ms) =>
      send_changed_event q (upd_job q (on_data (fun d => set_d_message_ids (d_message_ids d ++ (m :: ms)) d)) s)
  | _ => s
  end.

(** The jobs in the queue with the lock of [r] *)
Definition queued_jobs (s : st C) (r : nat) : list nat :=
  filter (fun a => lock_of s a = lock_of s r) (queue s).

(** The jobs being run with the lock of [r] *)
Definition running_same_lock (s : st C) (r : nat) : bool :=
  existsb (fun kv => job_state_is s (fun x => bool_decide (x = RUNNING)) kv.2
                     && bool_decide (lock_of s kv.2 = lock_of s r)) (dict s).

Definition enqueue (r : nat) (s : st C) : st C :=
  let s := deque_add r s in
  let s := set_queue (queue s ++ [r]) (upd_job r (on_sched (set_s_pc PQueued)) s) in
  let s := send_job_event EvAdded r s in
  set_queue_event true s.

(** [JobsQueue.add] *)
Definition add (r : nat) (s : st C) : st C * result exn nat :=
  match handle_lock r s with
  | (s, Err e) => (s, Err e)
  | (s, Ok _) =>
      match jobs s !! r ≫= fun j => o_lock_queue_size (j_options (j_call j)) with
      | None => (enqueue r s, Ok r)
      | Some size =>
          if (size =? 0)%Z then
            if running_same_lock s r then (s, Err (CallError "This job is already being performed" EBUSY))
            else (enqueue r s, Ok r)
          else if (size <=? Z.of_nat (length (queued_jobs s r)))%Z then
            match List.find (may_merge s r) (reverse (queued_jobs s r)) with
            | Some q => (merge_into r q s, Ok q)
            | None => (s, Err (CallError "This job is already being performed by another user" EBUSY))
            end
          else (enqueue r s, Ok r)
      end
  end.

(** [JobsQueue.release_lock] *)
Definition release_lock (r : nat) (s : st C) : result exn (st C) :=
  match lock_of s r with
  | None => Ok s
  | Some l =>
      match locks s !! l with
      | None => Ok s
      | Some lk =>
          lk ← release (remove_job r lk);
          let s := set_locks (<[l := lk]> (locks s)) s in
          if bool_decide (l_jobs lk = ∅) then
            match Dict.get (l_name lk) (job_locks s) with
            | Some _ => Ok (set_queue_event true (set_job_locks (Dict.pop (l_name lk) (job_locks s)) s))
            | None => Err (EOther "KeyError" (l_name lk))
            end
          else Ok (set_queue_event true s)
      end
  end.

(** The jobs [next] may pick: no lock, or a lock that is free *)
Definition runnable (s : st C) (r : nat) : bool :=
  match lock_of s r with
  | None => true
  | Some l => match locks s !! l with Some lk => negb (l_locked lk) | None => true end
  end.

(** [self.queue.remove(x)]: the first occurrence *)
Fixpoint list_remove_first (x : nat) (l : list nat) : list nat :=
  match l with
  | [] => []
  | y :: l => if decide (x = y) then l else y :: list_remove_first x l
  end.

(** One iteration of the loop of [JobsQueue.next], entered once [queue_event] is
    set; the job found is handed to [run], which creates its task. *)
Definition next (s : st C) : option (st C * option nat) :=
  if queue_event s then
    match List.find (runnable s) (queue s) with
    | Some r =>
        let s := match lock_of s r with Some l => upd_lock l acquire s | None => s end in
        let s := set_queue (list_remove_first r (queue s)) s in
        let s := match queue s with [] => set_queue_event false s | _ => s end in
        Some (upd_job r (on_sched (set_s_pc PScheduled)) s, Some r)
    | None => Some (set_queue_event false s, None)
    end
  else None.

(** [JobsQueue.for_credential] *)
Definition for_credential (s : st C) (credential : option C) (access : JobAccess) : list (Z * nat) :=
  if negb (credential_is_limited_to_own_jobs credential) then dict s
  else
    let can r := match jobs s !! r with Some j => credential_can_access s j credential access | None => false end in
    filter (fun kv => can kv.2 = true) (dict s).

(** [__job_by_credential_and_id] of service/core_service.py *)
Definition job_by_credential_and_id (s : st C) (credential : option C) (job_id : Z) (access : JobAccess)
    : result exn nat :=
  match Dict.get job_id (dict s) with
  | None => Err (InstanceNotFound ("Job with id " ++ pretty job_id ++ " does not exist"))
  | Some r =>
      match jobs s !! r ≫= fun j => credential_access_error s j credential access with
      | Some error => Err (CallError error EPERM)
      | None => Ok r
      end
  end.

(** [_job_by_app_and_id]; no application means an internal call. *)
Definition job_by_app_and_id (s : st C) (app : option nat) (job_id : Z) (access : JobAccess) : result exn nat :=
  match app with
  | None => match Dict.get job_id (dict s) with
            | Some r => Ok r
            | None => Err (InstanceNotFound ("Job with id " ++ pretty job_id ++ " does not exist"))
            end
  | Some a => job_by_credential_and_id s (apps s !! a) job_id access
  end.

(** [get_jobs] before filtering; the results are redacted by default for
    external callers. *)
Definition get_jobs (s : st C) (app : option nat) (raw_result : option bool) : list encoded :=
  let js := match app with
            | Some a => for_credential s (apps s !! a) READ
            | None => dict s
            end in
  let raw := default (match app with Some _ => false | None => true end) raw_result in
  omap (fun kv => encode raw s <$> jobs s !! kv.2) js.

(** ** [Job.run], one definition per segment between two suspensions *)

(** [except Exception as e: self.set_state('FAILED'); ...]: an assertion that
    fails in the handler leaves [run] once [finally] has run. *)
Definition fail_with (e : exn) (now : Z) (j : job) : job :=
  match set_state FAILED now j with
  | Ok j => set_exception e j
  | Err a => on_data (set_d_unhandled (Some (exn_str a))) j
  end.

(** [except (CancelledError, JobCancelledException): self.set_state('ABORTED')] *)
Definition abort_with (now : Z) (j : job) : job :=
  match set_state ABORTED now j with
  | Ok j => j
  | Err a => on_data (set_d_unhandled (Some (exn_str a))) j
  end.

Definition goto (p : pc) : job -> job := on_sched (set_s_pc p).

(** From [try:] to [await self.future] *)
Definition run_enter (now : Z) (r : nat) (s : st C) : st C :=
  match jobs s !! r with
  | None => s
  | Some j =>
      if s_aborted (j_sched j) then upd_job r (fun j => goto PClosing (abort_with now j)) s
      else match set_state RUNNING now j with
           | Ok j =>
               let s := send_changed_event r (upd_job r (fun _ => j) s) in
               upd_job r (fun j => goto PBody (on_sched (set_s_future true) j)) s
           | Err a => upd_job r (fun j => goto PClosing (fail_with a now j)) s
           end
  end.

(** From the creation of the task to the log file *)
Definition run_begin (now : Z) (r : nat) (s : st C) : st C :=
  match jobs s !! r with
  | Some j =>
      if o_logs (j_options (j_call j))
      then upd_job r (fun j => goto PLogging (on_data (set_d_logs_path (Some (logs_path j))) j)) s
      else run_enter now r s
  | None => s
  end.

(** [start_logging] ends, or raises in the worker thread: that call is outside
    the [try]. *)
Definition run_logging (ok : bool) (now : Z) (r : nat) (s : st C) : st C :=
  if ok then run_enter now r (start_logging r s) else upd_job r (goto PCrashed) s.

(** How the body of a job ends. *)
Inductive outcome :=
| Returned (v : json)
| Raised (e : exn)
| Cancelled.

(** The end of [__run_body], and the handlers of [run] *)
Definition run_body_done (o : outcome) (now : Z) (r : nat) (s : st C) : st C :=
  match o with
  | Returned v =>
      match jobs s !! r with
      | None => s
      | Some j =>
          match set_state SUCCESS now (set_result v j) with
          | Err a => upd_job r (fun j => goto PClosing (fail_with a now (set_result v j))) s
          | Ok j =>
              let s := upd_job r (fun _ => j) s in
              if (percent (j_progress j) =? 100)%Z then upd_job r (goto PClosing) s
              else
                let '(s, ok) := set_progress recursion_limit (Some (NInt 100)) (Some "") JNull r s in
                if ok then upd_job r (goto PClosing) s
                else upd_job r (fun j => goto PClosing (fail_with (EOther "RecursionError" "") now j)) s
          end
      end
  | Raised e =>
      let e := default e (adapt_exception join_commandline e) in
      upd_job r (fun j => goto PClosing (fail_with e now j)) s
  | Cancelled => upd_job r (fun j => goto PClosing (abort_with now j)) s
  end.

(** The end of [finally]: the last event and the removal of transient jobs *)
Definition run_finish (r : nat) (s : st C) : st C :=
  let s := upd_job r (on_data (set_d_on_finish_cb_called true)) s in
  let s := send_job_event EvChanged r s in
  let s := match jobs s !! r with
           | Some j => match o_transient (j_options (j_call j)), j_id j with
                       | true, Some i => deque_remove i s
                       | _, _ => s
                       end
           | None => s
           end in
  upd_job r (goto PDone) s.

(** How [__close_logs] and [__close_pipes] end: the log file cannot be closed or
    read again, or a pipe cannot be closed. *)
Inductive closing := Closed | LogsFailed | PipesFailed.

(** Closing raises: only files that are open can fail. *)
Definition close_raises (o : closing) (j : job) : bool :=
  match o with
  | Closed => false
  | LogsFailed => d_logs_fd (j_data j)
  | PipesFailed => p_input (j_pipes (j_call j)) || p_output (j_pipes (j_call j))
  end.

(** [finally] up to the finish callback, which suspends when there is one; an
    exception of closing leaves it before the lock is released *)
Definition run_close (o : closing) (r : nat) (s : st C) : st C :=
  let raises := match jobs s !! r with Some j => close_raises o j | None => false end in
  let s := match o with LogsFailed => s | _ => close_logs r s end in
  if raises then upd_job r (goto PUnclosed) s else
  match release_lock r s with
  | Err _ => upd_job r (goto PUnclosed) s
  | Ok s =>
      let s := upd_job r (on_sched (set_s_finished true)) s in
      match jobs s !! r with
      | Some j =>
          if d_on_finish_cb (j_data j)
          then upd_job r (fun j => goto POnFinish (on_data (fun d => set_d_cb_runs (S (d_cb_runs d)) d) j)) s
          else run_finish r s
      | None => s
      end
  end.

(** ** Operations of other tasks on a job *)

(** [Job.abort] *)
Definition abort_job (r : nat) (s : st C) : st C :=
  upd_job r (fun j =>
    let j := on_data (set_d_aborted_event true) j in
    if s_future (j_sched j) then
      if j_coroutine (j_call j) then on_data (set_d_cancelled true) j else j
    else match j_state j with WAITING => on_sched (set_s_aborted true) j | _ => j end) s.

(** [Job.wrap] and [wrap_sync] up to waiting for the wrapped job *)
Definition wrap (r sub : nat) (s : st C) : st C :=
  match jobs s !! sub with
  | Some js =>
      let p := j_progress js in
      let '(s, ok) := set_progress recursion_limit (Some (NInt (percent p))) (Some (description p)) (extra p) r s in
      if ok then upd_job sub (on_data (fun d => set_d_wrapped (d_wrapped d ++ [r]) d)) s else s
  | None => s
  end.

(** The exception classes [wait] re-raises as they are *)
Inductive exn_class := ClsCallError | ClsValidationErrors.

Definition isinstance (e : exn) (c : exn_class) : bool :=
  match e, c with
  | ECallError _ _ _ _, ClsCallError | EValidationErrors _, ClsValidationErrors => true
  | _, _ => false
  end.

(** [Job.wait] and [wait_sync] once [_finished] is set *)
Definition wait (raise_error : bool) (forward : list exn_class) (j : job) : option (result exn json) :=
  if s_finished (j_sched j) then
    Some (match raise_error, d_error (j_data j) with
          | true, Some (String _ _ as error) =>
              match d_exc_info (j_data j) with
              | Some e => if existsb (isinstance e) forward then Err e else Err (CallError error EFAULT)
              | None => Err (EOther "AssertionError" "")
              end
          | _, _ => Ok (default JNull (d_result (j_data j)))
          end)
  else None.

(** [set_on_finish_cb] *)
Definition set_on_finish_cb (r : nat) (s : st C) : st C :=
  upd_job r (on_data (fun d =>
    let d := set_d_on_finish_cb true d in
    if d_on_finish_cb_called d then set_d_cb_runs (S (d_cb_runs d)) d else d)) s.

(** [JobsDeque.receive] and [Job.receive]: a job copied from the other
    controller.  The dictionary is given as the call it names, a state name and data;
    the constructor runs without pipes, application or message id. *)
Definition deque_receive (c : job_call) (state_name : string) (d : job_data) (logs : option string) (s : st C)
    : st C * result exn nat :=
  let '(s, i) := get_next_id s in
  let c := mkCall (j_method c) (j_coroutine c) (j_args c) (j_options c) (mkPipes false false) false false None
             (j_time_started c) in
  match new_Job c None, State_member state_name with
  | Err e, _ => (s, Err e)
  | Ok _, None => (s, Err (EOther "KeyError" state_name))
  | Ok j, Some x =>
      let r := nref s in
      let j := on_sched (fun _ => mkSched (Some i) None x false false false PReceived) j in
      let path := logs_path j in
      let j := on_data (fun d0 =>
        mkData (d_message_ids d0) (d_result d) (d_error d) (d_exception d) None false false (d_description d)
          (d_progress d) (d_time_finished d) [] false 0 false (match logs with Some _ => Some path | None => None end)
          false (d_logs_excerpt d) None) j in
      let s := match logs with Some t => set_files (<[path := t]> (files s)) s | None => s end in
      (set_dict (Dict.set i r (dict s)) (set_nref (S r) (set_jobs (<[r := j]> (jobs s)) s)), Ok r)
  end.

(** [Middleware._call_prepare] for a job method: create the job and add it *)
Definition call_job (c : job_call) (message_id : option string) (s : st C) : st C * result exn nat :=
  match new_Job c message_id with
  | Err e => (s, Err e)
  | Ok j => let r := nref s in add r (set_nref (S r) (set_jobs (<[r := j]> (jobs s)) s))
  end.

(** ** The system *)

(** What can happen next: a call, a login or logout, an iteration of the
    scheduler, the resumption of a job's coroutine, or an operation of another
    task on a job. *)
Inductive label :=
| LCall (c : job_call) (message_id : option string)
| LApp (a : nat) (c : option C)
| LNext
| LBegin (r : nat) (now : Z)
| LLogging (r : nat) (ok : bool) (now : Z)
| LBody (r : nat) (o : outcome) (now : Z)
| LClose (r : nat) (o : closing)
| LFinish (r : nat)
| LAbort (r : nat)
| LProgress (r : nat) (pct : option number) (descr : option string) (ex : json)
| LDescription (r : nat) (descr : option string)
| LWrap (r sub : nat)
| LOnFinish (r : nat)
| LWrite (r : nat) (data : string)
| LReceive (c : job_call) (state_name : string) (d : job_data) (logs : option string).

Definition at_pc (s : st C) (r : nat) (p : pc) (k : st C) : option (st C) :=
  if bool_decide (pc_of s r = Some p) then Some k else None.

Definition exec (l : label) (s : st C) : option (st C) :=
  match l with
  | LCall c m => Some (call_job c m s).1
  | LApp a c => Some (set_apps (partial_alter (fun _ => c) a (apps s)) s)
  | LNext => fst <$> next s
  | LBegin r now => at_pc s r PScheduled (run_begin now r s)
  | LLogging r ok now => at_pc s r PLogging (run_logging ok now r s)
  | LBody r o now => at_pc s r PBody (run_body_done o now r s)
  | LClose r o => at_pc s r PClosing (run_close o r s)
  | LFinish r => at_pc s r POnFinish (run_finish r s)
  | LAbort r => Some (abort_job r s)
  | LProgress r p d e => Some (set_progress recursion_limit p d e r s).1
  | LDescription r d => Some (set_description d r s)
  | LWrap r sub => Some (wrap r sub s)
  | LOnFinish r => Some (set_on_finish_cb r s)
  | LWrite r data => Some (logs_fd_write data r s)
  | LReceive c x d logs => Some (deque_receive c x d logs s).1
  end.

Definition step (s s' : st C) : Prop := exists l, exec l s = Some s'.

(** [JobsQueue(middleware)] *)
Definition init (n : Z) : st C := mkSt ∅ ∅ 0 n 0 [] [] false [] ∅ [] ∅.

End jobs.
