(* ===== verification/JobProofs.v ===== *)
(** * Jobs: invariants (of JobModel.v)

    The scheduling invariant says which jobs hold which locks, that every live
    job's lock is the registered one, and that the scheduler is awake whenever a
    queued job could start.  The registry invariant relates ids and jobs. *)

From S2P Require Import Prelude PyDict PyStr PyVal Errors JobModel.

(** ** What scheduling sees of a job *)

(** The result, error, exception and finish time of a job. *)
Definition outcome_data (d : job_data) : option json * option string * option exn * option Z :=
  (d_result d, d_error d, d_exc_info d, d_time_finished d).
Definition j_out (j : job) := outcome_data (j_data j).

Record core := mkCore {
  c_id : option Z;
  c_lock : option nat;
  c_state : State;
  c_finished : bool;
  c_pc : pc;
  c_call : job_call;
  c_out : option json * option string * option exn * option Z;
}.

Definition core_of_job (j : job) : core :=
  let x := j_sched j in mkCore (s_id x) (s_lock x) (s_state x) (s_finished x) (s_pc x) (j_call j) (j_out j).

(** The job holds its lock. *)
Definition holding (p : pc) : bool :=
  match p with PScheduled | PLogging | PBody | PClosing | PCrashed | PUnclosed => true | _ => false end.

(** The coroutine was ended by an exception and keeps the lock. *)
Definition stuck (p : pc) : bool := match p with PCrashed | PUnclosed => true | _ => false end.

(** The job is queued or holds its lock. *)
Definition live (p : pc) : bool := match p with PQueued => true | _ => holding p end.

(** The state a job has at each point of its coroutine. *)
Definition pc_state (p : pc) (x : State) : bool :=
  match p with
  | PDiscarded | PQueued | PScheduled | PLogging | PCrashed => bool_decide (x = WAITING)
  | PBody => bool_decide (x = RUNNING)
  | PClosing | POnFinish | PDone | PUnclosed => finished_state x
  | PReceived => true
  end.

Definition pc_finished (p : pc) : bool := match p with POnFinish | PDone => true | _ => false end.

Section proofs.
Context {C : Type} `{!JobCredential C} `{!JobEnv}.
Implicit Types (s : st C) (r : nat).

Definition core_of (s : st C) (r : nat) : option core := core_of_job <$> jobs s !! r.

Lemma lock_of_core s r : lock_of s r = core_of s r ≫= c_lock.
Proof. unfold lock_of, core_of. by destruct (jobs s !! r). Qed.

Lemma pc_of_core s r : pc_of s r = c_pc <$> core_of s r.
Proof. unfold pc_of, core_of. by destruct (jobs s !! r). Qed.

(** The other components scheduling reads. *)
Record same_rest (s s' : st C) : Prop := {
  sr_locks : locks s' = locks s;
  sr_nref : nref s' = nref s;
  sr_maxlen : maxlen s' = maxlen s;
  sr_count : count s' = count s;
  sr_dict : dict s' = dict s;
  sr_queue : queue s' = queue s;
  sr_event : queue_event s' = queue_event s;
  sr_job_locks : job_locks s' = job_locks s;
}.

(** An operation scheduling does not see. *)
Definition frame (s s' : st C) : Prop := same_rest s s' /\ forall r, core_of s' r = core_of s r.

(** An operation that changes the core of one job only. *)
Definition moved (r : nat) (c : core) (s s' : st C) : Prop :=
  same_rest s s' /\ forall r', core_of s' r' = if decide (r' = r) then Some c else core_of s r'.

#[global] Instance same_rest_preorder : PreOrder same_rest.
Proof.
  split; [by intros s; split|]. intros s1 s2 s3 [] []; split; congruence.
Qed.

#[global] Instance frame_preorder : PreOrder frame.
Proof.
  split; [by intros s; split|]. intros s1 s2 s3 [? H1] [? H2]. split; [by etrans|].
  intros r. by rewrite H2, H1.
Qed.

Lemma frame_moved r c s1 s2 s3 : frame s1 s2 -> moved r c s2 s3 -> moved r c s1 s3.
Proof.
  intros [? H1] [? H2]. split; [by etrans|]. intros r'. rewrite H2. by destruct (decide _).
Qed.

Lemma moved_frame r c s1 s2 s3 : moved r c s1 s2 -> frame s2 s3 -> moved r c s1 s3.
Proof. intros [? H1] [? H2]. split; [by etrans|]. intros r'. by rewrite H2, H1. Qed.

Lemma moved_moved r c c' s1 s2 s3 : moved r c s1 s2 -> moved r c' s2 s3 -> moved r c' s1 s3.
Proof.
  intros [? H1] [? H2]. split; [by etrans|]. intros r'. rewrite H2, H1. by destruct (decide _).
Qed.

Lemma upd_job_core f r s r' :
  core_of (upd_job r f s) r' = if decide (r' = r) then (core_of_job ∘ f) <$> jobs s !! r else core_of s r'.
Proof.
  unfold core_of, upd_job, set_jobs. simpl. destruct (decide (r' = r)) as [->|Hne].
  - rewrite lookup_alter_eq. by destruct (jobs s !! r).
  - by rewrite lookup_alter_ne by done.
Qed.

Lemma frame_upd f r s : (forall j, core_of_job (f j) = core_of_job j) -> frame s (upd_job r f s).
Proof.
  intros Hf. split; [by split|]. intros r'. rewrite upd_job_core. destruct (decide _) as [->|]; [|done].
  unfold core_of. destruct (jobs s !! r); simpl; [|done]. by rewrite Hf.
Qed.

Lemma frame_upd_at f r s j :
  jobs s !! r = Some j -> core_of_job (f j) = core_of_job j -> frame s (upd_job r f s).
Proof.
  intros Hj Hf. split; [by split|]. intros r'. rewrite upd_job_core. destruct (decide _) as [->|]; [|done].
  unfold core_of. rewrite Hj. simpl. by rewrite Hf.
Qed.

Lemma moved_upd f r s j : jobs s !! r = Some j -> moved r (core_of_job (f j)) s (upd_job r f s).
Proof.
  intros Hj. split; [by split|]. intros r'. rewrite upd_job_core. by rewrite Hj.
Qed.

Lemma frame_data f r s :
  (forall d, outcome_data (f d) = outcome_data d) -> frame s (upd_job r (on_data f) s).
Proof. intros Hf. apply frame_upd. intros j. unfold core_of_job, j_out. simpl. by rewrite Hf. Qed.

Lemma frame_sent v s : frame s (set_sent v s).
Proof. by split. Qed.

Lemma frame_files v s : frame s (set_files v s).
Proof. by split. Qed.

Lemma frame_apps v s : frame s (set_apps v s).
Proof. by split. Qed.

Lemma frame_send mk r s : frame s (send_job_event mk r s).
Proof. unfold send_job_event. destruct (jobs s !! r); [|done]. destruct (o_transient _); [done|apply frame_sent]. Qed.

#[local] Hint Resolve frame_data frame_sent frame_files frame_apps frame_send : jobs.

Lemma frame_description d r s : frame s (set_description d r s).
Proof.
  unfold set_description. destruct (jobs s !! r); [|done]. case_bool_decide; [done|].
  etrans; [|apply frame_send]. auto with jobs.
Qed.

Lemma frame_progress fuel pct d e r s : frame s (set_progress fuel pct d e r s).1.
Proof.
  revert pct d e r s. induction fuel as [|fuel IH]; intros pct d e r s; simpl; [done|].
  destruct (jobs s !! r) as [j|]; [|done]. destruct (update_progress _ _ _ _) as [p ch].
  match goal with |- frame _ (foldl ?g (?x, true) ?l).1 => assert (frame s x) as H0 end.
  { etrans; [by apply (frame_data (set_d_progress p) r)|]. etrans; [|destruct ch; [apply frame_send|done]].
    destruct (j_progress_cb _); auto with jobs. done. }
  assert (forall l b s0, frame s s0 -> frame s (foldl (fun (acc : st C * bool) w =>
     if acc.2 then set_progress fuel (Some (NInt (percent p))) (Some (description p)) (extra p) w acc.1 else acc)
     (s0, b) l).1) as Hf; [|by apply Hf]. clear H0.
  induction l as [|w l IHl]; intros b s1 H1; simpl; [done|]. destruct b; [|by apply IHl].
  pose proof (IH (Some (NInt (percent p))) (Some (description p)) (extra p) w s1) as Hw.
  destruct (set_progress _ _ _ _ _ _) as [s2 b2]. apply IHl. by etrans.
Qed.

Lemma frame_wrap r sub s : frame s (wrap r sub s).
Proof.
  unfold wrap. destruct (jobs s !! sub) as [j|]; [|done].
  pose proof (frame_progress recursion_limit (Some (NInt (percent (j_progress j))))
    (Some (description (j_progress j))) (extra (j_progress j)) r s) as Hfr.
  destruct (set_progress _ _ _ _ _ _) as [s' []]; simpl in Hfr; [|done]. etrans; [exact Hfr|by apply frame_data].
Qed.

Lemma frame_merge r q s : frame s (merge_into r q s).
Proof.
  unfold merge_into. destruct (_ ≫= _) as [[|m ms]|]; try done. etrans; [|apply frame_send]. by apply frame_data.
Qed.

Lemma frame_close_logs r s : frame s (close_logs r s).
Proof.
  unfold close_logs. destruct (jobs s !! r); [|done]. destruct (d_logs_fd _); [|done].
  destruct (d_logs_excerpt _) as [[|]|]; auto with jobs. done.
Qed.

Lemma frame_cleanup r s : frame s (cleanup r s).
Proof. unfold cleanup. destruct (_ ≫= _) as [[|]|]; auto with jobs; done. Qed.

Lemma frame_start_logging r s : frame s (start_logging r s).
Proof.
  unfold start_logging. destruct (_ ≫= _); [|done]. etrans; [apply frame_files|by apply frame_data].
Qed.

Lemma frame_write d r s : frame s (logs_fd_write d r s).
Proof.
  unfold logs_fd_write. destruct (jobs s !! r) as [j|]; [|done].
  destruct (d_logs_fd (j_data j)), (d_logs_path (j_data j)); auto with jobs; done.
Qed.

Lemma frame_abort r s : frame s (abort_job r s).
Proof.
  apply frame_upd. intros [c x d]. unfold j_state. simpl. destruct (s_future x); [by destruct (j_coroutine c)|].
  by destruct (s_state x) eqn:E.
Qed.

(** ** The scheduling invariant *)

Record sinv (s : st C) : Prop := {
  si_nodup : NoDup (queue s);
  si_queue : forall r, r ∈ queue s <-> c_pc <$> core_of s r = Some PQueued;
  si_fresh : forall r, nref s <= r -> core_of s r = None /\ locks s !! r = None;
  si_live : forall r c l, core_of s r = Some c -> live (c_pc c) = true -> c_lock c = Some l ->
    exists lk, locks s !! l = Some lk /\ r ∈ l_jobs lk /\ Dict.get (l_name lk) (job_locks s) = Some l;
  si_names : forall k l, Dict.get k (job_locks s) = Some l -> exists lk, locks s !! l = Some lk /\ l_name lk = k;
  si_wf : Dict.wf (job_locks s);
  si_held : forall r c l lk, core_of s r = Some c -> holding (c_pc c) = true -> c_lock c = Some l ->
    locks s !! l = Some lk -> l_locked lk = true;
  si_excl : forall r1 r2 c1 c2 l, core_of s r1 = Some c1 -> core_of s r2 = Some c2 ->
    holding (c_pc c1) = true -> holding (c_pc c2) = true -> c_lock c1 = Some l -> c_lock c2 = Some l -> r1 = r2;
  si_locked : forall l lk, locks s !! l = Some lk -> l_locked lk = true ->
    exists r c, core_of s r = Some c /\ holding (c_pc c) = true /\ c_lock c = Some l;
  si_state : forall r c, core_of s r = Some c -> pc_state (c_pc c) (c_state c) = true;
  si_finished : forall r c, core_of s r = Some c -> c_finished c = pc_finished (c_pc c);
  si_wake : forall r, r ∈ queue s -> runnable s r = true -> queue_event s = true;
}.

Lemma runnable_ext s s' r :
  core_of s' r = core_of s r -> locks s' = locks s -> runnable s' r = runnable s r.
Proof. intros Hc Hl. unfold runnable. by rewrite !lock_of_core, Hc, Hl. Qed.

Lemma sinv_frame s s' : frame s s' -> sinv s -> sinv s'.
Proof.
  intros [[Hl Hn _ _ _ Hq He Hj] Hc] [].
  split; intros; rewrite ?Hl, ?Hn, ?Hq, ?He, ?Hj, ?Hc in *; eauto.
  - setoid_rewrite Hc. eauto.
  - eapply si_wake0; [eassumption|]. by rewrite <-(runnable_ext s s' r).
Qed.

(** A coroutine that holds its lock moves on. *)
Lemma sinv_moved_holding r c c' s s' :
  moved r c' s s' -> core_of s r = Some c -> holding (c_pc c) = true -> holding (c_pc c') = true ->
  c_lock c' = c_lock c -> pc_state (c_pc c') (c_state c') = true -> c_finished c' = c_finished c -> sinv s -> sinv s'.
Proof.
  intros [[Hl Hn _ _ _ Hq He Hj] Hm] Hc Hh Hh' Hlk Hst Hfin [].
  assert (forall p, holding p = true -> live p = true) as Hlive by by intros [].
  assert (forall r0 c0, core_of s' r0 = Some c0 -> exists c1, core_of s r0 = Some c1 /\
    c_lock c0 = c_lock c1 /\ (holding (c_pc c0) = holding (c_pc c1)) /\ (live (c_pc c0) = live (c_pc c1))) as Hback.
  { intros r0 c0. rewrite Hm. destruct (decide (r0 = r)) as [->|]; [|by eauto].
    intros [= <-]. exists c. rewrite Hh, Hh', !Hlive by done. done. }
  split; intros; rewrite ?Hl, ?Hn, ?Hq, ?He, ?Hj in *; eauto.
  - rewrite si_queue0, Hm. destruct (decide (r0 = r)) as [->|]; [|done].
    rewrite Hc. simpl. destruct (c_pc c), (c_pc c'); done.
  - rewrite Hm. destruct (decide (r0 = r)) as [->|]; [|eauto]. destruct (si_fresh0 r) as [? _]; [done|congruence].
  - destruct (Hback r0 c0) as (c1 & ? & ? & ? & ?); [done|]. apply (si_live0 r0 c1 l); congruence.
  - destruct (Hback r0 c0) as (c1 & ? & ? & ? & ?); [done|]. apply (si_held0 r0 c1 l lk); congruence.
  - destruct (Hback r1 c1) as (c3 & ? & ? & ? & ?); [done|]. destruct (Hback r2 c2) as (c4 & ? & ? & ? & ?); [done|].
    apply (si_excl0 r1 r2 c3 c4 l); congruence.
  - destruct (si_locked0 l lk) as (r0 & c0 & ? & ? & ?); [done..|].
    destruct (decide (r0 = r)) as [->|Hne].
    + exists r, c'. rewrite Hm, decide_True by done. split; [done|]. split; [done|]. congruence.
    + exists r0, c0. by rewrite Hm, decide_False.
  - rewrite Hm in *. destruct (decide (r0 = r)) as [->|]; [|eauto]. by simplify_eq.
  - rewrite Hm in *. destruct (decide (r0 = r)) as [->|]; [|eauto]. simplify_eq.
    rewrite Hfin, (si_finished0 r c) by done. by destruct (c_pc c), (c_pc c0).
  - apply (si_wake0 r0); [done|]. rewrite <-(runnable_ext s s'); [done| |done].
    rewrite Hm. destruct (decide (r0 = r)) as [->|]; [|done].
    exfalso. apply si_queue0 in H0. rewrite Hc in H0. simpl in H0. simplify_eq. by rewrite H0 in Hh.
Qed.

(** ** Registering a job and joining a lock *)

(** The invariant reads the cores, the locks and the queue only. *)
Lemma sinv_ext s s' :
  (forall r, core_of s' r = core_of s r) -> locks s' = locks s -> nref s' = nref s -> queue s' = queue s ->
  queue_event s' = queue_event s -> job_locks s' = job_locks s -> sinv s -> sinv s'.
Proof.
  intros Hc Hl Hn Hq He Hj Hs.
  apply (sinv_frame (set_dict (dict s') (set_count (count s') (mkSt (jobs s) (locks s) (nref s) (maxlen s') (count s)
    (dict s) (queue s) (queue_event s) (job_locks s) (apps s) (sent s) (files s))))).
  - split; [by split|]. intros r. by rewrite Hc.
  - destruct Hs. by split.
Qed.

(** A new job object that is not live. *)
Lemma sinv_new c s s' :
  (forall r, core_of s' r = if decide (r = nref s) then Some c else core_of s r) ->
  locks s' = locks s -> nref s' = S (nref s) -> queue s' = queue s ->
  queue_event s' = queue_event s -> job_locks s' = job_locks s ->
  live (c_pc c) = false -> pc_state (c_pc c) (c_state c) = true -> c_finished c = pc_finished (c_pc c) ->
  sinv s -> sinv s'.
Proof.
  intros Hc Hl Hn Hq He Hj Hlive Hst Hfin [].
  assert (core_of s (nref s) = None) as Hnone by by apply si_fresh0.
  assert (holding (c_pc c) = false) as Hh by by destruct (c_pc c).
  assert (forall r c0, core_of s' r = Some c0 -> live (c_pc c0) = true -> core_of s r = Some c0) as Hback.
  { intros r c0. rewrite Hc. destruct (decide _); [intros [= <-]; congruence|done]. }
  assert (forall r c0, core_of s' r = Some c0 -> holding (c_pc c0) = true -> core_of s r = Some c0) as Hback'.
  { intros r c0 ? Hp. apply Hback; [done|]. by destruct (c_pc c0). }
  split; intros; rewrite ?Hl, ?Hn, ?Hq, ?He, ?Hj in *; eauto.
  - rewrite si_queue0, Hc. destruct (decide (r = nref s)) as [->|]; [|done].
    rewrite Hnone. simpl. split; [done|]. intros [= Hp]. by rewrite Hp in Hlive.
  - rewrite Hc, decide_False by lia. apply si_fresh0. lia.
  - destruct (si_locked0 l lk) as (r & c0 & ? & ? & ?); [done..|]. exists r, c0.
    rewrite Hc, decide_False; [done|]. intros ->. congruence.
  - rewrite Hc in *. destruct (decide _); simplify_eq; eauto.
  - rewrite Hc in *. destruct (decide _); simplify_eq; eauto.
  - apply (si_wake0 r); [done|]. rewrite <-(runnable_ext s s'); [done| |done].
    rewrite Hc, decide_False; [done|]. intros ->. apply si_queue0 in H0. by rewrite Hnone in H0.
Qed.

(** The lock of a job, if it has one, is the registered one and knows the job. *)
Definition lock_ok (r : nat) (s : st C) : Prop :=
  forall c l, core_of s r = Some c -> c_lock c = Some l ->
    exists lk, locks s !! l = Some lk /\ r ∈ l_jobs lk /\ Dict.get (l_name lk) (job_locks s) = Some l.

(** Adding a job that is not live to the set of a lock and pointing it there. *)
Lemma sinv_attach r l lk j s :
  jobs s !! r = Some j -> live (j_pc j) = false -> locks s !! l = Some lk ->
  sinv s -> sinv (upd_job r (on_sched (set_s_lock (Some l))) (upd_lock l (add_job r) s)).
Proof.
  intros Hj Hp Hlk. set (s' := upd_job _ _ _).
  assert (forall r', core_of s' r' = if decide (r' = r)
    then Some (mkCore (j_id j) (Some l) (j_state j) (s_finished (j_sched j)) (j_pc j) (j_call j) (j_out j)) else core_of s r') as Hc.
  { intros r'. unfold s'. rewrite upd_job_core. simpl. rewrite Hj. by destruct (decide _). }
  assert (locks s' = alter (add_job r) l (locks s)) as Hl by done.
  assert (core_of s r = Some (core_of_job j)) as Hcr by (unfold core_of; by rewrite Hj).
  assert (holding (j_pc j) = false) as Hh by by destruct (j_pc j).
  assert (forall l0 lk0, locks s' !! l0 = Some lk0 -> exists lk1, locks s !! l0 = Some lk1 /\
    l_locked lk0 = l_locked lk1 /\ l_name lk0 = l_name lk1 /\ l_jobs lk1 ⊆ l_jobs lk0) as Hlb.
  { intros l0 lk0. rewrite Hl. destruct (decide (l0 = l)) as [->|].
    - rewrite lookup_alter_eq, Hlk. intros [= <-]. exists lk. split_and!; [done..|]. simpl. set_solver.
    - rewrite lookup_alter_ne by done. intros. exists lk0. split_and!; done. }
  assert (forall l0 lk1, locks s !! l0 = Some lk1 -> exists lk0, locks s' !! l0 = Some lk0 /\
    l_locked lk0 = l_locked lk1 /\ l_name lk0 = l_name lk1 /\ l_jobs lk1 ⊆ l_jobs lk0) as Hlf.
  { intros l0 lk1 Hl1. rewrite Hl. destruct (decide (l0 = l)) as [->|].
    - rewrite lookup_alter_eq, Hlk. simplify_eq. exists (add_job r lk). split_and!; [done..|]. simpl. set_solver.
    - rewrite lookup_alter_ne by done. exists lk1. split_and!; done. }
  assert (forall r0 c0, core_of s' r0 = Some c0 -> live (c_pc c0) = true -> core_of s r0 = Some c0) as Hback.
  { intros r0 c0. rewrite Hc. destruct (decide _); [intros [= <-]; simpl; congruence|done]. }
  assert (forall r0 c0, core_of s' r0 = Some c0 -> holding (c_pc c0) = true -> core_of s r0 = Some c0) as Hback'.
  { intros r0 c0 ? Hp0. apply Hback; [done|]. by destruct (c_pc c0). }
  intros []. split; intros; eauto.
  - change (queue s') with (queue s). rewrite si_queue0, Hc. destruct (decide (r0 = r)) as [->|]; [|done].
    by rewrite Hcr.
  - change (nref s') with (nref s) in *. destruct (si_fresh0 r0) as [H1 H2]; [done|].
    rewrite Hc, decide_False by congruence. split; [done|]. rewrite Hl.
    rewrite lookup_alter_ne by congruence. done.
  - destruct (si_live0 r0 c l0) as (lk1 & H3 & H4 & H5); [eauto..|].
    destruct (Hlf _ _ H3) as (lk0 & ? & ? & Hn & Hsub). exists lk0. rewrite Hn. split_and!; [done|set_solver|done].
  - destruct (si_names0 k l0) as (lk1 & H3 & H4); [done|]. destruct (Hlf _ _ H3) as (lk0 & ? & ? & Hn & _).
    exists lk0. split; congruence.
  - destruct (Hlb _ _ H3) as (lk1 & ? & -> & _). eauto.
  - destruct (Hlb _ _ H0) as (lk1 & Hl1 & Hlocked & _). rewrite Hlocked in H1.
    destruct (si_locked0 l0 lk1) as (r0 & c0 & ? & ? & ?); [done..|]. exists r0, c0.
    rewrite Hc, decide_False; [done|]. intros ->. rewrite Hcr in *. simplify_eq. simpl in *. unfold j_pc in Hh.
    congruence.
  - rewrite Hc in H0. destruct (decide _); simplify_eq; eauto. simpl. apply (si_state0 r _ Hcr).
  - rewrite Hc in H0. destruct (decide _); simplify_eq; eauto. simpl. apply (si_finished0 r _ Hcr).
  - change (queue s') with (queue s) in H0. change (queue_event s') with (queue_event s).
    apply (si_wake0 r0); [done|]. revert H1. unfold runnable. rewrite !lock_of_core, Hc.
    destruct (decide (r0 = r)) as [->|].
    + apply si_queue0 in H0. rewrite Hcr in H0. simpl in H0. simplify_eq. unfold j_pc in Hp. by rewrite H0 in Hp.
    + destruct (core_of s r0 ≫= c_lock) as [l0|]; [|done].
      destruct (locks s !! l0) as [lk1|] eqn:E1; [|done].
      destruct (Hlf _ _ E1) as (lk0 & -> & -> & _). done.
Qed.

(** Creating the lock object registers it under its name. *)
Lemma sinv_new_lock name s :
  Dict.get name (job_locks s) = None -> sinv s ->
  sinv (set_nref (S (nref s)) (set_job_locks (Dict.set name (nref s) (job_locks s))
          (set_locks (<[nref s := mkLock name ∅ false]> (locks s)) s))).
Proof.
  intros Hname Hs. set (s' := set_nref _ _).
  assert (locks s !! nref s = None) as Hfr by by apply (si_fresh s Hs).
  assert (forall r, core_of s' r = core_of s r) as Hc by done.
  assert (forall l lk, locks s !! l = Some lk -> locks s' !! l = Some lk) as Hlf.
  { intros l lk Hl. change (locks s') with (<[nref s := mkLock name ∅ false]> (locks s)).
    rewrite lookup_insert_ne; [done|congruence]. }
  assert (forall l lk, locks s' !! l = Some lk -> l_locked lk = true -> locks s !! l = Some lk) as Hlb.
  { intros l lk. change (locks s') with (<[nref s := mkLock name ∅ false]> (locks s)).
    destruct (decide (l = nref s)) as [->|]; [rewrite lookup_insert_eq; by intros [= <-]|].
    by rewrite lookup_insert_ne. }
  assert (forall k l, Dict.get k (job_locks s) = Some l -> Dict.get k (job_locks s') = Some l) as Hgf.
  { intros k l Hk. change (job_locks s') with (Dict.set name (nref s) (job_locks s)).
    rewrite Dict.get_set_ne; [done|congruence]. }
  split; intros; rewrite ?Hc in *.
  - apply Hs.
  - apply (si_queue s Hs).
  - change (nref s') with (S (nref s)) in *. destruct (si_fresh s Hs r) as [H1 H2]; [lia|]. split; [done|].
    change (locks s') with (<[nref s := mkLock name ∅ false]> (locks s)). rewrite lookup_insert_ne by lia. done.
  - destruct (si_live s Hs r c l) as (lk & ? & ? & ?); [done..|]. exists lk. split_and!; auto.
  - change (job_locks s') with (Dict.set name (nref s) (job_locks s)) in *. destruct (decide (k = name)) as [->|].
    + rewrite Dict.get_set_eq in *. simplify_eq. exists (mkLock name ∅ false). split; [|done].
      change (locks s') with (<[nref s := mkLock name ∅ false]> (locks s)). apply lookup_insert_eq.
    + rewrite Dict.get_set_ne in * by done. destruct (si_names s Hs k l) as (lk & ? & ?); eauto.
  - apply Dict.wf_set, Hs.
  - destruct (si_live s Hs r c l) as (lk1 & Hl1 & _); [done| |done|].
    { by destruct (c_pc c). }
    apply (si_held s Hs r c l lk); [done..|]. apply Hlf in Hl1 as Hl2. congruence.
  - by apply (si_excl s Hs r1 r2 c1 c2 l).
  - apply (si_locked s Hs l lk); [|done]. by apply Hlb.
  - by apply (si_state s Hs r).
  - by apply (si_finished s Hs r).
  - apply (si_wake s Hs r); [done|]. change (queue s') with (queue s) in *. revert H1. unfold runnable.
    rewrite !lock_of_core, Hc. destruct (core_of s r ≫= c_lock) as [l|] eqn:El; [|done].
    destruct (locks s !! l) as [lk|] eqn:Elk; [|done]. by rewrite (Hlf _ _ Elk).
Qed.

Lemma sinv_join name r j s :
  jobs s !! r = Some j -> live (j_pc j) = false -> sinv s ->
  sinv (join_lock name r s) /\ lock_ok r (join_lock name r s) /\
  (exists j', jobs (join_lock name r s) !! r = Some j' /\ j_pc j' = j_pc j /\ j_call j' = j_call j).
Proof.
  intros Hj Hp Hs. unfold join_lock.
  assert (forall s l lk, jobs s !! r = Some j -> locks s !! l = Some lk ->
    Dict.get (l_name lk) (job_locks s) = Some l ->
    let s' := upd_job r (on_sched (set_s_lock (Some l))) (upd_lock l (add_job r) s) in
    lock_ok r s' /\ exists j', jobs s' !! r = Some j' /\ j_pc j' = j_pc j /\ j_call j' = j_call j) as Hok.
  { clear. intros s l lk Hj Hl Hreg s'. split.
    - intros c l0. unfold s'. rewrite upd_job_core, decide_True by done. simpl. rewrite Hj. simpl.
      intros [= <-] [= <-]. exists (add_job r lk). rewrite lookup_alter_eq, Hl. split_and!; [done|set_solver|done].
    - unfold s'. simpl. rewrite lookup_alter_eq, Hj. eexists. split_and!; done. }
  destruct (Dict.get name (job_locks s)) as [l|] eqn:Hn.
  - destruct (si_names s Hs _ _ Hn) as (lk & Hl & <-). split; [by eapply sinv_attach|]. by eapply Hok.
  - pose proof (sinv_new_lock name s Hn Hs) as Hs'.
    assert (forall x, locks (set_nref x (set_job_locks (Dict.set name (nref s) (job_locks s))
      (set_locks (<[nref s := mkLock name ∅ false]> (locks s)) s))) !! nref s = Some (mkLock name ∅ false)) as Hl'.
    { intros. apply lookup_insert_eq. }
    split; [by eapply sinv_attach|]. eapply Hok; [done|apply Hl'|]. apply Dict.get_set_eq.
Qed.

(** ** The registry operations leave scheduling alone *)

Lemma deque_remove_core i s :
  (forall r, core_of (deque_remove i s) r = core_of s r) /\ locks (deque_remove i s) = locks s /\
  nref (deque_remove i s) = nref s /\ queue (deque_remove i s) = queue s /\
  queue_event (deque_remove i s) = queue_event s /\ job_locks (deque_remove i s) = job_locks s /\
  count (deque_remove i s) = count s /\ maxlen (deque_remove i s) = maxlen s /\
  dict (deque_remove i s) = match Dict.get i (dict s) with Some _ => Dict.pop i (dict s) | None => dict s end.
Proof.
  unfold deque_remove. destruct (Dict.get i (dict s)) as [r|]; [|by split_and!].
  destruct (frame_cleanup r s) as [[] Hc]. simpl. split_and!; try done. congruence.
Qed.

Definition evicted (s : st C) : list (Z * nat) := dict (if (maxlen s <? Z.of_nat (length (dict s)))%Z then evict s else s).

(** Which job is evicted does not depend on the new one. *)
Lemma evict_find r f s :
  (forall k, (k, r) ∉ dict s) ->
  List.find (fun kv => job_state_is (upd_job r f s) finished_state kv.2) (dict s) =
  List.find (fun kv => job_state_is s finished_state kv.2) (dict s).
Proof.
  intros Hnot. induction (dict s) as [|[k r'] d IH]; [done|]. simpl.
  rewrite IH by (intros k'; specialize (Hnot k'); set_solver).
  assert (r' ≠ r) as Hne by (intros ->; specialize (Hnot k); set_solver).
  unfold job_state_is, upd_job. simpl. by rewrite lookup_alter_ne.
Qed.

Lemma deque_add_spec r j s :
  jobs s !! r = Some j -> (forall k, (k, r) ∉ dict s) ->
  let s' := deque_add r s in
  (forall r', core_of s' r' = if decide (r' = r)
     then Some (mkCore (Some (count s + 1)%Z) (j_lock j) (j_state j) (s_finished (j_sched j)) (j_pc j) (j_call j) (j_out j)) else core_of s r') /\
  locks s' = locks s /\ nref s' = nref s /\ queue s' = queue s /\ queue_event s' = queue_event s /\
  job_locks s' = job_locks s /\ count s' = (count s + 1)%Z /\ maxlen s' = maxlen s /\
  dict s' = Dict.set (count s + 1)%Z r (evicted s).
Proof.
  intros Hj Hnot s'. unfold s', deque_add, get_next_id.
  set (s1 := upd_job r (on_sched (set_s_id _)) _).
  assert (moved r (mkCore (Some (count s + 1)%Z) (j_lock j) (j_state j) (s_finished (j_sched j)) (j_pc j) (j_call j) (j_out j))
            (set_count (count s + 1)%Z s) s1) as [[H1 H2 H3 H4 H5 H6 H7 H8] Hm].
  { apply (moved_upd (on_sched (set_s_id (Some (count s + 1)%Z))) r (set_count (count s + 1)%Z s) j Hj). }
  cbn [set_count locks nref maxlen count dict queue queue_event job_locks] in H1, H2, H3, H4, H5, H6, H7, H8.
  set (s2 := if (maxlen s1 <? _)%Z then evict s1 else s1).
  enough ((forall r', core_of s2 r' = core_of s1 r') /\ locks s2 = locks s1 /\ nref s2 = nref s1 /\
    queue s2 = queue s1 /\ queue_event s2 = queue_event s1 /\ job_locks s2 = job_locks s1 /\
    count s2 = count s1 /\ maxlen s2 = maxlen s1 /\ dict s2 = evicted s)
    as (G0 & G1 & G2 & G3 & G4 & G5 & G6 & G7 & G8).
  { split_and!; try by simpl; congruence.
    intros r'. change (core_of (set_dict ?x ?y) r') with (core_of y r'). by rewrite G0, Hm. }
  unfold s2, evicted. rewrite H3, H5. destruct (maxlen s <? _)%Z; [|split_and!; done].
  unfold evict. rewrite H5.
  pose proof (evict_find r (on_sched (set_s_id (Some (count s + 1)%Z))) (set_count (count s + 1)%Z s) Hnot) as Hev.
  change (dict (set_count ?x s)) with (dict s) in Hev. fold s1 in Hev. rewrite Hev.
  change (fun kv => job_state_is (set_count ?x s) finished_state kv.2) with
    (fun kv : Z * nat => job_state_is s finished_state kv.2).
  clear Hev s2.
  destruct (List.find (fun kv : Z * nat => job_state_is s finished_state kv.2) (dict s)) as [[old r0]|];
    [|by split_and!].
  destruct (deque_remove_core old s1) as (E0 & E1 & E2 & E3 & E4 & E5 & E6 & E7 & E8).
  destruct (deque_remove_core old s) as (_ & _ & _ & _ & _ & _ & _ & _ & F8). rewrite H5 in E8.
  split_and!; [exact E0|congruence..].
Qed.

Lemma core_job s r c : core_of s r = Some c -> exists j, jobs s !! r = Some j /\ core_of_job j = c.
Proof. unfold core_of. destruct (jobs s !! r) as [j|]; simpl; [|done]. intros [= <-]. eauto. Qed.

Lemma core_set_pc p j : core_of_job (on_sched (set_s_pc p) j) =
  let c := core_of_job j in mkCore (c_id c) (c_lock c) (c_state c) (c_finished c) p (c_call c) (c_out c).
Proof. done. Qed.

Lemma enqueue_spec r j s :
  jobs s !! r = Some j -> (forall k, (k, r) ∉ dict s) ->
  let s' := enqueue r s in
  (forall r', core_of s' r' = if decide (r' = r)
     then Some (mkCore (Some (count s + 1)%Z) (j_lock j) (j_state j) (s_finished (j_sched j)) PQueued (j_call j) (j_out j)) else core_of s r') /\
  locks s' = locks s /\ nref s' = nref s /\ queue s' = queue s ++ [r] /\ queue_event s' = true /\
  job_locks s' = job_locks s /\ count s' = (count s + 1)%Z /\ maxlen s' = maxlen s /\
  dict s' = Dict.set (count s + 1)%Z r (evicted s).
Proof.
  intros Hj Hnot s'. unfold s', enqueue.
  destruct (deque_add_spec r j s Hj Hnot) as (G0 & G1 & G2 & G3 & G4 & G5 & G6 & G7 & G8).
  set (s3 := deque_add r s) in *.
  destruct (core_job s3 r (mkCore (Some (count s + 1)%Z) (j_lock j) (j_state j) (s_finished (j_sched j)) (j_pc j) (j_call j) (j_out j)))
    as (j3 & Hj3 & Hc3); [by rewrite G0, decide_True|].
  destruct (moved_upd (on_sched (set_s_pc PQueued)) r s3 j3 Hj3) as [[K1 K2 K3 K4 K5 K6 K7 K8] Hc4].
  set (s4 := upd_job r (on_sched (set_s_pc PQueued)) s3) in *.
  destruct (frame_send EvAdded r (set_queue (queue s4 ++ [r]) s4)) as [[L1 L2 L3 L4 L5 L6 L7 L8] Hc5].
  cbn [set_queue locks nref maxlen count dict queue queue_event job_locks] in *.
  split_and!; cbn [set_queue_event locks nref maxlen count dict queue queue_event job_locks]; try congruence.
  intros r'. change (core_of (set_queue_event true ?x) r') with (core_of x r').
  rewrite Hc5. change (core_of (set_queue _ ?x) r') with (core_of x r'). rewrite Hc4, G0.
  destruct (decide (r' = r)); [|done].
  by rewrite core_set_pc, Hc3.
Qed.

End proofs.
