(* ===== verification/JobInv.v ===== *)
(** * Jobs: every operation keeps the invariants (of JobModel.v) *)

From S2P Require Import Prelude PyDict PyStr PyVal Errors JobModel JobProofs.

Section inv.
Context {C : Type} `{JC : !JobCredential C} `{JE : !JobEnv}.
Implicit Types (s : st C) (r : nat).

(** ** Entering and leaving the queue *)

Lemma sinv_enqueue r j s :
  jobs s !! r = Some j -> j_pc j = PDiscarded -> lock_ok r s -> (forall k, (k, r) ∉ dict s) ->
  sinv s -> sinv (enqueue r s).
Proof.
  intros Hj Hp Hok Hnot Hs.
  assert (core_of s r = Some (core_of_job j)) as Hcr by (unfold core_of; by rewrite Hj).
  assert (c_pc (core_of_job j) = PDiscarded) as Hcp by done.
  assert (r ∉ queue s) as Hnq. { rewrite (si_queue s Hs), Hcr. cbn. unfold j_pc in Hp. by rewrite Hp. }
  destruct (enqueue_spec r j s Hj Hnot) as (Hc & Hl & Hn & Hq & He & Hjl & _).
  set (s' := enqueue r s) in *.
  assert (forall r0 c, core_of s' r0 = Some c -> holding (c_pc c) = true -> core_of s r0 = Some c) as Hback.
  { intros r0 c. rewrite Hc. destruct (decide _); [by intros [= <-]|done]. }
  split; rewrite ?Hl, ?Hn, ?Hq, ?He, ?Hjl; try by apply Hs.
  - apply NoDup_app. split_and!; [apply Hs|set_solver|apply NoDup_singleton].
  - intros r0. rewrite elem_of_app, list_elem_of_singleton, Hc, (si_queue s Hs).
    destruct (decide (r0 = r)) as [->|]; [simpl; naive_solver|naive_solver].
  - intros r0 Hr0. destruct (si_fresh s Hs r0 Hr0) as [H1 H2]. rewrite Hc, decide_False by congruence. done.
  - intros r0 c l. rewrite Hc. destruct (decide (r0 = r)) as [->|]; [|apply (si_live s Hs)].
    intros [= <-] _ Hlk. by apply (Hok (core_of_job j)).
  - intros r0 c l lk H0 Hh. apply (si_held s Hs r0); [by apply Hback|done].
  - intros r1 r2 c1 c2 l H1 H2 Hh1 Hh2. apply (si_excl s Hs); auto.
  - intros l lk Hlk Hlo. destruct (si_locked s Hs l lk Hlk Hlo) as (r0 & c0 & H0 & Hh & ?).
    exists r0, c0. rewrite Hc, decide_False; [done|]. intros ->. rewrite Hcr in H0. simplify_eq. by rewrite Hcp in Hh.
  - intros r0 c. rewrite Hc. destruct (decide _) as [->|]; [|apply (si_state s Hs)]. intros [= <-]. simpl.
    pose proof (si_state s Hs r _ Hcr) as Hst. by rewrite Hcp in Hst.
  - intros r0 c. rewrite Hc. destruct (decide _) as [->|]; [|apply (si_finished s Hs)]. intros [= <-]. simpl.
    pose proof (si_finished s Hs r _ Hcr) as Hst. by rewrite Hcp in Hst.
  - done.
Qed.

Lemma elem_of_remove_first (x y : nat) (l : list nat) :
  NoDup l -> y ∈ list_remove_first x l <-> y ∈ l /\ y ≠ x.
Proof.
  induction l as [|z l IH]; intros Hnd; simpl; [set_solver|]. apply NoDup_cons in Hnd as [Hz Hnd].
  destruct (decide (x = z)) as [->|]; set_solver.
Qed.

Lemma remove_first_sublist (x : nat) (l : list nat) : list_remove_first x l `sublist_of` l.
Proof. induction l as [|z l IH]; simpl; [done|]. destruct (decide _); by constructor. Qed.

Lemma remove_first_app (x : nat) (b a : list nat) : x ∉ b -> list_remove_first x (b ++ x :: a) = b ++ a.
Proof.
  induction b as [|y b IH]; simpl; intros Hx; [by rewrite decide_True|].
  rewrite decide_False by set_solver. f_equal. apply IH. set_solver.
Qed.

(** The job picked: first in the queue whose lock is free. *)
Definition picked (s : st C) (r : nat) (s' : st C) : Prop :=
  queue_event s = true /\ List.find (runnable s) (queue s) = Some r /\
  (forall r', core_of s' r' = if decide (r' = r)
     then (fun c => mkCore (c_id c) (c_lock c) (c_state c) (c_finished c) PScheduled (c_call c) (c_out c)) <$> core_of s r else core_of s r') /\
  locks s' = match lock_of s r with Some l => alter acquire l (locks s) | None => locks s end /\
  nref s' = nref s /\ queue s' = list_remove_first r (queue s) /\
  (queue_event s' = true \/ queue s' = []) /\ job_locks s' = job_locks s /\
  dict s' = dict s /\ count s' = count s /\ maxlen s' = maxlen s.

Lemma next_picked s s' r : next s = Some (s', Some r) -> picked s r s'.
Proof.
  unfold next. destruct (queue_event s) eqn:He; [|done].
  destruct (List.find (runnable s) (queue s)) as [r0|] eqn:Hf; [|done]. intros [= <- ->].
  set (s1 := match lock_of s r with Some l => upd_lock l acquire s | None => s end).
  assert (jobs s1 = jobs s /\ nref s1 = nref s /\ queue s1 = queue s /\ queue_event s1 = true /\
    job_locks s1 = job_locks s /\ dict s1 = dict s /\ count s1 = count s /\ maxlen s1 = maxlen s /\
    locks s1 = match lock_of s r with Some l => alter acquire l (locks s) | None => locks s end)
    as (E1 & E2 & E3 & E4 & E5 & E6 & E7 & E8 & E9) by (unfold s1; by destruct (lock_of s r)).
  split; [done|]. split; [done|]. simpl. rewrite E3.
  split.
  { intros r'. rewrite upd_job_core.
    set (s2 := match list_remove_first r (queue s) with [] => _ | _ => _ end).
    assert (jobs s2 = jobs s) as H2 by (rewrite <-E1; unfold s2; by destruct (list_remove_first r (queue s))).
    unfold core_of. rewrite H2. destruct (decide _); [|done]. by destruct (jobs s !! r). }
  split_and!; destruct (list_remove_first r (queue s)); simpl; auto.
Qed.

Lemma next_none s s' : next s = Some (s', None) ->
  (forall r, r ∈ queue s -> runnable s r = false) /\ s' = set_queue_event false s.
Proof.
  unfold next. destruct (queue_event s) eqn:He; [|done].
  destruct (List.find (runnable s) (queue s)) as [r0|] eqn:Hf; [done|]. intros [= <-]. split; [|done].
  intros r Hr. eapply find_none in Hf; [exact Hf|]. by apply list_elem_of_In.
Qed.

Lemma runnable_lock s r l :
  runnable s r = true -> lock_of s r = Some l -> forall lk, locks s !! l = Some lk -> l_locked lk = false.
Proof. unfold runnable. intros Hr Hl lk Hlk. rewrite Hl, Hlk in Hr. by apply negb_true_iff. Qed.

Lemma sinv_picked s r s' : picked s r s' -> sinv s -> sinv s'.
Proof.
  intros (He & Hf & Hc & Hl & Hn & Hq & Hev & Hjl & _) Hs.
  apply find_some in Hf as [Hin%list_elem_of_In Hrun].
  pose proof (proj1 (si_queue s Hs r) Hin) as Hpc. destruct (core_of s r) as [c|] eqn:Hcr; [|done].
  simpl in Hpc. injection Hpc as Hpc.
  assert (lock_of s r = c_lock c) as Hlo by (rewrite lock_of_core, Hcr; done). rewrite Hlo in Hl.
  assert (forall l lk, c_lock c = Some l -> locks s !! l = Some lk -> l_locked lk = false) as Hfree.
  { intros l lk Hlc. apply (runnable_lock s r l Hrun). congruence. }
  set (c' := mkCore (c_id c) (c_lock c) (c_state c) (c_finished c) PScheduled (c_call c) (c_out c)) in *.
  simpl in Hc. change (_ <$> Some c) with (Some c') in Hc.
  assert (forall l0 lk0, locks s' !! l0 = Some lk0 -> exists lk1, locks s !! l0 = Some lk1 /\
    l_name lk0 = l_name lk1 /\ l_jobs lk0 = l_jobs lk1 /\ l_locked lk0 = bool_decide (c_lock c = Some l0) || l_locked lk1) as Hlb.
  { intros l0 lk0. rewrite Hl. destruct (c_lock c) as [l|] eqn:Hlc; [|intros; exists lk0; by rewrite bool_decide_eq_false_2].
    destruct (decide (l = l0)) as [->|Hne].
    - rewrite lookup_alter_eq, fmap_Some. intros (lk1 & ? & ->). exists lk1. by rewrite bool_decide_eq_true_2.
    - rewrite lookup_alter_ne by done. intros. exists lk0. rewrite bool_decide_eq_false_2; [done|congruence]. }
  assert (forall l0 lk1, locks s !! l0 = Some lk1 -> exists lk0, locks s' !! l0 = Some lk0 /\
    l_name lk0 = l_name lk1 /\ l_jobs lk0 = l_jobs lk1) as Hlf.
  { intros l0 lk1 H1. rewrite Hl. destruct (c_lock c) as [l|] eqn:Hlc; [|by exists lk1].
    destruct (decide (l = l0)) as [->|Hne].
    - rewrite lookup_alter_eq, H1. by exists (acquire lk1).
    - rewrite lookup_alter_ne by done. by exists lk1. }
  assert (forall r0 c0, core_of s' r0 = Some c0 -> holding (c_pc c0) = true ->
    (r0 = r /\ c0 = c') \/ (r0 ≠ r /\ core_of s r0 = Some c0)) as Hback.
  { intros r0 c0. rewrite Hc. destruct (decide _); [intros [= <-]; by left|by right]. }
  split; rewrite ?Hn, ?Hq, ?Hjl; try by apply Hs.
  - eapply sublist_NoDup; [apply Hs|apply remove_first_sublist].
  - intros r0. rewrite elem_of_remove_first by apply Hs. rewrite Hc, (si_queue s Hs).
    destruct (decide (r0 = r)) as [->|]; [simpl; naive_solver|naive_solver].
  - intros r0 Hr0. destruct (si_fresh s Hs r0 Hr0) as [H1 H2]. rewrite Hc, decide_False by congruence. split; [done|].
    destruct (locks s' !! r0) as [lk|] eqn:E; [|done]. destruct (Hlb _ _ E) as (? & ? & _). congruence.
  - intros r0 c0 l. rewrite Hc. intros H0 Hlive Hlk.
    assert (exists lk, locks s !! l = Some lk /\ r0 ∈ l_jobs lk /\ Dict.get (l_name lk) (job_locks s) = Some l)
      as (lk1 & H1 & H2 & H3).
    { destruct (decide (r0 = r)) as [->|]; [|by apply (si_live s Hs r0 c0)]. simplify_eq.
      apply (si_live s Hs r c); [done| |done]. by rewrite Hpc. }
    destruct (Hlf _ _ H1) as (lk0 & ? & Hnm & Hjb). exists lk0. by rewrite Hnm, Hjb.
  - intros k l Hk. destruct (si_names s Hs k l Hk) as (lk1 & H1 & H2).
    destruct (Hlf _ _ H1) as (lk0 & ? & Hnm & Hjb). exists lk0. split; [done|congruence].
  - intros r0 c0 l lk H0 Hh Hlc Hlk. destruct (Hlb _ _ Hlk) as (lk1 & H1 & _ & _ & ->).
    destruct (Hback _ _ H0 Hh) as [[-> ->]|[Hne H2]].
    + simpl in Hlc. by rewrite bool_decide_eq_true_2.
    + rewrite (si_held s Hs r0 c0 l lk1) by done. apply orb_true_r.
  - intros r1 r2 c1 c2 l H1 H2 Hh1 Hh2 Hl1 Hl2.
    assert (forall r0 c0, r0 ≠ r -> core_of s r0 = Some c0 -> holding (c_pc c0) = true -> c_lock c0 = Some l ->
      c_lock c = Some l -> False) as Hno.
    { intros r0 c0 Hne H0 Hh Hl0 Hlr. destruct (si_live s Hs r0 c0 l H0) as (lk & Hlk & _); [by destruct (c_pc c0)|done|].
      pose proof (si_held s Hs r0 c0 l lk H0 Hh Hl0 Hlk) as Ht.
      rewrite (Hfree l lk Hlr Hlk) in Ht. done. }
    destruct (Hback _ _ H1 Hh1) as [[-> ->]|[? ?]], (Hback _ _ H2 Hh2) as [[-> ->]|[? ?]]; try done.
    + exfalso. by eapply (Hno r2 c2).
    + exfalso. by eapply (Hno r1 c1).
    + by apply (si_excl s Hs r1 r2 c1 c2 l).
  - intros l lk Hlk Hlocked. destruct (Hlb _ _ Hlk) as (lk1 & H1 & _ & _ & Hb). rewrite Hlocked in Hb. symmetry in Hb.
    apply orb_true_iff in Hb as [Hb%bool_decide_eq_true|Hb].
    + exists r, c'. by rewrite Hc, decide_True.
    + destruct (si_locked s Hs l lk1 H1 Hb) as (r0 & c0 & H0 & Hh & ?). exists r0, c0. rewrite Hc, decide_False; [done|].
      intros ->. rewrite Hcr in H0. simplify_eq. by rewrite Hpc in Hh.
  - intros r0 c0. rewrite Hc. destruct (decide _) as [->|]; [|apply (si_state s Hs)]. intros [= <-]. simpl.
    pose proof (si_state s Hs r _ Hcr) as Hst. by rewrite Hpc in Hst.
  - intros r0 c0. rewrite Hc. destruct (decide _) as [->|]; [|apply (si_finished s Hs)]. intros [= <-]. simpl.
    pose proof (si_finished s Hs r _ Hcr) as Hst. by rewrite Hpc in Hst.
  - intros r0 Hr0. destruct Hev as [|Hev]; [done|]. rewrite <-Hq, Hev in Hr0. set_solver.
Qed.

(** ** Releasing the lock *)

(** What [release_lock] leaves for a job [r] with core [c]. *)
Definition released (r : nat) (c : core) (s s' : st C) : Prop :=
  (forall r', core_of s' r' = core_of s r') /\ nref s' = nref s /\ queue s' = queue s /\ dict s' = dict s /\
  count s' = count s /\ maxlen s' = maxlen s /\
  match c_lock c with
  | None => locks s' = locks s /\ job_locks s' = job_locks s /\ queue_event s' = queue_event s
  | Some l => exists lk, locks s !! l = Some lk /\ Dict.get (l_name lk) (job_locks s) = Some l /\
      locks s' = <[l := mkLock (l_name lk) (l_jobs lk ∖ {[r]}) false]> (locks s) /\
      job_locks s' = (if bool_decide (l_jobs lk ∖ {[r]} = ∅) then Dict.pop (l_name lk) (job_locks s) else job_locks s) /\
      queue_event s' = true
  end.

(** For a job that holds its lock, [release_lock] raises nothing. *)
Lemma release_lock_ok r c s :
  sinv s -> core_of s r = Some c -> holding (c_pc c) = true ->
  exists s', release_lock r s = Ok s' /\ released r c s s'.
Proof.
  intros Hs Hc Hh. unfold release_lock, released. rewrite lock_of_core, Hc. simpl.
  destruct (c_lock c) as [l|] eqn:Hl; [|exists s; by split_and!].
  destruct (si_live s Hs r c l Hc) as (lk & Hlk & Hin & Hreg); [by destruct (c_pc c)|done|].
  rewrite Hlk. unfold release. simpl. rewrite (si_held s Hs r c l lk Hc Hh Hl Hlk). simpl. rewrite Hreg.
  case_bool_decide.
  - eexists. split; [reflexivity|]. simpl. split_and!; try done. exists lk. split_and!; try done.
    by rewrite bool_decide_eq_true_2.
  - eexists. split; [reflexivity|]. simpl. split_and!; try done. exists lk. split_and!; try done.
    by rewrite bool_decide_eq_false_2.
Qed.

(** Releasing the lock and leaving the coroutine keeps the invariant. *)
Lemma sinv_released r c c' s s1 s' :
  sinv s -> core_of s r = Some c -> holding (c_pc c) = true -> released r c s s1 ->
  moved r c' s1 s' -> c_lock c' = c_lock c -> live (c_pc c') = false ->
  pc_state (c_pc c') (c_state c') = true -> c_finished c' = pc_finished (c_pc c') -> sinv s'.
Proof.
  intros Hs Hcr Hh (Hjobs & Hn & Hq & _ & _ & _ & Hrel) [[Ml Mn _ _ _ Mq Me Mj] Hm0] Hlk' Hlive' Hst Hfin.
  assert (forall r', core_of s' r' = if decide (r' = r) then Some c' else core_of s r') as Hm.
  { intros r'. by rewrite Hm0, Hjobs. }
  clear Hm0. rewrite Hn in Mn. rewrite Hq in Mq.
  assert (holding (c_pc c') = false) as Hh' by by destruct (c_pc c').
  assert (forall r0 c0, core_of s' r0 = Some c0 -> live (c_pc c0) = true -> r0 ≠ r /\ core_of s r0 = Some c0) as Hback.
  { intros r0 c0. rewrite Hm. destruct (decide _); [intros [= <-]; congruence|done]. }
  assert (forall r0 c0, core_of s' r0 = Some c0 -> holding (c_pc c0) = true -> r0 ≠ r /\ core_of s r0 = Some c0) as Hback'.
  { intros r0 c0 ? Hp. apply Hback; [done|]. by destruct (c_pc c0). }
  assert (forall r0 c0 l, core_of s r0 = Some c0 -> live (c_pc c0) = true -> c_lock c0 = Some l -> r0 ≠ r ->
    exists lk, locks s' !! l = Some lk /\ r0 ∈ l_jobs lk /\ Dict.get (l_name lk) (job_locks s') = Some l) as Hlive.
  { intros r0 c0 l0 H0 Hp0 Hl0 Hne. destruct (si_live s Hs r0 c0 l0 H0 Hp0 Hl0) as (lk0 & Hlk0 & Hin0 & Hreg0).
    rewrite Ml, Mj. destruct (c_lock c) as [l|]; [|destruct Hrel as (-> & -> & _); by exists lk0].
    destruct Hrel as (lk & Hlk & Hreg & -> & -> & _).
    destruct (decide (l0 = l)) as [->|Hnl].
    - simplify_eq. rewrite lookup_insert_eq. eexists. split; [done|]. simpl.
      rewrite bool_decide_eq_false_2 by set_solver. split; [set_solver|done].
    - rewrite lookup_insert_ne by done. exists lk0. split_and!; [done..|].
      case_bool_decide; [|done]. rewrite Dict.get_pop_ne; [done|congruence]. }
  split; rewrite ?Mn, ?Mq; try by apply Hs.
  - intros r0. rewrite Hm, (si_queue s Hs). destruct (decide (r0 = r)) as [->|]; [|done].
    rewrite Hcr. simpl. destruct (c_pc c), (c_pc c'); done.
  - intros r0 Hr0. destruct (si_fresh s Hs r0 Hr0) as [H1 H2]. rewrite Hm, decide_False by congruence. split; [done|].
    rewrite Ml. destruct (c_lock c) as [l|]; [|by destruct Hrel as (-> & _)].
    destruct Hrel as (lk & Hlk & _ & -> & _). rewrite lookup_insert_ne; [done|congruence].
  - intros r0 c0 l H0 Hp0 Hl0. destruct (Hback _ _ H0 Hp0). eauto.
  - intros k l0. rewrite Mj, Ml. destruct (c_lock c) as [l|]; [|destruct Hrel as (-> & -> & _); apply (si_names s Hs)].
    destruct Hrel as (lk & Hlk & Hreg & -> & -> & _). intros Hk.
    assert (Dict.get k (job_locks s) = Some l0 /\ (l_jobs lk ∖ {[r]} = ∅ -> k ≠ l_name lk)) as [Hk0 Hne].
    { case_bool_decide as Hb; [|done]. destruct (decide (l_name lk = k)) as [<-|].
      - rewrite Dict.get_pop_eq in Hk; [done|apply Hs].
      - by rewrite Dict.get_pop_ne in Hk. }
    destruct (si_names s Hs k l0 Hk0) as (lk0 & H0 & <-). destruct (decide (l0 = l)) as [->|].
    + simplify_eq. rewrite lookup_insert_eq. by eexists.
    + rewrite lookup_insert_ne by done. by eexists.
  - rewrite Mj. destruct (c_lock c) as [l|]; [|destruct Hrel as (_ & -> & _); apply Hs].
    destruct Hrel as (lk & _ & _ & _ & -> & _). case_bool_decide; [apply Dict.wf_pop|]; apply Hs.
  - intros r0 c0 l0 lk0 H0 Hp0 Hl0. destruct (Hback' _ _ H0 Hp0) as [Hne H1]. rewrite Ml.
    destruct (c_lock c) as [l|] eqn:Hlc; [|destruct Hrel as (-> & _); by apply (si_held s Hs r0 c0)].
    destruct Hrel as (lk & Hlk & _ & -> & _). rewrite lookup_insert_ne; [by apply (si_held s Hs r0 c0)|].
    intros ->. apply Hne. by apply (si_excl s Hs r0 r c0 c l0).
  - intros r1 r2 c1 c2 l H1 H2 Hh1 Hh2. destruct (Hback' _ _ H1 Hh1), (Hback' _ _ H2 Hh2). by apply (si_excl s Hs).
  - intros l0 lk0 Hlk0 Hlo. assert (c_lock c ≠ Some l0 /\ locks s !! l0 = Some lk0) as [Hnl Hs0].
    { rewrite Ml in Hlk0. destruct (c_lock c) as [l|]; [|destruct Hrel as (Hl & _); split; congruence].
      destruct Hrel as (lk & Hlk & _ & Hl & _). rewrite Hl in Hlk0. destruct (decide (l = l0)) as [->|Hne].
      - rewrite lookup_insert_eq in Hlk0. by simplify_eq.
      - rewrite lookup_insert_ne in Hlk0 by done. split; congruence. }
    destruct (si_locked s Hs l0 lk0 Hs0 Hlo) as (r0 & c0 & H0 & Hp0 & Hl0). exists r0, c0.
    rewrite Hm, decide_False; [done|]. intros ->. congruence.
  - intros r0 c0. rewrite Hm. destruct (decide _) as [->|]; [|apply (si_state s Hs)]. by intros [= <-].
  - intros r0 c0. rewrite Hm. destruct (decide _) as [->|]; [|apply (si_finished s Hs)]. by intros [= <-].
  - intros r0 Hr0 Hrun. rewrite Me. destruct (c_lock c) as [l|]; [by destruct Hrel as (? & _ & _ & _ & _ & ->)|].
    destruct Hrel as (Hl & _ & ->). apply (si_wake s Hs r0 Hr0).
    rewrite <-(runnable_ext s s' r0); [done| |congruence]. rewrite Hm, decide_False; [done|]. intros ->.
    apply (si_queue s Hs) in Hr0. rewrite Hcr in Hr0. injection Hr0 as Hr0. by rewrite Hr0 in Hh.
Qed.

(** ** The segments of [run] *)

Lemma core_on_data f j : core_of_job (on_data f j) =
  let c := core_of_job j in
  mkCore (c_id c) (c_lock c) (c_state c) (c_finished c) (c_pc c) (c_call c) (outcome_data (f (j_data j))).
Proof. done. Qed.

Lemma core_of_goto p j : core_of_job (goto p j) =
  mkCore (j_id j) (j_lock j) (j_state j) (s_finished (j_sched j)) p (j_call j) (j_out j).
Proof. done. Qed.

Lemma set_state_core x now j j' : set_state x now j = Ok j' ->
  core_of_job j' = mkCore (j_id j) (j_lock j) x (s_finished (j_sched j)) (j_pc j) (j_call j) (j_out j').
Proof.
  unfold set_state. destruct (match j_state j with WAITING => _ | RUNNING => _ | _ => _ end); [done|].
  intros [= <-]. by destruct (finished_state x).
Qed.

Lemma set_state_from_waiting x now j :
  j_state j = WAITING -> x ≠ WAITING -> x ≠ SUCCESS -> exists j', set_state x now j = Ok j'.
Proof. intros Hw H1 H2. unfold set_state. rewrite Hw, bool_decide_eq_false_2 by naive_solver. eauto. Qed.

Lemma set_state_from_running x now j :
  j_state j = RUNNING -> x ≠ WAITING -> x ≠ RUNNING -> exists j', set_state x now j = Ok j'.
Proof. intros Hw H1 H2. unfold set_state. rewrite Hw, bool_decide_eq_false_2 by naive_solver. eauto. Qed.

Lemma abort_with_core now j : finished_state (j_state j) = false ->
  core_of_job (abort_with now j) = mkCore (j_id j) (j_lock j) ABORTED (s_finished (j_sched j)) (j_pc j) (j_call j) (j_out (abort_with now j)).
Proof.
  intros Hf. unfold abort_with.
  assert (exists j', set_state ABORTED now j = Ok j') as [j' Hj'].
  { destruct (j_state j) eqn:E; try done; [by apply set_state_from_waiting|by apply set_state_from_running]. }
  rewrite Hj'. by apply (set_state_core _ now).
Qed.

Lemma fail_with_core e now j : finished_state (j_state j) = false ->
  core_of_job (fail_with e now j) = mkCore (j_id j) (j_lock j) FAILED (s_finished (j_sched j)) (j_pc j) (j_call j) (j_out (fail_with e now j)).
Proof.
  intros Hf. unfold fail_with.
  assert (exists j', set_state FAILED now j = Ok j') as [j' Hj'].
  { destruct (j_state j) eqn:E; try done; [by apply set_state_from_waiting|by apply set_state_from_running]. }
  rewrite Hj'. unfold set_exception at 1. rewrite core_on_data. by rewrite (set_state_core _ _ _ _ Hj').
Qed.

(** The transitions [set_state] allows. *)
Definition allowed (x y : State) : bool :=
  match x, y with
  | WAITING, (RUNNING | FAILED | ABORTED) | RUNNING, (SUCCESS | FAILED | ABORTED) => true
  | _, _ => bool_decide (x = y)
  end.

(** A segment of [run] that keeps the lock and suspends at one of [ps]. *)
Definition advances (ps : list pc) (r : nat) (c : core) (s s' : st C) : Prop :=
  exists c', moved r c' s s' /\ c_id c' = c_id c /\ c_lock c' = c_lock c /\ c_finished c' = c_finished c /\
    c_call c' = c_call c /\ holding (c_pc c') = true /\ pc_state (c_pc c') (c_state c') = true /\ allowed (c_state c) (c_state c') = true /\
    c_pc c' ∈ ps.

Lemma run_enter_advances now r c s :
  core_of s r = Some c -> c_state c = WAITING -> advances [PBody; PClosing] r c s (run_enter now r s).
Proof.
  intros Hc Hw. destruct (core_job s r c Hc) as (j & Hj & Hcj).
  assert (j_state j = WAITING) as Hst by (rewrite <-Hw, <-Hcj; done).
  unfold run_enter. rewrite Hj. destruct (s_aborted (j_sched j)).
  - eexists. split; [apply (moved_upd _ _ _ j Hj)|]. cbv beta. rewrite core_of_goto.
    assert (finished_state (j_state j) = false) as Hf by by rewrite Hst.
    pose proof (abort_with_core now j Hf) as Ha. unfold core_of_job in Ha. injection Ha as E1 E2 E3 E4 E5 E6.
    rewrite <-Hcj. simpl. unfold j_id, j_lock, j_state in *. rewrite E1, E2, E3, E4, Hst. split_and!; try done; set_solver.
  - destruct (set_state_from_waiting RUNNING now j Hst) as [j' Hj']; [done..|]. rewrite Hj'.
    apply set_state_core in Hj'. set (s1 := upd_job r (fun _ => j') s).
    destruct (frame_send EvChanged r s1) as [Hr1 Hc1].
    assert (core_of s1 r = Some (core_of_job j')) as H1.
    { unfold s1. rewrite upd_job_core, decide_True by done. by rewrite Hj. }
    destruct (core_job (send_changed_event r s1) r (core_of_job j')) as (j2 & Hj2 & Hcj2); [by rewrite Hc1|].
    exists (core_of_job (goto PBody (on_sched (set_s_future true) j2))). split.
    + eapply moved_moved;
        [|apply (moved_upd (fun j => goto PBody (on_sched (set_s_future true) j)) _ _ j2 Hj2)].
      eapply moved_frame; [apply (moved_upd (fun _ => j') r s j Hj)|by split].
    + rewrite Hj' in Hcj2. unfold core_of_job in Hcj2. injection Hcj2 as E1 E2 E3 E4 E5 E6.
      rewrite <-Hcj. simpl. unfold j_id, j_lock, j_state in *. rewrite E1, E2, E3, E4, Hst. split_and!; try done; set_solver.
Qed.

Lemma advances_frame ps r c s s1 s' : frame s s1 -> advances ps r c s1 s' -> advances ps r c s s'.
Proof. intros Hf (c' & Hm & H). exists c'. split; [by eapply frame_moved|done]. Qed.

Lemma advances_weaken ps qs r c s s' : ps ⊆ qs -> advances ps r c s s' -> advances qs r c s s'.
Proof. intros Hsub (c' & H1 & H2 & H3 & H4 & H5 & H6 & H7 & H8 & H9). exists c'. split_and!; auto. Qed.

Lemma run_begin_advances now r c s :
  core_of s r = Some c -> c_state c = WAITING -> advances [PLogging; PBody; PClosing] r c s (run_begin now r s).
Proof.
  intros Hc Hw. destruct (core_job s r c Hc) as (j & Hj & Hcj). unfold run_begin. rewrite Hj.
  destruct (o_logs _).
  2:{ eapply advances_weaken; [|by apply run_enter_advances]. set_solver. }
  eexists. split; [apply (moved_upd _ _ _ j Hj)|]. rewrite <-Hcj in *. simpl in *.
  rewrite Hw. split_and!; try done; set_solver.
Qed.

Lemma run_logging_advances (ok : bool) now r c s :
  core_of s r = Some c -> c_state c = WAITING -> advances (if ok then [PBody; PClosing] else [PCrashed]) r c s (run_logging ok now r s).
Proof.
  intros Hc Hw. unfold run_logging. destruct ok.
  - eapply advances_frame; [apply frame_start_logging|]. apply run_enter_advances; [|done].
    destruct (frame_start_logging r s) as [_ Hf]. by rewrite Hf.
  - destruct (core_job s r c Hc) as (j & Hj & Hcj).
    eexists. split; [apply (moved_upd _ _ _ j Hj)|]. rewrite <-Hcj in *. simpl in *. rewrite Hw. split_and!; try done; set_solver.
Qed.

Lemma closing_advances r c j s f x :
  jobs s !! r = Some j -> core_of_job j = c -> c_state c = RUNNING -> finished_state x = true ->
  core_of_job (f j) = mkCore (c_id c) (c_lock c) x (c_finished c) (c_pc c) (c_call c) (j_out (f j)) ->
  advances [PClosing] r c s (upd_job r (fun j => goto PClosing (f j)) s).
Proof.
  intros Hj Hcj Hst Hx Hf. eexists. split; [apply (moved_upd _ _ _ j Hj)|].
  cbv beta. rewrite core_of_goto. unfold core_of_job in Hf. injection Hf as E1 E2 E3 E4 E5 E6.
  simpl. unfold j_id, j_lock, j_state. rewrite E1, E2, E3, E4, Hst. split_and!; try done; [by destruct x|set_solver].
Qed.

Lemma run_body_advances o now r c s :
  core_of s r = Some c -> c_state c = RUNNING -> advances [PClosing] r c s (run_body_done o now r s).
Proof.
  intros Hc Hw. destruct (core_job s r c Hc) as (j & Hj & Hcj).
  assert (j_state j = RUNNING) as Hst by (rewrite <-Hw, <-Hcj; done).
  assert (finished_state (j_state j) = false) as Hf by by rewrite Hst.
  destruct o as [v|e|]; simpl.
  - rewrite Hj. destruct (set_state_from_running SUCCESS now (set_result v j)) as [j' Hj']; [done..|]. rewrite Hj'.
    apply set_state_core in Hj'. pose proof (moved_upd (fun _ => j') r s j Hj) as Hm. set (s1 := upd_job r _ s) in *.
    assert (exists j1, jobs s1 !! r = Some j1 /\ core_of_job j1 = core_of_job j') as (j1 & Hj1 & Hcj1).
    { apply core_job. unfold s1. rewrite upd_job_core, decide_True by done. by rewrite Hj. }
    assert (forall s2 f, frame s1 s2 -> (forall j2, core_of_job j2 = core_of_job j' -> core_of_job (f j2) = core_of_job j2) ->
      advances [PClosing] r c s (upd_job r (fun j => goto PClosing (f j)) s2)) as Hgo.
    { intros s2 f Hfr Hff. destruct Hfr as [Hfr1 Hfr2].
      destruct (core_job s2 r (core_of_job j')) as (j2 & Hj2 & Hcj2).
      { rewrite Hfr2. unfold s1. rewrite upd_job_core, decide_True by done. by rewrite Hj. }
      eexists. split; [eapply moved_moved; [|apply (moved_upd _ _ _ j2 Hj2)]; by eapply moved_frame|].
      cbv beta. rewrite core_of_goto. pose proof (Hff j2 Hcj2) as E. rewrite Hcj2, Hj' in E. unfold core_of_job in E.
      injection E as E1 E2 E3 E4 E5 E6. rewrite <-Hcj. simpl. unfold j_id, j_lock, j_state in *.
      rewrite E1, E2, E3, E4. simpl. rewrite Hst. split_and!; try done; set_solver. }
    destruct (percent (j_progress j') =? 100)%Z; [by apply (Hgo s1 (fun j => j))|].
    pose proof (frame_progress recursion_limit (Some (NInt 100)) (Some "") JNull r s1) as Hp.
    destruct (set_progress _ _ _ _ _ _) as [s2 []]; simpl in Hp.
    + by apply (Hgo s2 (fun j => j)).
    + apply Hgo; [done|]. intros j2 Hj2. unfold fail_with, set_state.
      assert (j_state j2 = SUCCESS) as Hs2.
      { rewrite Hj' in Hj2. unfold core_of_job in Hj2. by injection Hj2. }
      by rewrite Hs2.
  - apply (closing_advances r c j s _ FAILED); try done. rewrite <-Hcj. by apply fail_with_core.
  - apply (closing_advances r c j s _ ABORTED); try done. rewrite <-Hcj. by apply abort_with_core.
Qed.

Lemma sinv_advances ps r c s s' :
  core_of s r = Some c -> holding (c_pc c) = true -> advances ps r c s s' -> sinv s -> sinv s'.
Proof.
  intros Hc Hh (c' & Hm & Hid & Hl & Hf & _ & Hh' & Hst & _). by apply (sinv_moved_holding r c c' s s').
Qed.

(** The last segments. *)
Lemma run_finish_spec r c s :
  core_of s r = Some c ->
  (forall r', core_of (run_finish r s) r' = if decide (r' = r)
     then Some (mkCore (c_id c) (c_lock c) (c_state c) (c_finished c) PDone (c_call c) (c_out c)) else core_of s r') /\
  locks (run_finish r s) = locks s /\ nref (run_finish r s) = nref s /\ queue (run_finish r s) = queue s /\
  queue_event (run_finish r s) = queue_event s /\ job_locks (run_finish r s) = job_locks s /\
  count (run_finish r s) = count s /\ maxlen (run_finish r s) = maxlen s /\
  (dict (run_finish r s) = dict s \/ exists i, c_id c = Some i /\ dict (run_finish r s) = Dict.pop i (dict s)).
Proof.
  intros Hc. unfold run_finish.
  assert (frame s (send_job_event EvChanged r (upd_job r (on_data (set_d_on_finish_cb_called true)) s)))
    as [[F1 F2 F3 F4 F5 F6 F7 F8] Hf] by (etrans; [|apply frame_send]; by apply frame_data).
  set (s1 := send_job_event _ _ _) in *.
  destruct (core_job s1 r c) as (j1 & Hj1 & Hcj1); [by rewrite Hf|]. rewrite Hj1.
  set (s2 := match o_transient _ with true => _ | false => _ end).
  assert ((forall r', core_of s2 r' = core_of s r') /\ locks s2 = locks s /\ nref s2 = nref s /\ queue s2 = queue s /\
    queue_event s2 = queue_event s /\ job_locks s2 = job_locks s /\ count s2 = count s /\ maxlen s2 = maxlen s /\
    (dict s2 = dict s \/ exists i, c_id c = Some i /\ dict s2 = Dict.pop i (dict s)))
    as (G0 & G1 & G2 & G3 & G4 & G5 & G6 & G7 & G8).
  { unfold s2. destruct (o_transient _); [|by split_and!; auto].
    destruct (j_id j1) as [i|] eqn:Hi; [|by split_and!; auto].
    destruct (deque_remove_core i s1) as (E0 & E1 & E2 & E3 & E4 & E5 & E6 & E7 & E8).
    split_and!; try congruence.
    rewrite E8, F5. destruct (Dict.get i (dict s)); [|by left]. right. exists i. split; [|done]. by rewrite <-Hcj1. }
  destruct (core_job s2 r c) as (j2 & Hj2 & Hcj2); [by rewrite G0|].
  destruct (moved_upd (goto PDone) r s2 j2 Hj2) as [[K1 K2 K3 K4 K5 K6 K7 K8] Hm].
  split; [|split_and!; try congruence; rewrite K5; exact G8].
  intros r'. rewrite Hm, G0. rewrite core_of_goto, <-Hcj2. done.
Qed.

(** [finally]: the lock is released, never with an exception, and the job is
    finished. *)
Definition closed (r : nat) (c : core) (s s' : st C) : Prop :=
  exists p s1, (p = POnFinish \/ p = PDone) /\ released r c s s1 /\
  (forall r', core_of s' r' = if decide (r' = r)
     then Some (mkCore (c_id c) (c_lock c) (c_state c) true p (c_call c) (c_out c)) else core_of s r') /\
  locks s' = locks s1 /\ nref s' = nref s /\ queue s' = queue s /\ queue_event s' = queue_event s1 /\
  job_locks s' = job_locks s1 /\ count s' = count s /\ maxlen s' = maxlen s /\
  (dict s' = dict s \/ exists i, c_id c = Some i /\ dict s' = Dict.pop i (dict s)).

Lemma released_frame r c s s0 s1 : frame s s0 -> released r c s0 s1 -> released r c s s1.
Proof.
  intros [[F1 F2 F3 F4 F5 F6 F7 F8] Hf] (R1 & R2 & R3 & R4 & R5 & R6 & R7). unfold released.
  rewrite F1, F7, F8 in R7. split_and!; congruence.
Qed.

Definition closing_raises (o : closing) (r : nat) (s : st C) : bool :=
  match jobs s !! r with Some j => close_raises o j | None => false end.

Lemma frame_closing o r s : frame s (match o with LogsFailed => s | _ => close_logs r s end).
Proof. destruct o; [apply frame_close_logs|done|apply frame_close_logs]. Qed.

(** Closing raises: the job keeps its lock and is not finished. *)
Lemma run_close_raises o r c s : core_of s r = Some c -> closing_raises o r s = true ->
  moved r (mkCore (c_id c) (c_lock c) (c_state c) (c_finished c) PUnclosed (c_call c) (c_out c)) s (run_close o r s).
Proof.
  intros Hc Hr. unfold run_close. fold (closing_raises o r s). rewrite Hr. cbv zeta.
  pose proof (frame_closing o r s) as Hfr. set (s0 := match o with LogsFailed => s | _ => _ end) in *.
  eapply frame_moved; [exact Hfr|]. destruct (core_job s0 r c) as (j & Hj & <-); [by rewrite (proj2 Hfr)|].
  apply (moved_upd (goto PUnclosed) r s0 j Hj).
Qed.

Lemma run_close_unclosed o r c s : sinv s -> core_of s r = Some c -> c_pc c = PClosing -> closing_raises o r s = true ->
  advances [PUnclosed] r c s (run_close o r s).
Proof.
  intros Hs Hc Hp Hr. pose proof (si_state s Hs r c Hc) as Hst. rewrite Hp in Hst.
  eexists. split; [by apply (run_close_raises o r c)|]. simpl. split_and!; try done; [by destruct (c_state c)|set_solver].
Qed.

Lemma run_close_closed o r c s : closing_raises o r s = false ->
  sinv s -> core_of s r = Some c -> c_pc c = PClosing -> closed r c s (run_close o r s).
Proof.
  intros Hr Hs Hc Hp. unfold run_close. fold (closing_raises o r s). rewrite Hr. cbv zeta. pose proof (frame_closing o r s) as Hfr.
  pose proof (sinv_frame _ _ Hfr Hs) as Hs0. pose proof (proj2 Hfr) as Hf.
  set (s0 := match o with LogsFailed => s | _ => _ end) in *.
  destruct (release_lock_ok r c s0 Hs0) as (s1 & -> & Hrel); [by rewrite Hf|by rewrite Hp|].
  apply (released_frame _ _ _ _ _ Hfr) in Hrel. pose proof Hrel as (R1 & R2 & R3 & R4 & R5 & R6 & _).
  destruct (core_job s1 r c) as (j1 & Hj1 & Hcj1); [by rewrite R1|].
  destruct (moved_upd (on_sched (set_s_finished true)) r s1 j1 Hj1) as [[K1 K2 K3 K4 K5 K6 K7 K8] Hm].
  set (s2 := upd_job r (on_sched (set_s_finished true)) s1) in *.
  assert (core_of s2 r = Some (mkCore (c_id c) (c_lock c) (c_state c) true (c_pc c) (c_call c) (c_out c))) as Hc2.
  { rewrite Hm, decide_True by done. by rewrite <-Hcj1. }
  destruct (core_job s2 r _ Hc2) as (j2 & Hj2 & Hcj2). rewrite Hj2.
  destruct (d_on_finish_cb _).
  - exists POnFinish, s1. split; [by left|]. split; [done|].
    destruct (moved_upd (fun j => goto POnFinish (on_data (fun d => set_d_cb_runs (S (d_cb_runs d)) d) j)) r s2 j2 Hj2)
      as [[L1 L2 L3 L4 L5 L6 L7 L8] Hm2].
    split; [|split_and!; try congruence; left; congruence].
    intros r'. rewrite Hm2, Hm, R1. destruct (decide _); [|done].
    unfold goto. rewrite core_set_pc. change (core_of_job (on_data ?f j2)) with (core_of_job j2). by rewrite Hcj2.
  - exists PDone, s1. split; [by right|]. split; [done|].
    destruct (run_finish_spec r _ s2 Hc2) as (G0 & G1 & G2 & G3 & G4 & G5 & G6 & G7 & G8).
    split; [|split_and!; try congruence; rewrite K5, R4 in G8; exact G8].
    intros r'. rewrite G0, Hm, R1. by destruct (decide _).
Qed.

(** A state with the cores and locks of [closed] *)
Lemma sinv_closed r c s s' :
  sinv s -> core_of s r = Some c -> c_pc c = PClosing -> closed r c s s' -> sinv s'.
Proof.
  intros Hs Hc Hp (p & s1 & Hpp & Hrel & Hcore & L1 & L2 & L3 & L4 & L5 & _).
  assert (pc_state (c_pc c) (c_state c) = true) as Hst by by apply (si_state s Hs r).
  pose proof Hrel as (R1 & R2 & R3 & _).
  destruct (core_job s1 r c) as (j1 & Hj1 & Hcj1); [by rewrite R1|].
  set (f := on_sched (fun x => set_s_pc p (set_s_finished true x))).
  pose proof (moved_upd f r s1 j1 Hj1) as Hm.
  assert (core_of_job (f j1) = mkCore (c_id c) (c_lock c) (c_state c) true p (c_call c) (c_out c)) as Hf by by rewrite <-Hcj1.
  rewrite Hf in Hm.
  apply (sinv_ext (upd_job r f s1)); [|simpl; congruence..|].
  - intros r'. rewrite Hcore, (proj2 Hm r'). by rewrite R1.
  - rewrite Hp in Hst.
    apply (sinv_released r c (mkCore (c_id c) (c_lock c) (c_state c) true p (c_call c) (c_out c)) s s1); simpl; try done.
    + by rewrite Hp.
    + by destruct Hpp as [-> | ->].
    + by destruct Hpp as [-> | ->].
    + by destruct Hpp as [-> | ->].
Qed.

(** The finish callback is over. *)
Lemma sinv_finish r c s : sinv s -> core_of s r = Some c -> c_pc c = POnFinish -> sinv (run_finish r s).
Proof.
  intros Hs Hc Hp.
  destruct (run_finish_spec r c s Hc) as (G0 & G1 & G2 & G3 & G4 & G5 & G6 & G7 & G8).
  set (s' := run_finish r s) in *.
  assert (forall r0 c0, core_of s' r0 = Some c0 -> live (c_pc c0) = true -> core_of s r0 = Some c0) as Hback.
  { intros r0 c0. rewrite G0. destruct (decide _); [by intros [= <-]|done]. }
  assert (forall r0 c0, core_of s' r0 = Some c0 -> holding (c_pc c0) = true -> core_of s r0 = Some c0) as Hback'.
  { intros r0 c0 ? Hp0. apply Hback; [done|]. by destruct (c_pc c0). }
  split; rewrite ?G1, ?G2, ?G3, ?G4, ?G5; try by apply Hs.
  - intros r0. rewrite G0, (si_queue s Hs). destruct (decide (r0 = r)) as [->|]; [|done].
    rewrite Hc. simpl. by rewrite Hp.
  - intros r0 Hr0. destruct (si_fresh s Hs r0 Hr0) as [H1 H2]. by rewrite G0, decide_False by congruence.
  - intros r0 c0 l H0 Hl0. apply (si_live s Hs r0 c0 l); auto.
  - intros r0 c0 l lk H0 Hl0. apply (si_held s Hs r0 c0 l lk); auto.
  - intros r1 r2 c1 c2 l H1 H2 ? ?. apply (si_excl s Hs r1 r2 c1 c2 l); auto.
  - intros l lk Hlk Hlo. destruct (si_locked s Hs l lk Hlk Hlo) as (r0 & c0 & H0 & Hh0 & ?). exists r0, c0.
    rewrite G0, decide_False; [done|]. intros ->. rewrite Hc in H0. simplify_eq. by rewrite Hp in Hh0.
  - intros r0 c0. rewrite G0. destruct (decide _) as [->|]; [|apply (si_state s Hs)]. intros [= <-]. simpl.
    pose proof (si_state s Hs r c Hc) as Hst. by rewrite Hp in Hst.
  - intros r0 c0. rewrite G0. destruct (decide _) as [->|]; [|apply (si_finished s Hs)]. intros [= <-]. simpl.
    pose proof (si_finished s Hs r c Hc) as Hst. by rewrite Hp in Hst.
  - intros r0 Hr0 Hrun. apply (si_wake s Hs r0 Hr0). rewrite <-(runnable_ext s s' r0); [done| |done].
    rewrite G0, decide_False; [done|]. intros ->. apply (si_queue s Hs) in Hr0. rewrite Hc in Hr0. simpl in Hr0.
    by rewrite Hp in Hr0.
Qed.

(** ** The registry invariant *)

Record dinv (s : st C) : Prop := {
  di_count : (0 <= count s)%Z;
  di_wf : Dict.wf (dict s);
  di_dict : forall i r, Dict.get i (dict s) = Some r -> exists c, core_of s r = Some c /\ c_id c = Some i;
  di_ids : forall r c i, core_of s r = Some c -> c_id c = Some i -> (1 <= i <= count s)%Z;
  di_inj : forall r1 r2 c1 c2 i, core_of s r1 = Some c1 -> core_of s r2 = Some c2 ->
    c_id c1 = Some i -> c_id c2 = Some i -> r1 = r2;
  di_given : forall r c, core_of s r = Some c -> c_id c = None <-> c_pc c = PDiscarded;
  di_kept : forall r c i, core_of s r = Some c -> c_id c = Some i -> finished_state (c_state c) = false ->
    Dict.get i (dict s) = Some r;
}.

(** Jobs keep their ids; a registered job may leave once it is finished. *)
Lemma dinv_evolve s s' :
  (forall r, match core_of s r, core_of s' r with
             | Some c, Some c' => c_id c' = c_id c /\ (c_pc c' = PDiscarded <-> c_pc c = PDiscarded) /\
                 (finished_state (c_state c) = true -> finished_state (c_state c') = true)
             | None, None => True
             | _, _ => False
             end) ->
  count s' = count s -> Dict.wf (dict s') ->
  (forall i r, Dict.get i (dict s') = Some r -> Dict.get i (dict s) = Some r) ->
  (forall i r c, Dict.get i (dict s) = Some r -> core_of s' r = Some c -> finished_state (c_state c) = false ->
     Dict.get i (dict s') = Some r) ->
  dinv s -> dinv s'.
Proof.
  intros Hc Hn Hwf Hsub Hkeep Hd.
  assert (forall r c', core_of s' r = Some c' -> exists c, core_of s r = Some c /\ c_id c' = c_id c /\
    (c_pc c' = PDiscarded <-> c_pc c = PDiscarded) /\
    (finished_state (c_state c) = true -> finished_state (c_state c') = true)) as Hback.
  { intros r c' H'. specialize (Hc r). rewrite H' in Hc. destruct (core_of s r) as [c|]; [|done]. by exists c. }
  split; rewrite ?Hn; try by apply Hd.
  - done.
  - intros i r Hi%Hsub. destruct (di_dict s Hd i r Hi) as (c & Hcr & Hid). specialize (Hc r). rewrite Hcr in Hc.
    destruct (core_of s' r) as [c'|]; [|done]. exists c'. split; [done|]. by rewrite (proj1 Hc).
  - intros r c' i H' Hid. destruct (Hback r c' H') as (c & Hcr & E & _). apply (di_ids s Hd r c); congruence.
  - intros r1 r2 c1 c2 i H1 H2 Hi1 Hi2. destruct (Hback r1 c1 H1) as (c3 & ? & ? & _).
    destruct (Hback r2 c2 H2) as (c4 & ? & ? & _). apply (di_inj s Hd r1 r2 c3 c4 i); congruence.
  - intros r c' H'. destruct (Hback r c' H') as (c & Hcr & -> & -> & _). by apply (di_given s Hd r).
  - intros r c' i H' Hid Hf. destruct (Hback r c' H') as (c & Hcr & E & _ & Hfin).
    apply (Hkeep i r c'); [|done..]. apply (di_kept s Hd r c i Hcr); [congruence|].
    destruct (finished_state (c_state c)); [|done]. by rewrite Hfin in Hf.
Qed.

Lemma dinv_frame s s' : frame s s' -> dinv s -> dinv s'.
Proof.
  intros [[F1 F2 F3 F4 F5 F6 F7 F8] Hf] Hd. apply (dinv_evolve s); try done.
  - intros r. rewrite Hf. by destruct (core_of s r).
  - rewrite F5. apply Hd.
  - by rewrite F5.
  - by rewrite F5.
Qed.

Lemma dinv_advances ps r c s s' :
  core_of s r = Some c -> c_pc c ≠ PDiscarded -> advances ps r c s s' -> dinv s -> dinv s'.
Proof.
  intros Hc Hp (c' & [[F1 F2 F3 F4 F5 F6 F7 F8] Hf] & Hid & Hl & _ & _ & Hh & _ & Ha & _) Hd. apply (dinv_evolve s); try done.
  - intros r0. rewrite Hf. destruct (decide (r0 = r)) as [->|]; [|by destruct (core_of s r0)].
    rewrite Hc. split; [done|]. split; [by destruct (c_pc c')|]. by destruct (c_state c), (c_state c').
  - rewrite F5. apply Hd.
  - by rewrite F5.
  - by rewrite F5.
Qed.

Lemma dinv_picked s r s' : picked s r s' -> sinv s -> dinv s -> dinv s'.
Proof.
  intros (_ & Hin & Hc & _ & _ & _ & _ & _ & Hd & Hn & _) Hs Hdi.
  apply find_some in Hin as [Hin%list_elem_of_In _]. apply (si_queue s Hs) in Hin.
  destruct (core_of s r) as [c|] eqn:Hcr; [|done]. simpl in Hin. injection Hin as Hin.
  apply (dinv_evolve s); try done.
  - intros r0. rewrite Hc. destruct (decide (r0 = r)) as [->|]; [|by destruct (core_of s r0)].
    rewrite Hcr. simpl. by rewrite Hin.
  - rewrite Hd. apply Hdi.
  - by rewrite Hd.
  - by rewrite Hd.
Qed.

(** Removing the entry of a finished job. *)
Lemma dinv_finished r c c' s s' :
  core_of s r = Some c -> finished_state (c_state c) = true -> c_pc c ≠ PDiscarded ->
  c_id c' = c_id c -> c_pc c' ≠ PDiscarded -> c_state c' = c_state c ->
  (forall r', core_of s' r' = if decide (r' = r) then Some c' else core_of s r') -> count s' = count s ->
  (dict s' = dict s \/ exists i, c_id c = Some i /\ dict s' = Dict.pop i (dict s)) -> dinv s -> dinv s'.
Proof.
  intros Hc Hfin Hp Hid Hp' Hst Hcore Hn Hdict Hd. apply (dinv_evolve s); try done.
  - intros r0. rewrite Hcore. destruct (decide (r0 = r)) as [->|]; [|by destruct (core_of s r0)].
    rewrite Hc, Hst. split_and!; [done| |done]. tauto.
  - destruct Hdict as [->|(i & _ & ->)]; [|apply Dict.wf_pop]; apply Hd.
  - intros i0 r0. destruct Hdict as [->|(i & _ & ->)]; [done|].
    destruct (decide (i = i0)) as [->|]; [by rewrite Dict.get_pop_eq by apply Hd|by rewrite Dict.get_pop_ne].
  - intros i0 r0 c0 Hg H0 Hf0. destruct Hdict as [->|(i & Hi & ->)]; [done|].
    rewrite Dict.get_pop_ne; [done|]. intros ->. destruct (di_dict s Hd i0 r0 Hg) as (c1 & H1 & Hi1).
    assert (r0 = r) as -> by by apply (di_inj s Hd r0 r c1 c i0). rewrite Hcore, decide_True in H0 by done.
    simplify_eq. by rewrite Hst, Hfin in Hf0.
Qed.

(** The entry evicted is that of a finished job. *)
Lemma evicted_cases s : dinv s -> evicted s = dict s \/
  exists i r c, Dict.get i (dict s) = Some r /\ core_of s r = Some c /\ finished_state (c_state c) = true /\
    evicted s = Dict.pop i (dict s).
Proof.
  intros Hd. unfold evicted, evict. destruct (maxlen s <? _)%Z; [|by left].
  destruct (List.find _ (dict s)) as [[i r]|] eqn:Hf; [|by left]. right.
  apply find_some in Hf as [Hin%list_elem_of_In Hst]. simpl in Hst. unfold job_state_is in Hst.
  destruct (jobs s !! r) as [j|] eqn:Hj; [|done].
  assert (Dict.get i (dict s) = Some r) as Hg by (apply Dict.elem_get; [apply Hd|done]).
  exists i, r, (core_of_job j). unfold core_of. rewrite Hj.
  destruct (deque_remove_core i s) as (_ & _ & _ & _ & _ & _ & _ & _ & ->). by rewrite Hg.
Qed.

Lemma dinv_enqueue r j s :
  jobs s !! r = Some j -> j_pc j = PDiscarded -> dinv s -> dinv (enqueue r s).
Proof.
  intros Hj Hp Hd.
  assert (core_of s r = Some (core_of_job j)) as Hcr by (unfold core_of; by rewrite Hj).
  assert (c_id (core_of_job j) = None) as Hid by by apply (di_given s Hd r).
  assert (forall k, (k, r) ∉ dict s) as Hnot.
  { intros k Hk. destruct (di_dict s Hd k r) as (c & ? & ?); [apply Dict.elem_get; [apply Hd|done]|]. congruence. }
  destruct (enqueue_spec r j s Hj Hnot) as (Hc & _ & _ & _ & _ & _ & Hn & _ & Hdict).
  assert (Dict.wf (evicted s) /\ (forall i r0, Dict.get i (evicted s) = Some r0 -> Dict.get i (dict s) = Some r0) /\
    (forall i r0 c0, Dict.get i (dict s) = Some r0 -> core_of s r0 = Some c0 -> finished_state (c_state c0) = false ->
       Dict.get i (evicted s) = Some r0)) as (Ewf & Esub & Ekeep).
  { destruct (evicted_cases s Hd) as [->|(i & r1 & c1 & Hg & H1 & Hf1 & ->)]; [split_and!; [apply Hd|done..]|].
    split_and!; [apply Dict.wf_pop, Hd| |].
    - intros i0 r0. destruct (decide (i = i0)) as [->|]; [by rewrite Dict.get_pop_eq by apply Hd|by rewrite Dict.get_pop_ne].
    - intros i0 r0 c0 Hg0 H0 Hf0. rewrite Dict.get_pop_ne; [done|]. intros ->. congruence. }
  assert (forall i r0, Dict.get i (dict s) = Some r0 -> (1 <= i <= count s)%Z /\ r0 ≠ r) as Hold.
  { intros i r0 Hg. destruct (di_dict s Hd i r0 Hg) as (c & H0 & H1). split; [by apply (di_ids s Hd r0 c)|].
    intros ->. congruence. }
  set (i := (count s + 1)%Z) in *. set (s' := enqueue r s) in *. pose proof (di_count s Hd).
  split; rewrite ?Hn, ?Hdict.
  - unfold i. lia.
  - by apply Dict.wf_set.
  - intros i0 r0. destruct (decide (i0 = i)) as [->|Hne].
    + rewrite Dict.get_set_eq. intros [= <-]. rewrite Hc, decide_True by done. by eexists.
    + rewrite Dict.get_set_ne by done. intros Hg%Esub. destruct (Hold _ _ Hg). rewrite Hc, decide_False by done.
      by apply (di_dict s Hd).
  - intros r0 c0 i0. rewrite Hc. destruct (decide _); [intros [= <-] [= <-]; unfold i; lia|].
    intros H0 H1. pose proof (di_ids s Hd r0 c0 i0 H0 H1). unfold i. lia.
  - intros r1 r2 c1 c2 i0. rewrite !Hc. destruct (decide (r1 = r)) as [->|], (decide (r2 = r)) as [->|]; try done.
    + intros [= <-] H2 [= <-] Hi2. pose proof (di_ids s Hd _ _ _ H2 Hi2). unfold i in *. lia.
    + intros H1 [= <-] Hi1 [= <-]. pose proof (di_ids s Hd _ _ _ H1 Hi1). unfold i in *. lia.
    + by apply (di_inj s Hd).
  - intros r0 c0. rewrite Hc. destruct (decide _); [by intros [= <-]|]. by apply (di_given s Hd).
  - intros r0 c0 i0. rewrite Hc. destruct (decide _) as [->|].
    + intros [= <-] [= <-] _. by rewrite Dict.get_set_eq.
    + intros H0 Hi0 Hf0. pose proof (di_ids s Hd _ _ _ H0 Hi0).
      rewrite Dict.get_set_ne by (unfold i; lia). apply (Ekeep i0 r0 c0); [|done..]. by apply (di_kept s Hd r0 c0).
Qed.

(** ** Every step keeps the invariants *)

Definition inv (s : st C) : Prop := sinv s /\ dinv s.

Lemma inv_frame s s' : frame s s' -> inv s -> inv s'.
Proof. intros Hf [H1 H2]. split; [by eapply sinv_frame|by eapply dinv_frame]. Qed.

Lemma inv_advances ps r c s s' :
  core_of s r = Some c -> holding (c_pc c) = true -> advances ps r c s s' -> inv s -> inv s'.
Proof.
  intros Hc Hh Ha [H1 H2]. split; [by eapply sinv_advances|]. eapply dinv_advances; [done| |done..].
  by destruct (c_pc c).
Qed.

Lemma core_of_insert r j s r' n :
  core_of (set_nref n (set_jobs (<[r := j]> (jobs s)) s)) r' = if decide (r' = r) then Some (core_of_job j) else core_of s r'.
Proof.
  unfold core_of. simpl. destruct (decide (r' = r)) as [->|]; [by rewrite lookup_insert_eq|by rewrite lookup_insert_ne].
Qed.

Lemma inv_alloc j s :
  j_pc j = PDiscarded -> j_id j = None -> j_state j = WAITING -> s_finished (j_sched j) = false -> inv s ->
  inv (set_nref (S (nref s)) (set_jobs (<[nref s := j]> (jobs s)) s)).
Proof.
  intros Hp Hid Hst Hfin [Hs Hd]. unfold j_pc, j_id, j_state in *. split.
  - apply (sinv_new (core_of_job j) s); try done; [by intros r; rewrite core_of_insert|..]; simpl.
    + by rewrite Hp.
    + by rewrite Hp, Hst.
    + by rewrite Hp, Hfin.
  - assert (core_of s (nref s) = None) as Hnone by by apply (si_fresh s Hs).
    split; try by apply Hd.
    + intros i r Hg. destruct (di_dict s Hd i r Hg) as (c & Hc & ?). exists c. rewrite core_of_insert, decide_False; [done|].
      intros ->. congruence.
    + intros r c i. rewrite core_of_insert. destruct (decide _); [intros [= <-]; simpl; congruence|apply (di_ids s Hd)].
    + intros r1 r2 c1 c2 i. rewrite !core_of_insert.
      destruct (decide _); [intros [= <-]; simpl; congruence|].
      destruct (decide _); [intros _ [= <-]; simpl; congruence|apply (di_inj s Hd)].
    + intros r c. rewrite core_of_insert. destruct (decide _); [by intros [= <-]|apply (di_given s Hd)].
    + intros r c i. rewrite core_of_insert. destruct (decide _); [intros [= <-]; simpl; congruence|apply (di_kept s Hd)].
Qed.

Lemma join_lock_core name r j s :
  jobs s !! r = Some j -> exists l, (forall r', core_of (join_lock name r s) r' = if decide (r' = r)
     then Some (mkCore (j_id j) (Some l) (j_state j) (s_finished (j_sched j)) (j_pc j) (j_call j) (j_out j)) else core_of s r') /\
  dict (join_lock name r s) = dict s /\ count (join_lock name r s) = count s /\ queue (join_lock name r s) = queue s.
Proof.
  intros Hj. unfold join_lock. destruct (Dict.get name (job_locks s)) as [l|].
  - exists l. split_and!; try done. intros r'. rewrite upd_job_core. simpl. by rewrite Hj.
  - exists (nref s). split_and!; try done. intros r'. rewrite upd_job_core. simpl. by rewrite Hj.
Qed.

(** [handle_lock] on a new job *)
Lemma handle_lock_inv r j s :
  jobs s !! r = Some j -> j_pc j = PDiscarded -> j_lock j = None -> inv s ->
  inv (handle_lock r s).1 /\ lock_ok r (handle_lock r s).1 /\
  exists j', jobs (handle_lock r s).1 !! r = Some j' /\ j_pc j' = PDiscarded /\ j_call j' = j_call j.
Proof.
  intros Hj Hp Hl Hinv. unfold handle_lock. rewrite Hj.
  assert (lock_ok r s) as Hok.
  { intros c l. unfold core_of. rewrite Hj. intros [= <-]. unfold j_lock in Hl. simpl. congruence. }
  destruct (get_lock_name (j_call j)) as [[name|]|]; simpl; [|by split_and!; eauto..].
  destruct Hinv as [Hs Hd]. destruct (sinv_join name r j s) as (Hs' & Hok' & j' & Hj' & Hp' & Hc'); [done|by rewrite Hp|done|].
  split; [|split; [done|exists j'; by rewrite <-Hp]]. split; [done|].
  destruct (join_lock_core name r j s Hj) as (l & Hcore & Hdict & Hn & _).
  apply (dinv_evolve s); try done; rewrite ?Hdict; try done; [|apply Hd].
  intros r0. rewrite Hcore. destruct (decide (r0 = r)) as [->|]; [|by destruct (core_of s r0)].
  unfold core_of. by rewrite Hj.
Qed.

Lemma enqueue_inv r j s :
  jobs s !! r = Some j -> j_pc j = PDiscarded -> lock_ok r s -> inv s -> inv (enqueue r s).
Proof.
  intros Hj Hp Hok [Hs Hd]. split; [|by eapply dinv_enqueue].
  eapply sinv_enqueue; [done..| |done]. intros k Hk.
  destruct (di_dict s Hd k r) as (c & Hc & Hi); [apply Dict.elem_get; [apply Hd|done]|].
  assert (core_of s r = Some (core_of_job j)) as Hcr by (unfold core_of; by rewrite Hj).
  assert (c_id (core_of_job j) = None) as ?; [by apply (di_given s Hd r)|congruence].
Qed.

Lemma add_inv r j s :
  jobs s !! r = Some j -> j_pc j = PDiscarded -> j_lock j = None -> inv s -> inv (add r s).1.
Proof.
  intros Hj Hp Hl Hinv. unfold add. destruct (handle_lock_inv r j s Hj Hp Hl Hinv) as (H1 & H2 & j' & H3 & H4 & _).
  destruct (handle_lock r s) as [s1 [[]|e]]; simpl in *; [|done].
  assert (inv (enqueue r s1)) as He by by eapply enqueue_inv.
  destruct (_ ≫= _) as [size|]; [|done]. destruct (size =? 0)%Z.
  - by destruct (running_same_lock s1 r).
  - destruct (size <=? _)%Z; [|done]. destruct (List.find _ _) as [q|]; [|done].
    simpl. eapply inv_frame; [apply frame_merge|done].
Qed.

Lemma new_Job_fresh c m j : new_Job c m = Ok j ->
  j_pc j = PDiscarded /\ j_id j = None /\ j_state j = WAITING /\ s_finished (j_sched j) = false /\ j_lock j = None /\ j_call j = c.
Proof.
  unfold new_Job. intros H%result_bind_ok. destruct H as (? & _ & [= <-]). done.
Qed.

Lemma call_job_inv c m s : inv s -> inv (call_job c m s).1.
Proof.
  intros Hinv. unfold call_job. destruct (new_Job c m) as [j|] eqn:Hj; [|done].
  apply new_Job_fresh in Hj as (H1 & H2 & H3 & H4 & H5 & _).
  apply (add_inv _ j); [|done..|by apply inv_alloc]. simpl. by rewrite lookup_insert_eq.
Qed.

Lemma deque_receive_inv c x d logs s : inv s -> inv (deque_receive c x d logs s).1.
Proof.
  intros [Hs Hd]. unfold deque_receive, get_next_id.
  assert (inv (set_count (count s + 1)%Z s)) as Hn.
  { split; [by apply (sinv_ext s)|]. destruct Hd as [D1 D2 D3 D4 D5 D6 D7]. split; try done; simpl; [lia|].
    intros r c0 i H0 H1. pose proof (D4 r c0 i H0 H1). simpl. lia. }
  destruct (new_Job _ None) as [j0|]; [|done]. destruct (State_member x) as [y|]; [|done]. cbv zeta. simpl fst.
  set (j := on_data _ _). set (s1 := match logs with Some _ => _ | None => _ end).
  assert (inv s1 /\ nref s1 = nref s /\ count s1 = (count s + 1)%Z /\ dict s1 = dict s) as (Hs1 & E1 & E2 & E3).
  { unfold s1. destruct logs; [|done]. split; [|done]. eapply inv_frame; [apply frame_files|done]. }
  assert (forall r, core_of s1 r = core_of s r) as Hcore by (intros r; unfold s1; by destruct logs).
  change (nref (set_count (count s + 1)%Z s)) with (nref s). rewrite <-E1.
  set (i := (count s + 1)%Z) in *. assert (core_of_job j = mkCore (Some i) None y false PReceived (j_call j) (j_out j)) as Hcj by done.
  assert (core_of s (nref s) = None) as Hnone by by apply (si_fresh s Hs).
  pose proof (di_count s Hd) as Hcnt.
  split.
  - apply (sinv_new (core_of_job j) s1); try done; [|by apply Hs1].
    intros r. change (core_of (set_dict ?x ?y) r) with (core_of y r). by rewrite core_of_insert.
  - assert (forall r, core_of (set_dict (Dict.set i (nref s1) (dict s1)) (set_nref (S (nref s1))
      (set_jobs (<[nref s1 := j]> (jobs s1)) s1))) r = if decide (r = nref s) then Some (core_of_job j) else core_of s r) as Hc.
    { intros r. change (core_of (set_dict ?x ?y) r) with (core_of y r). rewrite core_of_insert, E1. by rewrite Hcore. }
    rewrite Hcj in Hc. split; simpl; rewrite ?E1, ?E2, ?E3.
    + unfold i. lia.
    + apply Dict.wf_set, Hd.
    + intros i0 r. rewrite E1, E3 in Hc. rewrite Hc. destruct (decide (i0 = i)) as [->|Hne].
      * rewrite Dict.get_set_eq. intros [= <-]. rewrite decide_True by done. by eexists.
      * rewrite Dict.get_set_ne by done. intros Hg. destruct (di_dict s Hd i0 r Hg) as (c0 & ? & ?).
        rewrite decide_False by congruence. by eexists.
    + intros r c0 i0. rewrite E1, E3 in Hc. rewrite Hc. destruct (decide _); [intros [= <-] [= <-]; unfold i; lia|].
      intros H0 H1. pose proof (di_ids s Hd r c0 i0 H0 H1). unfold i. lia.
    + intros r1 r2 c1 c2 i0. rewrite E1, E3 in Hc. rewrite !Hc.
      destruct (decide (r1 = nref s)) as [->|], (decide (r2 = nref s)) as [->|]; try done.
      * intros [= <-] H2 [= <-] Hi2. pose proof (di_ids s Hd _ _ _ H2 Hi2). unfold i in *. lia.
      * intros H1 [= <-] Hi1 [= <-]. pose proof (di_ids s Hd _ _ _ H1 Hi1). unfold i in *. lia.
      * by apply (di_inj s Hd).
    + intros r c0. rewrite E1, E3 in Hc. rewrite Hc. destruct (decide _); [by intros [= <-]|apply (di_given s Hd)].
    + intros r c0 i0. rewrite E1, E3 in Hc. rewrite Hc. destruct (decide _) as [->|].
      * intros [= <-] [= <-] _. by rewrite Dict.get_set_eq.
      * intros H0 Hi0 Hf0. pose proof (di_ids s Hd _ _ _ H0 Hi0).
        rewrite Dict.get_set_ne by (unfold i; lia). by apply (di_kept s Hd r c0).
Qed.

Lemma at_pc_inv s r p k s' : at_pc s r p k = Some s' -> exists c, core_of s r = Some c /\ c_pc c = p /\ s' = k.
Proof.
  unfold at_pc. case_bool_decide as Hp; [|done]. intros [= <-]. rewrite pc_of_core in Hp.
  destruct (core_of s r) as [c|]; [|done]. simpl in Hp. injection Hp as Hp. by exists c.
Qed.

Lemma inv_state_waiting s r c : inv s -> core_of s r = Some c ->
  match c_pc c with PQueued | PScheduled | PLogging => c_state c = WAITING | PBody => c_state c = RUNNING | _ => True end.
Proof.
  intros [Hs _] Hc. pose proof (si_state s Hs r c Hc) as Hst.
  destruct (c_pc c); try done; simpl in Hst; by apply bool_decide_eq_true in Hst.
Qed.

Lemma exec_inv l s s' : exec l s = Some s' -> inv s -> inv s'.
Proof.
  intros Hex Hinv. destruct l; simpl in Hex.
  - injection Hex as <-. by apply call_job_inv.
  - injection Hex as <-. eapply inv_frame; [apply frame_apps|done].
  - destruct (next s) as [[s1 [r|]]|] eqn:Hn; [| |done]; simpl in Hex; injection Hex as <-; destruct Hinv as [Hs Hd].
    + apply next_picked in Hn. split; [by eapply sinv_picked|by eapply dinv_picked].
    + apply next_none in Hn as [Hno ->]. split.
      * destruct Hs. split; try done. intros r Hr Hrun.
        rewrite (runnable_ext s) in Hrun by done. simpl in Hr. by rewrite (Hno r Hr) in Hrun.
      * destruct Hd. by split.
  - apply at_pc_inv in Hex as (c & Hc & Hp & ->). pose proof (inv_state_waiting s r c Hinv Hc) as Hw. rewrite Hp in Hw.
    eapply inv_advances; [done|by rewrite Hp|by apply run_begin_advances|done].
  - apply at_pc_inv in Hex as (c & Hc & Hp & ->). pose proof (inv_state_waiting s r c Hinv Hc) as Hw. rewrite Hp in Hw.
    eapply inv_advances; [done|by rewrite Hp|by apply run_logging_advances|done].
  - apply at_pc_inv in Hex as (c & Hc & Hp & ->). pose proof (inv_state_waiting s r c Hinv Hc) as Hw. rewrite Hp in Hw.
    eapply inv_advances; [done|by rewrite Hp|by apply run_body_advances|done].
  - apply at_pc_inv in Hex as (c & Hc & Hp & ->). destruct Hinv as [Hs Hd].
    destruct (closing_raises o r s) eqn:Er.
    { eapply inv_advances; [done|by rewrite Hp|by apply run_close_unclosed|done]. }
    pose proof (run_close_closed o r c s Er Hs Hc Hp) as Hcl. split; [by eapply sinv_closed|].
    destruct Hcl as (p & s1 & Hpp & _ & Hcore & _ & _ & _ & _ & _ & Hn & _ & Hdict).
    pose proof (si_state s Hs r c Hc) as Hst. rewrite Hp in Hst.
    eapply (dinv_finished r c _ s); [done|done|by rewrite Hp| | | |exact Hcore|done..]; try done.
    by destruct Hpp as [-> | ->].
  - apply at_pc_inv in Hex as (c & Hc & Hp & ->). destruct Hinv as [Hs Hd]. split; [by eapply sinv_finish|].
    destruct (run_finish_spec r c s Hc) as (G0 & _ & _ & _ & _ & _ & G6 & _ & G8).
    pose proof (si_state s Hs r c Hc) as Hst. rewrite Hp in Hst.
    eapply (dinv_finished r c _ s); [done|done|by rewrite Hp| | | |exact G0|done..]; done.
  - injection Hex as <-. eapply inv_frame; [apply frame_abort|done].
  - injection Hex as <-. eapply inv_frame; [apply frame_progress|done].
  - injection Hex as <-. eapply inv_frame; [apply frame_description|done].
  - injection Hex as <-. eapply inv_frame; [apply frame_wrap|done].
  - injection Hex as <-. eapply inv_frame; [|exact Hinv]. apply frame_data.
    intros d. simpl. by destruct (d_on_finish_cb_called d).
  - injection Hex as <-. eapply inv_frame; [apply frame_write|done].
  - injection Hex as <-. by apply deque_receive_inv.
Qed.

Lemma inv_init n : inv (init n : st C).
Proof.
  assert (forall r, core_of (C:=C) (init n) r = None) as Hc by (intros r; unfold core_of; simpl; by rewrite lookup_empty).
  split; split; intros; simpl in *; rewrite ?Hc in *; try done; try by constructor.
  - split; [set_solver|done].
  - set_solver.
Qed.

Definition reachable_from (n : Z) : st C -> Prop := reachable (fun s => s = init n) step.

Lemma reachable_inv n s : reachable_from n s -> inv s.
Proof.
  apply reachable_invariant; [intros ? ->; apply inv_init|]. intros s1 s2 H1 [l Hl]. by eapply exec_inv.
Qed.

End inv.
