(* ===== verification/JobEvol.v ===== *)
(** * Jobs: what a step may change (of JobModel.v)

    How a job evolves from one step to the next: its state follows the automaton
    of [set_state], a finished job is frozen, ids and locks are kept; and the
    lock of a live job carries the name its options ask for. *)

From S2P Require Import Prelude PyDict PyStr PyVal Errors JobModel JobProofs JobInv.

Section evol.
Context {C : Type} `{JC : !JobCredential C} `{JE : !JobEnv}.
Implicit Types (s : st C) (r : nat).

Record ev (c c' : core) : Prop := {
  ev_call : c_call c' = c_call c;
  ev_id : forall i, c_id c = Some i -> c_id c' = Some i;
  ev_lock : c_lock c' = c_lock c;
  ev_state : allowed (c_state c) (c_state c') = true;
  ev_frozen : finished_state (c_state c) = true -> c_state c' = c_state c /\ c_out c' = c_out c;
  ev_finished : c_finished c = true -> c_finished c' = true;
  ev_live : live (c_pc c') = true -> live (c_pc c) = true;
  ev_crashed : stuck (c_pc c) = true -> c_pc c' = c_pc c;
}.

Definition evolves (s s' : st C) : Prop :=
  forall r c, core_of s r = Some c -> exists c', core_of s' r = Some c' /\ ev c c'.

Definition names_kept (s s' : st C) : Prop :=
  forall l lk, locks s !! l = Some lk -> exists lk', locks s' !! l = Some lk' /\ l_name lk' = l_name lk.

Lemma ev_refl c : ev c c.
Proof. split; try done. by destruct (c_state c). Qed.

#[local] Hint Resolve ev_refl : jobs.

Lemma evolves_ext s s' : (forall r c, core_of s r = Some c -> core_of s' r = Some c) -> evolves s s'.
Proof. intros Hc r c Hr. exists c. split; [auto|apply ev_refl]. Qed.

(** One job moves. *)
Lemma evolves_one r c c' s s' :
  core_of s r = Some c -> ev c c' ->
  (forall r', core_of s' r' = if decide (r' = r) then Some c' else core_of s r') -> evolves s s'.
Proof.
  intros Hc Hev Hcore r0 c0 H0. rewrite Hcore. destruct (decide (r0 = r)) as [->|].
  - rewrite Hc in H0. injection H0 as <-. eauto.
  - exists c0. split; [done|apply ev_refl].
Qed.

Lemma names_eq s s' : locks s' = locks s -> names_kept s s'.
Proof. intros Hl l lk Hlk. rewrite Hl. eauto. Qed.

Lemma names_insert s s' l lk lk' :
  locks s !! l = Some lk -> l_name lk' = l_name lk -> locks s' = <[l := lk']> (locks s) -> names_kept s s'.
Proof.
  intros Hl Hn Hs l0 lk0 H0. rewrite Hs. destruct (decide (l0 = l)) as [->|].
  - rewrite lookup_insert_eq. exists lk'. split; [done|]. congruence.
  - rewrite lookup_insert_ne by done. eauto.
Qed.

Lemma names_alter s s' f l :
  (forall lk, l_name (f lk) = l_name lk) -> locks s' = alter f l (locks s) -> names_kept s s'.
Proof.
  intros Hf Hs l0 lk0 H0. rewrite Hs. destruct (decide (l0 = l)) as [->|].
  - rewrite lookup_alter_eq, H0. simpl. eauto.
  - rewrite lookup_alter_ne by done. eauto.
Qed.

(** ** A call creates one job and leaves the others alone *)

Definition lock_matches (s : st C) (c : core) : Prop :=
  match get_lock_name (c_call c) with
  | Ok (Some n) => exists l lk, c_lock c = Some l /\ locks s !! l = Some lk /\ l_name lk = n
  | Ok None => c_lock c = None
  | Err _ => False
  end.

Lemma join_lock_names name r s :
  sinv s -> names_kept s (join_lock name r s) /\
  (is_Some (jobs s !! r) -> exists l lk, lock_of (join_lock name r s) r = Some l /\
     locks (join_lock name r s) !! l = Some lk /\ l_name lk = name).
Proof.
  intros Hs. unfold join_lock. destruct (Dict.get name (job_locks s)) as [l|] eqn:Hg.
  - destruct (si_names s Hs _ _ Hg) as (lk & Hl & Hn). split; [by apply (names_alter s _ (add_job r) l)|].
    intros [j Hj]. exists l, (add_job r lk). unfold lock_of. simpl. by rewrite lookup_alter_eq, Hj, lookup_alter_eq, Hl.
  - split.
    + intros l0 lk0 H0. simpl. rewrite lookup_alter_ne.
      * rewrite lookup_insert_ne; [by eauto|]. intros <-. destruct (si_fresh s Hs (nref s)); [done|congruence].
      * intros <-. destruct (si_fresh s Hs (nref s)); [done|congruence].
    + intros [j Hj]. exists (nref s), (add_job r (mkLock name ∅ false)). unfold lock_of. simpl.
      by rewrite lookup_alter_eq, Hj, lookup_alter_eq, lookup_insert_eq.
Qed.

(** The result of [call_job]: a new job, queued or not, with the lock it asked
    for; every other job and lock name as before. *)
Lemma call_job_spec c m s : inv s ->
  let s' := (call_job c m s).1 in
  (forall r, r ≠ nref s -> core_of s' r = core_of s r) /\ names_kept s s' /\
  (forall c', core_of s' (nref s) = Some c' -> live (c_pc c') = true -> lock_matches s' c').
Proof.
  intros Hinv. cbv zeta. unfold call_job. destruct (new_Job c m) as [j|] eqn:Hj.
  2:{ simpl. split_and!; [done|by apply names_eq|]. intros c' Hc'. destruct (si_fresh s (proj1 Hinv) (nref s)); [done|congruence]. }
  apply new_Job_fresh in Hj as (Hp & Hid & Hst & Hfin & Hl & Hcall).
  set (s0 := set_nref _ _). assert (inv s0) as H0 by by apply inv_alloc.
  assert (jobs s0 !! nref s = Some j) as Hj0 by apply lookup_insert_eq.
  assert (forall r, r ≠ nref s -> core_of s0 r = core_of s r) as Hother.
  { intros r Hr. unfold s0. by rewrite core_of_insert, decide_False. }
  set (r := nref s) in *. unfold add.
  destruct (handle_lock_inv r j s0 Hj0 Hp Hl H0) as (H1 & H2 & j1 & Hj1 & Hp1 & Hc1).
  assert (let s1 := (handle_lock r s0).1 in (forall r', r' ≠ r -> core_of s1 r' = core_of s r') /\ names_kept s s1 /\
    ((handle_lock r s0).2 = Ok tt -> lock_matches s1 (core_of_job j1))) as (K1 & K2 & K3).
  { clear H1 H2. unfold handle_lock in *. rewrite Hj0 in *.
    destruct (get_lock_name (j_call j)) as [[n|]|e] eqn:Hg; simpl in *.
    - destruct (join_lock_core n r j s0 Hj0) as (l & Hcore & _).
      destruct (join_lock_names n r s0 (proj1 H0)) as [Hn Hlk].
      split_and!; [intros r' Hr'; rewrite Hcore, decide_False by done; by apply Hother|done|].
      intros _. unfold lock_matches. simpl. rewrite Hc1, Hg. destruct Hlk as (l' & lk & Hl' & Hlk & Hname); [by eauto|].
      exists l', lk. split_and!; try done. rewrite lock_of_core in Hl'. unfold core_of in Hl'. by rewrite Hj1 in Hl'.
    - split_and!; [done|by apply names_eq|]. intros _. unfold lock_matches. simpl. rewrite Hc1, Hg.
      rewrite Hj0 in Hj1. by simplify_eq.
    - split_and!; [done|by apply names_eq|done]. }
  destruct (handle_lock r s0) as [s1 [[]|e]]; simpl in *.
  2:{ split_and!; [done..|]. intros c' Hc'. unfold core_of in Hc'. rewrite Hj1 in Hc'. injection Hc' as <-. simpl.
      unfold j_pc in Hp1. by rewrite Hp1. }
  assert (forall k, (k, r) ∉ dict s1) as Hnot.
  { intros k Hk. destruct H1 as [_ Hd]. destruct (di_dict s1 Hd k r) as (c0 & Hc0 & Hi0);
      [apply Dict.elem_get; [apply Hd|done]|].
    assert (core_of s1 r = Some (core_of_job j1)) as Hcr by (unfold core_of; by rewrite Hj1).
    assert (c_id (core_of_job j1) = None) by by apply (di_given s1 Hd r). congruence. }
  assert ((forall r', r' ≠ r -> core_of (enqueue r s1) r' = core_of s r') /\ names_kept s (enqueue r s1) /\
    (forall c', core_of (enqueue r s1) r = Some c' -> live (c_pc c') = true -> lock_matches (enqueue r s1) c')) as Henq.
  { destruct (enqueue_spec r j1 s1 Hj1 Hnot) as (Hcore & Hlocks & _).
    split_and!; [intros r' Hr'; rewrite Hcore, decide_False by done; by apply K1| |].
    - intros l lk Hlk. rewrite Hlocks. by apply K2.
    - intros c'. rewrite Hcore, decide_True by done. intros [= <-] _. specialize (K3 eq_refl).
      unfold lock_matches in *. simpl in *. by rewrite Hlocks. }
  assert (forall s2, frame s1 s2 -> (forall r', r' ≠ r -> core_of s2 r' = core_of s r') /\ names_kept s s2 /\
    (forall c', core_of s2 r = Some c' -> live (c_pc c') = true -> lock_matches s2 c')) as Hrest.
  { intros s2 [[F1 _ _ _ _ _ _ _] Hf]. split_and!.
    - intros r' Hr'. rewrite Hf. by apply K1.
    - intros l lk Hlk. rewrite F1. by apply K2.
    - intros c'. rewrite Hf. unfold core_of. rewrite Hj1. intros [= <-]. simpl. unfold j_pc in Hp1. by rewrite Hp1. }
  destruct (_ ≫= _) as [size|]; [|exact Henq]. destruct (size =? 0)%Z.
  - destruct (running_same_lock s1 r); [by apply Hrest|exact Henq].
  - destruct (size <=? _)%Z; [|exact Henq]. destruct (List.find _ _) as [q|]; apply Hrest; [apply frame_merge|done].
Qed.

Lemma evolves_frame s s' : frame s s' -> evolves s s' /\ names_kept s s'.
Proof. intros [[F1 _ _ _ _ _ _ _] Hf]. split; [|by apply names_eq]. apply evolves_ext. intros r c. by rewrite Hf. Qed.

Lemma evolves_advances ps r c s s' :
  core_of s r = Some c -> holding (c_pc c) = true -> stuck (c_pc c) = false -> finished_state (c_state c) = false ->
  advances ps r c s s' -> evolves s s' /\ names_kept s s'.
Proof.
  intros Hc Hh Hnc Hfin (c' & [[F1 _ _ _ _ _ _ _] Hm] & Hid & Hl & Hf & Hcall & Hh' & _ & Ha & _). split; [|by apply names_eq].
  apply (evolves_one r c c'); [done| |done]. split; try done.
  - intros i. congruence.
  - congruence.
  - congruence.
  - intros _. by destruct (c_pc c).
  - congruence.
Qed.

Lemma ev_same c c' :
  c_call c' = c_call c -> c_id c' = c_id c -> c_lock c' = c_lock c -> c_state c' = c_state c -> c_out c' = c_out c ->
  (c_finished c = true -> c_finished c' = true) -> (live (c_pc c') = true -> live (c_pc c) = true) -> stuck (c_pc c) = false -> ev c c'.
Proof.
  intros H1 H2 H3 H4 H5 H6 H7 H8. split; try done; [congruence|rewrite H4; by destruct (c_state c)|congruence].
Qed.

Lemma exec_evolves l s s' : inv s -> exec l s = Some s' -> evolves s s' /\ names_kept s s'.
Proof.
  intros Hinv Hex. destruct l; simpl in Hex.
  - injection Hex as <-. destruct (call_job_spec c message_id s Hinv) as (H1 & H2 & _). split; [|done].
    apply evolves_ext. intros r c0 Hr. rewrite H1; [done|]. intros ->.
    destruct (si_fresh s (proj1 Hinv) (nref s)); [done|congruence].
  - injection Hex as <-. apply evolves_frame, frame_apps.
  - destruct (next s) as [[s1 [r|]]|] eqn:Hn; [| |done]; simpl in Hex; injection Hex as <-.
    + apply next_picked in Hn as (_ & Hf & Hc & Hl & _). apply find_some in Hf as [Hin%list_elem_of_In _].
      apply (si_queue s (proj1 Hinv)) in Hin. destruct (core_of s r) as [c|] eqn:Hcr; [|done].
      simpl in Hin. injection Hin as Hin. split.
      * eapply (evolves_one r c); [done| |exact Hc]. apply ev_same; try done; simpl; by rewrite Hin.
      * destruct (lock_of s r) as [l|]; [by apply (names_alter s s1 acquire l)|by apply names_eq].
    + apply next_none in Hn as [_ ->]. split; [by apply evolves_ext|by apply names_eq].
  - apply at_pc_inv in Hex as (c & Hc & Hp & ->). pose proof (inv_state_waiting s r c Hinv Hc) as Hw. rewrite Hp in Hw.
    eapply evolves_advances; [done|by rewrite Hp|by rewrite Hp|by rewrite Hw|by apply run_begin_advances].
  - apply at_pc_inv in Hex as (c & Hc & Hp & ->). pose proof (inv_state_waiting s r c Hinv Hc) as Hw. rewrite Hp in Hw.
    eapply evolves_advances; [done|by rewrite Hp|by rewrite Hp|by rewrite Hw|by apply run_logging_advances].
  - apply at_pc_inv in Hex as (c & Hc & Hp & ->). pose proof (inv_state_waiting s r c Hinv Hc) as Hw. rewrite Hp in Hw.
    eapply evolves_advances; [done|by rewrite Hp|by rewrite Hp|by rewrite Hw|by apply run_body_advances].
  - apply at_pc_inv in Hex as (c & Hc & Hp & ->).
    destruct (closing_raises o r s) eqn:Er.
    { destruct (run_close_raises o r c s Hc Er) as [[F1 _ _ _ _ _ _ _] Hm]. split; [|by apply names_eq].
      eapply (evolves_one r c); [done| |exact Hm]. apply ev_same; simpl; try done; by rewrite Hp. }
    destruct (run_close_closed o r c s Er (proj1 Hinv) Hc Hp) as (p & s1 & Hpp & Hrel & Hcore & Hlocks & _). split.
    + eapply (evolves_one r c); [done| |exact Hcore]. apply ev_same; try done; simpl; [by destruct Hpp as [-> | ->]|by rewrite Hp].
    + destruct Hrel as (_ & _ & _ & _ & _ & _ & Hrel). destruct (c_lock c) as [l|].
      * destruct Hrel as (lk & Hlk & _ & Hl & _). rewrite <-Hlocks in Hl. by eapply (names_insert s _ l lk _ Hlk); [|exact Hl].
      * destruct Hrel as (Hl & _). apply names_eq. congruence.
  - apply at_pc_inv in Hex as (c & Hc & Hp & ->). destruct (run_finish_spec r c s Hc) as (G0 & G1 & _).
    split; [|by apply names_eq]. eapply (evolves_one r c); [done| |exact G0]. apply ev_same; try done. by rewrite Hp.
  - injection Hex as <-. apply evolves_frame, frame_abort.
  - injection Hex as <-. apply evolves_frame, frame_progress.
  - injection Hex as <-. apply evolves_frame, frame_description.
  - injection Hex as <-. apply evolves_frame, frame_wrap.
  - injection Hex as <-. apply evolves_frame, frame_data. intros d. simpl. by destruct (d_on_finish_cb_called d).
  - injection Hex as <-. apply evolves_frame, frame_write.
  - injection Hex as <-. unfold deque_receive, get_next_id.
    destruct (new_Job _ None) as [j0|]; [destruct (State_member state_name) as [y|]|].
    + split; [|by apply names_eq; destruct logs]. apply evolves_ext. intros r0 c0 H0. cbv zeta. simpl fst.
      change (core_of (set_dict ?x ?y) r0) with (core_of y r0). destruct logs; rewrite core_of_insert, decide_False;
        try done; simpl; intros ->; destruct (si_fresh s (proj1 Hinv) (nref s)); [done|congruence|done|congruence].
    + split; [by apply evolves_ext|by apply names_eq].
    + split; [by apply evolves_ext|by apply names_eq].
Qed.

(** ** Whole executions *)

Definition state_rank (x : State) : nat := match x with WAITING => 0 | RUNNING => 1 | _ => 2 end.

Record later (c c' : core) : Prop := {
  lt_call : c_call c' = c_call c;
  lt_id : forall i, c_id c = Some i -> c_id c' = Some i;
  lt_lock : c_lock c' = c_lock c;
  lt_state : state_rank (c_state c) <= state_rank (c_state c');
  lt_frozen : finished_state (c_state c) = true -> c_state c' = c_state c /\ c_out c' = c_out c;
  lt_finished : c_finished c = true -> c_finished c' = true;
  lt_crashed : stuck (c_pc c) = true -> c_pc c' = c_pc c;
}.

#[global] Instance later_preorder : PreOrder later.
Proof.
  split; [by intros c; split|]. intros c1 c2 c3 [A1 A2 A3 A4 A5 A6 A7] [B1 B2 B3 B4 B5 B6 B7].
  split; try congruence; auto; [lia| |].
  - intros Hf. destruct (A5 Hf) as [E1 E2]. destruct B5 as [E3 E4]; [by rewrite E1|]. split; congruence.
  - intros Hs. rewrite <-A7 by done. apply B7. by rewrite A7.
Qed.

Lemma ev_later c c' : ev c c' -> later c c'.
Proof.
  intros [A1 A2 A3 A4 A5 A6 A7 A8]. split; try done. destruct (c_state c), (c_state c'); simpl in *; try lia; done.
Qed.

Lemma rtc_later s s' r c : inv s -> rtc step s s' -> core_of s r = Some c ->
  exists c', core_of s' r = Some c' /\ later c c'.
Proof.
  intros Hinv Hsteps. revert c Hinv. induction Hsteps as [s|s s1 s' [l Hl] _ IH]; intros c Hinv Hc; [by exists c|].
  destruct (exec_evolves l s s1 Hinv Hl) as [Hev _]. destruct (Hev r c Hc) as (c1 & Hc1 & He).
  destruct (IH c1) as (c' & Hc' & Hlt); [by eapply exec_inv|done|]. exists c'. split; [done|].
  etrans; [by apply ev_later|done].
Qed.

Lemma steps_inv s s' : inv s -> rtc step s s' -> inv s'.
Proof. intros Hi Hst. induction Hst as [|? ? ? [l Hl]]; [done|]. apply IHHst. by eapply exec_inv. Qed.

(** ** Live jobs have the lock their options ask for *)

Definition ninv (s : st C) : Prop := forall r c, core_of s r = Some c -> live (c_pc c) = true -> lock_matches s c.

Lemma lock_matches_ev s s' c c' : names_kept s s' -> ev c c' -> lock_matches s c -> lock_matches s' c'.
Proof.
  intros Hn [Hcall _ Hl _ _ _ _ _]. unfold lock_matches. rewrite Hcall, Hl.
  destruct (get_lock_name (c_call c)) as [[n|]|]; try done. intros (l & lk & H1 & H2 & H3).
  destruct (Hn l lk H2) as (lk' & H4 & H5). exists l, lk'. split_and!; congruence.
Qed.

(** Jobs that did not exist before a step come from a call or another
    controller; the latter are not live. *)
Lemma exec_new l s s' r c' : inv s -> exec l s = Some s' -> core_of s r = None -> core_of s' r = Some c' ->
  live (c_pc c') = true -> lock_matches s' c'.
Proof.
  intros Hinv Hex Hnone Hc' Hlive. pose proof (exec_inv l s s' Hex Hinv) as Hinv'. destruct l; simpl in Hex.
  1: { injection Hex as <-. destruct (call_job_spec c message_id s Hinv) as (H1 & _ & H3).
       destruct (decide (r = nref s)) as [->|Hne]; [by apply H3|]. rewrite H1 in Hc' by done. congruence. }
  all: exfalso.
  - injection Hex as <-. change (core_of s r = Some c') in Hc'. congruence.
  - destruct (next s) as [[s1 [r0|]]|] eqn:Hn; [| |done]; simpl in Hex; injection Hex as <-.
    + apply next_picked in Hn as (_ & _ & Hc & _). rewrite Hc in Hc'. destruct (decide _) as [->|]; [|congruence].
      by rewrite Hnone in Hc'.
    + apply next_none in Hn as [_ ->]. change (core_of s r = Some c') in Hc'. congruence.
  - apply at_pc_inv in Hex as (c & Hc & Hp & ->). pose proof (inv_state_waiting s r0 c Hinv Hc) as Hw. rewrite Hp in Hw.
    destruct (run_begin_advances now r0 c s Hc Hw) as (c1 & [_ Hm] & _). rewrite Hm in Hc'.
    destruct (decide _); congruence.
  - apply at_pc_inv in Hex as (c & Hc & Hp & ->). pose proof (inv_state_waiting s r0 c Hinv Hc) as Hw. rewrite Hp in Hw.
    destruct (run_logging_advances ok now r0 c s Hc Hw) as (c1 & [_ Hm] & _). rewrite Hm in Hc'.
    destruct (decide _); congruence.
  - apply at_pc_inv in Hex as (c & Hc & Hp & ->). pose proof (inv_state_waiting s r0 c Hinv Hc) as Hw. rewrite Hp in Hw.
    destruct (run_body_advances o now r0 c s Hc Hw) as (c1 & [_ Hm] & _). rewrite Hm in Hc'.
    destruct (decide _); congruence.
  - apply at_pc_inv in Hex as (c & Hc & Hp & ->).
    destruct (closing_raises o r0 s) eqn:Er.
    { rewrite (proj2 (run_close_raises o r0 c s Hc Er)) in Hc'. destruct (decide _); congruence. }
    destruct (run_close_closed o r0 c s Er (proj1 Hinv) Hc Hp) as (p & s1 & _ & _ & Hcore & _). rewrite Hcore in Hc'.
    destruct (decide _); congruence.
  - apply at_pc_inv in Hex as (c & Hc & Hp & ->). destruct (run_finish_spec r0 c s Hc) as (G0 & _). rewrite G0 in Hc'.
    destruct (decide _); congruence.
  - injection Hex as <-. rewrite (proj2 (frame_abort r0 s)) in Hc'. congruence.
  - injection Hex as <-. rewrite (proj2 (frame_progress recursion_limit pct descr ex r0 s)) in Hc'. congruence.
  - injection Hex as <-. rewrite (proj2 (frame_description descr r0 s)) in Hc'. congruence.
  - injection Hex as <-. rewrite (proj2 (frame_wrap r0 sub s)) in Hc'. congruence.
  - injection Hex as <-. unfold set_on_finish_cb in Hc'. rewrite upd_job_core in Hc'.
    destruct (decide _) as [->|]; [|congruence]. unfold core_of in Hnone. by destruct (jobs s !! r0).
  - injection Hex as <-. rewrite (proj2 (frame_write data r0 s)) in Hc'. congruence.
  - injection Hex as <-. unfold deque_receive, get_next_id in Hc'.
    destruct (new_Job _ None) as [j0|]; [destruct (State_member state_name) as [y|]|].
    + cbv zeta in Hc'. simpl fst in Hc'. change (core_of (set_dict ?x ?y) r) with (core_of y r) in Hc'.
      rewrite core_of_insert in Hc'. destruct (decide _); [injection Hc' as <-; done|].
      destruct logs; change (core_of s r = Some c') in Hc'; congruence.
    + change (core_of s r = Some c') in Hc'. congruence.
    + change (core_of s r = Some c') in Hc'. congruence.
Qed.

Lemma exec_ninv l s s' : inv s -> exec l s = Some s' -> ninv s -> ninv s'.
Proof.
  intros Hinv Hex Hn r c' Hc' Hlive. destruct (exec_evolves l s s' Hinv Hex) as [Hev Hnames].
  destruct (core_of s r) as [c|] eqn:Hc; [|by eapply exec_new].
  destruct (Hev r c Hc) as (c2 & Hc2 & He). assert (c2 = c') as -> by congruence.
  eapply lock_matches_ev; [done..|]. apply (Hn r c Hc). by apply He.
Qed.

Lemma reachable_ninv n s : reachable_from n s -> ninv s.
Proof.
  intros Hr. enough (inv s /\ ninv s) by tauto. revert s Hr. apply reachable_invariant.
  - intros ? ->. split; [apply inv_init|]. intros r c Hc. unfold core_of in Hc. simpl in Hc. by rewrite lookup_empty in Hc.
  - intros s s' [H1 H2] [l Hl]. split; [by eapply exec_inv|by eapply exec_ninv].
Qed.

End evol.
