(* ===== verification/JobProps.v ===== *)
(** * Jobs: properties (of JobModel.v) *)

From Stdlib Require Import Ascii.
From stdpp Require Import relations.
From S2P Require Import Prelude PyDict PyStr PyVal Errors JobModel JobProofs JobInv JobEvol.

(** ** A concrete instance, for evaluation *)

Module Demo.
(** A session: user name, full administrator, roles. *)
Record cred := mkCred { name : string; admin : bool; cred_roles : list string }.

#[export] Instance cred_job : JobCredential cred := {|
  jc_is_user_session := fun _ => true;
  jc_username := fun c => Some (name c);
  jc_full_admin := admin;
  jc_has_role := fun c r => bool_decide (r ∈ cred_roles c);
  jc_class_name := fun _ => "LOGIN_PASSWORD";
  jc_dump := fun c => JDict [("username", JStr (name c))];
|}.

#[export] Instance env : JobEnv := {|
  dump_args := fun _ a => a;
  dump_result := fun _ v => Ok v;
  join_commandline := Str.join " ";
  exn_str := fun _ => "error";
  exn_repr := fun _ => "error";
  format_exception := fun _ => "error";
  recursion_limit := 100;
|}.

Definition call (method : string) (lock : option string) (size : option Z) (logs : bool) (app : option nat) : job_call :=
  mkCall method true [] (mkOptions (LockConst <$> lock) size logs [] true false None false []) (mkPipes false false)
    false false app 0.

Fixpoint run (ls : list (label (C := cred))) (s : st cred) : option (st cred) :=
  match ls with
  | [] => Some s
  | l :: ls => match exec l s with Some s' => run ls s' | None => None end
  end.

Lemma run_reachable n ls s s' : reachable_from n s -> run ls s = Some s' -> reachable_from n s'.
Proof.
  revert s. induction ls as [|l ls IH]; intros s Hr; simpl; [by intros [= <-]|].
  destruct (exec l s) as [s1|] eqn:He; [|done]. apply IH. econstructor; [done|by exists l].
Qed.

Lemma run_reachable_init n ls s' : run ls (init n) = Some s' -> reachable_from n s'.
Proof. apply run_reachable. by constructor. Qed.

Definition demo (ls : list (label (C := cred))) : st cred := default (init 1000) (run ls (init 1000)).

Lemma demo_reachable ls : is_Some (run ls (init 1000)) -> reachable_from 1000 (demo ls).
Proof. intros [s Hs]. unfold demo. rewrite Hs. by eapply run_reachable_init. Qed.
End Demo.

Section props.
Context {C : Type} `{JC : !JobCredential C} `{JE : !JobEnv}.
Implicit Types (s : st C) (r : nat).

Lemma job_core s r j : jobs s !! r = Some j -> core_of s r = Some (core_of_job j).
Proof. intros Hj. unfold core_of. by rewrite Hj. Qed.

(** ** Locks *)

(** C1: one job per lock name.  In every reachable state, while a job holds the
    lock its options name (from the scheduler picking it until [finally]
    releases it), every other live job whose options name the same lock is
    waiting in the queue and cannot be picked. *)
Theorem jobs_mutual_exclusion (n : Z) (s : st C) (r1 r2 : nat) (j1 j2 : job) (name : string)
  (Hreach : reachable_from n s) (H1 : jobs s !! r1 = Some j1) (H2 : jobs s !! r2 = Some j2) (Hne : r1 ≠ r2)
  (Hhold : holding (j_pc j1) = true) (Hlive : live (j_pc j2) = true)
  (Hn1 : get_lock_name (j_call j1) = Ok (Some name)) (Hn2 : get_lock_name (j_call j2) = Ok (Some name)) :
  j_pc j2 = PQueued /\ runnable s r2 = false.
Proof.
  pose proof (reachable_ninv n s Hreach) as Hninv. destruct (reachable_inv n s Hreach) as [Hs _].
  pose proof (job_core s r1 j1 H1) as Hc1. pose proof (job_core s r2 j2 H2) as Hc2.
  assert (live (j_pc j1) = true) as Hlive1 by by destruct (j_pc j1).
  pose proof (Hninv r1 _ Hc1 Hlive1) as M1. pose proof (Hninv r2 _ Hc2 Hlive) as M2.
  unfold lock_matches in M1, M2. simpl in M1, M2. rewrite Hn1 in M1. rewrite Hn2 in M2.
  destruct M1 as (l1 & lk1 & E1 & F1 & G1), M2 as (l2 & lk2 & E2 & F2 & G2).
  destruct (si_live s Hs r1 _ l1 Hc1 Hlive1 E1) as (lk1' & F1' & _ & Hg1).
  destruct (si_live s Hs r2 _ l2 Hc2 Hlive E2) as (lk2' & F2' & _ & Hg2).
  assert (lk1' = lk1) as -> by congruence. assert (lk2' = lk2) as -> by congruence.
  assert (l2 = l1) as -> by congruence.
  assert (l_locked lk1 = true) as Hlocked by by apply (si_held s Hs r1 (core_of_job j1) l1).
  split.
  - destruct (holding (j_pc j2)) eqn:Hh2; [|by destruct (j_pc j2)]. exfalso. apply Hne.
    by apply (si_excl s Hs r1 r2 (core_of_job j1) (core_of_job j2) l1).
  - unfold runnable. rewrite lock_of_core, Hc2. simpl. rewrite E2, F1. by rewrite Hlocked.
Qed.

(** C3: the scheduler never sleeps on work, and is fair per lock.  In every
    reachable state with a queued job whose lock is free, the scheduler is awake
    and its next iteration starts a job: the first one in the queue that can
    start, so every job ahead of it is blocked on another lock.  The job moves
    from the queue to the scheduled state and the order of the rest is kept. *)
Theorem scheduler_starts_first_runnable (n : Z) (s : st C) (r : nat)
  (Hreach : reachable_from n s) (Hq : r ∈ queue s) (Hrun : runnable s r = true) :
  exists s' r' before after, next s = Some (s', Some r') /\ queue s = before ++ r' :: after /\
    queue s' = before ++ after /\ pc_of s' r' = Some PScheduled /\ runnable s r' = true /\
    (forall b, b ∈ before -> runnable s b = false /\ (lock_of s b ≠ lock_of s r')).
Proof.
  destruct (reachable_inv n s Hreach) as [Hs _].
  pose proof (si_wake s Hs r Hq Hrun) as He.
  destruct (List.find (runnable s) (queue s)) as [r'|] eqn:Hf.
  2:{ eapply find_none in Hf; [|by apply list_elem_of_In]. congruence. }
  destruct (next s) as [[s' o]|] eqn:Hn; [|unfold next in Hn; by rewrite He, Hf in Hn].
  assert (o = Some r') as -> by (unfold next in Hn; rewrite He, Hf in Hn; congruence).
  destruct (next_picked s s' r' Hn) as (_ & _ & Hc & _ & _ & Hq' & _).
  destruct (find_split (runnable s) (queue s) r' Hf) as (b & a & Hsplit & Hr' & Hb).
  exists s', r', b, a. split; [done|]. split; [done|]. split.
  { rewrite Hq', Hsplit. pose proof (si_nodup s Hs) as Hnd. rewrite Hsplit in Hnd.
    apply NoDup_app in Hnd as (_ & Hdis & _). apply remove_first_app. intros Hin. apply (Hdis r' Hin). set_solver. }
  assert (r' ∈ queue s) as Hin by (rewrite Hsplit; set_solver).
  split.
  { rewrite pc_of_core, Hc, decide_True by done. apply (si_queue s Hs) in Hin. by destruct (core_of s r'). }
  split; [done|]. intros x Hx. split; [auto|]. intros Hl. specialize (Hb x Hx).
  unfold runnable in Hb, Hr'. rewrite Hl in Hb. congruence.
Qed.

(** C4: The [finally] block of [Job.run], exactly.  In every reachable state, if
    closing the log and the pipes does not raise, the rest does not either
    ([asyncio.Lock.release] of a held lock, and the lock is registered under its
    name): waiters are woken, the job leaves
    [run] or runs its finish callback, its lock is free again, the scheduler is
    woken if there was a lock.  If closing raises, nothing of this happens: the job
    is not finished and its lock stays taken.  No other job changes. *)
Theorem run_close_completes (n : Z) (s : st C) (r : nat) (j : job) (o : closing)
  (Hreach : reachable_from n s) (Hj : jobs s !! r = Some j) (Hp : j_pc j = PClosing) :
  let s' := run_close o r s in
  queue s' = queue s /\ (forall r', r' ≠ r -> core_of s' r' = core_of s r') /\
  if close_raises o j then
    (exists j', jobs s' !! r = Some j' /\ s_finished (j_sched j') = false /\ j_pc j' = PUnclosed /\ j_state j' = j_state j) /\
    locks s' = locks s /\ forall l, j_lock j = Some l -> exists lk, locks s' !! l = Some lk /\ l_locked lk = true
  else
  (exists j', jobs s' !! r = Some j' /\ s_finished (j_sched j') = true /\ (j_pc j' = POnFinish \/ j_pc j' = PDone) /\
     j_state j' = j_state j /\ j_out j' = j_out j) /\
  (forall l, j_lock j = Some l -> queue_event s' = true /\ exists lk, locks s' !! l = Some lk /\ l_locked lk = false /\
     l_jobs lk = l_jobs (default lk (locks s !! l)) ∖ {[r]} /\
     (l_jobs lk ≠ ∅ -> Dict.get (l_name lk) (job_locks s') = Some l)).
Proof.
  cbv zeta. destruct (reachable_inv n s Hreach) as [Hs _]. pose proof (job_core s r j Hj) as Hc.
  assert (closing_raises o r s = close_raises o j) as Ec by (unfold closing_raises; by rewrite Hj).
  destruct (close_raises o j).
  { pose proof (run_close_raises o r _ s Hc Ec) as [[F1 _ _ _ _ F6 _ _] Hm]. pose proof (si_finished s Hs r _ Hc) as Hf.
    change (c_pc (core_of_job j)) with (j_pc j) in Hf. rewrite Hp in Hf. split_and!; try done.
    - intros r' Hr'. by rewrite Hm, decide_False.
    - destruct (core_job (run_close o r s) r _ ltac:(rewrite Hm, decide_True by done; reflexivity)) as (j' & Hj' & Hcj').
      exists j'. unfold core_of_job in Hcj'. injection Hcj' as _ _ E3 E4 E5 _ _ _ _ _. unfold j_pc, j_state. rewrite E3, E4, E5. done.
    - intros l Hl. destruct (si_live s Hs r (core_of_job j) l Hc) as (lk & Hlk & _ & _); [by change (live (j_pc j) = true); rewrite Hp|done|].
      exists lk. rewrite F1. split; [done|]. by apply (si_held s Hs r _ l lk Hc); [change (holding (j_pc j) = true); rewrite Hp| |]. }
  destruct (run_close_closed o r _ s Ec Hs Hc Hp) as (p & s1 & Hpp & Hrel & Hcore & L1 & L2 & L3 & L4 & L5 & _).
  split; [done|]. split; [intros r' Hr'; by rewrite Hcore, decide_False|]. split.
  - destruct (core_job (run_close o r s) r _ ltac:(rewrite Hcore, decide_True by done; reflexivity)) as (j' & Hj' & Hcj').
    exists j'. unfold j_pc, j_state. unfold core_of_job in Hcj'. injection Hcj' as _ _ E3 E4 E5 _ E7 E8 E9 E10.
    rewrite E3, E4, E5. split_and!; try done. unfold j_out, outcome_data in *. congruence.
  - intros l Hl. destruct Hrel as (_ & _ & _ & _ & _ & _ & Hrel). unfold j_lock in Hl.
    change (c_lock (core_of_job j)) with (s_lock (j_sched j)) in Hrel. rewrite Hl in Hrel.
    destruct Hrel as (lk & Hlk & Hreg & R1 & R2 & R3). split; [congruence|].
    eexists. rewrite L1, R1, lookup_insert_eq. split; [done|]. simpl. rewrite Hlk. simpl.
    split_and!; try done. intros Hne. rewrite L5, R2, bool_decide_eq_false_2; done.
Qed.

(** ** Life cycle *)

(** C5: life cycle over whole executions.  Whatever happens after a reachable
    state, a job keeps its id, its call and its lock, its state never goes back
    ([WAITING], [RUNNING], then one of [SUCCESS], [FAILED], [ABORTED]), and once
    it has finished its state, result, error, exception and finish time never
    change again. *)
Theorem job_life_cycle (n : Z) (s s' : st C) (r : nat) (j : job)
  (Hreach : reachable_from n s) (Hsteps : rtc step s s') (Hj : jobs s !! r = Some j) :
  exists j', jobs s' !! r = Some j' /\ j_call j' = j_call j /\ (forall i, j_id j = Some i -> j_id j' = Some i) /\
    j_lock j' = j_lock j /\
    state_rank (j_state j) <= state_rank (j_state j') /\
    (s_finished (j_sched j) = true -> s_finished (j_sched j') = true) /\
    (finished_state (j_state j) = true -> j_state j' = j_state j /\ j_out j' = j_out j).
Proof.
  destruct (rtc_later s s' r _ (reachable_inv n s Hreach) Hsteps (job_core s r j Hj)) as (c' & Hc' & [A1 A2 A3 A4 A5 A6 _]).
  destruct (core_job s' r c' Hc') as (j' & Hj' & <-). exists j'. split_and!; done.
Qed.

(** ** The registry *)

(** job ids.  In every reachable state ids are between 1 and the counter and
    no two jobs share one; the registry has no duplicate id and maps each id to
    the job that carries it; and a job that was accepted and has not finished is
    always found under its id, whatever was evicted. *)
Theorem registry_ids (n : Z) (s : st C) (Hreach : reachable_from n s) :
  NoDup (Dict.keys (dict s)) /\
  (forall i r, Dict.get i (dict s) = Some r -> exists j, jobs s !! r = Some j /\ j_id j = Some i) /\
  (forall r1 r2 j1 j2 i, jobs s !! r1 = Some j1 -> jobs s !! r2 = Some j2 -> j_id j1 = Some i -> j_id j2 = Some i ->
     r1 = r2 /\ (1 <= i <= count s)%Z) /\
  (forall r j, jobs s !! r = Some j -> j_pc j ≠ PDiscarded -> finished_state (j_state j) = false ->
     exists i, j_id j = Some i /\ Dict.get i (dict s) = Some r).
Proof.
  destruct (reachable_inv n s Hreach) as [_ Hd]. split_and!.
  - apply Hd.
  - intros i r Hg. destruct (di_dict s Hd i r Hg) as (c & Hc & Hi). destruct (core_job s r c Hc) as (j & Hj & <-). eauto.
  - intros r1 r2 j1 j2 i H1 H2 Hi1 Hi2. apply job_core in H1, H2.
    split; [by eapply (di_inj s Hd)|by eapply (di_ids s Hd)].
  - intros r j Hj Hp Hf. apply job_core in Hj. destruct (j_id j) as [i|] eqn:Hi.
    + exists i. split; [done|]. by eapply (di_kept s Hd).
    + exfalso. apply Hp. by apply (di_given s Hd r _ Hj).
Qed.

Lemma length_evicted s : dinv s ->
  length (evicted s) <= length (dict s) /\
  ((maxlen s < Z.of_nat (length (dict s)))%Z ->
   (exists i r j, Dict.get i (dict s) = Some r /\ jobs s !! r = Some j /\ finished_state (j_state j) = true) ->
   S (length (evicted s)) = length (dict s)).
Proof.
  intros Hd. unfold evicted, evict. destruct (Z.ltb_spec (maxlen s) (Z.of_nat (length (dict s)))) as [Hlt|Hge].
  2:{ split; [done|]. lia. }
  destruct (List.find _ (dict s)) as [[i r]|] eqn:Hf.
  - apply find_some in Hf as [Hin%list_elem_of_In _].
    assert (Dict.get i (dict s) = Some r) as Hg by (apply Dict.elem_get; [apply Hd|done]).
    destruct (deque_remove_core i s) as (_ & _ & _ & _ & _ & _ & _ & _ & ->). rewrite Hg.
    assert (S (length (Dict.pop i (dict s))) = length (dict s)) as Hl
      by (apply Dict.length_pop, Dict.get_is_Some; eauto). split; [lia|done].
  - split; [done|]. intros _ (i & r & j & Hg & Hj & Hfin). exfalso.
    apply Dict.get_Some_elem in Hg. eapply find_none in Hf; [|by apply list_elem_of_In].
    simpl in Hf. unfold job_state_is in Hf. rewrite Hj in Hf. congruence.
Qed.

(** [add] on a job that was just created: the state after [handle_lock], and
    the three ways to go on. *)
Lemma call_job_cases c m s : inv s ->
  (exists e, new_Job c m = Err e /\ call_job c m s = (s, Err e)) \/
  exists j j1 s0 s1, new_Job c m = Ok j /\ s0 = set_nref (S (nref s)) (set_jobs (<[nref s := j]> (jobs s)) s) /\
    s1 = (handle_lock (nref s) s0).1 /\ inv s1 /\ queue s1 = queue s /\ dict s1 = dict s /\ maxlen s1 = maxlen s /\
    (forall r, r ≠ nref s -> core_of s1 r = core_of s r) /\
    jobs s1 !! nref s = Some j1 /\ j_pc j1 = PDiscarded /\ j_call j1 = c /\ (nref s ∉ queue s1) /\
    (forall k, (k, nref s) ∉ dict s1).
Proof.
  intros Hinv. unfold call_job. destruct (new_Job c m) as [j|e] eqn:Hj; [right|left; eauto].
  apply new_Job_fresh in Hj as (Hp & Hid & Hst & Hfin & Hl & Hcall).
  set (r := nref s). set (s0 := set_nref (S r) (set_jobs (<[r := j]> (jobs s)) s)).
  assert (inv s0) as H0 by by apply inv_alloc.
  assert (jobs s0 !! r = Some j) as Hj0 by apply lookup_insert_eq.
  destruct (handle_lock_inv r j s0 Hj0 Hp Hl H0) as (H1 & _ & j1 & Hj1 & Hp1 & Hc1).
  exists j, j1, s0, (handle_lock r s0).1. split_and!; try done; try (by rewrite Hc1).
  - unfold handle_lock. rewrite Hj0. destruct (get_lock_name (j_call j)) as [[nm|]|]; try done. cbn [fst].
    by destruct (join_lock_core nm r j s0 Hj0) as (l & _ & _ & _ & ->).
  - unfold handle_lock. rewrite Hj0. destruct (get_lock_name (j_call j)) as [[nm|]|]; try done. cbn [fst].
    by destruct (join_lock_core nm r j s0 Hj0) as (l & _ & -> & _).
  - unfold handle_lock. rewrite Hj0. destruct (get_lock_name (j_call j)) as [[nm|]|]; try done.
    unfold join_lock. by destruct (Dict.get nm (job_locks s0)).
  - intros r' Hr'. trans (core_of s0 r'); [|unfold s0; by rewrite core_of_insert, decide_False].
    unfold handle_lock. rewrite Hj0. destruct (get_lock_name (j_call j)) as [[nm|]|]; try done.
    destruct (join_lock_core nm r j s0 Hj0) as (l & Hcore & _). cbn [fst]. by rewrite Hcore, decide_False.
  - rewrite (si_queue _ (proj1 H1)), (job_core _ r j1 Hj1). simpl. unfold j_pc in Hp1. by rewrite Hp1.
  - intros k Hk. destruct H1 as [_ Hd]. destruct (di_dict _ Hd k r) as (c0 & Hc0 & Hi0);
      [apply Dict.elem_get; [apply Hd|done]|]. pose proof (job_core _ r j1 Hj1) as Hcr.
    assert (c_id (core_of_job j1) = None) by by apply (di_given _ Hd r). congruence.
Qed.

Lemma length_enqueue r j s : dinv s -> jobs s !! r = Some j -> (forall k, (k, r) ∉ dict s) ->
  length (dict (enqueue r s)) = S (length (evicted s)).
Proof.
  intros Hd Hj Hnot. destruct (enqueue_spec r j s Hj Hnot) as (_ & _ & _ & _ & _ & _ & _ & _ & ->).
  apply Dict.length_set_new. intros Hin%Dict.get_is_Some. destruct Hin as [r0 Hr0].
  assert (Dict.get (count s + 1)%Z (dict s) = Some r0) as Hg.
  { destruct (evicted_cases s Hd) as [E|(i & r1 & c1 & _ & _ & _ & E)]; rewrite E in Hr0; [done|].
    destruct (decide (i = (count s + 1)%Z)) as [->|]; [by rewrite Dict.get_pop_eq in Hr0 by apply Hd|].
    by rewrite Dict.get_pop_ne in Hr0. }
  destruct (di_dict s Hd _ _ Hg) as (c0 & Hc0 & Hi0). pose proof (di_ids s Hd _ _ _ Hc0 Hi0). lia.
Qed.

(** the registry is bounded.  A call never lets the registry grow beyond one
    more than [maxlen] while it contains a finished job to evict; it grows by one
    at most in any case. *)
Theorem registry_bounded (n : Z) (s : st C) (c : job_call) (m : option string) (Hreach : reachable_from n s) :
  length (dict (call_job c m s).1) <= S (length (dict s)) /\
  ((exists i r' j', Dict.get i (dict s) = Some r' /\ jobs s !! r' = Some j' /\ finished_state (j_state j') = true) ->
   (Z.of_nat (length (dict s)) <= maxlen s + 1)%Z -> (Z.of_nat (length (dict (call_job c m s).1)) <= maxlen s + 1)%Z).
Proof.
  pose proof (reachable_inv n s Hreach) as Hinv.
  destruct (call_job_cases c m s Hinv) as [(e & _ & ->)|(j & j1 & s0 & s1 & Hnew & -> & Hs1 & Hinv1 & Hq & Hd & Hmax & Hoth & Hj1 & Hp1 & Hc1 & _ & Hnot)];
    [simpl; lia|].
  set (r := nref s) in *.
  assert (dict (call_job c m s).1 = dict s \/ dict (call_job c m s).1 = dict (enqueue r s1)) as Hcases.
  { unfold call_job. rewrite Hnew. unfold add. fold r.
    destruct (handle_lock r (set_nref (S r) (set_jobs (<[r := j]> (jobs s)) s))) as [s2 [[]|e]]; simpl in Hs1; subst s2;
      [|by left].
    destruct (_ ≫= _) as [size|]; [|by right]. destruct (size =? 0)%Z.
    - destruct (running_same_lock s1 r); [by left|by right].
    - destruct (size <=? _)%Z; [|by right]. left. destruct (List.find _ _) as [q|]; [|done].
      destruct (frame_merge r q s1) as [[_ _ _ _ Hdm _ _ _] _]. simpl. congruence. }
  destruct Hcases as [-> | ->]; [lia|]. rewrite (length_enqueue r j1 s1 (proj2 Hinv1) Hj1 Hnot).
  destruct (length_evicted s1 (proj2 Hinv1)) as [H1 H2]. rewrite Hd, Hmax in *. split; [lia|].
  intros (i & r' & j' & Hg & Hj' & Hfin) Hle.
  assert (core_of s1 r' = Some (core_of_job j')) as Hc'.
  { rewrite Hoth; [by apply job_core|]. intros ->. destruct (si_fresh s (proj1 Hinv) (nref s)) as [E _]; [done|].
    unfold r in Hj'. rewrite (job_core s _ j' Hj') in E. done. }
  destruct (core_job s1 r' _ Hc') as (j2 & Hj2 & Hcj2).
  assert (finished_state (j_state j2) = true) as Hf2 by (rewrite <-Hfin; unfold core_of_job in Hcj2; unfold j_state; congruence).
  destruct (decide (maxlen s < Z.of_nat (length (dict s)))%Z) as [Hlt|Hge]; [|lia].
  rewrite (H2 Hlt); [lia|]. exists i, r', j2. done.
Qed.

(** ** Queue limits *)

(** [lock_queue_size].  A call whose options limit the queue of its lock to
    [size >= 1] either enqueues its new job, and then at most [size] queued jobs
    have that lock; or returns an already queued job with the same lock, which
    the caller may share, leaving the queue as it was; or is refused with
    [EBUSY] because the queued jobs belong to others, leaving the queue as it
    was.  [s1] is the state once the new job [r] has its lock. *)
Theorem lock_queue_size_respected (n : Z) (s : st C) (c : job_call) (m : option string) (j : job) (size : Z)
  (Hreach : reachable_from n s) (Hnew : new_Job c m = Ok j) (Hname : is_ok (get_lock_name c) = true)
  (Hsize : o_lock_queue_size (j_options c) = Some size) (Hpos : (1 <= size)%Z) :
  let r := nref s in
  let s1 := (handle_lock r (set_nref (S r) (set_jobs (<[r := j]> (jobs s)) s))).1 in
  let s' := (call_job c m s).1 in
  match (call_job c m s).2 with
  | Ok q => (q = r /\ queue s' = queue s ++ [r] /\
             (Z.of_nat (length (filter (fun a => lock_of s' a = lock_of s1 r) (queue s'))) <= size)%Z) \/
            (q ≠ r /\ q ∈ queue s /\ lock_of s1 q = lock_of s1 r /\ may_merge s1 r q = true /\ queue s' = queue s)
  | Err e => e = CallError "This job is already being performed by another user" EBUSY /\ queue s' = queue s /\
             forall q, q ∈ queue s -> lock_of s1 q = lock_of s1 r -> may_merge s1 r q = false
  end.
Proof.
  cbv zeta. pose proof (reachable_inv n s Hreach) as Hinv.
  destruct (call_job_cases c m s Hinv) as [(e & He & _)|(j' & j1 & s0 & s1 & Hnew' & -> & Hs1 & Hinv1 & Hq & Hd & Hmax & Hoth & Hj1 & Hp1 & Hc1 & Hnq & Hnot)];
    [congruence|].
  assert (j' = j) as -> by congruence. set (r := nref s) in *. rewrite <-Hs1.
  unfold call_job. rewrite Hnew. unfold add. fold r.
  set (s0 := set_nref (S r) (set_jobs (<[r := j]> (jobs s)) s)) in *.
  assert ((handle_lock r s0).2 = Ok tt) as Hok.
  { apply new_Job_fresh in Hnew as (_ & _ & _ & _ & _ & Hcall). unfold handle_lock.
    assert (jobs s0 !! r = Some j) as -> by apply lookup_insert_eq. rewrite Hcall.
    by destruct (get_lock_name c) as [[]|]. }
  destruct (handle_lock r s0) as [s2 o]. simpl in Hok, Hs1. subst o s2.
  rewrite Hj1. cbn [mbind option_bind]. rewrite Hc1, Hsize.
  destruct (Z.eqb_spec size 0); [lia|]. destruct (Z.leb_spec size (Z.of_nat (length (queued_jobs s1 r)))).
  - destruct (List.find _ _) as [q|] eqn:Hf.
    + apply find_some in Hf as [Hin%list_elem_of_In Hm]. apply elem_of_reverse, list_elem_of_filter in Hin as [Hlk Hin].
      right. destruct (frame_merge r q s1) as [[_ _ _ _ _ Hqm _ _] _]. cbn [fst snd]. rewrite Hqm, <-Hq.
      split_and!; try done. congruence.
    + cbn [fst snd]. split_and!; try done. intros q Hin Hlk. eapply find_none in Hf; [exact Hf|].
      apply list_elem_of_In, elem_of_reverse, list_elem_of_filter. rewrite Hq. done.
  - left. destruct (enqueue_spec r j1 s1 Hj1 Hnot) as (Hcore & _ & _ & Hqe & _). cbn [fst snd]. rewrite Hqe, Hq.
    split_and!; try done.
    assert (forall a, lock_of (enqueue r s1) a = lock_of s1 a) as Hlo.
    { intros a. rewrite !lock_of_core, Hcore. destruct (decide (a = r)) as [->|]; [|done].
      by rewrite (job_core s1 r j1 Hj1). }
    assert (filter (fun a => lock_of (enqueue r s1) a = lock_of s1 r) (queue s ++ [r]) = queued_jobs s1 r ++ [r]) as ->.
    { rewrite filter_app. unfold queued_jobs. rewrite Hq. f_equal.
      - apply list_filter_iff. intros a. by rewrite Hlo.
      - rewrite filter_cons_True; [done|]. apply Hlo. }
    rewrite length_app. simpl. lia.
Qed.

(** ** Access *)

(** Who may see or abort a job: anyone who is not a user session, a full
    administrator, a reader with one of the job's read roles, and the user who
    started it from a session. *)
Definition may_access (s : st C) (j : job) (c : C) (access : JobAccess) : Prop :=
  jc_is_user_session c = false \/ jc_full_admin c = true \/
  (access = READ /\ exists role, role ∈ o_read_roles (j_options (j_call j)) /\ jc_has_role c role = true) \/
  (exists own, credentials s j = Some own /\ jc_is_user_session own = true /\ jc_username own = jc_username c).

Lemma can_access_iff `{!JobCredentialLaws C} s j c access :
  credential_can_access s j (Some c) access = true <-> may_access s j c access.
Proof.
  unfold credential_can_access, credential_access_error, may_access. simpl.
  destruct (jc_is_user_session c) eqn:Hu; simpl; [|by split; auto].
  destruct (jc_full_admin c) eqn:Hf; simpl; [by split; auto|].
  destruct (existsb _ _) eqn:He.
  - apply existsb_exists in He as (role & Hin%list_elem_of_In & Hrole).
    destruct access; simpl.
    + split; [|done]. intros _. right. right. left. eauto.
    + destruct (credentials s j) as [own|]; [|split; [done|naive_solver]].
      destruct (jc_is_user_session own) eqn:Ho; simpl; [|split; [done|naive_solver]].
      unfold same_username. destruct (jc_user_named c Hu) as [x Hx], (jc_user_named own Ho) as [y Hy].
      rewrite Hx, Hy. destruct (String.eqb_spec y x); split; try done; naive_solver.
  - assert (forall role, role ∈ o_read_roles (j_options (j_call j)) -> jc_has_role c role = false) as Hno.
    { intros role Hin. destruct (jc_has_role c role) eqn:E; [|done].
      assert (existsb (jc_has_role c) (o_read_roles (j_options (j_call j))) = true) as Ht; [|congruence].
      apply existsb_exists. exists role. split; [by apply list_elem_of_In|done]. }
    rewrite andb_false_r. destruct (credentials s j) as [own|]; [|split; [done|naive_solver]].
    destruct (jc_is_user_session own) eqn:Ho; simpl; [|split; [done|naive_solver]].
    unfold same_username. destruct (jc_user_named c Hu) as [x Hx], (jc_user_named own Ho) as [y Hy].
    rewrite Hx, Hy. destruct (String.eqb_spec y x); split; try done; naive_solver.
Qed.

(** job access control.  For any session, [core.get_jobs] lists exactly the
    registered jobs the session may read, and looking a job up by id (to abort
    it, wait for it or download its logs) gives the job exactly when the session
    may access it, [ENOENT] when there is no such job and [EPERM] otherwise. *)
Theorem job_access_control `{!JobCredentialLaws C} (n : Z) (s : st C) (c : C) (access : JobAccess)
  (Hreach : reachable_from n s) :
  (forall i r, (i, r) ∈ for_credential s (Some c) access <->
     Dict.get i (dict s) = Some r /\ exists j, jobs s !! r = Some j /\ may_access s j c access) /\
  (forall i, match job_by_credential_and_id s (Some c) i access with
     | Ok r => Dict.get i (dict s) = Some r /\ exists j, jobs s !! r = Some j /\ may_access s j c access
     | Err (EValidationError e) => ve_errno e = ENOENT /\ Dict.get i (dict s) = None
     | Err (ECallError _ _ no _) => no = EPERM /\ exists r j, Dict.get i (dict s) = Some r /\ jobs s !! r = Some j /\
         ~ may_access s j c access
     | Err _ => False
     end).
Proof.
  destruct (reachable_inv n s Hreach) as [_ Hd].
  assert (forall i r, Dict.get i (dict s) = Some r -> exists j, jobs s !! r = Some j) as Hjob.
  { intros i r Hg. destruct (di_dict s Hd i r Hg) as (c0 & Hc0 & _). destruct (core_job s r c0 Hc0) as (j & Hj & _). eauto. }
  assert (forall i r, (i, r) ∈ dict s <-> Dict.get i (dict s) = Some r) as Hmem.
  { intros i r. split; [apply Dict.elem_get, Hd|apply Dict.get_Some_elem]. }
  split.
  - intros i r. unfold for_credential. destruct (credential_is_limited_to_own_jobs (Some c)) eqn:Hlim; simpl.
    + rewrite list_elem_of_filter, Hmem. simpl. destruct (jobs s !! r) as [j|]; [|naive_solver].
      rewrite can_access_iff. naive_solver.
    + rewrite Hmem. split; [|naive_solver]. intros Hg. split; [done|]. destruct (Hjob i r Hg) as [j Hj].
      exists j. split; [done|]. simpl in Hlim. unfold may_access. destruct (jc_is_user_session c); [|by left].
      right. left. by apply negb_false_iff.
  - intros i. unfold job_by_credential_and_id. destruct (Dict.get i (dict s)) as [r|] eqn:Hg; [|done].
    destruct (Hjob i r Hg) as [j Hj]. rewrite Hj. simpl.
    pose proof (can_access_iff s j c access) as Hiff. unfold credential_can_access in Hiff.
    destruct (credential_access_error s j (Some c) access) as [e|].
    + simpl. split; [done|]. exists r, j. split_and!; try done. intros Hm. by apply Hiff in Hm.
    + split; [done|]. exists j. split; [done|]. by apply Hiff.
Qed.

(** ** Log files that cannot be opened *)

(** opening the log file happens outside the [try] of [run].  If it raises
    for a job with a lock, that job never finishes: in every later state it is
    still [WAITING], nobody waiting for it is woken, its lock is still taken, and
    every job queued for that lock stays in the queue or was not started. *)
Theorem log_failure_keeps_lock (n : Z) (s s' : st C) (r : nat) (j : job) (l : nat) (now : Z)
  (Hreach : reachable_from n s) (Hj : jobs s !! r = Some j) (Hp : j_pc j = PLogging) (Hl : j_lock j = Some l)
  (Hsteps : rtc step (run_logging false now r s) s') :
  (exists j', jobs s' !! r = Some j' /\ j_state j' = WAITING /\ s_finished (j_sched j') = false) /\
  (exists lk, locks s' !! l = Some lk /\ l_locked lk = true) /\
  (forall r', r' ∈ queue s' -> lock_of s' r' = Some l -> runnable s' r' = false).
Proof.
  pose proof (reachable_inv n s Hreach) as Hinv. pose proof (job_core s r j Hj) as Hc.
  assert (exec (LLogging r false now) s = Some (run_logging false now r s)) as Hex.
  { simpl. unfold at_pc. rewrite pc_of_core, Hc. simpl. unfold j_pc in Hp. by rewrite Hp, bool_decide_eq_true_2. }
  pose proof (exec_inv _ _ _ Hex Hinv) as Hinv0. pose proof (steps_inv _ _ Hinv0 Hsteps) as [Hs' _].
  assert (core_of (run_logging false now r s) r =
    Some (mkCore (j_id j) (j_lock j) (j_state j) (s_finished (j_sched j)) PCrashed (j_call j) (j_out j))) as H0.
  { unfold run_logging. rewrite upd_job_core, decide_True by done. by rewrite Hj. }
  destruct (rtc_later _ s' r _ Hinv0 Hsteps H0) as (c' & Hc' & [_ _ Hlk _ _ _ Hcr]). specialize (Hcr eq_refl).
  simpl in Hlk. rewrite Hl in Hlk.
  pose proof (si_state s' Hs' r c' Hc') as Hst. pose proof (si_finished s' Hs' r c' Hc') as Hfin. rewrite Hcr in Hst, Hfin.
  destruct (si_live s' Hs' r c' l Hc') as (lk & Hlk' & _ & _); [by rewrite Hcr|done|].
  assert (l_locked lk = true) as Hlo by (apply (si_held s' Hs' r c' l lk); [done|by rewrite Hcr|done..]).
  split_and!.
  - destruct (core_job s' r c' Hc') as (j' & Hj' & <-). exists j'. split_and!; [done| |done]. by apply bool_decide_eq_true in Hst.
  - eauto.
  - intros r' _ Hl'. unfold runnable. rewrite Hl', Hlk'. by rewrite Hlo.
Qed.
End props.

(** ** Log excerpts *)

(** The loop keeps the first ten lines and at most the last ten of the rest. *)
Lemma excerpt_loop (ls : list string) :
  foldl excerpt_step ([], [], 0%Z) ls =
  (take 10 ls, drop (10 `max` (length ls - 10)) ls, Z.of_nat (length ls)).
Proof.
  induction ls as [|x ls IH] using rev_ind; [done|]. rewrite foldl_app, IH. cbn [foldl].
  unfold excerpt_step. rewrite length_take.
  destruct (Nat.ltb_spec (10 `min` length ls) 10) as [Hlt|Hge].
  - assert (length ls < 10) by lia. rewrite (take_ge ls) by lia. rewrite (take_ge (ls ++ [x])) by (rewrite length_app; simpl; lia).
    rewrite (drop_ge ls) by lia. rewrite (drop_ge (ls ++ [x])) by (rewrite length_app; simpl; lia).
    f_equal. rewrite length_app. simpl. lia.
  - assert (10 <= length ls) by lia. rewrite take_app_le by lia. f_equal; [f_equal|rewrite length_app; simpl; lia].
    rewrite !length_app, length_drop. cbn [length].
    destruct (decide (length ls < 20)) as [Hs|Hs].
    + replace (10 `max` (length ls - 10)) with 10 by lia.
      replace (length ls - 10 + 1 - 10) with 0 by lia. rewrite drop_0.
      replace (10 `max` (length ls + 1 - 10)) with 10 by lia. by rewrite drop_app_le by lia.
    + replace (10 `max` (length ls - 10)) with (length ls - 10) by lia.
      replace (10 `max` (length ls + 1 - 10)) with (length ls - 9) by lia.
      rewrite drop_app_le by (rewrite length_drop; lia). rewrite drop_drop, drop_app_le by lia.
      f_equal. f_equal. lia.
Qed.

Lemma concat_cons (x : string) (l : list string) : String.concat "" (x :: l) = x +:+ String.concat "" l.
Proof. destruct l as [|y l]; [|done]. cbn [String.concat]. by rewrite Str.app_nil_r. Qed.

(** Without carriage returns, the lines of a text put together are the text. *)
Lemma concat_text_lines (t cur : string) :
  Str.contains (ascii_of_nat 13) t = false -> String.concat "" (text_lines cur t) = cur +:+ t.
Proof.
  revert cur. induction t as [|c t IH]; intros cur Hn; cbn [text_lines].
  - rewrite Str.app_nil_r. by destruct (String.eqb_spec cur "") as [->|].
  - cbn [Str.contains] in Hn. apply orb_false_iff in Hn as [Hc%bool_decide_eq_false Hn].
    case_bool_decide as H10.
    + subst.
      rewrite concat_cons, IH by done. by rewrite Str.app_assoc.
    + rewrite bool_decide_eq_false_2 by congruence. rewrite IH by done. by rewrite Str.app_assoc.
Qed.

(** the excerpt of a log.  Up to twenty lines, the excerpt is all the lines
    (the file itself when it has no carriage return); beyond, it is the first
    ten lines, a line with the number of lines left out, and the last ten. *)
Theorem logs_excerpt_correct (text : string) :
  let ls := text_lines "" text in
  get_logs_excerpt (Some text) =
    (if bool_decide (length ls <= 20) then String.concat "" ls
     else String.concat "" (take 10 ls) +:+ "... " +:+ pretty (Z.of_nat (length ls) - 20)%Z +:+ " more lines ..." +:+ NL +:+
          String.concat "" (drop (length ls - 10) ls)) /\
  (Str.contains (ascii_of_nat 13) text = false -> length ls <= 20 -> get_logs_excerpt (Some text) = text).
Proof.
  cbv zeta. set (ls := text_lines "" text).
  assert (get_logs_excerpt (Some text) =
    (if bool_decide (length ls <= 20) then String.concat "" ls
     else String.concat "" (take 10 ls) +:+ "... " +:+ pretty (Z.of_nat (length ls) - 20)%Z +:+ " more lines ..." +:+ NL +:+
          String.concat "" (drop (length ls - 10) ls))) as Heq.
  { unfold get_logs_excerpt. fold ls. rewrite excerpt_loop.
    case_bool_decide; destruct (Z.ltb_spec 20 (Z.of_nat (length ls))); try lia.
    - replace (10 `max` (length ls - 10)) with 10 by lia. by rewrite take_drop.
    - by replace (10 `max` (length ls - 10)) with (length ls - 10) by lia. }
  split; [done|]. intros Hcr Hlen. rewrite Heq, bool_decide_eq_true_2 by done. unfold ls. by rewrite concat_text_lines.
Qed.

(** ** Jobs without a lock *)

Import Demo.

(** Six jobs of different methods, none with a lock, created before the
    scheduler runs, with the default options ([lock_queue_size] is 5). *)
Definition six_jobs : list job_call :=
  map (fun m => call m None (Some 5%Z) false None) ["a.one"; "b.two"; "c.three"; "d.four"; "e.five"; "f.six"].

(** jobs without a lock count as sharing one.  [add] compares locks with
    [is], and [None is None]: after five queued jobs without a lock, the sixth
    call is merged into the fifth job, a job of another method, and its own
    method is never run. *)
Theorem lockless_jobs_are_merged :
  match run (map (fun c => LCall c None) (take 5 six_jobs)) (init 1000) with
  | Some s =>
      match call_job (List.nth 5 six_jobs (call "" None None false None)) None s with
      | (s', Ok q) => length (queue s') = 5 /\ (exists j, jobs s' !! q = Some j /\ j_method (j_call j) = "e.five") /\
          Forall (fun r => match jobs s' !! r with Some j => negb (String.eqb (j_method (j_call j)) "f.six") | None => true end = true)
            (queue s')
      | _ => False
      end
  | None => False
  end.
Proof.
  vm_compute. split; [done|]. split; [eexists; split; reflexivity|]. repeat constructor.
Qed.

(** ** Instances of the properties *)

Definition two_calls : list (label (C := cred)) :=
  [LCall (call "pool.scrub" (Some "scrub:tank") (Some 5%Z) true None) None;
   LCall (call "pool.wipe" (Some "scrub:tank") (Some 5%Z) true None) None].

Ltac demo_reach := apply demo_reachable; eexists; vm_compute; reflexivity.

Lemma jobs_mutual_exclusion_witness :
  exists j1 j2, jobs (demo (two_calls ++ [LNext])) !! 0 = Some j1 /\ jobs (demo (two_calls ++ [LNext])) !! 2 = Some j2 /\
    holding (j_pc j1) = true /\ j_pc j2 = PQueued /\ runnable (demo (two_calls ++ [LNext])) 2 = false.
Proof.
  assert (forall r, r = 0 \/ r = 2 -> exists j, jobs (demo (two_calls ++ [LNext])) !! r = Some j /\
    live (j_pc j) = true /\ holding (j_pc j) = bool_decide (r = 0) /\ get_lock_name (j_call j) = Ok (Some "scrub:tank")) as Hj.
  { intros r [-> | ->]; eexists; (split; [vm_compute; reflexivity|]); split_and!; vm_compute; reflexivity. }
  destruct (Hj 0) as (j1 & H1 & _ & Hh & Hn1); [by left|]. destruct (Hj 2) as (j2 & H2 & Hl & _ & Hn2); [by right|].
  exists j1, j2. split; [exact H1|]. split; [exact H2|]. split; [exact Hh|].
  apply (jobs_mutual_exclusion 1000 (demo (two_calls ++ [LNext])) 0 2 j1 j2 "scrub:tank");
    [demo_reach|exact H1|exact H2|lia|exact Hh|exact Hl|exact Hn1|exact Hn2].
Defined.

Lemma scheduler_starts_first_runnable_witness :
  exists s' r' before after, next (demo two_calls) = Some (s', Some r') /\
    queue (demo two_calls) = before ++ r' :: after /\ queue s' = before ++ after /\ pc_of s' r' = Some PScheduled /\
    runnable (demo two_calls) r' = true /\
    (forall b, b ∈ before -> runnable (demo two_calls) b = false /\ (lock_of (demo two_calls) b ≠ lock_of (demo two_calls) r')).
Proof.
  apply (scheduler_starts_first_runnable 1000 (demo two_calls) 0); [demo_reach| |vm_compute; reflexivity].
  apply (bool_decide_unpack _). vm_compute. exact I.
Defined.

Definition closing_run : list (label (C := cred)) :=
  two_calls ++ [LNext; LBegin 0 1; LLogging 0 true 1; LBody 0 (Returned JNull) 2].

Lemma run_close_completes_witness :
  exists j', jobs (run_close Closed 0 (demo closing_run)) !! 0 = Some j' /\ s_finished (j_sched j') = true /\ j_state j' = SUCCESS.
Proof.
  destruct (run_close_completes 1000 (demo closing_run) 0
    (default (mkJob (call "" None None false None) (mkSched None None WAITING false false false PDone)
       (mkData [] None None None None false false None (mkProgress 0 "" JNull) None [] false 0 false None false None None))
       (jobs (demo closing_run) !! 0)) Closed) as (_ & _ & (j' & Hj' & Hf & _ & Hst & _) & _);
    [demo_reach|vm_compute; reflexivity|vm_compute; reflexivity|].
  exists j'. split; [exact Hj'|]. split; [exact Hf|]. rewrite Hst. vm_compute. reflexivity.
Defined.

Lemma job_life_cycle_witness :
  exists j', jobs (run_close Closed 0 (demo closing_run)) !! 0 = Some j' /\ j_state j' = SUCCESS /\ d_time_finished (j_data j') = Some 2%Z.
Proof.
  assert (exists j, jobs (demo closing_run) !! 0 = Some j /\ j_state j = SUCCESS /\
    outcome_data (j_data j) = (Some JNull, None, None, Some 2%Z)) as (j & Hj & Hst & Hout).
  { eexists. split; [vm_compute; reflexivity|]. split; vm_compute; reflexivity. }
  destruct (job_life_cycle 1000 (demo closing_run) (run_close Closed 0 (demo closing_run)) 0 j) as (j' & Hj' & _ & _ & _ & _ & _ & Hfr).
  - demo_reach.
  - apply rtc_once. exists (LClose 0 Closed). vm_compute. reflexivity.
  - exact Hj.
  - destruct Hfr as [E1 E2]; [by rewrite Hst|]. exists j'. split; [exact Hj'|]. split; [congruence|].
    unfold j_out in E2. rewrite Hout in E2. unfold outcome_data in E2. congruence.
Defined.

Lemma registry_ids_witness : NoDup (Dict.keys (dict (demo two_calls))) /\ Dict.keys (dict (demo two_calls)) = [1%Z; 2%Z].
Proof.
  split; [|vm_compute; reflexivity]. apply (registry_ids 1000 (demo two_calls)). demo_reach.
Defined.

Lemma registry_bounded_witness :
  length (dict (call_job (call "pool.wipe" None None false None) None (demo two_calls)).1) <= S (length (dict (demo two_calls))).
Proof. apply (registry_bounded 1000 (demo two_calls)). demo_reach. Defined.

Lemma lock_queue_size_respected_witness :
  exists q, (call_job (call "pool.wipe" (Some "scrub:tank") (Some 1%Z) true None) None (demo two_calls)).2 = Ok q /\
    q ∈ queue (demo two_calls) /\
    queue (call_job (call "pool.wipe" (Some "scrub:tank") (Some 1%Z) true None) None (demo two_calls)).1 = queue (demo two_calls).
Proof.
  assert (exists j, new_Job (call "pool.wipe" (Some "scrub:tank") (Some 1%Z) true None) None = Ok j) as [j Hj].
  { eexists. vm_compute. reflexivity. }
  pose proof (lock_queue_size_respected 1000 (demo two_calls) (call "pool.wipe" (Some "scrub:tank") (Some 1%Z) true None)
    None j 1) as Hthm. cbv zeta in Hthm.
  assert ((call_job (call "pool.wipe" (Some "scrub:tank") (Some 1%Z) true None) None (demo two_calls)).2 = Ok 2) as Hres.
  { vm_compute. reflexivity. }
  rewrite Hres in Hthm. exists 2. split; [exact Hres|].
  destruct Hthm as [(E & _)|(_ & H1 & _ & _ & H2)].
  - demo_reach.
  - exact Hj.
  - reflexivity.
  - reflexivity.
  - lia.
  - exfalso. vm_compute in E. done.
  - split; [exact H1|exact H2].
Defined.

#[export] Instance cred_laws : JobCredentialLaws cred.
Proof. split. intros c _. eexists. reflexivity. Qed.

Definition alice_job : list (label (C := cred)) :=
  [LApp 0 (Some (mkCred "alice" false [])); LCall (call "pool.scrub" None None false (Some 0)) None].

Lemma job_access_control_witness :
  job_by_credential_and_id (demo alice_job) (Some (mkCred "bob" false [])) 1 ABORT = Err (CallError "Job is not owned by current session" EPERM) /\
  (forall i r, (i, r) ∈ for_credential (demo alice_job) (Some (mkCred "bob" false [])) ABORT <->
     Dict.get i (dict (demo alice_job)) = Some r /\
     exists j, jobs (demo alice_job) !! r = Some j /\ may_access (demo alice_job) j (mkCred "bob" false []) ABORT).
Proof.
  split; [vm_compute; reflexivity|]. apply (job_access_control 1000 (demo alice_job) (mkCred "bob" false []) ABORT). demo_reach.
Defined.

Definition logging_run : list (label (C := cred)) := two_calls ++ [LNext; LBegin 0 1].

Lemma log_failure_keeps_lock_witness :
  exists lk, locks (run_logging false 1 0 (demo logging_run)) !! 1 = Some lk /\ l_locked lk = true.
Proof.
  assert (exists j, jobs (demo logging_run) !! 0 = Some j /\ j_pc j = PLogging /\ j_lock j = Some 1) as (j & Hj & Hp & Hl).
  { eexists. split; [vm_compute; reflexivity|]. split; vm_compute; reflexivity. }
  apply (log_failure_keeps_lock 1000 (demo logging_run) (run_logging false 1 0 (demo logging_run)) 0 j 1 1);
    [demo_reach|exact Hj|exact Hp|exact Hl|apply rtc_refl].
Defined.
