(* ===== verification/JobLive.v ===== *)
(** * Jobs: the scheduler and the coroutines drain the queue (of JobModel.v) *)

From stdpp Require Import relations.
From S2P Require Import Prelude PyDict PyStr PyVal Errors JobModel JobProofs JobInv JobEvol JobProps.

Section live.
Context {C : Type} `{JC : !JobCredential C} `{JE : !JobEnv}.
Implicit Types (s : st C) (r : nat).

(** The steps of the middleware itself, when the body of job [r] ends with [o r];
    files may fail to open and to close. *)
Definition own_label (o : nat -> outcome) (l : label (C := C)) : Prop :=
  match l with
  | LNext | LBegin _ _ | LLogging _ _ _ | LClose _ _ | LFinish _ => True
  | LBody r o' _ => o' = o r
  | _ => False
  end.

Definition own_step (o : nat -> outcome) (s s' : st C) : Prop := exists l, own_label o l /\ exec l s = Some s'.

(** ** The measure *)

Definition weight (p : pc) : nat :=
  match p with PQueued => 6 | PScheduled => 5 | PLogging => 4 | PBody => 3 | PClosing => 2 | POnFinish => 1 | _ => 0 end.

Definition weight_of (s : st C) (r : nat) : nat := match core_of s r with Some c => weight (c_pc c) | None => 0 end.

Definition measure (s : st C) : nat :=
  2 * sum_list_with (weight_of s) (seq 0 (nref s)) + (if queue_event s then 1 else 0).

(** A job that moves to a point of smaller weight. *)
Lemma measure_one r c c' s s' :
  sinv s -> core_of s r = Some c -> weight (c_pc c') < weight (c_pc c) -> nref s' = nref s ->
  (forall r', core_of s' r' = if decide (r' = r) then Some c' else core_of s r') -> measure s' < measure s.
Proof.
  intros Hs Hc Hw Hn Hcore. unfold measure. rewrite Hn.
  assert (sum_list_with (weight_of s') (seq 0 (nref s)) < sum_list_with (weight_of s) (seq 0 (nref s))) as Hlt.
  { apply (sum_decreases _ _ _ r).
    - apply elem_of_seq. split; [lia|]. destruct (decide (nref s <= r)) as [Hge|]; [|lia].
      destruct (si_fresh s Hs r Hge). congruence.
    - unfold weight_of. by rewrite Hcore, decide_True, Hc by done.
    - intros y. unfold weight_of. rewrite Hcore. destruct (decide (y = r)) as [->|]; [|lia]. rewrite Hc. lia. }
  destruct (queue_event s), (queue_event s'); lia.
Qed.

Lemma advances_decreases ps r c s s' :
  sinv s -> core_of s r = Some c -> Forall (fun p => weight p < weight (c_pc c)) ps ->
  advances ps r c s s' -> measure s' < measure s.
Proof.
  intros Hs Hc Hps (c' & [[_ Hn _ _ _ _ _ _] Hm] & _ & _ & _ & _ & _ & _ & _ & Hin).
  rewrite Forall_forall in Hps. by apply (measure_one r c c' s s'); [| |apply Hps| |].
Qed.

Lemma own_step_decreases o s s' : inv s -> own_step o s s' -> measure s' < measure s.
Proof.
  intros Hinv (l & Hown & Hex). pose proof Hinv as [Hs _].
  destruct l as [| | |r now|r ok now|r o' now|r w|r| | | | | | |]; simpl in Hown; try done; subst; simpl in Hex.
  - destruct (next s) as [[s1 [r|]]|] eqn:Hn; [| |done]; simpl in Hex; injection Hex as <-.
    + apply next_picked in Hn as (_ & Hf & Hc & _ & Hnr & _). apply find_some in Hf as [Hin%list_elem_of_In _].
      apply (si_queue s Hs) in Hin. destruct (core_of s r) as [c|] eqn:Hcr; [|done]. simpl in Hin. injection Hin as Hin.
      eapply (measure_one r c); [done..| |done|exact Hc]. simpl. rewrite Hin. simpl. lia.
    + assert (queue_event s = true) as He by (unfold next in Hn; by destruct (queue_event s)).
      apply next_none in Hn as [_ ->]. unfold measure. simpl. rewrite He.
      change (sum_list_with (weight_of (set_queue_event false s)) (seq 0 (nref s))) with
        (sum_list_with (weight_of s) (seq 0 (nref s))). lia.
  - apply at_pc_inv in Hex as (c & Hc & Hp & ->). pose proof (inv_state_waiting s r c Hinv Hc) as Hw. rewrite Hp in Hw.
    eapply advances_decreases; [done..| |by apply run_begin_advances]. rewrite Hp. repeat constructor; simpl; lia.
  - apply at_pc_inv in Hex as (c & Hc & Hp & ->). pose proof (inv_state_waiting s r c Hinv Hc) as Hw. rewrite Hp in Hw.
    eapply advances_decreases; [done..| |by apply run_logging_advances]. rewrite Hp. destruct ok; repeat constructor; simpl; lia.
  - apply at_pc_inv in Hex as (c & Hc & Hp & ->). pose proof (inv_state_waiting s r c Hinv Hc) as Hw. rewrite Hp in Hw.
    eapply advances_decreases; [done..| |by apply run_body_advances]. rewrite Hp. repeat constructor; simpl; lia.
  - apply at_pc_inv in Hex as (c & Hc & Hp & ->). destruct (closing_raises w r s) eqn:Er.
    { eapply advances_decreases; [done..| |by apply run_close_unclosed]. rewrite Hp. repeat constructor; simpl; lia. }
    destruct (run_close_closed w r c s Er Hs Hc Hp) as (p & s1 & Hpp & _ & Hcore & _ & Hnr & _).
    eapply (measure_one r c); [done..| |done|exact Hcore]. simpl. rewrite Hp. destruct Hpp as [-> | ->]; simpl; lia.
  - apply at_pc_inv in Hex as (c & Hc & Hp & ->). destruct (run_finish_spec r c s Hc) as (G0 & _ & G2 & _).
    eapply (measure_one r c); [done..| |done|exact G0]. simpl. rewrite Hp. simpl. lia.
Qed.

(** ** No deadlock *)

Definition at_rest (p : pc) : bool := match p with PDiscarded | PDone | PReceived => true | _ => false end.

Lemma at_pc_enabled s r p k c : core_of s r = Some c -> c_pc c = p -> at_pc s r p k = Some k.
Proof. intros Hc Hp. unfold at_pc. rewrite pc_of_core, Hc. simpl. by rewrite bool_decide_eq_true_2 by congruence. Qed.

(** A job that holds its lock and was not ended by an exception, or runs its finish
    callback, can go on. *)
Lemma busy_enabled o s r c :
  core_of s r = Some c -> (holding (c_pc c) = true /\ stuck (c_pc c) = false) \/ c_pc c = POnFinish -> exists s', own_step o s s'.
Proof.
  intros Hc Hh. destruct (c_pc c) eqn:Hp; try (by destruct Hh as [[]|]); eexists.
  - exists (LBegin r 0). split; [done|]. by eapply at_pc_enabled.
  - exists (LLogging r true 0). split; [done|]. by eapply at_pc_enabled.
  - exists (LBody r (o r) 0). split; [done|]. by eapply at_pc_enabled.
  - exists (LClose r Closed). split; [done|]. by eapply at_pc_enabled.
  - exists (LFinish r). split; [done|]. by eapply at_pc_enabled.
Unshelve. all: done.
Qed.

(** The lock of [r] is held by a job that was ended by an exception. *)
Definition lock_kept (s : st C) (r : nat) : Prop :=
  exists r0 l, lock_of s r = Some l /\ lock_of s r0 = Some l /\ exists p, pc_of s r0 = Some p /\ stuck p = true.

Lemma idle_behind o s : inv s -> nf (own_step o) s ->
  (forall r c, core_of s r = Some c -> (holding (c_pc c) = true /\ stuck (c_pc c) = false) \/ c_pc c = POnFinish -> False) ->
  forall r, r ∈ queue s -> lock_kept s r.
Proof.
  intros [Hs _] Hnf Hbusy r Hin. destruct (runnable s r) eqn:Hrun.
  - exfalso. pose proof (si_wake s Hs r Hin Hrun) as He. apply Hnf. destruct (next s) as [[s' x]|] eqn:Hn.
    + exists s', LNext. split; [done|]. simpl. by rewrite Hn.
    + unfold next in Hn. rewrite He in Hn. by destruct (List.find _ _).
  - unfold runnable in Hrun. destruct (lock_of s r) as [l|] eqn:Er; [|done].
    destruct (locks s !! l) as [lk|] eqn:Hl; [|done]. apply negb_false_iff in Hrun.
    destruct (si_locked s Hs l lk Hl Hrun) as (r0 & c0 & H0 & Hh & Hl0). exists r0, l. split; [done|].
    rewrite lock_of_core, pc_of_core, H0. split; [done|]. exists (c_pc c0). split; [done|].
    destruct (stuck (c_pc c0)) eqn:Es; [done|]. exfalso. eauto.
Qed.

Lemma stuck_at_rest o s : inv s -> nf (own_step o) s ->
  (forall r, r ∈ queue s -> lock_kept s r) /\
  forall r c, core_of s r = Some c -> at_rest (c_pc c) = true \/ stuck (c_pc c) = true \/ r ∈ queue s.
Proof.
  intros Hinv Hnf. pose proof Hinv as [Hs _].
  assert (forall r c, core_of s r = Some c -> (holding (c_pc c) = true /\ stuck (c_pc c) = false) \/ c_pc c = POnFinish -> False) as Hbusy.
  { intros r c Hc Hh. destruct (busy_enabled o s r c Hc Hh) as [s' Hst]. apply Hnf. by exists s'. }
  split; [by eapply idle_behind|]. intros r c Hc.
  destruct (c_pc c) eqn:Hp; simpl; auto; try (exfalso; apply (Hbusy r c Hc); rewrite Hp; by auto).
  right. right. apply (si_queue s Hs). rewrite Hc. simpl. congruence.
Qed.

Lemma own_steps_keep o s s' : inv s -> rtc (own_step o) s s' -> inv s'.
Proof.
  intros Hi Hst. induction Hst as [|s1 s2 s3 (l & _ & Hl) _ IH]; [done|]. apply IH. by eapply exec_inv.
Qed.

(** C2: The queue drains as far as it can.  From a reachable state, when the bodies of
    jobs end (job [r] with outcome [o r]), every interleaving of the scheduler and the
    job coroutines is finite, whatever fails.  When nothing is left to do, every job is
    finished (or was never queued here), or was ended by an exception of opening or
    closing its files, or is in the queue for a lock that such a job keeps; without
    such failures the queue is empty. *)
Theorem queue_drains (n : Z) (o : nat -> outcome) (s : st C) (Hreach : reachable_from n s) :
  sn (own_step o) s /\
  forall s', rtc (own_step o) s s' -> nf (own_step o) s' ->
    (forall r, r ∈ queue s' -> lock_kept s' r) /\
    (forall r j, jobs s' !! r = Some j -> at_rest (j_pc j) = true \/ stuck (j_pc j) = true \/ r ∈ queue s') /\
    ((forall r j, jobs s' !! r = Some j -> stuck (j_pc j) = false) -> queue s' = []).
Proof.
  pose proof (reachable_inv n s Hreach) as Hinv. split.
  - clear Hreach. remember (measure s) as m eqn:Hm. revert s Hm Hinv.
    induction m as [m IH] using (well_founded_induction lt_wf). intros s -> Hinv. constructor.
    intros s' Hst. pose proof (own_step_decreases o s s' Hinv Hst) as Hlt.
    apply (IH (measure s') Hlt s'); [done|]. destruct Hst as (l & _ & Hl). by eapply exec_inv.
  - intros s' Hst Hnf. pose proof (own_steps_keep o s s' Hinv Hst) as Hinv'.
    destruct (stuck_at_rest o s' Hinv' Hnf) as [Hq Hall]. split_and!; [done| |].
    + intros r j Hj. apply (Hall r (core_of_job j)). by apply job_core.
    + intros Hns. destruct (queue s') as [|r q]; [done|]. exfalso. destruct (Hq r) as (r0 & l & _ & _ & p & Hp & Es); [by left|].
      unfold pc_of in Hp. destruct (jobs s' !! r0) as [j|] eqn:Hj; [|done]. injection Hp as <-. by rewrite (Hns r0 j Hj) in Es.
Qed.

End live.

Import Demo.

Lemma queue_drains_witness : sn (own_step (fun _ => Returned JNull)) (demo two_calls).
Proof. apply (queue_drains 1000). demo_reach. Defined.
