(* ===== verification/JobBuffer.v ===== *)
(** * Throttled progress reports (JobProgressBuffer of src/middlewared/middlewared/job.py)

    A job that learns its progress very often reports it through a buffer that
    forwards at most one update per interval and keeps the latest one for a
    timer.  Time is the monotonic clock, passed to each operation. *)

From stdpp Require Import relations.
From S2P Require Import Prelude PyDict PyStr PyVal Errors JobModel.

Module Buffer.

(** The arguments of [set_progress]. *)
Definition body : Type := option number * option string * json.

(** [pending_update] is the handle of [loop.call_later]; the model keeps the time
    it is due.  [calls] are the calls to [job.set_progress], with their time. *)
Record t := mk {
  interval : Z;
  last_update_at : Z;
  pending_update_body : option body;
  pending_update : option Z;
  calls : list (Z * body);
}.

Definition new (interval : Z) : t := mk interval 0 None None [].

Definition set_progress (now : Z) (b : body) (x : t) : t :=
  if (interval x <=? now - last_update_at x)%Z then
    mk (interval x) now (match pending_update x with Some _ => None | None => pending_update_body x end) None
      (calls x ++ [(now, b)])
  else
    mk (interval x) (last_update_at x) (Some b)
      (match pending_update x with Some d => Some d | None => Some (now + interval x)%Z end) (calls x).

Definition cancel (x : t) : t :=
  match pending_update x with
  | Some _ => mk (interval x) (last_update_at x) None None (calls x)
  | None => x
  end.

(** [_do_pending_update]; the assertion is the [None] case. *)
Definition do_pending_update (now : Z) (x : t) : option t :=
  match pending_update_body x with
  | Some b => Some (mk (interval x) now None None (calls x ++ [(now, b)]))
  | None => None
  end.

Definition flush (now : Z) (x : t) : option t :=
  match pending_update x with
  | Some _ => do_pending_update now x
  | None => Some x
  end.

(** The timer fires when due. *)
Definition timer (now : Z) (x : t) : option t :=
  match pending_update x with
  | Some d => if (d <=? now)%Z then do_pending_update now x else Some x
  | None => Some x
  end.

(** ** Use over time *)

Inductive op := SetProgress (b : body) | Flush | Timer.

Definition exec (now : Z) (o : op) (x : t) : option t :=
  match o with
  | SetProgress b => Some (set_progress now b x)
  | Flush => flush now x
  | Timer => timer now x
  end.

(** A run: the clock does not go back, [latest] is the last progress given. *)
Inductive runs (i : Z) : Z -> option body -> bool -> t -> Prop :=
| runs_new : runs i 0 None true (new i)
| runs_op now now' latest noflush x o x' :
    runs i now latest noflush x -> (now <= now')%Z -> exec now' o x = Some x' ->
    runs i now' (match o with SetProgress b => Some b | _ => latest end)
      (match o with Flush => false | _ => noflush end) x'.

(** Consecutive calls at least [i] apart. *)
Inductive spaced (i : Z) : list (Z * body) -> Prop :=
| spaced_nil : spaced i []
| spaced_snoc l a : spaced i l -> (forall b, last l = Some b -> (b.1 + i <= a.1)%Z) -> spaced i (l ++ [a]).

Record binv (i now : Z) (latest : option body) (noflush : bool) (x : t) : Prop := {
  bi_interval : interval x = i;
  bi_past : (last_update_at x <= now)%Z;
  bi_last : forall c, last (calls x) = Some c -> last_update_at x = c.1;
  bi_pending : is_Some (pending_update x) <-> is_Some (pending_update_body x);
  bi_due : forall d, pending_update x = Some d -> (last_update_at x + i <= d)%Z;
  bi_latest : match pending_update_body x with
              | Some b => latest = Some b
              | None => latest = snd <$> last (calls x)
              end;
  bi_spaced : noflush = true -> spaced i (calls x);
}.

Lemma runs_inv i now latest nf x : (0 <= i)%Z -> runs i now latest nf x -> binv i now latest nf x.
Proof.
  intros Hi Hr. induction Hr as [|now now' latest nf x o x' Hr IH Hle Hex].
  { split; simpl; try done; try lia; by constructor. }
  destruct IH as [H1 H2 H3 H4 H5 H6 H7].
  assert (forall b, (forall c, last (calls x) = Some c -> nf = true -> (c.1 + i <= now')%Z) ->
    pending_update_body x' = None -> pending_update x' = None -> interval x' = i -> last_update_at x' = now' ->
    calls x' = calls x ++ [(now', b)] ->
    binv i now' (Some b) nf x') as Hemit.
  { intros b Hsp E1 E2 E3 E4 E5. split; rewrite ?E1, ?E2, ?E3, ?E4, ?E5; try done.
    - intros c. rewrite last_snoc. by intros [= <-].
    - by rewrite last_snoc.
    - intros Hnf. constructor; [auto|]. intros c Hc. by apply Hsp. }
  assert (forall b, pending_update_body x = Some b -> latest = Some b) as Hpend.
  { intros b Hb. by rewrite Hb in H6. }
  destruct o as [b| |]; simpl in Hex.
  - injection Hex as <-. unfold set_progress in *. destruct (Z.leb_spec (interval x) (now' - last_update_at x)).
    + apply Hemit; simpl; try done.
      * intros c Hc _. rewrite <-(H3 c Hc). lia.
      * destruct (pending_update x); [done|]. destruct (pending_update_body x) eqn:E; [|done].
        destruct (proj2 H4) as [? ?]; [by eexists|done].
    + split; simpl; try done; try lia.
      * destruct (pending_update x); split; eauto.
      * intros d. destruct (pending_update x) as [d'|]; [intros [= <-]; auto|]. intros [= <-]. lia.
  - unfold flush, do_pending_update in Hex. destruct (pending_update x) as [d|] eqn:Ep.
    + destruct (pending_update_body x) as [b|] eqn:Eb; [|done]. injection Hex as <-. rewrite (Hpend b) by done.
      split; simpl; try done; try lia.
      * intros c. rewrite last_snoc. by intros [= <-].
      * by rewrite last_snoc.
    + injection Hex as <-. split; try done; try lia; rewrite ?Ep; done.
  - unfold timer, do_pending_update in Hex. destruct (pending_update x) as [d|] eqn:Ep.
    + destruct (Z.leb_spec d now').
      * destruct (pending_update_body x) as [b|] eqn:Eb; [|done]. injection Hex as <-. rewrite (Hpend b) by done.
        apply Hemit; simpl; try done. intros c Hc _. specialize (H5 d eq_refl). rewrite <-(H3 c Hc). lia.
      * injection Hex as <-. split; try done; try lia; rewrite ?Ep; done.
    + injection Hex as <-. split; try done; try lia; rewrite ?Ep; done.
Qed.

(** throttling without loss.  However progress is set, however the timer and
    explicit flushes interleave: no operation fails its assertion, the latest
    progress is either the last one forwarded to the job or waiting with a timer
    armed; and without explicit flushes the calls to
    the job are at least one interval apart. *)
Theorem progress_throttled (i now now' : Z) (latest : option body) (noflush : bool) (x : t) (o : op)
  (Hi : (0 <= i)%Z) (Hr : runs i now latest noflush x) (Hle : (now <= now')%Z) :
  is_Some (exec now' o x) /\
  (match pending_update_body x with
   | Some b => latest = Some b /\ exists d, pending_update x = Some d
   | None => latest = snd <$> last (calls x) /\ pending_update x = None
   end) /\
  (noflush = true -> spaced i (calls x)).
Proof.
  destruct (runs_inv i now latest noflush x Hi Hr) as [H1 H2 H3 H4 H5 H6 H7]. split_and!; [| |done].
  - destruct o; simpl; [eauto| |]; unfold flush, timer, do_pending_update.
    + destruct (pending_update x); [|eauto]. destruct (proj1 H4) as [b ->]; eauto.
    + destruct (pending_update x); [|eauto]. destruct (_ <=? _)%Z; [|eauto]. destruct (proj1 H4) as [b ->]; eauto.
  - destruct (pending_update_body x) as [b|].
    + split; [done|]. destruct (proj2 H4) as [d Hd]; eauto.
    + split; [done|]. destruct (pending_update x); [|done]. destruct (proj1 H4) as [? ?]; [by eexists|done].
Qed.

Lemma progress_throttled_witness :
  let b p := (Some (NInt p), None, JNull) in
  spaced 10 (calls (mk 10 25 None None [(12, b 1); (25, b 3)]))%Z.
Proof.
  cbv zeta. set (b p := (Some (NInt p), None, JNull) : body).
  assert (runs 10 25 (Some (b 3%Z)) true (mk 10 25 None None [(12, b 1%Z); (25, b 3%Z)])%Z) as Hr.
  { eapply (runs_op 10 14 25 (Some (b 3%Z)) true (mk 10 12 (Some (b 3%Z)) (Some 23%Z) [(12%Z, b 1%Z)]) Timer);
      [|lia|reflexivity].
    eapply (runs_op 10 13 14 (Some (b 2%Z)) true (mk 10 12 (Some (b 2%Z)) (Some 23%Z) [(12%Z, b 1%Z)]) (SetProgress (b 3%Z)));
      [|lia|reflexivity].
    eapply (runs_op 10 12 13 (Some (b 1%Z)) true (mk 10 12 None None [(12%Z, b 1%Z)]) (SetProgress (b 2%Z)));
      [|lia|reflexivity].
    eapply (runs_op 10 0 12 None true (new 10) (SetProgress (b 1%Z))); [constructor|lia|reflexivity]. }
  apply (progress_throttled 10 25 30 (Some (b 3%Z)) true _ Timer); [lia|exact Hr|lia|reflexivity].
Defined.

End Buffer.
