(* ===== verification/Authenticator.v ===== *)
(** * PAM authenticators (src/middlewared/middlewared/utils/account/authenticator.py)

    An authenticator holds the PAM handle of one session.  The base class, its
    handle and the conversation with the PAM modules belong to the
    [truenas_authenticator] package; they are the class [PamStack]. *)

From S2P Require Import Prelude PyDict PyStr PyVal Errors Origin AuthLevels.
From Stdlib Require Import Ascii.

(** ** Responses *)

(** The codes the program names; any other code is [PAM_OTHER]. *)
Inductive PAMCode :=
| PAM_SUCCESS | PAM_SYSTEM_ERR | PAM_PERM_DENIED | PAM_AUTH_ERR | PAM_AUTHINFO_UNAVAIL | PAM_USER_UNKNOWN
| PAM_NEW_AUTHTOK_REQD | PAM_ACCT_EXPIRED | PAM_CRED_EXPIRED | PAM_ABORT | PAM_CONV_AGAIN | PAM_OTHER (n : Z).

#[global] Instance PAMCode_eq_dec : EqDecision PAMCode.
Proof. solve_decision. Defined.

Inductive MSGStyle := PAM_PROMPT_ECHO_OFF | PAM_PROMPT_ECHO_ON | PAM_ERROR_MSG | PAM_TEXT_INFO.

#[global] Instance MSGStyle_eq_dec : EqDecision MSGStyle.
Proof. solve_decision. Defined.

Record pam_msg := mkMsg { msg_style : MSGStyle; msg : string }.

(** [AuthenticatorResponse.reason]: text or the messages of the PAM modules *)
Inductive pam_reason := RNone | RText (s : string) | RMsgs (l : list pam_msg).

(** The passwd dictionary with the keys added by [_get_user_obj]. *)
Record passwd := mkPasswd {
  pw_name : string;
  pw_uid : Z;
  pw_gid : Z;
  pw_source : string;
  pw_grouplist : list Z;
  pw_local : bool;
  pw_account_attributes : list string;
}.

Record auth_resp := mkResp {
  r_code : PAMCode;
  r_reason : pam_reason;
  r_user_info : option passwd;
}.

Definition resp (c : PAMCode) (reason : string) : auth_resp := mkResp c (RText reason) None.

Definition DEFAULT_LOGIN_SUCCESS : auth_resp := mkResp PAM_SUCCESS RNone None.
Definition DEFAULT_LOGIN_FAIL : auth_resp := resp PAM_SYSTEM_ERR "Unexpected Session Manager".
Definition DEFAULT_LOGOUT_SUCCESS : auth_resp := mkResp PAM_SUCCESS RNone None.
Definition DEFAULT_LOGOUT_FAIL : auth_resp := resp PAM_SYSTEM_ERR "Unexpected Session Manager".

(** ** Service files and account flags *)

Inductive TruenasPamFile := FILE_DEFAULT | FILE_API_KEY | FILE_UNIX | FILE_COMMON_SESSION.

Definition service (f : TruenasPamFile) : string :=
  match f with
  | FILE_DEFAULT => "truenas"
  | FILE_API_KEY => "truenas-api-key"
  | FILE_UNIX => "truenas-unix"
  | FILE_COMMON_SESSION => "truenas-session"
  end.

Definition pam_path (service : string) : string := "/etc/pam.d/" +:+ service.

Definition OATH_FILE : string := "/etc/users.oath".
Definition ADMIN_UID : Z := 950.

Inductive auth_class := UserPam | ApiKeyPam | ScramPam | UnixPam | TokenPam.

#[global] Instance auth_class_eq_dec : EqDecision auth_class.
Proof. solve_decision. Defined.

(** ** The libraries *)

(** The base authenticator of [truenas_authenticator] and the SCRAM messages of
    [truenas_pyscram].  [pam_new] builds a handle from the user name, the
    service, the origin and the session data placed in the environment. *)
Class PamStack := {
  ctx : Type;
  pam_new : string -> string -> ConnectionOrigin -> json -> ctx;
  pam_auth_init : string -> string -> ctx -> ctx * auth_resp;
  pam_auth_continue : list (option string) -> ctx -> ctx * auth_resp;
  pam_account_management : ctx -> ctx * auth_resp;
  pam_login : ctx -> ctx * auth_resp;
  pam_logout : ctx -> ctx * auth_resp;
  pam_end : ctx -> ctx;
  pam_messages : ctx -> list (list pam_msg);
  (** [UUID(ctx.get_env('pam_truenas_session_uuid'))], [None] when that raises *)
  pam_session_uuid : ctx -> option string;
  (** [ClientFirstMessage(rfc_string)]: user name, API key id and text, or the error *)
  client_first_message : string -> result string (string * Z * string);
}.

(** What the operating system answers during a call. *)
Record os_env := mkOs {
  os_getpwnam : string -> option (string * Z * Z * string);
  os_getgrouplist : string -> Z -> list Z;
  os_group_source : Z -> option string;
  os_ds_is_ipa : bool;
  os_tally_locked : string -> bool;
  (** whether a path exists, once these configuration groups were generated *)
  os_files : list string -> string -> bool;
  os_generated : list string;
  os_is_loopback : string -> option bool;
  os_now : Z;
}.

Definition os_exists (e : os_env) (path : string) : bool := os_files e (os_generated e) path.

Section authenticator.
Context `{!PamStack} (check_unixhash : string -> string -> bool).

Record authenticator := mkAuth {
  au_class : auth_class;
  au_username : string;
  au_service : string;
  au_file : TruenasPamFile;
  au_twofactor_user : bool;
  au_otpw_possible : bool;
  au_session_uuid : option string;
  au_passwd : option passwd;
  au_dbid : json;
  au_client_first : string;
  au_scram_error : option string;
  au_sent_server_first : bool;
  au_sent_server_final : bool;
  au_ctx : ctx;
}.

(** ** Construction *)

Definition jopt {A} (f : A -> json) (o : option A) : json := match o with Some a => f a | None => JNull end.
(** [str(x)] of an optional text *)
Definition str_opt (o : option string) : string := default "None" o.

Definition _get_pam_session_info (e : os_env) (o : ConnectionOrigin) : json :=
  let extra := JDict [("secure_transport", JBool (secure_transport (os_is_loopback e) o))] in
  match o_family o with
  | AF_UNIX =>
      JDict [("origin_family", JStr "AF_UNIX");
             ("origin", JDict [("pid", jopt JInt (o_pid o)); ("uid", jopt JInt (o_uid o)); ("gid", jopt JInt (o_gid o));
                               ("loginuid", jopt JInt (loginuid o)); ("sec", JStr "unconfined")]);
             ("extra", extra)]
  | f =>
      JDict [("origin_family", JStr (if bool_decide (f = AF_INET) then "AF_INET" else "AF_INET6"));
             ("origin", JDict [("loc_addr", JStr (str_opt (loc_addr o))); ("loc_port", jopt JInt (loc_port o));
                               ("rem_addr", JStr (str_opt (rem_addr o))); ("rem_port", jopt JInt (rem_port o));
                               ("ssl", JBool (o_ssl o))]);
             ("extra", extra)]
  end.

Definition AttributeError (s : string) : exn := EOther "AttributeError" s.
Definition TypeError (s : string) : exn := EOther "TypeError" s.
Definition RuntimeError (s : string) : exn := EOther "RuntimeError" s.
Definition ValueError (s : string) : exn := EOther "ValueError" s.

(** [UserPamAuthenticator.__init__], for the class [cls]; an application without
    an origin has no [family]. *)
Definition base_init (e : os_env) (cls : auth_class) (username : string) (origin : option ConnectionOrigin) (file : TruenasPamFile)
    (otpw : bool) : result exn authenticator :=
  match origin with
  | None => Err (AttributeError "family")
  | Some o =>
      Ok (mkAuth cls username (service file) file false otpw None None JNull "" None false false
            (pam_new username (service file) o (_get_pam_session_info e o)))
  end.

Definition origin_is (f : ConnectionOrigin -> bool) (origin : option ConnectionOrigin) (what : string) : result exn unit :=
  match origin with
  | None => Err (AttributeError "family")
  | Some o => if f o then Ok tt else Err (TypeError ("unexpected origin for " +:+ what))
  end.

Definition UserPamAuthenticator (e : os_env) (username : string) (origin : option ConnectionOrigin) : result exn authenticator :=
  base_init e UserPam username origin FILE_DEFAULT true.

Definition ApiKeyPamAuthenticator (e : os_env) (username : string) (origin : option ConnectionOrigin) : result exn authenticator :=
  _ ← origin_is is_tcp_ip_family origin "ApiKeyPamAuthenticator";
  base_init e ApiKeyPam username origin FILE_API_KEY false.

Definition ScramPamAuthenticator (e : os_env) (first : string) (origin : option ConnectionOrigin) : result exn authenticator :=
  _ ← origin_is is_tcp_ip_family origin "ScramPamAuthenticator";
  match client_first_message first with
  | Err err =>
      a ← base_init e ScramPam "nobody" origin FILE_API_KEY true;
      Ok (mkAuth (au_class a) (au_username a) (au_service a) (au_file a) false true None None JNull "" (Some err) false false (au_ctx a))
  | Ok (username, key_id, text) =>
      a ← base_init e ScramPam username origin FILE_API_KEY false;
      Ok (mkAuth (au_class a) (au_username a) (au_service a) (au_file a) false false None None (JInt key_id) text None false false (au_ctx a))
  end.

Definition UnixPamAuthenticator (e : os_env) (username : string) (origin : option ConnectionOrigin) : result exn authenticator :=
  _ ← origin_is is_unix_family origin "UnixPamAuthenticator";
  base_init e UnixPam username origin FILE_UNIX false.

Definition TokenPamAuthenticator (e : os_env) (username : string) (origin : option ConnectionOrigin) : result exn authenticator :=
  base_init e TokenPam username origin FILE_UNIX false.

(** ** The methods, on the authenticator and the table of one-time passwords *)

Definition auth_state : Type := authenticator * OnetimePasswordManager.
#[local] Notation AM := (STE auth_state exn).

Definition set_ctx (c : ctx) (a : authenticator) : authenticator :=
  mkAuth (au_class a) (au_username a) (au_service a) (au_file a) (au_twofactor_user a) (au_otpw_possible a) (au_session_uuid a)
    (au_passwd a) (au_dbid a) (au_client_first a) (au_scram_error a) (au_sent_server_first a) (au_sent_server_final a) c.
Definition set_username (v : string) (a : authenticator) : authenticator :=
  mkAuth (au_class a) v (au_service a) (au_file a) (au_twofactor_user a) (au_otpw_possible a) (au_session_uuid a)
    (au_passwd a) (au_dbid a) (au_client_first a) (au_scram_error a) (au_sent_server_first a) (au_sent_server_final a) (au_ctx a).
Definition set_service (v : string) (a : authenticator) : authenticator :=
  mkAuth (au_class a) (au_username a) v (au_file a) (au_twofactor_user a) (au_otpw_possible a) (au_session_uuid a)
    (au_passwd a) (au_dbid a) (au_client_first a) (au_scram_error a) (au_sent_server_first a) (au_sent_server_final a) (au_ctx a).
Definition set_twofactor (v : bool) (a : authenticator) : authenticator :=
  mkAuth (au_class a) (au_username a) (au_service a) (au_file a) v (au_otpw_possible a) (au_session_uuid a)
    (au_passwd a) (au_dbid a) (au_client_first a) (au_scram_error a) (au_sent_server_first a) (au_sent_server_final a) (au_ctx a).
Definition set_session_uuid (v : option string) (a : authenticator) : authenticator :=
  mkAuth (au_class a) (au_username a) (au_service a) (au_file a) (au_twofactor_user a) (au_otpw_possible a) v
    (au_passwd a) (au_dbid a) (au_client_first a) (au_scram_error a) (au_sent_server_first a) (au_sent_server_final a) (au_ctx a).
Definition set_passwd (v : option passwd) (a : authenticator) : authenticator :=
  mkAuth (au_class a) (au_username a) (au_service a) (au_file a) (au_twofactor_user a) (au_otpw_possible a) (au_session_uuid a)
    v (au_dbid a) (au_client_first a) (au_scram_error a) (au_sent_server_first a) (au_sent_server_final a) (au_ctx a).
Definition set_dbid (v : json) (a : authenticator) : authenticator :=
  mkAuth (au_class a) (au_username a) (au_service a) (au_file a) (au_twofactor_user a) (au_otpw_possible a) (au_session_uuid a)
    (au_passwd a) v (au_client_first a) (au_scram_error a) (au_sent_server_first a) (au_sent_server_final a) (au_ctx a).
Definition set_sent_server_first (v : bool) (a : authenticator) : authenticator :=
  mkAuth (au_class a) (au_username a) (au_service a) (au_file a) (au_twofactor_user a) (au_otpw_possible a) (au_session_uuid a)
    (au_passwd a) (au_dbid a) (au_client_first a) (au_scram_error a) v (au_sent_server_final a) (au_ctx a).

Definition au_get {A} (f : authenticator -> A) : AM A := gets (fun s => f s.1).
Definition au_modify (f : authenticator -> authenticator) : AM unit := modify (fun s => (f s.1, s.2)).
(** A call of the base class that changes the handle. *)
Definition au_pam (f : authenticator -> ctx -> ctx * auth_resp) : AM auth_resp :=
  update (fun s => let '(c, r) := f s.1 (au_ctx s.1) in ((set_ctx c s.1, s.2), r)).

Definition auth_init : AM auth_resp := au_pam (fun a => pam_auth_init (au_username a) (au_service a)).
Definition auth_continue (responses : list (option string)) : AM auth_resp := au_pam (fun _ => pam_auth_continue responses).
Definition account_management : AM auth_resp := au_pam (fun _ => pam_account_management).

Definition truenas_user_obj : AM passwd :=
  p ← au_get au_passwd; expect p (AttributeError "passwd").

Definition add_flags (fs : list string) (p : passwd) : passwd :=
  mkPasswd (pw_name p) (pw_uid p) (pw_gid p) (pw_source p) (pw_grouplist p) (pw_local p) (pw_account_attributes p ++ fs).

(** The source as the middleware names it, and the flags of the source. *)
Definition source_flags (e : os_env) (source : string) : string * list string :=
  if String.eqb source "FILES" then ("LOCAL", ["LOCAL"])
  else if String.eqb source "WINBIND" then ("ACTIVEDIRECTORY", ["DIRECTORY_SERVICE"; "ACTIVE_DIRECTORY"])
  else if String.eqb source "SSS" then ("LDAP", ["DIRECTORY_SERVICE"; if os_ds_is_ipa e then "IPA" else "LDAP"])
  else (source, []).

(** [_get_user_obj]; [None] is the [KeyError] its callers catch. *)
Definition _get_user_obj (e : os_env) (username : string) : AM (option passwd) :=
  match os_getpwnam e username with
  | None => mret None
  | Some (name, uid, gid, source) =>
      let grouplist := filter (fun g => bool_decide (os_group_source e g = Some source) = true) (os_getgrouplist e name gid) in
      let '(source', flags) := source_flags e source in
      svc ← au_get au_service;
      tf ← au_get au_twofactor_user;
      let flags := flags ++ (if String.eqb svc (service FILE_API_KEY) then ["API_KEY"] else [])
                         ++ (if tf : bool then ["2FA"] else []) in
      let admin := (uid =? 0)%Z || (uid =? ADMIN_UID)%Z in
      let flags := flags ++ (if admin then ["SYS_ADMIN"] else []) in
      let loc := String.eqb source "FILES" in
      _ ← au_modify (set_passwd (Some (mkPasswd name uid gid source' grouplist loc flags)));
      if admin && negb loc
      then raise (ValueError "System administrator account is being provided by non-local source")
      else p ← truenas_user_obj; mret (Some p)
  end.

Definition otpw_code_name (c : OTPWResponseCode) : string :=
  match c with
  | OtpSuccess => "SUCCESS" | OtpExpired => "EXPIRED" | NO_KEY => "NO_KEY" | ALREADY_USED => "ALREADY_USED"
  | WRONG_USER => "WRONG_USER" | BAD_PASSKEY => "BAD_PASSKEY"
  end.

(** [__otpw_authenticate]; [None] asks the caller to keep the PAM response. *)
Definition otpw_authenticate (e : os_env) (password : string) (pw : passwd) : AM (option (PAMCode * pam_reason)) :=
  possible ← au_get au_otpw_possible;
  if negb possible then mret None
  else
    override ← gets (fun s : auth_state =>
      match Str.split "_" password with
      | [idx; _] => match Dict.get idx (otpasswd s.2) with Some en => password_set_override en | None => false end
      | _ => false
      end);
    code ← update (fun s : auth_state =>
      let '(m, r) := AuthLevels.authenticate check_unixhash (os_now e) (pw_uid pw) password s.2 in ((s.1, m), r));
    match code with
    | OtpSuccess =>
        let flags := "OTPW" :: (if override && String.eqb (pw_source pw) "LOCAL" then ["PASSWORD_CHANGE_REQUIRED"] else []) in
        _ ← au_modify (fun a => set_passwd (add_flags flags <$> au_passwd a) a);
        mret (Some (PAM_SUCCESS, RNone))
    | OtpExpired => mret (Some (PAM_CRED_EXPIRED, RText "Onetime password is expired"))
    | NO_KEY => mret None
    | c => mret (Some (PAM_AUTH_ERR, RText ("Onetime password authentication failed: " +:+ otpw_code_name c)))
    end.

(** The answers to one round of prompts; [inl] is the prompt of the second
    factor, which ends the exchange. *)
Fixpoint answer_prompts (username password : string) (l : list pam_msg) : string + list (option string) :=
  match l with
  | [] => inr []
  | m :: l =>
      let rest a := match answer_prompts username password l with inl p => inl p | inr as_ => inr (a :: as_) end in
      match msg_style m with
      | PAM_PROMPT_ECHO_OFF => if Str.has_sub "(OATH)" (msg m) then inl (msg m) else rest (Some password)
      | PAM_PROMPT_ECHO_ON => rest (Some username)
      | _ => rest None
      end
  end.

Definition messages_of (r : pam_reason) : list pam_msg := match r with RMsgs l => l | _ => [] end.

(** The conversation loop.  [rounds] bounds the number of times the PAM modules
    prompt; beyond it the loop of the program does not end. *)
Fixpoint converse (rounds : nat) (username password : string) (r : auth_resp) : AM auth_resp :=
  if bool_decide (r_code r = PAM_CONV_AGAIN) then
    match rounds with
    | O => raise (EOther "NonTermination" "PAM conversation")
    | S rounds =>
        match answer_prompts username password (messages_of (r_reason r)) with
        | inl prompt =>
            _ ← au_modify (set_twofactor true);
            mret (mkResp (r_code r) (RText prompt) (r_user_info r))
        | inr answers => r ← auth_continue answers; converse rounds username password r
        end
    end
  else mret r.

Definition pam_authenticate_simple (rounds : nat) (username password : string) : AM auth_resp :=
  _ ← au_modify (fun a => set_twofactor false (set_username username a));
  r ← auth_init;
  converse rounds username password r.

(** The fresh copy of the account, which must be the account PAM authenticated. *)
Definition refresh_user_info (r : auth_resp) : AM auth_resp :=
  pw ← truenas_user_obj;
  match r_user_info r with
  | None => raise (TypeError "'NoneType' object is not subscriptable")
  | Some u =>
      if String.eqb (pw_name pw) (pw_name u) then mret (mkResp (r_code r) (r_reason r) (Some pw))
      else raise (EOther "AssertionError" "")
  end.

Definition authenticate_oath (twofactor_token : string) : AM auth_resp :=
  tf ← au_get au_twofactor_user;
  if negb tf then mret (resp PAM_AUTH_ERR "User does not support two-factor auth")
  else
    r ← auth_continue [Some twofactor_token];
    if bool_decide (r_code r = PAM_SUCCESS) then refresh_user_info r else mret r.

(** What a refused password becomes: a locked account, or a one-time password. *)
Definition auth_fallback (e : os_env) (rounds : nat) (password : string) (pw : passwd) (r : auth_resp) : AM auth_resp :=
  svc ← au_get au_service;
  if bool_decide (r_code r = PAM_AUTH_ERR) && String.eqb svc (service FILE_DEFAULT) then
    if os_tally_locked e (pw_name pw)
    then mret (mkResp PAM_PERM_DENIED (RText "Account is locked due to failed login attempts.") (r_user_info r))
    else
      o ← otpw_authenticate e password pw;
      match o with
      | None => mret r
      | Some (PAM_SUCCESS, _) =>
          _ ← au_modify (set_service (service FILE_UNIX));
          r ← pam_authenticate_simple rounds (pw_name pw) "";
          mret (mkResp (r_code r) (r_reason r) (Some pw))
      | Some (code, reason) => mret (mkResp code reason (r_user_info r))
      end
  else mret r.

(** [account_management] and its effect on the response *)
Definition account_check (r : auth_resp) : AM auth_resp :=
  acct ← account_management;
  if bool_decide (r_code acct = PAM_SUCCESS) then mret r
  else
    msgs ← au_get (fun a => pam_messages (au_ctx a));
    let expired := existsb (fun m => Str.startswith "Your account has expired" (msg m)) (default [] (last msgs)) in
    if bool_decide (r_code acct = PAM_AUTH_ERR) && expired
    then mret (mkResp PAM_ACCT_EXPIRED (RText "Account expired due to aging rules") (r_user_info r))
    else mret (mkResp (r_code acct) (r_reason acct) (r_user_info r)).

(** [UserPamAuthenticator.authenticate] *)
Definition user_authenticate (e : os_env) (rounds : nat) (username password : string) : AM auth_resp :=
  o ← _get_user_obj e username;
  match o with
  | None => mret (resp PAM_AUTH_ERR (username +:+ ": user does not exist"))
  | Some pw =>
      f ← au_get au_file;
      svc ← au_get au_service;
      if negb (os_exists e (pam_path (service f))) then raise (EOther "FileNotFoundError" (pam_path (service f)))
      else if negb (String.eqb (service f) svc) then raise (RuntimeError (svc +:+ ": unexpected PAM service"))
      else
        r ← pam_authenticate_simple rounds (pw_name pw) password;
        r ← (if bool_decide (r_code r = PAM_SUCCESS) then mret r else auth_fallback e rounds password pw r);
        r ← (if bool_decide (r_code r = PAM_SUCCESS) then account_check r else mret r);
        if bool_decide (r_code r = PAM_SUCCESS) then refresh_user_info r else mret r
  end.

(** [ApiKeyPamAuthenticator.authenticate]: the key follows the first dash. *)
Definition api_key_authenticate (e : os_env) (rounds : nat) (username password : string) : AM auth_resp :=
  match Str.split "-" password with
  | dbid :: _ :: _ =>
      _ ← au_modify (set_dbid (JStr dbid));
      user_authenticate e rounds username (Str.drop (S (String.length dbid)) password)
  | _ => user_authenticate e rounds username password
  end.

(** [InternalPamAuthenticator.authenticate] *)
Definition internal_authenticate (e : os_env) (rounds : nat) (username : string) : AM auth_resp :=
  user_authenticate e rounds username "".

(** The replies of the SCRAM handler to the first prompts. *)
Fixpoint scram_replies (username first : string) (l : list pam_msg) : result exn (list (option string)) :=
  match l with
  | [] => Ok []
  | m :: l =>
      a ← match msg_style m with
          | PAM_PROMPT_ECHO_OFF =>
              if Str.has_sub "Send SCRAM ClientFirst message" (msg m) then Ok first
              else Err (RuntimeError (msg m +:+ ": unexpected PAM response"))
          | PAM_PROMPT_ECHO_ON => Ok username
          | _ => Err (RuntimeError "unexpected PAM respones")
          end;
      as_ ← scram_replies username first l;
      Ok (Some a :: as_)
  end.

Definition unexpected_code : auth_resp := resp PAM_AUTH_ERR "unexpected response code. Expected [PAM_CONV_AGAIN]".

Definition handle_first_message (e : os_env) : AM auth_resp :=
  a ← au_get id;
  match au_scram_error a with
  | Some err => mret (resp PAM_AUTH_ERR err)
  | None =>
      if au_sent_server_first a then raise (RuntimeError "Already sent server first response")
      else
        o ← _get_user_obj e (au_username a);
        match o with
        | None => mret (resp PAM_AUTH_ERR (au_username a +:+ ": user does not exist"))
        | Some _ =>
            r ← auth_init;
            if negb (bool_decide (r_code r = PAM_CONV_AGAIN)) then mret unexpected_code
            else
              replies ← lift (scram_replies (au_username a) (au_client_first a) (messages_of (r_reason r)));
              r ← auth_continue replies;
              if negb (bool_decide (r_code r = PAM_CONV_AGAIN)) then mret unexpected_code
              else match messages_of (r_reason r) with
                   | [m] => _ ← au_modify (set_sent_server_first true); mret (mkResp PAM_CONV_AGAIN (RText (msg m)) None)
                   | _ => raise (RuntimeError "unexpected PAM response")
                   end
        end
  end.

Definition handle_final_message (rfc_string : string) : AM auth_resp :=
  a ← au_get id;
  if au_sent_server_final a then raise (RuntimeError "Already sent ServerFinalMessage")
  else if negb (au_sent_server_first a) then raise (RuntimeError "Did not send ServerFirstMessage")
  else
    r ← auth_continue [Some rfc_string];
    if negb (bool_decide (r_code r = PAM_CONV_AGAIN)) then mret unexpected_code
    else match messages_of (r_reason r) with
         | [] => raise (EOther "IndexError" "list index out of range")
         | m :: _ =>
             if negb (bool_decide (msg_style m = PAM_TEXT_INFO)) then raise (RuntimeError "unexpected PAM message")
             else
               pw ← truenas_user_obj;
               _ ← auth_continue [Some ""];
               mret (mkResp PAM_SUCCESS (RText (msg m))
                       (Some (add_flags ((if truthy (au_dbid a) then ["API_KEY"] else []) ++ ["SCRAM"]) pw)))
         end.

(** [login], [logout], [end] *)
Definition au_login : AM auth_resp :=
  r ← au_pam (fun _ => pam_login);
  _ ← (if bool_decide (r_code r = PAM_SUCCESS)
       then au_modify (fun a => set_session_uuid (match pam_session_uuid (au_ctx a) with
                                                  | Some u => Some u
                                                  | None => au_session_uuid a
                                                  end) a)
       else mret tt);
  mret r.

Definition au_logout : AM auth_resp := au_pam (fun _ => pam_logout).
Definition au_end : AM unit := au_modify (fun a => set_ctx (pam_end (au_ctx a)) a).

End authenticator.

Notation AM := (STE auth_state exn).
