(* ===== verification/Sessions.v ===== *)
(** * Sessions, credentials and tokens (src/middlewared/middlewared/auth.py, plugins/auth.py
    and plugins/auth_/authenticate.py)

    A connected application is authenticated by a credentials object.  Tokens
    generated by a session give later sessions the authority of the credentials
    they were generated with.  User dictionaries, credentials, tokens and PAM
    authenticators are shared objects, so the state keeps a heap of each. *)

From Stdlib Require Import Ascii.
From S2P Require Import Prelude PyDict PyStr PyVal Errors Roles Allowlist Privilege Origin RateLimit AuthLevels Authenticator.

(** ** Data *)

(** The [user] dictionary of [auth.authenticate_user]. *)
Record user := mkUser {
  u_username : string;
  u_privilege : composed;
  u_account_attributes : list string;
}.

(** [UserSessionManagerCredentials] and its subclasses. *)
Inductive user_class :=
| CUser | CApiKey (api_key : option (Z * string)) | CUnixSocket | CLoginPassword | CLoginTwofactor | CLoginOnetimePassword.

#[global] Instance user_class_eq_dec : EqDecision user_class.
Proof. solve_decision. Defined.

(** References: of a user, of credentials, of a token, of an authenticator. *)
Record user_cred := mkUserCred {
  uc_class : user_class;
  uc_user : nat;
  uc_assurance : option AuthenticatorAssuranceLevel;
  uc_allowlist : Allowlist;
  uc_expiry : option Z;
  uc_inactivity_timeout : option Z;
  uc_last_used_at : Z;
  uc_authenticator : option nat;
  uc_login_id : option string;
}.

(** [TokenSessionManagerCredentials] *)
Record token_cred := mkTokenCred {
  tc_root : nat;
  tc_token : nat;
  tc_is_user_session : bool;
  tc_user : option nat;
  tc_allowlist : option Allowlist;
  tc_pam_authenticated : bool;
  tc_authenticator : nat;
  tc_login_id : option string;
}.

Inductive cred :=
| BaseCred
| NodeCred
| UserCred (c : user_cred)
| TokenCred (c : token_cred).

Record Token := mkToken {
  tk_token : string;
  tk_ttl : Z;
  tk_attributes : list (string * json);
  tk_match_origin : option ConnectionOrigin;
  tk_parent : nat;
  tk_session_ids : list string;
  tk_single_use : bool;
  tk_last_used_at : Z;
}.

(** [AuthenticationContext]; of [auth_data] only the user name is ever set. *)
Record AuthenticationContext := mkCtx {
  pam_hdl : option nat;
  next_mech : option AuthMech;
  auth_data : option string;
}.

Definition new_ctx : AuthenticationContext := mkCtx None None None.

(** A connected application, by session id in the state.  [a_callbacks] counts
    the registrations of the session manager's callbacks. *)
Record App := mkApp {
  a_origin : option ConnectionOrigin;
  a_credentials : option nat;
  a_context : option AuthenticationContext;
  a_callbacks : nat;
}.

Record Session := mkSession { s_credentials : nat; s_created_at : Z }.

(** An audit message of the authentication code. *)
Record audit_entry := mkAudit {
  ae_session : string;
  ae_event : string;
  ae_credentials : string;
  ae_username : option string;
  ae_error : option string;
  ae_success : bool;
}.

Record config := mkConfig {
  cf_os : os_env;
  (** [user.query]: uid, local, password_disabled, locked, password_change_required *)
  cf_user_query : string -> option (Z * bool * bool * bool * bool);
  (** [user.get_user_obj] by user name and by uid *)
  cf_uid_of : string -> option Z;
  cf_name_of : Z -> option string;
  cf_privileges : list privilege;
  cf_convert_unixids : list group_id -> option (list string);
  cf_roles : RoleManager;
  cf_enable_gpos_stig : bool;
  (** [api_key.query]: user name, name, expires_at is set, revoked *)
  cf_api_key : Z -> option (string * string * bool * bool);
  cf_failover_licensed : bool;
  cf_failover_status : string;
  (** [failover.status] and [failover.get_ips] of the other node, [None] when the
      call raises *)
  cf_remote_status : option string;
  cf_remote_ips : option (list string);
}.

Section sessions.
Context `{!PamStack} (check_unixhash : string -> string -> bool).

Record world := mkWorld {
  users : gmap nat user;
  creds : gmap nat cred;
  token_objs : gmap nat Token;
  auths : gmap nat authenticator;
  fresh_ref : nat;
  tokens : list (string * nat);
  sessions : list (string * Session);
  apps : gmap string App;
  aal_level : AuthenticatorAssuranceLevel;
  otpw : OnetimePasswordManager;
  audit : list audit_entry;
  session_events : list (string * string);
  revoked_keys : list Z;
  closed : list string;
  generated : list string;
  webui_attributes : list (Z * list (string * json));
  rate_cache : cache;
}.

#[local] Notation M := (STE world exn).

Definition set_users v w := mkWorld v (creds w) (token_objs w) (auths w) (fresh_ref w) (tokens w) (sessions w) (apps w) (aal_level w) (otpw w) (audit w) (session_events w) (revoked_keys w) (closed w) (generated w) (webui_attributes w) (rate_cache w).
Definition set_creds v w := mkWorld (users w) v (token_objs w) (auths w) (fresh_ref w) (tokens w) (sessions w) (apps w) (aal_level w) (otpw w) (audit w) (session_events w) (revoked_keys w) (closed w) (generated w) (webui_attributes w) (rate_cache w).
Definition set_token_objs v w := mkWorld (users w) (creds w) v (auths w) (fresh_ref w) (tokens w) (sessions w) (apps w) (aal_level w) (otpw w) (audit w) (session_events w) (revoked_keys w) (closed w) (generated w) (webui_attributes w) (rate_cache w).
Definition set_auths v w := mkWorld (users w) (creds w) (token_objs w) v (fresh_ref w) (tokens w) (sessions w) (apps w) (aal_level w) (otpw w) (audit w) (session_events w) (revoked_keys w) (closed w) (generated w) (webui_attributes w) (rate_cache w).
Definition set_fresh_ref v w := mkWorld (users w) (creds w) (token_objs w) (auths w) v (tokens w) (sessions w) (apps w) (aal_level w) (otpw w) (audit w) (session_events w) (revoked_keys w) (closed w) (generated w) (webui_attributes w) (rate_cache w).
Definition set_tokens v w := mkWorld (users w) (creds w) (token_objs w) (auths w) (fresh_ref w) v (sessions w) (apps w) (aal_level w) (otpw w) (audit w) (session_events w) (revoked_keys w) (closed w) (generated w) (webui_attributes w) (rate_cache w).
Definition set_sessions v w := mkWorld (users w) (creds w) (token_objs w) (auths w) (fresh_ref w) (tokens w) v (apps w) (aal_level w) (otpw w) (audit w) (session_events w) (revoked_keys w) (closed w) (generated w) (webui_attributes w) (rate_cache w).
Definition set_apps v w := mkWorld (users w) (creds w) (token_objs w) (auths w) (fresh_ref w) (tokens w) (sessions w) v (aal_level w) (otpw w) (audit w) (session_events w) (revoked_keys w) (closed w) (generated w) (webui_attributes w) (rate_cache w).
Definition set_aal_level v w := mkWorld (users w) (creds w) (token_objs w) (auths w) (fresh_ref w) (tokens w) (sessions w) (apps w) v (otpw w) (audit w) (session_events w) (revoked_keys w) (closed w) (generated w) (webui_attributes w) (rate_cache w).
Definition set_otpw v w := mkWorld (users w) (creds w) (token_objs w) (auths w) (fresh_ref w) (tokens w) (sessions w) (apps w) (aal_level w) v (audit w) (session_events w) (revoked_keys w) (closed w) (generated w) (webui_attributes w) (rate_cache w).
Definition set_audit v w := mkWorld (users w) (creds w) (token_objs w) (auths w) (fresh_ref w) (tokens w) (sessions w) (apps w) (aal_level w) (otpw w) v (session_events w) (revoked_keys w) (closed w) (generated w) (webui_attributes w) (rate_cache w).
Definition set_session_events v w := mkWorld (users w) (creds w) (token_objs w) (auths w) (fresh_ref w) (tokens w) (sessions w) (apps w) (aal_level w) (otpw w) (audit w) v (revoked_keys w) (closed w) (generated w) (webui_attributes w) (rate_cache w).
Definition set_revoked_keys v w := mkWorld (users w) (creds w) (token_objs w) (auths w) (fresh_ref w) (tokens w) (sessions w) (apps w) (aal_level w) (otpw w) (audit w) (session_events w) v (closed w) (generated w) (webui_attributes w) (rate_cache w).
Definition set_closed v w := mkWorld (users w) (creds w) (token_objs w) (auths w) (fresh_ref w) (tokens w) (sessions w) (apps w) (aal_level w) (otpw w) (audit w) (session_events w) (revoked_keys w) v (generated w) (webui_attributes w) (rate_cache w).
Definition set_generated v w := mkWorld (users w) (creds w) (token_objs w) (auths w) (fresh_ref w) (tokens w) (sessions w) (apps w) (aal_level w) (otpw w) (audit w) (session_events w) (revoked_keys w) (closed w) v (webui_attributes w) (rate_cache w).
Definition set_webui_attributes v w := mkWorld (users w) (creds w) (token_objs w) (auths w) (fresh_ref w) (tokens w) (sessions w) (apps w) (aal_level w) (otpw w) (audit w) (session_events w) (revoked_keys w) (closed w) (generated w) v (rate_cache w).
Definition set_rate_cache v w := mkWorld (users w) (creds w) (token_objs w) (auths w) (fresh_ref w) (tokens w) (sessions w) (apps w) (aal_level w) (otpw w) (audit w) (session_events w) (revoked_keys w) (closed w) (generated w) (webui_attributes w) v.

(** ** Objects *)

Definition alloc {A} (get : world -> gmap nat A) (set : gmap nat A -> world -> world) (a : A) : M nat :=
  update (fun w => let r := fresh_ref w in (set (<[r := a]> (get w)) (set_fresh_ref (S r) w), r)).

Definition new_user (u : user) : M nat := alloc users set_users u.
Definition new_cred (c : cred) : M nat := alloc creds set_creds c.
Definition new_auth (a : result exn authenticator) : M nat := a ← lift a; alloc auths set_auths a.

(** Run a method of the authenticator [r]. *)
Definition with_auth {A} (r : nat) (m : AM A) : M A :=
  fun w => match auths w !! r with
           | None => (w, Err (AttributeError "authenticator"))
           | Some a => let '((a, o), x) := m (a, otpw w) in (set_otpw o (set_auths (<[r := a]> (auths w)) w), x)
           end.

Definition get_app (sid : string) : M App := fun w => (w, match apps w !! sid with Some a => Ok a | None => Err (AttributeError "app") end).
Definition modify_app (sid : string) (f : App -> App) : M unit := modify (fun w => set_apps (alter f sid (apps w)) w).
Definition modify_cred (r : nat) (f : cred -> cred) : M unit := modify (fun w => set_creds (alter f r (creds w)) w).
Definition etc_generate (group : string) : M unit := modify (fun w => set_generated (generated w ++ [group]) w).
Definition log_audit (e : audit_entry) : M unit := modify (fun w => set_audit (audit w ++ [e]) w).

Definition set_app_credentials (v : option nat) (a : App) : App := mkApp (a_origin a) v (a_context a) (a_callbacks a).
Definition set_app_context (v : option AuthenticationContext) (a : App) : App := mkApp (a_origin a) (a_credentials a) v (a_callbacks a).
Definition register_callbacks (a : App) : App := mkApp (a_origin a) (a_credentials a) (a_context a) (S (a_callbacks a)).
Definition modify_ctx (sid : string) (f : AuthenticationContext -> AuthenticationContext) : M unit :=
  modify_app sid (fun a => set_app_context (f <$> a_context a) a).

Definition authenticated (a : App) : bool := bool_decide (is_Some (a_credentials a)).

(** ** Credentials (auth.py) *)

(** [UserSessionManagerCredentials.__init__] *)
Definition new_user_cred (now : Z) (cls : user_class) (uref : nat) (u : user) (assurance : option AuthenticatorAssuranceLevel)
    (auth : nat) : user_cred :=
  let al := new_Allowlist (c_allowlist (u_privilege u)) in
  match assurance with
  | None => mkUserCred cls uref None al None None now (Some auth) None
  | Some a => mkUserCred cls uref (Some a) al (Some (now + max_session_age a)%Z) (max_inactivity a) now (Some auth) None
  end.

(** [if self.inactivity_timeout:]: zero counts as unset. *)
Definition timeout_set (t : option Z) : option Z :=
  match t with Some t => if (t =? 0)%Z then None else Some t | None => None end.

Definition set_last_used_at (v : Z) (c : user_cred) : user_cred :=
  mkUserCred (uc_class c) (uc_user c) (uc_assurance c) (uc_allowlist c) (uc_expiry c) (uc_inactivity_timeout c) v
    (uc_authenticator c) (uc_login_id c).

(** [UserSessionManagerCredentials.notify_used] *)
Definition user_notify_used (now : Z) (c : user_cred) : user_cred :=
  match timeout_set (uc_inactivity_timeout c) with
  | Some t => if (now <? uc_last_used_at c + t)%Z then set_last_used_at now c else c
  | None => c
  end.

(** [UserSessionManagerCredentials.is_valid] *)
Definition user_is_valid (now : Z) (c : user_cred) : bool :=
  match uc_assurance c, uc_expiry c with
  | Some _, Some e =>
      if (e <? now)%Z then false
      else match timeout_set (uc_inactivity_timeout c) with
           | Some t => negb (uc_last_used_at c + t <? now)%Z
           | None => true
           end
  | _, _ => true
  end.

(** [Token.is_valid], [Token.notify_used] *)
Definition token_is_valid (now : Z) (t : Token) : bool := (now <? tk_last_used_at t + tk_ttl t)%Z.
Definition token_notify_used (now : Z) (t : Token) : Token :=
  mkToken (tk_token t) (tk_ttl t) (tk_attributes t) (tk_match_origin t) (tk_parent t) (tk_session_ids t) (tk_single_use t) now.

(** [is_valid] of any credentials.  The parent of a token is never a token
    credential (lemma [wf_parent]), so the depth [2] is enough. *)
Fixpoint cred_is_valid (depth : nat) (now : Z) (w : world) (r : nat) : bool :=
  match depth with
  | O => false
  | S depth =>
      match creds w !! r with
      | None => false
      | Some (UserCred c) => user_is_valid now c
      | Some (TokenCred c) =>
          if negb (cred_is_valid depth now w (tc_root c)) then false
          else if negb (tc_pam_authenticated c) then false
          else match token_objs w !! tc_token c with Some t => token_is_valid now t | None => false end
      | Some BaseCred | Some NodeCred => true
      end
  end.

Definition is_valid : Z -> world -> nat -> bool := cred_is_valid 2.

(** [authorize] *)
Fixpoint cred_authorize (depth : nat) (now : Z) (w : world) (method resource : string) (r : nat) : bool :=
  match depth with
  | O => false
  | S depth =>
      match creds w !! r with
      | None | Some BaseCred => false
      | Some NodeCred => true
      | Some (UserCred c) => if negb (user_is_valid now c) then false else Allowlist.authorize (uc_allowlist c) method resource
      | Some (TokenCred c) =>
          match token_objs w !! tc_token c with
          | Some t => cred_authorize depth now w method resource (tk_parent t)
          | None => false
          end
      end
  end.

Definition cred_authorizes : Z -> world -> string -> string -> nat -> bool := cred_authorize 2.

(** [has_role] *)
Fixpoint cred_has_role (depth : nat) (w : world) (role : string) (r : nat) : bool :=
  match depth with
  | O => false
  | S depth =>
      match creds w !! r with
      | Some (UserCred c) =>
          match users w !! uc_user c with Some u => bool_decide (role ∈ c_roles (u_privilege u)) | None => false end
      | Some (TokenCred c) =>
          match token_objs w !! tc_token c with Some t => cred_has_role depth w role (tk_parent t) | None => false end
      | _ => false
      end
  end.

Definition has_role : world -> string -> nat -> bool := cred_has_role 2.

Definition is_user_session (w : world) (r : nat) : bool :=
  match creds w !! r with
  | Some (UserCred _) => true
  | Some (TokenCred c) => tc_is_user_session c
  | _ => false
  end.

Definition may_create_auth_token (w : world) (r : nat) : bool :=
  match creds w !! r with
  | Some (UserCred c) => negb (bool_decide (uc_class c = CLoginOnetimePassword))
  | _ => true
  end.

(** The reference of [credentials.user], where the attribute exists *)
Definition cred_user_ref (w : world) (r : nat) : option nat :=
  match creds w !! r with
  | Some (UserCred c) => Some (uc_user c)
  | Some (TokenCred c) => if tc_is_user_session c then tc_user c else None
  | _ => None
  end.

Definition cred_user (w : world) (r : nat) : option user := cred_user_ref w r ≫= fun u => users w !! u.

Definition cred_allowlist (w : world) (r : nat) : option Allowlist :=
  match creds w !! r with
  | Some (UserCred c) => Some (uc_allowlist c)
  | Some (TokenCred c) => tc_allowlist c
  | _ => None
  end.

(** [class_name]: the class name without its suffix, in capitals with
    underscores *)
Definition py_class (c : cred) : string :=
  match c with
  | BaseCred => "" | NodeCred => "TruenasNode" | TokenCred _ => "Token"
  | UserCred c =>
      match uc_class c with
      | CUser => "User" | CApiKey _ => "ApiKey" | CUnixSocket => "UnixSocket" | CLoginPassword => "LoginPassword"
      | CLoginTwofactor => "LoginTwofactor" | CLoginOnetimePassword => "LoginOnetimePassword"
      end
  end.

Definition is_upper (c : ascii) : bool := let n := nat_of_ascii c in (65 <=? n) && (n <=? 90).
Definition upper_char (c : ascii) : ascii := let n := nat_of_ascii c in if (97 <=? n) && (n <=? 122) then ascii_of_nat (n - 32) else c.

Fixpoint underscored (s : string) : string :=
  match s with
  | "" => ""
  | String c s => (if is_upper c then String "_"%char (String c "") else String (upper_char c) "") +:+ underscored s
  end.

Fixpoint lstrip (c : ascii) (s : string) : string :=
  match s with
  | String c' s' => if Ascii.eqb c c' then lstrip c s' else s
  | "" => ""
  end.

Definition class_name (c : cred) : string := lstrip "_" (underscored (py_class c)).

(** [dump()]: its user name, [None] when it raises, as it does for an API key
    that was not found. *)
Definition user_dump (w : world) (c : user_cred) : option (option string) :=
  if bool_decide (uc_class c = CApiKey None) then None
  else match users w !! uc_user c with Some u => Some (Some (u_username u)) | None => None end.

Definition dump_username (w : world) (r : nat) : option (option string) :=
  match creds w !! r with
  | Some (UserCred c) => user_dump w c
  | Some (TokenCred c) =>
      t ← token_objs w !! tc_token c;
      _ ← match creds w !! tk_parent t with Some (UserCred c) => user_dump w c | _ => Some None end;
      Some (if tc_is_user_session c then u_username <$> cred_user w r else None)
  | Some _ => Some None
  | None => None
  end.

(** [dump_credentials]: the class name and the user name *)
Definition dump_credentials (w : world) (r : nat) : option (string * option string) :=
  c ← creds w !! r; n ← dump_username w r; Some (class_name c, n).

(** [notify_used] *)
Definition notify_root (now : Z) (r : nat) (w : world) : world :=
  match creds w !! r with
  | Some (UserCred c) => set_creds (<[r := UserCred (user_notify_used now c)]> (creds w)) w
  | _ => w
  end.

Definition notify_used (now : Z) (r : nat) (w : world) : world :=
  match creds w !! r with
  | Some (TokenCred c) =>
      let w := notify_root now (tc_root c) w in
      set_token_objs (alter (token_notify_used now) (tc_token c) (token_objs w)) w
  | _ => notify_root now r w
  end.

(** [Token.root_credentials]: follow tokens up to other credentials *)
Fixpoint root_of (depth : nat) (w : world) (r : nat) : option nat :=
  match depth with
  | O => None
  | S depth =>
      match creds w !! r with
      | Some (TokenCred c) => match token_objs w !! tc_token c with Some t => root_of depth w (tk_parent t) | None => None end
      | Some _ => Some r
      | None => None
      end
  end.

Definition root_credentials (w : world) (t : Token) : option nat := root_of 2 w (tk_parent t).

(** ** [TokenManager] (plugins/auth.py) *)

(** [create]; [name] is the random token string.  References are never
    dangling, so the lookups of [parent] and of the token do not fail. *)
Definition token_create (now : Z) (name : string) (ttl : Z) (attributes : list (string * json))
    (match_origin : option ConnectionOrigin) (parent : nat) (session_id : string) (single_use : bool) : M nat :=
  w ← gets id;
  c ← expect (creds w !! parent) (AttributeError "parent_credentials");
  let parent :=
    match c with
    | TokenCred c => match token_objs w !! tc_token c ≫= root_credentials w with Some r => r | None => parent end
    | _ => parent
    end in
  let t := mkToken name ttl attributes match_origin parent [session_id] single_use now in
  update (fun w =>
    let r := fresh_ref w in
    (set_tokens (Dict.set name r (tokens w)) (set_token_objs (<[r := t]> (token_objs w)) (set_fresh_ref (S r) w)), r)).

(** [get]; an expired token is dropped. *)
Definition token_get (now : Z) (name : string) (origin : option ConnectionOrigin) : M (option (nat * Token)) :=
  fun w =>
    match Dict.get name (tokens w) ≫= (fun r => t ← token_objs w !! r; Some (r, t)) with
    | None => (w, Ok None)
    | Some (r, t) =>
        if negb (token_is_valid now t) then (set_tokens (Dict.pop (tk_token t) (tokens w)) w, Ok None)
        else match tk_match_origin t with
             | None => (w, Ok (Some (r, t)))
             | Some mo =>
                 match origin with
                 | None => (w, Ok None)
                 | Some o => if origin_match mo o then (w, Ok (Some (r, t))) else (w, Ok None)
                 end
             end
    end.

Definition token_destroy (name : string) : M unit := modify (fun w => set_tokens (Dict.pop name (tokens w)) w).

Definition of_session (w : world) (session_id : string) (kv : string * nat) : bool :=
  match token_objs w !! kv.2 with Some t => bool_decide (session_id ∈ tk_session_ids t) | None => false end.

Definition destroy_by_session_id (session_id : string) : M unit :=
  modify (fun w => set_tokens (filter (fun kv => of_session w session_id kv = false) (tokens w)) w).

(** ** Login and logout of credentials *)

Definition LOGIN_ID_ERROR : string := "<ERROR: see /var/log/middlewared.log>".

Definition set_login_id (v : string) (c : cred) : cred :=
  match c with
  | UserCred c => UserCred (mkUserCred (uc_class c) (uc_user c) (uc_assurance c) (uc_allowlist c) (uc_expiry c)
                     (uc_inactivity_timeout c) (uc_last_used_at c) (uc_authenticator c) (Some v))
  | TokenCred c => TokenCred (mkTokenCred (tc_root c) (tc_token c) (tc_is_user_session c) (tc_user c) (tc_allowlist c)
                     (tc_pam_authenticated c) (tc_authenticator c) (Some v))
  | c => c
  end.

Definition drop_authenticator (c : cred) : cred :=
  match c with
  | UserCred c => UserCred (mkUserCred (uc_class c) (uc_user c) (uc_assurance c) (uc_allowlist c) (uc_expiry c)
                     (uc_inactivity_timeout c) (uc_last_used_at c) None (uc_login_id c))
  | c => c
  end.

(** The common body of the two [login] methods, with authenticator [a] *)
Definition login_with (r a : nat) : M auth_resp :=
  rsp ← with_auth a au_login;
  uuid ← gets (fun w => auths w !! a ≫= au_session_uuid);
  _ ← modify_cred r (set_login_id (default LOGIN_ID_ERROR uuid));
  mret rsp.

Definition cred_login (r : nat) : M auth_resp :=
  c ← gets (fun w => creds w !! r);
  match c with
  | None => raise (AttributeError "login")
  | Some (UserCred c) => a ← expect (uc_authenticator c) (AttributeError "login"); login_with r a
  | Some (TokenCred c) => login_with r (tc_authenticator c)
  | Some NodeCred => mret DEFAULT_LOGIN_SUCCESS
  | Some BaseCred => mret DEFAULT_LOGIN_FAIL
  end.

Definition cred_logout (r : nat) : M auth_resp :=
  c ← gets (fun w => creds w !! r);
  match c with
  | None => raise (AttributeError "logout")
  | Some (UserCred c) =>
      a ← expect (uc_authenticator c) (AttributeError "logout");
      rsp ← with_auth a au_logout;
      _ ← modify_cred r drop_authenticator;
      mret rsp
  | Some (TokenCred c) =>
      t ← gets (fun w => token_objs w !! tc_token c);
      _ ← match t with Some t => token_destroy (tk_token t) | None => mret tt end;
      with_auth (tc_authenticator c) au_logout
  | Some NodeCred => mret DEFAULT_LOGOUT_SUCCESS
  | Some BaseCred => mret DEFAULT_LOGOUT_FAIL
  end.

(** [TokenSessionManagerCredentials.__init__], of the token object [t] *)
Definition new_token_cred (t auth : nat) : M nat :=
  w ← gets id;
  tok ← expect (token_objs w !! t) (AttributeError "token");
  root ← expect (root_credentials w tok) (AttributeError "is_user_session");
  new_cred (TokenCred (mkTokenCred root t (is_user_session w root) (cred_user_ref w root) (cred_allowlist w root) false auth None)).

Definition set_pam_authenticated (v : bool) (c : cred) : cred :=
  match c with
  | TokenCred c => TokenCred (mkTokenCred (tc_root c) (tc_token c) (tc_is_user_session c) (tc_user c) (tc_allowlist c)
                     v (tc_authenticator c) (tc_login_id c))
  | c => c
  end.

(** [pam_authenticate] of the token credentials [r] *)
Definition token_pam_authenticate (cf : config) (rounds r : nat) : M auth_resp :=
  c ← gets (fun w => creds w !! r);
  match c with
  | Some (TokenCred c) =>
      if tc_pam_authenticated c then raise (EOther "AssertionError" "")
      else
        name ← gets (fun w => if tc_is_user_session c then u_username <$> cred_user w r else Some "root");
        name ← expect name (AttributeError "user");
        rsp ← with_auth (tc_authenticator c) (internal_authenticate check_unixhash (cf_os cf) rounds name);
        _ ← modify_cred r (set_pam_authenticated (bool_decide (r_code rsp = PAM_SUCCESS)));
        mret rsp
  | _ => raise (AttributeError "pam_authenticate")
  end.

(** ** [SessionManager] *)

(** [is_internal_session], of the application of session [sid] *)
Definition is_internal_session (w : world) (sid : string) : bool :=
  match apps w !! sid with
  | None => false
  | Some a =>
      match a_origin a with
      | Some o => is_unix_family o && bool_decide (o_uid o = Some 0%Z)
      | None => false
      end
      || match a_credentials a ≫= (fun r => creds w !! r) with Some NodeCred => true | _ => false end
  end.

Definition audit_credentials (sid event : string) (r : option nat) (error : option string) (success : bool) : M unit :=
  r ← expect r (AttributeError "class_name");
  d ← gets (fun w => dump_credentials w r);
  d ← expect d (TypeError "'NoneType' object is not subscriptable");
  log_audit (mkAudit sid event d.1 d.2 error success).

Definition send_session_event (event sid : string) : M unit :=
  modify (fun w => set_session_events (session_events w ++ [(event, sid)]) w).

(** [SessionManager.login] *)
Definition session_login (cf : config) (sid : string) (r : nat) : M unit :=
  a ← get_app sid;
  if authenticated a then
    _ ← cred_login r;
    s ← gets (fun w => Dict.get sid (sessions w));
    s ← expect s (EOther "KeyError" sid);
    _ ← modify (fun w => set_sessions (Dict.set sid (mkSession r (s_created_at s)) (sessions w)) w);
    _ ← modify_app sid (set_app_credentials (Some r));
    audit_credentials sid "AUTHENTICATION" (Some r) None true
  else
    rsp ← cred_login r;
    if negb (bool_decide (r_code rsp = PAM_SUCCESS)) then raise (CallError "Login with credentials failed" EFAULT)
    else
      _ ← modify (fun w => set_sessions (Dict.set sid (mkSession r (os_now (cf_os cf))) (sessions w)) w);
      _ ← modify_app sid (fun a => register_callbacks (set_app_credentials (Some r) a));
      internal ← gets (fun w => is_internal_session w sid);
      if internal : bool then mret tt
      else
        _ ← send_session_event "ADDED" sid;
        audit_credentials sid "AUTHENTICATION" (Some r) None true.

(** [SessionManager.logout] *)
Definition session_logout (sid : string) : M unit :=
  s ← gets (fun w => Dict.get sid (sessions w));
  match s with
  | None => modify_app sid (set_app_credentials None)
  | Some s =>
      internal ← gets (fun w => is_internal_session w sid);
      a ← get_app sid;
      _ ← (if internal : bool then mret tt else audit_credentials sid "LOGOUT" (a_credentials a) None true);
      _ ← modify (fun w => set_sessions (Dict.pop sid (sessions w)) w);
      _ ← modify_app sid (fun a => set_app_credentials None (set_app_context None a));
      _ ← cred_logout (s_credentials s);
      if internal : bool then mret tt else send_session_event "REMOVED" sid
  end.

(** [_app_on_message] *)
Definition _app_on_message (now : Z) (sid : string) : M unit :=
  s ← gets (fun w => Dict.get sid (sessions w));
  match s with
  | None => modify_app sid (set_app_credentials None)
  | Some s =>
      valid ← gets (fun w => is_valid now w (s_credentials s));
      if negb valid then session_logout sid
      else modify (notify_used now (s_credentials s))
  end.

(** [RpcWebSocketApp.run_callback]: an exception of a callback is logged and the
    next one runs. *)
Fixpoint run_callbacks (n : nat) (m : M unit) : M unit :=
  match n with
  | O => mret tt
  | S n => fun w => run_callbacks n m (m w).1
  end.

(** A message arrives, the connection is closed. *)
Definition app_message (now : Z) (sid : string) : M unit :=
  a ← get_app sid; run_callbacks (a_callbacks a) (_app_on_message now sid).
Definition app_close (sid : string) : M unit :=
  a ← get_app sid; run_callbacks (a_callbacks a) (session_logout sid).

(** ** [AuthService] *)

(** [terminate_session] *)
Definition terminate_session (id_ : string) : M bool :=
  s ← gets (fun w => Dict.get id_ (sessions w));
  match s with
  | None => mret false
  | Some _ =>
      _ ← destroy_by_session_id id_;
      _ ← modify (fun w => set_closed (closed w ++ [id_]) w);
      mret true
  end.

(** [terminate_other_sessions]; closing a web socket is taken not to raise. *)
Definition terminate_other_sessions (sid : string) : M bool :=
  l ← gets (fun w => Dict.keys (sessions w));
  (fix go (l : list string) : M bool :=
     match l with
     | [] => mret true
     | id_ :: l =>
         internal ← gets (fun w => is_internal_session w id_);
         _ ← (if String.eqb id_ sid || internal then mret true else terminate_session id_);
         go l
     end) l.

(** [generate_onetime_password]; [p] is the random string. *)
Definition generate_onetime_password (sha512_crypt : string -> string) (cf : config) (p : string) (sid username : string) : M string :=
  a ← get_app sid;
  r ← expect (a_credentials a) (AttributeError "is_user_session");
  admin ← gets (fun w => if is_user_session w r then has_role w "ACCOUNT_WRITE" r else true);
  match cf_user_query cf username with
  | None => raise (EValidationError (mkVE (Some "auth.generate_onetime_password.username") (username +:+ ": user does not exist.") EINVAL))
  | Some (uid, _, password_disabled, locked, _) =>
      let attr := Some "auth.generate_onetime_password.username" in
      let v : VErrors.t := [] in
      let v := if password_disabled : bool
               then VErrors.add attr (username +:+ ": password authentication is disabled for account.") EINVAL v else v in
      let v := if locked : bool then VErrors.add attr (username +:+ ": account is locked.") EINVAL v else v in
      _ ← lift (VErrors.check v);
      update (fun w => let '(m, k) := generate_for_uid sha512_crypt p (os_now (cf_os cf)) uid admin (otpw w) in (set_otpw m w, k))
  end.

(** [job.credential_access_error] and [job.pipes.output] of the job of an id,
    for the credentials: the component [JobModel]. *)
Definition job_check : Type := Z -> world -> nat -> option (option string * bool).

Definition DEFAULT_TOKEN_TTL : Z := 600.
Definition MIN_RECONNECT_TOKEN_TTL : Z := 60.

(** [generate_token]; [name] is the random token string. *)
Definition generate_token (jobs : job_check) (cf : config) (name sid : string) (ttl : option Z) (attrs : list (string * json))
    (match_origin single_use : bool) : M string :=
  a ← get_app sid;
  lvl ← gets aal_level;
  if negb single_use && negb (bool_decide (lvl = AA_LEVEL1))
  then raise (CallError "Multi-use authentication tokens are not supported at current authenticator level." EOPNOTSUPP)
  else
    r ← expect (a_credentials a) (AttributeError "may_create_auth_token");
    may ← gets (fun w => may_create_auth_token w r);
    if negb may
    then raise (CallError "the current session type does not support creation of authentication tokens." EOPNOTSUPP)
    else
      let ttl := default DEFAULT_TOKEN_TTL ttl in
      _ ← match Dict.get "job" attrs with
          | None | Some JNull => mret tt
          | Some (JInt id) =>
              j ← gets (fun w => jobs id w r);
              match j with
              | None => raise (CallError "job does not exist." EFAULT)
              | Some (Some err, _) => raise (CallError err EFAULT)
              | Some (None, false) => raise (CallError "job is not suitable for download token" EFAULT)
              | Some (None, true) => mret tt
              end
          | Some _ => raise (CallError "job does not exist." EFAULT)
          end;
      t ← token_create (os_now (cf_os cf)) name ttl attrs (if match_origin : bool then a_origin a else None) r sid single_use;
      mret name.

(** A single-use token is destroyed, another one needs level 1. *)
Definition consume_token (t : Token) : M unit :=
  lvl ← gets aal_level;
  if tk_single_use t then token_destroy (tk_token t)
  else if negb (bool_decide (lvl = AA_LEVEL1))
  then raise (CallError "Multi-use API tokens are not supported at the current security level" EOPNOTSUPP)
  else mret tt.

Definition get_token (now : Z) (token_id : string) (origin : option ConnectionOrigin) : M (option (list (string * json))) :=
  t ← token_get now token_id origin;
  match t with
  | None => mret None
  | Some (_, t) => _ ← consume_token t; mret (Some (tk_attributes t))
  end.

Definition username_of (w : world) (r : nat) : option string :=
  if is_user_session w r then mjoin (dump_username w r) else Some "root".

Definition get_token_for_action (cf : config) (rounds : nat) (sid token_id : string) (origin : option ConnectionOrigin)
    (method resource : string) : M (option nat) :=
  let now := os_now (cf_os cf) in
  t ← token_get now token_id origin;
  match t with
  | None => mret None
  | Some (tr, t) =>
      if negb (bool_decide (tk_attributes t = [])) then mret None
      else
        ok ← gets (fun w => cred_authorizes now w method resource (tk_parent t));
        if negb ok then mret None
        else
          a ← get_app sid;
          match a_context a with
          | None => raise (CallError "Authentication context was not initialized" EFAULT)
          | Some c =>
              match pam_hdl c with
              | Some _ => raise (CallError "Unexpected existing authenticator" EFAULT)
              | None =>
                  root ← gets (fun w => root_credentials w t);
                  root ← expect root (CallError "Token has no root credentials - this indicates a serious system error" EFAULT);
                  name ← gets (fun w => username_of w root);
                  name ← expect name (EOther "KeyError" "username");
                  h ← new_auth (TokenPamAuthenticator (cf_os cf) name origin);
                  _ ← modify_ctx sid (fun c => mkCtx (Some h) (next_mech c) (auth_data c));
                  _ ← consume_token t;
                  r ← new_token_cred tr h;
                  rsp ← token_pam_authenticate cf rounds r;
                  if bool_decide (r_code rsp = PAM_SUCCESS) then mret (Some r)
                  else raise (CallError "Failed to get token for action" EFAULT)
              end
          end
  end.

Definition get_token_for_shell_application (now : Z) (token_id : string) (origin : option ConnectionOrigin) : M (option string) :=
  t ← token_get now token_id origin;
  match t with
  | None => mret None
  | Some (_, t) =>
      if negb (bool_decide (tk_attributes t = [])) then mret None
      else
        u ← gets (fun w => match root_credentials w t ≫= (fun r => creds w !! r) with
                           | Some (UserCred c) => users w !! uc_user c
                           | _ => None
                           end);
        match u with
        | None => mret None
        | Some u =>
            if negb (c_web_shell (u_privilege u)) then mret None
            else
              _ ← (if tk_single_use t then token_destroy (tk_token t) else mret tt);
              mret (Some (u_username u))
        end
  end.

Definition set_authenticator_assurance_level (level : string) : M unit :=
  if String.eqb level "LEVEL_1" then modify (set_aal_level AA_LEVEL1)
  else if String.eqb level "LEVEL_2" then modify (set_aal_level AA_LEVEL2)
  else if String.eqb level "LEVEL_3" then modify (set_aal_level AA_LEVEL3)
  else raise (CallError (level +:+ ": unknown authenticator assurance level") EFAULT).

Definition get_authenticator_assurance_level : M string :=
  l ← gets aal_level;
  if bool_decide (l = AA_LEVEL1) then mret "LEVEL_1"
  else if bool_decide (l = AA_LEVEL2) then mret "LEVEL_2"
  else if bool_decide (l = AA_LEVEL3) then mret "LEVEL_3"
  else raise (CallError "unknown authenticator assurance level" EFAULT).

(** [mechanism_choices]: [None] for [app] is a call without an application. *)
Definition mechanism_choices (app : option string) : M (list AuthMech) :=
  gets (fun w =>
    let allows := match (sid ← app; a ← apps w !! sid; a_credentials a) with
                  | Some r => may_create_auth_token w r
                  | None => true
                  end in
    if allows then mechanisms (aal_level w)
    else filter (fun m => m ≠ TOKEN_PLAIN) (mechanisms (aal_level w))).

(** [check_auth_mechanism], on the context of the application *)
Definition check_auth_mechanism (sid : string) (mechanism : AuthMech) (level : AuthenticatorAssuranceLevel) : M unit :=
  a ← get_app sid;
  c ← expect (a_context a) (AttributeError "next_mech");
  let discard := match next_mech c with Some m => negb (bool_decide (m = mechanism)) | None => false end in
  _ ← (if discard then
         _ ← (if bool_decide (next_mech c = Some OTP_TOKEN)
              then log_audit (mkAudit sid "AUTHENTICATION" "LOGIN_TWOFACTOR" (Some (default "<UNKNOWN>" (auth_data c)))
                     (Some "Abandoning login attempt after being presented with requirement for second factor for authentication.") false)
              else mret tt);
         modify_ctx sid (fun c => mkCtx (pam_hdl c) None None)
       else mret tt);
  let pending := if discard then None else next_mech c in
  if bool_decide (pending = None) && bool_decide (mechanism = OTP_TOKEN)
  then raise (CallError "no authentication in progress" EINVAL)
  else if negb (aal_auth_mechanism_check mechanism level)
  then raise (CallError "mechanism is not supported at current authenticator level." EOPNOTSUPP)
  else mret tt.
End sessions.

(** The effects of the session code *)
Notation M := (STE world exn).
