(* ===== verification/Login.v ===== *)
(** * Logging in (src/middlewared/middlewared/plugins/auth.py, plugins/auth_/login_ex_impl.py,
    plugins/auth_/authenticate.py and main.py)

    [auth.login_ex] checks the mechanism against the authenticator level, runs
    the PAM exchange of the mechanism and hands the credentials to the session
    manager; [authorize_method_call] decides every method call of a session. *)

From Stdlib Require Import Ascii.
From S2P Require Import Prelude PyDict PyStr PyVal Errors Roles Allowlist Privilege Origin RateLimit AuthLevels Authenticator Sessions.

(** [login_options] *)
Record login_options := mkOpts { lo_user_info : bool; lo_reconnect_token : bool }.

(** The argument of [auth.login_ex], by mechanism *)
Inductive login_data :=
| DPassword (username password : string) (o : login_options)
| DApiKey (username api_key : string) (o : login_options)
| DOtp (otp_token : string) (o : login_options)
| DToken (token : string) (o : login_options)
| DScram (scram_type rfc_str : string).

Definition mechanism_of (d : login_data) : AuthMech :=
  match d with
  | DPassword _ _ _ => PASSWORD_PLAIN | DApiKey _ _ _ => API_KEY_PLAIN | DOtp _ _ => OTP_TOKEN
  | DToken _ _ => TOKEN_PLAIN | DScram _ _ => SCRAM
  end.

(** [login_options]: the SCRAM messages have none. *)
Definition options_of (d : login_data) : option login_options :=
  match d with
  | DPassword _ _ o | DApiKey _ _ o | DOtp _ o | DToken _ o => Some o
  | DScram _ _ => None
  end.

(** What [auth.me] returns beside the passwd entry. *)
Record me_info := mkMe {
  me_username : string;
  me_privilege : composed;
  me_account_attributes : list string;
  me_attributes : list (string * json);
}.

Inductive login_response :=
| LSuccess (user_info : option me_info) (authenticator : string) (reconnect_token : option string)
| LOtpRequired (username : string)
| LScram (scram_type : string) (rfc_str : pam_reason) (user_info : option me_info)
| LRedirect (urls : list string)
| LFailed (response_type : AuthResp).

Definition response_type (r : login_response) : AuthResp :=
  match r with
  | LSuccess _ _ _ => ASuccess | LOtpRequired _ => OTP_REQUIRED | LScram _ _ _ => SCRAM_RESPONSE
  | LRedirect _ => REDIRECT | LFailed t => t
  end.

Section login.
Context `{!PamStack} (check_unixhash : string -> string -> bool) (rounds : nat).

(** ** [auth.authenticate_user] and [auth.authenticate_root] *)

Definition role_error (e : role_exn) : exn := EOther "KeyError" "role".

Definition authenticate_user (cf : config) (u : passwd) : result exn (option user) :=
  match cf_user_query cf (pw_name u) with
  | None => Ok None
  | Some (uid, loc, _, _, _) =>
      if negb (uid =? pw_uid u)%Z then Ok None
      else if negb (Bool.eqb (pw_local u) loc) then Ok None
      else
        let groups_key := if pw_local u then local_groups else ds_groups in
        match privileges_for_groups groups_key (map Gid (pw_grouplist u)) (cf_convert_unixids cf) (cf_privileges cf) with
        | [] => Ok None
        | privileges =>
            match compose_privilege 6 (cf_roles cf) (cf_enable_gpos_stig cf) privileges with
            | Err e => Err (role_error e)
            | Ok c => Ok (Some (mkUser (pw_name u) c (pw_account_attributes u)))
            end
        end
  end.

Definition authenticate_root : user := mkUser "root" full_privilege ["LOCAL"; "SYS_ADMIN"].

(** ** [login_ex_impl.py] *)

Definition ctx_handle (sid : string) : M nat :=
  a ← get_app sid;
  c ← expect (a_context a) (AttributeError "pam_hdl");
  expect (pam_hdl c) (RuntimeError "pam handle was not initialized").

Definition set_pam_hdl (sid : string) (h : option nat) : M unit :=
  modify_ctx sid (fun c => mkCtx h (next_mech c) (auth_data c)).
Definition set_next (sid : string) (m : option AuthMech) (d : option string) : M unit :=
  modify_ctx sid (fun c => mkCtx (pam_hdl c) m d).

(** The operating system after a configuration group was generated. *)
Definition generate_env (e : os_env) (group : string) : os_env :=
  mkOs (os_getpwnam e) (os_getgrouplist e) (os_group_source e) (os_ds_is_ipa e) (os_tally_locked e)
    (os_files e) (os_generated e ++ [group]) (os_is_loopback e) (os_now e).

(** [_auth_ctx_check]: whether the configuration files exist, and the operating
    system as it is after the check. *)
Definition _auth_ctx_check (e : os_env) (sid cred_type : string) (oath_file_check : bool) : M (bool * os_env) :=
  h ← ctx_handle sid;
  svc ← gets (fun w => default "" (au_service <$> auths w !! h));
  e ← (if os_exists e (pam_path svc) then mret e else _ ← etc_generate "pam"; mret (generate_env e "pam"));
  let pam_missing := negb (os_exists e (pam_path svc)) in
  e ← (if pam_missing || negb oath_file_check || os_exists e OATH_FILE then mret e
       else _ ← etc_generate "user"; mret (generate_env e "user"));
  let oath_missing := negb pam_missing && oath_file_check && negb (os_exists e OATH_FILE) in
  _ ← (if pam_missing || oath_missing
       then log_audit (mkAudit sid "AUTHENTICATION" cred_type None
              (Some (if pam_missing then "Unable to generate PAM service file for middleware. Denying access."
                     else "Unable to generate OATH users file. Denying access.")) false)
       else mret tt);
  mret (negb (pam_missing || oath_missing), e).

Definition precheck_failed : auth_resp := resp PAM_ABORT "Failed authentication configuration precheck".
Definition lacks_access : auth_resp := resp PAM_PERM_DENIED "User lacks API access.".

Definition with_os (cf : config) (e : os_env) : config :=
  mkConfig e (cf_user_query cf) (cf_uid_of cf) (cf_name_of cf) (cf_privileges cf) (cf_convert_unixids cf) (cf_roles cf)
    (cf_enable_gpos_stig cf) (cf_api_key cf) (cf_failover_licensed cf) (cf_failover_status cf) (cf_remote_status cf)
    (cf_remote_ips cf).

(** [authenticate_user] of the account the response is about *)
Definition user_of_response (cf : config) (r : auth_resp) : M (option user) :=
  u ← expect (r_user_info r) (TypeError "'NoneType' object is not subscriptable");
  lift (authenticate_user cf u).

(** A new credentials object of the class, for the user *)
Definition make_cred (cf : config) (cls : user_class) (u : user) (h : nat) : M nat :=
  lvl ← gets aal_level;
  ur ← new_user u;
  new_cred (UserCred (new_user_cred (os_now (cf_os cf)) cls ur u (Some lvl) h)).

Definition fail_audit (sid cls : string) (username : option string) (error : string) : M unit :=
  log_audit (mkAudit sid "AUTHENTICATION" cls username (Some error) false).

Definition reason_text (r : auth_resp) : string := match r_reason r with RText s => s | _ => "" end.

Definition login_ex_password_plain (cf : config) (sid username password : string) : M (auth_resp * option nat) :=
  a ← get_app sid;
  h ← new_auth (UserPamAuthenticator (cf_os cf) username (a_origin a));
  _ ← set_pam_hdl sid (Some h);
  ck ← _auth_ctx_check (cf_os cf) sid "LOGIN_PASSWORD" true;
  if negb ck.1 then mret (precheck_failed, None)
  else
    rsp ← with_auth h (user_authenticate check_unixhash ck.2 rounds username password);
    let otpw := bool_decide (r_code rsp = PAM_SUCCESS) &&
                match r_user_info rsp with Some u => bool_decide ("OTPW" ∈ pw_account_attributes u) | None => false end in
    let cred_type := if otpw then "ONETIME_PASSWORD" else "LOGIN_PASSWORD" in
    lvl ← gets aal_level;
    let denied := bool_decide (r_code rsp = PAM_SUCCESS) && otp_mandatory lvl && negb otpw in
    _ ← (if denied then with_auth h au_end else mret tt);
    let rsp := if denied then resp PAM_AUTH_ERR "User does not have two factor authentication enabled." else rsp in
    match r_code rsp with
    | PAM_SUCCESS =>
        u ← user_of_response cf rsp;
        match u with
        | Some u =>
            r ← make_cred cf (if otpw then CLoginOnetimePassword else CLoginPassword) u h;
            mret (rsp, Some r)
        | None =>
            _ ← with_auth h au_end;
            _ ← fail_audit sid cred_type (Some username) "User lacks API access.";
            mret (lacks_access, None)
        end
    | PAM_CONV_AGAIN =>
        _ ← set_next sid (Some OTP_TOKEN) (Some username);
        mret (rsp, None)
    | _ =>
        _ ← fail_audit sid cred_type (Some username) (reason_text rsp);
        mret (rsp, None)
    end.

(** [int(api_key.split('-')[0])] *)
Definition api_key_id (k : string) : option Z := Str.py_int (default "" (head (Str.split "-" k))).

Definition login_ex_api_key_plain (cf : config) (sid username api_key : string) : M (auth_resp * option nat) :=
  a ← get_app sid;
  h ← new_auth (ApiKeyPamAuthenticator (cf_os cf) username (a_origin a));
  _ ← set_pam_hdl sid (Some h);
  ck ← _auth_ctx_check (cf_os cf) sid "API_KEY" false;
  if negb ck.1 then mret (precheck_failed, None)
  else
    rsp ← with_auth h (api_key_authenticate check_unixhash ck.2 rounds username api_key);
    let key := id ← api_key_id api_key; k ← cf_api_key cf id; Some (id, k) in
    rsp ← match key with
          | Some (_, (_, _, expires, revoked)) =>
              if bool_decide (r_code rsp = PAM_AUTHINFO_UNAVAIL) then
                if expires : bool then mret (resp PAM_CRED_EXPIRED "Api key is expired")
                else if revoked : bool then mret (resp PAM_AUTH_ERR "API key is revoked")
                else _ ← etc_generate "pam"; mret rsp
              else mret rsp
          | None => mret rsp
          end;
    x ← (if bool_decide (r_code rsp = PAM_SUCCESS) then
           o ← expect (a_origin a) (AttributeError "secure_transport");
           if negb (secure_transport (os_is_loopback (cf_os cf)) o) then
             id ← expect (api_key_id api_key) (EOther "UnboundLocalError" "key_id");
             _ ← modify (fun w => set_revoked_keys (revoked_keys w ++ [id]) w);
             _ ← with_auth h au_end;
             mret (resp PAM_CRED_EXPIRED "API key revoked due to insecure transport", None)
           else
             u ← user_of_response cf rsp;
             match u with
             | Some u =>
                 r ← make_cred cf (CApiKey ('(id, (_, name, _, _)) ← key; Some (id, name))) u h;
                 mret (rsp, Some r)
             | None => _ ← with_auth h au_end; mret (lacks_access, None)
             end
         else mret (rsp, None));
    _ ← (if bool_decide (r_code x.1 = PAM_SUCCESS) then mret tt
         else fail_audit sid "API_KEY" (Some username) (reason_text x.1));
    mret x.

Definition login_ex_oath_token (cf : config) (sid otp_token : string) : M (auth_resp * option nat) :=
  ck ← _auth_ctx_check (cf_os cf) sid "LOGIN_TWOFACTOR" true;
  if negb ck.1 then mret (precheck_failed, None)
  else
    h ← ctx_handle sid;
    rsp ← with_auth h (authenticate_oath otp_token);
    a ← get_app sid;
    let data := a_context a ≫= auth_data in
    _ ← set_next sid None None;
    data ← expect data (CallError "No authentication context data available for OTP validation" EFAULT);
    if bool_decide (r_code rsp = PAM_SUCCESS) then
      u ← user_of_response cf rsp;
      match u with
      | Some u => r ← make_cred cf CLoginTwofactor u h; mret (rsp, Some r)
      | None =>
          _ ← with_auth h au_end;
          _ ← fail_audit sid "LOGIN_TWOFACTOR" (Some data) "User lacks API access.";
          mret (lacks_access, None)
      end
    else
      _ ← fail_audit sid "LOGIN_TWOFACTOR" (Some data) ("One-time token validation failed: " +:+ reason_text rsp);
      mret (rsp, None).

Definition login_ex_token_plain (cf : config) (sid token_str : string) : M (auth_resp * option nat) :=
  a ← get_app sid;
  t ← token_get (os_now (cf_os cf)) token_str (a_origin a);
  match t with
  | None => _ ← fail_audit sid "TOKEN" None "Invalid token"; mret (resp PAM_AUTH_ERR "Invalid token", None)
  | Some (tr, t) =>
      if negb (bool_decide (tk_attributes t = [])) then
        _ ← fail_audit sid "TOKEN" None "Bad token"; mret (resp PAM_AUTH_ERR "Bad token", None)
      else
        root ← gets (fun w => root_credentials w t);
        root ← expect root (CallError "Token has no root credentials - this indicates a serious system error" EFAULT);
        name ← gets (fun w => username_of w root);
        name ← expect name (EOther "KeyError" "username");
        h ← new_auth (TokenPamAuthenticator (cf_os cf) name (a_origin a));
        _ ← set_pam_hdl sid (Some h);
        r ← new_token_cred tr h;
        rsp ← token_pam_authenticate check_unixhash cf rounds r;
        _ ← (if bool_decide (r_code rsp = PAM_SUCCESS)
             then if tk_single_use t then token_destroy (tk_token t) else mret tt
             else
               n ← gets (fun w => dump_username w r);
               n ← expect n (TypeError "'NoneType' object is not subscriptable");
               fail_audit sid "TOKEN" n (reason_text rsp));
        mret (rsp, Some r)
  end.

Definition login_ex_scram (cf : config) (sid scram_type rfc_str : string) : M (auth_resp * option nat) :=
  if String.eqb scram_type "CLIENT_FIRST_MESSAGE" then
    a ← get_app sid;
    h ← new_auth (ScramPamAuthenticator (cf_os cf) rfc_str (a_origin a));
    _ ← set_pam_hdl sid (Some h);
    ck ← _auth_ctx_check (cf_os cf) sid "SCRAM" false;
    if negb ck.1 then mret (precheck_failed, None)
    else
      rsp ← with_auth h (handle_first_message ck.2);
      _ ← (if bool_decide (r_code rsp = PAM_CONV_AGAIN)
           then modify_ctx sid (fun c => mkCtx (pam_hdl c) (Some SCRAM) (auth_data c))
           else fail_audit sid "SCRAM" None (reason_text rsp));
      mret (rsp, None)
  else if String.eqb scram_type "CLIENT_FINAL_MESSAGE" then
    ck ← _auth_ctx_check (cf_os cf) sid "SCRAM" false;
    if negb ck.1 then mret (precheck_failed, None)
    else
      a ← get_app sid;
      if negb (bool_decide ((c ← a_context a; next_mech c) = Some SCRAM))
      then raise (CallError "SCRAM authentication is not in progress" EFAULT)
      else
        h ← ctx_handle sid;
        cls ← gets (fun w => au_class <$> auths w !! h);
        if negb (bool_decide (cls = Some ScramPam)) then raise (RuntimeError "Expected ScramPamAuthenticator for SCRAM final message")
        else
          _ ← modify_ctx sid (fun c => mkCtx (pam_hdl c) None (auth_data c));
          rsp ← with_auth h (handle_final_message rfc_str);
          if bool_decide (r_code rsp = PAM_SUCCESS) then
            u ← user_of_response cf rsp;
            dbid ← gets (fun w => default JNull (au_dbid <$> auths w !! h));
            cls ← match dbid with
                  | JInt id =>
                      if truthy dbid then
                        k ← expect (cf_api_key cf id) (EOther "MatchNotFound" "");
                        mret (CApiKey (Some (id, k.1.1.2)))
                      else mret CUser
                  | _ => mret CUser
                  end;
            u ← expect u (TypeError "'NoneType' object is not subscriptable");
            r ← make_cred cf cls u h;
            mret (rsp, Some r)
          else
            _ ← fail_audit sid "SCRAM" None (reason_text rsp);
            mret (rsp, None)
  else raise (CallError (scram_type +:+ ": invalid SCRAM type") EFAULT).

(** ** [auth.me] and the attributes of the web interface *)

(** The user of the root credentials of [r], for which [auth.me] answers *)
Definition me_user (w : world) (r : nat) : option user :=
  match creds w !! r with
  | Some (UserCred c) => users w !! uc_user c
  | Some (TokenCred c) =>
      match (t ← token_objs w !! tc_token c; r ← root_credentials w t; creds w !! r) with
      | Some (UserCred c) => users w !! uc_user c
      | _ => None
      end
  | _ => None
  end.

Definition _me (cf : config) (sid : string) : M (me_info * Z) :=
  a ← get_app sid;
  r ← expect (a_credentials a) (AttributeError "class_name");
  u ← gets (fun w => me_user w r);
  u ← expect u (CallError "You are logged in using other credentials" EFAULT);
  let name := u_username u in
  change ← (if bool_decide ("LOCAL" ∈ u_account_attributes u) then
              match cf_user_query cf name with
              | Some (_, true, _, _, required) => mret required
              | _ => raise (EOther "MatchNotFound" "")
              end
            else mret false);
  uid ← expect (cf_uid_of cf name) (EOther "KeyError" name);
  mret (mkMe name (u_privilege u) (u_account_attributes u ++ (if change : bool then ["PASSWORD_CHANGE_REQUIRED"] else [])) [], uid).

Definition me (cf : config) (sid : string) : M me_info :=
  x ← _me cf sid;
  attrs ← gets (fun w => default [] (Dict.get x.2 (webui_attributes w)));
  mret (mkMe (me_username x.1) (me_privilege x.1) (me_account_attributes x.1) attrs).

Definition set_attribute (cf : config) (sid key : string) (value : json) : M unit :=
  x ← _me cf sid;
  modify (fun w =>
    let attrs := default [] (Dict.get x.2 (webui_attributes w)) in
    set_webui_attributes (Dict.set x.2 (Dict.set key value attrs) (webui_attributes w)) w).

(** ** [auth.login_ex] *)

(** The life time of a reconnect token: the preference of the user when it is
    an integer and not too small, at most the age of a session *)
Definition reconnect_ttl (me : me_info) (lvl : AuthenticatorAssuranceLevel) : result exn Z :=
  ttl ← match Dict.get "preferences" (me_attributes me) with
        | Some (JDict p) =>
            match default (JInt DEFAULT_TOKEN_TTL) (Dict.get "lifetime" p) with
            | JInt t => Ok (if (MIN_RECONNECT_TOKEN_TTL <=? t)%Z then t else DEFAULT_TOKEN_TTL)
            | _ => Ok DEFAULT_TOKEN_TTL
            end
        | Some _ => Err (AttributeError "get")
        | None => Ok DEFAULT_TOKEN_TTL
        end;
  Ok (Z.min ttl (max_session_age lvl)).

Context (jobs : job_check).

(** After PAM accepted: log in and build the answer; [name] is the random string
    of the reconnect token. *)
Definition login_success (cf : config) (name sid : string) (o : option login_options) (r : nat) : M login_response :=
  _ ← session_login cf sid r;
  o ← expect o (EOther "KeyError" "login_options");
  info ← (if lo_user_info o then x ← me cf sid; mret (Some x) else mret None);
  lvl ← get_authenticator_assurance_level;
  failed ← gets (fun w => match creds w !! r with
                          | Some (UserCred c) => bool_decide (uc_login_id c = Some LOGIN_ID_ERROR)
                          | Some (TokenCred c) => bool_decide (tc_login_id c = Some LOGIN_ID_ERROR)
                          | _ => false
                          end);
  _ ← (if failed : bool then etc_generate "pam" else mret tt);
  _ ← set_pam_hdl sid None;
  may ← gets (fun w => may_create_auth_token w r);
  if lo_reconnect_token o && may then
    x ← match info with Some x => mret x | None => me cf sid end;
    level ← gets aal_level;
    ttl ← lift (reconnect_ttl x level);
    t ← generate_token jobs cf name sid (Some ttl) [] true true;
    mret (LSuccess info lvl (Some t))
  else mret (LSuccess info lvl None).

Definition failure_type (c : PAMCode) : AuthResp :=
  match c with
  | PAM_PERM_DENIED => DENIED
  | PAM_ACCT_EXPIRED | PAM_NEW_AUTHTOK_REQD | PAM_CRED_EXPIRED => AExpired
  | _ => AUTH_ERR
  end.

(** The redirection of a standby node, when the other one answers *)
Definition failover_redirect (cf : config) : option (list string) :=
  if cf_failover_licensed cf && String.eqb (cf_failover_status cf) "BACKUP" && bool_decide (cf_remote_status cf = Some "MASTER")
  then cf_remote_ips cf else None.

Definition finish_login (cf : config) (name sid : string) (d : login_data) (x : auth_resp * option nat) : M login_response :=
  match r_code x.1 with
  | PAM_SUCCESS =>
      r ← expect x.2 (AttributeError "login");
      login_success cf name sid (options_of d) r
  | c => mret (LFailed (failure_type c))
  end.

Definition login_ex (cf : config) (name sid : string) (d : login_data) : M login_response :=
  match failover_redirect cf with
  | Some urls => mret (LRedirect urls)
  | None =>
      _ ← modify_app sid (fun a => set_app_context (Some (default new_ctx (a_context a))) a);
      lvl ← gets aal_level;
      _ ← check_auth_mechanism sid (mechanism_of d) lvl;
      match d with
      | DPassword username password _ =>
          x ← login_ex_password_plain cf sid username password;
          if bool_decide (r_code x.1 = PAM_CONV_AGAIN) then mret (LOtpRequired username) else finish_login cf name sid d x
      | DApiKey username api_key _ => x ← login_ex_api_key_plain cf sid username api_key; finish_login cf name sid d x
      | DOtp otp_token _ => x ← login_ex_oath_token cf sid otp_token; finish_login cf name sid d x
      | DToken token _ => x ← login_ex_token_plain cf sid token; finish_login cf name sid d x
      | DScram ty rfc_str =>
          x ← login_ex_scram cf sid ty rfc_str;
          if String.eqb ty "CLIENT_FIRST_MESSAGE" then
            if bool_decide (r_code x.1 = PAM_CONV_AGAIN) then mret (LScram "SERVER_FIRST_RESPONSE" (r_reason x.1) None)
            else finish_login cf name sid d x
          else if negb (bool_decide (r_code x.1 = PAM_SUCCESS)) then mret (LFailed AUTH_ERR)
          else
            r ← expect x.2 (AttributeError "login");
            _ ← session_login cf sid r;
            info ← me cf sid;
            _ ← set_pam_hdl sid None;
            mret (LScram "SERVER_FINAL_RESPONSE" (r_reason x.1) (Some info))
      end
  end.

Definition login_ex_continue (cf : config) (name sid otp_token : string) (o : login_options) : M login_response :=
  login_ex cf name sid (DOtp otp_token o).

Definition DEFAULT_OPTIONS : login_options := mkOpts true false.
Definition NO_OPTIONS : login_options := mkOpts false false.

Definition login (cf : config) (name sid username password : string) (otp_token : option string) : M bool :=
  r ← login_ex cf name sid (DPassword username password NO_OPTIONS);
  match response_type r with
  | ASuccess => mret true
  | OTP_REQUIRED =>
      match otp_token with
      | None => mret false
      | Some t => r ← login_ex cf name sid (DOtp t DEFAULT_OPTIONS); mret (bool_decide (response_type r = ASuccess))
      end
  | _ => mret false
  end.

Definition login_with_api_key (cf : config) (name sid api_key : string) : M bool :=
  match api_key_id api_key ≫= cf_api_key cf with
  | None => _ ← fail_audit sid "API_KEY" None "Invalid API key"; mret false
  | Some (username, _, _, _) =>
      r ← login_ex cf name sid (DApiKey username api_key NO_OPTIONS);
      mret (bool_decide (response_type r = ASuccess))
  end.

Definition login_with_token (cf : config) (name sid token_str : string) : M bool :=
  r ← login_ex cf name sid (DToken token_str NO_OPTIONS);
  mret (bool_decide (response_type r = ASuccess)).

(** [check_permission], run when an application connects *)
Definition check_permission (cf : config) (sid : string) : M unit :=
  a ← get_app sid;
  match a_origin a with
  | None => mret tt
  | Some o =>
      if negb (is_unix_family o) then mret tt
      else
        x ← (if bool_decide (o_uid o = Some 0%Z) && negb (session_is_interactive o) then
               h ← new_auth (UnixPamAuthenticator (cf_os cf) "root" (Some o));
               _ ← with_auth h (internal_authenticate check_unixhash (cf_os cf) rounds "root");
               mret (Some (h, authenticate_root))
             else
               match o_uid o ≫= cf_name_of cf with
               | None => mret None
               | Some pw =>
                   h ← new_auth (UnixPamAuthenticator (cf_os cf) pw (Some o));
                   rsp ← with_auth h (internal_authenticate check_unixhash (cf_os cf) rounds pw);
                   if negb (bool_decide (r_code rsp = PAM_SUCCESS)) then mret None
                   else
                     u ← user_of_response cf rsp;
                     mret (u ← u; Some (h, u))
               end);
        match x with
        | None => mret tt
        | Some (h, u) =>
            ur ← new_user u;
            r ← new_cred (UserCred (new_user_cred (os_now (cf_os cf)) CUnixSocket ur u None h));
            _ ← session_login cf sid r;
            uuid ← gets (fun w => auths w !! h ≫= au_session_uuid);
            match uuid with Some _ => mret tt | None => etc_generate "pam" end
        end
  end.

(** [auth.logout]; the event subscriptions of the application are not part of
    this state. *)
Definition logout (sid : string) : M bool := _ ← session_logout sid; mret true.

(** ** [privilege.become_readonly] and utils/privilege.py *)

Definition set_allowlist (v : Allowlist) (c : cred) : cred :=
  match c with
  | UserCred c => UserCred (mkUserCred (uc_class c) (uc_user c) (uc_assurance c) v (uc_expiry c) (uc_inactivity_timeout c)
                     (uc_last_used_at c) (uc_authenticator c) (uc_login_id c))
  | TokenCred c => TokenCred (mkTokenCred (tc_root c) (tc_token c) (tc_is_user_session c) (tc_user c) (Some v)
                     (tc_pam_authenticated c) (tc_authenticator c) (tc_login_id c))
  | c => c
  end.

Definition set_privilege (v : composed) (u : user) : user := mkUser (u_username u) v (u_account_attributes u).

(** [ro_admin] is the row of the builtin privilege [READONLY_ADMINISTRATOR]. *)
Definition become_readonly (cf : config) (ro_admin : privilege) (sid : string) : M unit :=
  a ← get_app sid;
  r ← expect (a_credentials a) (AttributeError "is_user_session");
  is_user ← gets (fun w => is_user_session w r);
  if negb is_user then raise (CallError "unexpected credential type" EFAULT)
  else
    match compose_privilege 6 (cf_roles cf) (cf_enable_gpos_stig cf) [ro_admin] with
    | Err e => raise (role_error e)
    | Ok c =>
        _ ← modify_cred r (set_allowlist (new_Allowlist (c_allowlist c)));
        u ← gets (fun w => cred_user_ref w r);
        u ← expect u (AttributeError "user");
        modify (fun w => set_users (alter (set_privilege c) u (users w)) w)
    end.

Definition credential_has_full_admin (w : world) (r : nat) : bool :=
  (is_user_session w r && match cred_user w r with Some u => bool_decide ("FULL_ADMIN" ∈ c_roles (u_privilege u)) | None => false end)
  || match creds w !! r with Some NodeCred => true | _ => false end
  || match cred_allowlist w r with Some a => al_full_admin a | None => false end.

Definition credential_full_admin_or_user (w : world) (r : option nat) (username : string) : bool :=
  match r with
  | None => false
  | Some r => credential_has_full_admin w r || bool_decide (u_username <$> cred_user w r = Some username)
  end.

(** ** Authorization of calls and subscriptions (main.py) *)

(** The attributes of a method object the check reads. *)
Record method_object := mkMethod {
  _no_auth_required : bool;
  mo_rate_limit : bool;
  _no_authz_required : bool;
  mo_audit : bool;
}.

(** [log_audit_message_for_method], of one message without user name *)
Definition audit_method (sid method_name : string) (mo : method_object) : M unit :=
  if mo_audit mo then log_audit (mkAudit sid "METHOD_CALL" method_name None None false) else mret tt.

(** [ENOTAUTHENTICATED] is a constant of the API client package. *)
Context (ENOTAUTHENTICATED : Z).

Definition authorize_method_call (now : Z) (sid method_name : string) (mo : method_object) : M unit :=
  a ← get_app sid;
  if _no_auth_required mo then
    if authenticated a then mret tt
    else if negb (mo_rate_limit mo) then mret tt
    else
      ok ← update (fun w => let '(c, ok) := check_rate_limit now method_name (a_origin a) (rate_cache w) in (set_rate_cache c w, ok));
      if ok : bool then mret tt
      else _ ← audit_method sid method_name mo; raise (CallError "Rate Limit Exceeded" EBUSY)
  else
    match a_credentials a with
    | None => _ ← audit_method sid method_name mo; raise (CallError "Not authenticated" ENOTAUTHENTICATED)
    | Some r =>
        w ← gets id;
        if is_user_session w r && _no_authz_required mo then mret tt
        else if cred_authorizes now w "CALL" method_name r then mret tt
        else
          _ ← audit_method sid method_name mo;
          if is_user_session w r && negb (is_valid now w r)
          then raise (CallError "Session is expired" EACCES)
          else raise (CallError "Not authorized" EACCES)
    end.

(** An event: [no_auth_required], [no_authz_required] *)
Definition can_subscribe (events : string -> option (bool * bool)) (now : Z) (sid name : string) : M bool :=
  a ← get_app sid;
  let short_name := default "" (head (Str.split ":" name)) in
  let event := events short_name in
  if match event with Some (b, _) => b | None => false end then mret true
  else
    match a_credentials a with
    | None => mret false
    | Some r =>
        if match event with Some (_, b) => b | None => false end then mret true
        else gets (fun w => cred_authorizes now w "SUBSCRIBE" short_name r)
    end.

(** [ha_permission] (plugins/failover.py) *)
Definition ha_permission (cf : config) (sid : string) : M unit :=
  a ← get_app sid;
  if authenticated a then mret tt
  else
    o ← expect (a_origin a) (AttributeError "is_ha_connection");
    if is_ha_connection o then r ← new_cred NodeCred; session_login cf sid r else mret tt.

(** [audit_username_from_session] (utils/audit.py) *)
Definition audit_username_from_session (w : world) (r : option nat) : option string :=
  match r with
  | None => Some ".UNAUTHENTICATED"
  | Some r =>
      if is_user_session w r then u_username <$> cred_user w r
      else match creds w !! r with Some NodeCred => Some ".TRUENAS_NODE" | _ => Some ".UNKNOWN" end
  end.

(** ** Histories *)

(** A hook: its exception is logged. *)
Definition hook (m : M unit) : M unit := fun w => ((m w).1, Ok tt).

(** A new application connects, and the hooks of [core.on_connect] run. *)
Definition connect (cf : config) (sid : string) (origin : option ConnectionOrigin) : M unit :=
  known ← gets (fun w => bool_decide (is_Some (apps w !! sid)));
  if known : bool then mret tt
  else
    _ ← modify (fun w => set_apps (<[sid := mkApp origin None (Some new_ctx) 0]> (apps w)) w);
    _ ← hook (check_permission cf sid);
    hook (ha_permission cf sid).

Inductive auth_op :=
| Connect (sid : string) (origin : option ConnectionOrigin)
| Message (sid : string)
| Close (sid : string)
| LoginEx (name sid : string) (d : login_data)
| Logout (sid : string)
| GenerateToken (name sid : string) (ttl : option Z) (attrs : list (string * json)) (match_origin single_use : bool)
| GetToken (token_id : string) (origin : option ConnectionOrigin)
| GetTokenForAction (sid token_id : string) (origin : option ConnectionOrigin) (method resource : string)
| GetTokenForShell (token_id : string) (origin : option ConnectionOrigin)
| TerminateSession (id_ : string)
| TerminateOtherSessions (sid : string)
| BecomeReadonly (ro_admin : privilege) (sid : string)
| SetLevel (level : string)
| SetAttribute (sid key : string) (value : json)
| AuthorizeCall (sid method_name : string) (mo : method_object).

(** One operation at the time of its configuration; what it returns or raises
    goes to the client. *)
Definition exec (cf : config) (o : auth_op) (w : world) : world :=
  let now := os_now (cf_os cf) in
  match o with
  | Connect sid origin => (connect cf sid origin w).1
  | Message sid => (app_message now sid w).1
  | Close sid => (app_close sid w).1
  | LoginEx name sid d => (login_ex cf name sid d w).1
  | Logout sid => (logout sid w).1
  | GenerateToken name sid ttl attrs mo su => (generate_token jobs cf name sid ttl attrs mo su w).1
  | GetToken t origin => (get_token now t origin w).1
  | GetTokenForAction sid t origin m r => (get_token_for_action check_unixhash cf rounds sid t origin m r w).1
  | GetTokenForShell t origin => (get_token_for_shell_application now t origin w).1
  | TerminateSession id_ => (terminate_session id_ w).1
  | TerminateOtherSessions sid => (terminate_other_sessions sid w).1
  | BecomeReadonly ro sid => (become_readonly cf ro sid w).1
  | SetLevel l => (set_authenticator_assurance_level l w).1
  | SetAttribute sid k v => (set_attribute cf sid k v w).1
  | AuthorizeCall sid m mo => (authorize_method_call now sid m mo w).1
  end.

Definition exec_all (h : list (config * auth_op)) (w : world) : world := foldl (fun w x => exec x.1 x.2 w) w h.

Definition initial_world : world :=
  mkWorld ∅ ∅ ∅ ∅ 0 [] [] ∅ AA_LEVEL1 new_OnetimePasswordManager [] [] [] [] [] [] [].
End login.
