(* ===== verification/SessionInv.v ===== *)
(** * Invariants of the session state

    The state of [Sessions] is well formed after every operation, and objects
    only evolve in the ways the code allows: the identity of credentials never
    changes, the time of last use moves only while they are still valid. *)

From S2P Require Import Prelude PyDict PyStr PyVal Errors Allowlist Privilege Origin RateLimit AuthLevels Authenticator Sessions Login.

Create HintDb kept.

(** ** Shapes and evolution *)

(** What never changes in credentials *)
Inductive cshape :=
| SBase
| SNode
| SUser (cls : user_class) (user : nat) (assurance : option AuthenticatorAssuranceLevel) (expiry timeout : option Z)
| SToken (root token : nat) (is_user : bool) (user : option nat).

Definition shape (c : cred) : cshape :=
  match c with
  | BaseCred => SBase
  | NodeCred => SNode
  | UserCred c => SUser (uc_class c) (uc_user c) (uc_assurance c) (uc_expiry c) (uc_inactivity_timeout c)
  | TokenCred c => SToken (tc_root c) (tc_token c) (tc_is_user_session c) (tc_user c)
  end.

Definition is_token (c : cred) : bool := match c with TokenCred _ => true | _ => false end.

(** Credentials at time [now]: a session is refreshed only before its inactivity
    timeout, and token credentials are not authenticated later. *)
Definition cred_evol (now : Z) (c c' : cred) : Prop :=
  shape c' = shape c /\
  match c, c' with
  | UserCred c, UserCred c' =>
      uc_last_used_at c' = uc_last_used_at c \/
      (uc_last_used_at c' = now /\ exists t, timeout_set (uc_inactivity_timeout c) = Some t /\ (now < uc_last_used_at c + t)%Z)
  | TokenCred c, TokenCred c' => tc_pam_authenticated c' = true -> tc_pam_authenticated c = true
  | _, _ => True
  end.

(** A token is refreshed only while it is valid. *)
Definition token_evol (now : Z) (t t' : Token) : Prop :=
  t' = mkToken (tk_token t) (tk_ttl t) (tk_attributes t) (tk_match_origin t) (tk_parent t) (tk_session_ids t) (tk_single_use t)
         (tk_last_used_at t') /\
  (tk_last_used_at t' = tk_last_used_at t \/ (tk_last_used_at t' = now /\ token_is_valid now t = true)).

#[global] Instance cred_evol_preorder now : PreOrder (cred_evol now).
Proof.
  split.
  - intros []; split; auto.
  - intros c1 c2 c3 [H1 H2] [H3 H4]. split; [congruence|].
    destruct c1, c2, c3; simplify_eq/=; try done; [|auto].
    destruct H4 as [->|(-> & t & Ht & Hlt)]; [done|].
    destruct H2 as [Heq|(Heq & t' & Ht' & Hlt')]; right; (split; [done|]).
    + rewrite Heq in Hlt. exists t. split; congruence || lia.
    + eauto.
Qed.

#[global] Instance token_evol_preorder now : PreOrder (token_evol now).
Proof.
  split.
  - intros []; split; auto.
  - intros t1 t2 t3 [H1 H2] [H3 H4]. rewrite H1 in H3, H4. simpl in *. split; [done|].
    destruct H4 as [->|[-> Hv]]; [done|]. right. split; [done|].
    destruct H2 as [Heq|[Heq Hv']]; [|done]. unfold token_is_valid in *. simpl in Hv. by rewrite Heq in Hv.
Qed.

Section inv.
Context {HP : PamStack} (check_unixhash : string -> string -> bool) (rounds : nat) (jobs : job_check) (ENOTAUTHENTICATED : Z).
(** The applications the operation acts for *)
Context (Sub : string -> Prop).
(** The names of the tokens the operation may create *)
Context (New : string -> Prop).
Implicit Types (w : world).

Definition app_cred w (sid : string) : option nat := apps w !! sid ≫= a_credentials.

(** ** The invariant *)
Record wf w : Prop := mkWf {
  wf_creds : forall r c, creds w !! r = Some c -> r < fresh_ref w;
  wf_token_objs : forall r t, token_objs w !! r = Some t -> r < fresh_ref w;
  wf_names : Dict.wf (tokens w);
  wf_tokens : forall k r, Dict.get k (tokens w) = Some r -> exists t, token_objs w !! r = Some t /\ tk_token t = k;
  (** the parent of a token is never a token credential *)
  wf_parent : forall r t, token_objs w !! r = Some t -> exists c, creds w !! tk_parent t = Some c /\ is_token c = false;
  (** a token credential has the root, kind and user of the parent of its token *)
  wf_token_cred : forall r c, creds w !! r = Some (TokenCred c) -> exists t, token_objs w !! tc_token c = Some t /\
      tk_parent t = tc_root c /\ tc_is_user_session c = is_user_session w (tc_root c) /\ tc_user c = cred_user_ref w (tc_root c);
  wf_sess : Dict.wf (sessions w);
  (** an application is authenticated exactly by the credentials of its session *)
  wf_session : forall sid, s_credentials <$> Dict.get sid (sessions w) = app_cred w sid;
  wf_app_cred : forall sid r, app_cred w sid = Some r -> is_Some (creds w !! r);
  (** an authenticated application runs the callbacks of the session manager *)
  wf_callbacks : forall sid a, apps w !! sid = Some a -> is_Some (a_credentials a) -> 0 < a_callbacks a;
  (** no password-only session at a level that requires a second factor *)
  wf_second_factor : forall r c lvl, creds w !! r = Some (UserCred c) -> uc_assurance c = Some lvl ->
      otp_mandatory lvl = true -> uc_class c ≠ CLoginPassword;
}.

(** The state during an operation that started in [w0] at time [now] *)
Record during w0 (now : Z) w : Prop := mkDuring {
  du_wf0 : wf w0;
  du_wf : wf w;
  du_fresh : fresh_ref w0 <= fresh_ref w;
  du_creds : forall r c, creds w0 !! r = Some c -> exists c', creds w !! r = Some c' /\ cred_evol now c c';
  du_tokens : forall r t, token_objs w0 !! r = Some t -> exists t', token_objs w !! r = Some t' /\ token_evol now t t';
  du_level : aal_level w = aal_level w0;
  du_apps : forall sid, is_Some (apps w0 !! sid) -> is_Some (apps w !! sid);
  (** the others keep their credentials *)
  du_others : forall sid, ~ Sub sid -> app_cred w sid = app_cred w0 sid;
  (** no token comes back, or comes into being under another name *)
  du_names : forall k, ~ New k -> Dict.get k (tokens w0) = None -> Dict.get k (tokens w) = None;
  (** the audit log only grows *)
  du_audit : audit w0 `prefix_of` audit w;
}.

Lemma during_refl w now : wf w -> during w now w.
Proof. intros Hw. split; try done; intros r x Hx; by exists x. Qed.

(** Changes that the invariant does not see *)
Record same_core w w' : Prop := mkCore {
  co_creds : creds w' = creds w;
  co_token_objs : token_objs w' = token_objs w;
  co_tokens : tokens w' = tokens w;
  co_sessions : sessions w' = sessions w;
  co_apps : forall sid, app_cred w' sid = app_cred w sid;
  co_level : aal_level w' = aal_level w;
  co_callbacks : forall sid a', apps w' !! sid = Some a' -> is_Some (a_credentials a') ->
    exists a, apps w !! sid = Some a /\ is_Some (a_credentials a) /\ a_callbacks a <= a_callbacks a';
  co_dom : forall sid, is_Some (apps w !! sid) -> is_Some (apps w' !! sid);
  co_fresh : fresh_ref w <= fresh_ref w';
  co_audit : audit w `prefix_of` audit w';
}.

Lemma is_user_session_creds w w' r : creds w' !! r = creds w !! r -> is_user_session w' r = is_user_session w r.
Proof. unfold is_user_session. by intros ->. Qed.
Lemma cred_user_ref_creds w w' r : creds w' !! r = creds w !! r -> cred_user_ref w' r = cred_user_ref w r.
Proof. unfold cred_user_ref. by intros ->. Qed.

Lemma wf_core w w' : same_core w w' -> wf w -> wf w'.
Proof.
  intros [Hc Ht Htk Hs Ha Hl Hcb Hd Hf Hau] [W1 W2 W3 W4 W5 W6 W7 W8 W9 W11 W10]. split; rewrite ?Hc, ?Ht, ?Htk, ?Hs; auto.
  - intros r c H. specialize (W1 _ _ H). lia.
  - intros r c H. specialize (W2 _ _ H). lia.
  - intros r c H. destruct (W6 _ _ H) as (t & ? & ? & ? & ?). exists t.
    rewrite (is_user_session_creds w w'), (cred_user_ref_creds w w') by (by rewrite Hc). done.
  - intros sid. rewrite Ha. apply W8.
  - intros sid r. rewrite Ha. apply W9.
  - intros sid a' Ha' Hs'. destruct (Hcb _ _ Ha' Hs') as (a & Hap & Hcr & Hle). specialize (W11 sid a Hap Hcr). lia.
Qed.

Lemma during_core w0 now w w' : same_core w w' -> during w0 now w -> during w0 now w'.
Proof.
  intros Hco [D0 D1 D2 D3 D4 D5 D6 D7 D8 D9]. pose proof Hco as [Hc Ht Htk Hs Ha Hl Hcb Hd Hf Hau].
  split; rewrite ?Hc, ?Ht, ?Htk, ?Hl; auto; [by apply (wf_core w)|lia| |by etransitivity].
  intros sid Hsub. by rewrite Ha, D7.
Qed.

(** ** Primitives *)

Notation kept w0 now m := (keeps (E := exn) (during w0 now) m anything).

Lemma keeps_core w0 now {A} (m : M A) : (forall w, same_core w (m w).1) -> kept w0 now m.
Proof. intros H w Hw. split; [|done]. by apply (during_core w0 now w). Qed.

Lemma core_refl w : same_core w w.
Proof. split; try done. intros sid a. by exists a. Qed.
Hint Resolve core_refl : core.

Lemma core_fresh w w' : creds w' = creds w -> token_objs w' = token_objs w -> tokens w' = tokens w -> sessions w' = sessions w ->
  apps w' = apps w -> aal_level w' = aal_level w -> fresh_ref w <= fresh_ref w' -> audit w `prefix_of` audit w' -> same_core w w'.
Proof.
  intros ? ? ? ? Ha ? ? ?. split; try done; unfold app_cred; rewrite Ha; try done. intros sid a. by exists a.
Qed.

Ltac core_done := intros; apply core_fresh; simpl; auto; try done; by apply prefix_app_r.

Lemma core_modify_app w sid f :
  (forall a, a_credentials (f a) = a_credentials a) -> (forall a, a_callbacks (f a) = a_callbacks a) ->
  same_core w (set_apps (alter f sid (apps w)) w).
Proof.
  intros Hf Hcb. split; try done; [..|intros sid'; simpl; by rewrite lookup_alter_is_Some].
  - intros sid'. unfold app_cred. simpl.
    destruct (decide (sid' = sid)) as [->|Hne]; [|by rewrite lookup_alter_ne].
    rewrite lookup_alter_eq. destruct (apps w !! sid) as [a|]; simpl; [by rewrite Hf|done].
  - intros sid' a'. simpl. destruct (decide (sid' = sid)) as [->|Hne]; [|rewrite lookup_alter_ne by done; by exists a'].
    rewrite lookup_alter_eq. destruct (apps w !! sid) as [a|]; intros [= <-]. rewrite Hf, Hcb. by exists a.
Qed.

Lemma kept_with_auth w0 now {A} r (m : AM A) : kept w0 now (with_auth r m).
Proof.
  apply keeps_core. intros w. unfold with_auth. destruct (auths w !! r) as [a|]; [|done].
  destruct (m (a, otpw w)) as [[a' o] x]. core_done.
Qed.

Lemma kept_modify_core w0 now f : (forall w, same_core w (f w)) -> kept w0 now (modify f).
Proof. intros H. apply keeps_core. intros w. apply H. Qed.

Lemma kept_modify_ctx w0 now sid f : kept w0 now (modify_ctx sid f).
Proof. apply kept_modify_core. intros w. by apply core_modify_app. Qed.

Lemma kept_log_audit w0 now e : kept w0 now (log_audit e).
Proof. apply kept_modify_core; core_done. Qed.
Lemma kept_etc_generate w0 now g : kept w0 now (etc_generate g).
Proof. apply kept_modify_core; core_done. Qed.
Lemma kept_get_app w0 now sid : kept w0 now (get_app sid).
Proof. by apply keeps_core. Qed.
Lemma kept_send_event w0 now e sid : kept w0 now (send_session_event e sid).
Proof. apply kept_modify_core; core_done. Qed.

Lemma kept_new_user w0 now u : kept w0 now (new_user u).
Proof. apply keeps_core. intros w. core_done. Qed.

Lemma kept_new_auth w0 now a : kept w0 now (new_auth a).
Proof.
  apply keeps_core. intros w. unfold new_auth, mbind, ste_mbind, lift. destruct a; [|done]. core_done.
Qed.

(** New credentials: a user session that obeys the second factor rule, or the
    credentials of a token. *)
Definition new_cred_ok w (c : cred) : Prop :=
  match c with
  | UserCred c => forall lvl, uc_assurance c = Some lvl -> otp_mandatory lvl = true -> uc_class c ≠ CLoginPassword
  | TokenCred c => exists t p, token_objs w !! tc_token c = Some t /\ tk_parent t = tc_root c /\
      creds w !! tc_root c = Some p /\ tc_is_user_session c = is_user_session w (tc_root c) /\ tc_user c = cred_user_ref w (tc_root c)
  | _ => True
  end.

Lemma during_insert w0 now w c :
  new_cred_ok w c -> during w0 now w ->
  during w0 now (set_creds (<[fresh_ref w := c]> (creds w)) (set_fresh_ref (S (fresh_ref w)) w)).
Proof.
  intros Hok [D0 [W1 W2 W3 W4 W5 W6 W7 W8 W9 W11 W10] D2 D3 D4 D5 D6 D7 D8 D9]. set (r0 := fresh_ref w) in *.
  assert (creds w !! r0 = None) as Hr0.
  { destruct (creds w !! r0) as [x|] eqn:Hx; [|done]. specialize (W1 _ _ Hx). lia. }
  assert (forall r x, creds w !! r = Some x -> <[r0:=c]> (creds w) !! r = creds w !! r) as Hold.
  { intros r x Hx. apply lookup_insert_ne. congruence. }
  assert (forall r x, <[r0:=c]> (creds w) !! r = Some x -> (r = r0 /\ x = c) \/ creds w !! r = Some x) as Hnew.
  { intros r x. destruct (decide (r = r0)) as [->|Hne]; [rewrite lookup_insert_eq|rewrite lookup_insert_ne by done]; naive_solver. }
  split; [done|split|..]; simpl; auto.
  - intros r x [[-> ->]|Hx]%Hnew; [lia|]. specialize (W1 _ _ Hx). lia.
  - intros r t Ht. specialize (W2 _ _ Ht). lia.
  - intros r t Ht. destruct (W5 _ _ Ht) as (x & Hx & ?). exists x. by rewrite (Hold _ _ Hx).
  - intros r x Hx%Hnew. unfold is_user_session, cred_user_ref. simpl. destruct Hx as [[-> <-]|Hx].
    + destruct Hok as (t & p & Ht & Hp & Hc & Hu & Hr). exists t. rewrite (Hold _ _ Hc). done.
    + destruct (W6 _ _ Hx) as (t & Ht & Hp & Hu & Hr). destruct (W5 _ _ Ht) as (p & Hc & _). rewrite Hp in Hc.
      exists t. rewrite (Hold _ _ Hc). done.
  - intros sid r Hr. destruct (W9 _ _ Hr) as [x Hx]. by rewrite (Hold _ _ Hx).
  - intros r x lvl [[-> <-]|Hx]%Hnew; [apply Hok|by apply W10 with r].
  - intros r x Hx. destruct (D3 _ _ Hx) as (x' & Hx' & ?). exists x'. by rewrite (Hold _ _ Hx').
Qed.

Lemma kept_new_cred w0 now c :
  (forall w, during w0 now w -> new_cred_ok w c) -> keeps (during w0 now) (new_cred c) (fun r => fresh_ref w0 <= r).
Proof.
  intros Hok w Hw. split; [|intros r [= <-]; apply Hw]. simpl. apply during_insert; auto.
Qed.

(** A change of credentials that keeps their shape *)
Lemma during_alter w0 now w r f :
  (forall c, creds w !! r = Some c -> shape (f c) = shape c) ->
  (r < fresh_ref w0 -> forall c, creds w !! r = Some c -> cred_evol now c (f c)) ->
  during w0 now w -> during w0 now (set_creds (alter f r (creds w)) w).
Proof.
  intros Hsh Hev [D0 [W1 W2 W3 W4 W5 W6 W7 W8 W9 W11 W10] D2 D3 D4 D5 D6 D7 D8 D9].
  assert (forall r' x, creds w !! r' = Some x -> exists x', alter f r (creds w) !! r' = Some x' /\ shape x' = shape x) as Hfwd.
  { intros r' x Hx. destruct (decide (r' = r)) as [->|Hne].
    - rewrite lookup_alter_eq, Hx. simpl. eauto.
    - rewrite lookup_alter_ne by done. eauto. }
  assert (forall r' x', alter f r (creds w) !! r' = Some x' -> exists x, creds w !! r' = Some x /\ shape x' = shape x) as Hbwd.
  { intros r' x'. destruct (decide (r' = r)) as [->|Hne].
    - rewrite lookup_alter_eq. destruct (creds w !! r) as [x|] eqn:Hx; intros [= <-]. eauto.
    - rewrite lookup_alter_ne by done. eauto. }
  split; [done|split|..]; simpl; auto.
  - intros r' x' (x & Hx & _)%Hbwd. eauto.
  - intros r' t Ht. destruct (W5 _ _ Ht) as (x & Hx & Htk). destruct (Hfwd _ _ Hx) as (x' & Hx' & Hs).
    exists x'. split; [done|]. by destruct x, x'.
  - intros r' x' (x & Hx & Hs)%Hbwd. destruct x as [| |c|c]; try done. injection Hs as E1 E2 E3 E4. rewrite E1, E2, E3, E4.
    destruct (W6 _ _ Hx) as (t & Ht & Hp & Hu & Hr). destruct (W5 _ _ Ht) as (p & Hp' & Hnt). rewrite Hp in Hp'.
    destruct (Hfwd _ _ Hp') as (p' & Hp'' & Hs'). exists t.
    unfold is_user_session, cred_user_ref in *. simpl. rewrite Hp''. rewrite Hp' in Hu, Hr.
    destruct p, p'; try done; inversion Hs'; split_and!; congruence.
  - intros sid r' Hr. destruct (W9 _ _ Hr) as [x Hx]. destruct (Hfwd _ _ Hx) as (x' & -> & _). by eexists.
  - intros r' x' lvl (x & Hx & Hs)%Hbwd Hl Hm. destruct x as [| |c|c]; try done. injection Hs as E1 E2 E3 E4 E5.
    rewrite E1. apply (W10 r' c lvl); congruence.
  - intros r' x Hx. destruct (D3 _ _ Hx) as (y & Hy & Hxy). destruct (decide (r' = r)) as [->|Hne].
    + rewrite lookup_alter_eq, Hy. simpl. eexists. split; [done|]. etransitivity; [done|]. apply Hev; [|done].
      by apply (wf_creds _ D0 _ _ Hx).
    + rewrite lookup_alter_ne by done. eauto.
Qed.

(** ** Tokens *)

Lemma during_tokens w0 now w toks :
  toks `sublist_of` tokens w -> during w0 now w -> during w0 now (set_tokens toks w).
Proof.
  intros Hs [D0 [W1 W2 W3 W4 W5 W6 W7 W8 W9 W11 W10] D2 D3 D4 D5 D6 D7 D8 D9]. split; [done|split|..]; simpl; auto.
  - by eapply Dict.wf_sublist.
  - intros k r Hr. apply W4. by eapply Dict.get_sublist.
  - intros k Hk Hn. specialize (D8 k Hk Hn). destruct (Dict.get k toks) as [r|] eqn:Hr; [|done].
    by rewrite (Dict.get_sublist _ _ _ _ Hs W3 Hr) in D8.
Qed.

Lemma kept_token_destroy w0 now k : kept w0 now (token_destroy k).
Proof. apply keeps_modify; [|done]. intros w. apply during_tokens, Dict.pop_sublist. Qed.

Lemma kept_destroy_by_session w0 now sid : kept w0 now (destroy_by_session_id sid).
Proof. apply keeps_modify; [|done]. intros w. apply during_tokens, sublist_filter. Qed.

Lemma kept_token_get w0 now t name o : kept w0 now (token_get t name o).
Proof.
  intros w Hw. split; [|done]. unfold token_get.
  destruct (Dict.get name (tokens w) ≫= _) as [[r tk]|]; [|done].
  destruct (token_is_valid t tk); simpl; [|by apply during_tokens; [apply Dict.pop_sublist|]].
  by repeat case_match.
Qed.

(** The root of a token is its parent. *)
Lemma root_parent w r t : wf w -> token_objs w !! r = Some t -> root_credentials w t = Some (tk_parent t).
Proof.
  intros Hw Ht. destruct (wf_parent w Hw r t Ht) as (c & Hc & Hnt).
  unfold root_credentials. cbn [root_of]. rewrite Hc. by destruct c.
Qed.

Lemma kept_token_create w0 now t name ttl attrs mo p sid su : New name -> kept w0 now (token_create t name ttl attrs mo p sid su).
Proof.
  intros Hnew w Hw. split; [|done]. unfold token_create, mbind, ste_mbind, gets, expect, update. simpl.
  destruct (creds w !! p) as [c|] eqn:Hc; [|done].
  set (parent := match c with TokenCred _ => _ | _ => p end).
  assert (exists c, creds w !! parent = Some c /\ is_token c = false) as (c' & Hc' & Hnt).
  { unfold parent. destruct c as [| |c|c]; try (by eexists).
    destruct (wf_token_cred w (du_wf _ _ _ Hw) p c Hc) as (tk & Ht & _). rewrite Ht. simpl.
    rewrite (root_parent _ _ _ (du_wf _ _ _ Hw) Ht). by apply (wf_parent w (du_wf _ _ _ Hw) _ _ Ht). }
  clearbody parent. destruct Hw as [D0 [W1 W2 W3 W4 W5 W6 W7 W8 W9 W11 W10] D2 D3 D4 D5 D6 D7 D8 D9].
  set (tok := mkToken _ _ _ _ _ _ _ _). set (r0 := fresh_ref w) in *.
  assert (forall r x, token_objs w !! r = Some x -> <[r0:=tok]> (token_objs w) !! r = Some x) as Hold.
  { intros r x Hx. rewrite lookup_insert_ne; [done|]. specialize (W2 _ _ Hx). lia. }
  split; [done|split|..]; simpl; auto with pydict.
  - intros r x Hx. specialize (W1 _ _ Hx). lia.
  - intros r x. destruct (decide (r = r0)) as [->|Hne]; [lia|]. rewrite lookup_insert_ne by done.
    intros Hx. specialize (W2 _ _ Hx). lia.
  - intros k r. destruct (decide (name = k)) as [->|Hne].
    + rewrite Dict.get_set_eq. intros [= <-]. exists tok. by rewrite lookup_insert_eq.
    + rewrite Dict.get_set_ne by done. intros (x & Hx & ?)%W4. exists x. split; [|done]. by apply Hold.
  - intros r x. destruct (decide (r = r0)) as [->|Hne].
    + rewrite lookup_insert_eq. intros [= <-]. by exists c'.
    + rewrite lookup_insert_ne by done. apply W5.
  - intros r x Hx. destruct (W6 _ _ Hx) as (tk & Ht & ?). exists tk. split; [by apply Hold|done].
  - intros r x Hx. destruct (D4 _ _ Hx) as (tk & Ht & ?). exists tk. split; [by apply Hold|done].
  - intros k Hk Hn. rewrite Dict.get_set_ne by congruence. auto.
Qed.

Lemma kept_new_token_cred w0 now t h : keeps (E := exn) (during w0 now) (new_token_cred t h) (fun r => fresh_ref w0 <= r).
Proof.
  intros w Hw. unfold new_token_cred, mbind, ste_mbind, gets, expect, id.
  destruct (token_objs w !! t) as [tok|] eqn:Ht; [|done].
  rewrite (root_parent _ _ _ (du_wf _ _ _ Hw) Ht). destruct (wf_parent w (du_wf _ _ _ Hw) _ _ Ht) as (c & Hc & Hnt).
  split; [|intros r [= <-]; apply Hw]. apply during_insert; [|done]. by exists tok, c.
Qed.

(** ** Credentials *)

Lemma kept_modify_cred w0 now r f :
  (forall c, shape (f c) = shape c) -> (r < fresh_ref w0 -> forall c, cred_evol now c (f c)) -> kept w0 now (modify_cred r f).
Proof. intros Hs He. apply keeps_modify; [|done]. intros w. apply during_alter; auto. Qed.

Lemma set_login_id_evol now v c : cred_evol now c (set_login_id v c).
Proof. destruct c; split; simpl; auto. Qed.
Lemma drop_authenticator_evol now c : cred_evol now c (drop_authenticator c).
Proof. destruct c; split; simpl; auto. Qed.
Lemma set_allowlist_evol now v c : cred_evol now c (set_allowlist v c).
Proof. destruct c; split; simpl; auto. Qed.

Lemma kept_modify_evol w0 now r f : (forall c, cred_evol now c (f c)) -> kept w0 now (modify_cred r f).
Proof. intros Hf. apply kept_modify_cred; [|done]. intros c. apply Hf. Qed.

Lemma kept_expect w0 now {A} (o : option A) e : kept w0 now (expect o e).
Proof. eapply keeps_any, keeps_expect. Qed.
Lemma kept_lift w0 now {A} (r : result exn A) : kept w0 now (lift r).
Proof. eapply keeps_any, keeps_lift. Qed.
Lemma kept_gets w0 now {A} (f : world -> A) : kept w0 now (gets f).
Proof. by apply keeps_gets. Qed.
Lemma kept_bind w0 now {A B} (m : M A) (f : A -> M B) : kept w0 now m -> (forall a, kept w0 now (f a)) -> kept w0 now (m ≫= f).
Proof. intros Hm Hf. eapply keeps_bind; [exact Hm|]. auto. Qed.

Lemma bind_gets {A B} (f : world -> A) (k : A -> M B) w : (gets f ≫= k) w = k (f w) w.
Proof. done. Qed.

Hint Resolve kept_expect kept_lift kept_gets kept_with_auth kept_modify_ctx kept_log_audit kept_etc_generate kept_get_app
  kept_send_event kept_new_user kept_new_auth kept_token_destroy kept_destroy_by_session kept_token_get kept_token_create
  set_login_id_evol drop_authenticator_evol set_allowlist_evol kept_modify_evol : kept.

#[local] Ltac kept_step :=
  intros;
  match goal with
  | |- keeps _ (raise _) _ => apply keeps_raise
  | |- keeps _ (mret _) _ => apply keeps_ret; done
  | |- keeps _ _ _ => solve [eauto with kept]
  | |- keeps _ (mbind _ _) _ => apply kept_bind
  | |- keeps _ (if ?b then _ else _) _ => destruct b
  | |- keeps _ (match ?x with _ => _ end) _ => destruct x
  | |- keeps _ (let '(_, _) := ?x in _) _ => destruct x
  end.
#[local] Ltac kept_auto := repeat kept_step.

(** ** Logging in and out *)

Lemma kept_cred_login w0 now r : kept w0 now (cred_login r).
Proof. unfold cred_login, login_with. kept_auto. Qed.
Lemma kept_cred_logout w0 now r : kept w0 now (cred_logout r).
Proof. unfold cred_logout. kept_auto. Qed.
Hint Resolve kept_cred_login kept_cred_logout : kept.

Lemma kept_audit_credentials w0 now sid ev r e ok : kept w0 now (audit_credentials sid ev r e ok).
Proof. unfold audit_credentials. kept_auto. Qed.
Hint Resolve kept_audit_credentials : kept.

(** [cred_login] succeeds only for existing credentials. *)
Lemma cred_login_exists w r w' x : cred_login r w = (w', Ok x) -> is_Some (creds w' !! r).
Proof.
  unfold cred_login, login_with, mbind, ste_mbind, gets, expect, raise, modify_cred, modify, with_auth. cbn [fst snd].
  destruct (creds w !! r) as [[| |c|c]|] eqn:Hc; try done; try (intros [= <- <-]; by rewrite Hc).
  - destruct (uc_authenticator c) as [a|]; [|done]. destruct (auths w !! a); [|done].
    destruct (au_login _) as [[? ?] [?|?]]; [|done]. intros [= <- <-]. simpl. rewrite lookup_alter_eq, Hc. by eexists.
  - destruct (auths w !! _); [|done].
    destruct (au_login _) as [[? ?] [?|?]]; [|done]. intros [= <- <-]. simpl. rewrite lookup_alter_eq, Hc. by eexists.
Qed.

(** The session and the credentials of the application change together. *)
Lemma during_set_session w0 now w sid (o : option Session) (f : App -> App) :
  (forall a, a_credentials (f a) = s_credentials <$> o) -> is_Some (apps w !! sid) \/ o = None ->
  (forall s, o = Some s -> is_Some (creds w !! s_credentials s)) ->
  (is_Some o -> forall a, apps w !! sid = Some a -> 0 < a_callbacks (f a)) -> Sub sid -> during w0 now w ->
  during w0 now (set_apps (alter f sid (apps w))
    (set_sessions (match o with Some s => Dict.set sid s (sessions w) | None => Dict.pop sid (sessions w) end) w)).
Proof.
  intros Hf Happ Hcr Hcb Hsub [D0 [W1 W2 W3 W4 W5 W6 W7 W8 W9 W11 W10] D2 D3 D4 D5 D6 D7 D8 D9].
  assert (forall sid', app_cred (set_apps (alter f sid (apps w)) w) sid' =
                       if decide (sid' = sid) then s_credentials <$> o else app_cred w sid') as Hac.
  { intros sid'. unfold app_cred. simpl. case_decide as He; subst.
    - rewrite lookup_alter_eq. destruct (apps w !! sid) as [a|]; simpl; [by rewrite Hf|].
      destruct Happ as [[? [=]]| ->]. done.
    - by rewrite lookup_alter_ne. }
  split; [done|split|..]; simpl; auto.
  - destruct o; auto with pydict.
  - intros sid'. etransitivity; [|symmetry; apply Hac]. case_decide as He; subst.
    + destruct o; [by rewrite Dict.get_set_eq|by rewrite Dict.get_pop_eq].
    + rewrite <- W8. destruct o; [by rewrite Dict.get_set_ne|by rewrite Dict.get_pop_ne].
  - intros sid' r. unfold app_cred in Hac |- *. simpl in Hac |- *. rewrite Hac. case_decide; [|apply W9].
    destruct o as [s|]; intros [= <-]. auto.
  - intros sid' a'. destruct (decide (sid' = sid)) as [->|Hne]; [|rewrite lookup_alter_ne by done; apply W11].
    rewrite lookup_alter_eq. destruct (apps w !! sid) as [a|]; intros [= <-]. rewrite Hf. intros Hs.
    apply Hcb; [|done]. by apply fmap_is_Some in Hs.
  - intros sid' Hs. rewrite lookup_alter_is_Some. auto.
  - intros sid' Hs. etransitivity; [apply Hac|]. rewrite decide_False by congruence. auto.
Qed.

Lemma kept_session_login w0 now cf sid r : Sub sid -> kept w0 now (session_login cf sid r).
Proof.
  intros Hsub w Hw. split; [|done]. unfold session_login, mbind, ste_mbind, get_app.
  destruct (apps w !! sid) as [a|] eqn:Ha; [|done].
  assert (forall w1 x, cred_login r w = (w1, Ok x) -> during w0 now w1 /\ is_Some (apps w1 !! sid) /\ is_Some (creds w1 !! r)) as Hlog.
  { intros w1 x Hl. pose proof (kept_cred_login w0 now r w Hw) as [H1 _].
    pose proof (kept_cred_login w now r w (during_refl _ _ (du_wf _ _ _ Hw))) as [H2 _].
    rewrite Hl in H1, H2. split_and!; [done|apply (du_apps _ _ _ H2); by rewrite Ha|by apply (cred_login_exists _ _ _ _ Hl)]. }
  assert (forall e, cred_login r w = e -> during w0 now e.1) as Hlog'.
  { intros e <-. apply kept_cred_login, Hw. }
  destruct (authenticated a); destruct (cred_login r w) as [w1 [x|e]] eqn:Hl; try (apply (Hlog' _ eq_refl)).
  all: destruct (Hlog _ _ eq_refl) as (Hd & Hap & Hcr).
  - unfold gets, expect at 1. destruct (Dict.get sid (sessions w1)) as [s|] eqn:Hs; [|done].
    pose proof (during_set_session w0 now w1 sid (Some (mkSession r (s_created_at s))) (set_app_credentials (Some r))) as Hset.
    apply kept_audit_credentials. unfold modify_app, modify. cbn [fst]. apply Hset; auto; [naive_solver|].
    intros _ a1 Ha1. apply (wf_callbacks w1 (du_wf _ _ _ Hd) sid a1 Ha1).
    pose proof (wf_session w1 (du_wf _ _ _ Hd) sid) as Hac. unfold app_cred in Hac. rewrite Hs, Ha1 in Hac. simpl in Hac.
    by rewrite <- Hac.
  - destruct (negb _); [done|].
    pose proof (during_set_session w0 now w1 sid (Some (mkSession r (os_now (cf_os cf))))
                  (fun a => register_callbacks (set_app_credentials (Some r) a))) as Hset.
    assert (kept w0 now (internal ← gets (fun w => is_internal_session w sid);
              if internal : bool then mret tt
              else _ ← send_session_event "ADDED" sid; audit_credentials sid "AUTHENTICATION" (Some r) None true)) as Hrest by kept_auto.
    apply Hrest. unfold modify_app, modify. cbn [fst]. apply Hset; auto; [naive_solver|]. intros. simpl. lia.
Qed.
Hint Resolve kept_session_login : kept.

Lemma kept_drop_session w0 now {A} sid (f : App -> App) (k : M A) :
  (forall a, a_credentials (f a) = None) -> Sub sid -> kept w0 now k ->
  kept w0 now (_ ← modify (fun w => set_sessions (Dict.pop sid (sessions w)) w); _ ← modify_app sid f; k).
Proof.
  intros Hf Hsub Hk w Hw. apply Hk. apply (during_set_session w0 now w sid None f); try done; by right.
Qed.

(** Without a session the application has no credentials to drop. *)
Lemma core_drop_credentials w sid : wf w -> Dict.get sid (sessions w) = None ->
  same_core w (set_apps (alter (set_app_credentials None) sid (apps w)) w).
Proof.
  intros Hw Hs. split; try done; [..|intros sid'; simpl; by rewrite lookup_alter_is_Some].
  - intros sid'. pose proof (wf_session w Hw sid) as Hn. rewrite Hs in Hn. unfold app_cred in *. simpl in *.
    destruct (decide (sid' = sid)) as [->|Hne]; [|by rewrite lookup_alter_ne].
    rewrite lookup_alter_eq. by destruct (apps w !! sid).
  - intros sid' a'. simpl. destruct (decide (sid' = sid)) as [->|Hne]; [|rewrite lookup_alter_ne by done; by exists a'].
    rewrite lookup_alter_eq. destruct (apps w !! sid); intros [= <-]. by intros [].
Qed.

Lemma during_drop_credentials w0 now w sid : Dict.get sid (sessions w) = None -> during w0 now w ->
  during w0 now (modify_app sid (set_app_credentials None) w).1.
Proof. intros Hs Hw. eapply during_core, Hw. apply core_drop_credentials; [apply Hw|done]. Qed.

Lemma kept_session_logout w0 now sid : Sub sid -> kept w0 now (session_logout sid).
Proof.
  intros Hsub w Hw. split; [|done]. unfold session_logout. rewrite (bind_gets _ _ w).
  destruct (Dict.get sid (sessions w)) as [s|] eqn:Hs; [|by apply during_drop_credentials].
  match goal with |- during _ _ (?m w).1 => enough (kept w0 now m) as Hk by (by apply Hk) end.
  kept_step; [kept_step|]. intros internal. kept_step; [kept_step|]. intros a. kept_step; [kept_auto|]. intros _.
  apply kept_drop_session; [done..|]. kept_auto.
Qed.
Hint Resolve kept_session_logout : kept.

(** ** Messages *)

Lemma user_notify_evol now c : cred_evol now (UserCred c) (UserCred (user_notify_used now c)).
Proof.
  unfold user_notify_used. destruct (timeout_set _) as [t|] eqn:Ht; [|done].
  destruct (_ <? _)%Z eqn:Hlt; [|done]. apply Z.ltb_lt in Hlt. split; [done|]. right. split; [done|]. by exists t.
Qed.

Lemma during_notify_root w0 now w r : during w0 now w -> during w0 now (notify_root now r w).
Proof.
  intros Hw. unfold notify_root. destruct (creds w !! r) as [[| |c|c]|] eqn:Hc; try done.
  replace (<[r:=_]> (creds w)) with (alter (fun _ => UserCred (user_notify_used now c)) r (creds w)).
  - apply during_alter; [|intros _|done]; rewrite Hc; intros c' [= <-]; apply user_notify_evol.
  - apply map_eq. intros r'. destruct (decide (r' = r)) as [->|Hne].
    + by rewrite lookup_alter_eq, lookup_insert_eq, Hc.
    + by rewrite lookup_alter_ne, lookup_insert_ne.
Qed.

Lemma during_notify_token w0 now w r t : token_objs w !! r = Some t -> token_is_valid now t = true -> during w0 now w ->
  during w0 now (set_token_objs (alter (token_notify_used now) r (token_objs w)) w).
Proof.
  intros Ht Hv [D0 [W1 W2 W3 W4 W5 W6 W7 W8 W9 W11 W10] D2 D3 D4 D5 D6 D7 D8 D9].
  assert (forall r' x, token_objs w !! r' = Some x ->
    exists x', alter (token_notify_used now) r (token_objs w) !! r' = Some x' /\ token_evol now x x') as Hf.
  { intros r' x Hx. destruct (decide (r' = r)) as [->|Hne].
    - rewrite lookup_alter_eq, Hx. eexists. split; [done|]. split; [done|]. right. split; [done|]. congruence.
    - rewrite lookup_alter_ne by done. by exists x. }
  assert (forall r' x', alter (token_notify_used now) r (token_objs w) !! r' = Some x' ->
    exists x, token_objs w !! r' = Some x /\ tk_parent x' = tk_parent x) as Hb.
  { intros r' x'. destruct (decide (r' = r)) as [->|Hne]; [rewrite lookup_alter_eq, Ht|rewrite lookup_alter_ne by done].
    - intros [= <-]. by exists t.
    - by exists x'. }
  split; [done|split|..]; simpl; auto.
  - intros r' x' (x & Hx & _)%Hb. eauto.
  - intros k r' (x & Hx & Hn)%W4. destruct (Hf _ _ Hx) as (x' & Hx' & [He _]). exists x'. split; [done|]. by rewrite He.
  - intros r' x' (x & Hx & ->)%Hb. eauto.
  - intros r' c (x & Hx & Hp & Hr)%W6. destruct (Hf _ _ Hx) as (x' & Hx' & [He _]). exists x'. split; [done|].
    rewrite He. simpl. split; [done|]. exact Hr.
  - intros r' x (y & Hy & Hxy)%D4. destruct (Hf _ _ Hy) as (y' & Hy' & ?). exists y'. split; [done|]. by etransitivity.
Qed.

Lemma during_notify_used w0 now w r : is_valid now w r = true -> during w0 now w -> during w0 now (notify_used now r w).
Proof.
  intros Hv Hw. unfold notify_used. unfold is_valid in Hv. cbn [cred_is_valid] in Hv.
  destruct (creds w !! r) as [[| |c|c]|] eqn:Hc; try done; try by apply during_notify_root.
  destruct (negb _); [done|]. destruct (negb _); [done|]. destruct (token_objs w !! tc_token c) as [t|] eqn:Ht; [|done].
  apply during_notify_token with t; [|done|by apply during_notify_root].
  rewrite <- Ht. unfold notify_root. by destruct (creds w !! tc_root c) as [[]|].
Qed.

Lemma kept_app_on_message w0 now sid : Sub sid -> kept w0 now (_app_on_message now sid).
Proof.
  intros Hsub w Hw. split; [|done]. unfold _app_on_message. rewrite !(bind_gets _ _ w).
  destruct (Dict.get sid (sessions w)) as [s|] eqn:Hs; [|by apply during_drop_credentials].
  rewrite (bind_gets _ _ w). destruct (is_valid now w (s_credentials s)) eqn:Hv.
  - by apply during_notify_used.
  - by apply kept_session_logout.
Qed.

Lemma kept_run_callbacks w0 now n m : kept w0 now m -> kept w0 now (run_callbacks n m).
Proof. intros Hm. induction n as [|n IH]; [kept_step|]. intros w Hw. by apply IH, Hm. Qed.
Hint Resolve kept_app_on_message kept_run_callbacks : kept.

Lemma kept_app_message w0 now sid : Sub sid -> kept w0 now (app_message now sid).
Proof. unfold app_message. kept_auto. Qed.
Lemma kept_app_close w0 now sid : Sub sid -> kept w0 now (app_close sid).
Proof. unfold app_close. kept_auto. Qed.

(** ** The service *)

Lemma kept_terminate_session w0 now id_ : kept w0 now (terminate_session id_).
Proof. unfold terminate_session. kept_auto. apply kept_modify_core; core_done. Qed.
Hint Resolve kept_terminate_session : kept.

Lemma kept_terminate_others w0 now sid : kept w0 now (terminate_other_sessions sid).
Proof. unfold terminate_other_sessions. kept_step; [kept_step|]. intros l. induction l as [|x l IH]; kept_auto. Qed.

Lemma kept_generate_token w0 now cf name sid ttl attrs mo su : New name -> kept w0 now (generate_token jobs cf name sid ttl attrs mo su).
Proof. unfold generate_token. kept_auto. Qed.

Lemma kept_consume_token w0 now t : kept w0 now (consume_token t).
Proof. unfold consume_token. kept_auto. Qed.
Hint Resolve kept_generate_token kept_consume_token : kept.

Lemma kept_get_token w0 now t o : kept w0 now (get_token now t o).
Proof. unfold get_token. kept_auto. Qed.

Lemma kept_token_shell w0 now t o : kept w0 now (get_token_for_shell_application now t o).
Proof. unfold get_token_for_shell_application. kept_auto. Qed.

(** PAM authentication of credentials created by this operation *)
Lemma kept_token_pam w0 now cf r : fresh_ref w0 <= r -> kept w0 now (token_pam_authenticate check_unixhash cf rounds r).
Proof.
  intros Hr. unfold token_pam_authenticate. kept_auto. apply kept_modify_cred; [by intros []|lia].
Qed.

#[local] Ltac kept_new_token :=
  intros;
  match goal with
  | |- keeps _ (mbind _ (new_token_cred _ _)) _ =>
      eapply keeps_bind; [apply kept_new_token_cred|]; let r := fresh "r" in let Hr := fresh "Hr" in intros r Hr; simpl in Hr;
      apply kept_bind; [by apply kept_token_pam|]; intros
  end.

Lemma kept_token_action w0 now cf sid t o m res : kept w0 now (get_token_for_action check_unixhash cf rounds sid t o m res).
Proof.
  unfold get_token_for_action. repeat first [kept_new_token | kept_step].
Qed.

Lemma kept_check_mechanism w0 now sid m l : kept w0 now (check_auth_mechanism sid m l).
Proof. unfold check_auth_mechanism. kept_auto. Qed.
Hint Resolve kept_check_mechanism : kept.

(** ** Logging in *)

Lemma kept_make_cred w0 now cf cls u h :
  (cls = CLoginPassword -> otp_mandatory (aal_level w0) = false) -> kept w0 now (make_cred cf cls u h).
Proof.
  intros Hcls. unfold make_cred.
  eapply keeps_bind; [apply (keeps_gets _ _ (fun l => l = aal_level w0)); intros w Hw; apply Hw|].
  intros lvl ->. kept_step; [kept_step|]. intros ur. eapply keeps_any, kept_new_cred. intros w _ lvl [= <-] Hm Hc.
  simpl in Hc. by rewrite (Hcls Hc) in Hm.
Qed.

Lemma kept_user_of_response w0 now cf r : kept w0 now (user_of_response cf r).
Proof. unfold user_of_response. kept_auto. Qed.
Lemma kept_ctx_handle w0 now sid : kept w0 now (ctx_handle sid).
Proof. unfold ctx_handle. kept_auto. Qed.
Lemma kept_set_pam_hdl w0 now sid h : kept w0 now (set_pam_hdl sid h).
Proof. unfold set_pam_hdl. kept_auto. Qed.
Lemma kept_set_next w0 now sid m d : kept w0 now (set_next sid m d).
Proof. unfold set_next. kept_auto. Qed.
Lemma kept_fail_audit w0 now sid c u e : kept w0 now (fail_audit sid c u e).
Proof. unfold fail_audit. kept_auto. Qed.
Hint Resolve kept_user_of_response kept_ctx_handle kept_set_pam_hdl kept_set_next kept_fail_audit : kept.

Lemma kept_auth_ctx_check w0 now e sid c b : kept w0 now (_auth_ctx_check e sid c b).
Proof. unfold _auth_ctx_check. kept_auto. Qed.
Hint Resolve kept_auth_ctx_check : kept.

Lemma kept_login_password w0 now cf sid u p : kept w0 now (login_ex_password_plain check_unixhash rounds cf sid u p).
Proof.
  unfold login_ex_password_plain.
  do 3 (kept_step; [kept_step|]; intros ?). kept_step; [kept_step|]. intros ck. destruct (negb ck.1); [kept_step|].
  kept_step; [kept_step|]. intros rsp. cbv zeta. set (otpw := bool_decide (r_code rsp = PAM_SUCCESS) && _).
  eapply keeps_bind; [apply (keeps_gets _ _ (fun l => l = aal_level w0)); intros w Hw; apply Hw|]. intros lvl ->.
  kept_step; [kept_auto|]. intros _.
  destruct (bool_decide (r_code rsp = PAM_SUCCESS) && otp_mandatory (aal_level w0) && negb otpw) eqn:Hd; [cbn [r_code resp]; kept_auto|].
  destruct (r_code rsp) eqn:Hc; try solve [kept_auto].
  kept_step; [kept_step|]. intros [user|]; [|kept_auto]. kept_step; [|kept_auto]. apply kept_make_cred.
  intros Hcls. destruct otpw; [done|]. by destruct (otp_mandatory (aal_level w0)).
Qed.

Lemma kept_login_api_key w0 now cf sid u k : kept w0 now (login_ex_api_key_plain check_unixhash rounds cf sid u k).
Proof. unfold login_ex_api_key_plain. repeat first [apply kept_make_cred; done | kept_step]. apply kept_modify_core; core_done. Qed.

Lemma kept_login_oath w0 now cf sid t : kept w0 now (login_ex_oath_token cf sid t).
Proof. unfold login_ex_oath_token. repeat first [apply kept_make_cred; done | kept_step]. Qed.

Lemma kept_login_token w0 now cf sid t : kept w0 now (login_ex_token_plain check_unixhash rounds cf sid t).
Proof. unfold login_ex_token_plain. repeat first [kept_new_token | kept_step]. Qed.

Lemma kept_login_scram w0 now cf sid ty rfc : kept w0 now (login_ex_scram cf sid ty rfc).
Proof.
  unfold login_ex_scram.
  repeat first
    [ apply kept_make_cred; intros; congruence
    | match goal with
      | |- forall _ : json, _ =>
          let dbid := fresh in intros dbid; eapply (keeps_bind _ _ _ (fun cls => cls ≠ CLoginPassword)); [|intros cls Hcls]
      end
    | match goal with
      | |- keeps _ _ (fun cls => cls ≠ CLoginPassword) =>
          repeat case_match; try (by apply keeps_ret); eapply keeps_bind; [apply keeps_expect|intros; by apply keeps_ret]
      end
    | kept_step ].
Qed.
Hint Resolve kept_login_password kept_login_api_key kept_login_oath kept_login_token kept_login_scram : kept.

Lemma kept__me w0 now cf sid : kept w0 now (_me cf sid).
Proof. unfold _me. kept_auto. Qed.
Hint Resolve kept__me : kept.
Lemma kept_me w0 now cf sid : kept w0 now (me cf sid).
Proof. unfold me. kept_auto. Qed.
Hint Resolve kept_me : kept.

Lemma kept_finish_login w0 now cf name sid d x : Sub sid -> New name -> kept w0 now (finish_login jobs cf name sid d x).
Proof. unfold finish_login, login_success, get_authenticator_assurance_level. kept_auto. Qed.
Hint Resolve kept_finish_login : kept.

Lemma kept_login_ex w0 now cf name sid d : Sub sid -> New name -> kept w0 now (login_ex check_unixhash rounds jobs cf name sid d).
Proof.
  intros Hsub Hnew. unfold login_ex. destruct (failover_redirect cf); [kept_step|].
  kept_step; [apply kept_modify_core; intros w; by apply core_modify_app|]. intros _. kept_auto.
Qed.
Hint Resolve kept_login_ex : kept.

Lemma kept_set_attribute w0 now cf sid k v : kept w0 now (set_attribute cf sid k v).
Proof. unfold set_attribute. apply kept_bind; [apply kept__me|]. intros x. apply kept_modify_core; core_done. Qed.

Lemma kept_check_permission w0 now cf sid : Sub sid -> kept w0 now (check_permission check_unixhash rounds cf sid).
Proof.
  unfold check_permission.
  repeat first [eapply keeps_any, kept_new_cred; by intros w _ lvl [= <-] | kept_step].
Qed.

Lemma kept_ha_permission w0 now cf sid : Sub sid -> kept w0 now (ha_permission cf sid).
Proof. unfold ha_permission. repeat first [by eapply keeps_any, kept_new_cred | kept_step]. Qed.

Lemma kept_hook w0 now m : kept w0 now m -> kept w0 now (hook m).
Proof. intros Hm w Hw. split; [|done]. by apply Hm. Qed.
Hint Resolve kept_check_permission kept_ha_permission kept_hook : kept.

Lemma core_new_app w sid o : apps w !! sid = None ->
  same_core w (set_apps (<[sid := mkApp o None (Some new_ctx) 0]> (apps w)) w).
Proof.
  intros Hn. split; try done.
  - intros sid'. unfold app_cred. simpl. destruct (decide (sid' = sid)) as [->|Hne].
    + by rewrite lookup_insert_eq, Hn.
    + by rewrite lookup_insert_ne.
  - intros sid' a'. simpl. destruct (decide (sid' = sid)) as [->|Hne].
    + rewrite lookup_insert_eq. intros [= <-]. by intros [].
    + rewrite lookup_insert_ne by done. by exists a'.
  - intros sid'. simpl. rewrite lookup_insert_is_Some'. auto.
Qed.

Lemma kept_connect w0 now cf sid o : Sub sid -> kept w0 now (connect check_unixhash rounds cf sid o).
Proof.
  intros Hsub w Hw. split; [|done]. unfold connect. rewrite bind_gets. case_bool_decide as Hk; [done|].
  apply eq_None_not_Some in Hk.
  assert (kept w0 now (_ ← hook (check_permission check_unixhash rounds cf sid); hook (ha_permission cf sid))) as Hrest by kept_auto.
  apply Hrest. by apply (during_core _ _ w); [apply core_new_app|].
Qed.

Lemma kept_become_readonly w0 now cf ro sid : kept w0 now (become_readonly cf ro sid).
Proof. unfold become_readonly. kept_auto. intros u. apply kept_modify_core; core_done. Qed.

Lemma kept_update_core w0 now {A} (f : world -> world * A) : (forall w, same_core w (f w).1) -> kept w0 now (update f).
Proof. intros Hf. apply keeps_core. intros w. unfold update. specialize (Hf w). by destruct (f w). Qed.

Lemma kept_authorize w0 now sid m mo : kept w0 now (authorize_method_call ENOTAUTHENTICATED now sid m mo).
Proof.
  unfold authorize_method_call, audit_method. kept_auto. apply kept_update_core. intros w.
  destruct (check_rate_limit _ _ _ _). core_done.
Qed.

End inv.

#[export] Hint Resolve kept_expect kept_lift kept_gets kept_with_auth kept_modify_ctx kept_log_audit kept_etc_generate kept_get_app
  kept_send_event kept_new_user kept_new_auth kept_token_destroy kept_destroy_by_session kept_token_get kept_token_create
  set_login_id_evol drop_authenticator_evol set_allowlist_evol kept_modify_evol kept_cred_login kept_cred_logout
  kept_audit_credentials kept_session_login kept_session_logout kept_app_on_message kept_run_callbacks kept_terminate_session
  kept_generate_token kept_consume_token kept_check_mechanism kept_user_of_response kept_ctx_handle kept_set_pam_hdl kept_set_next
  kept_fail_audit kept_auth_ctx_check kept_login_password kept_login_api_key kept_login_oath kept_login_token kept_login_scram
  kept__me kept_me kept_finish_login kept_login_ex : kept.

Ltac kept_step :=
  intros;
  match goal with
  | |- keeps _ (raise _) _ => apply keeps_raise
  | |- keeps _ (mret _) _ => apply keeps_ret; done
  | |- keeps _ _ _ => solve [eauto with kept]
  | |- keeps _ (mbind _ _) _ => apply kept_bind
  | |- keeps _ (if ?b then _ else _) _ => destruct b
  | |- keeps _ (match ?x with _ => _ end) _ => destruct x
  | |- keeps _ (let '(_, _) := ?x in _) _ => destruct x
  end.
Ltac kept_auto := repeat kept_step.

(** Credentials of another class than a plain password *)
#[export] Hint Extern 1 (keeps _ (make_cred _ _ _ _) _) => apply kept_make_cred; intros [=] : kept.
(** A change of a field the invariant does not mention *)
#[export] Hint Extern 3 (keeps _ (modify _) _) => apply kept_modify_core; intros; apply core_fresh; done : kept.

Ltac kept_new_token :=
  intros;
  match goal with
  | |- keeps _ (mbind _ (new_token_cred _ _)) _ =>
      eapply keeps_bind; [apply kept_new_token_cred|]; let r := fresh "r" in let Hr := fresh "Hr" in intros r Hr; simpl in Hr;
      apply kept_bind; [by apply kept_token_pam|]; intros
  end.

(** ** One operation *)

Section exec.
Context {HP : PamStack} (check_unixhash : string -> string -> bool) (rounds : nat) (jobs : job_check) (ENOTAUTHENTICATED : Z).
Implicit Types (w : world).
Notation exec := (exec check_unixhash rounds jobs ENOTAUTHENTICATED).
Notation exec_all := (exec_all check_unixhash rounds jobs ENOTAUTHENTICATED).

(** The application whose authentication an operation may change *)
Definition subject (o : auth_op) : option string :=
  match o with
  | Connect sid _ | Message sid | Close sid | LoginEx _ sid _ | Logout sid => Some sid
  | _ => None
  end.

(** The name of the token an operation may create *)
Definition creates (o : auth_op) : option string :=
  match o with
  | LoginEx name _ _ | GenerateToken name _ _ _ _ _ => Some name
  | _ => None
  end.

(** What an operation at time [now] may do to the objects that exist *)
Record evolves (now : Z) (Sub New : string -> Prop) w w' : Prop := mkEvolves {
  ev_creds : forall r c, creds w !! r = Some c -> exists c', creds w' !! r = Some c' /\ cred_evol now c c';
  ev_tokens : forall r t, token_objs w !! r = Some t -> exists t', token_objs w' !! r = Some t' /\ token_evol now t t';
  ev_others : forall sid, ~ Sub sid -> app_cred w' sid = app_cred w sid;
  ev_names : forall k, ~ New k -> Dict.get k (tokens w) = None -> Dict.get k (tokens w') = None;
}.

Lemma kept_after {A} (m : M A) Sub New now w :
  keeps (E := exn) (during Sub New w now) m anything -> wf w -> wf (m w).1 /\ evolves now Sub New w (m w).1.
Proof. intros Hm Hw. destruct (Hm w (during_refl _ _ _ _ Hw)) as [[] _]. by split. Qed.

Lemma wf_set_level w l : wf w -> wf (set_aal_level l w).
Proof. by intros []. Qed.

Lemma set_level_after Sub New now w l : wf w ->
  wf (set_authenticator_assurance_level l w).1 /\ evolves now Sub New w (set_authenticator_assurance_level l w).1.
Proof.
  intros Hw. unfold set_authenticator_assurance_level, modify, raise.
  repeat case_match; (split; [by try apply wf_set_level|split; simpl; try done; intros r x Hx; by exists x]).
Qed.

Lemma exec_after cf o w : wf w ->
  wf (exec cf o w) /\ evolves (os_now (cf_os cf)) (fun sid => subject o = Some sid) (fun k => creates o = Some k) w (exec cf o w).
Proof.
  intros Hw. destruct o; simpl; try (apply set_level_after; done); apply kept_after; try done.
  - apply kept_connect; auto.
  - apply kept_app_message; auto.
  - apply kept_app_close; auto.
  - apply kept_login_ex; auto.
  - apply kept_bind; [apply kept_session_logout|intros _; apply keeps_ret]; auto; done.
  - apply kept_generate_token; auto.
  - apply kept_get_token; auto.
  - apply kept_token_action; auto.
  - apply kept_token_shell; auto.
  - apply kept_terminate_session; auto.
  - apply kept_terminate_others; auto.
  - apply kept_become_readonly; auto.
  - apply kept_set_attribute; auto.
  - apply kept_authorize; auto.
Qed.

Lemma wf_initial : wf initial_world.
Proof. split; try done; constructor. Qed.

Lemma wf_exec_all h w : wf w -> wf (exec_all h w).
Proof. revert w. induction h as [|x h IH]; intros w Hw; [done|]. simpl. apply IH. by apply exec_after. Qed.

Lemma exec_all_ind (P : world -> Prop) (Hstep : config * auth_op -> Prop) h w :
  (forall x w, Hstep x -> wf w -> P w -> P (exec x.1 x.2 w)) -> Forall Hstep h -> wf w -> P w -> P (exec_all h w).
Proof.
  intros Hs Hh. revert w. induction Hh as [|x h Hx Hh IH]; intros w Hw Hp; [done|]. simpl.
  apply IH; [by apply exec_after|]. by apply Hs.
Qed.
End exec.
