(* ===== verification/SessionProps.v ===== *)
(** * Properties of sessions, tokens and logins

    Theorems about [Sessions] and [Login], over every history of operations from
    the initial state, with their witnesses on a small PAM stack. *)

From S2P Require Import Prelude PyDict PyStr PyVal Errors Roles Allowlist Privilege Origin RateLimit AuthLevels Authenticator Sessions Login SessionInv.

(** ** Accounts and their privileges *)

(** The groups the privileges of an account are looked up with: its own, and for
    a directory services account the SIDs they map to *)
Definition account_groups (cf : config) (pw : passwd) : list group_id :=
  let ids := map Gid (pw_grouplist pw) in
  if pw_local pw then ids else match cf_convert_unixids cf ids with None => ids | Some sids => ids ++ map Sid sids end.

Definition account_key (pw : passwd) : groups_key := if pw_local pw then local_groups else ds_groups.

Lemma account_privileges cf pw p :
  p ∈ privileges_for_groups (account_key pw) (map Gid (pw_grouplist pw)) (cf_convert_unixids cf) (cf_privileges cf) <->
  p ∈ cf_privileges cf /\ exists g, g ∈ key_groups (account_key pw) p /\ g ∈ account_groups cf pw.
Proof.
  unfold privileges_for_groups. rewrite group_mapping_elem. unfold account_key, account_groups.
  destruct (pw_local pw); [done|]. by destruct (cf_convert_unixids cf _).
Qed.

(** The user dictionary of an accepted account: its allow list allows the calls
    of the roles of its privileges. *)
Lemma authenticate_user_allows ops cf pw u meth :
  ops_plain ops -> cf_roles cf = run_ops ROLES ops -> cf_enable_gpos_stig cf = false ->
  Forall (fun p => Forall role_usable (p_roles p)) (cf_privileges cf) -> authenticate_user cf pw = Ok (Some u) ->
  Allowlist.authorize (new_Allowlist (c_allowlist (u_privilege u))) "CALL" meth = true <->
  exists p g role, p ∈ cf_privileges cf /\ g ∈ key_groups (account_key pw) p /\ g ∈ account_groups cf pw /\ role ∈ p_roles p /\
    (role = "FULL_ADMIN" \/ exists l, roles_for_method meth (run_ops ROLES ops) = Some l /\ role ∈ l).
Proof.
  intros Hplain Hroles Hstig Hps Hu. unfold authenticate_user in Hu. fold (account_key pw) in Hu.
  destruct (cf_user_query cf (pw_name pw)) as [[[[[uid loc] ?] ?] ?]|]; [|done].
  destruct (negb (uid =? pw_uid pw)%Z); [done|]. destruct (negb (Bool.eqb (pw_local pw) loc)); [done|].
  pose proof (account_privileges cf pw) as Hel. revert Hel Hu.
  generalize (privileges_for_groups (account_key pw) (map Gid (pw_grouplist pw)) (cf_convert_unixids cf) (cf_privileges cf)).
  intros ps Hel Hu. destruct ps as [|p0 ps']; [done|]. set (ps := p0 :: ps') in *.
  rewrite Hroles, Hstig in Hu.
  assert (Forall (fun p => Forall role_usable (p_roles p)) ps) as Hps'.
  { rewrite Forall_forall in Hps |- *. intros p Hp. by apply Hps, Hel. }
  destruct (compose_authorizes_iff ops ps meth Hplain Hps') as (c & Hc & Hiff). rewrite Hc in Hu. injection Hu as <-. simpl.
  rewrite Hiff. setoid_rewrite Hel. naive_solver.
Qed.

Section props.
Context {HP : PamStack} (check_unixhash : string -> string -> bool) (rounds : nat) (jobs : job_check) (ENOTAUTHENTICATED : Z).
Implicit Types (w : world).
Notation exec := (exec check_unixhash rounds jobs ENOTAUTHENTICATED).
Notation exec_all := (exec_all check_unixhash rounds jobs ENOTAUTHENTICATED).

(** ** Validity over time *)

(** Credentials that exist and are not valid at time [t] *)
Definition dead (t : Z) (r : nat) w : Prop := is_Some (creds w !! r) /\ is_valid t w r = false.

Lemma user_dead_evol t now c c' :
  (t <= now)%Z -> cred_evol now (UserCred c) (UserCred c') -> user_is_valid t c = false ->
  forall t', (t <= t')%Z -> user_is_valid t' c' = false.
Proof.
  intros Ht [Hs Hl] Hd t' Ht'. injection Hs as E1 E2 E3 E4 E5. unfold user_is_valid in *. rewrite E3, E4, E5.
  destruct (uc_assurance c); [|done]. destruct (uc_expiry c) as [e|]; [|done].
  destruct (e <? t)%Z eqn:He; [apply Z.ltb_lt in He; by rewrite (proj2 (Z.ltb_lt e t')) by lia|].
  destruct (e <? t')%Z; [done|]. destruct (timeout_set _) as [d|] eqn:Hd'; [|done].
  apply negb_false_iff, Z.ltb_lt in Hd. apply negb_false_iff, Z.ltb_lt.
  destruct Hl as [->|(_ & d' & [= <-] & Hlt)]; lia.
Qed.

Lemma token_dead_evol t now k k' :
  (t <= now)%Z -> token_evol now k k' -> token_is_valid t k = false ->
  forall t', (t <= t')%Z -> token_is_valid t' k' = false.
Proof.
  intros Ht [Hs Hl] Hd t' Ht'. rewrite Hs. unfold token_is_valid in *. simpl. apply Z.ltb_ge in Hd. apply Z.ltb_ge.
  destruct Hl as [->|[-> Hv]]; [lia|]. apply Z.ltb_lt in Hv. lia.
Qed.

(** Root credentials are not token credentials, so one level decides. *)
Lemma root_valid w now r c : creds w !! r = Some c -> is_token c = false ->
  forall d, cred_is_valid (S d) now w r = match c with UserCred c => user_is_valid now c | _ => true end.
Proof. intros Hc Hnt d. cbn [cred_is_valid]. rewrite Hc. by destruct c. Qed.

Lemma dead_evolves t now Sub New w w' r :
  (t <= now)%Z -> wf w -> evolves now Sub New w w' -> dead t r w -> forall t', (t <= t')%Z -> dead t' r w'.
Proof.
  intros Ht Hw Hev [[c Hc] Hd] t' Ht'. destruct (ev_creds _ _ _ _ _ Hev _ _ Hc) as (c' & Hc' & Hcc).
  split; [by rewrite Hc'|]. unfold is_valid in *. cbn [cred_is_valid] in Hd |- *. rewrite Hc in Hd. rewrite Hc'.
  destruct c as [| |c|c]; try done.
  - destruct c' as [| |c'|c']; try (by destruct Hcc). by apply (user_dead_evol t now c).
  - destruct c' as [| |c'|c']; try (by destruct Hcc). destruct Hcc as [Hs Hp]. injection Hs as E1 E2 E3 E4.
    destruct (wf_token_cred w Hw _ _ Hc) as (k & Hk & Hpar & _). rewrite Hk in Hd. rewrite E1, E2.
    destruct (ev_tokens _ _ _ _ _ Hev _ _ Hk) as (k' & Hk' & Hkk). rewrite Hk'.
    destruct (wf_parent w Hw _ _ Hk) as (p & Hp' & Hnt). rewrite Hpar in Hp'.
    destruct (ev_creds _ _ _ _ _ Hev _ _ Hp') as (p' & Hp'' & Hpp).
    assert (is_token p' = false) as Hnt' by (destruct Hpp as [Hsp _]; by destruct p, p').
    rewrite Hp' in Hd. rewrite Hp''.
    assert (forall b b' : bool, (if negb b then false else b') = b && b') as Hif by by intros [] [].
    rewrite !Hif in Hd |- *. apply andb_false_iff. apply andb_false_iff in Hd as [Hd|Hd]; [left|right].
    + destruct p as [| |p|p], p' as [| |p'|p']; try done; try (by destruct Hpp).
      by apply (user_dead_evol t now p).
    + apply andb_false_iff. apply andb_false_iff in Hd as [Hd|Hd]; [left|right].
      * destruct (tc_pam_authenticated c'); [|done]. by rewrite Hp in Hd.
      * by apply (token_dead_evol t now k).
Qed.

(** C6: Expiry is final: credentials that are not valid at some time are not
    valid at any later time, whatever operations any client performs. *)
Theorem expired_stays_expired (h : list (config * auth_op)) (w : world) (r : nat) (t t' : Z)
  (Hw : exists h0, w = exec_all h0 initial_world)
  (Htimes : Forall (fun x => (t <= os_now (cf_os x.1))%Z) h) (Hlate : (t <= t')%Z)
  (Hex : is_Some (creds w !! r)) (Hdead : is_valid t w r = false) :
  is_valid t' (exec_all h w) r = false.
Proof.
  destruct Hw as [h0 ->]. assert (wf (exec_all h0 initial_world)) as Hw by apply wf_exec_all, wf_initial.
  enough (dead t r (exec_all h (exec_all h0 initial_world))) as [He Hd].
  - eapply (dead_evolves t t (fun _ => False) (fun _ => False) (exec_all h (exec_all h0 initial_world)));
      [lia|by apply wf_exec_all| |by split|done].
    split; try done; intros x y Hxy; by exists y.
  - apply (exec_all_ind _ _ _ _ (dead t r) _ _ _) with (2 := Htimes); [|done|by split].
    intros x w1 Hx Hw1 Hd. eapply dead_evolves; [exact Hx|exact Hw1|by apply exec_after|done|lia].
Qed.

(** ** Who is authenticated *)

(** C7: After any history, an application is authenticated exactly when the
    session manager has a session for it, by the credentials of that session,
    which exist; tokens are only ever parented by credentials that are not
    themselves token credentials. *)
Theorem sessions_match_applications (h : list (config * auth_op)) (sid : string) :
  let w := exec_all h initial_world in
  s_credentials <$> Dict.get sid (sessions w) = app_cred w sid /\
  (forall r, app_cred w sid = Some r -> is_Some (creds w !! r)) /\
  (forall k t, token_objs w !! k = Some t -> exists c, creds w !! tk_parent t = Some c /\ is_token c = false).
Proof.
  pose proof (wf_exec_all check_unixhash rounds jobs ENOTAUTHENTICATED h _ wf_initial) as Hw. cbv zeta.
  split_and!; [apply Hw|apply Hw|]. intros k t. by apply (wf_parent _ Hw).
Qed.

(** Isolation: an operation changes the authentication of no application
    but the one it is made for; operations that are not connects, messages,
    closes, logins or logouts change the authentication of none. *)
Theorem session_isolation (h : list (config * auth_op)) (cf : config) (o : auth_op) (sid : string)
  (Hother : subject o ≠ Some sid) :
  let w := exec_all h initial_world in app_cred (exec cf o w) sid = app_cred w sid.
Proof.
  cbv zeta. apply (ev_others _ _ _ _ _ (proj2 (exec_after check_unixhash rounds jobs ENOTAUTHENTICATED cf o _
    (wf_exec_all check_unixhash rounds jobs ENOTAUTHENTICATED h _ wf_initial)))). done.
Qed.

(** C9: A token session has exactly the authority of the credentials the token
    was generated with: the same calls, roles and user, and it is never valid
    when they are not. *)
Theorem token_session_authority (h : list (config * auth_op)) (r : nat) (c : token_cred) (now : Z)
  (Hcred : creds (exec_all h initial_world) !! r = Some (TokenCred c)) :
  let w := exec_all h initial_world in
  (forall method resource, cred_authorizes now w method resource r = cred_authorizes now w method resource (tc_root c)) /\
  (forall role, has_role w role r = has_role w role (tc_root c)) /\
  is_user_session w r = is_user_session w (tc_root c) /\
  cred_user w r = (if is_user_session w (tc_root c) then cred_user w (tc_root c) else None) /\
  (is_valid now w r = true -> is_valid now w (tc_root c) = true).
Proof.
  pose proof (wf_exec_all check_unixhash rounds jobs ENOTAUTHENTICATED h _ wf_initial) as Hw.
  revert Hw Hcred. generalize (exec_all h initial_world). intros w Hw Hc. cbv zeta.
  destruct (wf_token_cred w Hw _ _ Hc) as (t & Ht & Hp & Hu & Hr).
  destruct (wf_parent w Hw _ _ Ht) as (p & Hpc & Hnt). rewrite Hp in Hpc.
  unfold cred_authorizes, has_role, is_valid, cred_user. cbn [cred_authorize cred_has_role cred_is_valid].
  rewrite Hc, Ht, Hp, Hpc. split_and!.
  - by destruct p.
  - by destruct p.
  - unfold is_user_session in Hu |- *. by rewrite Hc.
  - unfold cred_user_ref at 1. rewrite Hc, Hu, Hr. by destruct (is_user_session w (tc_root c)).
  - by destruct p as [| |p|p]; try done; destruct (user_is_valid now p).
Qed.

(** ** Expired sessions *)

(** Operations that touch neither the applications nor the sessions *)
Definition quiet {A} (m : M A) : Prop := forall w, apps (m w).1 = apps w /\ sessions (m w).1 = sessions w.

Lemma bind_ok {A B} (m : M A) (f : A -> M B) w w' b :
  (m ≫= f) w = (w', Ok b) -> exists a w1, m w = (w1, Ok a) /\ f a w1 = (w', Ok b).
Proof. apply ste_bind_ok. Qed.

Lemma quiet_bind {A B} (m : M A) (f : A -> M B) : quiet m -> (forall a, quiet (f a)) -> quiet (m ≫= f).
Proof.
  intros Hm Hf w. unfold mbind, ste_mbind. destruct (Hm w) as [H1 H2]. destruct (m w) as [w1 [a|e]]; [|done].
  destruct (Hf a w1) as [H3 H4]. simpl in *. split; congruence.
Qed.

Lemma quiet_with_auth {A} r (m : AM A) : quiet (with_auth r m).
Proof. intros w. unfold with_auth. destruct (auths w !! r); [|done]. by destruct (m _) as [[??]?]. Qed.

Lemma quiet_logout r : quiet (cred_logout r).
Proof.
  unfold cred_logout. apply quiet_bind; [done|]. intros [[| |c|c]|]; try done.
  - apply quiet_bind; [done|]. intros a. apply quiet_bind; [apply quiet_with_auth|]. intros. by apply quiet_bind.
  - apply quiet_bind; [done|]. intros t. apply quiet_bind; [by destruct t|]. intros. apply quiet_with_auth.
Qed.

Lemma quiet_audit sid ev r e ok : quiet (audit_credentials sid ev r e ok).
Proof. unfold audit_credentials. apply quiet_bind; [done|]. intros. apply quiet_bind; [done|]. intros. by apply quiet_bind. Qed.

(** A logout whose audit message can be written ends the session. *)
Lemma logout_ends w sid r : wf w -> app_cred w sid = Some r -> is_Some (dump_credentials w r) ->
  app_cred (session_logout sid w).1 sid = None /\ Dict.get sid (sessions (session_logout sid w).1) = None.
Proof.
  intros Hw Ha [d Hd].
  enough (exists m v, session_logout sid w = m v /\ quiet m /\ app_cred v sid = None /\ Dict.get sid (sessions v) = None)
    as (m & v & -> & Hq & H1 & H2).
  { destruct (Hq v) as [Hq1 Hq2]. unfold app_cred in *. by rewrite Hq1, Hq2. }
  unfold session_logout. rewrite bind_gets.
  pose proof (wf_session w Hw sid) as Hs. rewrite Ha in Hs. destruct (Dict.get sid (sessions w)) as [s|]; [|done].
  unfold app_cred in Ha. destruct (apps w !! sid) as [a|] eqn:Hap; [|done]. simpl in Ha. rewrite bind_gets.
  set (internal := is_internal_session w sid).
  assert (exists w1, (if internal : bool then mret tt else audit_credentials sid "LOGOUT" (a_credentials a) None true) w
                       = (w1, Ok tt) /\ apps w1 = apps w /\ sessions w1 = sessions w) as (w1 & Hw1 & Hap1 & Hse1).
  { destruct internal; [by exists w|]. unfold audit_credentials. rewrite Ha. unfold mbind, ste_mbind, expect, gets. rewrite Hd.
    by eexists. }
  unfold mbind at 1, ste_mbind at 1, get_app. rewrite Hap. unfold mbind at 1, ste_mbind at 1. rewrite Hw1.
  exists (_ ← cred_logout (s_credentials s); if internal : bool then mret tt else send_session_event "REMOVED" sid).
  exists (set_apps (alter (fun a => set_app_credentials None (set_app_context None a)) sid (apps w1))
            (set_sessions (Dict.pop sid (sessions w1)) w1)). split; [reflexivity|]. split.
  - apply quiet_bind; [apply quiet_logout|]. intros. by destruct internal.
  - unfold app_cred. simpl. rewrite Hap1, Hse1, lookup_alter_eq, Hap. split; [done|]. apply Dict.get_pop_eq, Hw.
Qed.

Lemma message_logged_out n now w sid : app_cred w sid = None -> Dict.get sid (sessions w) = None ->
  app_cred (run_callbacks n (_app_on_message now sid) w).1 sid = None /\
  Dict.get sid (sessions (run_callbacks n (_app_on_message now sid) w).1) = None.
Proof.
  revert w. induction n as [|n IH]; intros w Ha Hs; [done|]. simpl. unfold _app_on_message at 2 4. rewrite bind_gets, Hs.
  apply IH; simpl; [|done]. unfold app_cred in *. simpl. rewrite lookup_alter_eq. by destruct (apps w !! sid).
Qed.

(** A message on a session whose credentials are no longer valid ends the
    session before the message is processed: the application is no longer
    authenticated and its calls are refused, when the audit message of the logout
    can be written. *)
Theorem invalid_session_ends (h : list (config * auth_op)) (now : Z) (sid : string) (r : nat)
  (Happ : app_cred (exec_all h initial_world) sid = Some r)
  (Hdead : is_valid now (exec_all h initial_world) r = false)
  (Hdump : is_Some (dump_credentials (exec_all h initial_world) r)) :
  let w := (app_message now sid (exec_all h initial_world)).1 in
  app_cred w sid = None /\ Dict.get sid (sessions w) = None /\
  forall method_name mo, _no_auth_required mo = false ->
    (authorize_method_call ENOTAUTHENTICATED now sid method_name mo w).2 = Err (CallError "Not authenticated" ENOTAUTHENTICATED).
Proof.
  pose proof (wf_exec_all check_unixhash rounds jobs ENOTAUTHENTICATED h _ wf_initial) as Hw.
  revert Hw Happ Hdead Hdump. generalize (exec_all h initial_world). intros w Hw Ha Hd Hdump. cbv zeta.
  assert (is_Some (apps w !! sid)) as [a Hap]. { unfold app_cred in Ha. by destruct (apps w !! sid). }
  assert (a_credentials a = Some r) as Har by (unfold app_cred in Ha; by rewrite Hap in Ha).
  pose proof (wf_callbacks w Hw sid a Hap ltac:(by rewrite Har)) as Hcb.
  unfold app_message, mbind, ste_mbind, get_app. rewrite Hap. destruct (a_callbacks a) as [|n]; [lia|]. cbn [run_callbacks].
  assert ((_app_on_message now sid w).1 = (session_logout sid w).1) as Hmsg.
  { unfold _app_on_message. rewrite bind_gets. pose proof (wf_session w Hw sid) as Hs. rewrite Ha in Hs.
    destruct (Dict.get sid (sessions w)) as [s|]; [|done]. injection Hs as Hs. by rewrite bind_gets, Hs, Hd. }
  rewrite Hmsg. destruct (logout_ends w sid r Hw Ha Hdump) as [H1 H2].
  destruct (message_logged_out n now _ sid H1 H2) as [H3 H4]. split; [done|]. split; [done|].
  intros m mo Hmo. unfold authorize_method_call, mbind, ste_mbind, get_app.
  assert (is_Some (apps (run_callbacks n (_app_on_message now sid) (session_logout sid w).1).1 !! sid)) as [a' Ha'].
  { apply (du_apps (fun _ => True) (fun _ => True) w now); [|by rewrite Hap].
    apply (kept_run_callbacks (fun _ => True) (fun _ => True) w now n); [by apply kept_app_on_message|].
    apply kept_session_logout; [done|]. by apply during_refl. }
  rewrite Ha', Hmo. unfold app_cred in H3. rewrite Ha' in H3. simpl in H3. rewrite H3.
  unfold audit_method. by destruct (mo_audit mo).
Qed.

(** ** Authorization of calls, end to end *)

(** The refusal of a call is audited and raised. *)
Ltac refused_call :=
  unfold audit_method;
  match goal with |- context [if ?b then raise _ else raise _] => by destruct (mo_audit _), b end.

(** C10: Authorization end to end: a user session opened for an account that
    [auth.authenticate_user] accepted may call a method that requires
    authorization exactly when the session is within its age and inactivity
    limits and a privilege that
    names one of the groups of the account has the role [FULL_ADMIN] or one of
    the roles the role manager reports for the method.  No STIG is enabled, the
    registered names are plain, the privileges have roles of the shipped table that
    do not include themselves, and the credentials have an assurance level and
    the allow list they were opened with. *)
Theorem session_call_authorized (ops : list role_op) (cf : config) (pw : passwd) (u : user) (cls : user_class)
  (lvl : AuthenticatorAssuranceLevel) (t0 now : Z) (uref au r : nat) (c : user_cred) (w : world) (sid : string) (a : App) (meth : string)
  (mo : method_object)
  (Hplain : ops_plain ops) (Hroles : cf_roles cf = run_ops ROLES ops) (Hstig : cf_enable_gpos_stig cf = false)
  (Hps : Forall (fun p => Forall role_usable (p_roles p)) (cf_privileges cf))
  (Huser : authenticate_user cf pw = Ok (Some u))
  (Happ : apps w !! sid = Some a) (Hcred : a_credentials a = Some r)
  (Hc : creds w !! r = Some (UserCred c))
  (Hshape : shape (UserCred c) = shape (UserCred (new_user_cred t0 cls uref u (Some lvl) au)))
  (Hallow : uc_allowlist c = uc_allowlist (new_user_cred t0 cls uref u (Some lvl) au))
  (Hmo : _no_auth_required mo = false) (Hmz : _no_authz_required mo = false) :
  (authorize_method_call ENOTAUTHENTICATED now sid meth mo w).2 = Ok tt <->
  ((now <= t0 + max_session_age lvl)%Z /\
   match timeout_set (max_inactivity lvl) with Some d => (now <= uc_last_used_at c + d)%Z | None => True end) /\
  exists p g role, p ∈ cf_privileges cf /\ g ∈ key_groups (account_key pw) p /\ g ∈ account_groups cf pw /\ role ∈ p_roles p /\
    (role = "FULL_ADMIN" \/ exists l, roles_for_method meth (run_ops ROLES ops) = Some l /\ role ∈ l).
Proof.
  clear check_unixhash rounds jobs.
  rewrite <- (authenticate_user_allows ops cf pw u meth Hplain Hroles Hstig Hps Huser).
  unfold authorize_method_call, mbind, ste_mbind, get_app, gets, id. rewrite Happ, Hmo, Hcred, Hmz, andb_false_r.
  injection Hshape as E1 E2 E3 E4 E5. simpl in Hallow.
  unfold cred_authorizes. cbn [cred_authorize]. rewrite Hc. unfold user_is_valid. rewrite E3, E4, E5, Hallow.
  destruct (t0 + max_session_age lvl <? now)%Z eqn:He; [apply Z.ltb_lt in He|apply Z.ltb_ge in He].
  { split; [|lia]. simpl. refused_call. }
  destruct (timeout_set (max_inactivity lvl)) as [d|].
  - destruct (uc_last_used_at c + d <? now)%Z eqn:Hd; [apply Z.ltb_lt in Hd|apply Z.ltb_ge in Hd]; simpl.
    { split; [|lia]. refused_call. }
    destruct (Allowlist.authorize _ _ _); [naive_solver|]. split; [refused_call|naive_solver].
  - simpl. destruct (Allowlist.authorize _ _ _); [naive_solver|]. split; [refused_call|naive_solver].
Qed.

(** ** Single-use tokens *)

(** Operations that do not touch the tokens *)
Definition tok_quiet {A} (m : M A) : Prop :=
  forall w, tokens (m w).1 = tokens w /\ token_objs (m w).1 = token_objs w.

Lemma tok_quiet_bind {A B} (m : M A) (f : A -> M B) : tok_quiet m -> (forall a, tok_quiet (f a)) -> tok_quiet (m ≫= f).
Proof.
  intros Hm Hf w. unfold mbind, ste_mbind. destruct (Hm w) as [H1 H2]. destruct (m w) as [w1 [a|e]]; [|done].
  destruct (Hf a w1) as [H3 H4]. simpl in *. split; congruence.
Qed.

Lemma tok_quiet_check sid m l : tok_quiet (check_auth_mechanism sid m l).
Proof.
  unfold check_auth_mechanism. apply tok_quiet_bind; [done|]. intros a. apply tok_quiet_bind; [by destruct (a_context a)|].
  intros c. apply tok_quiet_bind; [|intros; by repeat case_match].
  repeat case_match; try done. all: by apply tok_quiet_bind.
Qed.

(** The token [k] is known and single-use. *)
Definition single_use w (k : string) : Prop :=
  exists tr t, Dict.get k (tokens w) = Some tr /\ token_objs w !! tr = Some t /\ tk_single_use t = true.

Lemma token_get_some w w1 now k o tr t : token_get now k o w = (w1, Ok (Some (tr, t))) ->
  w1 = w /\ Dict.get k (tokens w) = Some tr /\ token_objs w !! tr = Some t.
Proof.
  unfold token_get. destruct (Dict.get k (tokens w)) as [tr'|]; [|done]. simpl.
  destruct (token_objs w !! tr') as [t'|] eqn:Ht; [|done]. simpl.
  destruct (negb _); [done|]. repeat case_match; try done; intros [= <- <- <-]; done.
Qed.

Lemma single_use_got w w1 now k o tr t : wf w -> single_use w k -> token_get now k o w = (w1, Ok (Some (tr, t))) ->
  w1 = w /\ tk_single_use t = true /\ tk_token t = k.
Proof.
  intros Hw (tr' & t' & H1 & H2 & H3) (-> & H4 & H5)%token_get_some. simplify_eq.
  destruct (wf_tokens w Hw _ _ H1) as (t1 & ? & ?). by simplify_eq.
Qed.

(** Whether an operation used the token [k] successfully *)
Definition used (k : string) (cf : config) (o : auth_op) w : bool :=
  let now := os_now (cf_os cf) in
  match o with
  | LoginEx name sid (DToken t lo) =>
      String.eqb t k && match (login_ex check_unixhash rounds jobs cf name sid (DToken t lo) w).2 with
                        | Ok (LSuccess _ _ _) => true | _ => false end
  | GetToken t or => String.eqb t k && match (get_token now t or w).2 with Ok (Some _) => true | _ => false end
  | GetTokenForAction sid t or m res =>
      String.eqb t k && match (get_token_for_action check_unixhash cf rounds sid t or m res w).2 with Ok (Some _) => true | _ => false end
  | GetTokenForShell t or =>
      String.eqb t k && match (get_token_for_shell_application now t or w).2 with Ok (Some _) => true | _ => false end
  | _ => false
  end.

Lemma kept_absent {A} (m : M A) now w k :
  keeps (E := exn) (during (fun _ => True) (fun n => n ≠ k) w now) m anything -> wf w ->
  Dict.get k (tokens w) = None -> Dict.get k (tokens (m w).1) = None.
Proof. intros Hm Hw Hk. destruct (Hm w (during_refl _ _ _ _ Hw)) as [Hd _]. apply (du_names _ _ _ _ _ Hd k); auto. Qed.

Lemma absent_destroyed w k : wf w -> Dict.get k (tokens (token_destroy k w).1) = None.
Proof. intros Hw. apply Dict.get_pop_eq, Hw. Qed.

(** The state between two parts of an operation *)
Lemma kept_wf {A} (m : M A) Sub New now w : keeps (E := exn) (during Sub New w now) m anything -> wf w -> wf (m w).1.
Proof. intros Hm Hw. by destruct (Hm w (during_refl _ _ _ _ Hw)) as [[] _]. Qed.

Ltac wf_step H Hw Hw1 :=
  match type of H with
  | ?m ?w = (?w1, _) =>
      assert (wf w1) as Hw1 by (replace w1 with (m w).1 by (by rewrite H);
                                eapply (kept_wf m (fun _ => True) (fun _ => True) 0 w); [kept_auto; done|exact Hw])
  end.

Lemma consume_single_use w w1 t : wf w -> tk_single_use t = true -> consume_token t w = (w1, Ok tt) ->
  wf w1 /\ Dict.get (tk_token t) (tokens w1) = None.
Proof.
  intros Hw Hs. unfold consume_token. rewrite bind_gets, Hs. intros [= <-]. split.
  - apply (kept_wf _ (fun _ => False) (fun _ => False) 0 w (kept_token_destroy _ _ _ _ (tk_token t)) Hw).
  - by apply absent_destroyed.
Qed.

Lemma token_get_absent w now k o : Dict.get k (tokens w) = None -> token_get now k o w = (w, Ok None).
Proof. unfold token_get. by intros ->. Qed.

Lemma action_destroys w w' cf sid k or m res r : wf w -> single_use w k ->
  get_token_for_action check_unixhash cf rounds sid k or m res w = (w', Ok (Some r)) -> Dict.get k (tokens w') = None.
Proof.
  intros Hw Hs H. unfold get_token_for_action in H.
  apply bind_ok in H as ([[tr t]|] & w1 & Hg & H); [|done].
  destruct (single_use_got _ _ _ _ _ _ _ Hw Hs Hg) as (-> & Hsu & Hk).
  destruct (negb _); [done|]. rewrite bind_gets in H. destruct (negb _); [done|].
  apply bind_ok in H as (a & w1 & Ha & H). unfold get_app in Ha. destruct (apps w !! sid) as [a1|]; [|done]. injection Ha as <- <-.
  destruct (a_context a1) as [c|]; [|done]. destruct (pam_hdl c); [done|]. rewrite bind_gets in H.
  apply bind_ok in H as (root & w1 & [= <- Hroot] & H). rewrite bind_gets in H.
  apply bind_ok in H as (name & w1 & [= <- Hname] & H).
  apply bind_ok in H as (hd & w1 & Hhd & H). wf_step Hhd Hw Hw1.
  apply bind_ok in H as (u & w2 & Hctx & H). wf_step Hctx Hw1 Hw2.
  apply bind_ok in H as ([] & w3 & Hco & H). destruct (consume_single_use _ _ _ Hw2 Hsu Hco) as [Hw3 Hgone]. rewrite Hk in Hgone.
  match type of H with ?m w3 = _ => replace w' with (m w3).1 by (by rewrite H); apply (kept_absent m 0 w3 k); [|done|done] end.
  kept_new_token. kept_auto.
Qed.

Lemma login_destroys w w' cf name sid k o i l t : wf w -> single_use w k -> name ≠ k ->
  login_ex check_unixhash rounds jobs cf name sid (DToken k o) w = (w', Ok (LSuccess i l t)) -> Dict.get k (tokens w') = None.
Proof.
  intros Hw Hs Hname H. unfold login_ex in H. destruct (failover_redirect cf); [done|].
  apply bind_ok in H as ([] & w1 & Hctx & H).
  assert (wf w1 /\ tokens w1 = tokens w /\ token_objs w1 = token_objs w) as (Hw1 & Ht1 & Ho1).
  { injection Hctx as <-. split; [|done]. eapply wf_core, Hw. by apply core_modify_app. }
  rewrite bind_gets in H. apply bind_ok in H as ([] & w2 & Hck & H). wf_step Hck Hw1 Hw2.
  assert (single_use w2 k) as Hs2.
  { destruct (tok_quiet_check sid (mechanism_of (DToken k o)) (aal_level w1) w1) as [Ht Ho]. rewrite Hck in Ht, Ho. simpl in Ht, Ho.
    unfold single_use. by rewrite Ht, Ho, Ht1, Ho1. }
  apply bind_ok in H as (x & w3 & Hx & H). unfold finish_login in H.
  destruct (r_code x.1) eqn:Hcode; try done. apply bind_ok in H as (r & w4 & [= <- Hr] & H).
  enough (wf w3 /\ Dict.get k (tokens w3) = None) as [Hw3 Hgone].
  { match type of H with ?m w3 = _ => replace w' with (m w3).1 by (by rewrite H); apply (kept_absent m 0 w3 k); [|done|done] end.
    unfold login_success, get_authenticator_assurance_level. kept_auto. }
  split. { match type of Hx with ?m w2 = _ => replace w3 with (m w2).1 by (by rewrite Hx) end.
    eapply (kept_wf _ (fun _ => True) (fun _ => True) 0 w2); [kept_auto|done]. }
  unfold login_ex_token_plain in Hx. apply bind_ok in Hx as (a & w5 & Ha & Hx). unfold get_app in Ha.
  destruct (apps w2 !! sid) as [a1|]; [|done]. injection Ha as <- <-.
  apply bind_ok in Hx as ([[tr tk]|] & w5 & Hg & Hx); [|by injection Hx as _ <-].
  destruct (single_use_got _ _ _ _ _ _ _ Hw2 Hs2 Hg) as (-> & Hsu & Hk).
  destruct (negb _); [by injection Hx as _ <-|]. rewrite bind_gets in Hx. apply bind_ok in Hx as (root & w5 & [= <- Hroot] & Hx).
  rewrite bind_gets in Hx. apply bind_ok in Hx as (nm & w5 & [= <- Hnm] & Hx).
  apply bind_ok in Hx as (hd & w5 & Hhd & Hx). wf_step Hhd Hw2 Hw5. apply bind_ok in Hx as ([] & w6 & Hset & Hx). wf_step Hset Hw5 Hw6.
  apply bind_ok in Hx as (cr & w7 & Hcr & Hx). apply bind_ok in Hx as (rsp & w8 & Hrsp & Hx).
  assert (wf w8) as Hw8.
  { assert (keeps (E := exn) (during (fun _ => True) (fun _ => True) w6 0)
      (cr ← new_token_cred tr hd; rsp ← token_pam_authenticate check_unixhash cf rounds cr; mret rsp) anything) as Hkk
      by (kept_new_token; kept_auto).
    pose proof (kept_wf _ _ _ _ _ Hkk Hw6) as Hww. unfold mbind, ste_mbind in Hww. by rewrite Hcr, Hrsp in Hww. }
  apply bind_ok in Hx as ([] & w9 & Hd & [= <- <-]). simpl in Hcode. rewrite Hcode, Hsu in Hd.
  rewrite bool_decide_true in Hd by done. injection Hd as <-. rewrite Hk. by apply absent_destroyed.
Qed.

Lemma shell_destroys w now k or : wf w -> single_use w k ->
  match (get_token_for_shell_application now k or w).2 with
  | Ok (Some _) => Dict.get k (tokens (get_token_for_shell_application now k or w).1) = None
  | _ => True
  end.
Proof.
  intros Hw Hs. destruct (get_token_for_shell_application now k or w) as [w' [[x|]|]] eqn:H; try done. simpl.
  unfold get_token_for_shell_application in H. apply bind_ok in H as ([[tr t]|] & w1 & Hg & H); [|done].
  destruct (single_use_got _ _ _ _ _ _ _ Hw Hs Hg) as (-> & Hsu & Hk).
  destruct (negb _); [done|]. rewrite bind_gets in H. destruct (match _ with Some (UserCred _) => _ | _ => _ end); [|done].
  destruct (negb _); [done|]. rewrite Hsu in H. injection H as <- _. rewrite Hk. by apply absent_destroyed.
Qed.

Lemma get_token_destroys w now k or : wf w -> single_use w k ->
  match (get_token now k or w).2 with
  | Ok (Some _) => Dict.get k (tokens (get_token now k or w).1) = None
  | _ => True
  end.
Proof.
  intros Hw Hs. destruct (get_token now k or w) as [w' [[x|]|]] eqn:H; try done. simpl.
  unfold get_token in H. apply bind_ok in H as ([[tr t]|] & w1 & Hg & H); [|done].
  destruct (single_use_got _ _ _ _ _ _ _ Hw Hs Hg) as (-> & Hsu & Hk).
  apply bind_ok in H as ([] & w1 & Hc & [= <- _]). rewrite <- Hk. by apply (consume_single_use w).
Qed.

(** A successful use of a single-use token removes it. *)
Lemma used_gone k cf o w : wf w -> single_use w k -> creates o ≠ Some k -> used k cf o w = true ->
  Dict.get k (tokens (exec cf o w)) = None.
Proof.
  intros Hw Hs Hn Hu. destruct o; try done; simpl in Hu |- *.
  - destruct d; try done. apply andb_true_iff in Hu as [->%String.eqb_eq Hu].
    destruct (login_ex _ _ _ _ _ _ _ _) as [w' [[]|]] eqn:H; try done. by eapply login_destroys; [..|exact H]; simpl in Hn; congruence.
  - apply andb_true_iff in Hu as [->%String.eqb_eq Hu]. pose proof (get_token_destroys w (os_now (cf_os cf)) k origin Hw Hs).
    by destruct (get_token _ _ _ _) as [w' [[]|]].
  - apply andb_true_iff in Hu as [->%String.eqb_eq Hu].
    destruct (get_token_for_action _ _ _ _ _ _ _ _ _) as [w' [[]|]] eqn:H; try done. by eapply action_destroys; [..|exact H].
  - apply andb_true_iff in Hu as [->%String.eqb_eq Hu]. pose proof (shell_destroys w (os_now (cf_os cf)) k origin Hw Hs).
    by destruct (get_token_for_shell_application _ _ _ _) as [w' [[]|]].
Qed.

(** An unknown token cannot be used. *)
Lemma absent_unused k cf o w : Dict.get k (tokens w) = None -> used k cf o w = false.
Proof.
  intros Hk. destruct o; try done; simpl.
  - destruct d as [| | |tok|]; try done. destruct (String.eqb_spec tok k) as [->|]; [|done]. simpl.
    unfold login_ex. destruct (failover_redirect cf); [done|]. unfold mbind at 1, ste_mbind at 1. cbn [modify_app modify].
    match goal with |- context [set_apps ?a w] => set (w1 := set_apps a w) end. rewrite bind_gets.
    destruct (tok_quiet_check sid (mechanism_of (DToken k o)) (aal_level w1) w1) as [Ht _].
    unfold mbind at 1, ste_mbind at 1. destruct (check_auth_mechanism _ _ _ w1) as [w2 [[]|]]; [|done].
    unfold mbind at 1, ste_mbind at 1. unfold login_ex_token_plain at 1. unfold mbind at 1, ste_mbind at 1, get_app.
    destruct (apps w2 !! sid) as [a|]; [|done]. unfold mbind at 1, ste_mbind at 1.
    rewrite token_get_absent by (simpl in Ht; by rewrite Ht). done.
  - destruct (String.eqb_spec token_id k) as [->|]; [|done]. simpl. unfold get_token, mbind, ste_mbind. by rewrite token_get_absent.
  - destruct (String.eqb_spec token_id k) as [->|]; [|done]. simpl. unfold get_token_for_action, mbind, ste_mbind.
    by rewrite token_get_absent.
  - destruct (String.eqb_spec token_id k) as [->|]; [|done]. simpl. unfold get_token_for_shell_application, mbind, ste_mbind.
    by rewrite token_get_absent.
Qed.

(** C11: A single-use token is used at most once: after a login, a download or a
    shell session with it succeeded, no later use of the same token string
    succeeds, whatever happens in between, as long as no new token gets the same
    random string. *)
Theorem single_use_token_once (h0 h : list (config * auth_op)) (k : string) (cf cf' : config) (o o' : auth_op)
  (Hsingle : single_use (exec_all h0 initial_world) k)
  (Hused : used k cf o (exec_all h0 initial_world) = true)
  (Hfresh : Forall (fun x => creates x.2 ≠ Some k) ((cf, o) :: h)) :
  used k cf' o' (exec_all h (exec cf o (exec_all h0 initial_world))) = false.
Proof.
  pose proof (wf_exec_all check_unixhash rounds jobs ENOTAUTHENTICATED h0 _ wf_initial) as Hw.
  revert Hw Hsingle Hused. generalize (exec_all h0 initial_world). intros w Hw Hs Hu.
  apply Forall_cons in Hfresh as [Hn Hh]. apply absent_unused.
  apply (exec_all_ind _ _ _ _ (fun w => Dict.get k (tokens w) = None) _ _ _) with (2 := Hh).
  - intros x w1 Hx Hw1 Hk. by apply (ev_names _ _ _ _ _ (proj2 (exec_after _ _ _ _ _ _ _ Hw1)) k).
  - by apply exec_after.
  - by apply used_gone.
Qed.

(** ** Auditing of logins *)

Definition auth_entry (sid : string) (success : bool) (e : audit_entry) : Prop :=
  ae_session e = sid /\ ae_event e = "AUTHENTICATION" /\ ae_success e = success.

(** Between two states an authentication message of the application was logged. *)
Definition logged (sid : string) (success : bool) w w' : Prop :=
  exists l1 e l2, audit w' = audit w ++ l1 ++ e :: l2 /\ auth_entry sid success e.

Lemma logged_trans sid b w0 w1 w2 w3 :
  audit w0 `prefix_of` audit w1 -> logged sid b w1 w2 -> audit w2 `prefix_of` audit w3 -> logged sid b w0 w3.
Proof.
  intros [k1 H1] (l1 & e & l2 & H2 & He) [k3 H3]. exists (k1 ++ l1), e, (l2 ++ k3). split; [|done].
  rewrite H3, H2, H1. by rewrite <- !(assoc_L (++)), <- app_comm_cons.
Qed.

(** [m] logs such a message whenever it returns a value in [P]. *)
Definition logs {A} (sid : string) (b : bool) (m : M A) (P : A -> Prop) : Prop :=
  forall w w' a, wf w -> m w = (w', Ok a) -> P a -> logged sid b w w'.

Notation safe m := (forall w, keeps (E := exn) (during (fun _ => True) (fun _ => True) w 0) m anything).

Lemma safe_step {A} (m : M A) w w' x : safe m -> wf w -> m w = (w', x) -> wf w' /\ audit w `prefix_of` audit w'.
Proof. intros Hm Hw H. destruct (Hm w w (during_refl _ _ _ _ Hw)) as [Hd _]. rewrite H in Hd. by destruct Hd. Qed.

Lemma logs_bind {A B} sid b (m : M A) (f : A -> M B) (Q : A -> Prop) (P : B -> Prop) :
  safe m -> logs sid b m Q -> (forall a, Q a \/ ~ Q a) -> (forall a, Q a -> safe (f a)) -> (forall a, ~ Q a -> logs sid b (f a) P) ->
  logs sid b (m ≫= f) P.
Proof.
  intros Hm HQ Hdec Hs Hf w w' x Hw (a & w1 & H1 & H2)%bind_ok HP'.
  destruct (safe_step m w w1 _ Hm Hw H1) as [Hw1 Hp1]. destruct (Hdec a) as [Ha|Ha].
  - destruct (safe_step _ w1 w' _ (Hs a Ha) Hw1 H2) as [Hw2 Hp2]. eapply logged_trans; [reflexivity|by apply (HQ w w1 a)|done].
  - eapply logged_trans; [done|by apply (Hf a Ha w1 w' x)|done].
Qed.

Lemma logs_skip {A B} sid b (m : M A) (f : A -> M B) (P : B -> Prop) :
  safe m -> (forall a, logs sid b (f a) P) -> logs sid b (m ≫= f) P.
Proof.
  intros Hm Hf w w' x Hw (a & w1 & H1 & H2)%bind_ok HP'. destruct (safe_step m w w1 _ Hm Hw H1) as [Hw1 Hp1].
  eapply logged_trans; [done|by apply (Hf a w1 w' x)|done].
Qed.

Lemma logs_fail {A} sid c u e (k : M A) P : (forall w, audit w `prefix_of` audit (k w).1) ->
  logs sid false (_ ← fail_audit sid c u e; k) P.
Proof.
  intros Hk w w' x Hw H _. unfold mbind, ste_mbind, fail_audit, log_audit, modify in H. cbn [fst snd] in H.
  match type of H with k ?v = _ => pose proof (Hk v) as Hp; rewrite H in Hp end. destruct Hp as [l Hl]. simpl in Hl.
  eexists [], _, l. rewrite Hl, <- (assoc_L (++)). split; [done|]. by split_and!.
Qed.

Lemma logs_ret {A} sid b (a : A) (P : A -> Prop) : ~ P a -> logs sid b (mret a) P.
Proof. intros Hn w w' x Hw [= <- <-] HPa. done. Qed.
Lemma logs_raise {A} sid b e (P : A -> Prop) : logs sid b (raise e) P.
Proof. by intros w w' x Hw [=]. Qed.

Lemma logs_ctx_check e sid c ofc : logs sid false (_auth_ctx_check e sid c ofc) (fun x => x.1 = false).
Proof.
  unfold _auth_ctx_check. apply logs_skip; [intros; kept_auto|]. intros h. apply logs_skip; [intros; kept_auto|]. intros svc.
  apply logs_skip; [intros; kept_auto|]. intros e1. apply logs_skip; [intros; kept_auto|]. intros e2. cbv zeta.
  destruct (_ || _) eqn:Hor; [|by apply logs_skip; [intros; kept_auto|]; intros; apply logs_ret].
  apply (logs_fail sid c None). done.
Qed.

(** The response codes that end a login attempt in failure *)
Definition failed_code (c : PAMCode) : Prop := c ≠ PAM_SUCCESS /\ c ≠ PAM_CONV_AGAIN.

Definition refused (x : auth_resp * option nat) : Prop := r_code x.1 ≠ PAM_SUCCESS.

(** A computation that never returns a value in [P] *)
Lemma logs_never {A B} sid b (m : M A) (f : A -> B) (P : B -> Prop) : (forall a, ~ P (f a)) -> logs sid b (a ← m; mret (f a)) P.
Proof. intros Hn w w' x Hw (a & w1 & H1 & [= <- <-])%bind_ok HPa. by destruct (Hn a). Qed.

Ltac logs_step :=
  intros;
  match goal with
  | |- logs _ _ (raise _) _ => apply logs_raise
  | |- logs _ _ (mret _) _ => apply logs_ret; unfold failed_code, refused; simpl; naive_solver
  | |- logs _ _ (mbind _ (fail_audit _ _ _ _)) _ => apply logs_fail; intros; done
  | |- logs _ _ (mbind _ (make_cred _ _ _ _)) _ => apply logs_never; unfold failed_code, refused; simpl; intros; naive_solver
  | |- logs ?sid _ (mbind _ (_auth_ctx_check _ _ _ _)) _ =>
      eapply (logs_bind sid _ _ _ (fun x => x.1 = false));
        [intros; kept_auto|apply logs_ctx_check|intros [[] ?]; naive_solver|intros [? ?] ?; simplify_eq/=; intros; by apply keeps_ret
        |intros [[] ?] ?; simplify_eq/=; try done]
  | |- logs _ _ (mbind _ _) _ => apply logs_skip; [intros; kept_auto; done|]
  | |- logs _ _ (if ?b then _ else _) _ => destruct b eqn:?
  | |- logs _ _ (match ?x with _ => _ end) _ => destruct x eqn:?
  end.
Ltac logs_auto := repeat logs_step.

Lemma logs_password cf sid u p :
  logs sid false (login_ex_password_plain check_unixhash rounds cf sid u p) (fun x => failed_code (r_code x.1)).
Proof.
  unfold login_ex_password_plain. do 5 logs_step. cbv zeta. logs_step. logs_step.
  match goal with |- context [if ?b then "ONETIME_PASSWORD" else _] => generalize b; intros otpw end.
  intros _. generalize (bool_decide (r_code a2 = PAM_SUCCESS) && otp_mandatory a3 && negb otpw). intros [].
  - apply logs_fail. done.
  - logs_auto.
Qed.

Lemma logs_api_key cf sid u k : logs sid false (login_ex_api_key_plain check_unixhash rounds cf sid u k) refused.
Proof.
  unfold login_ex_api_key_plain. do 5 logs_step. cbv zeta. do 2 logs_step. intros x.
  case_bool_decide as Hx.
  - apply logs_skip; [intros; kept_auto|]. intros _. apply logs_ret. by intros Hr.
  - by apply logs_fail.
Qed.

Lemma logs_oath cf sid t : logs sid false (login_ex_oath_token cf sid t) refused.
Proof.
  unfold login_ex_oath_token. do 6 logs_step. intros d. case_bool_decide as Hc; [|by apply logs_fail]. logs_auto.
Qed.

Lemma logs_audit sid c u e : logs sid false (fail_audit sid c u e) anything.
Proof.
  intros w w' x Hw [= <- <-] _. eexists [], _, []. simpl. split; [done|]. by split_and!.
Qed.

Lemma logs_token cf sid t : logs sid false (login_ex_token_plain check_unixhash rounds cf sid t) refused.
Proof.
  unfold login_ex_token_plain. do 2 logs_step. intros [[tr tk]|]; [|by apply logs_fail].
  destruct (negb _); [by apply logs_fail|]. do 6 logs_step. intros _.
  intros w w' x Hw (r & w1 & Hr & H)%bind_ok HPx. apply bind_ok in H as (rsp & w2 & Hrsp & H).
  match type of Hr with new_token_cred _ ?h _ = _ =>
    set (m2 := r ← new_token_cred tr h; rsp ← token_pam_authenticate check_unixhash cf rounds r; mret (r, rsp)) end.
  assert (m2 w = (w2, Ok (r, rsp))) as Hm2 by (unfold m2, mbind, ste_mbind; by rewrite Hr, Hrsp).
  assert (safe m2) as Hsafe by (intros; unfold m2; kept_new_token; kept_auto).
  destruct (safe_step _ _ _ _ Hsafe Hw Hm2) as [Hw2 Hp2]. apply bind_ok in H as ([] & w3 & H3 & [= <- <-]).
  unfold refused in HPx. simpl in HPx. rewrite bool_decide_false in H3 by done.
  eapply logged_trans; [exact Hp2| |reflexivity]. eapply (logs_skip sid false (gets _) _ anything); [intros; kept_auto| |exact Hw2|exact H3|exact I].
  intros n. apply logs_skip; [intros; kept_auto|]. intros n'. apply logs_audit.
Qed.

Lemma logs_scram cf sid ty rfc : logs sid false (login_ex_scram cf sid ty rfc)
  (fun x => if String.eqb ty "CLIENT_FIRST_MESSAGE" then r_code x.1 ≠ PAM_CONV_AGAIN else refused x).
Proof.
  unfold login_ex_scram. destruct (String.eqb ty "CLIENT_FIRST_MESSAGE").
  - do 5 logs_step. intros rsp. case_bool_decide as Hc; [by apply logs_never; intros _ []|]. by apply logs_fail.
  - destruct (String.eqb ty "CLIENT_FINAL_MESSAGE"); [|logs_step]. do 8 logs_step. intros rsp.
    destruct (bool_decide (r_code rsp = PAM_SUCCESS)) eqn:Hc; [apply bool_decide_eq_true in Hc|by apply logs_fail].
    do 3 logs_step. intros cls. logs_auto.
Qed.

Definition is_failed (r : login_response) : Prop := match r with LFailed _ => True | _ => False end.

(** Computations that never return a value in [P] *)
Definition never {A} (m : M A) (P : A -> Prop) : Prop := forall w w' a, m w = (w', Ok a) -> ~ P a.

Lemma never_bind {A B} (m : M A) (f : A -> M B) P : (forall a, never (f a) P) -> never (m ≫= f) P.
Proof. intros Hf w w' b (a & w1 & _ & H)%bind_ok. by apply (Hf a w1 w'). Qed.
Lemma never_ret {A} (a : A) (P : A -> Prop) : ~ P a -> never (mret a) P.
Proof. by intros Hn w w' x [= <- <-]. Qed.

Lemma login_success_never cf name sid o r : never (login_success jobs cf name sid o r) is_failed.
Proof.
  unfold login_success. do 7 (apply never_bind; intros). apply never_bind. intros may. destruct (_ && _).
  - do 4 (apply never_bind; intros). apply never_ret; intros [].
  - apply never_ret; intros [].
Qed.

Lemma logs_finish cf name sid d (m : M (auth_resp * option nat)) :
  safe m -> logs sid false m refused -> logs sid false (x ← m; finish_login jobs cf name sid d x) is_failed.
Proof.
  intros Hm Hl. apply (logs_bind sid false m _ refused); [done|done| | |].
  - intros x. unfold refused. destruct (decide (r_code x.1 = PAM_SUCCESS)); [by right; intros []|by left].
  - intros x _ w. kept_auto.
  - intros x Hx w w' a Hw H Ha. exfalso. unfold finish_login in H.
    destruct (r_code x.1) eqn:Hc; try (by destruct Hx; unfold refused; rewrite Hc).
    apply bind_ok in H as (r & w1 & _ & H). by apply (login_success_never _ _ _ _ _ _ _ _ H).
Qed.

(** No failed login goes unnoticed: whenever [auth.login_ex] answers that
    the authentication failed, was denied or expired, an authentication message
    that is not a success was written for the session to the audit log. *)
Theorem failed_login_audited (h : list (config * auth_op)) (cf : config) (name sid : string) (d : login_data) (w' : world)
  (t : AuthResp)
  (Hfail : login_ex check_unixhash rounds jobs cf name sid d (exec_all h initial_world) = (w', Ok (LFailed t))) :
  logged sid false (exec_all h initial_world) w'.
Proof.
  pose proof (wf_exec_all check_unixhash rounds jobs ENOTAUTHENTICATED h _ wf_initial) as Hw.
  enough (logs sid false (login_ex check_unixhash rounds jobs cf name sid d) is_failed) as Hl by by apply (Hl _ _ _ Hw Hfail).
  clear. unfold login_ex. destruct (failover_redirect cf); [apply logs_ret; intros []|].
  apply logs_skip; [intros w; apply kept_modify_core; intros; by apply core_modify_app|]. intros _.
  do 2 (apply logs_skip; [intros; kept_auto|]; intros ?).
  destruct d; try (apply logs_finish; [intros; kept_auto|auto using logs_api_key, logs_oath, logs_token]).
  - apply (logs_bind sid false _ _ (fun x => failed_code (r_code x.1))); [intros; kept_auto|apply logs_password| | |].
    + intros x. unfold failed_code. destruct (decide (r_code x.1 = PAM_SUCCESS)), (decide (r_code x.1 = PAM_CONV_AGAIN)); naive_solver.
    + intros. kept_auto.
    + intros x Hx. case_bool_decide as Hc; [apply logs_ret; intros []|]. intros w w2 y Hw H Hy. exfalso. unfold finish_login in H.
      destruct (r_code x.1) eqn:Hcode; try (by destruct Hx). apply bind_ok in H as (r & w1 & _ & H).
      by apply (login_success_never _ _ _ _ _ _ _ _ H).
  - apply (logs_bind sid false _ _ (fun x => if String.eqb scram_type "CLIENT_FIRST_MESSAGE" then r_code x.1 ≠ PAM_CONV_AGAIN else refused x));
      [intros; kept_auto|apply logs_scram| | |].
    + intros x. unfold refused. destruct (String.eqb _ _);
        [destruct (decide (r_code x.1 = PAM_CONV_AGAIN))|destruct (decide (r_code x.1 = PAM_SUCCESS))]; naive_solver.
    + intros. kept_auto.
    + intros x Hx. destruct (String.eqb scram_type "CLIENT_FIRST_MESSAGE").
      * case_bool_decide; [apply logs_ret; intros []|done].
      * case_bool_decide; simpl; [|done]. do 3 logs_step. intros info.
        apply logs_skip; [intros; kept_auto|]. intros _. apply logs_ret. intros [].
Qed.

(** ** Logging in again, and reducing privileges *)

(** Logging in on a connection that is already authenticated installs the
    new credentials whatever PAM answered to opening the session: the response
    code that stops a first login is not looked at. *)
Theorem relogin_ignores_pam_session (h : list (config * auth_op)) (cf : config) (sid : string) (r0 r : nat) (w1 : world)
  (rsp : auth_resp)
  (Hauth : app_cred (exec_all h initial_world) sid = Some r0)
  (Hpam : cred_login r (exec_all h initial_world) = (w1, Ok rsp)) :
  app_cred (session_login cf sid r (exec_all h initial_world)).1 sid = Some r.
Proof.
  pose proof (wf_exec_all check_unixhash rounds jobs ENOTAUTHENTICATED h _ wf_initial) as Hw.
  revert Hw Hauth Hpam. generalize (exec_all h initial_world). intros w Hw Ha Hl.
  assert (wf w1 /\ evolves 0 (fun _ => False) (fun _ => False) w w1) as [Hw1 Hev].
  { replace w1 with (cred_login r w).1 by by rewrite Hl. apply kept_after; [kept_auto|done]. }
  assert (app_cred w1 sid = Some r0) as Ha1 by by rewrite (ev_others _ _ _ _ _ Hev sid) by tauto.
  unfold app_cred in Ha. destruct (apps w !! sid) as [a|] eqn:Hap; [|done]. simpl in Ha.
  unfold session_login, mbind, ste_mbind, get_app. rewrite Hap. unfold authenticated. rewrite Ha, bool_decide_true by done.
  rewrite Hl. pose proof (wf_session w1 Hw1 sid) as Hs. rewrite Ha1 in Hs.
  unfold gets, expect. destruct (Dict.get sid (sessions w1)) as [s|]; [|done].
  unfold modify_app, modify. cbn [fst].
  match goal with |- app_cred (audit_credentials ?a ?b ?c ?d ?e ?v).1 _ = _ => destruct (quiet_audit a b c d e v) as [Hq _] end.
  unfold app_cred in *. rewrite Hq. simpl. rewrite lookup_alter_eq. by destruct (apps w1 !! sid).
Qed.

(** [privilege.become_readonly] does not reduce what a token session may
    do: it replaces the allow list of the token credentials, which are never
    asked, since authorization goes to the credentials the token was generated
    with. *)
Theorem become_readonly_token_session (h : list (config * auth_op)) (cf : config) (ro : privilege) (sid : string) (r : nat)
  (c : token_cred) (w' : world) (now : Z)
  (Hauth : app_cred (exec_all h initial_world) sid = Some r)
  (Htok : creds (exec_all h initial_world) !! r = Some (TokenCred c))
  (Hro : become_readonly cf ro sid (exec_all h initial_world) = (w', Ok tt)) :
  app_cred w' sid = Some r /\
  forall method resource,
    cred_authorizes now w' method resource r = cred_authorizes now (exec_all h initial_world) method resource r.
Proof.
  pose proof (wf_exec_all check_unixhash rounds jobs ENOTAUTHENTICATED h _ wf_initial) as Hw.
  revert Hw Hauth Htok Hro. generalize (exec_all h initial_world). intros w Hw Ha Hc H.
  unfold become_readonly in H. unfold app_cred in Ha. apply bind_ok in H as (a & w1 & Hap & H). unfold get_app in Hap.
  destruct (apps w !! sid) as [a1|] eqn:Hsid; [|done]. injection Hap as <- <-. simpl in Ha.
  apply bind_ok in H as (r1 & w1 & [= <- Hr1] & H). rewrite Ha in Hr1. injection Hr1 as <-. rewrite bind_gets in H.
  destruct (negb _); [done|]. destruct (compose_privilege _ _ _ _) as [p|]; [|done].
  apply bind_ok in H as ([] & w1 & [= <-] & H). rewrite bind_gets in H. apply bind_ok in H as (u & w1 & [= <- Hu] & [= <-]).
  split; [unfold app_cred; simpl; by rewrite Hsid|]. intros m res.
  destruct (wf_token_cred w Hw _ _ Hc) as (t & Ht & Hp & _). destruct (wf_parent w Hw _ _ Ht) as (q & Hq & Hnt).
  assert (tk_parent t ≠ r) as Hne. { intros Heq. rewrite Heq, Hc in Hq. by injection Hq as <-. }
  unfold cred_authorizes. cbn [cred_authorize]. simpl. rewrite lookup_alter_eq, Hc. simpl. rewrite Ht.
  by rewrite lookup_alter_ne by done.
Qed.
End props.
