(* ===== verification/SecondFactor.v ===== *)
(** * The second factor (plugins/auth_/login_ex_impl.py, utils/auth.py)

    What a request of [auth.login_ex] has to present to open a session at the levels
    that require a second factor.  Each request is looked at as it runs, in any
    state. *)

From S2P Require Import Prelude PyDict PyStr PyVal Errors Roles Allowlist Privilege Origin RateLimit AuthLevels Authenticator Sessions Login SessionInv.

Section second.
Context {HP : PamStack} (check_unixhash : string -> string -> bool) (rounds : nat) (jobs : job_check).
Implicit Types (w : world) (sid : string).
Notation login_ex := (login_ex check_unixhash rounds jobs).
Notation login_ex_password_plain := (login_ex_password_plain check_unixhash rounds).
Notation user_authenticate := (user_authenticate check_unixhash).

(** ** Operations that open no session *)

Definition calm sid {A} (m : M A) : Prop := forall w, app_cred (m w).1 sid = app_cred w sid.

Lemma calm_bind sid {A B} (m : M A) (f : A -> M B) : calm sid m -> (forall a, calm sid (f a)) -> calm sid (m ≫= f).
Proof.
  intros Hm Hf w. unfold mbind, ste_mbind. pose proof (Hm w) as H. destruct (m w) as [w1 [a|e]]; [|done]. by rewrite Hf.
Qed.
Lemma calm_ctx sid f : calm sid (modify_ctx sid f).
Proof.
  intros w. unfold app_cred, modify_ctx, modify_app, modify. simpl. rewrite lookup_alter_eq. by destruct (apps w !! sid).
Qed.
Lemma calm_with_auth sid {A} h (m : STE auth_state exn A) : calm sid (with_auth h m).
Proof. intros w. unfold with_auth. destruct (auths w !! h); [|done]. by destruct (m _) as [[] ?]. Qed.
Lemma calm_new_auth sid a : calm sid (new_auth a).
Proof. intros w. by destruct a. Qed.

Ltac calm_auto :=
  repeat match goal with
  | |- calm _ (mbind _ _) => apply calm_bind; [|intros ?]
  | |- calm _ (modify_ctx _ _) => apply calm_ctx
  | |- calm _ (set_pam_hdl _ _) => apply calm_ctx
  | |- calm _ (set_next _ _ _) => apply calm_ctx
  | |- calm _ (with_auth _ _) => apply calm_with_auth
  | |- calm _ (new_auth _) => apply calm_new_auth
  | |- calm _ (let '(_, _) := ?x in _) => destruct x
  | |- calm _ (if ?b then _ else _) => destruct b
  | |- calm _ (match ?x with _ => _ end) => destruct x
  | |- calm _ _ => by intros w
  end.

Lemma calm_check sid m l : calm sid (check_auth_mechanism sid m l).
Proof. unfold check_auth_mechanism. calm_auto. Qed.
Lemma calm_ctx_check e sid t b : calm sid (_auth_ctx_check e sid t b).
Proof. unfold _auth_ctx_check, ctx_handle. calm_auto. Qed.
Lemma calm_make_cred sid cf cls u h : calm sid (make_cred cf cls u h).
Proof. unfold make_cred, new_user, new_cred, alloc. calm_auto. Qed.
Lemma calm_password cf sid u p : calm sid (login_ex_password_plain cf sid u p).
Proof. unfold login_ex_password_plain, user_of_response. calm_auto; apply calm_ctx_check || apply calm_make_cred || by intros w. Qed.
Lemma calm_oath cf sid t : calm sid (login_ex_oath_token cf sid t).
Proof. unfold login_ex_oath_token, ctx_handle, user_of_response. calm_auto; apply calm_ctx_check || apply calm_make_cred || by intros w. Qed.

Lemma calm_scram cf sid ty str : calm sid (login_ex_scram cf sid ty str).
Proof. unfold login_ex_scram, ctx_handle, user_of_response. calm_auto; apply calm_ctx_check || apply calm_make_cred || by intros w. Qed.

(** A login that changes the credentials of the application was accepted. *)
Lemma finish_opens cf name sid d x w :
  app_cred (finish_login jobs cf name sid d x w).1 sid ≠ app_cred w sid -> r_code x.1 = PAM_SUCCESS /\ is_Some x.2.
Proof.
  unfold finish_login. destruct (r_code x.1); try done. destruct x.2; [|done]. split; [done|]. by eexists.
Qed.

(** The application with a context, as [login_ex] makes it. *)
Definition prepared sid w : world :=
  set_apps (alter (fun a => set_app_context (Some (default new_ctx (a_context a))) a) sid (apps w)) w.

Lemma prepared_cred sid w : app_cred (prepared sid w) sid = app_cred w sid.
Proof. unfold app_cred, prepared. simpl. rewrite lookup_alter_eq. by destruct (apps w !! sid). Qed.

(** The exchange of the mechanisms of the levels that require a second factor. *)
Definition exchange (cf : config) sid (d : login_data) : M (auth_resp * option nat) :=
  match d with
  | DPassword u p _ => login_ex_password_plain cf sid u p
  | DOtp t _ => login_ex_oath_token cf sid t
  | DScram ty str => login_ex_scram cf sid ty str
  | _ => mret (precheck_failed, None)
  end.

Lemma login_ex_opens cf name sid d w :
  app_cred (login_ex cf name sid d w).1 sid ≠ app_cred w sid ->
  exists w1, check_auth_mechanism sid (mechanism_of d) (aal_level w) (prepared sid w) = (w1, Ok tt) /\
    match d with
    | DApiKey _ _ _ | DToken _ _ => True
    | _ => exists w2 x, exchange cf sid d w1 = (w2, Ok x) /\ r_code x.1 = PAM_SUCCESS /\ is_Some x.2
    end.
Proof.
  unfold login_ex. destruct (failover_redirect cf); [done|]. unfold mbind, ste_mbind, modify_app, modify, gets. cbn [fst snd].
  change (set_apps (alter _ sid (apps w)) w) with (prepared sid w). change (aal_level (prepared sid w)) with (aal_level w).
  pose proof (calm_check sid (mechanism_of d) (aal_level w) (prepared sid w)) as Hc. rewrite prepared_cred in Hc.
  destruct (check_auth_mechanism _ _ _ _) as [w1 [[]|e]]; [|by simpl in *]. simpl in Hc. rewrite <-Hc. intros H. exists w1. split; [done|].
  destruct d as [u p o|u k o|t o|t o|ty str]; try done; cbn [exchange].
  - pose proof (calm_password cf sid u p w1) as Hp. destruct (login_ex_password_plain cf sid u p w1) as [w2 [x|e]]; [|done]. simpl in Hp.
    exists w2, x. split; [done|]. rewrite <-Hp in H. case_bool_decide; [done|]. by eapply finish_opens.
  - pose proof (calm_oath cf sid t w1) as Hp. destruct (login_ex_oath_token cf sid t w1) as [w2 [x|e]]; [|done]. simpl in Hp.
    exists w2, x. split; [done|]. rewrite <-Hp in H. by eapply finish_opens.
  - pose proof (calm_scram cf sid ty str w1) as Hp. destruct (login_ex_scram cf sid ty str w1) as [w2 [x|e]]; [|done]. simpl in Hp.
    exists w2, x. split; [done|]. rewrite <-Hp in H. destruct (String.eqb ty _); [case_bool_decide; [done|]; by eapply finish_opens|].
    case_bool_decide as Hx; [|done]. split; [done|]. destruct x.2; [by eexists|done].
Qed.

(** ** The mechanism *)

(** What a request leaves alone before PAM is asked. *)
Definition untouched w w' : Prop := aal_level w' = aal_level w /\ otpw w' = otpw w /\ auths w' = auths w.

(** The mechanism the application is in the middle of. *)
Definition pending w sid : option AuthMech := a ← apps w !! sid; c ← a_context a; next_mech c.

(** The authenticator of the exchange by [k] that is pending for the application. *)
Definition exchange_in w sid (k : AuthMech) (au : authenticator) : Prop :=
  exists a c h, apps w !! sid = Some a /\ a_context a = Some c /\ next_mech c = Some k /\ pam_hdl c = Some h /\ auths w !! h = Some au.

Lemma prepared_exchange sid w k au : exchange_in (prepared sid w) sid k au -> exchange_in w sid k au.
Proof.
  intros (a & c & h & Ha & Hc & Hk & Hp & Hau). unfold prepared in Ha. simpl in Ha. rewrite lookup_alter_eq in Ha.
  destruct (apps w !! sid) as [b|] eqn:Hb; [|done]. injection Ha as <-. simpl in Hc. injection Hc as Hc.
  destruct (a_context b) as [c'|] eqn:Hc'; simpl in Hc; subst c; [|done]. by exists b, c', h.
Qed.

Lemma check_passes sid m l w w' : check_auth_mechanism sid m l w = (w', Ok tt) ->
  untouched w w' /\ aal_auth_mechanism_check m l = true /\ (is_Some (pending w' sid) -> w' = w) /\ (m = OTP_TOKEN -> pending w' sid = Some OTP_TOKEN).
Proof.
  unfold check_auth_mechanism, mbind, ste_mbind, get_app, expect, pending. destruct (apps w !! sid) as [a|] eqn:Ea; [|done].
  destruct (a_context a) as [c|] eqn:Ec; [|done]. destruct (next_mech c) as [k|] eqn:En.
  - destruct (decide (k = m)) as [->|Hne].
    + rewrite bool_decide_eq_true_2 by done. simpl. destruct (aal_auth_mechanism_check m l); [|done]. intros [= <-].
      split_and!; try done. intros ->. rewrite Ea. simpl. by rewrite Ec.
    + rewrite bool_decide_eq_false_2 by done. cbn [negb]. rewrite (bool_decide_eq_true_2 (None = None)) by done.
      destruct (decide (m = OTP_TOKEN)) as [->|Hm]; [by case_bool_decide|]. rewrite (bool_decide_eq_false_2 (m = OTP_TOKEN)) by done.
      destruct (aal_auth_mechanism_check m l); [|by case_bool_decide].
      case_bool_decide; intros [= <-]; (split_and!; try done); simpl; rewrite lookup_alter_eq, Ea; simpl; rewrite Ec; by intros [].
  - simpl. destruct (decide (m = OTP_TOKEN)) as [->|Hm]; [done|]. rewrite bool_decide_eq_false_2 by done.
    destruct (aal_auth_mechanism_check m l); [|done]. by intros [= <-].
Qed.

(** The check of the configuration files touches neither the application nor PAM. *)
Definition steady w w' : Prop := untouched w w' /\ apps w' = apps w.
Definition same_os (e e' : os_env) : Prop := os_getpwnam e' = os_getpwnam e /\ os_now e' = os_now e.

Lemma ctx_check_steady e sid t b w w' ck : _auth_ctx_check e sid t b w = (w', Ok ck) -> steady w w' /\ same_os e ck.2.
Proof.
  unfold _auth_ctx_check. intros (h & w1 & H1 & H)%ste_bind_ok. apply ste_bind_ok in H as (svc & w2 & [= <- <-] & H).
  assert (w1 = w) as ->.
  { revert H1. unfold ctx_handle, get_app, expect, mbind, ste_mbind. destruct (apps w !! sid) as [a|]; [|done].
    destruct (a_context a) as [c|]; [|done]. destruct (pam_hdl c); [|done]. by intros [= <- _]. }
  apply ste_bind_ok in H as (e1 & w2 & H2 & H). apply ste_bind_ok in H as (e2 & w3 & H3 & H). apply ste_bind_ok in H as (u & w4 & H4 & H).
  injection H as <- <-. simpl. unfold etc_generate, log_audit, modify, mbind, ste_mbind in *.
  assert (steady w w2 /\ same_os e e1) as [[(A1 & A2 & A3) A4] [A5 A6]] by (destruct (os_exists e _); by injection H2 as <- <-).
  assert (steady w2 w3 /\ same_os e1 e2) as [[(B1 & B2 & B3) B4] [B5 B6]] by (clear H4; destruct (_ || _ || _); by injection H3 as <- <-).
  assert (steady w3 w4) as [(C1 & C2 & C3) C4] by (clear H3; destruct (_ || _); by injection H4 as <-).
  unfold steady, untouched, same_os. by rewrite C1, B1, A1, C2, B2, A2, C3, B3, A3, C4, B4, A4, B5, A5, B6, A6.
Qed.

(** ** The exchanges PAM accepts *)

Lemma handle_of sid w w' h : ctx_handle sid w = (w', Ok h) ->
  w' = w /\ exists a c, apps w !! sid = Some a /\ a_context a = Some c /\ pam_hdl c = Some h.
Proof.
  unfold ctx_handle, get_app, expect, mbind, ste_mbind. destruct (apps w !! sid) as [a|] eqn:Ha; [|done].
  destruct (a_context a) as [c|] eqn:Hc; [|done]. destruct (pam_hdl c) eqn:Hp; [|done]. intros [= <- <-]. split; [done|]. by exists a, c.
Qed.

Lemma exchange_of w w' sid k a c h au : steady w w' -> pending w sid = Some k ->
  apps w' !! sid = Some a -> a_context a = Some c -> pam_hdl c = Some h -> auths w' !! h = Some au -> exchange_in w sid k au.
Proof.
  intros [(_ & _ & E1) E2] Hk Ha Hc Hh Hau. rewrite E2 in Ha. rewrite E1 in Hau. unfold pending in Hk. rewrite Ha in Hk. simpl in Hk.
  rewrite Hc in Hk. by exists a, c, h.
Qed.

Lemma with_auth_ok {A} h (m : AM A) w w' x : with_auth h m w = (w', Ok x) ->
  exists au, auths w !! h = Some au /\ (m (au, otpw w)).2 = Ok x.
Proof.
  unfold with_auth. destruct (auths w !! h) as [au|]; [|done]. destruct (m (au, otpw w)) as [[] y] eqn:E. intros [= _ ->].
  exists au. by rewrite E.
Qed.

Lemma oath_accepts cf sid t w w' x :
  login_ex_oath_token cf sid t w = (w', Ok x) -> r_code x.1 = PAM_SUCCESS -> pending w sid = Some OTP_TOKEN ->
  exists au, exchange_in w sid OTP_TOKEN au /\ au_twofactor_user au = true /\ r_code (pam_auth_continue [Some t] (au_ctx au)).2 = PAM_SUCCESS.
Proof.
  unfold login_ex_oath_token. intros (ck & w1 & Hck & H)%ste_bind_ok Hx Hk. apply ctx_check_steady in Hck as [Hs _].
  destruct (negb ck.1); [by injection H as <- <-|]. apply ste_bind_ok in H as (h & w2 & Hh & H). apply handle_of in Hh as [-> (a & c & Ha & Hc & Hp)].
  apply ste_bind_ok in H as (rsp & w2 & (au & Hau & Hr)%with_auth_ok & H). exists au. split; [by eapply exchange_of|].
  apply ste_bind_ok in H as (a' & w3 & _ & H). apply ste_bind_ok in H as (u & w4 & _ & H). apply ste_bind_ok in H as (dt & w5 & _ & H).
  assert (r_code rsp = PAM_SUCCESS) as Hok.
  { case_bool_decide; [done|]. apply ste_bind_ok in H as (v & w6 & _ & H). by injection H as _ <-. }
  clear H. revert Hr. unfold authenticate_oath, mbind, ste_mbind, au_get, auth_continue, au_pam, gets, update. simpl.
  destruct (au_twofactor_user au); simpl; [|by intros [= <-]]. destruct (pam_auth_continue _ _) as [c' r]. simpl.
  case_bool_decide as Hc'; [done|]. by intros [= <-].
Qed.

Lemma scram_accepts cf sid ty str w w' x :
  login_ex_scram cf sid ty str w = (w', Ok x) -> is_Some x.2 ->
  ty = "CLIENT_FINAL_MESSAGE" /\
  exists au, exchange_in w sid SCRAM au /\ au_class au = ScramPam /\ r_code (pam_auth_continue [Some str] (au_ctx au)).2 = PAM_CONV_AGAIN.
Proof.
  unfold login_ex_scram. destruct (String.eqb_spec ty "CLIENT_FIRST_MESSAGE").
  { intros H [r Hr]. exfalso. repeat (apply ste_bind_ok in H as (? & ? & _ & H); try (case_match; [by injection H as _ <-|])). by injection H as _ <-. }
  destruct (String.eqb_spec ty "CLIENT_FINAL_MESSAGE") as [->|]; [|done]. intros (ck & w1 & Hck & H)%ste_bind_ok Hx. split; [done|].
  apply ctx_check_steady in Hck as [Hs _]. destruct (negb ck.1); [injection H as <- <-; by destruct Hx|].
  apply ste_bind_ok in H as (a0 & w2 & Ha0 & H). destruct (negb (bool_decide (_ = Some SCRAM))) eqn:Hk; [done|].
  apply negb_false_iff, bool_decide_eq_true in Hk. apply ste_bind_ok in H as (h & w3 & Hh & H).
  unfold get_app in Ha0. destruct (apps w1 !! sid) as [a1|] eqn:Ea; [|done]. injection Ha0 as <- <-.
  apply handle_of in Hh as [-> (a & c & Ha & Hc & Hp)]. rewrite Ea in Ha. injection Ha as <-.
  apply ste_bind_ok in H as (cls & w3 & [= <- <-] & H). destruct (negb (bool_decide (_ = Some ScramPam))) eqn:Hcls; [done|].
  apply negb_false_iff, bool_decide_eq_true in Hcls. apply ste_bind_ok in H as (u & w3 & Hm & H).
  assert (auths w3 = auths w1 /\ otpw w3 = otpw w1) as [E1 E2] by (by injection Hm as <-).
  apply ste_bind_ok in H as (rsp & w4 & (au & Hau & Hr)%with_auth_ok & H). exists au. rewrite E1 in Hau. rewrite Hau in Hcls. split.
  { eapply exchange_of; [exact Hs| |exact Ea|done..]. unfold pending. rewrite <-(proj2 Hs), Ea. done. }
  split; [by injection Hcls|].
  assert (r_code rsp = PAM_SUCCESS) as Hok.
  { case_bool_decide; [done|]. apply ste_bind_ok in H as (v & w6 & _ & H). injection H as _ <-. by destruct Hx. }
  clear H. revert Hr. unfold handle_final_message, mbind, ste_mbind, au_get, auth_continue, au_pam, gets, update. simpl.
  destruct (au_sent_server_final au); [done|]. destruct (negb _); [done|]. destruct (pam_auth_continue _ _) as [c' r]. simpl.
  case_bool_decide as Hc'; [done|]. by intros [= <-].
Qed.

(** ** Passwords *)

Lemma otp_refused now uid p m : (AuthLevels.authenticate check_unixhash now uid p m).2 ≠ OtpSuccess ->
  (AuthLevels.authenticate check_unixhash now uid p m).1 = m.
Proof.
  unfold AuthLevels.authenticate. destruct (Str.split _ p) as [|idx [|k [|]]]; try done. destruct (Dict.get idx _) as [x|]; [|done].
  destruct (negb _); [done|]. destruct (otp_used x); [done|]. destruct (_ <? _)%Z; [done|]. by destruct (negb _).
Qed.

Section password.
Context (e : os_env) (pw0 : passwd) (p : string) (m : OnetimePasswordManager).
Hypothesis Hno : (AuthLevels.authenticate check_unixhash (os_now e) (pw_uid pw0) p m).2 ≠ OtpSuccess.

(** The account as it was looked up, and no one-time password taken. *)
Definition plain (s : auth_state) : Prop := au_passwd s.1 = Some pw0 /\ s.2 = m.

Lemma plain_modify f : (forall a, au_passwd (f a) = au_passwd a) -> keeps plain (au_modify f) anything.
Proof. intros Hf [a o] [H1 H2]. split; [|done]. split; simpl in *; [by rewrite Hf|done]. Qed.
Lemma plain_pam f : keeps plain (au_pam f) anything.
Proof. intros [a o] [H1 H2]. unfold au_pam, update. simpl in *. by destruct (f a (au_ctx a)). Qed.

Lemma plain_converse n u q r : keeps plain (converse n u q r) anything.
Proof.
  revert r. induction n as [|n IH]; intros r; simpl; (case_bool_decide; [|by apply keeps_ret]); [apply keeps_raise|].
  destruct (answer_prompts u q _).
  - eapply keeps_bind; [by apply plain_modify|]. intros. by apply keeps_ret.
  - eapply keeps_bind; [apply plain_pam|]. intros. apply IH.
Qed.

Lemma plain_simple n u q : keeps plain (pam_authenticate_simple n u q) anything.
Proof.
  eapply keeps_bind; [by apply plain_modify|]. intros. eapply keeps_bind; [apply plain_pam|]. intros. apply plain_converse.
Qed.

Lemma plain_otpw : keeps plain (otpw_authenticate check_unixhash e p pw0) (fun o => forall r, o ≠ Some (PAM_SUCCESS, r)).
Proof.
  intros [a o] [H1 H2]. simpl in *. subst o. unfold otpw_authenticate, mbind, ste_mbind, au_get, gets, update. simpl.
  destruct (negb (au_otpw_possible a)); [split; [done|]; by intros ? [= <-]|].
  pose proof (otp_refused _ _ _ _ Hno) as Hm. destruct (AuthLevels.authenticate _ _ _ _ _) as [m' c]. simpl in *. subst m'.
  destruct c; try done; (split; [done|]; intros ? [= <-]; done).
Qed.

Lemma plain_fallback r : keeps plain (auth_fallback check_unixhash e rounds p pw0 r) anything.
Proof.
  unfold auth_fallback. eapply (keeps_bind _ _ _ anything); [by apply keeps_gets|]. intros svc _. destruct (_ && _); [|by apply keeps_ret].
  destruct (os_tally_locked e _); [by apply keeps_ret|]. eapply keeps_bind; [apply plain_otpw|]. intros [[c t]|] Ho; [|by apply keeps_ret].
  destruct c; try (by apply keeps_ret). by destruct (Ho t).
Qed.

Lemma plain_account r : keeps plain (account_check r) anything.
Proof.
  unfold account_check. eapply keeps_bind; [apply plain_pam|]. intros acct _. case_bool_decide; [by apply keeps_ret|].
  eapply (keeps_bind _ _ _ anything); [by apply keeps_gets|]. intros msgs _. destruct (_ && _); by apply keeps_ret.
Qed.

(** The account of the answer is the one that was looked up. *)
Lemma plain_refresh r : keeps plain (refresh_user_info r) (fun r' => r_user_info r' = Some pw0).
Proof.
  intros [a o] [H1 H2]. simpl in *. unfold refresh_user_info, truenas_user_obj, mbind, ste_mbind, au_get, gets, expect. simpl. rewrite H1.
  destruct (r_user_info r) as [u|]; [|done]. destruct (String.eqb _ _); [|done]. split; [done|]. by intros ? [= <-].
Qed.
End password.

Definition looked_up (e : os_env) (u : string) (uid : Z) : Prop := exists name gid src, os_getpwnam e u = Some (name, uid, gid, src).

(** A password that PAM did not refuse yields the flag of a one-time password only if
    it is one. *)
Lemma password_flag e u p s s' rsp pw :
  user_authenticate e rounds u p s = (s', Ok rsp) -> r_code rsp = PAM_SUCCESS -> r_user_info rsp = Some pw -> "OTPW" ∈ pw_account_attributes pw ->
  exists uid, looked_up e u uid /\ (AuthLevels.authenticate check_unixhash (os_now e) uid p s.2).2 = OtpSuccess.
Proof.
  unfold user_authenticate, Authenticator.user_authenticate. intros (o & s1 & H1 & H)%ste_bind_ok Hc Hu Hf.
  destruct o as [pw0|]; [|injection H as <- <-; done].
  assert (looked_up e u (pw_uid pw0) /\ plain pw0 s.2 s1 /\ "OTPW" ∉ pw_account_attributes pw0) as (Hl & Hp & Hn).
  { revert H1. unfold _get_user_obj, looked_up. destruct (os_getpwnam e u) as [[[[name uid] gid] src]|]; [|done].
    unfold source_flags, truenas_user_obj, au_get, au_modify, gets, modify, expect, mbind, ste_mbind.
    set (loc := String.eqb src "FILES"). set (g := filter _ _).
    destruct (if loc then _ else _) as [src' fl] eqn:Ef. assert ("OTPW" ∉ fl) as Hfl.
    { destruct loc, (String.eqb src "WINBIND"), (String.eqb src "SSS"); injection Ef as <- <-; destruct (os_ds_is_ipa e); set_solver. }
    cbn [fst snd]. destruct ((_ || _) && _); [done|]. intros [= <- <-]. split_and!; [by eexists _, _, _|done|]. simpl.
    rewrite !elem_of_app. destruct (String.eqb (au_service s.1) _), (au_twofactor_user s.1), (_ || _); set_solver. }
  destruct (decide ((AuthLevels.authenticate check_unixhash (os_now e) (pw_uid pw0) p s.2).2 = OtpSuccess)) as [Hs|Hno]; [by exists (pw_uid pw0)|].
  exfalso. apply ste_bind_ok in H as (fl & s2 & [= <- <-] & H). apply ste_bind_ok in H as (svc & s3 & [= <- <-] & H).
  destruct (negb (os_exists e _)); [done|]. destruct (negb (String.eqb _ _)); [done|].
  assert (keeps (plain pw0 s.2) (r ← pam_authenticate_simple rounds (pw_name pw0) p;
      r ← (if bool_decide (r_code r = PAM_SUCCESS) then mret r else auth_fallback check_unixhash e rounds p pw0 r);
      r ← (if bool_decide (r_code r = PAM_SUCCESS) then account_check r else mret r);
      if bool_decide (r_code r = PAM_SUCCESS) then refresh_user_info r else mret r)
      (fun r => r_code r = PAM_SUCCESS -> r_user_info r = Some pw0)) as K.
  { eapply keeps_bind; [apply plain_simple|]. intros r _. eapply (keeps_bind _ _ _ anything); [case_bool_decide; [by apply keeps_ret|by apply plain_fallback]|].
    intros r1 _. eapply (keeps_bind _ _ _ anything); [case_bool_decide; [apply plain_account|by apply keeps_ret]|]. intros r2 _.
    case_bool_decide; [|by apply keeps_ret]. eapply keeps_weaken; [apply plain_refresh|]. done. }
  destruct (K s1 Hp) as [_ K2]. rewrite H in K2. specialize (K2 rsp eq_refl Hc). congruence.
Qed.

Lemma password_accepts cf sid u p w w' x :
  login_ex_password_plain cf sid u p w = (w', Ok x) -> r_code x.1 = PAM_SUCCESS -> is_Some x.2 -> otp_mandatory (aal_level w) = true ->
  exists uid, looked_up (cf_os cf) u uid /\ (AuthLevels.authenticate check_unixhash (os_now (cf_os cf)) uid p (otpw w)).2 = OtpSuccess.
Proof.
  unfold login_ex_password_plain. intros (a & w1 & Ha & H)%ste_bind_ok Hx Hr Hl. apply ste_bind_ok in H as (h & w2 & Hh & H).
  apply ste_bind_ok in H as (v & w3 & Hv & H). apply ste_bind_ok in H as (ck & w4 & Hck & H). apply ctx_check_steady in Hck as [[(E1 & E2 & E3) _] [E4 E5]].
  assert (otpw w4 = otpw w /\ aal_level w4 = aal_level w) as [F1 F2].
  { rewrite E1, E2. unfold get_app in Ha. destruct (apps w !! sid); [|done]. injection Ha as <- <-. revert Hh. unfold new_auth, mbind, ste_mbind, lift.
    destruct (UserPamAuthenticator _ _ _); [|done]. intros [= <- _]. by injection Hv as <-. }
  destruct (negb ck.1); [injection H as <- <-; by destruct Hr|].
  apply ste_bind_ok in H as (rsp & w5 & Hrsp & H). apply ste_bind_ok in H as (lvl & w6 & [= <- <-] & H). apply ste_bind_ok in H as (v' & w7 & _ & H).
  assert (aal_level w5 = aal_level w) as F3.
  { revert Hrsp. unfold with_auth. destruct (auths w4 !! h); [|done]. destruct (user_authenticate _ _ _ _ _) as [[] ?]. by intros [= <- _]. }
  apply with_auth_ok in Hrsp as (au & Hau & Hrsp). rewrite F3, Hl, andb_true_r in H.
  assert (r_code rsp = PAM_SUCCESS /\ exists pw, r_user_info rsp = Some pw /\ "OTPW" ∈ pw_account_attributes pw) as (Hok & pw & Hpw & Hf).
  { case_bool_decide as Hc; simpl in H.
    - split; [done|]. destruct (r_user_info rsp) as [pw|]; [|simpl in H; apply ste_bind_ok in H as (? & ? & _ & H); by injection H as _ <-].
      case_bool_decide as Hf; [by exists pw|]. simpl in H. apply ste_bind_ok in H as (? & ? & _ & H). by injection H as _ <-.
    - exfalso. destruct (r_code rsp); try done; apply ste_bind_ok in H as (? & ? & _ & H); (injection H as _ <-; simpl in *; done). }
  destruct (user_authenticate ck.2 rounds u p (au, otpw w4)) as [s' y] eqn:E. simpl in Hrsp. subst y.
  destruct (password_flag _ _ _ _ _ _ _ E Hok Hpw Hf) as (uid & [name [gid [src Hg]]] & Hs). exists uid. simpl in Hs. rewrite E5, F1 in Hs.
  split; [|done]. exists name, gid, src. by rewrite <-E4.
Qed.

(** What the request presents that stands for a second factor. *)
Definition second_factor (cf : config) sid w (d : login_data) : Prop :=
  match d with
  | DPassword u p _ => exists uid, looked_up (cf_os cf) u uid /\
      (AuthLevels.authenticate check_unixhash (os_now (cf_os cf)) uid p (otpw w)).2 = OtpSuccess
  | DOtp t _ => exists au, exchange_in w sid OTP_TOKEN au /\ au_twofactor_user au = true /\
      r_code (pam_auth_continue [Some t] (au_ctx au)).2 = PAM_SUCCESS
  | DScram ty str => aal_level w = AA_LEVEL2 /\ ty = "CLIENT_FINAL_MESSAGE" /\
      exists au, exchange_in w sid SCRAM au /\ au_class au = ScramPam /\ r_code (pam_auth_continue [Some str] (au_ctx au)).2 = PAM_CONV_AGAIN
  | DApiKey _ _ _ | DToken _ _ => False
  end.

(** C8: A request of auth.login_ex that opens or changes the session of its
    connection at the levels that require a second factor presented one: a
    password is a one-time password of the account it names, which the manager of
    one-time passwords accepts; a token is the answer PAM accepts in the
    second-factor exchange that is pending on the connection, for an account with
    two-factor authentication; neither an API key nor a login token opens one.  A
    SCRAM login, which may prove the plain password of an account, is the
    exception: at level 2 it is asked for no second factor; at level 3 it is
    refused. *)
Theorem second_factor_enforced (cf : config) (name sid : string) (d : login_data) (w : world)
  (Hlevel : aal_level w = AA_LEVEL2 \/ aal_level w = AA_LEVEL3)
  (Hopened : app_cred (login_ex cf name sid d w).1 sid ≠ app_cred w sid) :
  second_factor cf sid w d.
Proof.
  destruct (login_ex_opens cf name sid d w Hopened) as (w1 & Hck & Hx). apply check_passes in Hck as ((E1 & E2 & E3) & Hm & Hsame & Hpend).
  change (otpw (prepared sid w)) with (otpw w) in E2. change (aal_level (prepared sid w)) with (aal_level w) in E1.
  destruct d as [u p o|u k o|t o|t o|ty str]; cbn [mechanism_of exchange second_factor] in *.
  - destruct Hx as (w2 & x & Hx & Hok & Hr). rewrite <-E2. eapply password_accepts; [exact Hx|done..|]. rewrite E1. by destruct Hlevel as [->| ->].
  - by destruct Hlevel as [H|H]; rewrite H in Hm.
  - destruct Hx as (w2 & x & Hx & Hok & _). destruct (oath_accepts _ _ _ _ _ _ Hx Hok (Hpend eq_refl)) as (au & Hau & Htf).
    exists au. split; [|done]. apply prepared_exchange. rewrite <-Hsame; [done|]. rewrite Hpend by done. by eexists.
  - by destruct Hlevel as [H|H]; rewrite H in Hm.
  - destruct Hx as (w2 & x & Hx & _ & Hr). destruct (scram_accepts _ _ _ _ _ _ _ Hx Hr) as [Hty (au & Hau & Hrest)].
    split; [destruct Hlevel as [H|H]; [done|by rewrite H in Hm]|]. split; [done|]. exists au. split; [|done]. apply prepared_exchange.
    rewrite <-Hsame; [done|]. destruct Hau as (a & c & h & Ha & Hc & Hk & _). unfold pending. rewrite Ha. simpl. rewrite Hc. simpl. by eexists.
Qed.

End second.
