(* ===== verification/SessionDemo.v ===== *)
(** * Concrete sessions

    A PAM stack that accepts one password, two accounts, and histories of
    operations on which the theorems of [SessionProps] apply. *)

From S2P Require Import Prelude PyDict PyStr PyVal Errors Roles Allowlist Privilege Origin RateLimit AuthLevels Authenticator Sessions Login SessionInv SessionProps SecondFactor.

Module Demo.

Definition account (name : string) : passwd := mkPasswd name 1000 1000 "LOCAL" [951%Z] true ["LOCAL"].

(** Password ["secret"]; the account ["bob"] is also asked for a second factor,
    ["123456"]. *)
#[local] Instance demo_pam : PamStack := {|
  ctx := string * nat;
  pam_new u _ _ _ := (u, 0);
  pam_auth_init u svc c :=
    if String.eqb svc "truenas-unix" then ((u, 3), mkResp PAM_SUCCESS RNone (Some (account u)))
    else ((u, 1), mkResp PAM_CONV_AGAIN (RMsgs [mkMsg PAM_PROMPT_ECHO_OFF "Password: "]) None);
  pam_auth_continue answers c :=
    match c, answers with
    | (u, 1), [Some p] =>
        if String.eqb p "secret" then
          if String.eqb u "bob" then ((u, 2), mkResp PAM_CONV_AGAIN (RMsgs [mkMsg PAM_PROMPT_ECHO_OFF "One-time password (OATH) for `bob': "]) None)
          else ((u, 3), mkResp PAM_SUCCESS RNone (Some (account u)))
        else ((u, 4), resp PAM_AUTH_ERR "Authentication failure")
    | (u, 2), [Some p] =>
        if String.eqb p "123456" then ((u, 3), mkResp PAM_SUCCESS RNone (Some (account u)))
        else ((u, 4), resp PAM_AUTH_ERR "Authentication failure")
    | c, _ => (c, resp PAM_AUTH_ERR "Authentication failure")
    end;
  pam_account_management c := (c, mkResp PAM_SUCCESS RNone None);
  pam_login c := (c, mkResp PAM_SUCCESS RNone None);
  pam_logout c := (c, mkResp PAM_SUCCESS RNone None);
  pam_end c := c;
  pam_messages _ := [];
  pam_session_uuid _ := Some "5e55";
  client_first_message _ := Err "not supported";
|}.

Definition demo_os (now : Z) : os_env :=
  mkOs (fun n => if bool_decide (n ∈ ["alice"; "bob"]) then Some (n, 1000%Z, 1000%Z, "FILES") else None)
    (fun _ _ => [951%Z]) (fun _ => Some "FILES") false (fun _ => false) (fun _ _ => true) [] (fun _ => Some false) now.

Definition demo_ops : list role_op :=
  [RegisterMethod "pool.query" ["POOL_READ"] false; RegisterMethod "pool.create" ["POOL_WRITE"] false].

Definition admins : privilege := mkPrivilege "admins" [Gid 951%Z] [] ["FULL_ADMIN"] true.
Definition readonly : privilege := mkPrivilege "readonly" [Gid 951%Z] [] ["READONLY_ADMIN"] false.

Definition demo_config (p : privilege) (now : Z) : config :=
  mkConfig (demo_os now) (fun n => Some (1000%Z, true, false, false, false)) (fun _ => Some 1000%Z) (fun _ => None)
    [p] (fun _ => None) (run_ops ROLES demo_ops) false (fun _ => None) false "SINGLE" None None.

Definition tcp (addr : string) : option ConnectionOrigin :=
  Some (mkOrigin AF_INET (Some "10.0.0.1") (Some 443%Z) (Some addr) (Some 40000%Z) None None None None true).

Definition check (p h : string) : bool := false.
Definition no_jobs : job_check := fun _ _ _ => None.
Definition ENOTAUTHENTICATED : Z := 207.
Notation run := (exec_all check 4 no_jobs ENOTAUTHENTICATED).
Notation step := (exec check 4 no_jobs ENOTAUTHENTICATED).

Definition password (u p : string) : login_data := DPassword u p NO_OPTIONS.

(** Alice logs in at time 100, generates a single-use token, and a second
    connection logs in with it. *)
Definition history (p : privilege) : list (config * auth_op) :=
  [(demo_config p 100, Connect "s1" (tcp "10.0.0.7")); (demo_config p 100, LoginEx "t0" "s1" (password "alice" "secret"));
   (demo_config p 110, GenerateToken "t1" "s1" (Some 60%Z) [] true true);
   (demo_config p 120, Connect "s2" (tcp "10.0.0.7"))].

Definition token_history (p : privilege) : list (config * auth_op) :=
  history p ++ [(demo_config p 120, LoginEx "t2" "s2" (DToken "t1" NO_OPTIONS))].

(** Bob logs in at level 2 with a password and a second factor. *)
Definition level2_history : list (config * auth_op) :=
  [(demo_config readonly 100, SetLevel "LEVEL_2"); (demo_config readonly 100, Connect "s1" (tcp "10.0.0.7"));
   (demo_config readonly 100, LoginEx "t0" "s1" (password "bob" "secret"));
   (demo_config readonly 100, LoginEx "t0" "s1" (DOtp "123456" NO_OPTIONS))].

(** The credentials of a session, by its reference *)
Definition user_cred_of (w : world) (r : nat) : option user_cred :=
  match creds w !! r with Some (UserCred c) => Some c | _ => None end.
Definition token_cred_of (w : world) (r : nat) : option token_cred :=
  match creds w !! r with Some (TokenCred c) => Some c | _ => None end.

Lemma user_cred_of_some w r c : user_cred_of w r = Some c -> creds w !! r = Some (UserCred c).
Proof. unfold user_cred_of. by destruct (creds w !! r) as [[]|]; intros [= ->]. Qed.
Lemma token_cred_of_some w r c : token_cred_of w r = Some c -> creds w !! r = Some (TokenCred c).
Proof. unfold token_cred_of. by destruct (creds w !! r) as [[]|]; intros [= ->]. Qed.

Definition single_use_b (w : world) (k : string) : bool :=
  match Dict.get k (tokens w) with
  | Some r => match token_objs w !! r with Some t => tk_single_use t | None => false end
  | None => false
  end.

Lemma single_use_b_true w k : single_use_b w k = true -> single_use w k.
Proof.
  unfold single_use_b, single_use. destruct (Dict.get k (tokens w)) as [r|]; [|done].
  destruct (token_objs w !! r) as [t|] eqn:Ht; [|done]. intros Hs. by exists r, t.
Qed.

(** ** Witnesses *)

Lemma sessions_match_applications_witness :
  let w := run (history readonly) initial_world in app_cred w "s1" = Some 2 /\ is_Some (creds w !! 2).
Proof.
  cbv zeta. split; [vm_compute; reflexivity|].
  apply (sessions_match_applications check 4 no_jobs ENOTAUTHENTICATED (history readonly) "s1"). vm_compute. reflexivity.
Defined.

Lemma session_isolation_witness :
  let w := run (token_history readonly) initial_world in
  app_cred w "s2" = Some 5 /\ app_cred (step (demo_config readonly 130) (Logout "s1") w) "s2" = app_cred w "s2".
Proof.
  cbv zeta. split; [vm_compute; reflexivity|].
  apply (session_isolation check 4 no_jobs ENOTAUTHENTICATED (token_history readonly) (demo_config readonly 130) (Logout "s1") "s2").
  discriminate.
Defined.

Lemma expired_stays_expired_witness :
  let w := run (history readonly) initial_world in
  is_valid 3000000 w 2 = false /\
  is_valid 3000010 (run [(demo_config readonly 3000005, Message "s1")] w) 2 = false.
Proof.
  cbv zeta. split; [vm_compute; reflexivity|].
  apply (expired_stays_expired check 4 no_jobs ENOTAUTHENTICATED) with (t := 3000000%Z).
  - by exists (history readonly).
  - constructor; [simpl; lia|constructor].
  - lia.
  - apply (bool_decide_unpack _). vm_compute. exact I.
  - vm_compute. reflexivity.
Defined.

Lemma second_factor_enforced_witness :
  let w := run (removelast level2_history) initial_world in
  let otp := DOtp "123456" NO_OPTIONS in
  app_cred (login_ex check 4 no_jobs (demo_config readonly 100) "t0" "s1" otp w).1 "s1" = Some 2 /\
  second_factor check (demo_config readonly 100) "s1" w otp.
Proof.
  cbv zeta. set (w := run (removelast level2_history) initial_world). split; [vm_compute; reflexivity|].
  apply (second_factor_enforced check 4 no_jobs (demo_config readonly 100) "t0" "s1").
  - left. vm_compute. reflexivity.
  - vm_compute. discriminate.
Defined.

Lemma token_session_authority_witness :
  let w := run (token_history readonly) initial_world in
  exists c, creds w !! 5 = Some (TokenCred c) /\ tc_root c = 2 /\
    cred_authorizes 130 w "CALL" "pool.query" 5 = cred_authorizes 130 w "CALL" "pool.query" 2 /\
    cred_authorizes 130 w "CALL" "pool.query" 2 = true.
Proof.
  cbv zeta. set (w := run (token_history readonly) initial_world).
  assert (option_map tc_root (token_cred_of w 5) = Some 2) as Hroot by (vm_compute; reflexivity).
  destruct (token_cred_of w 5) as [c|] eqn:Hc; [|discriminate]. apply token_cred_of_some in Hc. injection Hroot as Hroot.
  exists c. split; [exact Hc|]. split; [exact Hroot|]. split; [|vm_compute; reflexivity].
  destruct (token_session_authority check 4 no_jobs ENOTAUTHENTICATED (token_history readonly) 5 c 130 Hc) as [Ha _].
  rewrite Hroot in Ha. apply Ha.
Defined.

Lemma invalid_session_ends_witness :
  let w := run (history readonly) initial_world in
  is_valid 3000000 w 2 = false /\ app_cred (app_message 3000000 "s1" w).1 "s1" = None.
Proof.
  cbv zeta. split; [vm_compute; reflexivity|].
  apply (invalid_session_ends check 4 no_jobs ENOTAUTHENTICATED (history readonly) 3000000 "s1" 2).
  - vm_compute. reflexivity.
  - vm_compute. reflexivity.
  - apply (bool_decide_unpack _). vm_compute. exact I.
Defined.

Lemma single_use_token_once_witness :
  let w := run (history readonly) initial_world in
  used check 4 no_jobs "t1" (demo_config readonly 120) (LoginEx "t2" "s2" (DToken "t1" NO_OPTIONS)) w = true /\
  used check 4 no_jobs "t1" (demo_config readonly 125) (LoginEx "t3" "s2" (DToken "t1" NO_OPTIONS))
    (run [(demo_config readonly 121, Logout "s2")]
       (step (demo_config readonly 120) (LoginEx "t2" "s2" (DToken "t1" NO_OPTIONS)) w)) = false.
Proof.
  cbv zeta. split; [vm_compute; reflexivity|].
  apply (single_use_token_once check 4 no_jobs ENOTAUTHENTICATED (history readonly) [(demo_config readonly 121, Logout "s2")]).
  - apply single_use_b_true. vm_compute. reflexivity.
  - vm_compute. reflexivity.
  - repeat constructor; discriminate.
Defined.

Lemma failed_login_audited_witness :
  exists w', login_ex check 4 no_jobs (demo_config readonly 130) "t2" "s2" (password "alice" "wrong")
               (run (history readonly) initial_world) = (w', Ok (LFailed AUTH_ERR)) /\
    logged "s2" false (run (history readonly) initial_world) w'.
Proof.
  set (w := run (history readonly) initial_world).
  assert ((login_ex check 4 no_jobs (demo_config readonly 130) "t2" "s2" (password "alice" "wrong") w).2 = Ok (LFailed AUTH_ERR))
    as Hr by (vm_compute; reflexivity).
  destruct (login_ex check 4 no_jobs (demo_config readonly 130) "t2" "s2" (password "alice" "wrong") w) as [w' x] eqn:He.
  simpl in Hr. subst x. exists w'. split; [reflexivity|].
  apply (failed_login_audited check 4 no_jobs ENOTAUTHENTICATED (history readonly) (demo_config readonly 130) "t2" "s2"
    (password "alice" "wrong") w' AUTH_ERR He).
Defined.

(** The account of the demonstration, as PAM returns it and as the middleware
    sees it *)
Definition demo_user : result exn (option user) := authenticate_user (demo_config readonly 100) (account "alice").

Lemma session_call_authorized_witness :
  let w := run (history readonly) initial_world in
  (authorize_method_call ENOTAUTHENTICATED 130 "s1" "pool.query" (mkMethod false true false true) w).2 = Ok tt.
Proof.
  cbv zeta. set (w := run (history readonly) initial_world).
  assert (match user_cred_of w 2, demo_user with
          | Some c, Ok (Some u) =>
              bool_decide (uc_class c = CLoginPassword /\ uc_user c = 1 /\ uc_assurance c = Some AA_LEVEL1 /\
                uc_expiry c = Some (100 + max_session_age AA_LEVEL1)%Z /\ uc_inactivity_timeout c = None)
          | _, _ => false end = true) as Hsh by (vm_compute; reflexivity).
  assert (match user_cred_of w 2, demo_user with
          | Some c, Ok (Some u) => Some (uc_allowlist c) | _, _ => None end =
          match user_cred_of w 2, demo_user with
          | Some c, Ok (Some u) => Some (new_Allowlist (c_allowlist (u_privilege u))) | _, _ => None end) as Hal
    by (vm_compute; reflexivity).
  destruct (user_cred_of w 2) as [c|] eqn:Hc; [|discriminate]. destruct demo_user as [[u|]|] eqn:Hu; [|discriminate..].
  apply bool_decide_eq_true in Hsh as (E1 & E2 & E3 & E4 & E5). injection Hal as Hal.
  apply user_cred_of_some in Hc.
  assert (option_map a_credentials (apps w !! "s1") = Some (Some 2)) as Ha by (vm_compute; reflexivity).
  destruct (apps w !! "s1") as [a|] eqn:Hap; [|discriminate]. injection Ha as Ha.
  apply (session_call_authorized ENOTAUTHENTICATED demo_ops (demo_config readonly 100) (account "alice") u CLoginPassword AA_LEVEL1
    100 130 1 0 2 c w "s1" a "pool.query" (mkMethod false true false true)).
  - repeat constructor.
  - reflexivity.
  - reflexivity.
  - constructor; [|constructor]. constructor; [apply readonly_admin_usable|constructor].
  - exact Hu.
  - exact Hap.
  - exact Ha.
  - exact Hc.
  - simpl. rewrite E1, E2, E3, E4, E5. reflexivity.
  - exact Hal.
  - reflexivity.
  - reflexivity.
  - split; [split; [vm_compute; discriminate|exact I]|].
    exists readonly, (Gid 951), "READONLY_ADMIN". split; [constructor|]. split; [constructor|]. split; [constructor|].
    split; [constructor|]. right. eexists. split; [vm_compute; reflexivity|]. apply (bool_decide_unpack _). vm_compute. exact I.
Defined.

Lemma relogin_ignores_pam_session_witness :
  let w := run (token_history readonly) initial_world in
  app_cred w "s2" = Some 5 /\ app_cred (session_login (demo_config readonly 130) "s2" 2 w).1 "s2" = Some 2.
Proof.
  cbv zeta. split; [vm_compute; reflexivity|]. set (w := run (token_history readonly) initial_world).
  destruct (cred_login 2 w) as [w1 [rsp|e]] eqn:Hl.
  - apply (relogin_ignores_pam_session check 4 no_jobs ENOTAUTHENTICATED (token_history readonly) (demo_config readonly 130) "s2" 5 2 w1 rsp).
    + vm_compute. reflexivity.
    + exact Hl.
  - assert (is_ok (cred_login 2 w).2 = true) as Hok by (vm_compute; reflexivity). rewrite Hl in Hok. discriminate.
Defined.

Lemma become_readonly_token_session_witness :
  let w := run (token_history admins) initial_world in
  let w' := (become_readonly (demo_config admins 130) readonly "s2" w).1 in
  app_cred w' "s2" = Some 5 /\ cred_authorizes 130 w' "CALL" "pool.create" 5 = true.
Proof.
  cbv zeta. set (w := run (token_history admins) initial_world).
  assert (bool_decide (is_Some (token_cred_of w 5)) = true) as Hsome by (vm_compute; reflexivity).
  destruct (token_cred_of w 5) as [c|] eqn:Hc; [|discriminate]. clear Hsome. apply token_cred_of_some in Hc.
  assert (is_ok (become_readonly (demo_config admins 130) readonly "s2" w).2 = true) as Hok by (vm_compute; reflexivity).
  destruct (become_readonly (demo_config admins 130) readonly "s2" w) as [w' [[]|e]] eqn:Hro; [|discriminate].
  destruct (become_readonly_token_session check 4 no_jobs ENOTAUTHENTICATED (token_history admins) (demo_config admins 130) readonly
    "s2" 5 c w' 130) as [H1 H2].
  - vm_compute. reflexivity.
  - exact Hc.
  - exact Hro.
  - split; [exact H1|]. cbn [fst]. rewrite H2. vm_compute. reflexivity.
Defined.
End Demo.
