(* ===== verification/Rpc.v ===== *)
(** * The JSON-RPC server (src/middlewared/middlewared/api/base/server/ws_handler/rpc.py)

    A web socket connection: the decoding and the size limits of its messages
    (utils/limits.py), the validation of requests, the dispatch to methods, the
    soft and hard limits on concurrent calls (utils/lock.py), and the responses.
    Each call is an [asyncio] task; the model interleaves the segments of the
    tasks between two awaits.  The credentials of the connection are those of
    [Sessions], and a call passes [authorize_method_call] of [Login]. *)

From S2P Require Import Prelude PyDict PyStr PyVal Errors Origin Authenticator Sessions Login.

(** ** Messages *)

(** What the decoder of the API client package returns: JSON values, and other
    objects (floats, dates, sets, addresses) that the server only carries. *)
Inductive value :=
| VNull
| VBool (b : bool)
| VInt (z : Z)
| VStr (s : string)
| VList (l : list value)
| VDict (d : list (string * value))
| VObj (hashable : bool) (repr : string).

Definition is_hashable (v : value) : bool :=
  match v with VList _ | VDict _ => false | VObj h _ => h | _ => true end.

(** [v or ''] *)
Definition or_empty (v : value) : value :=
  match v with
  | VNull | VBool false | VInt 0%Z | VList [] | VDict [] => VStr ""
  | v => v
  end.

Definition MSG_SIZE_EXTENDED_METHODS : list string := ["filesystem.file_receive"; "failover.datastore.sql"].

Inductive MsgSizeLimit := UNAUTHENTICATED | AUTHENTICATED | EXTENDED.

#[global] Instance MsgSizeLimit_eq_dec : EqDecision MsgSizeLimit.
Proof. solve_decision. Defined.

Definition limit_value (l : MsgSizeLimit) : Z :=
  match l with UNAUTHENTICATED => 8192 | AUTHENTICATED => 65536 | EXTENDED => 2097152 end.

Record MsgSizeError := mkSizeError { mse_limit : MsgSizeLimit; mse_datalen : Z; mse_method_name : value }.

(** Close codes of a web socket, by their names *)
Inductive WSCloseCode := INVALID_TEXT | MESSAGE_TOO_BIG | UNSUPPORTED_DATA | WS_INTERNAL_ERROR | POLICY_VIOLATION.

Definition ws_close_code (e : MsgSizeError) : WSCloseCode :=
  match mse_limit e with UNAUTHENTICATED => INVALID_TEXT | _ => MESSAGE_TOO_BIG end.
Definition ws_errmsg (e : MsgSizeError) : string :=
  match mse_limit e with
  | UNAUTHENTICATED => "Anonymous connection max message length is 8 kB"
  | _ => "Max message length is 64 kB"
  end.

(** What [parse_message] raises; the last one is not a [ValueError]. *)
Inductive parse_error := PSize (e : MsgSizeError) | PValueError (s : string) | PTypeError (s : string).

(** [parse_message]; [loads] is the decoder, which raises a [ValueError]. *)
Definition parse_message (loads : string -> result string value) (authenticated : bool) (msg_data : string)
    : result parse_error (list (string * value)) :=
  let datalen := Z.of_nat (String.length msg_data) in
  if negb authenticated && (limit_value UNAUTHENTICATED <? datalen)%Z
  then Err (PSize (mkSizeError UNAUTHENTICATED datalen (VStr "")))
  else if (limit_value EXTENDED <? datalen)%Z then Err (PSize (mkSizeError EXTENDED datalen (VStr "")))
  else
    match loads msg_data with
    | Err e => Err (PValueError e)
    | Ok (VDict message) =>
        let method := default VNull (Dict.get "method" message) in
        if negb (is_hashable method) then Err (PTypeError "unhashable type")
        else if match method with VStr m => bool_decide (m ∈ MSG_SIZE_EXTENDED_METHODS) | _ => false end then Ok message
        else if (limit_value AUTHENTICATED <? datalen)%Z
        then Err (PSize (mkSizeError AUTHENTICATED datalen (or_empty method)))
        else Ok message
    | Ok (VList _) => Err (PValueError "Batch messages are not supported at this time")
    | Ok _ => Err (PValueError "Invalid Message Format")
    end.

(** [isinstance(v, None | int | str)] *)
Definition valid_id (v : value) : bool :=
  match v with VNull | VBool _ | VInt _ | VStr _ => true | _ => false end.

(** [validate_message]: the method and the parameters of a valid request *)
Definition validate_message (message : list (string * value)) : result string (string * list value) :=
  match Dict.get "jsonrpc" message with
  | None => Err "Missing 'jsonrpc' member"
  | Some (VStr "2.0") =>
      if match Dict.get "id" message with Some v => negb (valid_id v) | None => false end
      then Err "'id' member must be of type null, string or number"
      else
        match Dict.get "method" message with
        | None => Err "Missing 'method' member"
        | Some (VStr m) =>
            if String.eqb m "" then Err "'method' member must be of type string"
            else
              match Dict.get "params" message with
              | None => Ok (m, [])
              | Some (VList l) => Ok (m, l)
              | Some _ => Err "'params' member must be of type array"
              end
        | Some _ => Err "'method' member must be of type string"
        end
  | Some _ => Err "'jsonrpc' member must be of type string and must be exactly '2.0'"
  end.

(** ** Access to the server (ws_handler/base.py) *)

(** [addr_in_allowlist]; [ip_address] and [ip_network] give [None] where they
    raise, and an address never equals a network. *)
Fixpoint in_networks {A N} (ip_network : string -> option N) (contains : N -> A -> bool) (addr : A) (allowlist : list string) : bool :=
  match allowlist with
  | [] => false
  | allowed :: l =>
      match ip_network allowed with
      | None => false
      | Some n => if contains n addr then true else in_networks ip_network contains addr l
      end
  end.

Definition addr_in_allowlist {A N} (ip_address : string -> option A) (ip_network : string -> option N) (contains : N -> A -> bool)
    (remote_addr : option string) (allowlist : list string) : bool :=
  match remote_addr ≫= ip_address with
  | None => false
  | Some a => in_networks ip_network contains a allowlist
  end.

Definition can_access {A N} (ip_address : string -> option A) (ip_network : string -> option N) (contains : N -> A -> bool)
    (ui_allowlist : list string) (origin : option ConnectionOrigin) : bool :=
  match origin with
  | None => false
  | Some o =>
      if is_unix_family o || is_ha_connection o then true
      else match ui_allowlist with
           | [] => true
           | l => addr_in_allowlist ip_address ip_network contains (rem_addr o) l
           end
  end.

(** ** The semaphore of a connection (utils/lock.py, asyncio.Semaphore)

    A waiting task is in [waiters] until it runs again; the flag says that the
    semaphore was already given to it. *)
Record SoftHardSemaphore := mkSem {
  softlimit : nat;
  hardlimit : nat;
  counter : nat;
  sem_value : nat;
  waiters : list (nat * bool);
}.

Definition new_SoftHardSemaphore (soft hard : nat) : SoftHardSemaphore := mkSem soft hard 0 soft [].

Definition set_sem (v : nat) (ws : list (nat * bool)) (s : SoftHardSemaphore) : SoftHardSemaphore :=
  mkSem (softlimit s) (hardlimit s) (counter s) v ws.
Definition set_counter (n : nat) (s : SoftHardSemaphore) : SoftHardSemaphore :=
  mkSem (softlimit s) (hardlimit s) n (sem_value s) (waiters s).

(** [_wake_up_next] finds the first waiter not yet woken. *)
Fixpoint wake_first (ws : list (nat * bool)) : option (list (nat * bool)) :=
  match ws with
  | [] => None
  | (k, false) :: ws => Some ((k, true) :: ws)
  | w :: ws => cons w <$> wake_first ws
  end.

(** [while self._value > 0: if not self._wake_up_next(): break] *)
Fixpoint wake_all (v : nat) (ws : list (nat * bool)) : nat * list (nat * bool) :=
  match v with
  | O => (O, ws)
  | S v' => match wake_first ws with Some ws' => wake_all v' ws' | None => (v, ws) end
  end.

(** [release] *)
Definition sem_release (s : SoftHardSemaphore) : SoftHardSemaphore :=
  match wake_first (waiters s) with
  | Some ws => set_sem (sem_value s) ws s
  | None => set_sem (S (sem_value s)) (waiters s) s
  end.

(** [acquire] up to its first suspension: whether the semaphore is taken *)
Definition sem_acquire (k : nat) (s : SoftHardSemaphore) : SoftHardSemaphore * bool :=
  match sem_value s, waiters s with
  | S v, [] => (set_sem v [] s, true)
  | v, ws => (set_sem v (ws ++ [(k, false)]) s, false)
  end.

(** [acquire] when the waiting task runs again: normally, or cancelled *)
Definition sem_resume (k : nat) (s : SoftHardSemaphore) : SoftHardSemaphore :=
  let '(v, ws) := wake_all (sem_value s) (Dict.pop k (waiters s)) in set_sem v ws s.
Definition sem_cancel (k : nat) (s : SoftHardSemaphore) : SoftHardSemaphore :=
  let v := match Dict.get k (waiters s) with Some true => S (sem_value s) | _ => sem_value s end in
  let '(v, ws) := wake_all v (Dict.pop k (waiters s)) in set_sem v ws s.

(** [__aenter__] up to its first suspension; [None] is [SoftHardSemaphoreLimit] *)
Definition aenter (k : nat) (s : SoftHardSemaphore) : option (SoftHardSemaphore * bool) :=
  if hardlimit s <=? counter s then None
  else Some (sem_acquire k (set_counter (S (counter s)) s)).

(** [__aexit__] *)
Definition aexit (s : SoftHardSemaphore) : SoftHardSemaphore := sem_release (set_counter (counter s - 1) s).

(** ** Responses *)

(** Error codes of JSON-RPC and of the API client package, by name *)
Inductive JSONRPCError :=
| INVALID_JSON | INVALID_REQUEST | METHOD_NOT_FOUND | INVALID_PARAMS | INTERNAL_ERROR
| TRUENAS_TOO_MANY_CONCURRENT_CALLS | TRUENAS_CALL_ERROR.

Inductive extra := XNone | XJson (j : json) | XErrors (l : list (option string * string * Z)).

Record truenas_error := mkTruenasError {
  te_error : Z;
  te_errname : string;
  te_reason : string;
  te_trace : json;
  te_extra : extra;
  te_py_exception : option string;
}.

Inductive response :=
| RResult (id_ : value) (result : value)
| RError (id_ : value) (code : JSONRPCError) (message : string) (data : option truenas_error).

Definition response_id (r : response) : value := match r with RResult i _ | RError i _ _ _ => i end.

(** What the server uses of its libraries: the decoder and the encoder of
    messages (the encoder's exception, where it has one), the names of errors,
    tracebacks, pickling and command lines. *)
Class RpcLib := {
  loads : string -> result string value;
  dumps_error : response -> option exn;
  errorcode : Z -> option string;
  mixin_errname : Z -> option string;
  exn_repr : exn -> string;
  other_str : exn -> string;
  truenas_error_traceback : exn -> json;
  pickle_b64 : exn -> option string;
  join_commandline : list string -> string;
}.

(** A method of an API version.  A method of an older version adapts its
    parameters before the call; [rm_serialize] applies the model of the result,
    without its secret fields when the flag is false, and is the identity for a
    method that has no model. *)
Record rpc_method := mkRpcMethod {
  rm_name : string;
  rm_object : method_object;
  rm_role_prefix : option string;
  rm_adapt_params : list value -> result exn (list value);
  rm_serialize : bool -> value -> result exn value;
}.

(** A call in progress; [None] is the [undefined] id of a notification. *)
Inductive phase := TCreated | TWaiting | TAcquired | TRunning.

#[global] Instance phase_eq_dec : EqDecision phase.
Proof. solve_decision. Defined.

Record task := mkTask { t_id : option value; t_method : rpc_method; t_params : list value; t_phase : phase }.

Definition set_phase (p : phase) (t : task) : task := mkTask (t_id t) (t_method t) (t_params t) p.

(** [RpcWebSocketApp] beside its session: the messages it received, its pending
    tasks by the number of their message, and the responses it sent with the
    number of the message they answer. *)
Record conn := mkConn {
  legacy_jobs : bool;
  private_methods : bool;
  py_exceptions : bool;
  softhardsemaphore : SoftHardSemaphore;
  received : list (list (string * value));
  pending_tasks : gmap nat task;
  sent : list (option nat * response);
  is_open : bool;
  close_code : option (WSCloseCode * string);
}.

Definition new_conn : conn := mkConn true false false (new_SoftHardSemaphore 10 20) [] ∅ [] true None.

Definition set_options (l p e : option bool) (c : conn) : conn :=
  mkConn (default (legacy_jobs c) l) (default (private_methods c) p) (default (py_exceptions c) e) (softhardsemaphore c)
    (received c) (pending_tasks c) (sent c) (is_open c) (close_code c).
Definition set_semaphore (s : SoftHardSemaphore) (c : conn) : conn :=
  mkConn (legacy_jobs c) (private_methods c) (py_exceptions c) s (received c) (pending_tasks c) (sent c) (is_open c) (close_code c).
Definition set_received (v : list (list (string * value))) (c : conn) : conn :=
  mkConn (legacy_jobs c) (private_methods c) (py_exceptions c) (softhardsemaphore c) v (pending_tasks c) (sent c) (is_open c) (close_code c).
Definition set_pending (v : gmap nat task) (c : conn) : conn :=
  mkConn (legacy_jobs c) (private_methods c) (py_exceptions c) (softhardsemaphore c) (received c) v (sent c) (is_open c) (close_code c).
Definition set_sent (v : list (option nat * response)) (c : conn) : conn :=
  mkConn (legacy_jobs c) (private_methods c) (py_exceptions c) (softhardsemaphore c) (received c) (pending_tasks c) v (is_open c) (close_code c).

(** The loop over the messages ends, with a close frame or without. *)
Definition leave (code : option (WSCloseCode * string)) (c : conn) : conn :=
  mkConn (legacy_jobs c) (private_methods c) (py_exceptions c) (softhardsemaphore c) (received c) (pending_tasks c) (sent c) false code.

Section rpc.
Context `{!RpcLib}.

(** [str(e)] *)
Definition exn_str (e : exn) : string :=
  match e with
  | ECallError _ m no _ => CallError_str errorcode mixin_errname m no
  | EValidationError v => ValidationError_str errorcode mixin_errname v
  | EValidationErrors vs => ValidationErrors_str errorcode mixin_errname vs
  | e => other_str e
  end.

Definition format_truenas_error (c : conn) (errno_ : Z) (reason : string) (e : option exn) (x : extra) : truenas_error :=
  mkTruenasError errno_ (get_errname errorcode mixin_errname errno_) reason
    (match e with Some e => truenas_error_traceback e | None => JNull end) x
    (match e with Some e => if py_exceptions c then pickle_b64 e else None | None => None end).

(** [send]: a message that cannot be encoded is replaced by an error. *)
Definition send (n : option nat) (r : response) (c : conn) : conn :=
  let r := match dumps_error r with
           | None => r
           | Some e => RError (response_id r) INTERNAL_ERROR "Failed to JSON serialize server message"
                         (Some (format_truenas_error c EFAULT (exn_str e) (Some e) XNone))
           end in
  set_sent (sent c ++ [(n, r)]) c.

(** The response to a call that returned or raised *)
Definition call_response (c : conn) (id_ : value) (r : result exn value) : response :=
  match r with
  | Ok v => RResult id_ v
  | Err (EValidationError v as e) =>
      RError id_ INVALID_PARAMS "Invalid params"
        (Some (format_truenas_error c EINVAL (exn_str e) (Some e) (XErrors (VErrors.iter [v]))))
  | Err (EValidationErrors vs as e) =>
      RError id_ INVALID_PARAMS "Invalid params"
        (Some (format_truenas_error c EINVAL (exn_str e) (Some e) (XErrors (VErrors.iter vs))))
  | Err (ECallError _ _ no x as e) =>
      RError id_ TRUENAS_CALL_ERROR "Method call error"
        (Some (format_truenas_error c no (exn_str e) (Some e) (match x with JNull => XNone | _ => XJson x end)))
  | Err e =>
      let '(no, er) := match adapt_exception join_commandline e with
                       | Some (ECallError _ _ no _ as a) => (no, a)
                       | _ => (EINVAL, e)
                       end in
      let reason := if String.eqb (exn_str er) "" then exn_repr er else exn_str er in
      RError id_ TRUENAS_CALL_ERROR "Method call error" (Some (format_truenas_error c no reason (Some e) XNone))
  end.

(** The task of message [n] ends with [r]. *)
Definition answer (n : nat) (t : task) (r : response) (c : conn) : conn :=
  let c := match t_id t with Some _ => send (Some n) r c | None => c end in
  set_pending (delete n (pending_tasks c)) c.

Definition id_or_null (t : task) : value := default VNull (t_id t).

(** ** The server *)

Context `{!PamStack} (check_unixhash : string -> string -> bool) (rounds : nat) (jobs : job_check) (ENOTAUTHENTICATED : Z).
Context (methods : string -> option rpc_method).

Record server := mkServer {
  sv_world : world;
  sv_conns : gmap string conn;
  external_method_calls : list (string * Z);
}.

Definition set_conn (sid : string) (c : conn) (s : server) : server :=
  mkServer (sv_world s) (<[sid := c]> (sv_conns s)) (external_method_calls s).
Definition set_world (w : world) (s : server) : server := mkServer w (sv_conns s) (external_method_calls s).

Definition app_credentials (w : world) (sid : string) : option nat := apps w !! sid ≫= a_credentials.

(** [dump_result] (main.py): secrets are shown unless the session is a user's
    that lacks both full administration and the write role of the service. *)
Definition expose_secrets (w : world) (cred : option nat) (role_prefix : option string) : bool :=
  match cred with
  | None => true
  | Some r =>
      negb (is_user_session w r
            && negb (credential_has_full_admin w r
                     || match role_prefix with
                        | Some p => negb (String.eqb p "") && has_role w (p +:+ "_WRITE") r
                        | None => false
                        end))
  end.

Definition dump_result (w : world) (cred : option nat) (m : rpc_method) (v : value) : result exn value :=
  rm_serialize m (expose_secrets w cred (rm_role_prefix m)) v.

(** [process_message]; the warning about private methods is only logged. *)
Definition process_message (message : list (string * value)) (c : conn) : conn :=
  let n := length (received c) in
  let c := set_received (received c ++ [message]) c in
  let reply code text := match Dict.get "id" message with
                         | Some id_ => send (Some n) (RError id_ code text None) c
                         | None => c
                         end in
  match validate_message message with
  | Err e => reply INVALID_REQUEST e
  | Ok (name, params) =>
      match methods name with
      | None => reply METHOD_NOT_FOUND "Method does not exist"
      | Some m => set_pending (<[n := mkTask (Dict.get "id" message) m params TCreated]> (pending_tasks c)) c
      end
  end.

Inductive ws_message := WSText (data : string) | WSError | WSOther (type : string).

(** One iteration of the loop of [process] *)
Definition receive (cf : config) (sid : string) (m : ws_message) (s : server) : option server :=
  c ← sv_conns s !! sid;
  if negb (is_open c) then None
  else
    let w := sv_world s in
    let cred := app_credentials w sid in
    match m with
    | WSError => Some (set_conn sid (leave None c) s)
    | WSOther t => Some (set_conn sid (leave (Some (UNSUPPORTED_DATA, "Invalid websocket message type: " +:+ t)) c) s)
    | WSText data =>
        match parse_message loads (bool_decide (is_Some cred)) data with
        | Err (PSize e) =>
            let dump_fails := negb (bool_decide (mse_limit e = UNAUTHENTICATED)) &&
                              match cred with Some r => bool_decide (dump_credentials w r = None) | None => false end in
            Some (set_conn sid (leave (if dump_fails then None else Some (ws_close_code e, ws_errmsg e)) c) s)
        | Err (PValueError e) => Some (set_conn sid (send None (RError VNull INVALID_JSON e None) c) s)
        | Err (PTypeError _) => Some (set_conn sid (leave None c) s)
        | Ok message =>
            Some (set_conn sid (process_message message c) (set_world (app_message (os_now (cf_os cf)) sid w).1 s))
        end
    end.

(** *** [process_method_call], segment by segment *)

Definition count_external (sid : string) (m : rpc_method) (s : server) : server :=
  if is_external_call (a_origin <$> apps (sv_world s) !! sid) then
    let calls := external_method_calls s in
    mkServer (sv_world s) (sv_conns s) (Dict.set (rm_name m) (default 0 (Dict.get (rm_name m) calls) + 1)%Z calls)
  else s.

Definition too_many (c : conn) : string :=
  "Maximum number of concurrent calls (" +:+ pretty (hardlimit (softhardsemaphore c)) +:+ ") has exceeded".

Definition start (sid : string) (n : nat) (s : server) : option server :=
  c ← sv_conns s !! sid;
  t ← pending_tasks c !! n;
  if negb (is_open c && bool_decide (t_phase t = TCreated)) then None
  else
    let s := count_external sid (t_method t) s in
    match aenter n (softhardsemaphore c) with
    | None => Some (set_conn sid (answer n t (RError (id_or_null t) TRUENAS_TOO_MANY_CONCURRENT_CALLS (too_many c) None) c) s)
    | Some (sem, got) =>
        let t := set_phase (if got : bool then TAcquired else TWaiting) t in
        Some (set_conn sid (set_pending (<[n := t]> (pending_tasks c)) (set_semaphore sem c)) s)
    end.

Definition resume (sid : string) (n : nat) (s : server) : option server :=
  c ← sv_conns s !! sid;
  t ← pending_tasks c !! n;
  if negb (is_open c && bool_decide (Dict.get n (waiters (softhardsemaphore c)) = Some true)) then None
  else
    let c := set_semaphore (sem_resume n (softhardsemaphore c)) c in
    Some (set_conn sid (set_pending (<[n := set_phase TAcquired t]> (pending_tasks c)) c) s).

(** The call is over: leave the semaphore and respond. *)
Definition conclude (sid : string) (n : nat) (t : task) (r : result exn value) (c : conn) (s : server) : server :=
  let c := set_semaphore (aexit (softhardsemaphore c)) c in
  set_conn sid (answer n t (call_response c (id_or_null t) r) c) s.

(** [Method.call] up to the method itself: the parameters of an older API
    version are adapted, then the call is authorized. *)
Definition begin_call (cf : config) (sid : string) (n : nat) (s : server) : option server :=
  c ← sv_conns s !! sid;
  t ← pending_tasks c !! n;
  if negb (bool_decide (t_phase t = TAcquired)) then None
  else
    match rm_adapt_params (t_method t) (t_params t) with
    | Err e => Some (conclude sid n t (Err e) c s)
    | Ok params =>
        let '(w, r) := authorize_method_call ENOTAUTHENTICATED (os_now (cf_os cf)) sid (rm_name (t_method t)) (rm_object (t_method t)) (sv_world s) in
        let s := set_world w s in
        match r with
        | Err e => Some (conclude sid n t (Err e) c s)
        | Ok _ => Some (set_conn sid (set_pending (<[n := mkTask (t_id t) (t_method t) params TRunning]> (pending_tasks c)) c) s)
        end
    end.

(** How the method ends: a value, an exception, or a job with its id and what
    waiting for it gives *)
Inductive outcome := OReturn (v : value) | ORaise (e : exn) | OJob (id_ : Z) (waited : result exn value).

Definition end_call (sid : string) (n : nat) (o : outcome) (s : server) : option server :=
  c ← sv_conns s !! sid;
  t ← pending_tasks c !! n;
  if negb (bool_decide (t_phase t = TRunning)) then None
  else
    let dump v := dump_result (sv_world s) (app_credentials (sv_world s) sid) (t_method t) v in
    let r := match o with
             | OReturn v => dump v
             | ORaise e => Err e
             | OJob id_ waited => if legacy_jobs c then Ok (VInt id_) else v ← waited; dump v
             end in
    Some (conclude sid n t r c s).

(** The [finally] of [process]: the tasks are cancelled one by one, then the
    callbacks of the close run and the client is forgotten. *)
Definition cancel_task (sid : string) (n : nat) (s : server) : option server :=
  c ← sv_conns s !! sid;
  t ← pending_tasks c !! n;
  if is_open c then None
  else
    let sem := softhardsemaphore c in
    let sem := match t_phase t with
               | TCreated => sem
               | TWaiting => sem_cancel n sem
               | TAcquired | TRunning => aexit sem
               end in
    Some (set_conn sid (set_pending (delete n (pending_tasks c)) (set_semaphore sem c)) s).

Definition disconnect (sid : string) (s : server) : option server :=
  c ← sv_conns s !! sid;
  if is_open c then Some (set_conn sid (leave None c) s) else None.

Definition finish_close (sid : string) (s : server) : option server :=
  c ← sv_conns s !! sid;
  if is_open c || negb (bool_decide (pending_tasks c = ∅)) then None
  else Some (mkServer (app_close sid (sv_world s)).1 (delete sid (sv_conns s)) (external_method_calls s)).

(** A client that may access the server connects. *)
Definition accept (cf : config) (sid : string) (origin : option ConnectionOrigin) (allowed : bool) (s : server) : option server :=
  if negb allowed then Some s
  else
    match apps (sv_world s) !! sid, sv_conns s !! sid with
    | None, None => Some (set_conn sid new_conn (set_world (connect check_unixhash rounds cf sid origin (sv_world s)).1 s))
    | _, _ => None
    end.

(** [core.set_options] *)
Definition core_set_options (sid : string) (l p e : option bool) (s : server) : option server :=
  c ← sv_conns s !! sid; Some (set_conn sid (set_options l p e c) s).

(** *** Histories *)

Inductive label :=
| Accept (sid : string) (origin : option ConnectionOrigin) (allowed : bool)
| Receive (sid : string) (m : ws_message)
| Start (sid : string) (n : nat)
| Resume (sid : string) (n : nat)
| BeginCall (sid : string) (n : nat)
| EndCall (sid : string) (n : nat) (o : outcome)
| CancelTask (sid : string) (n : nat)
| Disconnect (sid : string)
| FinishClose (sid : string)
| SetOptions (sid : string) (l p e : option bool)
| Body (o : auth_op).

(** What a method body may do to the sessions: the operations of the
    authentication service, but not the ones of the server itself *)
Definition body_op (o : auth_op) : bool :=
  match o with Connect _ _ | Message _ | Close _ => false | _ => true end.

Definition rpc_exec (cf : config) (l : label) (s : server) : option server :=
  match l with
  | Accept sid origin allowed => accept cf sid origin allowed s
  | Receive sid m => receive cf sid m s
  | Start sid n => start sid n s
  | Resume sid n => resume sid n s
  | BeginCall sid n => begin_call cf sid n s
  | EndCall sid n o => end_call sid n o s
  | CancelTask sid n => cancel_task sid n s
  | Disconnect sid => disconnect sid s
  | FinishClose sid => finish_close sid s
  | SetOptions sid l p e => core_set_options sid l p e s
  | Body o => if body_op o then Some (set_world (exec check_unixhash rounds jobs ENOTAUTHENTICATED cf o (sv_world s)) s) else None
  end.

Definition initial_server : server := mkServer initial_world ∅ [].

Definition rpc_step (s s' : server) : Prop := exists cf l, rpc_exec cf l s = Some s'.
Definition rpc_reachable : server -> Prop := reachable (fun s => s = initial_server) rpc_step.
End rpc.
