(* ===== verification/RpcInv.v ===== *)
(** * Invariants of the JSON-RPC server (of Rpc.v)

    The semaphore of a connection counts its holders and wakes its waiters; each
    message is answered once, by the server itself or by its task. *)

From S2P Require Import Prelude PyDict PyStr PyVal Errors Origin Authenticator Sessions Login Rpc.

(** ** The semaphore *)

Definition woken (ws : list (nat * bool)) : nat := length (filter (fun x => x.2 = true) ws).
Definition asleep (ws : list (nat * bool)) : nat := length (filter (fun x => x.2 = false) ws).

Lemma woken_asleep ws : woken ws + asleep ws = length ws.
Proof. unfold woken, asleep. induction ws as [|[k []] ws IH]; [done|rewrite !filter_cons; simpl; lia..]. Qed.

Lemma wake_first_some ws ws' : wake_first ws = Some ws' ->
  Dict.keys ws' = Dict.keys ws /\ woken ws' = S (woken ws) /\ length ws' = length ws.
Proof.
  revert ws'. induction ws as [|[k []] ws IH]; simpl; intros ws'; [done| |].
  - intros (ws1 & Hw & ->)%fmap_Some. destruct (IH ws1 Hw) as (H1 & H2 & H3). unfold Dict.keys, woken in *.
    rewrite !filter_cons, !fmap_cons. simpl. by rewrite H1, H2, H3.
  - intros [= <-]. unfold woken. by rewrite !filter_cons.
Qed.

Lemma wake_first_none ws : wake_first ws = None -> asleep ws = 0.
Proof.
  induction ws as [|[k []] ws IH]; simpl; [done| |done].
  rewrite fmap_None. intros H%IH. unfold asleep in *. by rewrite filter_cons.
Qed.

Lemma wake_all_spec v : forall ws v' ws', wake_all v ws = (v', ws') ->
  Dict.keys ws' = Dict.keys ws /\ v' + woken ws' = v + woken ws /\ length ws' = length ws /\ (v' = 0 \/ asleep ws' = 0).
Proof.
  induction v as [|v IH]; intros ws v' ws'; simpl.
  - intros [= <- <-]. split_and!; auto.
  - destruct (wake_first ws) as [ws1|] eqn:Hw.
    + intros (H1 & H2 & H3 & H4)%IH. destruct (wake_first_some _ _ Hw) as (E1 & E2 & E3).
      split_and!; [congruence|lia|congruence|done].
    + intros [= <- <-]. split_and!; auto using wake_first_none.
Qed.

Lemma woken_pop k b ws : Dict.get k ws = Some b -> woken (Dict.pop k ws) + (if b then 1 else 0) = woken ws.
Proof.
  unfold woken. induction ws as [|[k' b'] ws IH]; simpl; [done|]. case_decide as Hk.
  - intros [= ->]. rewrite filter_cons. destruct b; simpl; lia.
  - intros H%IH. rewrite !filter_cons. destruct b'; simpl in *; lia.
Qed.

(** [holders] tasks hold the semaphore; [exact] says that no waiting task was
    cancelled. *)
Record sem_inv (holders : nat) (exact : bool) (s : SoftHardSemaphore) : Prop := {
  si_wf : Dict.wf (waiters s);
  si_value : sem_value s + holders + woken (waiters s) = softlimit s;
  si_counter : holders + length (waiters s) <= counter s <= hardlimit s;
  si_exact : exact = true -> counter s = holders + length (waiters s);
  si_wake : sem_value s = 0 \/ asleep (waiters s) = 0 \/ 0 < woken (waiters s);
}.

Definition same_limits (s s' : SoftHardSemaphore) : Prop := softlimit s' = softlimit s /\ hardlimit s' = hardlimit s.

Lemma aenter_none h s k : sem_inv h true s -> aenter k s = None -> hardlimit s = h + length (waiters s).
Proof.
  intros [_ _ H1 H2 _]. unfold aenter. destruct (Nat.leb_spec (hardlimit s) (counter s)); [|done].
  intros _. specialize (H2 eq_refl). lia.
Qed.

Lemma sem_inv_wait h e s k : sem_inv h e s -> k ∉ Dict.keys (waiters s) -> counter s < hardlimit s ->
  (sem_value s = 0 \/ waiters s ≠ []) ->
  sem_inv h e (set_sem (sem_value s) (waiters s ++ [(k, false)]) (set_counter (S (counter s)) s)).
Proof.
  intros [H1 H2 H3 H4 H5] Hk Hc Hw.
  assert (woken (waiters s ++ [(k, false)]) = woken (waiters s)) as E
    by (unfold woken; rewrite filter_app, length_app; simpl; lia).
  constructor; cbn [waiters sem_value counter softlimit hardlimit set_sem set_counter]; rewrite ?E, ?length_app; cbn [length]; try lia.
  - unfold Dict.wf, Dict.keys in *. rewrite fmap_app. apply NoDup_app. split_and!; [done| |apply NoDup_singleton]. set_solver.
  - intros ->. rewrite (H4 eq_refl). lia.
  - destruct H5 as [?|[Ha|?]]; [auto| |auto]. destruct Hw as [?|Hw]; [auto|]. right; right.
    pose proof (woken_asleep (waiters s)). destruct (waiters s); [done|]. simpl length in *. lia.
Qed.

Lemma aenter_spec h e s s' k (got : bool) : sem_inv h e s -> k ∉ Dict.keys (waiters s) -> aenter k s = Some (s', got) ->
  sem_inv (if got then S h else h) e s' /\ same_limits s s' /\
  Dict.keys (waiters s') = Dict.keys (waiters s) ++ (if got then [] else [k]).
Proof.
  intros Hinv Hk. unfold aenter. destruct (Nat.leb_spec (hardlimit s) (counter s)); [done|].
  pose proof (sem_inv_wait _ _ _ _ Hinv Hk H) as Hwait. destruct Hinv as [H1 H2 H3 H4 H5].
  unfold sem_acquire, set_counter, set_sem in *; simpl in *.
  destruct (sem_value s) as [|v] eqn:Hv; [|destruct (waiters s) as [|x ws] eqn:Hw]; intros [= <- <-].
  - split; [by apply Hwait; left|split; [done|by unfold Dict.keys; simpl; rewrite fmap_app]].
  - split; [|done]. constructor; simpl in *; try lia; [by constructor|intros ->; rewrite (H4 eq_refl); lia].
  - split; [by apply Hwait; right|split; [done|by unfold Dict.keys; simpl; rewrite fmap_app]].
Qed.

Lemma aexit_spec h e s : sem_inv (S h) e s ->
  sem_inv h e (aexit s) /\ same_limits s (aexit s) /\ Dict.keys (waiters (aexit s)) = Dict.keys (waiters s).
Proof.
  intros [H1 H2 H3 H4 H5]. unfold aexit, sem_release, set_counter, set_sem; simpl.
  destruct (wake_first (waiters s)) as [ws|] eqn:Hw; simpl.
  - destruct (wake_first_some _ _ Hw) as (E1 & E2 & E3). split; [|done]. constructor; simpl; try lia.
    + unfold Dict.wf. by rewrite E1.
    + intros ->. rewrite (H4 eq_refl). lia.
  - split; [|done]. constructor; simpl; try lia; [done| |auto using wake_first_none].
    intros ->. rewrite (H4 eq_refl). lia.
Qed.

Lemma sem_resume_spec h e s k : sem_inv h e s -> Dict.get k (waiters s) = Some true ->
  sem_inv (S h) e (sem_resume k s) /\ same_limits s (sem_resume k s) /\
  Dict.keys (waiters (sem_resume k s)) = Dict.keys (Dict.pop k (waiters s)).
Proof.
  intros [H1 H2 H3 H4 H5] Hk. unfold sem_resume. destruct (wake_all _ _) as [v ws] eqn:Hw.
  destruct (wake_all_spec _ _ _ _ Hw) as (E1 & E2 & E3 & E4).
  pose proof (woken_pop _ _ _ Hk) as Hp. simpl in Hp. assert (S (length (Dict.pop k (waiters s))) = length (waiters s)) as Hl
    by (apply Dict.length_pop, Dict.get_is_Some; eauto).
  split; [|done]. constructor; simpl; try lia.
  - unfold Dict.wf. rewrite E1. by apply Dict.wf_pop.
  - intros ->. rewrite (H4 eq_refl). lia.
Qed.

Lemma sem_cancel_spec h e s k : sem_inv h e s -> k ∈ Dict.keys (waiters s) ->
  sem_inv h false (sem_cancel k s) /\ same_limits s (sem_cancel k s) /\
  Dict.keys (waiters (sem_cancel k s)) = Dict.keys (Dict.pop k (waiters s)).
Proof.
  intros [H1 H2 H3 H4 H5] Hk. unfold sem_cancel. pose proof Hk as [b Hb]%Dict.get_is_Some. rewrite Hb.
  pose proof (woken_pop _ _ _ Hb). pose proof (Dict.length_pop _ _ Hk).
  destruct (wake_all _ _) as [v ws] eqn:Hw. destruct (wake_all_spec _ _ _ _ Hw) as (E1 & E2 & E3 & E4).
  split; [|done]. constructor; simpl; try done; try lia.
  - unfold Dict.wf. rewrite E1. by apply Dict.wf_pop.
  - destruct b; lia.
Qed.

(** ** Counting tasks *)

Definition holds (t : task) : bool := match t_phase t with TAcquired | TRunning => true | _ => false end.

Definition holders (m : gmap nat task) : nat := size (filter (fun kv => holds kv.2 = true) m).

Lemma holders_insert n t m : m !! n = None -> holders (<[n := t]> m) = (if holds t then 1 else 0) + holders m.
Proof.
  intros Hn. unfold holders. rewrite map_filter_insert. simpl. case_decide as Ht.
  - rewrite Ht, map_size_insert_None; [done|]. apply map_lookup_filter_None. by left.
  - destruct (holds t); [done|]. by rewrite delete_id by done.
Qed.

Lemma holders_delete n t m : m !! n = Some t -> holders m = (if holds t then 1 else 0) + holders (delete n m).
Proof.
  intros Hn. rewrite <-(insert_id m n t) at 1 by done. rewrite <-insert_delete_eq.
  apply holders_insert, lookup_delete_eq.
Qed.

Lemma holders_update n t t' m : m !! n = Some t -> holders (<[n := t']> m) = (if holds t' then 1 else 0) + holders (delete n m).
Proof. intros _. rewrite <-insert_delete_eq. apply holders_insert, lookup_delete_eq. Qed.

(** ** A connection *)

(** The responses sent to message [n] *)
Definition answers (n : nat) (c : conn) : list response := (filter (fun x => x.1 = Some n) (sent c)).*2.

(** The semaphore and the phases of the tasks agree. *)
Record sem_part (sem : SoftHardSemaphore) (m : gmap nat task) (exact : bool) : Prop := {
  sp_inv : sem_inv (holders m) exact sem;
  sp_limits : softlimit sem = 10 /\ hardlimit sem = 20;
  sp_waiting : forall n, n ∈ Dict.keys (waiters sem) <-> exists t, m !! n = Some t /\ t_phase t = TWaiting;
}.

(** A message is answered once, after its task, when it has an id. *)
Definition answered (open : bool) (id_ : option value) (l : list response) : Prop :=
  match id_ with
  | None => l = []
  | Some i => (exists r, l = [r] /\ response_id r = i) \/ (open = false /\ l = [])
  end.

Record answer_part (c : conn) : Prop := {
  ap_late : forall n, length (received c) <= n -> pending_tasks c !! n = None /\ answers n c = [];
  ap_answers : forall n d, received c !! n = Some d ->
    match pending_tasks c !! n with
    | Some t => answers n c = [] /\ t_id t = Dict.get "id" d
    | None => answered (is_open c) (Dict.get "id" d) (answers n c)
    end;
}.

Definition conn_inv (c : conn) : Prop :=
  sem_part (softhardsemaphore c) (pending_tasks c) (is_open c) /\ answer_part c.

Lemma sem_part_weaken sem m e : sem_part sem m e -> sem_part sem m false.
Proof. intros [[] ? ?]. split; [|done..]. by constructor. Qed.

(** A task changes its phase, or disappears, with the semaphore. *)
Lemma sem_part_change sem sem' m m' n e e' :
  sem_part sem m e -> sem_inv (holders m') e' sem' -> same_limits sem sem' ->
  (forall k, k ≠ n -> m' !! k = m !! k) ->
  (n ∈ Dict.keys (waiters sem') <-> exists t, m' !! n = Some t /\ t_phase t = TWaiting) ->
  (forall k, k ≠ n -> k ∈ Dict.keys (waiters sem') <-> k ∈ Dict.keys (waiters sem)) ->
  sem_part sem' m' e'.
Proof.
  intros [_ [Hs Hh] Hw] Hi [Es Eh] Hm Hn Hk. split; [done|by rewrite Es, Eh|].
  intros k. destruct (decide (k = n)) as [->|Hne]; [done|]. by rewrite Hk, Hm, Hw.
Qed.

Lemma sem_part_not_waiting sem m n t e : sem_part sem m e -> m !! n = Some t -> t_phase t ≠ TWaiting -> n ∉ Dict.keys (waiters sem).
Proof. intros Hs Hn Hp (t' & Ht & Hw)%(sp_waiting _ _ _ Hs). congruence. Qed.

Lemma sem_part_same sem m m' n t t' e :
  sem_part sem m e -> m !! n = Some t -> t_phase t ≠ TWaiting -> holds t' = holds t -> t_phase t' ≠ TWaiting ->
  m' = <[n := t']> m -> sem_part sem m' e.
Proof.
  intros Hs Hn Hp Hh Hp' ->. pose proof (sem_part_not_waiting _ _ _ _ _ Hs Hn Hp) as Hk.
  apply (sem_part_change sem sem m _ n e e); try done.
  - rewrite (holders_update n t) by done. rewrite Hh, <-(holders_delete n t) by done. apply Hs.
  - intros k Hne. by rewrite lookup_insert_ne.
  - rewrite lookup_insert_eq. naive_solver.
Qed.

(** The task of message [n] is over. *)
Lemma sem_part_created sem m n t e : sem_part sem m e -> m !! n = Some t -> t_phase t = TCreated -> sem_part sem (delete n m) e.
Proof.
  intros Hs Hn Hp. pose proof (sem_part_not_waiting _ _ _ _ _ Hs Hn ltac:(congruence)) as Hk.
  apply (sem_part_change sem sem m _ n e e); try done.
  - pose proof (sp_inv _ _ _ Hs) as Hi. rewrite (holders_delete n t) in Hi by done. unfold holds in Hi. by rewrite Hp in Hi.
  - intros k Hne. by rewrite lookup_delete_ne.
  - rewrite lookup_delete_eq. naive_solver.
Qed.

Lemma sem_part_exit sem m n t e : sem_part sem m e -> m !! n = Some t -> holds t = true -> sem_part (aexit sem) (delete n m) e.
Proof.
  intros Hs Hn Hh. assert (t_phase t ≠ TWaiting) as Hp by (intros E; unfold holds in Hh; by rewrite E in Hh).
  pose proof (sem_part_not_waiting _ _ _ _ _ Hs Hn Hp) as Hk.
  pose proof (sp_inv _ _ _ Hs) as Hi. rewrite (holders_delete n t), Hh in Hi by done. apply aexit_spec in Hi as (Hi & Hl & Hkeys).
  apply (sem_part_change sem _ m _ n e e); try done.
  - intros k Hne. by rewrite lookup_delete_ne.
  - rewrite Hkeys, lookup_delete_eq. naive_solver.
  - intros k _. by rewrite Hkeys.
Qed.

Lemma sem_part_enter sem sem' m n t e (got : bool) :
  sem_part sem m e -> m !! n = Some t -> t_phase t = TCreated -> aenter n sem = Some (sem', got) ->
  sem_part sem' (<[n := set_phase (if got then TAcquired else TWaiting) t]> m) e.
Proof.
  intros Hs Hn Hp Ha. pose proof (sem_part_not_waiting _ _ _ _ _ Hs Hn ltac:(congruence)) as Hk.
  destruct (aenter_spec _ _ _ _ _ _ (sp_inv _ _ _ Hs) Hk Ha) as (Hi & Hl & Hkeys).
  assert (holders m = holders (delete n m)) as Hh
    by (rewrite (holders_delete n t) by done; unfold holds; by rewrite Hp).
  apply (sem_part_change sem _ m _ n e e); try done.
  - rewrite (holders_update n t), <-Hh by done. by destruct got.
  - intros k Hne. by rewrite lookup_insert_ne.
  - rewrite Hkeys, lookup_insert_eq. destruct got; simpl; set_solver.
  - intros k Hne. rewrite Hkeys. destruct got; set_solver.
Qed.

Lemma sem_part_resume sem m n t e :
  sem_part sem m e -> m !! n = Some t -> Dict.get n (waiters sem) = Some true ->
  sem_part (sem_resume n sem) (<[n := set_phase TAcquired t]> m) e.
Proof.
  intros Hs Hn Hg. destruct (sem_resume_spec _ _ _ _ (sp_inv _ _ _ Hs) Hg) as (Hi & Hl & Hkeys).
  pose proof (si_wf _ _ _ (sp_inv _ _ _ Hs)) as Hwf.
  assert (n ∈ Dict.keys (waiters sem)) as (t' & Ht & Hp)%(sp_waiting _ _ _ Hs) by (apply Dict.get_is_Some; eauto).
  assert (t' = t) as -> by congruence.
  apply (sem_part_change sem _ m _ n e e); try done.
  - rewrite (holders_update n t) by done. rewrite (holders_delete n t) in Hi by done. unfold holds in *. rewrite Hp in Hi. done.
  - intros k Hne. by rewrite lookup_insert_ne.
  - rewrite Hkeys, lookup_insert_eq, Dict.elem_keys_pop by done. naive_solver.
  - intros k Hne. rewrite Hkeys, Dict.elem_keys_pop by done. naive_solver.
Qed.

Lemma sem_part_cancel sem m n t e :
  sem_part sem m e -> m !! n = Some t -> t_phase t = TWaiting -> sem_part (sem_cancel n sem) (delete n m) false.
Proof.
  intros Hs Hn Hp. assert (n ∈ Dict.keys (waiters sem)) as Hk by (apply Hs; eauto).
  destruct (sem_cancel_spec _ _ _ _ (sp_inv _ _ _ Hs) Hk) as (Hi & Hl & Hkeys).
  pose proof (si_wf _ _ _ (sp_inv _ _ _ Hs)) as Hwf.
  apply (sem_part_change sem _ m _ n e false); try done.
  - rewrite (holders_delete n t) in Hi by done. unfold holds in Hi. by rewrite Hp in Hi.
  - intros k Hne. by rewrite lookup_delete_ne.
  - rewrite Hkeys, lookup_delete_eq, Dict.elem_keys_pop by done. naive_solver.
  - intros k Hne. rewrite Hkeys, Dict.elem_keys_pop by done. naive_solver.
Qed.

(** *** Answers *)

Section answers.
Context {HL : RpcLib}.

Lemma send_spec tag r c : exists r', response_id r' = response_id r /\ send tag r c = set_sent (sent c ++ [(tag, r')]) c.
Proof. unfold send. destruct (dumps_error r); eexists; (split; [|reflexivity]); done. Qed.

Lemma answers_app n c l : answers n (set_sent (sent c ++ l) c) = answers n c ++ (filter (fun x => x.1 = Some n) l).*2.
Proof. unfold answers. simpl. by rewrite filter_app, fmap_app. Qed.

(** Only messages that are not pending and have not been answered get one. *)
Lemma answer_part_send (tag : option nat) r c :
  answer_part c -> (forall n, tag = Some n -> False) -> answer_part (send tag r c).
Proof.
  intros [H1 H2] Ht. destruct (send_spec tag r c) as (r' & Hid & ->).
  assert (forall n, answers n (set_sent (sent c ++ [(tag, r')]) c) = answers n c) as E.
  { intros n. rewrite answers_app, filter_cons, decide_False by (simpl; eauto). by rewrite app_nil_r. }
  split; intros n; rewrite E; [apply H1|apply H2].
Qed.

(** The task of message [n] ends with a response to its id. *)
Lemma answer_part_answer n t r c :
  answer_part c -> pending_tasks c !! n = Some t -> response_id r = id_or_null t ->
  answer_part (answer n t r c).
Proof.
  intros [H1 H2] Hn Hid. unfold answer.
  assert (exists d, received c !! n = Some d) as [d Hd].
  { destruct (received c !! n) eqn:E; [eauto|]. apply lookup_ge_None in E. destruct (H1 n E). congruence. }
  pose proof (H2 n d Hd) as Hnd. rewrite Hn in Hnd. destruct Hnd as [Hans Htid].
  destruct (t_id t) as [i|] eqn:Hti.
  - destruct (send_spec (Some n) r c) as (r' & Hid' & ->).
    assert (forall k, answers k (set_pending (delete n (pending_tasks c)) (set_sent (sent c ++ [(Some n, r')]) c))
             = answers k c ++ if decide (k = n) then [r'] else []) as E.
    { intros k. unfold answers. simpl. rewrite filter_app, fmap_app. f_equal. rewrite filter_cons. simpl.
      repeat case_decide; simplify_eq; done. }
    split; intros k; [intros Hk; specialize (H1 k Hk)|intros d' Hd'; specialize (H2 k d' Hd')]; simpl in *; rewrite E; case_decide; subst.
    + destruct H1. congruence.
    + rewrite app_nil_r, lookup_delete_ne by done. done.
    + rewrite lookup_delete_eq, Hans. simpl. assert (d' = d) as -> by congruence. rewrite <-Htid. left. exists r'. split; [done|].
      rewrite Hid', Hid. unfold id_or_null. by rewrite Hti.
    + rewrite app_nil_r, lookup_delete_ne by done. done.
  - split; intros k; [intros Hk; specialize (H1 k Hk)|intros d' Hd'; specialize (H2 k d' Hd')]; simpl in *;
      (destruct (decide (k = n)) as [->|Hne]; [rewrite lookup_delete_eq|rewrite lookup_delete_ne by done; done]).
    + destruct H1. congruence.
    + assert (d' = d) as -> by congruence. by rewrite <-Htid.
Qed.

Lemma answer_part_same c c' :
  received c' = received c -> pending_tasks c' = pending_tasks c -> sent c' = sent c -> is_open c' = is_open c ->
  answer_part c -> answer_part c'.
Proof. intros E1 E2 E3 E4 [H1 H2]. split; unfold answers; rewrite E1, E2, E3, ?E4; [apply H1|apply H2]. Qed.

Lemma answer_part_leave code c : answer_part c -> answer_part (leave code c).
Proof.
  intros [H1 H2]. split; [apply H1|]. intros n d Hd. specialize (H2 n d Hd). simpl. change (answers n (leave code c)) with (answers n c).
  destruct (pending_tasks c !! n); [done|]. unfold answered in *. destruct (Dict.get "id" d); [|done]. naive_solver.
Qed.

(** The task of message [n] changes without changing its id. *)
Lemma answer_part_update n t t' c :
  answer_part c -> pending_tasks c !! n = Some t -> t_id t' = t_id t ->
  answer_part (set_pending (<[n := t']> (pending_tasks c)) c).
Proof.
  intros [H1 H2] Hn Hid. split; simpl.
  - intros k Hk. destruct (decide (k = n)) as [->|Hne]; [destruct (H1 n Hk); congruence|]. rewrite lookup_insert_ne by done. by apply H1.
  - intros k d Hd. specialize (H2 k d Hd). destruct (decide (k = n)) as [->|Hne].
    + rewrite lookup_insert_eq. rewrite Hn in H2. by rewrite Hid.
    + by rewrite lookup_insert_ne.
Qed.

Lemma answer_part_cancel n c : answer_part c -> is_open c = false -> answer_part (set_pending (delete n (pending_tasks c)) c).
Proof.
  intros [H1 H2] Ho. split; simpl.
  - intros k Hk. destruct (H1 k Hk) as [Hpk ?]. split; [|done]. rewrite lookup_delete_None. auto.
  - intros k d Hd. specialize (H2 k d Hd). destruct (decide (k = n)) as [->|Hne].
    + rewrite lookup_delete_eq. change (answers n (set_pending _ c)) with (answers n c).
      destruct (pending_tasks c !! n) as [t|]; [|done]. destruct H2 as [-> _]. unfold answered. destruct (Dict.get "id" d); auto.
    + by rewrite lookup_delete_ne.
Qed.

Lemma received_snoc {A} (l : list A) x n d : (l ++ [x]) !! n = Some d -> l !! n = Some d /\ n < length l \/ n = length l /\ d = x.
Proof.
  intros H. apply lookup_app_Some in H as [H|[Hle H]]; [left; split; [done|by apply lookup_lt_Some in H]|].
  apply list_lookup_singleton_Some in H as [? ->]. right. split; [lia|done].
Qed.

Lemma conn_inv_message methods message c : conn_inv c -> is_open c = true -> conn_inv (process_message methods message c).
Proof.
  intros [Hs Ha] Ho. pose proof Ha as [H1 H2]. set (n := length (received c)).
  destruct (H1 n ltac:(done)) as [Hpn Han].
  assert (forall code text, answer_part
    (match Dict.get "id" message with
     | Some id_ => send (Some n) (RError id_ code text None) (set_received (received c ++ [message]) c)
     | None => set_received (received c ++ [message]) c
     end)) as Hreply.
  { intros code text. destruct (Dict.get "id" message) as [i|] eqn:Hi.
    - destruct (send_spec (Some n) (RError i code text None) (set_received (received c ++ [message]) c)) as (r & Hr & ->).
      assert (forall k, answers k (set_sent (sent c ++ [(Some n, r)]) (set_received (received c ++ [message]) c))
               = answers k c ++ if decide (k = n) then [r] else []) as E.
      { intros k. unfold answers. simpl. rewrite filter_app, fmap_app. f_equal. rewrite filter_cons. simpl.
        repeat case_decide; simplify_eq; done. }
      split; simpl; intros k; rewrite E.
      + rewrite length_app. simpl. intros Hk. rewrite decide_False, app_nil_r by lia. apply H1. lia.
      + intros d [[Hd Hk]|[-> ->]]%received_snoc.
        * rewrite decide_False, app_nil_r by (unfold n; lia). by apply H2.
        * fold n. rewrite Hpn, decide_True, Han by done. rewrite Hi. left. by exists r.
    - split; simpl; intros k; change (answers k (set_received _ c)) with (answers k c).
      + rewrite length_app. simpl. intros Hk. apply H1. lia.
      + intros d [[Hd Hk]|[-> ->]]%received_snoc; [by apply H2|]. fold n. by rewrite Hpn, Hi. }
  unfold process_message. fold n. destruct (validate_message message) as [[name params]|e]; [destruct (methods name) as [m|]|].
  - split; simpl.
    + apply (sem_part_change (softhardsemaphore c) _ (pending_tasks c) _ n (is_open c) (is_open c)); try done.
      * rewrite holders_insert by done. simpl. apply Hs.
      * intros k Hk. by rewrite lookup_insert_ne.
      * rewrite lookup_insert_eq. rewrite (sp_waiting _ _ _ Hs). rewrite Hpn. naive_solver.
    + split; simpl; intros k; change (answers k (set_pending _ _)) with (answers k c).
      * rewrite length_app. simpl. intros Hk. rewrite lookup_insert_ne by (unfold n; lia). apply H1. lia.
      * intros d [[Hd Hk]|[-> ->]]%received_snoc; [rewrite lookup_insert_ne by (unfold n; lia); by apply H2|].
        fold n. by rewrite lookup_insert_eq.
  - split; [|apply Hreply]. by destruct (Dict.get "id" message).
  - split; [|apply Hreply]. by destruct (Dict.get "id" message).
Qed.

Lemma conn_inv_new : conn_inv new_conn.
Proof.
  split; [|by split].  split; [|done|].
  - assert (holders ∅ = 0) as E by (unfold holders; by rewrite map_filter_empty, map_size_empty).
    constructor; simpl; rewrite ?E; auto; [by apply NoDup_nil|unfold woken; simpl; lia..].
  - intros n. simpl. split; [by intros ?%elem_of_nil|by intros (t & Ht & _); rewrite lookup_empty in Ht].
Qed.
End answers.
