(* ===== verification/RpcProps.v ===== *)
(** * Properties of the JSON-RPC server (of Rpc.v)

    Over every interleaving of the clients' messages, the segments of the calls
    in progress, the operations of the method bodies on the sessions, and the
    ends of connections. *)

From stdpp Require Import relations.
From S2P Require Import Prelude PyDict PyStr PyVal Errors Roles Allowlist Privilege Origin RateLimit AuthLevels Authenticator Sessions Login SessionInv SessionProps Rpc RpcInv.

Section props.
Context {HL : RpcLib} {HP : PamStack} (check_unixhash : string -> string -> bool) (rounds : nat) (jobs : job_check)
  (ENOTAUTHENTICATED : Z) (methods : string -> option rpc_method).

Notation exec := (rpc_exec check_unixhash rounds jobs ENOTAUTHENTICATED methods).
Notation reachable := (rpc_reachable check_unixhash rounds jobs ENOTAUTHENTICATED methods).

(** ** The invariant *)

Definition server_inv (s : server) : Prop := forall sid c, sv_conns s !! sid = Some c -> conn_inv c.

Lemma server_inv_conn sid c s : server_inv s -> conn_inv c -> server_inv (set_conn sid c s).
Proof.
  intros Hs Hc sid' c'. simpl. destruct (decide (sid' = sid)) as [->|Hne].
  - rewrite lookup_insert_eq. by intros [= <-].
  - rewrite lookup_insert_ne by done. apply Hs.
Qed.

Lemma server_inv_world w s : server_inv s -> server_inv (set_world w s).
Proof. done. Qed.

Lemma server_inv_count sid m s : server_inv s -> server_inv (count_external sid m s).
Proof. unfold count_external. by destruct (is_external_call _). Qed.

(** What a segment of the task of message [n] does to its connection. *)
Inductive segment (n : nat) (c : conn) : conn -> Prop :=
| SegRefused t r : pending_tasks c !! n = Some t -> is_open c = true -> t_phase t = TCreated ->
    aenter n (softhardsemaphore c) = None -> response_id r = id_or_null t -> segment n c (answer n t r c)
| SegEnter t sem (got : bool) : pending_tasks c !! n = Some t -> is_open c = true -> t_phase t = TCreated ->
    aenter n (softhardsemaphore c) = Some (sem, got) ->
    segment n c (set_pending (<[n := set_phase (if got then TAcquired else TWaiting) t]> (pending_tasks c)) (set_semaphore sem c))
| SegResume t : pending_tasks c !! n = Some t -> is_open c = true -> Dict.get n (waiters (softhardsemaphore c)) = Some true ->
    segment n c (set_pending (<[n := set_phase TAcquired t]> (pending_tasks c)) (set_semaphore (sem_resume n (softhardsemaphore c)) c))
| SegBegin t params : pending_tasks c !! n = Some t -> t_phase t = TAcquired ->
    segment n c (set_pending (<[n := mkTask (t_id t) (t_method t) params TRunning]> (pending_tasks c)) c)
| SegEnd t r : pending_tasks c !! n = Some t -> holds t = true -> response_id r = id_or_null t ->
    segment n c (answer n t r (set_semaphore (aexit (softhardsemaphore c)) c)).

Lemma answer_fields n t r c :
  softhardsemaphore (answer n t r c) = softhardsemaphore c /\ pending_tasks (answer n t r c) = delete n (pending_tasks c) /\
  is_open (answer n t r c) = is_open c /\ received (answer n t r c) = received c.
Proof. unfold answer. by destruct (t_id t). Qed.

Lemma segment_inv n c c' : segment n c c' -> conn_inv c -> conn_inv c' /\ is_open c' = is_open c /\ received c' = received c.
Proof.
  intros Hseg [Hs Ha]. unfold conn_inv. destruct Hseg as [t r Hn Ho Hp He Hr|t sem got Hn Ho Hp He|t Hn Ho Hg|t params Hn Hp|t r Hn Hh Hr].
  - destruct (answer_fields n t r c) as (-> & -> & -> & ->). split; [|done]. split; [by eapply sem_part_created|].
    by apply answer_part_answer.
  - split; [|done]. split; [by eapply sem_part_enter|]. by apply (answer_part_update n t _ (set_semaphore sem c));
      [apply (answer_part_same c)|..].
  - split; [|done]. split; [by eapply sem_part_resume|]. by apply (answer_part_update n t _ (set_semaphore _ c));
      [apply (answer_part_same c)|..].
  - split; [|done]. split; [|by apply (answer_part_update n t)].
    apply (sem_part_same _ (pending_tasks c) _ n t (mkTask (t_id t) (t_method t) params TRunning)); [done..|congruence| |done|done]. unfold holds. simpl. by rewrite Hp.
  - destruct (answer_fields n t r (set_semaphore (aexit (softhardsemaphore c)) c)) as (-> & -> & -> & ->).
    split; [|done]. split; [by eapply sem_part_exit|]. by apply answer_part_answer; [apply (answer_part_same c)|..].
Qed.

(** Each segment of [process_method_call] is one of these. *)
Definition task_label (sid : string) (n : nat) (l : label) : Prop :=
  match l with
  | Start sid' n' | Resume sid' n' | BeginCall sid' n' | EndCall sid' n' _ => sid' = sid /\ n' = n
  | _ => False
  end.

Lemma call_response_id c i r : response_id (call_response c i r) = i.
Proof. by destruct r as [v|[]]. Qed.

Lemma task_segment cf sid n l s s' : task_label sid n l -> exec cf l s = Some s' ->
  exists c c', sv_conns s !! sid = Some c /\ segment n c c' /\ sv_conns s' = <[sid := c']> (sv_conns s).
Proof.
  destruct l; simpl; try done; intros [-> ->]; unfold start, resume, begin_call, end_call;
    intros (c & Hc & (t & Ht & Hx)%bind_Some)%bind_Some; exists c.
  - destruct (is_open c) eqn:Ho; [|done]. case_bool_decide as Hp; [|done]. simpl in Hx.
    assert (sv_conns (count_external sid (t_method t) s) = sv_conns s) as E
      by (unfold count_external; by destruct (is_external_call _)).
    destruct (aenter n (softhardsemaphore c)) as [[sem got]|] eqn:He; injection Hx as <-; simpl; rewrite E;
      eexists; (split; [done|split; [|done]]); [by eapply SegEnter|by eapply SegRefused].
  - destruct (is_open c) eqn:Ho; [|done]. case_bool_decide as Hg; [|done]. simpl in Hx. injection Hx as <-.
    eexists; (split; [done|split; [|done]]). by eapply SegResume.
  - case_bool_decide as Hp; [|done]. simpl in Hx. assert (holds t = true) as Hh by (unfold holds; by rewrite Hp).
    destruct (rm_adapt_params _ _) as [params|e]; [destruct (authorize_method_call _ _ _ _ _ _) as [w [[]|e]]|]; injection Hx as <-;
      eexists; (split; [done|split; [|done]]); [by eapply SegBegin|by eapply SegEnd, call_response_id..].
  - case_bool_decide as Hp; [|done]. simpl in Hx. assert (holds t = true) as Hh by (unfold holds; by rewrite Hp).
    injection Hx as <-. eexists; (split; [done|split; [|done]]). by eapply SegEnd, call_response_id.
Qed.

Lemma rpc_exec_inv cf l s s' : server_inv s -> exec cf l s = Some s' -> server_inv s'.
Proof.
  intros Hs Hex.
  assert (forall sid n, task_label sid n l -> server_inv s') as Htask.
  { intros sid n Hl. destruct (task_segment cf sid n l s s' Hl Hex) as (c & c' & Hc & Hseg & E).
    destruct (segment_inv n c c' Hseg (Hs _ _ Hc)) as [Hi _]. intros sid' c2. rewrite E. by apply (server_inv_conn sid c' s). }
  destruct l as [sid origin allowed|sid m|sid n|sid n|sid n|sid n o|sid n|sid|sid|sid l p e|o]; try by eapply Htask; split.
  - simpl in Hex. unfold accept in Hex. destruct allowed; simpl in Hex; [|by injection Hex as <-].
    destruct (apps _ !! _), (sv_conns s !! sid); try done. injection Hex as <-. apply server_inv_conn; [done|apply conn_inv_new].
  - apply bind_Some in Hex as (c & Hc & Hx). pose proof (Hs _ _ Hc) as Hi. destruct (is_open c) eqn:Ho; simpl in Hx; [|done].
    assert (forall code, conn_inv (leave code c)) as Hleave
      by (intros code; split; [apply (sem_part_weaken _ _ (is_open c)), Hi|apply answer_part_leave, Hi]).
    destruct m as [data| |t]; [destruct (parse_message _ _ _) as [message|[e|e|e]]|..]; injection Hx as <-;
      apply server_inv_conn; auto using conn_inv_message.
    destruct Hi as [H1 H2]. split; [|by apply answer_part_send]. by destruct (send_spec None (RError VNull INVALID_JSON e None) c) as (r & _ & ->).
  - apply bind_Some in Hex as (c & Hc & (t & Ht & Hx)%bind_Some). destruct (is_open c) eqn:Ho; [done|]. injection Hx as <-.
    destruct (Hs _ _ Hc) as [Hsem Hans]. apply server_inv_conn; [done|]. split.
    + simpl. rewrite Ho in *. destruct (t_phase t) eqn:Hp.
      * by eapply sem_part_created.
      * by eapply sem_part_cancel.
      * eapply sem_part_exit; [done..|]. unfold holds. by rewrite Hp.
      * eapply sem_part_exit; [done..|]. unfold holds. by rewrite Hp.
    + apply (answer_part_cancel n (set_semaphore _ c)); [|done]. by apply (answer_part_same c).
  - apply bind_Some in Hex as (c & Hc & Hx). destruct (is_open c) eqn:Ho; [|done]. injection Hx as <-.
    apply server_inv_conn; [done|]. destruct (Hs _ _ Hc) as [H1 H2].
    split; [by apply (sem_part_weaken _ _ (is_open c))|by apply answer_part_leave].
  - apply bind_Some in Hex as (c & Hc & Hx). destruct (_ || _); [done|]. injection Hx as <-.
    intros sid' c'. simpl. intros [_ ?]%lookup_delete_Some. by eapply Hs.
  - apply bind_Some in Hex as (c & Hc & Hx). injection Hx as <-. apply server_inv_conn; [done|].
    destruct (Hs _ _ Hc) as [H1 H2]. split; [done|by apply (answer_part_same c)].
  - simpl in Hex. destruct (body_op o); [|done]. by injection Hex as <-.
Qed.

Lemma reachable_server_inv s : reachable s -> server_inv s.
Proof.
  apply reachable_invariant; [intros ? -> sid c; simpl; by rewrite lookup_empty|].
  intros s1 s2 Hi (cf & l & Hex). by eapply rpc_exec_inv.
Qed.

(** ** The sessions of the server *)

(** Whatever the server does to the sessions is a history of the operations of
    [Login]. *)
Lemma server_history s : reachable s ->
  exists h, sv_world s = exec_all check_unixhash rounds jobs ENOTAUTHENTICATED h initial_world.
Proof.
  intros Hr. induction Hr as [s ->|s1 s2 _ [h Hh] (cf & l & Hex)]; [by exists []|].
  enough (sv_world s2 = sv_world s1 \/ exists o, sv_world s2 = Login.exec check_unixhash rounds jobs ENOTAUTHENTICATED cf o (sv_world s1)) as [E|[o E]].
  - exists h. congruence.
  - exists (h ++ [(cf, o)]). unfold exec_all. rewrite foldl_snoc. rewrite E, Hh. done.
  - destruct l as [sid origin allowed|sid m|sid n|sid n|sid n|sid n o|sid n|sid|sid|sid l p e|o]; simpl in Hex.
    + unfold accept in Hex. destruct allowed; simpl in Hex; [|injection Hex as <-; by left].
      destruct (apps _ !! _), (sv_conns s1 !! sid); try done. injection Hex as <-. right. by exists (Connect sid origin).
    + apply bind_Some in Hex as (c & Hc & Hx). destruct (is_open c); simpl in Hx; [|done].
      destruct m as [data| |t]; [destruct (parse_message _ _ _) as [message|[e|e|e]]|..]; injection Hx as <-; [|by left..].
      right. by exists (Message sid).
    + apply bind_Some in Hex as (c & Hc & (t & Ht & Hx)%bind_Some). destruct (_ && _); [|done]. simpl in Hx. left.
      assert (sv_world (count_external sid (t_method t) s1) = sv_world s1) as E by (unfold count_external; by destruct (is_external_call _)).
      destruct (aenter _ _) as [[sem got]|]; injection Hx as <-; done.
    + apply bind_Some in Hex as (c & Hc & (t & Ht & Hx)%bind_Some). destruct (_ && _); [|done]. injection Hx as <-. by left.
    + apply bind_Some in Hex as (c & Hc & (t & Ht & Hx)%bind_Some). destruct (bool_decide _); [|done]. simpl in Hx.
      destruct (rm_adapt_params _ _) as [params|e]; [|injection Hx as <-; by left].
      right. exists (AuthorizeCall sid (rm_name (t_method t)) (rm_object (t_method t))). simpl.
      destruct (authorize_method_call _ _ _ _ _ _) as [w [[]|e]]; by injection Hx as <-.
    + apply bind_Some in Hex as (c & Hc & (t & Ht & Hx)%bind_Some). destruct (bool_decide _); [|done]. injection Hx as <-. by left.
    + apply bind_Some in Hex as (c & Hc & (t & Ht & Hx)%bind_Some). destruct (is_open c); [done|]. injection Hx as <-. by left.
    + apply bind_Some in Hex as (c & Hc & Hx). destruct (is_open c); [|done]. injection Hx as <-. by left.
    + apply bind_Some in Hex as (c & Hc & Hx). destruct (_ || _); [done|]. injection Hx as <-. right. by exists (Close sid).
    + apply bind_Some in Hex as (c & Hc & Hx). injection Hx as <-. by left.
    + destruct (body_op o); [|done]. injection Hex as <-. right. by exists o.
Qed.

(** ** Theorems *)

(** C12: Each request is answered once: the messages a connection received that
    carry an id get at most one response, with that id, and on an open connection
    exactly one as soon as their call is over; messages without an id get none. *)
Theorem rpc_answers_once (s : server) (sid : string) (c : conn) (n : nat) (d : list (string * value))
  (Hr : reachable s) (Hc : sv_conns s !! sid = Some c) (Hd : received c !! n = Some d) :
  match Dict.get "id" d with
  | None => answers n c = []
  | Some i =>
      Forall (fun r => response_id r = i) (answers n c) /\ length (answers n c) <= 1 /\
      (is_open c = true -> length (answers n c) = 1 <-> pending_tasks c !! n = None)
  end.
Proof.
  destruct (reachable_server_inv s Hr sid c Hc) as [_ [_ Ha]]. specialize (Ha n d Hd). unfold answered in Ha.
  destruct (pending_tasks c !! n) as [t|], (Dict.get "id" d) as [i|]; try tauto.
  - destruct Ha as [-> _]. split_and!; [done|simpl; lia|done].
  - destruct Ha as [(r & -> & Hr')|[Ho ->]]; [split_and!; [by constructor|done..]|].
    split_and!; [done|simpl; lia|congruence].
Qed.

(** C33: At most ten calls of a connection run at the same time and at most
    twenty are in progress; a call that is started while twenty are in progress
    is answered with an error at once, and any other one gets or awaits its
    turn without a response. *)
Theorem rpc_concurrency_bounded (s : server) (sid : string) (c : conn) (Hr : reachable s) (Hc : sv_conns s !! sid = Some c) :
  holders (pending_tasks c) <= 10 /\
  holders (pending_tasks c) + length (waiters (softhardsemaphore c)) <= 20 /\
  forall n t, is_open c = true -> pending_tasks c !! n = Some t -> t_phase t = TCreated ->
    exists s' c', start sid n s = Some s' /\ sv_conns s' !! sid = Some c' /\
      if decide (holders (pending_tasks c) + length (waiters (softhardsemaphore c)) = 20)
      then c' = answer n t (RError (id_or_null t) TRUENAS_TOO_MANY_CONCURRENT_CALLS
                              "Maximum number of concurrent calls (20) has exceeded" None) c
      else sent c' = sent c /\ exists t', pending_tasks c' !! n = Some t' /\ t_phase t' ∈ [TAcquired; TWaiting].
Proof.
  destruct (reachable_server_inv s Hr sid c Hc) as [[Hi [Hl1 Hl2] Hw] _]. pose proof (si_value _ _ _ Hi). pose proof (si_counter _ _ _ Hi).
  split; [lia|split; [lia|]]. intros n t Ho Hn Hp. rewrite Ho in Hi. pose proof (si_exact _ _ _ Hi eq_refl) as Hex.
  unfold start. rewrite Hc. simpl. rewrite Hn. simpl. rewrite Ho, bool_decide_true by done. simpl.
  unfold aenter. rewrite Hl2, Hex. case_decide as H20.
  - rewrite H20. simpl. do 2 eexists. split; [done|]. simpl. rewrite lookup_insert_eq. split; [done|].
    unfold too_many. by rewrite Hl2.
  - destruct (Nat.leb_spec 20 (holders (pending_tasks c) + length (waiters (softhardsemaphore c)))); [lia|].
    destruct (sem_acquire n _) as [sem got]. do 2 eexists. split; [done|]. simpl. rewrite lookup_insert_eq.
    split; [done|split; [done|]]. eexists. simpl. rewrite lookup_insert_eq. split; [done|]. destruct got; set_solver.
Qed.

(** *** Every call ends *)

Definition task_step (sid : string) (s s' : server) : Prop := exists cf l n, task_label sid n l /\ exec cf l s = Some s'.

Definition rank (p : phase) : nat := match p with TCreated => 4 | TWaiting => 3 | TAcquired => 2 | TRunning => 1 end.
Definition rank_of (c : conn) (n : nat) : nat := match pending_tasks c !! n with Some t => rank (t_phase t) | None => 0 end.
Definition work (c : conn) : nat := sum_list_with (rank_of c) (seq 0 (length (received c))).

Lemma segment_work n c c' : conn_inv c -> segment n c c' -> work c' < work c.
Proof.
  intros Hi Hseg. destruct (segment_inv n c c' Hseg Hi) as (_ & _ & Hrec). unfold work. rewrite Hrec.
  assert (exists t, pending_tasks c !! n = Some t /\ rank_of c' n < rank (t_phase t) /\
          forall k, k ≠ n -> rank_of c' k = rank_of c k) as (t & Hn & Hlt & Hk).
  { unfold rank_of.
    destruct Hseg as [t r Hn Ho Hp He Hr|t sem got Hn Ho Hp He|t Hn Ho Hg|t params Hn Hp|t r Hn Hh Hr]; exists t; (split; [done|]).
    - destruct (answer_fields n t r c) as (_ & -> & _). rewrite lookup_delete_eq, Hp. simpl. split; [lia|].
      intros k Hne. by rewrite lookup_delete_ne.
    - simpl. rewrite lookup_insert_eq, Hp. split; [destruct got; simpl; lia|]. intros k Hne. by rewrite lookup_insert_ne.
    - simpl. rewrite lookup_insert_eq. destruct Hi as [Hs _].
      assert (n ∈ Dict.keys (waiters (softhardsemaphore c))) as (t' & Ht & Hp)%(sp_waiting _ _ _ Hs) by (apply Dict.get_is_Some; eauto).
      assert (t' = t) as -> by congruence. rewrite Hp. simpl. split; [lia|]. intros k Hne. by rewrite lookup_insert_ne.
    - simpl. rewrite lookup_insert_eq, Hp. simpl. split; [lia|]. intros k Hne. by rewrite lookup_insert_ne.
    - destruct (answer_fields n t r (set_semaphore (aexit (softhardsemaphore c)) c)) as (_ & -> & _). simpl. rewrite lookup_delete_eq.
      split; [unfold holds in Hh; destruct (t_phase t); simpl; done || lia|]. intros k Hne. by rewrite lookup_delete_ne. }
  destruct Hi as [_ [Hlate _]].
  assert (rank_of c n = rank (t_phase t)) as E by (unfold rank_of; by rewrite Hn).
  apply (sum_decreases _ _ _ n).
  - apply elem_of_seq. split; [lia|]. destruct (decide (length (received c) <= n)) as [Hle|]; [|lia].
    destruct (Hlate n Hle). congruence.
  - lia.
  - intros k. destruct (decide (k = n)) as [->|Hne]; [lia|]. by rewrite Hk.
Qed.

(** Nothing is stuck: while a call is pending a segment of some call can run. *)
Lemma task_progress (cf : config) sid s c n : server_inv s -> sv_conns s !! sid = Some c -> is_open c = true -> is_Some (pending_tasks c !! n) ->
  exists s', task_step sid s s'.
Proof.
  intros Hs Hc Ho [t Ht]. destruct (Hs _ _ Hc) as [[Hi [Hl1 Hl2] Hw] _].
  assert (forall cf l n s', task_label sid n l -> exec cf l s = Some s' -> exists s', task_step sid s s') as Hdo by (unfold task_step; eauto 6).
  assert (forall k t, pending_tasks c !! k = Some t -> t_phase t ≠ TWaiting -> exists s', task_step sid s s') as Hrun.
  { intros k t' Ht' Hp. destruct (t_phase t') eqn:Hph; [| done | |].
    - destruct (start sid k s) as [s'|] eqn:Hx; [apply (Hdo cf (Start sid k) k s'); done|]. exfalso.
      unfold start in Hx. rewrite Hc in Hx. simpl in Hx. rewrite Ht' in Hx. simpl in Hx. rewrite Ho, Hph in Hx. simpl in Hx.
      by destruct (aenter _ _) as [[]|].
    - destruct (begin_call ENOTAUTHENTICATED cf sid k s) as [s'|] eqn:Hx; [apply (Hdo cf (BeginCall sid k) k s'); done|]. exfalso.
      unfold begin_call in Hx. rewrite Hc in Hx. simpl in Hx. rewrite Ht' in Hx. simpl in Hx. rewrite Hph in Hx. simpl in Hx.
      destruct (rm_adapt_params _ _); [|done]. by destruct (authorize_method_call _ _ _ _ _ _) as [w []].
    - destruct (end_call sid k (OReturn VNull) s) as [s'|] eqn:Hx; [apply (Hdo cf (EndCall sid k (OReturn VNull)) k s'); done|]. exfalso.
      unfold end_call in Hx. rewrite Hc in Hx. simpl in Hx. rewrite Ht' in Hx. simpl in Hx. by rewrite Hph in Hx. }
  destruct (decide (t_phase t = TWaiting)) as [Hp|]; [|by eauto].
  destruct (decide (holders (pending_tasks c) = 0)) as [Hz|Hnz].
  - assert (0 < woken (waiters (softhardsemaphore c))) as Hwk.
    { assert (n ∈ Dict.keys (waiters (softhardsemaphore c))) as Hin by (apply Hw; eauto).
      pose proof (woken_asleep (waiters (softhardsemaphore c))). pose proof (si_value _ _ _ Hi). pose proof (si_wake _ _ _ Hi).
      assert (0 < length (waiters (softhardsemaphore c))) by (unfold Dict.keys in Hin; destruct (waiters _); simpl; [by apply elem_of_nil in Hin|lia]).
      lia. }
    unfold woken in Hwk. destruct (filter _ _) as [|[k b] l] eqn:Hf; [simpl in Hwk; lia|].
    assert ((k, b) ∈ filter (fun x => x.2 = true) (waiters (softhardsemaphore c))) as [Hb Hin]%list_elem_of_filter by (rewrite Hf; set_solver).
    simpl in Hb. subst b. apply Dict.elem_get in Hin; [|apply Hi].
    assert (k ∈ Dict.keys (waiters (softhardsemaphore c))) as (t' & Ht' & _)%Hw by (apply Dict.get_is_Some; eauto).
    destruct (resume sid k s) as [s'|] eqn:Hx; [by apply (Hdo cf (Resume sid k) k s')|]. exfalso.
    unfold resume in Hx. rewrite Hc in Hx. simpl in Hx. rewrite Ht' in Hx. simpl in Hx. by rewrite Ho, bool_decide_true in Hx.
  - unfold holders in Hnz. apply map_size_ne_0_lookup in Hnz as (k & t' & [Ht' Hh]%map_lookup_filter_Some).
    apply (Hrun k t' Ht'). simpl in Hh. intros E. unfold holds in Hh. by rewrite E in Hh.
Qed.

Lemma task_step_spec sid s s' c : server_inv s -> sv_conns s !! sid = Some c -> task_step sid s s' ->
  server_inv s' /\ exists c', sv_conns s' !! sid = Some c' /\ is_open c' = is_open c /\ received c' = received c /\ work c' < work c.
Proof.
  intros Hs Hc (cf & l & n & Hl & Hex). split; [by eapply rpc_exec_inv|].
  destruct (task_segment cf sid n l s s' Hl Hex) as (c1 & c' & Hc1 & Hseg & E). simplify_eq.
  destruct (segment_inv n c c' Hseg (Hs _ _ Hc)) as (_ & Ho & Hrec).
  exists c'. rewrite E, lookup_insert_eq. split_and!; [done..|]. by apply (segment_work n c c'); [apply (Hs sid)|].
Qed.

(** C13: Every request is answered: on an open connection the calls in progress
    never block each other for ever.  Their segments run at most as often as the
    work left says, in any order, and when none is left to run all requests of
    the connection have their one response. *)
Theorem rpc_every_request_answered (cf : config) (s : server) (sid : string) (c : conn)
  (Hr : reachable s) (Hc : sv_conns s !! sid = Some c) (Ho : is_open c = true) :
  (forall k s', nsteps (task_step sid) k s s' -> k <= work c) /\
  (forall s', rtc (task_step sid) s s' -> (forall s'', ~ task_step sid s' s'') ->
    exists c', sv_conns s' !! sid = Some c' /\ received c' = received c /\
      forall n d i, received c' !! n = Some d -> Dict.get "id" d = Some i ->
        exists r, answers n c' = [r] /\ response_id r = i).
Proof.
  pose proof (reachable_server_inv s Hr) as Hs. clear Hr. split.
  - intros k s' Hn. revert c Hs Hc Ho. induction Hn as [s|k s s1 s' H1 _ IH]; intros c Hs Hc Ho; [lia|].
    destruct (task_step_spec sid s s1 c Hs Hc H1) as (Hs1 & c1 & Hc1 & Ho1 & _ & Hlt).
    specialize (IH c1 Hs1 Hc1 ltac:(congruence)). lia.
  - intros s' Hsteps. revert c Hs Hc Ho. induction Hsteps as [s|s s1 s' H1 _ IH]; intros c Hs Hc Ho Hstop.
    + exists c. split_and!; [done..|]. intros n d i Hd Hi. destruct (Hs _ _ Hc) as [_ [_ Ha]]. specialize (Ha n d Hd).
      destruct (pending_tasks c !! n) as [t|] eqn:Hn.
      * destruct (task_progress cf sid s c n Hs Hc Ho ltac:(eauto)) as [s' Hst]. by destruct (Hstop s').
      * rewrite Hi in Ha. destruct Ha as [Ha|[Ha _]]; [done|congruence].
    + destruct (task_step_spec sid s s1 c Hs Hc H1) as (Hs1 & c1 & Hc1 & Ho1 & Hrec & _).
      destruct (IH c1 Hs1 Hc1 ltac:(congruence) Hstop) as (c' & H2 & H3 & H4). exists c'. split_and!; [done|congruence|done].
Qed.

(** C14: Nothing runs unauthorized: the body of a method that requires
    authorization starts only for a connection whose session, reached by a history
    of logins and other session operations, has credentials that authorize the
    call at that moment. *)
Theorem rpc_calls_authorized (cf : config) (s s' : server) (sid : string) (n : nat) (c' : conn) (t : task)
  (Hr : reachable s) (Hstep : exec cf (BeginCall sid n) s = Some s')
  (Hc : sv_conns s' !! sid = Some c') (Ht : pending_tasks c' !! n = Some t)
  (Hauth : _no_auth_required (rm_object (t_method t)) = false) (Hauthz : _no_authz_required (rm_object (t_method t)) = false) :
  exists h r, sv_world s = exec_all check_unixhash rounds jobs ENOTAUTHENTICATED h initial_world /\
    app_cred (sv_world s) sid = Some r /\
    cred_authorizes (os_now (cf_os cf)) (sv_world s) "CALL" (rm_name (t_method t)) r = true.
Proof.
  destruct (server_history s Hr) as [h Hh]. exists h.
  apply bind_Some in Hstep as (c & Hc0 & (t0 & Ht0 & Hx)%bind_Some).
  assert (forall w e s1, Some (conclude sid n t0 (Err e) c (set_world w s)) = Some s1 -> s1 = s' -> False) as Hno.
  { intros w e s1 [= <-] <-. unfold conclude in Hc. simpl in Hc. rewrite lookup_insert_eq in Hc. injection Hc as <-.
    rewrite (proj1 (proj2 (answer_fields _ _ _ _))), lookup_delete_eq in Ht. done. }
  case_bool_decide as Hp; [|done]. simpl in Hx.
  destruct (rm_adapt_params _ _) as [params|e]; [|by destruct (Hno (sv_world s) e s')].
  destruct (authorize_method_call _ _ _ _ _ _) as [w [[]|e]] eqn:Ha; [|by destruct (Hno w e s')].
  injection Hx as <-. simpl in Hc. rewrite lookup_insert_eq in Hc. injection Hc as <-. simpl in Ht. rewrite lookup_insert_eq in Ht.
  injection Ht as <-. simpl in *.
  unfold authorize_method_call in Ha. apply ste_bind_ok in Ha as (a & w1 & Hget & Ha).
  unfold get_app in Hget. injection Hget as <- Hget. destruct (apps (sv_world s) !! sid) as [a'|] eqn:Hap; [|done]. injection Hget as ->.
  rewrite Hauth in Ha. destruct (a_credentials a) as [r|] eqn:Hcr.
  2: { apply ste_bind_ok in Ha as (? & ? & _ & Ha). done. }
  exists r. split; [done|]. unfold app_cred. rewrite Hap. simpl. split; [done|].
  rewrite ste_bind_gets, Hauthz, andb_false_r in Ha. unfold id in Ha.
  destruct (cred_authorizes _ _ _ _ _) eqn:Hca; [done|].
  apply ste_bind_ok in Ha as (? & ? & _ & Ha). by destruct (_ && _).
Qed.

(** The redaction of secrets is decided when a call returns, by the
    credentials the connection has then, and a connection without credentials
    gets the secrets.  A user session without full administration and without
    the write role of the service is sent the redacted result; when it logs out
    while the call runs, it is sent the result with its secrets. *)
Theorem logout_exposes_secrets (cf : config) (s : server) (sid : string) (c : conn) (n : nat) (t : task) (i v : value) (r : nat)
  (Hr : reachable s) (Hc : sv_conns s !! sid = Some c) (Ht : pending_tasks c !! n = Some t) (Hp : t_phase t = TRunning)
  (Hid : t_id t = Some i)
  (Hcred : app_cred (sv_world s) sid = Some r) (Huser : is_user_session (sv_world s) r = true)
  (Hdump : is_Some (dump_credentials (sv_world s) r))
  (Hadmin : credential_has_full_admin (sv_world s) r = false)
  (Hrole : forall p, rm_role_prefix (t_method t) = Some p -> has_role (sv_world s) (p +:+ "_WRITE") r = false) :
  let response c redact := call_response (set_semaphore (aexit (softhardsemaphore c)) c) i (rm_serialize (t_method t) redact v) in
  exec cf (EndCall sid n (OReturn v)) s =
    Some (set_conn sid (answer n t (response c false) (set_semaphore (aexit (softhardsemaphore c)) c)) s) /\
  exists s1, exec cf (Body (Logout sid)) s = Some s1 /\
    exec cf (EndCall sid n (OReturn v)) s1 =
      Some (set_conn sid (answer n t (response c true) (set_semaphore (aexit (softhardsemaphore c)) c)) s1).
Proof.
  destruct (server_history s Hr) as [h Hh].
  assert (wf (sv_world s)) as Hwf by (rewrite Hh; apply wf_exec_all, wf_initial).
  destruct (logout_ends (sv_world s) sid r Hwf Hcred Hdump) as [Hout _].
  assert (expose_secrets (sv_world s) (app_cred (sv_world s) sid) (rm_role_prefix (t_method t)) = false) as He.
  { rewrite Hcred. simpl. rewrite Huser, Hadmin. destruct (rm_role_prefix _) as [p|] eqn:Hpre; simpl; [|done].
    by rewrite (Hrole p eq_refl), andb_false_r. }
  assert (forall w, exec cf (EndCall sid n (OReturn v)) (set_world w s) =
            Some (conclude sid n t (dump_result w (app_cred w sid) (t_method t) v) c (set_world w s))) as Hend.
  { intros w. simpl. unfold end_call. simpl. rewrite Hc. simpl. rewrite Ht. simpl. by rewrite bool_decide_true. }
  intros response. subst response. split.
  - assert (set_world (sv_world s) s = s) as E by (by destruct s). rewrite <-E at 1 2. rewrite Hend.
    unfold conclude, dump_result. rewrite He, E. unfold id_or_null. by rewrite Hid.
  - assert ((logout sid (sv_world s)).1 = (session_logout sid (sv_world s)).1) as El.
    { unfold logout, mbind, ste_mbind. by destruct (session_logout sid (sv_world s)) as [w [[]|e]]. }
    eexists. split; [done|]. rewrite Hend. simpl. rewrite El. unfold conclude, dump_result, id_or_null. by rewrite Hid, Hout.
Qed.

(** A message whose method is not hashable ends the connection without a
    response and without a close frame: the look-up in the set of methods with
    large messages raises a [TypeError], which the loop does not handle. *)
Lemma unhashable_method_ends (cf : config) (s : server) (sid : string) (c : conn) (data : string) (d : list (string * value)) (m : value) :
  sv_conns s !! sid = Some c -> is_open c = true -> (Z.of_nat (String.length data) <= 8192)%Z ->
  loads data = Ok (VDict d) -> Dict.get "method" d = Some m -> is_hashable m = false ->
  exec cf (Receive sid (WSText data)) s = Some (set_conn sid (leave None c) s).
Proof.
  intros Hc Ho Hlen Hl Hm Hh. simpl. unfold receive. rewrite Hc. simpl. rewrite Ho. simpl.
  unfold parse_message, limit_value. destruct (Z.ltb_spec 8192 (Z.of_nat (String.length data))); [lia|].
  destruct (Z.ltb_spec 2097152 (Z.of_nat (String.length data))); [lia|]. rewrite andb_false_r, Hl, Hm. simpl. by rewrite Hh.
Qed.
End props.
