(* ===== verification/RpcDemo.v ===== *)
(** * Concrete connections

    A connection of the demonstration accounts of [SessionDemo], on which the
    theorems of [RpcProps] apply. *)

From stdpp Require Import relations.
From S2P Require Import Prelude PyDict PyStr PyVal Errors Roles Allowlist Privilege Origin RateLimit AuthLevels Authenticator Sessions Login SessionInv SessionProps SessionDemo Rpc RpcInv RpcProps.

Module RpcDemo.
#[local] Existing Instance Demo.demo_pam.

Definition request (id_ : option value) (name : string) : value :=
  VDict ([("jsonrpc", VStr "2.0"); ("method", VStr name)] ++ match id_ with Some i => [("id", i)] | None => [] end).

#[local] Instance demo_lib : RpcLib := {|
  loads s := if String.eqb s "query" then Ok (request (Some (VInt 7)) "pool.query") else Err "Expecting value";
  dumps_error _ := None;
  errorcode _ := None;
  mixin_errname _ := None;
  exn_repr _ := "";
  other_str _ := "";
  truenas_error_traceback _ := JNull;
  pickle_b64 _ := None;
  join_commandline _ := "";
|}.

(** The secret field of a pool, redacted when secrets are not exposed *)
Definition pool_query : rpc_method :=
  mkRpcMethod "pool.query" (mkMethod false true false false) (Some "POOL") (fun l => Ok l)
    (fun expose v => Ok (if expose then v else VStr "********")).

Definition methods (name : string) : option rpc_method := if String.eqb name "pool.query" then Some pool_query else None.

Notation rexec := (rpc_exec Demo.check 4 Demo.no_jobs Demo.ENOTAUTHENTICATED methods).
Notation rreachable := (rpc_reachable Demo.check 4 Demo.no_jobs Demo.ENOTAUTHENTICATED methods).

Definition cf : config := Demo.demo_config Demo.readonly 100.

Fixpoint rpc_run (l : list label) (s : server) : option server :=
  match l with
  | [] => Some s
  | x :: l => s ← rexec cf x s; rpc_run l s
  end.

Definition state (l : list label) : server := default initial_server (rpc_run l initial_server).
Definition conn_of (s : server) : conn := default new_conn (sv_conns s !! "s1").

Lemma rpc_run_reachable l : forall s, rreachable s -> forall s', rpc_run l s = Some s' -> rreachable s'.
Proof.
  induction l as [|x l IH]; intros s Hs s'; simpl; [by intros [= <-]|].
  intros (s1 & Hx & Hl)%bind_Some. apply (IH s1); [|done]. apply (reach_step _ _ s); [done|]. by exists cf, x.
Qed.

Lemma state_reachable l : rreachable (state l).
Proof.
  unfold state. destruct (rpc_run l initial_server) as [s|] eqn:E; simpl; [|by apply reach_init].
  apply (rpc_run_reachable l initial_server); [by apply reach_init|done].
Qed.

(** A read-only administrator logs in and calls [pool.query]. *)
Definition login_labels : list label :=
  [Accept "s1" (Demo.tcp "10.0.0.7") true; Body (LoginEx "t0" "s1" (Demo.password "alice" "secret")); Receive "s1" (WSText "query")].
Definition waiting : server := state login_labels.
Definition entered : server := state (login_labels ++ [Start "s1" 0]).
Definition running : server := state (login_labels ++ [Start "s1" 0; BeginCall "s1" 0]).
Definition ended : server := state (login_labels ++ [Start "s1" 0; BeginCall "s1" 0; EndCall "s1" 0 (OReturn (VStr "key"))]).

(** Twenty-one requests, twenty of which were started *)
Definition crowd : server :=
  state ([Accept "s1" (Demo.tcp "10.0.0.7") true] ++ replicate 21 (Receive "s1" (WSText "query")) ++ map (Start "s1") (seq 0 20)).

Lemma conn_of_set c s : conn_of (set_conn "s1" c s) = c.
Proof. unfold conn_of. simpl. by rewrite lookup_insert_eq. Qed.

Lemma is_Some_b {A} (o : option A) : match o with Some _ => true | None => false end = true -> is_Some o.
Proof. by destruct o. Qed.

Definition has_conn (s : server) : bool := match sv_conns s !! "s1" with Some _ => true | None => false end.
Lemma has_conn_spec s : has_conn s = true -> sv_conns s !! "s1" = Some (conn_of s).
Proof. unfold has_conn, conn_of. by destruct (sv_conns s !! "s1"). Qed.

Definition task_of (s : server) (n : nat) : task := default (mkTask None pool_query [] TCreated) (pending_tasks (conn_of s) !! n).
Definition has_task (s : server) (n : nat) : bool := match pending_tasks (conn_of s) !! n with Some _ => true | None => false end.
Lemma has_task_spec s n : has_task s n = true -> pending_tasks (conn_of s) !! n = Some (task_of s n).
Proof. unfold has_task, task_of. by destruct (pending_tasks _ !! n). Qed.

Definition demo_message : list (string * value) := [("jsonrpc", VStr "2.0"); ("method", VStr "pool.query"); ("id", VInt 7)].

Lemma rpc_answers_once_witness :
  Forall (fun r => response_id r = VInt 7) (answers 0 (conn_of ended)) /\ length (answers 0 (conn_of ended)) = 1.
Proof.
  pose proof (rpc_answers_once Demo.check 4 Demo.no_jobs Demo.ENOTAUTHENTICATED methods ended "s1" (conn_of ended) 0 demo_message
    (state_reachable _) ltac:(apply has_conn_spec; vm_compute; reflexivity) ltac:(vm_compute; reflexivity)) as H.
  simpl in H. destruct H as (H1 & _ & H3). split; [exact H1|]. apply H3; vm_compute; reflexivity.
Defined.

Lemma rpc_concurrency_bounded_witness :
  holders (pending_tasks (conn_of crowd)) <= 10 /\
  exists s' c', start "s1" 20 crowd = Some s' /\ sv_conns s' !! "s1" = Some c' /\
    c' = answer 20 (task_of crowd 20) (RError (VInt 7) TRUENAS_TOO_MANY_CONCURRENT_CALLS
           "Maximum number of concurrent calls (20) has exceeded" None) (conn_of crowd).
Proof.
  destruct (rpc_concurrency_bounded Demo.check 4 Demo.no_jobs Demo.ENOTAUTHENTICATED methods crowd "s1" (conn_of crowd)
    (state_reachable _) ltac:(apply has_conn_spec; vm_compute; reflexivity)) as (H1 & _ & H3). split; [exact H1|].
  destruct (H3 20 (task_of crowd 20) ltac:(vm_compute; reflexivity) ltac:(apply has_task_spec; vm_compute; reflexivity)
    ltac:(vm_compute; reflexivity)) as (s' & c' & E1 & E2 & E3).
  exists s', c'. split; [exact E1|split; [exact E2|]].
  destruct (decide _) as [_|Hn]; [|exfalso; apply Hn; vm_compute; reflexivity].
  replace (id_or_null (task_of crowd 20)) with (VInt 7) in E3 by (vm_compute; reflexivity). exact E3.
Defined.

Lemma rpc_every_request_answered_witness :
  is_open (conn_of running) = true /\
  forall k s', nsteps (task_step Demo.check 4 Demo.no_jobs Demo.ENOTAUTHENTICATED methods "s1") k running s' -> k <= 1.
Proof.
  split; [vm_compute; reflexivity|].
  replace 1 with (work (conn_of running)) by (vm_compute; reflexivity).
  apply (rpc_every_request_answered Demo.check 4 Demo.no_jobs Demo.ENOTAUTHENTICATED methods cf running "s1" (conn_of running)
    (state_reachable _)); [apply has_conn_spec; vm_compute; reflexivity|vm_compute; reflexivity].
Defined.

Lemma rpc_calls_authorized_witness :
  exists h r, sv_world entered = exec_all Demo.check 4 Demo.no_jobs Demo.ENOTAUTHENTICATED h initial_world /\
    app_cred (sv_world entered) "s1" = Some r /\ cred_authorizes 100 (sv_world entered) "CALL" "pool.query" r = true.
Proof.
  assert (rexec cf (BeginCall "s1" 0) entered = Some running) as Hstep.
  { unfold running, state, entered. vm_compute. reflexivity. }
  exact (rpc_calls_authorized Demo.check 4 Demo.no_jobs Demo.ENOTAUTHENTICATED methods cf entered running "s1" 0 (conn_of running)
    (task_of running 0) (state_reachable _) Hstep ltac:(apply has_conn_spec; vm_compute; reflexivity)
    ltac:(apply has_task_spec; vm_compute; reflexivity) ltac:(vm_compute; reflexivity) ltac:(vm_compute; reflexivity)).
Defined.

Lemma logout_exposes_secrets_witness :
  exists s1, rexec cf (Body (Logout "s1")) running = Some s1 /\
    (s2 ← rexec cf (EndCall "s1" 0 (OReturn (VStr "key"))) s1; Some (answers 0 (conn_of s2))) = Some [RResult (VInt 7) (VStr "key")].
Proof.
  assert (rm_role_prefix (t_method (task_of running 0)) = Some "POOL") as Hpre by (vm_compute; reflexivity).
  assert (has_role (sv_world running) "POOL_WRITE" 2 = false) as Hrole by (vm_compute; reflexivity).
  destruct (logout_exposes_secrets Demo.check 4 Demo.no_jobs Demo.ENOTAUTHENTICATED methods cf running "s1" (conn_of running) 0
    (task_of running 0) (VInt 7) (VStr "key") 2 (state_reachable _)
    ltac:(apply has_conn_spec; vm_compute; reflexivity) ltac:(apply has_task_spec; vm_compute; reflexivity)
    ltac:(vm_compute; reflexivity) ltac:(vm_compute; reflexivity) ltac:(vm_compute; reflexivity) ltac:(vm_compute; reflexivity)
    ltac:(apply is_Some_b; vm_compute; reflexivity) ltac:(vm_compute; reflexivity)
    ltac:(intros p Hp; rewrite Hpre in Hp; injection Hp as <-; exact Hrole)) as (_ & s1 & E1 & E2).
  exists s1. split; [exact E1|]. rewrite E2. cbn [mbind option_bind]. rewrite conn_of_set. vm_compute. reflexivity.
Defined.
End RpcDemo.
