(* ===== verification/EventSources.v ===== *)
(** * Events (src/middlewared/middlewared/common/event_source/manager.py, event.py
    and the subscriptions of api/base/server/ws_handler/rpc.py)

    A client subscribes to an event by name.  A plain event is sent by
    [Middleware.send_event] to the connections that subscribed to it.  An event
    of an event source has an optional argument after a colon; the manager runs
    one instance of the source per argument while it has subscribers. *)

From Stdlib Require Import Ascii.
From S2P Require Import Prelude PyDict PyStr PyVal Errors Roles Allowlist Privilege Origin RateLimit AuthLevels Authenticator Sessions Login.

(** ** Data *)

(** [AppSubscriber] of a connection and the full name of the event, or
    [InternalSubscriber] *)
Inductive subscriber := AppSubscriber (sid collection : string) | InternalSubscriber.

#[global] Instance subscriber_eq_dec : EqDecision subscriber.
Proof. solve_decision. Defined.

Record IdentData := mkIdent { id_subscriber : subscriber; id_name : string; id_arg : option string }.

(** An [EventSource] object: [ENew] until its [process] is scheduled, then its
    [run], its [on_finish], and the end *)
Inductive source_phase := ENew | ERunning | EFinishing (error : option exn) | EEnded.

#[global] Instance source_phase_eq_dec : EqDecision source_phase.
Proof. solve_decision. Defined.

Record EventSource := mkSource { es_name : string; es_arg : option string; es_canceled : bool; es_phase : source_phase }.

Definition set_canceled (o : EventSource) : EventSource := mkSource (es_name o) (es_arg o) true (es_phase o).
Definition set_es_phase (p : source_phase) (o : EventSource) : EventSource := mkSource (es_name o) (es_arg o) (es_canceled o) p.

(** What reaches a subscriber: an event of a collection, or the end *)
Inductive delivery :=
| DEvent (to : string) (collection event_type : string)
| DUnsubscribed (ident : string) (error : option exn).

Section events.
Context `{!PamStack} (check_unixhash : string -> string -> bool) (rounds : nat) (jobs : job_check) (ENOTAUTHENTICATED : Z).

(** The registered event sources, and the registered plain events with their
    [no_auth_required] and [no_authz_required] *)
Context (event_sources : list string) (events : string -> option (bool * bool)).

Notation key := (string * option string)%type.

(** [EventSourceManager], with [app.subscriptions] of the connected clients and
    the sessions *)
Record esm := mkEsm {
  ev_world : world;
  instances : gmap key nat;
  idents : gmap string IdentData;
  subscriptions : gmap key (gset string);
  sources : gmap nat EventSource;
  next_source : nat;
  app_subscriptions : gmap string (list (string * string));
  delivered : list delivery;
}.

Definition set_ev_world v s := mkEsm v (instances s) (idents s) (subscriptions s) (sources s) (next_source s) (app_subscriptions s) (delivered s).
Definition set_instances v s := mkEsm (ev_world s) v (idents s) (subscriptions s) (sources s) (next_source s) (app_subscriptions s) (delivered s).
Definition set_idents v s := mkEsm (ev_world s) (instances s) v (subscriptions s) (sources s) (next_source s) (app_subscriptions s) (delivered s).
Definition set_subscriptions v s := mkEsm (ev_world s) (instances s) (idents s) v (sources s) (next_source s) (app_subscriptions s) (delivered s).
Definition set_sources v s := mkEsm (ev_world s) (instances s) (idents s) (subscriptions s) v (next_source s) (app_subscriptions s) (delivered s).
Definition set_next_source v s := mkEsm (ev_world s) (instances s) (idents s) (subscriptions s) (sources s) v (app_subscriptions s) (delivered s).
Definition set_app_subscriptions v s := mkEsm (ev_world s) (instances s) (idents s) (subscriptions s) (sources s) (next_source s) v (delivered s).
Definition set_delivered v s := mkEsm (ev_world s) (instances s) (idents s) (subscriptions s) (sources s) (next_source s) (app_subscriptions s) v.

Notation EM := (STE esm exn).

Definition KeyError (s : string) : exn := EOther "KeyError" s.

Definition deliver (d : delivery) : EM unit := modify (fun s => set_delivered (delivered s ++ [d]) s).

(** [self.subscriptions[name][arg]], of default dictionaries *)
Definition subs (s : esm) (k : key) : gset string := default ∅ (subscriptions s !! k).

(** ** The manager *)

Definition short_name_arg (name : string) : key :=
  match Str.split ":" name with
  | [] => (name, None)
  | [n] => (n, None)
  | n :: l => (n, Some (Str.join ":" l))
  end.

Definition get_full_name (name : string) (arg : option string) : string :=
  match arg with None => name | Some a => name +:+ ":" +:+ a end.

(** [terminate] *)
Definition terminate (ident : string) (error : option exn) : EM unit := deliver (DUnsubscribed ident error).

(** [unsubscribe] up to the cancellation of the instance *)
Definition unsubscribe (ident : string) (error : option exn) : EM unit :=
  data ← gets (fun s => idents s !! ident);
  match data with
  | None => mret tt
  | Some d =>
      let k := (id_name d, id_arg d) in
      _ ← modify (fun s => set_idents (delete ident (idents s)) s);
      _ ← terminate ident error;
      present ← gets (fun s => bool_decide (ident ∈ subs s k));
      _ ← (if present : bool then modify (fun s => set_subscriptions (<[k := subs s k ∖ {[ident]}]> (subscriptions s)) s)
           else raise (KeyError ident));
      empty ← gets (fun s => bool_decide (subs s k = ∅));
      if empty : bool then
        i ← gets (fun s => instances s !! k);
        i ← expect i (KeyError (get_full_name (id_name d) (id_arg d)));
        _ ← modify (fun s => set_instances (delete k (instances s)) s);
        modify (fun s => set_sources (alter set_canceled i (sources s)) s)
      else mret tt
  end.

(** What [validate_arg] does: it accepts, raises [ValidationErrors], or fails
    otherwise. *)
Inductive validation := VAccepted | VInvalid (e : list ValidationError) | VFailed (e : exn).

Definition subscribe (sub : subscriber) (ident name : string) (arg : option string) (v : validation) : EM unit :=
  used ← gets (fun s => bool_decide (is_Some (idents s !! ident)));
  if used : bool then raise (ValueError ("Ident " +:+ ident +:+ " is already used"))
  else
    let k := (name, arg) in
    _ ← modify (fun s => set_idents (<[ident := mkIdent sub name arg]> (idents s)) s);
    _ ← modify (fun s => set_subscriptions (<[k := subs s k ∪ {[ident]}]> (subscriptions s)) s);
    known ← gets (fun s => bool_decide (is_Some (instances s !! k)));
    if known : bool then mret tt
    else if negb (bool_decide (name ∈ event_sources)) then raise (KeyError name)
    else
      i ← gets next_source;
      _ ← modify (fun s => set_next_source (S i) (set_sources (<[i := mkSource name arg false ENew]> (sources s)) s));
      _ ← modify (fun s => set_instances (<[k := i]> (instances s)) s);
      match v with
      | VAccepted => modify (fun s => set_sources (alter (set_es_phase ERunning) i (sources s)) s)
      | VInvalid e => unsubscribe ident (Some (EValidationErrors e))
      | VFailed e => raise e
      end.

(** [_unsubscribe_all] *)
Fixpoint terminate_all (l : list string) (error : option exn) : EM unit :=
  match l with
  | [] => mret tt
  | ident :: l =>
      d ← gets (fun s => idents s !! ident);
      _ ← expect d (KeyError ident);
      _ ← modify (fun s => set_idents (delete ident (idents s)) s);
      _ ← terminate ident error;
      terminate_all l error
  end.

Definition _unsubscribe_all (name : string) (arg : option string) (error : option exn) : EM unit :=
  l ← gets (fun s => elements (subs s (name, arg)));
  _ ← terminate_all l error;
  _ ← modify (fun s => set_instances (delete (name, arg) (instances s)) s);
  modify (fun s => set_subscriptions (<[(name, arg) := ∅]> (subscriptions s)) s).

(** [EventSource.process]: [run] ends, then [on_finish] *)
Definition run_ends (i : nat) (error : option exn) : EM unit :=
  modify (fun s => set_sources (alter (set_es_phase (EFinishing error)) i (sources s)) s).

Definition finish_ends (i : nat) : EM unit :=
  o ← gets (fun s => sources s !! i);
  match o with
  | Some (mkSource name arg canceled (EFinishing error)) =>
      _ ← modify (fun s => set_sources (alter (set_es_phase EEnded) i (sources s)) s);
      if canceled then mret tt else _unsubscribe_all name arg error
  | _ => mret tt
  end.

(** ** Events to connections *)

(** [RpcWebSocketApp.send_event] *)
Definition app_send_event (sid name event_type : string) : EM unit :=
  l ← gets (fun s => default [] (app_subscriptions s !! sid));
  if negb (existsb (fun i => String.eqb i name || String.eqb i "*") (Dict.values l))
     && negb (bool_decide ((short_name_arg name).1 ∈ event_sources))
  then mret tt
  else deliver (DEvent sid name event_type).

(** [_send_event], of an instance *)
Fixpoint send_to (l : list string) (event_type : string) : EM unit :=
  match l with
  | [] => mret tt
  | ident :: l =>
      d ← gets (fun s => idents s !! ident);
      _ ← match d with
          | None => mret tt
          | Some (mkIdent (AppSubscriber sid collection) _ _) => app_send_event sid collection event_type
          | Some (mkIdent InternalSubscriber name arg) => deliver (DEvent ident (get_full_name name arg) event_type)
          end;
      send_to l event_type
  end.

Definition _send_event (i : nat) (event_type : string) : EM unit :=
  o ← gets (fun s => sources s !! i);
  match o with
  | Some o => l ← gets (fun s => elements (subs s (es_name o, es_arg o))); send_to l event_type
  | None => mret tt
  end.

(** [Middleware.send_event], to the clients the sender does not exclude *)
Fixpoint send_clients (l : list string) (name event_type : string) : EM unit :=
  match l with
  | [] => mret tt
  | sid :: l => _ ← app_send_event sid name event_type; send_clients l name event_type
  end.

Definition send_event (name event_type : string) (should_send_event : string -> bool) : EM unit :=
  l ← gets (fun s => (map_to_list (app_subscriptions s)).*1);
  send_clients (filter (fun sid => should_send_event sid = true) l) name event_type.

(** [core.subscribe] and [core.unsubscribe]; [ident] is the new identifier. *)
Definition esm_ident (sid ident : string) : string := sid +:+ ident.

Definition lift_world {A} (m : STE world exn A) : EM A :=
  fun s => let '(w, r) := m (ev_world s) in (set_ev_world w s, r).

Definition core_subscribe (now : Z) (sid ident name : string) (v : validation) : EM string :=
  ok ← lift_world (can_subscribe events now sid name);
  if negb ok then raise (CallError "Not authorized" EACCES)
  else
    let '(short, arg) := short_name_arg name in
    _ ← (if bool_decide (short ∈ event_sources)
         then subscribe (AppSubscriber sid (get_full_name short arg)) (esm_ident sid ident) short arg v
         else modify (fun s => set_app_subscriptions (alter (Dict.set ident name) sid (app_subscriptions s)) s));
    mret ident.

Definition core_unsubscribe (sid ident : string) : EM unit :=
  l ← gets (fun s => default [] (app_subscriptions s !! sid));
  if Dict.mem ident l then modify (fun s => set_app_subscriptions (alter (Dict.pop ident) sid (app_subscriptions s)) s)
  else unsubscribe (esm_ident sid ident) None.

Definition is_app_ident (sid : string) (d : IdentData) : bool :=
  match id_subscriber d with AppSubscriber sid' _ => String.eqb sid' sid | InternalSubscriber => false end.

(** [unsubscribe_app], over a copy of the identifiers *)
Fixpoint unsubscribe_list (l : list string) : EM unit :=
  match l with
  | [] => mret tt
  | ident :: l => _ ← unsubscribe ident None; unsubscribe_list l
  end.

Definition unsubscribe_app (sid : string) : EM unit :=
  l ← gets (fun s => (map_to_list (filter (fun kd => is_app_ident sid kd.2 = true) (idents s))).*1);
  unsubscribe_list l.

(** [iterate], of the middleware itself *)
Definition iterate (ident name : string) (arg : option string) (v : validation) : EM unit :=
  subscribe InternalSubscriber ident name arg v.

(** ** Histories *)

Definition auth (cf : config) (o : auth_op) : EM unit :=
  modify (fun s => set_ev_world (exec check_unixhash rounds jobs ENOTAUTHENTICATED cf o (ev_world s)) s).

(** [auth.logout], and the end of a connection *)
Definition auth_logout (cf : config) (sid : string) : EM unit := _ ← unsubscribe_app sid; auth cf (Logout sid).
Definition close_client (cf : config) (sid : string) : EM unit :=
  _ ← auth cf (Close sid);
  _ ← unsubscribe_app sid;
  modify (fun s => set_app_subscriptions (delete sid (app_subscriptions s)) s).

Inductive event_op :=
| EConnect (sid : string) (origin : option ConnectionOrigin)
| ESubscribe (sid ident name : string) (v : validation)
| EUnsubscribe (sid ident : string)
| EIterate (ident name : string) (arg : option string) (v : validation)
| EStop (ident : string)
| ERunEnds (i : nat) (error : option exn)
| EFinishEnds (i : nat)
| ESourceEvent (i : nat) (event_type : string)
| ESendEvent (name event_type : string) (should_send_event : string -> bool)
| ELogout (sid : string)
| EClose (sid : string)
| EAuth (o : auth_op).

Definition event_exec (cf : config) (o : event_op) : EM unit :=
  match o with
  | EConnect sid origin =>
      _ ← auth cf (Connect sid origin);
      modify (fun s => set_app_subscriptions (<[sid := default [] (app_subscriptions s !! sid)]> (app_subscriptions s)) s)
  | ESubscribe sid ident name v => _ ← core_subscribe (os_now (cf_os cf)) sid ident name v; mret tt
  | EUnsubscribe sid ident => core_unsubscribe sid ident
  | EIterate ident name arg v => iterate ident name arg v
  | EStop ident => unsubscribe ident None
  | ERunEnds i error =>
      running ← gets (fun s => bool_decide (es_phase <$> sources s !! i = Some ERunning));
      if running : bool then run_ends i error else mret tt
  | EFinishEnds i => finish_ends i
  | ESourceEvent i event_type => _send_event i event_type
  | ESendEvent name event_type p => send_event name event_type p
  | ELogout sid => auth_logout cf sid
  | EClose sid => close_client cf sid
  | EAuth o => auth cf o
  end.

Definition event_run (h : list (config * event_op)) (s : esm) : esm := foldl (fun s x => (event_exec x.1 x.2 s).1) s h.

Definition initial_esm : esm := mkEsm initial_world ∅ ∅ ∅ ∅ 0 ∅ [].
End events.
