(* ===== verification/EventProps.v ===== *)
(** * Properties of events (of EventSources.v)

    The tables of the event source manager agree after every history, and what
    a connection is sent. *)

From Stdlib Require Import Ascii.
From S2P Require Import Prelude PyDict PyStr PyVal Errors Roles Allowlist Privilege Origin RateLimit AuthLevels Authenticator Sessions Login SessionInv SessionProps EventSources.

Notation key := (string * option string)%type.

Section props.
Context {HP : PamStack} (check_unixhash : string -> string -> bool) (rounds : nat) (jobs : job_check) (ENOTAUTHENTICATED : Z).
Context (event_sources : list string) (events : string -> option (bool * bool)).

Notation esm := (EventSources.esm (H := HP)).
Notation subscribe := (subscribe event_sources).
Notation event_exec := (event_exec check_unixhash rounds jobs ENOTAUTHENTICATED event_sources events).
Notation event_run := (event_run check_unixhash rounds jobs ENOTAUTHENTICATED event_sources events).

(** ** The invariant *)

Record esm_inv (s : esm) : Prop := {
  ei_subs : forall k ident, ident ∈ subs s k <-> exists d, idents s !! ident = Some d /\ (id_name d, id_arg d) = k;
  ei_inst : forall k, is_Some (instances s !! k) <-> subs s k ≠ ∅;
  ei_obj : forall k i, instances s !! k = Some i ->
    exists o, sources s !! i = Some o /\ (es_name o, es_arg o) = k /\ es_canceled o = false /\ es_phase o ≠ EEnded;
  ei_live : forall i o, sources s !! i = Some o -> es_canceled o = false -> es_phase o ≠ EEnded ->
    instances s !! (es_name o, es_arg o) = Some i;
  ei_fresh : forall i, next_source s <= i -> sources s !! i = None;
}.

(** The fields the invariant speaks about are the same. *)
Definition esm_eq (s s' : esm) : Prop :=
  instances s' = instances s /\ idents s' = idents s /\ subscriptions s' = subscriptions s /\ sources s' = sources s /\
  next_source s' = next_source s.

Lemma esm_inv_eq s s' : esm_eq s s' -> esm_inv s -> esm_inv s'.
Proof.
  intros (E1 & E2 & E3 & E4 & E5) [H1 H2 H3 H4 H5]. unfold subs in *.
  constructor; unfold subs; rewrite ?E1, ?E2, ?E3, ?E4, ?E5; done.
Qed.

(** The state after [ident] with data [d] left, before its source is looked at *)
Definition without (ident : string) (e : option exn) (k : key) (s : esm) : esm :=
  mkEsm (ev_world s) (instances s) (delete ident (idents s)) (<[k := subs s k ∖ {[ident]}]> (subscriptions s)) (sources s)
    (next_source s) (app_subscriptions s) (delivered s ++ [DUnsubscribed ident e]).

Definition stopped (k : key) (i : nat) (s : esm) : esm :=
  set_sources (alter set_canceled i (sources s)) (set_instances (delete k (instances s)) s).

Lemma unsubscribe_eq ident e s d k : esm_inv s -> idents s !! ident = Some d -> k = (id_name d, id_arg d) ->
  unsubscribe ident e s =
    if decide (subs s k ∖ {[ident]} = ∅)
    then match instances s !! k with Some i => (stopped k i (without ident e k s), Ok tt) | None => (s, Ok tt) end
    else (without ident e k s, Ok tt).
Proof.
  intros Hi Hd ->. set (k := (id_name d, id_arg d)).
  assert (ident ∈ subs s k) as Hin by (apply (ei_subs s Hi); eauto).
  assert (is_Some (instances s !! k)) as [i Hik] by (apply (ei_inst s Hi); set_solver).
  unfold unsubscribe. rewrite ste_bind_gets, Hd. cbv zeta. fold k.
  unfold modify, terminate, deliver, mbind, ste_mbind, gets, raise, expect, mret, ste_mret. simpl.
  change (subs (mkEsm _ _ _ (subscriptions s) _ _ _ _) k) with (subs s k). rewrite bool_decide_true by done. simpl.
  unfold modify. simpl. change (subs (set_delivered _ _) k) with (subs s k).
  assert (forall s1, subscriptions s1 = <[k := subs s k ∖ {[ident]}]> (subscriptions s) -> subs s1 k = subs s k ∖ {[ident]}) as E
    by (intros s1 E; unfold subs at 1; by rewrite E, lookup_insert_eq).
  match goal with |- context [subs ?s1 k = ∅] => lazymatch s1 with s => fail | _ => rewrite (E s1 eq_refl) end end.
  rewrite bool_decide_decide. destruct (decide _); simpl; [|done].
  rewrite Hik. done.
Qed.

(** The membership of the other identifiers *)
Lemma subs_without ident e s d k : esm_inv s -> idents s !! ident = Some d -> k = (id_name d, id_arg d) ->
  forall k' x, x ∈ subs (without ident e k s) k' <->
    exists d', delete ident (idents s) !! x = Some d' /\ (id_name d', id_arg d') = k'.
Proof.
  intros Hi Hd -> k' x. unfold subs at 1. simpl.
  destruct (decide (k' = (id_name d, id_arg d))) as [->|Hne].
  - rewrite lookup_insert_eq. simpl. rewrite elem_of_difference, (ei_subs s Hi), not_elem_of_singleton.
    split; [intros [(d' & Hd' & E) Hx]; exists d'; by rewrite lookup_delete_ne|].
    intros (d' & [Hx Hd']%lookup_delete_Some & E). split; [eauto|congruence].
  - rewrite lookup_insert_ne by done. fold (subs s k'). rewrite (ei_subs s Hi).
    split; intros (d' & Hd' & E); exists d'; (split; [|done]).
    + rewrite lookup_delete_ne; [done|]. intros <-. congruence.
    + by apply lookup_delete_Some in Hd' as [_ ?].
Qed.

Lemma unsubscribe_spec ident e s : esm_inv s ->
  exists s', unsubscribe ident e s = (s', Ok tt) /\ esm_inv s' /\ ev_world s' = ev_world s /\
    app_subscriptions s' = app_subscriptions s /\ idents s' = delete ident (idents s).
Proof.
  intros Hi. destruct (idents s !! ident) as [d|] eqn:Hd.
  2: { exists s. unfold unsubscribe. rewrite ste_bind_gets, Hd. split_and!; [done..|]. by rewrite delete_id. }
  set (k := (id_name d, id_arg d)). rewrite (unsubscribe_eq ident e s d k) by done.
  assert (ident ∈ subs s k) as Hin by (apply (ei_subs s Hi); eauto).
  assert (is_Some (instances s !! k)) as [i Hik] by (apply (ei_inst s Hi); set_solver).
  pose proof (subs_without ident e s d k Hi Hd eq_refl) as Hsub.
  assert (forall k', k' ≠ k -> subs (without ident e k s) k' = subs s k') as Hother
    by (intros k' Hne; unfold subs at 1; simpl; by rewrite lookup_insert_ne).
  assert (subs (without ident e k s) k = subs s k ∖ {[ident]}) as Hk by (unfold subs at 1; simpl; by rewrite lookup_insert_eq).
  case_decide as Hemp; [rewrite Hik|].
  - exists (stopped k i (without ident e k s)). split; [done|]. split; [|done].
    destruct (ei_obj s Hi k i Hik) as (oi & Hoi & Eoi & _).
    constructor; simpl; try exact Hsub.
    + intros k'. destruct (decide (k' = k)) as [->|Hne].
      * rewrite lookup_delete_eq. change (subs (stopped k i (without ident e k s)) k) with (subs (without ident e k s) k).
        rewrite Hk, Hemp. split; [by intros []|done].
      * rewrite lookup_delete_ne by done. change (subs (stopped _ _ ?x) ?y) with (subs x y). rewrite Hother by done. apply (ei_inst s Hi).
    + intros k' i' [Hne Hi']%lookup_delete_Some. destruct (ei_obj s Hi k' i' Hi') as (o & Ho & E & ?).
      exists o. rewrite lookup_alter_ne; [eauto|]. intros <-. congruence.
    + intros i' o Ho Hc Hp. destruct (decide (i' = i)) as [->|Hne].
      * rewrite lookup_alter_eq, Hoi in Ho. injection Ho as <-. done.
      * rewrite lookup_alter_ne in Ho by done. pose proof (ei_live s Hi i' o Ho Hc Hp) as Hl.
        rewrite lookup_delete_ne; [done|]. intros E. rewrite <-E in Hl. congruence.
    + intros i' Hle. rewrite lookup_alter_None. by apply (ei_fresh s Hi).
  - exists (without ident e k s). split; [done|]. split; [|done].
    constructor; simpl; try exact Hsub; try apply Hi.
    intros k'. destruct (decide (k' = k)) as [->|Hne]; [rewrite Hk; split; [done|by eauto]|].
    rewrite Hother by done. apply (ei_inst s Hi).
Qed.

Lemma unsubscribe_list_spec l : forall s, esm_inv s ->
  exists s', unsubscribe_list l s = (s', Ok tt) /\ esm_inv s' /\ ev_world s' = ev_world s /\ app_subscriptions s' = app_subscriptions s.
Proof.
  induction l as [|ident l IH]; intros s Hi; [by exists s|]. simpl. unfold mbind, ste_mbind.
  destruct (unsubscribe_spec ident None s Hi) as (s1 & -> & Hi1 & E1 & E2 & _).
  destruct (IH s1 Hi1) as (s2 & Hs2 & Hi2 & E3 & E4). exists s2. split_and!; [done..|congruence|congruence].
Qed.

Lemma unsubscribe_app_spec sid s : esm_inv s ->
  exists s', unsubscribe_app sid s = (s', Ok tt) /\ esm_inv s' /\ ev_world s' = ev_world s /\ app_subscriptions s' = app_subscriptions s.
Proof. intros Hi. unfold unsubscribe_app. rewrite ste_bind_gets. by apply unsubscribe_list_spec. Qed.

(** An instance that has not ended moves on. *)
Lemma phase_inv i p o s : esm_inv s -> sources s !! i = Some o -> es_phase o ≠ EEnded -> p ≠ EEnded ->
  esm_inv (set_sources (alter (set_es_phase p) i (sources s)) s).
Proof.
  intros Hi Ho Hp Hp'. constructor; simpl; try apply Hi.
  - intros k j Hj. destruct (ei_obj s Hi k j Hj) as (o' & Ho' & E & Hc & Hph). destruct (decide (j = i)) as [->|Hne].
    + rewrite lookup_alter_eq, Ho'. by exists (set_es_phase p o').
    + rewrite lookup_alter_ne by done. eauto.
  - intros j o' Ho' Hc Hph. destruct (decide (j = i)) as [->|Hne].
    + rewrite lookup_alter_eq, Ho in Ho'. injection Ho' as <-. simpl in *. by apply (ei_live s Hi i o).
    + rewrite lookup_alter_ne in Ho' by done. by apply (ei_live s Hi).
  - intros j Hj. rewrite lookup_alter_None. by apply (ei_fresh s Hi).
Qed.

(** A new identifier joins a source that runs, or starts one. *)
Definition joined (sub : subscriber) (ident : string) (k : key) (s : esm) : esm :=
  set_subscriptions (<[k := subs s k ∪ {[ident]}]> (subscriptions s)) (set_idents (<[ident := mkIdent sub k.1 k.2]> (idents s)) s).

Definition launched (k : key) (s : esm) : esm :=
  set_instances (<[k := next_source s]> (instances s))
    (set_next_source (S (next_source s)) (set_sources (<[next_source s := mkSource k.1 k.2 false ENew]> (sources s)) s)).

Lemma subs_joined sub ident k s k' : subs (joined sub ident k s) k' = if decide (k' = k) then subs s k ∪ {[ident]} else subs s k'.
Proof. unfold joined, subs. simpl. case_decide; subst; [by rewrite lookup_insert_eq|by rewrite lookup_insert_ne]. Qed.

Lemma joined_subs sub ident k s : esm_inv s -> idents s !! ident = None ->
  forall k' x, x ∈ subs (joined sub ident k s) k' <->
    exists d, <[ident := mkIdent sub k.1 k.2]> (idents s) !! x = Some d /\ (id_name d, id_arg d) = k'.
Proof.
  intros Hi Hn k' x. rewrite subs_joined. destruct (decide (x = ident)) as [->|Hx].
  - rewrite lookup_insert_eq. case_decide as Hk.
    + subst. split; [intros _; eexists; split; [done|by destruct k]|]. set_solver.
    + rewrite (ei_subs s Hi), Hn. split; [by intros (? & ? & _)|]. intros (d & [= <-] & E). destruct k. simpl in E. congruence.
  - rewrite lookup_insert_ne by done. rewrite <-(ei_subs s Hi). case_decide; subst; set_solver.
Qed.

Lemma joined_inv sub ident k s : esm_inv s -> idents s !! ident = None -> is_Some (instances s !! k) -> esm_inv (joined sub ident k s).
Proof.
  intros Hi Hn Hk. constructor; try exact (joined_subs sub ident k s Hi Hn); try apply Hi.
  intros k'. rewrite subs_joined. simpl. case_decide; [subst|apply (ei_inst s Hi)]. split; [|done]. intros _. set_solver.
Qed.

Lemma launched_inv sub ident k s : esm_inv s -> idents s !! ident = None -> instances s !! k = None ->
  esm_inv (launched k (joined sub ident k s)).
Proof.
  intros Hi Hn Hk. pose proof (ei_fresh s Hi (next_source s) ltac:(done)) as Hf.
  constructor; try exact (joined_subs sub ident k s Hi Hn).
  - intros k'. change (subs (launched _ ?x) ?y) with (subs x y). rewrite subs_joined. simpl. case_decide as E; [subst|].
    + rewrite lookup_insert_eq. split; [set_solver|by eauto].
    + rewrite lookup_insert_ne by done. apply (ei_inst s Hi).
  - simpl. intros k' i. destruct (decide (k' = k)) as [->|Hne].
    + rewrite lookup_insert_eq. intros [= <-]. rewrite lookup_insert_eq. eexists. split; [done|]. by destruct k.
    + rewrite lookup_insert_ne by done. intros Hki. destruct (ei_obj s Hi k' i Hki) as (o & Ho & ?).
      exists o. rewrite lookup_insert_ne; [done|]. intros <-. congruence.
  - simpl. intros i o. destruct (decide (i = next_source s)) as [->|Hne].
    + rewrite lookup_insert_eq. intros [= <-] _ _. simpl. destruct k. by rewrite lookup_insert_eq.
    + rewrite lookup_insert_ne by done. intros Ho Hc Hp. pose proof (ei_live s Hi i o Ho Hc Hp) as Hl.
      rewrite lookup_insert_ne; [done|]. intros ->. congruence.
  - simpl. intros i Hle. rewrite lookup_insert_ne by lia. apply (ei_fresh s Hi). lia.
Qed.

Lemma subscribe_eq sub ident name arg v s : idents s !! ident = None -> name ∈ event_sources ->
  let k := (name, arg) in
  subscribe sub ident name arg v s =
    if decide (is_Some (instances s !! k)) then (joined sub ident k s, Ok tt)
    else match v with
         | VAccepted => (set_sources (alter (set_es_phase ERunning) (next_source s) (sources (launched k (joined sub ident k s))))
                           (launched k (joined sub ident k s)), Ok tt)
         | VInvalid e => unsubscribe ident (Some (EValidationErrors e)) (launched k (joined sub ident k s))
         | VFailed e => (launched k (joined sub ident k s), Err e)
         end.
Proof.
  intros Hn Hname k. unfold subscribe. rewrite ste_bind_gets, bool_decide_false by (rewrite Hn; by intros []).
  unfold modify, mbind, ste_mbind, gets, raise, mret, ste_mret. simpl. fold k.
  rewrite !bool_decide_decide. destruct (decide (is_Some (instances s !! k))); simpl; [done|].
  rewrite decide_True by done. simpl. by destruct v.
Qed.

Lemma subscribe_spec sub ident name arg v s : esm_inv s -> name ∈ event_sources ->
  exists s' r, subscribe sub ident name arg v s = (s', r) /\ esm_inv s' /\ ev_world s' = ev_world s /\ app_subscriptions s' = app_subscriptions s.
Proof.
  intros Hi Hname. destruct (idents s !! ident) as [d|] eqn:Hd.
  { exists s. eexists. split; [|done]. unfold subscribe. rewrite ste_bind_gets, bool_decide_true by (rewrite Hd; eauto). done. }
  rewrite subscribe_eq by done. set (k := (name, arg)). case_decide as Hk.
  - do 2 eexists. split; [done|]. split; [by apply joined_inv|done].
  - apply eq_None_not_Some in Hk. pose proof (launched_inv sub ident k s Hi Hd Hk) as Hl. destruct v as [|e|e].
    + do 2 eexists. split; [done|]. split; [|done].
      eapply (phase_inv (next_source s)); [done|by apply lookup_insert_eq|done..].
    + destruct (unsubscribe_spec ident (Some (EValidationErrors e)) _ Hl) as (s' & E & Hi' & E1 & E2 & _).
      exists s', (Ok tt). split_and!; [done..|by rewrite E1|by rewrite E2].
    + do 2 eexists. split; [done|]. split; [done|done].
Qed.

Lemma terminate_all_spec l e : forall s, NoDup l -> (forall x, x ∈ l -> is_Some (idents s !! x)) ->
  exists s', terminate_all l e s = (s', Ok tt) /\
    (forall x, idents s' !! x = if decide (x ∈ l) then None else idents s !! x) /\
    instances s' = instances s /\ subscriptions s' = subscriptions s /\ sources s' = sources s /\ next_source s' = next_source s /\
    ev_world s' = ev_world s /\ app_subscriptions s' = app_subscriptions s.
Proof.
  induction l as [|ident l IH]; intros s Hnd Hin.
  - exists s. by split_and!.
  - apply NoDup_cons in Hnd as [Hni Hnd]. destruct (Hin ident ltac:(set_solver)) as [d Hd]. cbn [terminate_all].
    rewrite ste_bind_gets, Hd. unfold expect, modify, terminate, deliver, mbind, ste_mbind. simpl. unfold modify. simpl.
    edestruct IH as (s' & E & Hid & E1 & E2 & E3 & E4 & E5 & E6); [exact Hnd| |exists s'; split; [exact E|]].
    { intros x Hx. simpl. rewrite lookup_delete_ne by set_solver. apply Hin. set_solver. }
    split_and!; try done. intros x. rewrite Hid. simpl. destruct (decide (x = ident)) as [->|Hne].
    + rewrite decide_False by done. rewrite lookup_delete_eq, decide_True by set_solver. done.
    + rewrite lookup_delete_ne by done. repeat case_decide; set_solver.
Qed.

Lemma finish_ends_spec i s : esm_inv s ->
  exists s', finish_ends i s = (s', Ok tt) /\ esm_inv s' /\ ev_world s' = ev_world s /\ app_subscriptions s' = app_subscriptions s.
Proof.
  intros Hi. unfold finish_ends. rewrite ste_bind_gets.
  destruct (sources s !! i) as [[name arg canceled []]|] eqn:Ho; try by exists s.
  set (k := (name, arg)). set (s0 := set_sources (alter (set_es_phase EEnded) i (sources s)) s).
  assert (forall j o, sources s0 !! j = Some o -> es_phase o ≠ EEnded -> j ≠ i /\ sources s !! j = Some o) as Hsrc.
  { intros j o Hj Hp. simpl in Hj. destruct (decide (j = i)) as [->|Hne]; [|by rewrite lookup_alter_ne in Hj].
    rewrite lookup_alter_eq, Ho in Hj. injection Hj as <-. done. }
  destruct canceled; cbv beta iota delta [modify mbind ste_mbind]; simpl.
  - fold s0. exists s0. split; [done|]. split; [|done]. constructor; simpl; try apply Hi.
    + intros k' j Hj. destruct (ei_obj s Hi k' j Hj) as (o & Hoj & ? & Hc & ?). exists o. rewrite lookup_alter_ne; [done|].
      intros <-. rewrite Ho in Hoj. injection Hoj as <-. done.
    + intros j o Hj Hc Hp. destruct (Hsrc j o Hj Hp) as [_ Hj']. by apply (ei_live s Hi).
    + intros j Hj. rewrite lookup_alter_None. by apply (ei_fresh s Hi).
  - fold s0. pose proof (ei_live s Hi i _ Ho eq_refl ltac:(done)) as Hik. simpl in Hik. fold k in Hik.
    unfold _unsubscribe_all. rewrite ste_bind_gets. fold k. change (subs s0 k) with (subs s k).
    destruct (terminate_all_spec (elements (subs s k)) error s0) as (s1 & E & Hid & E1 & E2 & E3 & E4 & E5 & E6).
    { apply NoDup_elements. } { intros x Hx%elem_of_elements. apply (ei_subs s Hi) in Hx as (d & Hd & _). simpl. eauto. }
    unfold modify, mbind, ste_mbind. rewrite E. simpl.
    set (s2 := set_subscriptions _ _). exists s2. split; [done|]. split; [|done].
    assert (forall k', subs s2 k' = if decide (k' = k) then ∅ else subs s k') as Hsubs.
    { intros k'. unfold s2, subs. simpl. rewrite E2. case_decide; subst; [by rewrite lookup_insert_eq|by rewrite lookup_insert_ne]. }
    assert (forall x, idents s2 !! x = if decide (x ∈ subs s k) then None else idents s !! x) as Hid2.
    { intros x. simpl. rewrite Hid. repeat case_decide; try done; by rewrite elem_of_elements in *. }
    constructor; simpl; rewrite ?E1, ?E3, ?E4.
    + intros k' x. rewrite Hsubs, Hid2. case_decide as Ek; [subst|].
      * split; [set_solver|]. intros (d & Hd & Edk). case_decide as Hx; [done|]. destruct Hx. apply (ei_subs s Hi). eauto.
      * rewrite (ei_subs s Hi). split; intros (d & Hd & Edk); [|case_decide; [done|eauto]].
        exists d. case_decide as Hx; [|done]. apply (ei_subs s Hi) in Hx as (d' & Hd' & ?). congruence.
    + intros k'. rewrite Hsubs. case_decide as Ek; [subst; rewrite lookup_delete_eq; split; [by intros []|done]|].
      rewrite lookup_delete_ne by done. apply (ei_inst s Hi).
    + intros k' j [Hne Hj]%lookup_delete_Some. destruct (ei_obj s Hi k' j Hj) as (o & Hoj & Eo & ?).
      exists o. simpl. rewrite lookup_alter_ne; [done|]. intros <-. rewrite Ho in Hoj. injection Hoj as <-. by destruct Hne.
    + intros j o Hj Hc Hp. destruct (Hsrc j o Hj Hp) as [Hne Hj']. pose proof (ei_live s Hi j o Hj' Hc Hp) as Hl.
      rewrite lookup_delete_ne; [done|]. intros Ek. rewrite <-Ek in Hl. congruence.
    + intros j Hj. simpl. rewrite lookup_alter_None. by apply (ei_fresh s Hi).
Qed.

(** Sending changes nothing but what was delivered, and never fails. *)
Definition sends (s : esm) (x : esm * result exn unit) : Prop :=
  x.2 = Ok tt /\ esm_eq s x.1 /\ ev_world x.1 = ev_world s /\ app_subscriptions x.1 = app_subscriptions s /\
  exists l, delivered x.1 = delivered s ++ l.

Lemma sends_refl s : sends s (s, Ok tt).
Proof. repeat split; try done. exists []. by rewrite app_nil_r. Qed.

Lemma sends_bind s (m : STE esm exn unit) (f : unit -> STE esm exn unit) :
  sends s (m s) -> (forall s1, sends s1 (f tt s1)) -> sends s ((m ≫= f) s).
Proof.
  unfold mbind, ste_mbind. intros H1 H2. destruct (m s) as [s1 r]. destruct H1 as (Hr & (A1 & A2 & A3 & A4 & A5) & Hw & Ha & l & Hl).
  simpl in *. subst r. destruct (H2 s1) as (Hr2 & (B1 & B2 & B3 & B4 & B5) & Hw2 & Ha2 & l2 & Hl2).
  split; [done|]. unfold esm_eq. split_and!; try congruence. exists (l ++ l2). by rewrite Hl2, Hl, (assoc_L (++)).
Qed.

Lemma sends_deliver d s : sends s (deliver d s).
Proof. repeat split; try done. by exists [d]. Qed.

Lemma sends_app sid name ty s : sends s (app_send_event event_sources sid name ty s).
Proof. unfold app_send_event. rewrite ste_bind_gets. destruct (_ && _); [apply sends_refl|apply sends_deliver]. Qed.

Lemma sends_to l ty : forall s, sends s (send_to event_sources l ty s).
Proof.
  induction l as [|ident l IH]; intros s; [apply sends_refl|]. cbn [send_to]. rewrite ste_bind_gets.
  apply sends_bind; [|done]. destruct (idents s !! ident) as [[[sid c|] n a]|]; auto using sends_app, sends_deliver, sends_refl.
Qed.

Lemma sends_clients l name ty : forall s, sends s (send_clients event_sources l name ty s).
Proof. induction l as [|sid l IH]; intros s; [apply sends_refl|]. cbn [send_clients]. apply sends_bind; [apply sends_app|done]. Qed.

(** [can_subscribe] only looks at the sessions. *)
Lemma can_subscribe_pure now sid name w : (can_subscribe events now sid name w).1 = w.
Proof.
  unfold can_subscribe, mbind, ste_mbind. unfold get_app at 1. destruct (apps w !! sid) as [a|]; [|done].
  repeat case_match; done.
Qed.

(** *** Every operation keeps the invariant *)

(** The middleware itself subscribes only to event sources that exist. *)
Definition registered (o : event_op) : Prop := match o with EIterate _ name _ _ => name ∈ event_sources | _ => True end.

(** The operations that take subscriptions away never fail. *)
Definition removes (o : event_op) : bool :=
  match o with EUnsubscribe _ _ | EStop _ | EFinishEnds _ | ELogout _ | EClose _ => true | _ => false end.

(** The sessions: unchanged, or one operation of [Login] further *)
Definition world_step (cf : config) (s s' : esm) : Prop :=
  ev_world s' = ev_world s \/ exists o, ev_world s' = exec check_unixhash rounds jobs ENOTAUTHENTICATED cf o (ev_world s).

Definition event_ok (cf : config) (o : event_op) (s : esm) : Prop :=
  let x := event_exec cf o s in esm_inv x.1 /\ world_step cf s x.1 /\ (removes o = true -> x.2 = Ok tt).

Lemma core_subscribe_inv now sid ident name v s : esm_inv s ->
  esm_inv (core_subscribe event_sources events now sid ident name v s).1 /\
  ev_world (core_subscribe event_sources events now sid ident name v s).1 = ev_world s.
Proof.
  intros Hi. unfold core_subscribe, mbind, ste_mbind, lift_world.
  pose proof (can_subscribe_pure now sid name (ev_world s)) as Hw.
  destruct (can_subscribe events now sid name (ev_world s)) as [w r]. simpl in Hw. subst w.
  assert (set_ev_world (ev_world s) s = s) as -> by (by destruct s).
  destruct r as [[]|e]; simpl; [|done..]. destruct (short_name_arg name) as [short arg]. case_bool_decide as Hreg.
  - destruct (subscribe_spec (AppSubscriber sid (get_full_name short arg)) (esm_ident sid ident) short arg v s Hi Hreg)
      as (s' & r & -> & Hi' & E1 & _). by destruct r.
  - simpl. split; [|done]. by apply (esm_inv_eq s).
Qed.

Lemma event_exec_ok cf o s : esm_inv s -> registered o -> event_ok cf o s.
Proof.
  intros Hi Hreg. unfold event_ok, world_step. cbv zeta.
  assert (forall x, sends s x -> esm_inv x.1 /\ (ev_world x.1 = ev_world s \/ exists o, ev_world x.1 = exec check_unixhash rounds jobs ENOTAUTHENTICATED cf o (ev_world s))
            /\ (removes o = true -> x.2 = Ok tt)) as Hsend.
  { intros x (H1 & H2 & H3 & _). split_and!; [by eapply esm_inv_eq|by left|done]. }
  destruct o as [sid origin|sid ident name v|sid ident|ident name arg v|ident|i error|i|i ty|name ty p|sid|sid|o]; cbn [EventSources.event_exec].
  - split_and!; [by apply (esm_inv_eq s)|right; by exists (Connect sid origin)|done].
  - destruct (core_subscribe_inv (os_now (cf_os cf)) sid ident name v s Hi) as [H1 H2]. unfold mbind, ste_mbind.
    destruct (core_subscribe _ _ _ _ _ _ _ _) as [s' [r|e]]; simpl in *; split_and!; auto; done.
  - unfold core_unsubscribe. rewrite ste_bind_gets. destruct (Dict.mem _ _); [split_and!; [by apply (esm_inv_eq s)|by left|done]|].
    destruct (unsubscribe_spec (esm_ident sid ident) None s Hi) as (s' & -> & ? & ? & _). auto.
  - destruct (subscribe_spec InternalSubscriber ident name arg v s Hi Hreg) as (s' & r & E & ? & ? & _).
    unfold iterate. rewrite E. split_and!; auto; done.
  - destruct (unsubscribe_spec ident None s Hi) as (s' & -> & ? & ? & _). auto.
  - rewrite ste_bind_gets. case_bool_decide as Hr; [|by split_and!; auto].
    apply fmap_Some in Hr as (x & Hx & Hp). unfold run_ends, modify. simpl. split_and!; [|by left|done].
    apply (phase_inv i (EFinishing error) x); [done..| |done]. by rewrite <-Hp.
  - destruct (finish_ends_spec i s Hi) as (s' & -> & ? & ? & _). auto.
  - unfold _send_event. rewrite ste_bind_gets. apply Hsend. destruct (sources s !! i); [|apply sends_refl].
    rewrite ste_bind_gets. apply sends_to.
  - unfold send_event. rewrite ste_bind_gets. apply Hsend, sends_clients.
  - unfold auth_logout, mbind, ste_mbind. destruct (unsubscribe_app_spec sid s Hi) as (s' & -> & ? & E & _). simpl.
    split_and!; [by apply (esm_inv_eq s')|right; exists (Logout sid); by rewrite E|done].
  - unfold close_client, auth, modify, mbind, ste_mbind.
    set (s1 := set_ev_world _ s). assert (esm_inv s1) as Hi1 by (by apply (esm_inv_eq s)).
    destruct (unsubscribe_app_spec sid s1 Hi1) as (s' & -> & ? & E & _). simpl.
    split_and!; [by apply (esm_inv_eq s')|right; exists (Close sid); by rewrite E|done].
  - split_and!; [by apply (esm_inv_eq s)|right; by exists o|done].
Qed.

Lemma esm_inv_initial : esm_inv initial_esm.
Proof.
  constructor; simpl.
  - intros k x. unfold subs. simpl. rewrite lookup_empty. simpl. split; [set_solver|]. intros (d & Hd & _). by rewrite lookup_empty in Hd.
  - intros k. rewrite lookup_empty. unfold subs. simpl. rewrite lookup_empty. split; [by intros []|done].
  - intros k i Hk. by rewrite lookup_empty in Hk.
  - intros i o Ho. by rewrite lookup_empty in Ho.
  - intros i _. by rewrite lookup_empty.
Qed.

Lemma event_run_ok h : Forall (fun x => registered x.2) h ->
  esm_inv (event_run h initial_esm) /\
  exists h', ev_world (event_run h initial_esm) = exec_all check_unixhash rounds jobs ENOTAUTHENTICATED h' initial_world.
Proof.
  induction h as [|x h IH] using rev_ind; intros Hreg.
  - split; [apply esm_inv_initial|]. by exists [].
  - apply Forall_app in Hreg as [Hh Hx]. rewrite Forall_singleton in Hx. destruct (IH Hh) as [Hi [h' Hw]].
    unfold EventSources.event_run. rewrite foldl_snoc. fold (event_run h initial_esm).
    destruct (event_exec_ok x.1 x.2 _ Hi Hx) as (Hi' & [E|[o E]] & _); (split; [done|]).
    + exists h'. by rewrite E.
    + exists (h' ++ [(x.1, o)]). unfold exec_all. rewrite foldl_snoc. by rewrite E, Hw.
Qed.

(** ** Theorems *)

(** A source that was started and is neither cancelled nor over. *)
Definition live (s : esm) (i : nat) (k : key) : Prop :=
  exists o, sources s !! i = Some o /\ (es_name o, es_arg o) = k /\ es_canceled o = false /\ es_phase o ≠ EEnded.

(** C15: The tables of the event source manager agree after every history: a
    subscriber has exactly one live instance of its source with its argument,
    the one in the table, and every live instance has a subscriber; taking
    subscriptions away (a client unsubscribes, logs out or closes, a source ends)
    never fails on a missing key. *)
Theorem event_sources_consistent (h : list (config * event_op)) (Hreg : Forall (fun x => registered x.2) h) :
  let s := event_run h initial_esm in
  (forall ident d, idents s !! ident = Some d -> exists i,
     instances s !! (id_name d, id_arg d) = Some i /\ live s i (id_name d, id_arg d) /\
     forall j, live s j (id_name d, id_arg d) -> j = i) /\
  (forall i k, live s i k -> exists ident d, idents s !! ident = Some d /\ (id_name d, id_arg d) = k) /\
  (forall cf o, removes o = true -> (event_exec cf o s).2 = Ok tt).
Proof.
  intros s. destruct (event_run_ok h Hreg) as [Hi _]. fold s in Hi. split_and!.
  - intros ident d Hd.
    assert (is_Some (instances s !! (id_name d, id_arg d))) as [i Hik].
    { apply (ei_inst s Hi). assert (ident ∈ subs s (id_name d, id_arg d)) by (apply (ei_subs s Hi); eauto). set_solver. }
    exists i. split_and!; [done|by apply (ei_obj s Hi)|].
    intros j (o & Ho & E & Hc & Hp). pose proof (ei_live s Hi j o Ho Hc Hp). congruence.
  - intros i k (o & Ho & <- & Hc & Hp). pose proof (ei_live s Hi i o Ho Hc Hp) as Hl.
    assert (subs s (es_name o, es_arg o) ≠ ∅) as [x Hx]%set_choose_L by (apply (ei_inst s Hi); eauto).
    apply (ei_subs s Hi) in Hx as (d & Hd & E). eauto.
  - intros cf o Ho. apply event_exec_ok; [done| |done]. by destruct o.
Qed.

(** Plain subscriptions outlive the session: [auth.logout] ends the
    subscriptions to event sources, but not the others, and sending an event
    does not look at the credentials.  A connection that subscribed is still sent
    the event when it is no longer authenticated. *)
Theorem events_after_logout (h : list (config * event_op)) (cf : config) (sid ident name ty : string) (r : nat)
  (l : list (string * string)) (Hreg : Forall (fun x => registered x.2) h)
  (Hsub : app_subscriptions (event_run h initial_esm) !! sid = Some l) (Hident : Dict.get ident l = Some name)
  (Hcred : app_cred (ev_world (event_run h initial_esm)) sid = Some r)
  (Hdump : is_Some (dump_credentials (ev_world (event_run h initial_esm)) r)) :
  let s := (event_exec cf (ELogout sid) (event_run h initial_esm)).1 in
  app_cred (ev_world s) sid = None /\
  delivered (event_exec cf (ESendEvent name ty (fun x => String.eqb x sid)) s).1 = delivered s ++ [DEvent sid name ty].
Proof.
  destruct (event_run_ok h Hreg) as [Hi [h' Hw]]. set (s0 := event_run h initial_esm) in *.
  destruct (unsubscribe_app_spec sid s0 Hi) as (s1 & Hun & _ & E1 & E2). set (s2 := set_ev_world (logout sid (ev_world s1)).1 s1).
  assert (event_exec cf (ELogout sid) s0 = (s2, Ok tt)) as ->
    by (cbn [EventSources.event_exec]; unfold auth_logout, mbind, ste_mbind; by rewrite Hun).
  cbv zeta. cbn [fst EventSources.event_exec].
  assert (wf (ev_world s0)) as Hwf by (rewrite Hw; apply wf_exec_all, wf_initial).
  destruct (logout_ends (ev_world s0) sid r Hwf Hcred Hdump) as [Hout _].
  assert ((logout sid (ev_world s1)).1 = (session_logout sid (ev_world s0)).1) as El.
  { rewrite E1. unfold logout, mbind, ste_mbind. by destruct (session_logout sid (ev_world s0)) as [w [[]|e]]. }
  split; [unfold s2; simpl; by rewrite El|].
  unfold send_event. rewrite ste_bind_gets. simpl. rewrite E2.
  assert (filter (fun x => String.eqb x sid = true) (map_to_list (app_subscriptions s0)).*1 = [sid]) as ->.
  { pose proof (NoDup_fst_map_to_list (app_subscriptions s0)) as Hnd.
    assert (sid ∈ (map_to_list (app_subscriptions s0)).*1) as Hin
      by (apply list_elem_of_fmap; exists (sid, l); split; [done|by apply elem_of_map_to_list]).
    revert Hnd Hin. generalize ((map_to_list (app_subscriptions s0)).*1) as xs. clear. intros xs Hnd Hin.
    induction xs as [|x xs IH]; [set_solver|]. apply NoDup_cons in Hnd as [Hx Hnd]. rewrite filter_cons.
    case_decide as Hd; [apply String.eqb_eq in Hd as ->|].
    - f_equal. apply elem_of_nil_inv. intros y [->%String.eqb_eq Hy]%list_elem_of_filter. done.
    - apply IH; [done|]. apply elem_of_cons in Hin as [->|]; [|done]. by rewrite String.eqb_refl in Hd. }
  cbn [send_clients]. unfold mbind at 1, ste_mbind at 1.
  assert (app_send_event event_sources sid name ty s2 = (set_delivered (delivered s2 ++ [DEvent sid name ty]) s2, Ok tt)) as Hs; [|by rewrite Hs].
  unfold app_send_event. rewrite ste_bind_gets. simpl. rewrite E2, Hsub. simpl.
  assert (existsb (fun i => String.eqb i name || String.eqb i "*") (Dict.values l) = true) as ->; [|done].
  apply existsb_exists. exists name. rewrite String.eqb_refl. split; [|done].
  apply list_elem_of_In. apply Dict.get_Some_elem in Hident. unfold Dict.values. apply list_elem_of_fmap. by exists (ident, name).
Qed.
End props.
