(* ===== verification/EventDemo.v ===== *)
(** * Concrete subscriptions

    A client of [SessionDemo] that subscribes to an event source and to a plain
    event, on which the theorems of [EventProps] apply. *)

From S2P Require Import Prelude PyDict PyStr PyVal Errors Roles Allowlist Privilege Origin RateLimit AuthLevels Authenticator Sessions Login SessionInv SessionProps SessionDemo EventSources EventProps.

Module EventDemo.
#[local] Existing Instance Demo.demo_pam.

Definition cf : config := Demo.demo_config Demo.readonly 100.
Definition event_sources : list string := ["reporting.realtime"].
Definition events (name : string) : option (bool * bool) := Some (false, true).

Notation erun := (event_run Demo.check 4 Demo.no_jobs Demo.ENOTAUTHENTICATED event_sources events).
Notation eexec := (event_exec Demo.check 4 Demo.no_jobs Demo.ENOTAUTHENTICATED event_sources events).

Definition history : list (config * event_op) :=
  [(cf, EConnect "s1" (Demo.tcp "10.0.0.7")); (cf, EAuth (LoginEx "t0" "s1" (Demo.password "alice" "secret")));
   (cf, ESubscribe "s1" "id1" "reporting.realtime:{}" VAccepted); (cf, ESubscribe "s1" "id2" "alert.list" VAccepted)].

Definition final : esm := erun history initial_esm.

Lemma history_registered : Forall (fun x => registered event_sources x.2) history.
Proof. by repeat constructor. Qed.

Definition data : IdentData := mkIdent (AppSubscriber "s1" "reporting.realtime:{}") "reporting.realtime" (Some "{}").

Lemma event_sources_consistent_witness :
  exists i, instances final !! ("reporting.realtime", Some "{}") = Some i /\ live final i ("reporting.realtime", Some "{}").
Proof.
  destruct (event_sources_consistent Demo.check 4 Demo.no_jobs Demo.ENOTAUTHENTICATED event_sources events history
    history_registered) as [H _].
  destruct (H "s1id1" data ltac:(vm_compute; reflexivity)) as (i & H1 & H2 & _). exists i. split; [exact H1|exact H2].
Defined.

Lemma events_after_logout_witness :
  let s := (eexec cf (ELogout "s1") final).1 in
  app_cred (ev_world s) "s1" = None /\
  delivered (eexec cf (ESendEvent "alert.list" "ADDED" (fun x => String.eqb x "s1")) s).1
    = delivered s ++ [DEvent "s1" "alert.list" "ADDED"].
Proof.
  apply (events_after_logout Demo.check 4 Demo.no_jobs Demo.ENOTAUTHENTICATED event_sources events history cf "s1" "id2" "alert.list"
    "ADDED" 2 [("id2", "alert.list")] history_registered).
  - vm_compute. reflexivity.
  - reflexivity.
  - vm_compute. reflexivity.
  - vm_compute. eexists. reflexivity.
Defined.
End EventDemo.
