(* ===== verification/AlertBase.v ===== *)
(** * Alert classes, alerts, schedules and alert texts
    (src/middlewared/middlewared/alert/base.py, alert/schedule.py)

    A subclass of [AlertClass] is a record: its configuration and the class
    methods it may override, with the default implementations of the base
    classes.  A [datetime] is its wall clock reading in microseconds since
    [datetime.min] with the UTC offset of its time zone, if it has one. *)

From S2P Require Import Prelude PyDict PyStr PyVal PyFormat Errors.

(** ** Dates *)

Record datetime := mkDT { dt_us : Z; dt_off : option Z }.

#[global] Instance datetime_eq_dec : EqDecision datetime.
Proof. solve_decision. Defined.

Definition datetime_min : Z := 0.
Definition HOUR : Z := 3600000000.
Definition DAY : Z := 86400000000.

Definition dt_date (us : Z) : Z := us / DAY.
Definition dt_hour (us : Z) : Z := us mod DAY / HOUR.

Definition naive (us : Z) : datetime := mkDT us None.

(** [d.astimezone(timezone.utc).replace(tzinfo=None)] of an aware [d]; a naive one
    is left alone by the caller. *)
Definition to_naive_utc (d : datetime) : datetime :=
  match dt_off d with
  | Some off => naive (dt_us d - off)
  | None => d
  end.

(** ** Levels and categories *)

Inductive AlertLevel := INFO | NOTICE | WARNING | ERROR | CRITICAL | ALERT | EMERGENCY.

#[global] Instance AlertLevel_eq_dec : EqDecision AlertLevel.
Proof. solve_decision. Defined.

Definition level_value (l : AlertLevel) : Z :=
  match l with
  | INFO => 1 | NOTICE => 2 | WARNING => 3 | ERROR => 4 | CRITICAL => 5 | ALERT => 6 | EMERGENCY => 7
  end.

Inductive AlertCategory :=
| APPLICATIONS | AUDIT | CERTIFICATES | CLUSTERING | DIRECTORY_SERVICE | HA | HARDWARE | KMIP | PLUGINS
| NETWORK | REPORTING | SECURITY | SHARING | STORAGE | SYSTEM | TASKS | TRUENAS_CONNECT | UPS.

#[global] Instance AlertCategory_eq_dec : EqDecision AlertCategory.
Proof. solve_decision. Defined.

Definition categories : list AlertCategory :=
  [APPLICATIONS; AUDIT; CERTIFICATES; CLUSTERING; DIRECTORY_SERVICE; HA; HARDWARE; KMIP; PLUGINS;
   NETWORK; REPORTING; SECURITY; SHARING; STORAGE; SYSTEM; TASKS; TRUENAS_CONNECT; UPS].

Definition alert_category_names (c : AlertCategory) : string :=
  match c with
  | APPLICATIONS => "Applications"
  | AUDIT => "Audit"
  | CERTIFICATES => "Certificates"
  | CLUSTERING => "Clustering"
  | DIRECTORY_SERVICE => "Directory Service"
  | HA => "High-Availability"
  | HARDWARE => "Hardware"
  | KMIP => "Key Management Interoperability Protocol (KMIP)"
  | PLUGINS => "Plugins"
  | NETWORK => "Network"
  | REPORTING => "Reporting"
  | SECURITY => "Security"
  | SHARING => "Sharing"
  | STORAGE => "Storage"
  | SYSTEM => "System"
  | TASKS => "Tasks"
  | TRUENAS_CONNECT => "TrueNAS Connect Service"
  | UPS => "UPS"
  end.

(** ** Alert classes *)

Definition COMMUNITY_EDITION : string := "COMMUNITY_EDITION".
Definition ENTERPRISE : string := "ENTERPRISE".

Record AlertClassConfig := mkConfig {
  category : AlertCategory;
  level : AlertLevel;
  title : string;
  config_text : option string;
  exclude_from_list : bool;
  products : list string;
  proactive_support : bool;
  proactive_support_notify_gone : bool;
  deleted_automatically : bool;
  expires_after : option Z;
  keys : option (list string);
  name : string;
}.

(** Which of the base classes a class derives from, and whether it is a
    dataclass (arguments in a dict), a [NonDataclassAlertClass] (arguments as
    given) or a plain class (no arguments). *)
Inductive args_style := Dataclass | NonDataclass | Plain.

#[global] Instance args_style_eq_dec : EqDecision args_style.
Proof. solve_decision. Defined.

Record AlertClass := mkClass {
  config : AlertClassConfig;
  style : args_style;
  is_oneshot : bool;
  is_dismissable : bool;
  (** [cls.key_from_args] *)
  key_from_args : json -> json;
}.

(** [AlertClass.key_from_args], the default. *)
Definition default_key_from_args (args : json) : json := args.

(** An instance of an alert class.  [inst_id] is its Python identity: instances of
    a class that is not a dataclass are equal only to themselves. *)
Record Instance_ := mkInst { inst_id : nat; inst_class : AlertClass; inst_args : json }.

Definition inst_name (i : Instance_) : string := name (config (inst_class i)).

(** [instance.args()] *)
Definition args (i : Instance_) : json :=
  match style (inst_class i) with Plain => JNull | _ => inst_args i end.

(** [klass.from_args(args)] *)
Definition from_args (id : nat) (c : AlertClass) (a : json) : Instance_ :=
  mkInst id c (match style c with Plain => JNull | _ => a end).

Definition instance_eqb (i j : Instance_) : bool :=
  bool_decide (inst_id i = inst_id j)
  || (bool_decide (style (inst_class i) = Dataclass) && bool_decide (inst_name i = inst_name j)
      && json_eqb (inst_args i) (inst_args j)).

(** [AlertClass.format]; [None] is the exception of the [%] operator. *)
Definition format (c : AlertClass) (a : json) : option string :=
  match config_text (config c) with
  | None => Some (title (config c))
  | Some text =>
      match a with
      | JNull => Some text
      | JList l => Fmt.percent text (Fmt.Positional l)
      | JDict d => Fmt.percent text (Fmt.Mapping d [a])
      | _ => Fmt.percent text (Fmt.Positional [a])
      end
  end.

(** ** Alerts *)

(** [str(uuid.uuid4())]: a number that was never drawn before. *)
Notation uuid_t := nat (only parsing).

Record Alert := mkAlert {
  instance : Instance_;
  a_datetime : option datetime;
  last_occurrence : option datetime;
  node : option string;
  dismissed : option bool;
  mail : json;
  uuid : option uuid_t;
  source : option string;
  key : string;
  text : string;
}.

(** [Alert.__init__] *)
Definition Alert_init (i : Instance_) (dt last : option datetime) (nd : option string) (dis : option bool)
    (ml : json) (_uuid : option uuid_t) (_source _key _text : option string) : Alert :=
  let cfg := config (inst_class i) in
  mkAlert i dt (match last with Some l => Some l | None => dt end) nd dis ml _uuid _source
    (match _key with
     | Some k => k
     | None => Fmt.dumps (key_from_args (inst_class i) (args i))
     end)
    (match _text with
     | Some (String c t) => String c t
     | _ => match config_text cfg with
            | Some (String c t) => String c t
            | _ => title cfg
            end
     end).

(** [Alert(instance)] *)
Definition new_alert (i : Instance_) : Alert := Alert_init i None None None None JNull None None None None.

(** [Alert.__eq__] *)
Definition alert_eqb (a b : Alert) : bool :=
  instance_eqb (instance a) (instance b) && bool_decide (a_datetime a = a_datetime b)
  && bool_decide (last_occurrence a = last_occurrence b) && bool_decide (node a = node b)
  && bool_decide (dismissed a = dismissed b) && json_eqb (mail a) (mail b) && bool_decide (uuid a = uuid b)
  && bool_decide (source a = source b) && String.eqb (key a) (key b) && String.eqb (text a) (text b).

(** [Alert.formatted] *)
Definition formatted (a : Alert) : string :=
  default (text a) (format (inst_class (instance a)) (args (instance a))).

(** Attribute assignments. *)
Definition set_dismissed (b : bool) (a : Alert) : Alert :=
  mkAlert (instance a) (a_datetime a) (last_occurrence a) (node a) (Some b) (mail a) (uuid a) (source a) (key a) (text a).
Definition set_node (n : string) (a : Alert) : Alert :=
  mkAlert (instance a) (a_datetime a) (last_occurrence a) (Some n) (dismissed a) (mail a) (uuid a) (source a) (key a) (text a).
Definition set_source (s : string) (a : Alert) : Alert :=
  mkAlert (instance a) (a_datetime a) (last_occurrence a) (node a) (dismissed a) (mail a) (uuid a) (Some s) (key a) (text a).

(** [OneShotAlertClass.delete]: the alerts that do not match [query]; the error is
    the exception of an attribute or key that is missing. *)
Definition get_attr (k : string) (i : Instance_) : option json :=
  match style (inst_class i) with Dataclass => jget k (inst_args i) | _ => None end.

(** [any(getattr(alert.instance, k) != query[k] for k in keys)] *)
Fixpoint differs (ks : list string) (i : Instance_) (query : json) : result exn bool :=
  match ks with
  | [] => Ok false
  | k :: ks =>
      match get_attr k i, jget k query with
      | Some v, Some w => if json_eqb v w then differs ks i query else Ok true
      | None, _ => Err (EOther "AttributeError" k)
      | _, None => Err (EOther "KeyError" k)
      end
  end.

Definition oneshot_keeps (c : AlertClass) (query : json) (a : Alert) : result exn bool :=
  match keys (config c) with
  | Some ks => match query with
               | JNull => Ok false
               | _ => differs ks (instance a) query
               end
  | None => Ok (negb (json_eqb (key_from_args c (args (instance a))) query))
  end.

(** ** Schedules *)

Inductive BaseSchedule := IntervalSchedule (interval : Z) | CrontabSchedule (hour : Z).

(** [should_run]; [utcoffset] is the local time zone of the host. *)
Definition should_run (utcoffset : Z -> Z) (s : BaseSchedule) (now last_run : Z) : bool :=
  match s with
  | IntervalSchedule interval => (last_run + interval <=? now)%Z
  | CrontabSchedule hour =>
      if decide (last_run = datetime_min) then true
      else
        let local_now := (now + utcoffset now)%Z in
        let local_last_run := (last_run + utcoffset last_run)%Z in
        (dt_hour local_now =? hour)%Z && negb (dt_date local_last_run =? dt_date local_now)%Z
  end.

(** The class attributes of an [AlertSource] subclass. *)
Record AlertSource := mkSource {
  src_name : string;
  schedule : BaseSchedule;
  src_products : list string;
  failover_related : bool;
  run_on_backup_node : bool;
  require_stable_peer : bool;
}.

(** ** Alert texts *)

Section texts.
(** [node_map[alert.node]]; [None] is the [KeyError]. *)
Definition format_alert (a : Alert) (node_map : option (list (string * string))) : option string :=
  match node_map with
  | Some ((_ :: _) as m) => (fun n => n +:+ " - " +:+ formatted a) <$> (node a ≫= fun n => Dict.get n m)
  | _ => Some (formatted a)
  end.

Definition items (node_map : option (list (string * string))) (l : list Alert) : option string :=
  (fun t => Str.join "" (map (fun s => "<li>" +:+ s +:+ "</li>" +:+ NL) t)) <$> mapM (fun a => format_alert a node_map) l.

Definition format_alerts (product_name hostname : string) (node_map : option (list (string * string)))
    (alerts gone_alerts new_alerts : list Alert) : option string :=
  let text := product_name +:+ " @ " +:+ hostname +:+ "<br><br>" in
  let test := match alerts, gone_alerts, new_alerts with
              | [_], [], [a] => String.eqb (inst_name (instance a)) "Test"
              | _, _, _ => false
              end in
  if test then Some (text +:+ "This is a test alert")
  else
    n ← match new_alerts with
        | [] => Some ""
        | _ => (fun i => (if length gone_alerts =? 1 then "New alert" else "New alerts") +:+ ":" +:+ NL +:+ "<ul>" +:+ i +:+ "</ul>")
               <$> items node_map new_alerts
        end;
    g ← match gone_alerts with
        | [] => Some ""
        | _ => (fun i => (if length gone_alerts =? 1 then "The following alert has been cleared" else "These alerts have been cleared")
                         +:+ ":" +:+ NL +:+ "<ul>" +:+ i +:+ "</ul>" +:+ NL)
               <$> items node_map gone_alerts
        end;
    c ← match alerts with
        | [] => Some ""
        | _ => (fun i => "Current alerts:" +:+ NL +:+ "<ul>" +:+ i +:+ "</ul>" +:+ NL) <$> items node_map alerts
        end;
    Some (text +:+ n +:+ g +:+ c).

End texts.

(** [s[:n]] of a Python integer. *)
Definition slice_to (s : string) (n : Z) : string :=
  Str.take (Z.to_nat (if (0 <=? n)%Z then n else Z.of_nat (String.length s) + n)) s.

(** [ellipsis]; [mark] stands for the one character U+2026. *)
Definition ellipsis (mark : Ascii.ascii) (s : string) (length : Z) : string :=
  if (Z.of_nat (String.length s) <=? length)%Z then s else slice_to s (length - 1) +:+ String mark "".

(** ** [ProThreadedAlertService.send_sync]

    Every gone alert is deleted and every new alert created even when some of
    the calls raise; the last exception is raised at the end.  The calls are
    those of the service, in order, with their outcomes. *)

Inductive service_call := DeleteAlert (a : Alert) | CreateAlert (a : Alert).

Section send_sync.
Context (outcome : service_call -> result exn unit).

Definition attempt (st : list service_call * option exn) (c : service_call) : list service_call * option exn :=
  (st.1 ++ [c], match outcome c with Ok _ => st.2 | Err e => Some e end).

Definition send_sync (alerts gone_alerts new_alerts : list Alert) : list service_call * result exn unit :=
  let '(calls, exc) := foldl attempt ([], None) (map DeleteAlert gone_alerts ++ map CreateAlert new_alerts) in
  (calls, match exc with Some e => Err e | None => Ok tt end).
End send_sync.

(** ** [bisect] of src/middlewared/middlewared/utils/__init__.py *)

Fixpoint bisect {V} (condition : V -> bool) (l : list V) : list V * list V :=
  match l with
  | [] => ([], [])
  | v :: l => let '(a, b) := bisect condition l in if condition v then (v :: a, b) else (a, v :: b)
  end.

Lemma bisect_filter {V} (condition : V -> bool) (l : list V) :
  bisect condition l = (List.filter condition l, List.filter (fun v => negb (condition v)) l).
Proof. induction l as [|v l IH]; simpl; [done|]. rewrite IH. by destruct (condition v). Qed.

Lemma alert_eqb_uuid a b : alert_eqb a b = true -> uuid a = uuid b.
Proof. unfold alert_eqb. rewrite !andb_true_iff, !bool_decide_eq_true. tauto. Qed.

Lemma alert_eqb_refl a : alert_eqb a a = true.
Proof.
  assert (forall j, json_eqb j j = true) as Hj by (intros j; by apply json_eqb_eq).
  unfold alert_eqb, instance_eqb. rewrite !andb_true_iff, orb_true_iff, !String.eqb_refl, Hj.
  rewrite !bool_decide_eq_true. intuition.
Qed.
