(* ===== verification/Alerts.v ===== *)
(** * The alert service (src/middlewared/middlewared/plugins/alert/alert.py)

    Alerts are mutable objects shared by [self.alerts], by the snapshots of the
    notification policies and by the job that runs the checks; the model keeps
    them in a heap and the lists hold references.

    The jobs [process_alerts] and [send_alerts] suspend at every call of another
    service.  They are cut there: [pc] is the point where the job that holds the
    lock [process_alerts] waits, and between two of its steps the other methods
    of the service run.  [oneshot_create] and [oneshot_delete] do not suspend
    between reading and writing the list of alerts and are one step each.
    [flush_alerts] and [initialize] are one step each, and [initialize] does not
    run while [send_alerts] iterates over the policies.

    What other services answer is an argument of the step ([Env], [Remote], the
    result of a check, the reply of the other controller). *)

From S2P Require Import Prelude PyDict PyStr PyVal PyFormat Errors AlertBase.

(** ** Policies *)

(** What [policy.key(now)] returns. *)
Inductive policy_key := KNone | KNow (us : Z) | KHour (date hour : Z) | KDate (date : Z).

#[global] Instance policy_key_eq_dec : EqDecision policy_key.
Proof. solve_decision. Defined.

#[global] Instance class_inhabited : Inhabited AlertClass :=
  populate (mkClass (mkConfig SYSTEM INFO "" None false [] false false true None None "NOTSET") Plain false false id).
#[global] Instance alert_inhabited : Inhabited Alert :=
  populate (mkAlert (mkInst 0 inhabitant JNull) None None None None JNull None None "" "").

Record AlertPolicy := mkPolicy {
  policy_fun : Z -> policy_key;
  last_key_value : policy_key;
  last_key_value_alerts : list (option uuid_t * nat);
}.

Definition new_policy (f : Z -> policy_key) : AlertPolicy := mkPolicy f KNone [].

(** [{alert.uuid: alert for alert in alerts}] *)
Definition by_uuid (h : gmap nat Alert) (l : list nat) : list (option uuid_t * nat) :=
  foldl (fun d r => Dict.set (uuid (h !!! r)) r d) [] l.

(** [AlertPolicy.receive_alerts]: the policy, the gone alerts, the new alerts. *)
Definition receive_alerts (h : gmap nat Alert) (now : Z) (l : list nat) (p : AlertPolicy)
    : AlertPolicy * list nat * list nat :=
  let alerts_by_uuid := by_uuid h l in
  let key := policy_fun p now in
  if decide (key = last_key_value p) then (p, [], [])
  else
    (mkPolicy (policy_fun p) key alerts_by_uuid,
     List.filter (fun r => negb (Dict.mem (uuid (h !!! r)) alerts_by_uuid)) (Dict.values (last_key_value_alerts p)),
     List.filter (fun r => negb (Dict.mem (uuid (h !!! r)) (last_key_value_alerts p))) (Dict.values alerts_by_uuid)).

(** [AlertPolicy.delete_alert] *)
Definition delete_alert (u : option uuid_t) (p : AlertPolicy) : AlertPolicy :=
  mkPolicy (policy_fun p) (last_key_value p) (Dict.pop u (last_key_value_alerts p)).

(** The policies [initialize] creates, in the order of the dict. *)
Definition initial_policies : list (string * AlertPolicy) :=
  [("IMMEDIATELY", new_policy KNow);
   ("HOURLY", new_policy (fun d => KHour (dt_date d) (dt_hour d)));
   ("DAILY", new_policy (fun d => KDate (dt_date d)));
   ("NEVER", new_policy (fun _ => KNone))].

Definition POLICIES : list string := ["IMMEDIATELY"; "HOURLY"; "DAILY"; "NEVER"].
Definition DEFAULT_POLICY : string := "IMMEDIATELY".
Definition FAILOVER_ALERTS_BACKOFF_SECS : Z := 900.

(** ** What the other services answer *)

(** An entry of [alertclasses.config().classes]. *)
Record ClassCfg := mkClassCfg { cfg_level : option AlertLevel; cfg_policy : option string; cfg_proactive : option bool }.

(** A row of [alertservice.query]. *)
Record ServiceDesc := mkService { svc_name : string; svc_type : string; svc_level : AlertLevel; svc_enabled : bool }.

(** A row of the table [system_alert]. *)
Record AlertRow := mkRow {
  row_node : option string;
  row_source : option string;
  row_key : string;
  row_datetime : option datetime;
  row_last_occurrence : option datetime;
  row_text : string;
  row_args : json;
  row_dismissed : option bool;
  row_uuid : option uuid_t;
  row_klass : string;
}.

Record Env := mkEnv {
  now : Z;  (** [utc_now()], in microseconds *)
  monotonic : Z;  (** [time.monotonic()], in seconds *)
  system_state : string;
  failover_licensed : bool;
  failover_status : string;
  failover_in_progress : bool;
  failover_node : string;
  is_enterprise : bool;
  product_type : string;
  classes : list (string * ClassCfg);
  services : list ServiceDesc;
  (** what the [load] method of a one-shot class keeps: whether a stored alert is
      still applicable *)
  applicable : AlertRow -> bool;
}.

(** The answers of the other controller to [failover.call_remote] and the version
    of this one. *)
Record Remote := mkRemote {
  this_version : string;
  remote_version : result exn string;
  remote_state : result exn string;
  remote_status : result exn string;
  remote_uptime : result exn Z;
}.

Record AlertFailoverInfo := mkFI {
  fi_this_node : string;
  fi_other_node : string;
  fi_run_on_backup_node : bool;
  fi_run_failover_related : bool;
}.

Record AlertSourceLock := mkLock { lock_source_name : string; expires_at : Z }.

(** [sources_run_times[name]], in milliseconds. *)
Record RunTimes := mkRT { rt_last : list Z; rt_max : Z; rt_count : Z; rt_total : Z }.
Definition no_runs : RunTimes := mkRT [] 0 0 0.

(** [AlertSerializer.serialize] *)
Record serialized := mkSer {
  ser_uuid : option uuid_t;
  ser_source : option string;
  ser_klass : string;
  ser_args : json;
  ser_node : string;
  ser_key : string;
  ser_datetime : option datetime;
  ser_last_occurrence : option datetime;
  ser_dismissed : option bool;
  ser_mail : json;
  ser_text : string;
  ser_level : AlertLevel;
  ser_formatted : string;
  ser_one_shot : bool;
}.

(** Effects outside the service. *)
Inductive effect :=
| EvAdded (u : option uuid_t) (fields : serialized)
| EvChanged (u : option uuid_t) (fields : serialized)
| EvRemoved (u : option uuid_t)
| EvChecked (name : string) (at_us : Z)  (** [check] of a source starts, in [process_alerts] *)
| EvSent (service policy : string) (alerts gone_alerts new_alerts : list Alert)
| EvMail (m : json)
| EvTicket (gone_alerts new_alerts : list Alert).

(** Where the job that holds the lock waits. *)
Inductive jobpc :=
(** [process_alerts] *)
| PPrologue (valid : list nat)
| PLoop (valid : list nat) (pt : string) (fi : AlertFailoverInfo) (todo : list AlertSource)
| PCheck (valid : list nat) (pt : string) (fi : AlertFailoverInfo) (src : AlertSource) (todo : list AlertSource)
| PRemote (valid : list nat) (pt : string) (fi : AlertFailoverInfo) (src : AlertSource) (todo : list AlertSource)
    (this : list nat)
| PExpired (valid : list nat)
(** [send_alerts] *)
| SLoop (at_us : Z) (pt : string) (cls : list (string * ClassCfg)) (todo : list string)
| SServices (at_us : Z) (pt : string) (cls : list (string * ClassCfg)) (policy : string) (gone new : list nat)
    (svcs : list ServiceDesc) (todo : list string).

(** ** The service *)

Record st := mkSt {
  heap : gmap nat Alert;  (** objects of class [Alert], by reference *)
  next_ref : nat;
  next_uuid : nat;  (** the next [uuid.uuid4()] *)
  alerts : list nat;
  policies : list (string * AlertPolicy);
  this_node_name : string;  (** [self.node] *)
  blocked_sources : list (string * gset nat);
  sources_locks : list (nat * AlertSourceLock);
  blocked_failover_alerts_until : Z;
  sources_run_times : list (string * RunTimes);
  alert_source_last_run : list (string * Z);
  alert_sources_errors : gset string;
  SEND_ALERTS_ON_READY : bool;
  rows : list AlertRow;  (** the table [system_alert] *)
  log : list effect;  (** effects, the latest last *)
  pc : option jobpc;  (** the job that holds the lock [process_alerts] *)
  dismissals : list (nat * list nat);  (** calls of [dismiss] that wait for [klass.dismiss] *)
}.

Definition set_heap (v : gmap nat Alert) (s : st) : st :=
  mkSt v (next_ref s) (next_uuid s) (alerts s) (policies s) (this_node_name s) (blocked_sources s) (sources_locks s) (blocked_failover_alerts_until s) (sources_run_times s) (alert_source_last_run s) (alert_sources_errors s) (SEND_ALERTS_ON_READY s) (rows s) (log s) (pc s) (dismissals s).
Definition set_next_ref (v : nat) (s : st) : st :=
  mkSt (heap s) v (next_uuid s) (alerts s) (policies s) (this_node_name s) (blocked_sources s) (sources_locks s) (blocked_failover_alerts_until s) (sources_run_times s) (alert_source_last_run s) (alert_sources_errors s) (SEND_ALERTS_ON_READY s) (rows s) (log s) (pc s) (dismissals s).
Definition set_next_uuid (v : nat) (s : st) : st :=
  mkSt (heap s) (next_ref s) v (alerts s) (policies s) (this_node_name s) (blocked_sources s) (sources_locks s) (blocked_failover_alerts_until s) (sources_run_times s) (alert_source_last_run s) (alert_sources_errors s) (SEND_ALERTS_ON_READY s) (rows s) (log s) (pc s) (dismissals s).
Definition set_alerts (v : list nat) (s : st) : st :=
  mkSt (heap s) (next_ref s) (next_uuid s) v (policies s) (this_node_name s) (blocked_sources s) (sources_locks s) (blocked_failover_alerts_until s) (sources_run_times s) (alert_source_last_run s) (alert_sources_errors s) (SEND_ALERTS_ON_READY s) (rows s) (log s) (pc s) (dismissals s).
Definition set_policies (v : list (string * AlertPolicy)) (s : st) : st :=
  mkSt (heap s) (next_ref s) (next_uuid s) (alerts s) v (this_node_name s) (blocked_sources s) (sources_locks s) (blocked_failover_alerts_until s) (sources_run_times s) (alert_source_last_run s) (alert_sources_errors s) (SEND_ALERTS_ON_READY s) (rows s) (log s) (pc s) (dismissals s).
Definition set_this_node_name (v : string) (s : st) : st :=
  mkSt (heap s) (next_ref s) (next_uuid s) (alerts s) (policies s) v (blocked_sources s) (sources_locks s) (blocked_failover_alerts_until s) (sources_run_times s) (alert_source_last_run s) (alert_sources_errors s) (SEND_ALERTS_ON_READY s) (rows s) (log s) (pc s) (dismissals s).
Definition set_blocked_sources (v : list (string * gset nat)) (s : st) : st :=
  mkSt (heap s) (next_ref s) (next_uuid s) (alerts s) (policies s) (this_node_name s) v (sources_locks s) (blocked_failover_alerts_until s) (sources_run_times s) (alert_source_last_run s) (alert_sources_errors s) (SEND_ALERTS_ON_READY s) (rows s) (log s) (pc s) (dismissals s).
Definition set_sources_locks (v : list (nat * AlertSourceLock)) (s : st) : st :=
  mkSt (heap s) (next_ref s) (next_uuid s) (alerts s) (policies s) (this_node_name s) (blocked_sources s) v (blocked_failover_alerts_until s) (sources_run_times s) (alert_source_last_run s) (alert_sources_errors s) (SEND_ALERTS_ON_READY s) (rows s) (log s) (pc s) (dismissals s).
Definition set_blocked_failover_alerts_until (v : Z) (s : st) : st :=
  mkSt (heap s) (next_ref s) (next_uuid s) (alerts s) (policies s) (this_node_name s) (blocked_sources s) (sources_locks s) v (sources_run_times s) (alert_source_last_run s) (alert_sources_errors s) (SEND_ALERTS_ON_READY s) (rows s) (log s) (pc s) (dismissals s).
Definition set_sources_run_times (v : list (string * RunTimes)) (s : st) : st :=
  mkSt (heap s) (next_ref s) (next_uuid s) (alerts s) (policies s) (this_node_name s) (blocked_sources s) (sources_locks s) (blocked_failover_alerts_until s) v (alert_source_last_run s) (alert_sources_errors s) (SEND_ALERTS_ON_READY s) (rows s) (log s) (pc s) (dismissals s).
Definition set_alert_source_last_run (v : list (string * Z)) (s : st) : st :=
  mkSt (heap s) (next_ref s) (next_uuid s) (alerts s) (policies s) (this_node_name s) (blocked_sources s) (sources_locks s) (blocked_failover_alerts_until s) (sources_run_times s) v (alert_sources_errors s) (SEND_ALERTS_ON_READY s) (rows s) (log s) (pc s) (dismissals s).
Definition set_alert_sources_errors (v : gset string) (s : st) : st :=
  mkSt (heap s) (next_ref s) (next_uuid s) (alerts s) (policies s) (this_node_name s) (blocked_sources s) (sources_locks s) (blocked_failover_alerts_until s) (sources_run_times s) (alert_source_last_run s) v (SEND_ALERTS_ON_READY s) (rows s) (log s) (pc s) (dismissals s).
Definition set_SEND_ALERTS_ON_READY (v : bool) (s : st) : st :=
  mkSt (heap s) (next_ref s) (next_uuid s) (alerts s) (policies s) (this_node_name s) (blocked_sources s) (sources_locks s) (blocked_failover_alerts_until s) (sources_run_times s) (alert_source_last_run s) (alert_sources_errors s) v (rows s) (log s) (pc s) (dismissals s).
Definition set_rows (v : list AlertRow) (s : st) : st :=
  mkSt (heap s) (next_ref s) (next_uuid s) (alerts s) (policies s) (this_node_name s) (blocked_sources s) (sources_locks s) (blocked_failover_alerts_until s) (sources_run_times s) (alert_source_last_run s) (alert_sources_errors s) (SEND_ALERTS_ON_READY s) v (log s) (pc s) (dismissals s).
Definition set_log (v : list effect) (s : st) : st :=
  mkSt (heap s) (next_ref s) (next_uuid s) (alerts s) (policies s) (this_node_name s) (blocked_sources s) (sources_locks s) (blocked_failover_alerts_until s) (sources_run_times s) (alert_source_last_run s) (alert_sources_errors s) (SEND_ALERTS_ON_READY s) (rows s) v (pc s) (dismissals s).
Definition set_pc (v : option jobpc) (s : st) : st :=
  mkSt (heap s) (next_ref s) (next_uuid s) (alerts s) (policies s) (this_node_name s) (blocked_sources s) (sources_locks s) (blocked_failover_alerts_until s) (sources_run_times s) (alert_source_last_run s) (alert_sources_errors s) (SEND_ALERTS_ON_READY s) (rows s) (log s) v (dismissals s).
Definition set_dismissals (v : list (nat * list nat)) (s : st) : st :=
  mkSt (heap s) (next_ref s) (next_uuid s) (alerts s) (policies s) (this_node_name s) (blocked_sources s) (sources_locks s) (blocked_failover_alerts_until s) (sources_run_times s) (alert_source_last_run s) (alert_sources_errors s) (SEND_ALERTS_ON_READY s) (rows s) (log s) (pc s) v.

(** ** Objects *)

Definition obj (s : st) (r : nat) : Alert := heap s !!! r.

Definition put (r : nat) (a : Alert) (s : st) : st := set_heap (<[r := a]> (heap s)) s.

(** A new [Alert] object; its instance is created with it. *)
Definition alloc (a : nat -> Alert) (s : st) : st * nat :=
  let r := next_ref s in (set_next_ref (S r) (put r (a r) s), r).

Fixpoint alloc_all (l : list (nat -> Alert)) (s : st) : st * list nat :=
  match l with
  | [] => (s, [])
  | a :: l => let '(s, r) := alloc a s in let '(s, rs) := alloc_all l s in (s, r :: rs)
  end.

(** [str(uuid.uuid4())] *)
Definition fresh_uuid (s : st) : st * uuid_t := (set_next_uuid (S (next_uuid s)) s, next_uuid s).

Definition emit (e : effect) (s : st) : st := set_log (log s ++ [e]) s.

(** [a == b] of two references. *)
Definition same (s : st) (r r' : nat) : bool := bool_decide (r = r') || alert_eqb (obj s r) (obj s r').

(** [x in l] *)
Definition isin (s : st) (x : nat) (l : list nat) : bool := existsb (same s x) l.

(** [l.remove(x)]; [None] is the [ValueError]. *)
Fixpoint remove (s : st) (x : nat) (l : list nat) : option (list nat) :=
  match l with
  | [] => None
  | r :: l => if same s x r then Some l else (fun l => r :: l) <$> remove s x l
  end.

(** [copy.deepcopy(l)] of a list of alerts *)
Definition copy_alert (a : Alert) (r : nat) : Alert :=
  mkAlert (mkInst r (inst_class (instance a)) (inst_args (instance a))) (a_datetime a) (last_occurrence a) (node a)
    (dismissed a) (mail a) (uuid a) (source a) (key a) (text a).

Definition deepcopy (l : list nat) (s : st) : st * list nat := alloc_all (map (fun r => copy_alert (obj s r)) l) s.

(** ** Levels, policies and visibility *)

Definition cfg_of (a : Alert) (cls : list (string * ClassCfg)) : option ClassCfg :=
  Dict.get (inst_name (instance a)) cls.

Definition acfg (a : Alert) : AlertClassConfig := config (inst_class (instance a)).

Definition get_alert_level (a : Alert) (cls : list (string * ClassCfg)) : AlertLevel :=
  default (level (acfg a)) (cfg_of a cls ≫= cfg_level).

Definition get_alert_policy (a : Alert) (cls : list (string * ClassCfg)) : string :=
  default DEFAULT_POLICY (cfg_of a cls ≫= cfg_policy).

Definition has_product (pt : string) (a : Alert) : bool := bool_decide (pt ∈ products (acfg a)).

(** [AlertSerializer.should_show_alert] *)
Definition should_show_alert (e : Env) (a : Alert) : bool :=
  has_product (product_type e) a && negb (bool_decide (cfg_of a (classes e) ≫= cfg_policy = Some "NEVER")).

(** [status.title()] of one word *)
Definition title_case (w : string) : string :=
  match w with
  | "" => ""
  | String c w => String (if (97 <=? Ascii.nat_of_ascii c) && (Ascii.nat_of_ascii c <=? 122)
                          then Ascii.ascii_of_nat (Ascii.nat_of_ascii c - 32) else c) (Str.lower w)
  end.

Definition node_map (e : Env) : list (string * string) :=
  let nodes := [("A", "Controller A"); ("B", "Controller B")] in
  if failover_licensed e then
    if String.eqb (failover_status e) "MASTER" then
      if String.eqb (failover_node e) "A" then [("A", "Active Controller (A)"); ("B", "Standby Controller (B)")]
      else [("A", "Standby Controller (A)"); ("B", "Active Controller (B)")]
    else Dict.set (failover_node e)
           (title_case (failover_status e) +:+ " Controller (" +:+ failover_node e +:+ ")") nodes
  else nodes.

(** [None] is the [KeyError] of [self.nodes[alert.node]]. *)
Definition serialize (e : Env) (a : Alert) : option serialized :=
  (fun n => mkSer (uuid a) (source a) (inst_name (instance a)) (args (instance a)) n (key a) (a_datetime a)
              (last_occurrence a) (dismissed a) (mail a) (text a) (get_alert_level a (classes e)) (formatted a)
              (is_oneshot (inst_class (instance a)) && negb (deleted_automatically (acfg a))))
  <$> (node a ≫= fun n => Dict.get n (node_map e)).

(** ** Read-only methods *)

(** The key [list] sorts by: [(-level, title, datetime)]. *)
Definition sort_key_leb (e : Env) (a b : Alert) : bool :=
  let la := level_value (get_alert_level a (classes e)) in
  let lb := level_value (get_alert_level b (classes e)) in
  if (la =? lb)%Z then
    match String.compare (title (acfg a)) (title (acfg b)) with
    | Lt => true
    | Gt => false
    | Eq => match a_datetime a, a_datetime b with
            | Some d, Some d' => (dt_us d <=? dt_us d')%Z
            | _, _ => true
            end
    end
  else (lb <? la)%Z.

(** [AlertService.list]: the dates of the alerts in [self.alerts] are naive. *)
Definition list_ (e : Env) (s : st) : list Alert :=
  List.filter (should_show_alert e) (Fmt.sorted (sort_key_leb e) (map (obj s) (alerts s))).

Definition list_serialized (e : Env) (s : st) : option (list serialized) := mapM (serialize e) (list_ e s).

(** ** [AlertService.__alert_by_uuid] *)
Definition alert_by_uuid (u : uuid_t) (s : st) : option nat :=
  List.find (fun r => bool_decide (uuid (obj s r) = Some u)) (alerts s).

(** ** Events *)

(** A [KeyError] of [serialize] goes to the caller of the method. *)
Definition send_alert_changed_event (e : Env) (r : nat) (s : st) : st :=
  if should_show_alert e (obj s r) then
    match serialize e (obj s r) with
    | Some f => emit (EvChanged (uuid (obj s r)) f) s
    | None => s
    end
  else s.

Definition send_alert_deleted_event (r : nat) (s : st) : st := emit (EvRemoved (uuid (obj s r))) s.

(** ** Dismissal *)

Definition map_policies (f : AlertPolicy -> AlertPolicy) (s : st) : st :=
  set_policies (map (fun np => (np.1, f np.2)) (policies s)) s.

(** [_delete_on_dismiss] *)
Definition delete_on_dismiss (r : nat) (s : st) : st :=
  let removed := remove s r (alerts s) in
  let s := map_policies (delete_alert (uuid (obj s r))) (match removed with Some l => set_alerts l s | None => s end) in
  match removed with Some _ => send_alert_deleted_event r s | None => s end.

Definition related (nd : option string) (nm : string) (s : st) (r : nat) : bool :=
  bool_decide (node (obj s r) = nd) && String.eqb (inst_name (instance (obj s r))) nm.

(** [dismiss] until it returns or waits for [klass.dismiss]. *)
Definition dismiss (e : Env) (u : uuid_t) (s : st) : st :=
  match alert_by_uuid u s with
  | None => s
  | Some r =>
      let a := obj s r in
      if is_dismissable (inst_class (instance a)) then
        let related_alerts := (bisect (related (node a) (inst_name (instance a)) s) (alerts s)).1 in
        set_dismissals (dismissals s ++ [(r, related_alerts)]) s
      else if is_oneshot (inst_class (instance a)) && negb (deleted_automatically (acfg a)) then
        delete_on_dismiss r s
      else send_alert_changed_event e r (put r (set_dismissed true a) s)
  end.

(** The rest of [dismiss], when [klass.dismiss] returned [left_alerts]. *)
Definition dismiss_finish (i : nat) (left_alerts : list nat) (s : st) : option st :=
  match dismissals s !! i with
  | None => None
  | Some (_, related_alerts) =>
      Some (foldl (fun s r => if isin s r left_alerts then s else delete_on_dismiss r s)
              (set_dismissals (delete i (dismissals s)) s) related_alerts)
  end.

Definition restore (e : Env) (u : uuid_t) (s : st) : st :=
  match alert_by_uuid u s with
  | None => s
  | Some r => send_alert_changed_event e r (put r (set_dismissed false (obj s r)) s)
  end.

(** ** Merging the alerts of a check *)

(** The identity of an alert. *)
Definition identity (a : Alert) : option string * option string * string * string :=
  (node a, source a, inst_name (instance a), key a).

(** [__handle_alert] *)
Definition handle_alert (e : Env) (r : nat) (s : st) : st :=
  let a := obj s r in
  match List.find (fun r' => bool_decide (identity (obj s r') = identity a)) (alerts s) with
  | None =>
      let '(s, u) := fresh_uuid s in
      put r (mkAlert (instance a)
               (Some (to_naive_utc (default (naive (now e)) (a_datetime a))))
               (Some (naive (now e))) (node a) (Some false) (mail a) (Some u) (source a) (key a) (text a)) s
  | Some r' =>
      let x := obj s r' in
      put r (mkAlert (instance a) (a_datetime x) (Some (naive (now e))) (node a) (dismissed x) (mail a) (uuid x)
               (source a) (key a) (text a)) s
  end.

Definition handle_at (e : Env) (nd : string) (s : st) (r : nat) : st :=
  handle_alert e r (put r (set_node nd (obj s r)) s).

(** [for talert, oalert in zip_longest(this_node_alerts, other_node_alerts)] *)
Fixpoint handle_both (e : Env) (fi : AlertFailoverInfo) (this other : list nat) (s : st) : st :=
  match this, other with
  | [], _ => foldl (handle_at e (fi_other_node fi)) s other
  | t :: this, [] => foldl (handle_at e (fi_this_node fi)) s (t :: this)
  | t :: this, o :: other =>
      handle_both e fi this other (handle_at e (fi_other_node fi) (handle_at e (fi_this_node fi) s t) o)
  end.

(** The end of the body of the loop over the sources. *)
Definition merge (e : Env) (fi : AlertFailoverInfo) (name : string) (this other : list nat) (s : st) : st :=
  let s := handle_both e fi this other s in
  set_alerts (List.filter (fun r => negb (bool_decide (source (obj s r) = Some name))) (alerts s) ++ this ++ other) s.

(** ** Blocking *)

Section registries.
(** [AlertSource.by_name], [AlertClass.by_name] and [AlertService.by_name] as the
    modules loaded fill them, the offset of the local time zone, an error number
    of the client library and the [repr] of an instance (in a message only). *)
Context (alert_sources : list AlertSource) (class_by_name : list (string * AlertClass)) (service_types : list string).
Context (utcoffset : Z -> Z) (EALERTCHECKERUNAVAILABLE : Z) (repr_instance : AlertClass -> json -> string).

Definition source_names : list string := map src_name alert_sources.

Definition blocked (n : string) (s : st) : gset nat := default ∅ (Dict.get n (blocked_sources s)).

Definition block_source (e : Env) (n : string) (timeout : Z) : STE st exn uuid_t := fun s =>
  if bool_decide (n ∈ source_names) then
    let '(s, lock) := fresh_uuid s in
    let s := set_blocked_sources (Dict.set n ({[ lock ]} ∪ blocked n s) (blocked_sources s)) s in
    (set_sources_locks (Dict.set lock (mkLock n (monotonic e + timeout)) (sources_locks s)) s, Ok lock)
  else (s, Err (CallError "Invalid alert source" EFAULT)).

(** The [KeyError] is that of [set.remove]. *)
Definition unblock_source (lock : uuid_t) : STE st exn unit := fun s =>
  match Dict.get lock (sources_locks s) with
  | None => (s, Ok tt)
  | Some l =>
      let s := set_sources_locks (Dict.pop lock (sources_locks s)) s in
      let n := lock_source_name l in
      if bool_decide (lock ∈ blocked n s) then
        (set_blocked_sources (Dict.set n (blocked n s ∖ {[ lock ]}) (blocked_sources s)) s, Ok tt)
      else (s, Err (EOther "KeyError" "lock"))
  end.

Definition block_failover_alerts (e : Env) (s : st) : st :=
  set_blocked_failover_alerts_until (monotonic e + FAILOVER_ALERTS_BACKOFF_SECS) s.

Definition alert_source_clear_run (n : string) : STE st exn unit := fun s =>
  if bool_decide (n ∈ source_names) then
    (set_alert_source_last_run (Dict.set n datetime_min (alert_source_last_run s)) s, Ok tt)
  else (s, Err (CallError ("Alert source " +:+ Fmt.repr_str n +:+ " not found.") ENOENT)).

(** ** Failover *)

Definition should_run_or_send_alerts (e : Env) : bool :=
  String.eqb (system_state e) "READY"
  && negb (failover_licensed e && (String.eqb (failover_status e) "BACKUP" || failover_in_progress e)).

(** An answer that is an exception leaves the flag as it was. *)
Definition asked {A} (r : result exn A) (f : A -> bool) (old : bool) : bool :=
  match r with Ok a => f a | Err _ => old end.

Definition get_failover_info (e : Env) (rem : Remote) (s : st) : AlertFailoverInfo :=
  if failover_licensed e then
    let '(this_node, other_node) := if String.eqb (failover_node e) "A" then ("A", "B") else ("B", "A") in
    let related := (blocked_failover_alerts_until s <? monotonic e)%Z in
    let b0 := if related then asked (remote_version rem) (String.eqb (this_version rem)) false else false in
    let b1 := if b0 then asked (remote_state rem) (String.eqb "READY") b0 else b0 in
    let b2 := if b1 then asked (remote_status rem) (String.eqb "BACKUP") b1 else b1 in
    let b3 := if b2 then asked (remote_uptime rem) (Z.ltb FAILOVER_ALERTS_BACKOFF_SECS) b2 else b2 in
    mkFI this_node other_node b3 related
  else mkFI "A" "B" false false.

(** ** Checks *)

(** What [check()] does: it raises [UnavailableException], raises something else
    (with its [str]) or returns [None], an alert or a list of alerts.  The alerts
    are made by [Alert(instance, datetime=..., mail=...)]. *)
Record new_alert_args := mkNew {
  na_class : AlertClass;
  na_args : json;
  na_datetime : option datetime;
  na_mail : json;
}.

Definition construct (x : new_alert_args) (r : nat) : Alert :=
  Alert_init (from_args r (na_class x) (na_args x)) (na_datetime x) None None None (na_mail x) None None None None.

Inductive check_result :=
| CheckUnavailable
| CheckRaises (str : string)
| CheckNone
| CheckOne (a : new_alert_args)
| CheckList (l : list new_alert_args).

Definition run_failed_class (on_backup : bool) : AlertClass :=
  mkClass
    (if on_backup then
       mkConfig SYSTEM CRITICAL "Alert Check Failed (Standby Controller)"
         (Some "Failed to check for alert %(source_name)s on standby controller: %(traceback)s")
         true [COMMUNITY_EDITION; ENTERPRISE] false false true None None "AlertSourceRunFailedOnBackupNode"
     else
       mkConfig SYSTEM CRITICAL "Alert Check Failed"
         (Some "Failed to check for alert %(source_name)s: %(traceback)s")
         true [COMMUNITY_EDITION; ENTERPRISE] false false true None None "AlertSourceRunFailed")
    Dataclass false false default_key_from_args.

Definition run_failed_args (n tb : string) : json := JDict [("source_name", JStr n); ("traceback", JStr tb)].

(** The [finally] clause of [__run_source]. *)
Definition record_run (n : string) (run_time : Z) (s : st) : st :=
  let x := default no_runs (Dict.get n (sources_run_times s)) in
  let last := rt_last x in
  set_sources_run_times
    (Dict.set n (mkRT (drop (length last - 9) last ++ [run_time]) (Z.max (rt_max x) run_time)
                      (rt_count x + 1) (rt_total x + run_time)) (sources_run_times s)) s.

(** [if alert.key in keys: continue] *)
Fixpoint unique_by_key (s : st) (seen : list string) (l : list nat) : list nat :=
  match l with
  | [] => []
  | r :: l => if bool_decide (key (obj s r) ∈ seen) then unique_by_key s seen l
              else r :: unique_by_key s (key (obj s r) :: seen) l
  end.

Definition set_sources_of (n : string) (l : list nat) (s : st) : st :=
  foldl (fun s r => put r (set_source n (obj s r)) s) s l.

(** [__run_source] once [check] has returned; [None] is [UnavailableException]. *)
Definition run_source_ (n : string) (run_time : Z) (res : check_result) (s : st) : st * option (list nat) :=
  let made := match res with
              | CheckUnavailable => None
              | CheckRaises tb => Some [mkNew (run_failed_class false) (run_failed_args n tb) None JNull]
              | CheckNone => Some []
              | CheckOne a => Some [a]
              | CheckList l => Some l
              end in
  let s := match res with
           | CheckUnavailable => s
           | CheckRaises _ => set_alert_sources_errors ({[ n ]} ∪ alert_sources_errors s) s
           | _ => set_alert_sources_errors (alert_sources_errors s ∖ {[ n ]}) s
           end in
  let s := record_run n run_time s in
  match made with
  | None => (s, None)
  | Some l =>
      let '(s, rs) := alloc_all (map construct l) s in
      let rs := unique_by_key s [] rs in
      (set_sources_of n rs s, Some rs)
  end.

(** An element of what [run_source] returns, the keys the caller uses. *)
Record alert_dict := mkAD {
  ad_klass : string;
  ad_args : json;
  ad_datetime : option datetime;
  ad_last_occurrence : option datetime;
  ad_dismissed : option bool;
  ad_mail : json;
  ad_source : option string;
  ad_key : string;
}.

Definition to_dict (a : Alert) : alert_dict :=
  mkAD (inst_name (instance a)) (args (instance a)) (a_datetime a) (last_occurrence a) (dismissed a) (mail a)
    (source a) (key a).

(** [run_source], called by the other controller. *)
Definition run_source (n : string) (run_time : Z) (res : check_result) : STE st exn (list alert_dict) := fun s =>
  if bool_decide (n ∈ source_names) then
    match run_source_ n run_time res s with
    | (s, None) => (s, Err (CallError "This alert checker is unavailable" EALERTCHECKERUNAVAILABLE))
    | (s, Some l) => (s, Ok (map (fun r => to_dict (obj s r)) l))
    end
  else (s, Err (EOther "KeyError" n)).

(** [errno.ETIMEDOUT], [ECONNABORTED], [ECONNREFUSED], [ECONNRESET], [EHOSTDOWN],
    [EHOSTUNREACH] *)
Definition NETWORK_ERRORS : list Z := [110; 103; 111; 104; 112; 113]%Z.

Definition from_dict (d : alert_dict) (c : AlertClass) (r : nat) : Alert :=
  Alert_init (from_args r c (ad_args d)) (ad_datetime d) (ad_last_occurrence d) None (ad_dismissed d) (ad_mail d)
    None (ad_source d) (Some (ad_key d)) None.

Definition failed_on_backup (n tb : string) (r : nat) : Alert :=
  Alert_init (from_args r (run_failed_class true) (run_failed_args n tb)) None None None None JNull None (Some n) None None.

(** [__run_other_node_alert_source] with the reply of [failover.call_remote]: the
    list, or an exception and its [str]. *)
Definition run_other_node_alert_source (n : string) (reply : result (exn * string) (list alert_dict)) (s : st) : st * list nat :=
  match reply with
  | Ok ds =>
      match mapE (fun d => match Dict.get (ad_klass d) class_by_name with
                           | Some c => Ok (from_dict d c)
                           | None => Err (Fmt.repr_str (ad_klass d))
                           end) ds with
      | Ok l => alloc_all l s
      | Err tb => alloc_all [failed_on_backup n tb] s
      end
  | Err (ECallError _ _ no _, tb) =>
      if bool_decide (no ∈ NETWORK_ERRORS ++ [EALERTCHECKERUNAVAILABLE]) then (s, [])
      else alloc_all [failed_on_backup n tb] s
  | Err (EOther cls _, tb) =>
      if String.eqb cls "ReserveFDException" then (s, []) else alloc_all [failed_on_backup n tb] s
  | Err (_, tb) => alloc_all [failed_on_backup n tb] s
  end.

(** [__handle_locked_alert_source]: the alerts that stay for a blocked source. *)
Definition handle_locked_alert_source (n : string) (fi : AlertFailoverInfo) (s : st) : option (list nat * list nat) :=
  if decide (blocked n s = ∅) then None
  else
    let mine := List.filter (fun r => bool_decide (source (obj s r) = Some n)) (alerts s) in
    Some (List.filter (fun r => bool_decide (node (obj s r) = Some (fi_this_node fi))) mine,
          List.filter (fun r => negb (bool_decide (node (obj s r) = Some (fi_this_node fi)))
                                && bool_decide (node (obj s r) = Some (fi_other_node fi))) mine).

(** ** [process_alerts], segment by segment *)

Definition process_start (e : Env) (s : st) : option st :=
  match pc s with
  | None => if should_run_or_send_alerts e then
              let '(s, valid) := deepcopy (alerts s) s in Some (set_pc (Some (PPrologue valid)) s)
            else Some s
  | Some _ => None
  end.

(** The locks that have expired are released, in the order of the dict. *)
Fixpoint unblock_expired (e : Env) (l : list (nat * AlertSourceLock)) : STE st exn unit :=
  match l with
  | [] => mret tt
  | (k, lk) :: l => _ ← (when (expires_at lk <=? monotonic e)%Z (unblock_source k)); unblock_expired e l
  end.

(** A [KeyError] would end the job. *)
Definition run_prologue (e : Env) (rem : Remote) (s : st) : option st :=
  match pc s with
  | Some (PPrologue valid) =>
      let fi := get_failover_info e rem s in
      match unblock_expired e (sources_locks s) s with
      | (s, Ok _) => Some (set_pc (Some (PLoop valid (product_type e) fi alert_sources)) s)
      | (s, Err _) => Some (set_pc None s)
      end
  | _ => None
  end.

Definition last_run (n : string) (s : st) : Z := default datetime_min (Dict.get n (alert_source_last_run s)).

(** The guards of the loop: whether the source is due. *)
Definition due (e : Env) (pt : string) (fi : AlertFailoverInfo) (src : AlertSource) (s : st) : bool :=
  bool_decide (pt ∈ src_products src)
  && negb (failover_related src && negb (fi_run_failover_related fi))
  && negb (require_stable_peer src && negb (fi_run_on_backup_node fi))
  && should_run utcoffset (schedule src) (now e) (last_run (src_name src) s).

Definition source_next (e : Env) (s : st) : option st :=
  match pc s with
  | Some (PLoop valid pt fi (src :: todo)) =>
      if due e pt fi src s then
        let n := src_name src in
        let s := set_alert_source_last_run (Dict.set n (now e) (alert_source_last_run s)) s in
        match handle_locked_alert_source n fi s with
        | Some (this, other) => Some (set_pc (Some (PLoop valid pt fi todo)) (merge e fi n this other s))
        | None => Some (set_pc (Some (PCheck valid pt fi src todo)) (emit (EvChecked n (now e)) s))
        end
      else Some (set_pc (Some (PLoop valid pt fi todo)) s)
  | _ => None
  end.

Definition check_done (e : Env) (run_time : Z) (res : check_result) (s : st) : option st :=
  match pc s with
  | Some (PCheck valid pt fi src todo) =>
      let n := src_name src in
      let '(s, r) := run_source_ n run_time res s in
      let this := default [] r in
      if fi_run_on_backup_node fi && run_on_backup_node src then
        Some (set_pc (Some (PRemote valid pt fi src todo this)) s)
      else Some (set_pc (Some (PLoop valid pt fi todo)) (merge e fi n this [] s))
  | _ => None
  end.

Definition remote_done (e : Env) (reply : result (exn * string) (list alert_dict)) (s : st) : option st :=
  match pc s with
  | Some (PRemote valid pt fi src todo this) =>
      let n := src_name src in
      let '(s, other) := run_other_node_alert_source n reply s in
      Some (set_pc (Some (PLoop valid pt fi todo)) (merge e fi n this other s))
  | _ => None
  end.

(** [__should_expire_alert]; the error is the [TypeError] of comparing with [None]
    or with an aware date. *)
Definition should_expire_alert (e : Env) (a : Alert) : result exn bool :=
  if is_oneshot (inst_class (instance a)) then
    match expires_after (acfg a), last_occurrence a with
    | None, _ => Ok false
    | Some d, Some (mkDT us None) => Ok (us <? now e - d)%Z
    | Some _, _ => Err (EOther "TypeError" "can't compare")
    end
  else Ok false.

Fixpoint unexpired (e : Env) (s : st) (l : list nat) : result exn (list nat) :=
  match l with
  | [] => Ok []
  | r :: l => match should_expire_alert e (obj s r), unexpired e s l with
              | Ok b, Ok l => Ok (if b then l else r :: l)
              | Err x, _ => Err x
              | _, Err x => Err x
              end
  end.

(** [__expire_alerts] *)
Definition expire_alerts (e : Env) (s : st) : result exn st :=
  match unexpired e s (alerts s) with Ok l => Ok (set_alerts l s) | Err x => Err x end.

Definition run_end (e : Env) (s : st) : option st :=
  match pc s with
  | Some (PLoop valid pt fi []) =>
      match expire_alerts e s with
      | Ok s => Some (set_pc (Some (PExpired valid)) s)
      | Err _ => Some (set_pc None s)
      end
  | _ => None
  end.

(** [send_alerts] is only queued, it runs as a job of its own. *)
Definition process_end (e : Env) (s : st) : option st :=
  match pc s with
  | Some (PExpired valid) =>
      let s := set_pc None s in
      Some (if should_run_or_send_alerts e then s else set_alerts valid s)
  | _ => None
  end.

(** ** [send_alerts], segment by segment *)

Definition send_start (e : Env) (s : st) : option st :=
  match pc s with
  | None => Some (if String.eqb (system_state e) "READY" then
                    set_pc (Some (SLoop (now e) (product_type e) (classes e) (Dict.keys (policies s)))) s
                  else set_SEND_ALERTS_ON_READY true s)
  | Some _ => None
  end.

Definition send_policy (e : Env) (s : st) : option st :=
  match pc s with
  | Some (SLoop at_us pt cls []) => Some (set_pc None s)
  | Some (SLoop at_us pt cls (n :: todo)) =>
      match Dict.get n (policies s) with
      | None => None
      | Some p =>
          let '(p, gone, new) := receive_alerts (heap s) at_us (alerts s) p in
          Some (set_pc (Some (SServices at_us pt cls n gone new (List.filter svc_enabled (services e)) todo))
                  (set_policies (Dict.set n p (policies s)) s))
      end
  | _ => None
  end.

(** [gone_alert] and [new_alert] are the same alert that came back. *)
Definition comes_back (s : st) (g n : nat) : bool :=
  String.eqb (inst_name (instance (obj s g))) (inst_name (instance (obj s n)))
  && String.eqb (key (obj s g)) (key (obj s n)).

(** The loop over [list(service_gone_alerts)]; [None] is a [ValueError]. *)
Fixpoint cancel (s : st) (todo gone new : list nat) : option (list nat * list nat) :=
  match todo with
  | [] => Some (gone, new)
  | g :: todo =>
      match List.find (comes_back s g) new with
      | Some n => match remove s g gone, remove s n new with
                  | Some gone, Some new => cancel s todo gone new
                  | _, _ => None
                  end
      | None => cancel s todo gone new
      end
  end.

(** The conditions of the three comprehensions. *)
Definition wanted (pt : string) (cls : list (string * ClassCfg)) (lvl : AlertLevel) (a : Alert) : bool :=
  has_product pt a && (level_value lvl <=? level_value (get_alert_level a cls))%Z.

Definition wanted_by (pt : string) (cls : list (string * ClassCfg)) (lvl : AlertLevel) (policy : string) (a : Alert) : bool :=
  wanted pt cls lvl a && String.eqb (get_alert_policy a cls) policy.

Definition not_dismissed (s : st) (r : nat) : bool := negb (default false (dismissed (obj s r))).

(** What is sent to a service for a policy: the current, gone and new alerts. *)
Inductive to_send :=
| Skip
| Send (alerts gone new : list nat)
| SendError.

Definition prepare (s : st) (pt : string) (cls : list (string * ClassCfg)) (policy : string) (gone new : list nat)
    (svc : ServiceDesc) : to_send :=
  let service_alerts :=
    List.filter (fun r => wanted pt cls (svc_level svc) (obj s r)
                          && negb (String.eqb (get_alert_policy (obj s r) cls) "NEVER")) (alerts s) in
  let service_gone := List.filter (fun r => wanted_by pt cls (svc_level svc) policy (obj s r)) gone in
  let service_new := List.filter (fun r => wanted_by pt cls (svc_level svc) policy (obj s r)) new in
  match cancel s service_gone service_gone service_new with
  | None => SendError
  | Some ([], []) => Skip
  | Some (service_gone, service_new) =>
      if bool_decide (svc_type svc ∈ service_types) then
        let a := List.filter (not_dismissed s) service_alerts in
        let g := List.filter (not_dismissed s) service_gone in
        let n := List.filter (not_dismissed s) service_new in
        match a, g, n with [], [], [] => Skip | _, _, _ => Send a g n end
      else SendError
  end.

(** One service; an exception of [send] is logged. *)
Definition send_service (s : st) : option st :=
  match pc s with
  | Some (SServices at_us pt cls policy gone new (svc :: svcs) todo) =>
      Some (match prepare s pt cls policy gone new svc with
            | SendError => set_pc None s
            | Skip => set_pc (Some (SServices at_us pt cls policy gone new svcs todo)) s
            | Send a g n =>
                set_pc (Some (SServices at_us pt cls policy gone new svcs todo))
                  (emit (EvSent (svc_name svc) policy (map (obj s) a) (map (obj s) g) (map (obj s) n)) s)
            end)
  | _ => None
  end.

(** The events for the subscribers of [alert.list]; the boolean is false when an
    exception was raised. *)
Definition emit_gone (e : Env) (s : st) (r : nat) : st :=
  if should_show_alert e (obj s r) then send_alert_deleted_event r s else s.

Fixpoint emit_new (e : Env) (l : list nat) (s : st) : st * bool :=
  match l with
  | [] => (s, true)
  | r :: l => if should_show_alert e (obj s r) then
                match serialize e (obj s r) with
                | Some f => emit_new e l (emit (EvAdded (uuid (obj s r)) f) s)
                | None => (s, false)
                end
              else emit_new e l s
  end.

Fixpoint send_mails (mail_send : json -> result exn unit) (l : list nat) (s : st) : st * bool :=
  match l with
  | [] => (s, true)
  | r :: l =>
      let m := mail (obj s r) in
      if truthy m then
        match mail_send m with
        | Ok _ => send_mails mail_send l (emit (EvMail m) s)
        | Err (ECallError cls _ _ _) =>
            if String.eqb cls "NetworkActivityDisabled" then send_mails mail_send l s else (s, false)
        | Err _ => (s, false)
        end
      else send_mails mail_send l s
  end.

Definition proactive (e : Env) (a : Alert) : bool :=
  proactive_support (acfg a) && default true (cfg_of a (classes e) ≫= cfg_proactive).

(** The support ticket; when it fails, [oneshot_create] is queued. *)
Definition open_ticket (e : Env) (support_enabled : bool) (gone new : list nat) (s : st) : st :=
  if is_enterprise e then
    let g := List.filter (fun r => proactive e (obj s r) && proactive_support_notify_gone (acfg (obj s r))) gone in
    let n := List.filter (fun r => proactive e (obj s r)) new in
    match g, n with
    | [], [] => s
    | _, _ => if support_enabled then emit (EvTicket (map (obj s) g) (map (obj s) n)) s else s
    end
  else s.

Definition send_policy_end (e : Env) (mail_send : json -> result exn unit) (support_enabled : bool) (s : st) : option st :=
  match pc s with
  | Some (SServices at_us pt cls policy gone new [] todo) =>
      if String.eqb policy "IMMEDIATELY" then
        let '(s, ok) := emit_new e new (foldl (emit_gone e) s gone) in
        let '(s, ok) := if ok then send_mails mail_send new s else (s, false) in
        Some (if ok then set_pc (Some (SLoop at_us pt cls todo)) (open_ticket e support_enabled gone new s)
              else set_pc None s)
      else Some (set_pc (Some (SLoop at_us pt cls todo)) s)
  | _ => None
  end.

(** [_event_system]: whether [send_alerts] is called when the system gets ready. *)
Definition event_system (s : st) : bool := SEND_ALERTS_ON_READY s.

(** ** The table of alerts *)

Definition to_row (a : Alert) : AlertRow :=
  mkRow (node a) (source a) (key a) (a_datetime a) (last_occurrence a) (text a) (args (instance a)) (dismissed a)
    (uuid a) (inst_name (instance a)).

Definition flush_alerts (e : Env) (s : st) : st :=
  if failover_licensed e && String.eqb (failover_status e) "BACKUP" then s
  else set_rows (map (fun r => to_row (obj s r)) (alerts s)) s.

Definition from_row (x : AlertRow) (c : AlertClass) (r : nat) : Alert :=
  Alert_init (from_args r c (row_args x)) (row_datetime x) (row_last_occurrence x) (row_node x) (row_dismissed x)
    JNull (row_uuid x) (row_source x) (Some (row_key x)) (Some (row_text x)).

(** The class of a row that is still present; a row of an unknown source or class
    is skipped. *)
Definition known_class (x : AlertRow) : option AlertClass :=
  if match row_source x with
     | Some (String c t) => negb (bool_decide (String c t ∈ source_names))
     | _ => false
     end
  then None else Dict.get (row_klass x) class_by_name.

(** The loop over [datastore.query("system.alert")]: the state, [alerts_uuids] and
    [alerts_by_classes]. *)
Fixpoint load_rows (l : list AlertRow) (seen : list (option uuid_t)) (groups : list (string * list nat)) (s : st)
    : st * list (string * list nat) :=
  match l with
  | [] => (s, groups)
  | x :: l =>
      match known_class x with
      | None => load_rows l seen groups s
      | Some c =>
          let '(s, r) := alloc (from_row x c) s in
          if bool_decide (row_uuid x ∈ seen) then load_rows l seen groups s
          else
            let n := inst_name (instance (obj s r)) in
            load_rows l (row_uuid x :: seen) (Dict.set n (default [] (Dict.get n groups) ++ [r]) groups) s
      end
  end.

(** The alerts of one class: a one-shot class has its [load] method choose those that
    are still applicable. *)
Definition load_group (e : Env) (s : st) (l : list nat) : list nat :=
  match l with
  | [] => []
  | r :: _ => if is_oneshot (inst_class (instance (obj s r)))
              then List.filter (fun r => applicable e (to_row (obj s r))) l else l
  end.

Definition initialize (e : Env) (load : bool) (s : st) : st :=
  let s := set_this_node_name (if is_enterprise e && String.eqb (failover_node e) "B" then "B" else "A") s in
  let s := set_alerts [] s in
  let s := if load then
             let '(s, groups) := load_rows (rows s) [] [] s in
             set_alerts (concat (map (load_group e s) (Dict.values groups))) s
           else flush_alerts e s in
  let s := set_alert_source_last_run [] s in
  set_policies (map (fun np => (np.1, (receive_alerts (heap s) (now e) (alerts s) np.2).1.1)) initial_policies) s.

(** ** One-shot alerts *)

Definition oneshot_create (e : Env) (c : AlertClass) (a : json) : STE st exn unit := fun s =>
  if is_oneshot c then
    let '(s, r) := alloc (fun r => set_node (this_node_name s) (set_source "" (new_alert (from_args r c a)))) s in
    let s := handle_alert e r s in
    (set_alerts (List.filter (fun r' => negb (bool_decide (uuid (obj s r') = uuid (obj s r)))) (alerts s) ++ [r]) s, Ok tt)
  else (s, Err (CallError ("Alert " +:+ repr_instance c a +:+ " is not a one-shot alert class") EFAULT)).

(** [OneShotAlertClass.delete] *)
Fixpoint oneshot_left (c : AlertClass) (query : json) (s : st) (l : list nat) : result exn (list nat) :=
  match l with
  | [] => Ok []
  | r :: l => match oneshot_keeps c query (obj s r) with
              | Err x => Err x
              | Ok b => match oneshot_left c query s l with
                        | Err x => Err x
                        | Ok l => Ok (if b then r :: l else l)
                        end
              end
  end.

(** The inner loop of [oneshot_delete]: the state and whether something went. *)
Fixpoint delete_unless (left_alerts : list nat) (l : list nat) (deleted : bool) : STE st exn bool :=
  match l with
  | [] => mret deleted
  | r :: l => fun s =>
      if isin s r left_alerts then delete_unless left_alerts l deleted s
      else match remove s r (alerts s) with
           | Some l' => delete_unless left_alerts l true (set_alerts l' s)
           | None => (s, Err (EOther "ValueError" "list.remove(x): x not in list"))
           end
  end.

Fixpoint delete_klasses (klasses : list string) (query : json) (deleted : bool) : STE st exn bool :=
  match klasses with
  | [] => mret deleted
  | k :: klasses => fun s =>
      match Dict.get k class_by_name with
      | None => (s, Err (CallError ("Invalid alert source: " +:+ Fmt.repr_str k) EFAULT))
      | Some c =>
          if is_oneshot c then
            let related_alerts := (bisect (related (Some (this_node_name s)) (name (config c)) s) (alerts s)).1 in
            match oneshot_left c query s related_alerts with
            | Err x => (s, Err x)
            | Ok left_alerts =>
                (d ← delete_unless left_alerts related_alerts deleted; delete_klasses klasses query d) s
            end
          else (s, Err (CallError ("Alert class " +:+ Fmt.repr_str k +:+ " is not a one-shot alert class") EFAULT))
      end
  end.

Definition oneshot_delete (e : Env) (klasses : list string) (query : json) : STE st exn unit :=
  deleted ← delete_klasses klasses query false;
  when (deleted : bool) (modify (flush_alerts e)).

(** ** Steps *)

Inductive label :=
| LProcess (e : Env)
| LPrologue (e : Env) (rem : Remote)
| LSource (e : Env)
| LChecked (e : Env) (run_time : Z) (res : check_result)
| LReplied (e : Env) (reply : result (exn * string) (list alert_dict))
| LRunEnd (e : Env)
| LProcessEnd (e : Env)
| LSend (e : Env)
| LPolicy (e : Env)
| LService
| LPolicyEnd (e : Env) (mail_send : json -> result exn unit) (support_enabled : bool)
| LDismiss (e : Env) (u : uuid_t)
| LDismissed (i : nat) (left_alerts : list nat)
| LRestore (e : Env) (u : uuid_t)
| LBlock (e : Env) (n : string) (timeout : Z)
| LUnblock (lock : uuid_t)
| LBlockFailover (e : Env)
| LClearRun (n : string)
| LRunSource (n : string) (run_time : Z) (res : check_result)
| LCreate (e : Env) (c : AlertClass) (a : json)
| LDelete (e : Env) (klasses : list string) (query : json)
| LFlush (e : Env)
| LInitialize (e : Env) (load : bool).

Definition sending (s : st) : bool :=
  match pc s with Some (SLoop _ _ _ _ | SServices _ _ _ _ _ _ _ _) => true | _ => false end.

(** One step; [None] when the step is not enabled.  A step of a job needs the lock. *)
Definition exec (l : label) (s : st) : option st :=
  match l with
  | LProcess e => process_start e s
  | LPrologue e rem => run_prologue e rem s
  | LSource e => source_next e s
  | LChecked e t res => check_done e t res s
  | LReplied e reply => remote_done e reply s
  | LRunEnd e => run_end e s
  | LProcessEnd e => process_end e s
  | LSend e => send_start e s
  | LPolicy e => send_policy e s
  | LService => send_service s
  | LPolicyEnd e m b => send_policy_end e m b s
  | LDismiss e u => Some (dismiss e u s)
  | LDismissed i left_alerts => dismiss_finish i left_alerts s
  | LRestore e u => Some (restore e u s)
  | LBlock e n t => Some (block_source e n t s).1
  | LUnblock k => Some (unblock_source k s).1
  | LBlockFailover e => Some (block_failover_alerts e s)
  | LClearRun n => Some (alert_source_clear_run n s).1
  | LRunSource n t res => Some (run_source n t res s).1
  | LCreate e c a => match pc s with Some _ => None | None => Some (oneshot_create e c a s).1 end
  | LDelete e ks q => match pc s with Some _ => None | None => Some (oneshot_delete e ks q s).1 end
  | LFlush e => Some (flush_alerts e s)
  | LInitialize e load => if sending s then None else Some (initialize e load s)
  end.

(** The service as [__init__] leaves it, with the table of alerts and the numbers
    drawn for it before. *)
Definition st0 (l : list AlertRow) (drawn : nat) : st :=
  mkSt ∅ 0 drawn [] [] "A" [] [] 0 [] [] ∅ false l [] None [].

End registries.
