(* ===== verification/AlertInv.v ===== *)
(** * Invariants of the alert service

    An alert gets its uuid when it is merged into the list of alerts; from then
    on its uuid and its identity (node, source, class, key) never change, and the
    uuid determines the identity across the list of alerts, the copies kept for
    a roll back, the snapshots of the policies and the table in the database.
    The list of alerts never holds two alerts with the same identity. *)

From S2P Require Import Prelude PyDict PyStr PyVal PyFormat Errors AlertBase Alerts.

#[global] Arguments alloc : simpl never.
#[global] Arguments run_source_ : simpl never.
#[global] Arguments merge : simpl never.
#[global] Arguments handle_alert : simpl never.
#[global] Arguments fresh_uuid : simpl never.

Section inv.
Context (class_by_name : list (string * AlertClass)).

(** A class is registered under its name, with a title. *)
Definition registered (c : AlertClass) : Prop :=
  Dict.get (name (config c)) class_by_name = Some c /\ title (config c) ≠ "".

(** What [AlertClass.__init_subclass__] ensures of [AlertClass.by_name]; the two
    classes of failed checks are among the classes. *)
Record registry_ok : Prop := {
  reg_name : forall n c, Dict.get n class_by_name = Some c -> name (config c) = n /\ title (config c) ≠ "";
  reg_failed : forall b, registered (run_failed_class b);
}.

Definition is_node (n : option string) : Prop := n = Some "A" \/ n = Some "B".

(** An alert that has been merged into the list. *)
Record complete (a : Alert) : Prop := {
  c_node : is_node (node a);
  c_source : is_Some (source a);
  c_datetime : exists us, a_datetime a = Some (naive us);
  c_last : exists us, last_occurrence a = Some (naive us);
  c_dismissed : is_Some (dismissed a);
  c_class : registered (inst_class (instance a));
  c_text : text a ≠ "";
}.

Definition row_identity (x : AlertRow) : option string * option string * string * string :=
  (row_node x, row_source x, row_klass x, row_key x).

(** A row that [flush_alerts] wrote. *)
Record row_complete (x : AlertRow) : Prop := {
  rc_uuid : is_Some (row_uuid x);
  rc_node : is_node (row_node x);
  rc_source : is_Some (row_source x);
  rc_datetime : exists us, row_datetime x = Some (naive us);
  rc_last : exists us, row_last_occurrence x = Some (naive us);
  rc_dismissed : is_Some (row_dismissed x);
  rc_text : row_text x ≠ "";
}.

(** The identity a uuid stands for, in an object or in the table. *)
Definition ident (s : st) (u : uuid_t) (i : option string * option string * string * string) : Prop :=
  (exists r, uuid (obj s r) = Some u /\ identity (obj s r) = i)
  \/ (exists x, x ∈ rows s /\ row_uuid x = Some u /\ row_identity x = i).

Record core_ok (s : st) : Prop := {
  k_fun : forall u i j, ident s u i -> ident s u j -> i = j;
  k_bound : forall u i, ident s u i -> u < next_uuid s;
  k_complete : forall r, is_Some (uuid (obj s r)) -> complete (obj s r);
  k_fresh : forall r, next_ref s <= r -> uuid (obj s r) = None;
  k_rows : Forall row_complete (rows s);
  k_rows_nodup : NoDup (map row_identity (rows s));
  k_node : is_node (Some (this_node_name s));
}.

(** Objects with a uuid keep it and their identity. *)
Record grows (s s' : st) : Prop := {
  g_uuid : next_uuid s <= next_uuid s';
  g_ref : next_ref s <= next_ref s';
  g_obj : forall r, is_Some (uuid (obj s r)) ->
    uuid (obj s' r) = uuid (obj s r) /\ identity (obj s' r) = identity (obj s r);
}.

#[global] Instance grows_preorder : PreOrder grows.
Proof.
  split.
  - intros s. by constructor.
  - intros s1 s2 s3 [H1 H2 H3] [K1 K2 K3]. constructor; [lia..|]. intros r Hr.
    destruct (H3 r Hr) as [E1 E2]. rewrite <-E1 in Hr. destruct (K3 r Hr). split; congruence.
Qed.

(** A list of merged alerts with distinct identities. *)
Definition listed (s : st) (l : list nat) : Prop :=
  NoDup (map (fun r => identity (obj s r)) l) /\ Forall (fun r => is_Some (uuid (obj s r))) l.

Lemma listed_grows s s' l : grows s s' -> listed s l -> listed s' l.
Proof.
  intros [_ _ Hg] [Hnd Hl]. rewrite Forall_forall in Hl. split.
  - erewrite List.map_ext_in; [exact Hnd|]. intros r Hr%list_elem_of_In. by destruct (Hg r (Hl r Hr)).
  - apply Forall_forall. intros r Hr. destruct (Hg r (Hl r Hr)) as [-> _]. auto.
Qed.

Lemma listed_NoDup s l : listed s l -> NoDup l.
Proof. intros [Hnd _]. by eapply NoDup_fmap_1. Qed.

Lemma listed_inj s l r r' : listed s l -> r ∈ l -> r' ∈ l -> identity (obj s r) = identity (obj s r') -> r = r'.
Proof.
  intros [Hnd _] Hr Hr' E. apply list_elem_of_lookup in Hr as [i Hi]. apply list_elem_of_lookup in Hr' as [j Hj].
  assert (i = j) as ->; [|congruence]. eapply (NoDup_lookup _ i j _ Hnd).
  - by rewrite list_lookup_fmap, Hi.
  - rewrite list_lookup_fmap, Hj. simpl. by rewrite E.
Qed.

Lemma listed_uuid_inj s l r r' :
  core_ok s -> listed s l -> r ∈ l -> r' ∈ l -> uuid (obj s r) = uuid (obj s r') -> r = r'.
Proof.
  intros Hc Hl Hr Hr' E. apply (listed_inj s l); [done..|].
  destruct Hl as [_ Hall]. rewrite Forall_forall in Hall. destruct (Hall r Hr) as [u Hu].
  apply (k_fun s Hc u); left; [by exists r|exists r'; split; [congruence|done]].
Qed.

Lemma listed_sub s l l' : listed s l -> l' `sublist_of` l -> listed s l'.
Proof.
  intros [Hnd Hl] Hs. split.
  - eapply sublist_NoDup; [exact Hnd|]. by apply fmap_sublist.
  - eapply Forall_forall. intros r Hr. rewrite Forall_forall in Hl. apply Hl. by eapply elem_of_sublist.
Qed.

Lemma Forall_impl_strong {A} (P Q : A -> Prop) (l : list A) :
  (forall x, x ∈ l -> P x -> Q x) -> Forall P l -> Forall Q l.
Proof. rewrite !Forall_forall. eauto. Qed.

(** ** Steps on the heap *)

(** The part of the state the invariant of the objects is about. *)
Definition core (s : st) := (heap s, next_ref s, next_uuid s, rows s, this_node_name s).

Lemma core_ok_eq s s' : core s = core s' -> core_ok s -> core_ok s'.
Proof.
  unfold core. intros [= E1 E2 E3 E4 E5] [H1 H2 H3 H4 H5 H6 H7].
  constructor; unfold ident, obj in *; by rewrite <-?E1, <-?E2, <-?E3, <-?E4, <-?E5.
Qed.

Lemma grows_eq s s' : core s = core s' -> grows s s'.
Proof. unfold core. intros [= E1 E2 E3 _ _]. constructor; unfold obj; by rewrite ?E1, ?E2, ?E3. Qed.

Lemma listed_eq s s' l : heap s = heap s' -> listed s l -> listed s' l.
Proof. unfold listed, obj. by intros ->. Qed.

Lemma obj_put r r' a s : obj (put r a s) r' = if decide (r = r') then a else obj s r'.
Proof.
  unfold obj, put. simpl. case_decide; subst; [by rewrite lookup_total_insert_eq|by rewrite lookup_total_insert_ne].
Qed.

Lemma obj_put_eq r a s : obj (put r a s) r = a.
Proof. rewrite obj_put. by rewrite decide_True. Qed.

Lemma obj_put_ne r r' a s : r ≠ r' -> obj (put r a s) r' = obj s r'.
Proof. intros. rewrite obj_put. by rewrite decide_False. Qed.

(** Writing an object: a uuid stays, one that is given is for the same identity. *)
Lemma put_ok r a s :
  core_ok s ->
  (is_Some (uuid (obj s r)) -> uuid a = uuid (obj s r) /\ identity a = identity (obj s r)) ->
  (forall u, uuid a = Some u ->
    complete a /\ u < next_uuid s /\ r < next_ref s /\ (forall i, ident s u i -> i = identity a)) ->
  core_ok (put r a s) /\ grows s (put r a s).
Proof.
  intros Hc Hold Hnew. split; [constructor|constructor; [done..|]].
  - assert (forall u i, ident (put r a s) u i -> ident s u i \/ uuid a = Some u /\ i = identity a) as Hi.
    { intros u i [(r' & Hu & Hi)|Hx]; [|left; right; exact Hx].
      rewrite obj_put in Hu, Hi. case_decide; [right; naive_solver|left; left; eauto]. }
    intros u i j H1%Hi H2%Hi. destruct H1 as [H1|[E1 ->]], H2 as [H2|[E2 ->]]; try done.
    + by eapply (k_fun _ Hc).
    + by apply (Hnew u E2).
    + symmetry. by apply (Hnew u E1).
  - intros u i [(r' & Hu & Hi)|Hx]; [|eapply (k_bound _ Hc u i); right; exact Hx].
    rewrite obj_put in Hu, Hi. case_decide; [by apply (Hnew u)|]. eapply (k_bound _ Hc u i). left. eauto.
  - intros r'. rewrite obj_put. case_decide; [intros [u Hu]; by apply (Hnew u)|apply (k_complete _ Hc)].
  - intros r' Hr'. rewrite obj_put. case_decide; [subst|by apply (k_fresh _ Hc)].
    destruct (uuid a) as [u|] eqn:E; [|done]. destruct (Hnew u eq_refl) as (_ & _ & Hlt & _). simpl in Hr'. lia.
  - apply Hc.
  - apply Hc.
  - apply Hc.
  - intros r' Hr'. rewrite obj_put. case_decide; [subst; auto|done].
Qed.

(** An object that is not merged yet may change freely. *)
Lemma put_unmerged r a s :
  core_ok s -> uuid (obj s r) = None -> uuid a = None -> core_ok (put r a s) /\ grows s (put r a s).
Proof. intros Hc E E'. apply put_ok; [done|rewrite E; by intros []|congruence]. Qed.

(** An alert that may be created: not merged, or a copy of one that is known. *)
Definition fits (s : st) (a : Alert) : Prop :=
  forall u, uuid a = Some u -> complete a /\ ident s u (identity a).

Lemma ident_grows s s' u i : grows s s' -> rows s = rows s' -> ident s u i -> ident s' u i.
Proof.
  intros [_ _ Hg] E [(r & Hu & Hi)|Hx].
  - left. exists r. destruct (Hg r) as [-> ->]; [by eexists|done].
  - right. by rewrite <-E.
Qed.

Lemma fits_grows s s' a : grows s s' -> rows s = rows s' -> fits s a -> fits s' a.
Proof. intros Hg E Hf u Hu. destruct (Hf u Hu). eauto using ident_grows. Qed.

(** An allocation. *)
Lemma alloc_ok a s s' r :
  core_ok s -> fits s (a (next_ref s)) -> alloc a s = (s', r) ->
  core_ok s' /\ grows s s' /\ r = next_ref s /\ next_ref s' = S r /\ obj s' r = a r.
Proof.
  intros Hc Ha [= <- <-]. set (s1 := set_next_ref (S (next_ref s)) s).
  assert (core_ok s1) as Hc1.
  { destruct Hc as [H1 H2 H3 H4 H5 H6 H7]. constructor; try done. intros r Hr. apply H4. simpl in Hr. lia. }
  assert (grows s s1) as Hg1 by (constructor; [done|simpl; lia|done]).
  destruct (put_ok (next_ref s) (a (next_ref s)) s1 Hc1) as [Hc2 Hg2].
  - change (obj s1 (next_ref s)) with (obj s (next_ref s)). rewrite (k_fresh _ Hc) by done. by intros [].
  - intros u Hu. destruct (Ha u Hu) as [Hco Hi]. split_and!; [done|by apply (k_bound _ Hc u _ Hi)|simpl; lia|].
    intros i Hi'. by apply (k_fun _ Hc u).
  - split_and!; [done|by etrans|done|done|apply (obj_put_eq (next_ref s))].
Qed.

(** What is left alone by an allocation. *)
Lemma alloc_frame a s s' r : alloc a s = (s', r) -> s' = set_next_ref (S (next_ref s)) (put (next_ref s) (a (next_ref s)) s).
Proof. by intros [= <- <-]. Qed.

Definition same_lists (s s' : st) : Prop :=
  alerts s = alerts s' /\ policies s = policies s' /\ this_node_name s = this_node_name s' /\ rows s = rows s'
  /\ pc s = pc s' /\ dismissals s = dismissals s' /\ log s = log s' /\ blocked_sources s = blocked_sources s'
  /\ sources_locks s = sources_locks s' /\ alert_source_last_run s = alert_source_last_run s'.

#[global] Instance same_lists_preorder : PreOrder same_lists.
Proof. split; [by intros s|]. unfold same_lists. intros s1 s2 s3 H1 H2. destruct_and!. split_and!; congruence. Qed.

Lemma alloc_all_cons a l s :
  alloc_all (a :: l) s = (let '(s, r) := alloc a s in let '(s, rs) := alloc_all l s in (s, r :: rs)).
Proof. done. Qed.

Lemma alloc_all_ok l : forall s s' rs,
  core_ok s -> Forall (fun a => forall r, fits s (a r)) l -> alloc_all l s = (s', rs) ->
  core_ok s' /\ grows s s' /\ same_lists s s' /\ rs = seq (next_ref s) (length l) /\ next_ref s' = next_ref s + length l
  /\ (forall r, r < next_ref s -> obj s' r = obj s r)
  /\ forall i a, l !! i = Some a -> obj s' (next_ref s + i) = a (next_ref s + i).
Proof.
  induction l as [|a l IH]; intros s s' rs Hc Hl E.
  { injection E as <- <-. split_and!; [done|done|done|done|simpl; lia|done|done]. }
  rewrite alloc_all_cons in E. apply Forall_cons in Hl as [Ha Hl]. destruct (alloc a s) as [s1 r] eqn:E1.
  destruct (alloc_all l s1) as [s2 rs2] eqn:E2. injection E as <- <-.
  destruct (alloc_ok a s s1 r Hc (Ha _) E1) as (Hc1 & Hg1 & -> & Hn & Ho).
  pose proof (alloc_frame _ _ _ _ E1) as ->.
  destruct (IH _ s2 rs2 Hc1) as (Hc2 & Hg2 & Hs2 & -> & Hn2 & Hold & Hnew); [|done|].
  { eapply Forall_impl; [exact Hl|]. intros b Hb r. by eapply fits_grows. }
  split_and!; [done|by etrans|done|done|rewrite Hn2; simpl; lia| |].
  - intros r Hr. rewrite Hold by (simpl; lia). unfold obj. simpl. by rewrite lookup_total_insert_ne by lia.
  - intros [|i] b Hi; simpl in Hi.
    + injection Hi as ->. rewrite Nat.add_0_r, Hold by (simpl; lia). exact Ho.
    + specialize (Hnew i b Hi). simpl in Hnew. by rewrite <-plus_n_Sm.
Qed.

(** ** [__handle_alert] *)

(** The alert in the list that [__handle_alert] takes for the same. *)
Definition existing (s : st) (a : Alert) : option nat :=
  List.find (fun r' => bool_decide (identity (obj s r') = identity a)) (alerts s).

Lemma existing_Some s a r' : existing s a = Some r' -> r' ∈ alerts s /\ identity (obj s r') = identity a.
Proof. intros [Hin E]%List.find_some. rewrite bool_decide_eq_true in E. by rewrite list_elem_of_In. Qed.

Lemma existing_None s a r' : existing s a = None -> r' ∈ alerts s -> identity (obj s r') ≠ identity a.
Proof.
  intros Hn Hin%list_elem_of_In E. pose proof (List.find_none _ _ Hn r' Hin) as H. simpl in H.
  rewrite bool_decide_eq_false in H. done.
Qed.

Lemma existing_self s r : listed s (alerts s) -> r ∈ alerts s -> existing s (obj s r) = Some r.
Proof.
  intros Hl Hr. destruct (existing s (obj s r)) as [r'|] eqn:E.
  - apply existing_Some in E as [Hr' E]. by rewrite (listed_inj s _ r' r Hl Hr' Hr E).
  - by destruct (existing_None s (obj s r) r E Hr).
Qed.

(** An alert that is ready to be merged: what the constructor left to be set. *)
Record ready (a : Alert) : Prop := {
  rd_uuid : uuid a = None;
  rd_node : is_node (node a);
  rd_source : is_Some (source a);
  rd_class : registered (inst_class (instance a));
  rd_text : text a ≠ "";
}.

Lemma to_naive d : exists us, to_naive_utc d = naive us.
Proof. destruct d as [us [off|]]; unfold to_naive_utc; simpl; eexists; done. Qed.

(** The object after [__handle_alert], for an alert that is new or already there. *)
Definition handled (e : Env) (a : Alert) (x : option Alert) (u : uuid_t) : Alert :=
  match x with
  | None => mkAlert (instance a) (Some (to_naive_utc (default (naive (now e)) (a_datetime a))))
              (Some (naive (now e))) (node a) (Some false) (mail a) (Some u) (source a) (key a) (text a)
  | Some x => mkAlert (instance a) (a_datetime x) (Some (naive (now e))) (node a) (dismissed x) (mail a) (uuid x)
               (source a) (key a) (text a)
  end.

Lemma handle_alert_eq e r s :
  handle_alert e r s =
    put r (handled e (obj s r) (obj s <$> existing s (obj s r)) (next_uuid s))
      (match existing s (obj s r) with None => set_next_uuid (S (next_uuid s)) s | Some _ => s end).
Proof. unfold handle_alert, existing. by destruct (List.find _ _). Qed.

Lemma bump_ok s : core_ok s -> core_ok (set_next_uuid (S (next_uuid s)) s) /\ grows s (set_next_uuid (S (next_uuid s)) s).
Proof.
  intros [H1 H2 H3 H4 H5 H6 H7]. split; [|constructor; simpl; [lia|done|done]].
  constructor; try done. intros u i Hi. simpl. specialize (H2 u i Hi). lia.
Qed.

Lemma handle_alert_ok e r s :
  core_ok s -> listed s (alerts s) -> r < next_ref s -> ready (obj s r) ->
  let s' := handle_alert e r s in
  core_ok s' /\ grows s s' /\ is_Some (uuid (obj s' r)) /\ identity (obj s' r) = identity (obj s r).
Proof.
  intros Hc Hl Hr Hd. rewrite handle_alert_eq. destruct (existing s (obj s r)) as [r'|] eqn:E; simpl.
  - destruct (existing_Some _ _ _ E) as [Hin Hid]. destruct Hl as [_ Hall]. rewrite Forall_forall in Hall.
    pose proof (k_complete _ Hc r' (Hall r' Hin)) as Hx. rewrite obj_put_eq. destruct (put_ok r (handled e (obj s r) (Some (obj s r')) (next_uuid s)) s Hc).
    + rewrite (rd_uuid _ Hd). by intros [].
    + intros u Hu. simpl in Hu. split_and!; [|by apply (k_bound _ Hc u (identity (obj s r'))); left; eauto|done|].
      * destruct Hd, Hx. constructor; simpl; eauto.
      * intros i Hi. simpl. rewrite (k_fun _ Hc u i (identity (obj s r')) Hi); [done|left; eauto].
    + split_and!; [done..|by apply Hall|done].
  - destruct (bump_ok s Hc) as [Hc1 Hg1]. rewrite obj_put_eq.
    destruct (put_ok r (handled e (obj s r) None (next_uuid s)) (set_next_uuid (S (next_uuid s)) s) Hc1).
    + change (obj (set_next_uuid (S (next_uuid s)) s) r) with (obj s r). rewrite (rd_uuid _ Hd). by intros [].
    + intros u [= <-]. split_and!; [|simpl; lia|done|].
      * destruct Hd. destruct (to_naive (default (naive (now e)) (a_datetime (obj s r)))) as [us Hus].
        constructor; simpl; eauto. rewrite Hus. eauto.
      * intros i Hi. pose proof (k_bound _ Hc _ i Hi). lia.
    + split_and!; [done|by etrans|by eexists|done].
Qed.

(** ** Merging *)

(** The order in which the alerts of both controllers are handled. *)
Fixpoint interleave {A} (l k : list A) : list A :=
  match l, k with
  | [], k => k
  | l, [] => l
  | x :: l, y :: k => x :: y :: interleave l k
  end.

Lemma interleave_Permutation {A} (l : list A) : forall k, interleave l k ≡ₚ l ++ k.
Proof.
  induction l as [|x l IH]; intros [|y k]; simpl; [done|done|by rewrite app_nil_r|].
  rewrite IH. constructor. by rewrite Permutation_middle.
Qed.

Lemma handle_both_fold e fi this : forall other s,
  handle_both e fi this other s =
    foldl (fun s p => handle_at e p.1 s p.2) s
      (interleave (map (pair (fi_this_node fi)) this) (map (pair (fi_other_node fi)) other)).
Proof.
  assert (forall nd l s, foldl (handle_at e nd) s l = foldl (fun s p => handle_at e p.1 s p.2) s (map (pair nd) l)) as Hl.
  { intros nd l. induction l as [|r l IH]; intros s; simpl; [done|apply IH]. }
  induction this as [|t this IH]; intros [|o other] s; simpl; [done|apply Hl|apply Hl|apply IH].
Qed.

(** An object made by a check, before its node is set. *)
Record made (s : st) (r : nat) : Prop := {
  md_ref : r < next_ref s;
  md_uuid : uuid (obj s r) = None;
  md_source : is_Some (source (obj s r));
  md_class : registered (inst_class (instance (obj s r)));
  md_text : text (obj s r) ≠ "";
}.

(** What becomes of such an object. *)
Definition outcome (e : Env) (s : st) (nd : string) (r : nat) (a : Alert) : Prop :=
  exists u, next_uuid s <= u /\ a = handled e (set_node nd (obj s r)) (obj s <$> existing s (set_node nd (obj s r))) u.

Lemma handle_at_frame e nd s r : same_lists s (handle_at e nd s r) /\ next_ref (handle_at e nd s r) = next_ref s
  /\ forall r', r ≠ r' -> obj (handle_at e nd s r) r' = obj s r'.
Proof.
  unfold handle_at. rewrite handle_alert_eq. split_and!.
  - by destruct (existing _ _).
  - by destruct (existing _ _).
  - intros r' Hne. rewrite obj_put_ne by done. destruct (existing _ _);
      [by rewrite obj_put_ne|]. change (obj (put r (set_node nd (obj s r)) s) r' = obj s r'). by apply obj_put_ne.
Qed.

(** Looking for an existing alert depends on the objects in the list only. *)
Lemma existing_ext s s' a :
  alerts s' = alerts s -> (forall r, r ∈ alerts s -> obj s' r = obj s r) -> existing s' a = existing s a.
Proof.
  unfold existing. intros -> H. induction (alerts s) as [|r l IH]; simpl; [done|].
  rewrite H by set_solver. rewrite IH by set_solver. done.
Qed.

Lemma existing_obj_ext s s' a :
  alerts s' = alerts s -> (forall r, r ∈ alerts s -> obj s' r = obj s r) ->
  obj s' <$> existing s' a = obj s <$> existing s a.
Proof.
  intros E H. rewrite (existing_ext s s') by done. destruct (existing s a) as [r|] eqn:Ex; simpl; [|done].
  apply existing_Some in Ex as [Hin _]. by rewrite H.
Qed.

Lemma handle_at_ok e nd s r :
  core_ok s -> listed s (alerts s) -> made s r -> is_node (Some nd) ->
  let s' := handle_at e nd s r in
  core_ok s' /\ grows s s' /\ outcome e s nd r (obj s' r).
Proof.
  intros Hc Hl Hm Hnd. unfold handle_at. set (s1 := put r (set_node nd (obj s r)) s).
  destruct (put_unmerged r (set_node nd (obj s r)) s Hc) as [Hc1 Hg1]; [apply Hm|apply Hm|]. fold s1 in Hc1, Hg1.
  assert (ready (obj s1 r)) as Hr.
  { unfold s1. rewrite obj_put_eq. destruct Hm. by constructor. }
  assert (forall r', r' ∈ alerts s -> obj s1 r' = obj s r') as Ho.
  { intros r' Hr'. unfold s1. apply obj_put_ne. intros <-. destruct Hl as [_ Hl]. rewrite Forall_forall in Hl.
    destruct (Hl r Hr') as [u Hu]. rewrite (md_uuid _ _ Hm) in Hu. done. }
  assert (listed s1 (alerts s1)) as Hl1 by (by apply (listed_grows s)).
  destruct (handle_alert_ok e r s1 Hc1 Hl1 (md_ref _ _ Hm) Hr) as (Hc2 & Hg2 & _).
  split_and!; [done|by etrans|]. exists (next_uuid s). split; [done|].
  rewrite handle_alert_eq, obj_put_eq. rewrite (existing_obj_ext s s1) by done.
  unfold s1. by rewrite !obj_put_eq.
Qed.

Lemma outcome_uuid e s nd r a :
  listed s (alerts s) -> outcome e s nd r a -> is_Some (uuid a) /\ identity a = identity (set_node nd (obj s r)).
Proof.
  intros [_ Hl] (u & _ & ->). destruct (existing s _) as [r'|] eqn:E; simpl; [|by split].
  apply existing_Some in E as [Hin _]. rewrite Forall_forall in Hl. split; [by apply Hl|done].
Qed.

Lemma handle_fold_ok e (ps : list (string * nat)) : forall s,
  core_ok s -> listed s (alerts s) -> NoDup ps.*2 -> Forall (fun p => made s p.2 /\ is_node (Some p.1)) ps ->
  let s' := foldl (fun s p => handle_at e p.1 s p.2) s ps in
  core_ok s' /\ grows s s' /\ same_lists s s' /\ next_ref s' = next_ref s
  /\ (forall r, r ∉ ps.*2 -> obj s' r = obj s r)
  /\ Forall (fun p => outcome e s p.1 p.2 (obj s' p.2)) ps.
Proof.
  induction ps as [|[nd r] ps IH]; intros s Hc Hl Hnd Hps; simpl.
  { by split_and!. }
  apply Forall_cons in Hps as [[Hm Hnode] Hps]. apply NoDup_cons in Hnd as [Hni Hnd]. simpl in *.
  destruct (handle_at_ok e nd s r Hc Hl Hm Hnode) as (Hc1 & Hg1 & Ho1).
  destruct (handle_at_frame e nd s r) as (Hs1 & Hn1 & Hold1). set (s1 := handle_at e nd s r) in *.
  assert (listed s1 (alerts s1)) as Hl1.
  { destruct Hs1 as [<- _]. by apply (listed_grows s). }
  assert (forall r', r' ∈ ps.*2 -> obj s1 r' = obj s r') as Hsame.
  { intros r' Hr'. apply Hold1. by intros ->. }
  assert (forall r', r' ∈ alerts s -> obj s1 r' = obj s r') as Hal.
  { intros r' Hr'. apply Hold1. intros <-. destruct Hl as [_ Hl]. rewrite Forall_forall in Hl.
    destruct (Hl r Hr') as [u Hu]. rewrite (md_uuid _ _ Hm) in Hu. done. }
  destruct (IH s1 Hc1 Hl1 Hnd) as (Hc2 & Hg2 & Hs2 & Hn2 & Hold2 & Ho2).
  { eapply Forall_impl_strong; [|exact Hps]. intros [nd' r'] Hin [[] ?]. simpl in *. split; [|done].
    assert (obj s1 r' = obj s r') as E by (apply Hsame, list_elem_of_fmap; by exists (nd', r')).
    constructor; rewrite ?E; try done. by rewrite Hn1. }
  split_and!; [done|by etrans|by etrans|by rewrite Hn2| |].
  - intros r' [Hne Hr']%not_elem_of_cons. by rewrite Hold2, Hold1.
  - apply Forall_cons. split; [by rewrite Hold2|].
    eapply Forall_impl_strong; [|exact Ho2]. intros [nd' r'] Hin (u & Hu & E). simpl in *.
    exists u. split; [destruct Hg1; lia|]. rewrite E.
    rewrite Hsame by (apply list_elem_of_fmap; by exists (nd', r')).
    destruct Hs1 as [E1 _]. by rewrite (existing_obj_ext s s1).
Qed.

(** Every alert of the new list is new, or an alert of the old list with the same
    uuid, date and dismissal. *)
Definition carried (s s' : st) : Prop :=
  forall r', r' ∈ alerts s' -> exists u, uuid (obj s' r') = Some u
    /\ (next_uuid s <= u \/ exists r, r ∈ alerts s /\ uuid (obj s r) = Some u
          /\ a_datetime (obj s' r') = a_datetime (obj s r) /\ dismissed (obj s' r') = dismissed (obj s r)).

Lemma outcome_carried e s nd r a :
  listed s (alerts s) -> outcome e s nd r a -> exists u, uuid a = Some u
    /\ (next_uuid s <= u \/ exists r, r ∈ alerts s /\ uuid (obj s r) = Some u
          /\ a_datetime a = a_datetime (obj s r) /\ dismissed a = dismissed (obj s r)).
Proof.
  intros [_ Hl] (u & Hu & ->). destruct (existing s _) as [r'|] eqn:E; simpl; [|eauto].
  apply existing_Some in E as [Hin _]. rewrite Forall_forall in Hl. destruct (Hl r' Hin) as [u' Hu'].
  exists u'. split; [done|]. right. by exists r'.
Qed.

(** The alerts a check made for the source [n]. *)
Record checked (s : st) (n : string) (l : list nat) : Prop := {
  ch_nodup : NoDup l;
  ch_made : Forall (made s) l;
  ch_source : Forall (fun r => source (obj s r) = Some n) l;
  ch_keys : NoDup (map (fun r => key (obj s r)) l);
}.

Record fi_ok (fi : AlertFailoverInfo) : Prop := {
  fo_this : is_node (Some (fi_this_node fi));
  fo_other : is_node (Some (fi_other_node fi));
  fo_ne : fi_this_node fi ≠ fi_other_node fi;
}.

Lemma elem_filter {A} (f : A -> bool) (l : list A) x : x ∈ List.filter f l <-> f x = true /\ x ∈ l.
Proof. rewrite !list_elem_of_In, List.filter_In. tauto. Qed.

Lemma merge_frame e fi n this other s :
  merge e fi n this other s =
    set_alerts (List.filter (fun r => negb (bool_decide (source (obj (handle_both e fi this other s) r) = Some n)))
                  (alerts (handle_both e fi this other s)) ++ this ++ other) (handle_both e fi this other s).
Proof. done. Qed.

(** What a step of the job keeps apart from the list of alerts. *)
Definition same_rest (s s' : st) : Prop :=
  policies s = policies s' /\ this_node_name s = this_node_name s' /\ rows s = rows s' /\ dismissals s = dismissals s'
  /\ log s = log s' /\ blocked_sources s = blocked_sources s' /\ sources_locks s = sources_locks s'
  /\ alert_source_last_run s = alert_source_last_run s' /\ pc s = pc s'.

Lemma same_lists_rest s s' : same_lists s s' -> same_rest s s'.
Proof. unfold same_lists, same_rest. tauto. Qed.

#[global] Instance same_rest_preorder : PreOrder same_rest.
Proof. split; [by intros s|]. unfold same_rest. intros s1 s2 s3 H1 H2. destruct_and!. split_and!; congruence. Qed.

Lemma handle_checked_ok e fi n this other s :
  core_ok s -> listed s (alerts s) -> fi_ok fi -> checked s n this -> checked s n other -> this ## other ->
  let s' := handle_both e fi this other s in
  core_ok s' /\ grows s s' /\ same_lists s s' /\ next_ref s' = next_ref s
  /\ (forall r, r ∈ alerts s -> obj s' r = obj s r)
  /\ Forall (fun r => outcome e s (fi_this_node fi) r (obj s' r)) this
  /\ Forall (fun r => outcome e s (fi_other_node fi) r (obj s' r)) other.
Proof.
  intros Hc Hl [Hf1 Hf2 _] [Ht1 Ht2 _ _] [Ho1 Ho2 _ _] Hd. simpl. rewrite handle_both_fold.
  set (ps := interleave _ _).
  assert (ps ≡ₚ map (pair (fi_this_node fi)) this ++ map (pair (fi_other_node fi)) other) as Hps
    by apply interleave_Permutation.
  assert (ps.*2 ≡ₚ this ++ other) as Hsnd.
  { rewrite Hps, fmap_app. by rewrite <-!list_fmap_compose, !list_fmap_id. }
  rewrite Forall_forall in Ht2, Ho2.
  destruct (handle_fold_ok e ps s Hc Hl) as (H1 & H2 & H3 & H4 & H5 & H6).
  - rewrite Hsnd. apply NoDup_app. split_and!; [done| |done]. intros x Hx Hx'. by apply (Hd x).
  - rewrite Hps. apply Forall_app. split; apply Forall_forall; intros p (r & -> & Hr)%list_elem_of_fmap; simpl; auto.
  - split_and!; [done..| | |].
    + intros r Hr. apply H5. rewrite Hsnd. intros [Hin|Hin]%elem_of_app.
      * destruct Hl as [_ Hl]. rewrite Forall_forall in Hl. destruct (Hl r Hr) as [u Hu].
        rewrite (md_uuid _ _ (Ht2 r Hin)) in Hu. done.
      * destruct Hl as [_ Hl]. rewrite Forall_forall in Hl. destruct (Hl r Hr) as [u Hu].
        rewrite (md_uuid _ _ (Ho2 r Hin)) in Hu. done.
    + rewrite Hps, Forall_app, Forall_fmap in H6. apply H6.
    + rewrite Hps, Forall_app, !Forall_fmap in H6. apply H6.
Qed.

Lemma NoDup_map_inj {A B C} (f : A -> B) (g : A -> C) (l : list A) :
  (forall x y, x ∈ l -> y ∈ l -> f x = f y -> g x = g y) -> NoDup (map g l) -> NoDup (map f l).
Proof.
  induction l as [|x l IH]; intros Hfg Hg; simpl in *; [constructor|].
  apply NoDup_cons in Hg as [Hx Hg]. apply NoDup_cons. split; [|apply IH; set_solver].
  intros (y & E & Hy)%list_elem_of_fmap. apply Hx, list_elem_of_fmap. exists y. split; [|done].
  apply Hfg; set_solver.
Qed.

Lemma merge_ok e fi n this other s :
  core_ok s -> listed s (alerts s) -> fi_ok fi -> checked s n this -> checked s n other -> this ## other ->
  let s' := merge e fi n this other s in
  core_ok s' /\ grows s s' /\ listed s' (alerts s') /\ carried s s' /\ same_rest s s'.
Proof.
  intros Hc Hl Hf Ht Ho Hd. destruct (handle_checked_ok e fi n this other s Hc Hl Hf Ht Ho Hd)
    as (H1 & H2 & H3 & _ & H4 & H5 & H6).
  simpl. rewrite merge_frame. set (s1 := handle_both e fi this other s) in *.
  assert (alerts s1 = alerts s) as Ea by (symmetry; apply H3). rewrite Ea.
  assert (listed s1 (alerts s)) as Hl1 by (by apply (listed_grows s)).
  rewrite Forall_forall in H5, H6.
  assert (forall nd r, outcome e s nd r (obj s1 r) -> source (obj s r) = Some n ->
            identity (obj s1 r) = (Some nd, Some n, inst_name (instance (obj s r)), key (obj s r))) as Hid.
  { intros nd r Hout Hs. destruct (outcome_uuid _ _ _ _ _ Hl Hout) as [_ ->]. unfold identity. simpl. by rewrite Hs. }
  pose proof (ch_source _ _ _ Ht) as Hst. pose proof (ch_source _ _ _ Ho) as Hso. rewrite Forall_forall in Hst, Hso.
  split_and!.
  - eapply core_ok_eq; [|exact H1]. done.
  - etrans; [exact H2|]. by apply grows_eq.
  - apply (listed_eq s1); [done|]. simpl. split.
    + change (map ?f ?l) with (f <$> l).
      rewrite !fmap_app. apply NoDup_app. split_and!; [|intros i Hi Hi'|apply NoDup_app; split_and!; [|intros i Hi Hi'|]].
      * eapply sublist_NoDup; [apply Hl1|]. apply fmap_sublist, filter_sublist.
      * apply list_elem_of_fmap in Hi as (r & -> & [Hr _]%elem_filter).
        rewrite negb_true_iff, bool_decide_eq_false in Hr. apply Hr.
        apply elem_of_app in Hi' as [(r' & E & Hr')%list_elem_of_fmap|(r' & E & Hr')%list_elem_of_fmap];
          simpl in E; [rewrite (Hid _ _ (H5 r' Hr') (Hst r' Hr')) in E|rewrite (Hid _ _ (H6 r' Hr') (Hso r' Hr')) in E];
          unfold identity in E; congruence.
      * apply (NoDup_map_inj _ (fun r => key (obj s r))); [|apply Ht]. intros x y Hx Hy E.
        rewrite (Hid _ _ (H5 x Hx) (Hst x Hx)), (Hid _ _ (H5 y Hy) (Hst y Hy)) in E. congruence.
      * apply list_elem_of_fmap in Hi as (x & -> & Hx). apply list_elem_of_fmap in Hi' as (y & E & Hy). simpl in E.
        rewrite (Hid _ _ (H5 x Hx) (Hst x Hx)), (Hid _ _ (H6 y Hy) (Hso y Hy)) in E.
        injection E. intros _ _ E'. by apply (fo_ne _ Hf).
      * apply (NoDup_map_inj _ (fun r => key (obj s r))); [|apply Ho]. intros x y Hx Hy E.
        rewrite (Hid _ _ (H6 x Hx) (Hso x Hx)), (Hid _ _ (H6 y Hy) (Hso y Hy)) in E. congruence.
    + apply Forall_app. split; [|apply Forall_app; split; apply Forall_forall].
      * apply Forall_forall. intros r [_ Hr]%elem_filter. destruct Hl1 as [_ Hl1]. rewrite Forall_forall in Hl1. by apply Hl1.
      * intros r Hr. by apply (outcome_uuid _ _ _ _ _ Hl (H5 r Hr)).
      * intros r Hr. by apply (outcome_uuid _ _ _ _ _ Hl (H6 r Hr)).
  - intros r [Hr|[Hr|Hr]%elem_of_app]%elem_of_app; simpl in *.
    + apply elem_filter in Hr as [_ Hr]. change (obj (set_alerts _ s1) r) with (obj s1 r). rewrite (H4 r Hr).
      destruct Hl as [_ Hl]. rewrite Forall_forall in Hl. destruct (Hl r Hr) as [u Hu]. eauto 10.
    + by apply (outcome_carried _ _ _ _ _ Hl (H5 r Hr)).
    + by apply (outcome_carried _ _ _ _ _ Hl (H6 r Hr)).
  - etrans; [apply same_lists_rest, H3|]. done.
Qed.
End inv.
