(* ===== verification/AlertSteps.v ===== *)
(** * Every step of the alert service keeps its invariant *)

From S2P Require Import Prelude PyDict PyStr PyVal PyFormat Errors AlertBase Alerts AlertInv.

Section steps.
Context (alert_sources : list AlertSource) (class_by_name : list (string * AlertClass)) (service_types : list string).
Context (repr_instance : AlertClass -> json -> string).

Notation registered := (registered class_by_name).
Notation complete := (complete class_by_name).
Notation core_ok := (core_ok class_by_name).
Notation checked := (checked class_by_name).

(** The snapshot of a policy: alerts that have been merged, by uuid. *)
Definition snap_ok (s : st) (d : list (option uuid_t * nat)) : Prop :=
  Dict.wf d /\ Forall (fun kr => uuid (obj s kr.2) = kr.1 /\ is_Some kr.1) d.

Definition pols_ok (s : st) : Prop := Forall (fun np => snap_ok s (last_key_value_alerts np.2)) (policies s).

(** Merged alerts with distinct uuids. *)
Definition distinct (s : st) (l : list nat) : Prop :=
  NoDup (map (fun r => uuid (obj s r)) l) /\ Forall (fun r => is_Some (uuid (obj s r))) l.

Definition pc_ok (s : st) : Prop :=
  match pc s with
  | None | Some (SLoop _ _ _ _) => True
  | Some (PPrologue v) | Some (PExpired v) => listed s v
  | Some (PLoop v _ fi _) | Some (PCheck v _ fi _ _) => listed s v /\ fi_ok fi
  | Some (PRemote v _ fi src _ this) => listed s v /\ fi_ok fi /\ checked s (src_name src) this
  | Some (SServices _ _ _ _ gone new _ _) => distinct s gone /\ distinct s new
  end.

Record inv (s : st) : Prop := {
  i_core : core_ok s;
  i_alerts : listed s (alerts s);
  i_pc : pc_ok s;
  i_pols : pols_ok s;
}.

Lemma snap_ok_grows s s' d : grows s s' -> snap_ok s d -> snap_ok s' d.
Proof.
  intros [_ _ Hg] [Hwf Hd]. split; [done|]. eapply Forall_impl; [exact Hd|]. intros [k r] [<- Hk]. simpl in *.
  by destruct (Hg r Hk) as [-> _].
Qed.

Lemma pols_ok_grows s s' : grows s s' -> policies s = policies s' -> pols_ok s -> pols_ok s'.
Proof. intros Hg E. unfold pols_ok. rewrite <-E. intros H. eapply Forall_impl; [exact H|]. intros np. by apply snap_ok_grows. Qed.

Lemma distinct_grows s s' l : grows s s' -> distinct s l -> distinct s' l.
Proof.
  intros [_ _ Hg] [Hnd Hl]. rewrite Forall_forall in Hl. split.
  - erewrite List.map_ext_in; [exact Hnd|]. intros r Hr%list_elem_of_In. by destruct (Hg r (Hl r Hr)).
  - apply Forall_forall. intros r Hr. destruct (Hg r (Hl r Hr)) as [-> _]. auto.
Qed.

(** A step of another method leaves the alerts of a running check alone. *)
Definition quiet (s s' : st) : Prop :=
  grows s s' /\ forall r, r < next_ref s -> uuid (obj s r) = None -> obj s' r = obj s r.

Lemma checked_quiet s s' n l : quiet s s' -> checked s n l -> checked s' n l.
Proof.
  intros [Hg Hq] [H1 H2 H3 H4].
  assert (forall r, r ∈ l -> obj s' r = obj s r) as E.
  { intros r Hr. rewrite Forall_forall in H2. destruct (H2 r Hr). by apply Hq. }
  constructor; [done| | |].
  - eapply Forall_impl_strong; [|exact H2]. intros r Hr []. constructor; rewrite ?E by done; try done.
    destruct Hg. lia.
  - eapply Forall_impl_strong; [|exact H3]. intros r Hr. by rewrite E.
  - erewrite List.map_ext_in; [exact H4|]. intros r Hr%list_elem_of_In. simpl. by rewrite E.
Qed.

Lemma pc_ok_quiet s s' : quiet s s' -> pc s = pc s' -> pc_ok s -> pc_ok s'.
Proof.
  intros Hq E. pose proof Hq as [Hg _]. unfold pc_ok. rewrite <-E. destruct (pc s) as [[]|]; try done;
    intuition eauto using listed_grows, checked_quiet, distinct_grows.
Qed.

(** A step of another method keeps the invariant. *)
Lemma inv_quiet s s' :
  inv s -> core_ok s' -> quiet s s' -> pc s = pc s' -> listed s' (alerts s') -> pols_ok s' -> inv s'.
Proof. intros [] Hc Hq E Hl Hp. constructor; try done. by eapply pc_ok_quiet. Qed.

Lemma quiet_eq s s' : core s = core s' -> quiet s s'.
Proof.
  intros E. split; [by apply grows_eq|]. unfold core in E. injection E. intros _ _ _ _ E'.
  intros r _ _. unfold obj. by rewrite E'.
Qed.

(** A step of the job that leaves the objects alone. *)
Lemma inv_same s s' :
  inv s -> core s = core s' -> listed s (alerts s') -> policies s = policies s' -> pc_ok s' -> inv s'.
Proof.
  intros [H1 H2 H3 H4] E Hl Hp Hpc. pose proof (grows_eq _ _ E) as Hg. constructor.
  - by eapply core_ok_eq.
  - by eapply listed_grows.
  - done.
  - by eapply pols_ok_grows.
Qed.

Lemma alert_inv_frame s s' :
  inv s -> core s = core s' -> alerts s = alerts s' -> policies s = policies s' -> pc s = pc s' -> inv s'.
Proof.
  intros Hi E Ea Ep Epc. apply (inv_same s); [done|done|rewrite <-Ea; apply Hi|done|].
  apply (pc_ok_quiet s); [by apply quiet_eq|done|apply Hi].
Qed.

(** ** Dismissal *)

Lemma remove_sub s x l : forall l', remove s x l = Some l' -> l' `sublist_of` l.
Proof.
  induction l as [|r l IH]; simpl; [done|]. destruct (same s x r).
  - intros l' [= <-]. by constructor.
  - intros l' (l2 & H & ->)%fmap_Some. constructor. auto.
Qed.

Lemma pop_snap s u d : snap_ok s d -> snap_ok s (Dict.pop u d).
Proof.
  intros [Hwf Hd]. split; [by apply Dict.wf_pop|]. apply Forall_forall. intros kr Hin.
  rewrite Forall_forall in Hd. apply Hd. eapply elem_of_sublist; [exact Hin|apply Dict.pop_sublist].
Qed.

Lemma delete_on_dismiss_core r s : core (delete_on_dismiss r s) = core s /\ pc (delete_on_dismiss r s) = pc s.
Proof. unfold delete_on_dismiss. by destruct (remove s r (alerts s)). Qed.

Lemma delete_on_dismiss_inv r s : inv s -> inv (delete_on_dismiss r s).
Proof.
  intros Hi. destruct (delete_on_dismiss_core r s) as [Ec Ep].
  eapply inv_quiet; [exact Hi| | |done| |].
  - eapply core_ok_eq; [symmetry; exact Ec|apply Hi].
  - by apply quiet_eq.
  - apply (listed_eq s); [by injection Ec|].
    unfold delete_on_dismiss. destruct (remove s r (alerts s)) as [l|] eqn:E; simpl; [|apply Hi].
    eapply listed_sub; [apply Hi|by eapply remove_sub].
  - apply (pols_ok_grows (map_policies (delete_alert (uuid (obj s r))) s)).
    + by apply grows_eq.
    + unfold delete_on_dismiss. by destruct (remove s r (alerts s)).
    + unfold pols_ok. simpl. apply Forall_fmap. eapply Forall_impl; [apply (i_pols _ Hi)|].
      intros np Hnp. simpl. by apply pop_snap.
Qed.

(** Setting the flag of an alert. *)
Lemma set_dismissed_inv b r s : inv s -> r ∈ alerts s -> inv (put r (set_dismissed b (obj s r)) s).
Proof.
  intros Hi Hr. destruct (put_ok _ r (set_dismissed b (obj s r)) s (i_core _ Hi)) as [Hc Hg].
  - done.
  - intros u Hu. simpl in Hu.
    assert (ident s u (identity (obj s r))) as Hid by (left; by exists r).
    split_and!; [|by apply (k_bound _ _ (i_core _ Hi) u _ Hid)| |].
    + destruct (k_complete _ _ (i_core _ Hi) r) as []; [by eexists|]. constructor; simpl; eauto.
    + destruct (decide (r < next_ref s)) as [|Hn]; [done|].
      pose proof (k_fresh _ _ (i_core _ Hi) r) as Hf. rewrite Hf in Hu by lia. done.
    + intros i Hi'. by apply (k_fun _ _ (i_core _ Hi) u).
  - eapply inv_quiet; [done|done| |done| |].
    + split; [done|]. intros r' _ Hu. rewrite obj_put. case_decide as E; [subst r'|done].
      destruct (i_alerts _ Hi) as [_ Hl]. rewrite Forall_forall in Hl. destruct (Hl r Hr). congruence.
    + apply (listed_grows s); [done|apply Hi].
    + apply (pols_ok_grows s); [done|done|apply Hi].
Qed.

Lemma emit_inv ev s : inv s -> inv (emit ev s).
Proof. intros Hi. by apply (alert_inv_frame s). Qed.

Lemma changed_event_inv e r s : inv s -> inv (send_alert_changed_event e r s).
Proof.
  intros Hi. unfold send_alert_changed_event. destruct (should_show_alert _ _); [|done].
  destruct (serialize _ _); [by apply emit_inv|done].
Qed.

Lemma alert_by_uuid_Some u s r : alert_by_uuid u s = Some r -> r ∈ alerts s /\ uuid (obj s r) = Some u.
Proof.
  intros [Hin E]%List.find_some. rewrite bool_decide_eq_true in E. by rewrite list_elem_of_In.
Qed.

Lemma dismiss_inv e u s : inv s -> inv (dismiss e u s).
Proof.
  intros Hi. unfold dismiss. destruct (alert_by_uuid u s) as [r|] eqn:E; [|done].
  apply alert_by_uuid_Some in E as [Hr _]. destruct (is_dismissable _).
  - by apply (alert_inv_frame s).
  - destruct (_ && _); [by apply delete_on_dismiss_inv|by apply changed_event_inv, set_dismissed_inv].
Qed.

Lemma restore_inv e u s : inv s -> inv (restore e u s).
Proof.
  intros Hi. unfold restore. destruct (alert_by_uuid u s) as [r|] eqn:E; [|done].
  apply alert_by_uuid_Some in E as [Hr _]. by apply changed_event_inv, set_dismissed_inv.
Qed.

Lemma dismiss_finish_inv i left_alerts s s' : inv s -> dismiss_finish i left_alerts s = Some s' -> inv s'.
Proof.
  intros Hi. unfold dismiss_finish. destruct (dismissals s !! i) as [[? rel]|]; [|done]. intros [= <-].
  assert (inv (set_dismissals (delete i (dismissals s)) s)) as H0.
  { by apply (alert_inv_frame s). }
  revert H0. generalize (set_dismissals (delete i (dismissals s)) s) as s0.
  induction rel as [|r rel IH]; intros s0 H0; simpl; [done|]. apply IH.
  destruct (isin _ _ _); [done|by apply delete_on_dismiss_inv].
Qed.

(** ** Checks *)

Lemma set_sources_of_obj n l : forall s r,
  obj (set_sources_of n l s) r = if decide (r ∈ l) then set_source n (obj s r) else obj s r.
Proof.
  induction l as [|x l IH]; intros s r; [done|]. cbn [set_sources_of foldl].
  unfold set_sources_of in IH. rewrite IH, obj_put.
  destruct (decide (x = r)) as [->|Hne], (decide (r ∈ l)), (decide (r ∈ _ :: l)); try done; set_solver.
Qed.

Lemma set_sources_of_frame n l : forall s,
  same_lists s (set_sources_of n l s) /\ next_ref (set_sources_of n l s) = next_ref s.
Proof. induction l as [|x l IH]; intros s; simpl; [done|]. destruct (IH (put x (set_source n (obj s x)) s)). by split. Qed.

Lemma set_sources_of_ok n l : forall s,
  core_ok s -> Forall (fun r => uuid (obj s r) = None) l ->
  core_ok (set_sources_of n l s) /\ grows s (set_sources_of n l s).
Proof.
  induction l as [|x l IH]; intros s Hc Hl; simpl; [done|]. apply Forall_cons in Hl as [Hx Hl].
  destruct (put_unmerged _ x (set_source n (obj s x)) s Hc Hx Hx) as [Hc1 Hg1].
  destruct (IH _ Hc1) as [Hc2 Hg2]; [|split; [done|by etrans]].
  eapply Forall_impl; [exact Hl|]. intros r Hr. rewrite obj_put. by case_decide; subst.
Qed.

Lemma unique_by_key_sub s l : forall seen, unique_by_key s seen l `sublist_of` l.
Proof.
  induction l as [|r l IH]; intros seen; simpl; [done|].
  case_bool_decide; [by apply sublist_cons|by apply sublist_skip].
Qed.

Lemma unique_by_key_NoDup s l : forall seen,
  NoDup (map (fun r => key (obj s r)) (unique_by_key s seen l))
  /\ Forall (fun r => key (obj s r) ∉ seen) (unique_by_key s seen l).
Proof.
  induction l as [|r l IH]; intros seen; simpl; [split; constructor|]. case_bool_decide as Hk; [apply IH|].
  destruct (IH (key (obj s r) :: seen)) as [Hnd Hall]. rewrite Forall_forall in Hall. split.
  - simpl. apply NoDup_cons. split; [|done]. intros (x & E & Hx)%list_elem_of_fmap. apply (Hall x Hx). rewrite <-E. set_solver.
  - apply Forall_cons. split; [done|]. apply Forall_forall. intros x Hx. specialize (Hall x Hx). set_solver.
Qed.

(** The classes of the alerts a check returns are registered. *)
Definition res_ok (res : check_result) : Prop :=
  match res with
  | CheckOne a => registered (na_class a)
  | CheckList l => Forall (fun a => registered (na_class a)) l
  | _ => True
  end.

Lemma init_text i dt last nd dis ml u src k : title (config (inst_class i)) ≠ "" -> forall t, text (Alert_init i dt last nd dis ml u src k t) ≠ "".
Proof. intros Ht [[|]|]; simpl; try done; destruct (config_text _) as [[|]|]; done. Qed.

Lemma construct_made a r : registered (na_class a) ->
  uuid (construct a r) = None /\ registered (inst_class (instance (construct a r))) /\ text (construct a r) ≠ "".
Proof. intros Hr. split_and!; [done|done|]. apply init_text. apply Hr. Qed.

(** The alerts [__run_source] constructs. *)
Definition constructed (n : string) (res : check_result) : option (list new_alert_args) :=
  match res with
  | CheckUnavailable => None
  | CheckRaises tb => Some [mkNew (run_failed_class false) (run_failed_args n tb) None JNull]
  | CheckNone => Some []
  | CheckOne a => Some [a]
  | CheckList l => Some l
  end.

Definition noted (n : string) (run_time : Z) (res : check_result) (s : st) : st :=
  record_run n run_time
    match res with
    | CheckUnavailable => s
    | CheckRaises _ => set_alert_sources_errors ({[ n ]} ∪ alert_sources_errors s) s
    | _ => set_alert_sources_errors (alert_sources_errors s ∖ {[ n ]}) s
    end.

Lemma run_source_eq n t res s :
  run_source_ n t res s =
    match constructed n res with
    | None => (noted n t res s, None)
    | Some l => let '(s, rs) := alloc_all (map construct l) (noted n t res s) in
                (set_sources_of n (unique_by_key s [] rs) s, Some (unique_by_key s [] rs))
    end.
Proof. by destruct res. Qed.

Lemma noted_frame n t res s : core (noted n t res s) = core s /\ same_lists s (noted n t res s).
Proof. by destruct res. Qed.

Lemma constructed_ok n res l : registry_ok class_by_name -> res_ok res -> constructed n res = Some l ->
  Forall (fun a => registered (na_class a)) l.
Proof.
  intros [_ Hf] Hr. destruct res; simpl; [done|intros [= <-]..]; simpl in *.
  - repeat constructor; apply (Hf false).
  - constructor.
  - by constructor.
  - done.
Qed.

Lemma run_source_ok n t res s s' ro :
  registry_ok class_by_name -> core_ok s -> res_ok res -> run_source_ n t res s = (s', ro) ->
  core_ok s' /\ grows s s' /\ same_lists s s' /\ (forall r, r < next_ref s -> obj s' r = obj s r)
  /\ checked s' n (default [] ro) /\ Forall (fun r => next_ref s <= r) (default [] ro).
Proof.
  intros Hreg Hc Hres. rewrite run_source_eq. destruct (noted_frame n t res s) as [Ec Hs0].
  set (s0 := noted n t res s) in *. assert (core_ok s0) as Hc0 by (by eapply core_ok_eq).
  assert (grows s s0) as Hg0 by (by apply grows_eq).
  assert (next_ref s0 = next_ref s /\ heap s0 = heap s) as [En Eh] by (by injection Ec).
  destruct (constructed n res) as [l|] eqn:El.
  2: { intros [= <- <-]. split_and!; [done..| |repeat constructor|constructor].
       intros r _. unfold obj. by rewrite Eh. }
  pose proof (constructed_ok n res l Hreg Hres El) as Hl. rewrite Forall_forall in Hl.
  destruct (alloc_all (map construct l) s0) as [s1 rs] eqn:Ea. intros [= <- <-]. simpl.
  assert (Forall (fun a => forall r, fits class_by_name s0 (a r)) (map construct l)) as Hfit.
  { apply Forall_fmap, Forall_forall. by intros a _ r u. }
  destruct (alloc_all_ok _ _ _ _ _ Hc0 Hfit Ea) as (Hc1 & Hg1 & Hs1 & Hrs & Hn1 & Hold & Hnew).
  rewrite length_map in *. set (us := unique_by_key s1 [] rs).
  assert (us `sublist_of` rs) as Hsub by apply unique_by_key_sub.
  assert (forall r, r ∈ us -> next_ref s <= r < next_ref s1 /\ exists a, a ∈ l /\ obj s1 r = construct a r) as Hus.
  { intros r Hr. eapply elem_of_sublist in Hr; [|exact Hsub]. rewrite Hrs in Hr. apply elem_of_seq in Hr.
    split; [lia|]. destruct (lookup_lt_is_Some_2 l (r - next_ref s0)) as [a Ha]; [lia|].
    exists a. split; [by eapply list_elem_of_lookup_2|]. specialize (Hnew (r - next_ref s0) (construct a)).
    rewrite list_lookup_fmap, Ha in Hnew. specialize (Hnew eq_refl).
    by replace (next_ref s0 + (r - next_ref s0)) with r in Hnew by lia. }
  assert (Forall (fun r => uuid (obj s1 r) = None) us) as Hnone.
  { apply Forall_forall. intros r Hr. destruct (Hus r Hr) as (_ & a & _ & ->). done. }
  destruct (set_sources_of_ok n us s1 Hc1 Hnone) as [Hc2 Hg2].
  destruct (set_sources_of_frame n us s1) as [Hs2 Hn2].
  assert (forall r, r ∈ us -> obj (set_sources_of n us s1) r = set_source n (obj s1 r)) as Hobj.
  { intros r Hr. rewrite set_sources_of_obj. by rewrite decide_True. }
  split_and!; [done|by do 2 (etrans; [eassumption|])|by do 2 (etrans; [eassumption|])| | |].
  - intros r Hr. rewrite set_sources_of_obj, decide_False.
    + rewrite Hold by lia. unfold obj. by rewrite Eh.
    + intros Hin. destruct (Hus r Hin). lia.
  - constructor.
    + eapply sublist_NoDup; [|exact Hsub]. rewrite Hrs. apply NoDup_seq.
    + apply Forall_forall. intros r Hr. destruct (Hus r Hr) as (Hlt & a & Ha & E).
      destruct (construct_made a r (Hl a Ha)) as (M1 & M2 & M3).
      constructor; rewrite ?Hobj, ?E by done; simpl; [lia|done|by eexists|done|done].
    + apply Forall_forall. intros r Hr. by rewrite Hobj.
    + erewrite List.map_ext_in; [apply (proj1 (unique_by_key_NoDup s1 rs []))|].
      intros r Hr%list_elem_of_In. simpl. fold us in Hr. by rewrite Hobj.
  - apply Forall_forall. intros r Hr. destruct (Hus r Hr). lia.
Qed.

(** ** A blocked source *)

(** A check that is skipped renews the time the alert was last seen. *)
Definition touch (e : Env) (a : Alert) : Alert :=
  mkAlert (instance a) (a_datetime a) (Some (naive (now e))) (node a) (dismissed a) (mail a) (uuid a) (source a)
    (key a) (text a).

Lemma handle_at_self e nd s r :
  core_ok s -> listed s (alerts s) -> r ∈ alerts s -> node (obj s r) = Some nd ->
  core_ok (handle_at e nd s r) /\ grows s (handle_at e nd s r)
  /\ forall r', obj (handle_at e nd s r) r' = if decide (r = r') then touch e (obj s r) else obj s r'.
Proof.
  intros Hc Hl Hr Hnd. assert (set_node nd (obj s r) = obj s r) as En.
  { destruct (obj s r). simpl in *. by subst. }
  set (s1 := put r (set_node nd (obj s r)) s).
  assert (forall r', obj s1 r' = obj s r') as Ho.
  { intros r'. unfold s1. rewrite obj_put, En. by case_decide; subst. }
  assert (existing s1 (obj s1 r) = Some r) as Ex.
  { rewrite Ho. rewrite (existing_ext s s1) by done. by apply existing_self. }
  assert (handle_at e nd s r = put r (touch e (obj s r)) s1) as E.
  { unfold handle_at. fold s1. rewrite handle_alert_eq, Ex. simpl. by rewrite !Ho. }
  assert (is_Some (uuid (obj s r))) as [u Hu].
  { destruct Hl as [_ Hl]. rewrite Forall_forall in Hl. by apply Hl. }
  assert (core_ok s1 /\ grows s s1) as [Hc1 Hg1].
  { apply put_ok; [done|by rewrite En|]. rewrite En. intros u' Hu'. rewrite Hu in Hu'. injection Hu' as <-.
    assert (ident s u (identity (obj s r))) as Hid by (left; by exists r).
    split_and!; [apply (k_complete _ _ Hc); by eexists|by apply (k_bound _ _ Hc _ _ Hid)| |].
    - destruct (decide (r < next_ref s)) as [|Hn]; [done|]. rewrite (k_fresh _ _ Hc) in Hu by lia. done.
    - intros i Hi. by apply (k_fun _ _ Hc u). }
  rewrite E. destruct (put_ok _ r (touch e (obj s r)) s1 Hc1) as [Hc2 Hg2].
  - rewrite Ho. by intros _.
  - intros u' Hu'. simpl in Hu'. rewrite Hu in Hu'. injection Hu' as <-.
    assert (ident s1 u (identity (obj s r))) as Hid by (left; exists r; rewrite Ho; done).
    split_and!; [|by apply (k_bound _ _ Hc1 _ _ Hid)| |].
    + destruct (k_complete _ _ Hc r) as []; [by eexists|]. constructor; simpl; eauto.
    + destruct (decide (r < next_ref s1)) as [|Hn]; [done|].
      pose proof (k_fresh _ _ Hc1 r ltac:(lia)) as Hf. rewrite Ho, Hu in Hf. done.
    + intros i Hi. by apply (k_fun _ _ Hc1 u).
  - split_and!; [done|by etrans|]. intros r'. rewrite obj_put. by rewrite Ho.
Qed.

Lemma handle_fold_self e (ps : list (string * nat)) : forall s,
  core_ok s -> listed s (alerts s) -> Forall (fun p => p.2 ∈ alerts s /\ node (obj s p.2) = Some p.1) ps ->
  let s' := foldl (fun s p => handle_at e p.1 s p.2) s ps in
  core_ok s' /\ grows s s' /\ same_lists s s'
  /\ forall r, obj s' r = if decide (r ∈ ps.*2) then touch e (obj s r) else obj s r.
Proof.
  induction ps as [|[nd r] ps IH]; intros s Hc Hl Hps; simpl.
  { by split_and!. }
  apply Forall_cons in Hps as [[Hr Hn] Hps]. simpl in *.
  destruct (handle_at_self e nd s r Hc Hl Hr Hn) as (Hc1 & Hg1 & Ho1).
  destruct (handle_at_frame e nd s r) as (Hs1 & _ & _). set (s1 := handle_at e nd s r) in *.
  assert (alerts s1 = alerts s) as Ea by (symmetry; apply Hs1).
  destruct (IH s1 Hc1) as (Hc2 & Hg2 & Hs2 & Ho2).
  - rewrite Ea. by apply (listed_grows s).
  - rewrite Ea. eapply Forall_impl; [exact Hps|]. intros [nd' r'] [H1 H2]. simpl in *. split; [done|].
    rewrite Ho1. by case_decide; subst.
  - split_and!; [done|by etrans|by etrans|]. intros r'. rewrite Ho2, !Ho1.
    clear. change (list_fmap _ _ snd ps) with ps.*2. set (l := ps.*2).
    pose proof (elem_of_cons l r' r) as Hin.
    destruct (decide (r' ∈ r :: l)), (decide (r = r')), (decide (r' ∈ l)); try done; naive_solver.
Qed.

Lemma filter_split {A} (f g : A -> bool) (l : list A) :
  (forall x, x ∈ l -> g x = negb (f x)) -> List.filter f l ++ List.filter g l ≡ₚ l.
Proof.
  induction l as [|x l IH]; intros H; simpl; [done|]. rewrite (H x) by set_solver.
  assert (List.filter f l ++ List.filter g l ≡ₚ l) as IH' by (apply IH; set_solver).
  destruct (f x); simpl; [by constructor|]. by rewrite <-Permutation_middle, IH'.
Qed.

Lemma listed_Permutation s l l' : l ≡ₚ l' -> listed s l -> listed s l'.
Proof. intros E [H1 H2]. split; [|by rewrite <-E]. change (NoDup ((fun r => identity (obj s r)) <$> l')). by rewrite <-E. Qed.

Lemma fi_nodes fi nd : fi_ok fi -> is_node nd -> nd = Some (fi_this_node fi) \/ nd = Some (fi_other_node fi).
Proof. intros [H1 H2 H3] H. unfold is_node in *. intuition congruence. Qed.

Lemma merge_blocked_ok e fi n s this other :
  core_ok s -> listed s (alerts s) -> fi_ok fi -> handle_locked_alert_source n fi s = Some (this, other) ->
  let s' := merge e fi n this other s in
  core_ok s' /\ grows s s' /\ listed s' (alerts s') /\ carried s s' /\ same_rest s s' /\ alerts s' ≡ₚ alerts s
  /\ (forall r, obj s' r = obj s r \/ obj s' r = touch e (obj s r)).
Proof.
  intros Hc Hl Hf. unfold handle_locked_alert_source. case_decide; [done|]. intros [= Et Eo].
  assert (forall r, r ∈ alerts s -> is_node (node (obj s r))) as Hnode.
  { intros r Hr. destruct Hl as [_ Hl]. rewrite Forall_forall in Hl. by apply (k_complete _ _ Hc r (Hl r Hr)). }
  assert (forall r, r ∈ this -> r ∈ alerts s /\ node (obj s r) = Some (fi_this_node fi)) as Hthis.
  { intros r. rewrite <-Et, !elem_filter, bool_decide_eq_true. tauto. }
  assert (forall r, r ∈ other -> r ∈ alerts s /\ node (obj s r) = Some (fi_other_node fi)) as Hother.
  { intros r. rewrite <-Eo, !elem_filter, andb_true_iff, bool_decide_eq_true. tauto. }
  simpl. rewrite merge_frame, handle_both_fold. set (ps := interleave _ _).
  assert (ps ≡ₚ map (pair (fi_this_node fi)) this ++ map (pair (fi_other_node fi)) other) as Hps
    by apply interleave_Permutation.
  destruct (handle_fold_self e ps s Hc Hl) as (Hc1 & Hg1 & Hs1 & Ho1).
  { rewrite Hps. apply Forall_app. split; apply Forall_forall; intros p (r & -> & Hr)%list_elem_of_fmap; simpl; auto. }
  set (s1 := foldl _ s ps) in *. assert (alerts s1 = alerts s) as Ea by (symmetry; apply Hs1). rewrite Ea.
  assert (forall r, source (obj s1 r) = source (obj s r)) as Esrc.
  { intros r. rewrite Ho1. by case_decide. }
  assert (forall l, List.filter (fun r => negb (bool_decide (source (obj s1 r) = Some n))) l
            = List.filter (fun r => negb (bool_decide (source (obj s r) = Some n))) l) as Efil.
  { intros l. apply List.filter_ext. intros r. by rewrite Esrc. }
  rewrite Efil. set (l' := _ ++ this ++ other).
  assert (l' ≡ₚ alerts s) as Hperm.
  { unfold l'. rewrite <-Et, <-Eo, filter_split.
    - rewrite Permutation_app_comm. apply filter_split. done.
    - intros r [_ Hr]%elem_filter. destruct (fi_nodes fi _ Hf (Hnode r Hr)) as [->| ->].
      + by rewrite bool_decide_true.
      + by rewrite (bool_decide_eq_true_2 (Some (fi_other_node fi) = Some (fi_other_node fi)) eq_refl), andb_true_r. }
  split_and!.
  - by eapply (core_ok_eq _ s1).
  - etrans; [exact Hg1|]. by apply grows_eq.
  - apply (listed_eq s1); [done|]. simpl. apply (listed_Permutation _ (alerts s)); [by symmetry|].
    by apply (listed_grows s).
  - intros r Hr. simpl in Hr. rewrite Hperm in Hr. destruct Hl as [_ Hl]. rewrite Forall_forall in Hl.
    destruct (Hl r Hr) as [u Hu]. exists u.
    assert (uuid (obj s1 r) = Some u /\ a_datetime (obj s1 r) = a_datetime (obj s r)
            /\ dismissed (obj s1 r) = dismissed (obj s r)) as (H1 & H2 & H3) by (rewrite Ho1; by case_decide).
    split; [done|]. right. by exists r.
  - etrans; [apply same_lists_rest, Hs1|]. done.
  - done.
  - intros r. change (obj (set_alerts l' s1) r) with (obj s1 r). rewrite Ho1. case_decide; auto.
Qed.

(** ** Notification policies *)

Lemma listed_distinct s l : core_ok s -> listed s l -> distinct s l.
Proof.
  intros Hc Hl. split; [|apply Hl].
  apply (NoDup_map_inj _ (fun r => identity (obj s r))); [|apply Hl].
  intros x y Hx Hy E. by rewrite (listed_uuid_inj _ s l x y Hc Hl Hx Hy E).
Qed.

Lemma by_uuid_map s l : NoDup (map (fun r => uuid (obj s r)) l) -> by_uuid (heap s) l = map (fun r => (uuid (obj s r), r)) l.
Proof.
  unfold by_uuid. intros Hnd.
  assert (forall d, (forall r, r ∈ l -> uuid (obj s r) ∉ Dict.keys d) ->
            foldl (fun d r => Dict.set (uuid (heap s !!! r)) r d) d l = d ++ map (fun r => (uuid (obj s r), r)) l) as H.
  { induction l as [|r l IH]; intros d Hd; simpl; [by rewrite app_nil_r|].
    simpl in Hnd. apply NoDup_cons in Hnd as [Hni Hnd]. change (heap s !!! r) with (obj s r).
    rewrite Dict.set_new by (apply Hd; set_solver). rewrite (IH Hnd); [by rewrite <-app_assoc|].
    intros r' Hr'. unfold Dict.keys. rewrite fmap_app, elem_of_app. intros [Hin|Hin].
    - apply (Hd r'); [set_solver|done].
    - simpl in Hin. apply list_elem_of_singleton in Hin. apply Hni. rewrite <-Hin. apply list_elem_of_fmap. eauto. }
  rewrite (H []); [done|]. intros r _. simpl. set_solver.
Qed.

Lemma by_uuid_snap s l : distinct s l -> snap_ok s (by_uuid (heap s) l).
Proof.
  intros [Hnd Hl]. rewrite by_uuid_map by done. split.
  - unfold Dict.wf, Dict.keys. change (map ?f ?l) with (f <$> l). by rewrite <-list_fmap_compose.
  - apply Forall_fmap. eapply Forall_impl; [exact Hl|]. by intros r Hr.
Qed.

Lemma snap_values s d : snap_ok s d -> distinct s (Dict.values d).
Proof.
  intros [Hwf Hd]. rewrite Forall_forall in Hd. split.
  - replace (map (fun r => uuid (obj s r)) (Dict.values d)) with (Dict.keys d); [done|].
    unfold Dict.keys, Dict.values. change (map ?f ?l) with (f <$> l). rewrite <-list_fmap_compose.
    apply list_fmap_ext. intros i kr Hi. simpl. symmetry. apply Hd. by eapply list_elem_of_lookup_2.
  - apply Forall_fmap, Forall_forall. intros kr Hkr. simpl. destruct (Hd kr Hkr) as [-> ?]. done.
Qed.

Lemma distinct_sub s l l' : l' `sublist_of` l -> distinct s l -> distinct s l'.
Proof.
  intros Hs [Hnd Hl]. split.
  - eapply sublist_NoDup; [exact Hnd|]. by apply fmap_sublist.
  - apply Forall_forall. intros r Hr. rewrite Forall_forall in Hl. apply Hl. by eapply elem_of_sublist.
Qed.

Lemma receive_ok s at_us l p p' gone new :
  distinct s l -> snap_ok s (last_key_value_alerts p) -> receive_alerts (heap s) at_us l p = (p', gone, new) ->
  snap_ok s (last_key_value_alerts p') /\ distinct s gone /\ distinct s new.
Proof.
  intros Hl Hp. unfold receive_alerts. case_decide; intros [= <- <- <-].
  - split_and!; [done| |]; split; constructor.
  - pose proof (by_uuid_snap s l Hl) as Hs. split_and!; [done| |].
    + eapply distinct_sub; [apply filter_sublist|by apply snap_values].
    + eapply distinct_sub; [apply filter_sublist|by apply snap_values].
Qed.

(** ** Copies, rows *)

Lemma copy_fits s a : core_ok s -> (exists r, a = obj s r) -> forall r, fits class_by_name s (copy_alert a r).
Proof.
  intros Hc [r0 ->] r u Hu. simpl in Hu. split.
  - destruct (k_complete _ _ Hc r0) as []; [by eexists|]. by constructor.
  - left. by exists r0.
Qed.

Lemma deepcopy_ok s s' l v :
  core_ok s -> listed s l -> deepcopy l s = (s', v) ->
  core_ok s' /\ grows s s' /\ same_lists s s' /\ listed s' v
  /\ (forall r, r < next_ref s -> obj s' r = obj s r).
Proof.
  intros Hc Hl Ed. unfold deepcopy in Ed.
  assert (Forall (fun a => forall r, fits class_by_name s (a r)) (map (fun r => copy_alert (obj s r)) l)) as Hfit.
  { apply Forall_fmap, Forall_forall. intros r Hr r'. apply (copy_fits s (obj s r) Hc). by exists r. }
  destruct (alloc_all_ok _ _ _ _ _ Hc Hfit Ed) as (Hc1 & Hg1 & Hs1 & -> & Hn1 & Hold & Hnew).
  rewrite length_map. split_and!; [done..| |done].
  assert (forall i r, l !! i = Some r -> obj s' (next_ref s + i) = copy_alert (obj s r) (next_ref s + i)) as Hobj.
  { intros i r Hi. apply (Hnew i). change (map ?f ?l) with (f <$> l). by rewrite list_lookup_fmap, Hi. }
  assert (forall r', r' ∈ seq (next_ref s) (length l) -> exists i r, r' = next_ref s + i /\ l !! i = Some r) as Hseq.
  { intros r' Hr%elem_of_seq. destruct (lookup_lt_is_Some_2 l (r' - next_ref s)) as [r Hi]; [lia|].
    exists (r' - next_ref s), r. split; [lia|done]. }
  split.
  - replace (map (fun r => identity (obj s' r)) (seq (next_ref s) (length l))) with (map (fun r => identity (obj s r)) l); [apply Hl|].
    apply list_eq. intros i. change (map ?f ?l) with (f <$> l). rewrite !list_lookup_fmap.
    destruct (l !! i) as [r|] eqn:Hi; simpl.
    + pose proof (lookup_lt_Some _ _ _ Hi). rewrite lookup_seq_lt by lia. simpl. by rewrite (Hobj i r Hi).
    + apply lookup_ge_None in Hi. by rewrite lookup_seq_ge by lia.
  - apply Forall_forall. intros r' (i & r & -> & Hi)%Hseq. rewrite (Hobj i r Hi). simpl.
    destruct Hl as [_ Hl]. rewrite Forall_forall in Hl. apply Hl. by eapply list_elem_of_lookup_2.
Qed.

Lemma flush_ok e s : core_ok s -> listed s (alerts s) -> core_ok (flush_alerts e s) /\ grows s (flush_alerts e s).
Proof.
  intros Hc Hl. unfold flush_alerts. destruct (_ && _); [done|]. split; [|by constructor].
  assert (forall u i, ident (set_rows (map (fun r => to_row (obj s r)) (alerts s)) s) u i -> ident s u i) as Hi.
  { intros u i [Hr|(x & Hx & Hu & Hi)]; [by left|]. simpl in Hx. apply list_elem_of_fmap in Hx as (r & -> & Hr). left. by exists r. }
  constructor.
  - intros u i j H1%Hi H2%Hi. by apply (k_fun _ _ Hc u).
  - intros u i H1%Hi. by apply (k_bound _ _ Hc u i).
  - apply (k_complete _ _ Hc).
  - apply (k_fresh _ _ Hc).
  - simpl. apply Forall_fmap, Forall_forall. intros r Hr. destruct Hl as [_ Hl]. rewrite Forall_forall in Hl.
    destruct (k_complete _ _ Hc r (Hl r Hr)) as []. constructor; simpl; try done. by apply Hl.
  - simpl. rewrite List.map_map. apply Hl.
  - apply Hc.
Qed.

(** ** Loading the table *)

Notation known_class := (known_class alert_sources class_by_name).
Notation load_rows := (load_rows alert_sources class_by_name).

(** The rows that become alerts. *)
Fixpoint accepted (l : list AlertRow) (seen : list (option uuid_t)) : list AlertRow :=
  match l with
  | [] => []
  | x :: l => match known_class x with
              | None => accepted l seen
              | Some _ => if bool_decide (row_uuid x ∈ seen) then accepted l seen
                          else x :: accepted l (row_uuid x :: seen)
              end
  end.

Lemma accepted_sub l : forall seen, accepted l seen `sublist_of` l.
Proof.
  induction l as [|x l IH]; intros seen; simpl; [done|]. destruct (known_class x); [case_bool_decide|]; by constructor.
Qed.

(** When every row is known and the uuids are distinct, all rows are accepted. *)
Lemma accepted_all l : forall seen,
  Forall (fun x => is_Some (known_class x)) l -> NoDup (map row_uuid l) -> (forall x, x ∈ l -> row_uuid x ∉ seen) ->
  accepted l seen = l.
Proof.
  induction l as [|x l IH]; intros seen Hk Hnd Hs; simpl; [done|].
  apply Forall_cons in Hk as [[c Hc] Hk]. simpl in Hnd. apply NoDup_cons in Hnd as [Hx Hnd]. rewrite Hc.
  rewrite bool_decide_false by (apply Hs; by left). f_equal. apply IH; [done..|].
  intros y Hy [E|Hin]%elem_of_cons.
  - apply Hx. rewrite <-E. apply list_elem_of_fmap. by exists y.
  - by apply (Hs y); [right|].
Qed.

Lemma group_values (n : string) (r : nat) (g : list (string * list nat)) :
  concat (Dict.values (Dict.set n (default [] (Dict.get n g) ++ [r]) g)) ≡ₚ concat (Dict.values g) ++ [r].
Proof.
  unfold Dict.values. induction g as [|[k v] g IH]; simpl; [done|]. case_decide; simpl.
  - rewrite <-!app_assoc. by rewrite (Permutation_app_comm [r]).
  - rewrite IH. by rewrite <-app_assoc.
Qed.

Lemma known_class_name x c : registry_ok class_by_name -> known_class x = Some c ->
  registered c /\ name (config c) = row_klass x.
Proof.
  intros [Hn _] E. assert (Dict.get (row_klass x) class_by_name = Some c) as Hg.
  { unfold Alerts.known_class in E. destruct (match row_source x with Some (String _ _) => _ | _ => _ end); done. }
  destruct (Hn _ _ Hg) as [E1 E2]. split; [split; [by rewrite E1|done]|done].
Qed.

Lemma from_row_fits x c s r :
  registry_ok class_by_name -> core_ok s -> x ∈ rows s -> known_class x = Some c -> fits class_by_name s (from_row x c r).
Proof.
  intros Hreg Hc Hx Hk u Hu. destruct (known_class_name x c Hreg Hk) as [Hr Hn].
  pose proof (k_rows _ _ Hc) as Hrows. rewrite Forall_forall in Hrows. destruct (Hrows x Hx). split.
  - constructor; simpl; try done.
    + destruct rc_last as [us ->]. eauto.
    + by destruct (row_text x).
  - right. exists x. split_and!; [done|done|]. unfold row_identity, identity. simpl. unfold inst_name. simpl. by rewrite Hn.
Qed.

(** A row and the alert made of it. *)
Definition loaded (s : st) (x : AlertRow) (r : nat) : Prop := exists c, known_class x = Some c /\ obj s r = from_row x c r.

Lemma load_rows_ok l : forall seen g s s' g',
  registry_ok class_by_name -> core_ok s -> l ⊆ rows s -> load_rows l seen g s = (s', g') ->
  core_ok s' /\ grows s s' /\ same_lists s s' /\ next_uuid s' = next_uuid s
  /\ (forall r, r < next_ref s -> obj s' r = obj s r)
  /\ exists news, concat (Dict.values g') ≡ₚ concat (Dict.values g) ++ news /\ Forall2 (loaded s') (accepted l seen) news.
Proof.
  induction l as [|x l IH]; intros seen g s s' g' Hreg Hc Hsub E; simpl in E.
  { injection E as <- <-. split_and!; [done..|]. exists []. rewrite app_nil_r. by split. }
  simpl. destruct (known_class x) as [c|] eqn:Hk; [|apply (IH seen g s); [done..|intros y Hy; apply Hsub; by right|done]].
  destruct (alloc (from_row x c) s) as [s1 r] eqn:Ea.
  destruct (alloc_ok _ _ s s1 r Hc (from_row_fits x c s _ Hreg Hc (Hsub x ltac:(by left)) Hk) Ea)
    as (Hc1 & Hg1 & -> & Hn1 & Ho1).
  pose proof (alloc_frame _ _ _ _ Ea) as Ef.
  assert (same_lists s s1) as Hs1 by (by rewrite Ef).
  assert (rows s1 = rows s) as Er by (by rewrite Ef).
  assert (next_uuid s1 = next_uuid s) as Eu by (by rewrite Ef).
  assert (forall r, r < next_ref s -> obj s1 r = obj s r) as Hold1.
  { intros r Hr. rewrite Ef. unfold obj. simpl. by rewrite lookup_total_insert_ne by lia. }
  assert (l ⊆ rows s1) as Hsub1 by (rewrite Er; intros y Hy; apply Hsub; by right).
  rewrite <-Ef in E. case_bool_decide as Hseen.
  - destruct (IH _ _ _ _ _ Hreg Hc1 Hsub1 E) as (Hc2 & Hg2 & Hs2 & Eu2 & Hold2 & Hnews).
    split_and!; [done|by etrans|by etrans|congruence| |done].
    intros r Hr. rewrite Hold2 by lia. auto.
  - destruct (IH _ _ _ _ _ Hreg Hc1 Hsub1 E) as (Hc2 & Hg2 & Hs2 & Eu2 & Hold2 & news & Hperm & Hl).
    split_and!; [done|by etrans|by etrans|congruence| |].
    + intros r Hr. rewrite Hold2 by lia. auto.
    + exists (next_ref s :: news). split.
      * rewrite Hperm, group_values. rewrite <-app_assoc. done.
      * constructor; [|done]. exists c. split; [done|]. rewrite Hold2 by lia. done.
Qed.

Lemma loaded_listed s l news :
  registry_ok class_by_name -> Forall row_complete l -> NoDup (map row_identity l) -> Forall2 (loaded s) l news -> listed s news.
Proof.
  intros Hreg Hrc Hnd Hl.
  assert (Forall2 (fun x r => identity (obj s r) = row_identity x /\ is_Some (uuid (obj s r))) l news) as Hl2.
  { induction Hl as [|x r l news (c & Hk & E) _ IH]; [constructor|]. apply Forall_cons in Hrc as [[] Hrc].
    simpl in Hnd. apply NoDup_cons in Hnd as [_ Hnd]. constructor; [|auto]. rewrite E. split; [|done].
    destruct (known_class_name x c Hreg Hk) as [_ Hn]. unfold row_identity, identity. simpl. unfold inst_name. simpl. by rewrite Hn. }
  split.
  - replace (map (fun r => identity (obj s r)) news) with (map row_identity l); [done|].
    clear -Hl2. induction Hl2 as [|x r l news [E _] _ IH]; simpl; [done|]. by rewrite E, IH.
  - clear -Hl2. induction Hl2 as [|x r l news [_ E] _ IH]; by constructor.
Qed.

(** The stored alerts a restart keeps: all but those of one-shot classes whose
    [load] method finds them no longer applicable. *)
Definition survives (e : Env) (a : Alert) : bool :=
  negb (is_oneshot (inst_class (instance a))) || applicable e (to_row a).

Definition kept (e : Env) (s : st) (r : nat) : bool := survives e (obj s r).

Lemma load_group_sub e s l : load_group e s l `sublist_of` l.
Proof. destruct l as [|r l]; [done|]. unfold load_group. destruct (is_oneshot _); [apply filter_sublist|done]. Qed.

Lemma load_groups_sub e s g : concat (map (load_group e s) g) `sublist_of` concat g.
Proof. induction g as [|l g IH]; simpl; [done|]. apply sublist_app; [apply load_group_sub|done]. Qed.

(** The alerts of a group are of the class the group is filed under. *)
Definition groups_ok (s : st) (g : list (string * list nat)) : Prop :=
  Forall (fun '(n, l) => Forall (fun r => r < next_ref s
            /\ Dict.get n class_by_name = Some (inst_class (instance (obj s r)))) l) g.

Lemma groups_ok_set s g n l :
  groups_ok s g -> Forall (fun r => r < next_ref s /\ Dict.get n class_by_name = Some (inst_class (instance (obj s r)))) l ->
  groups_ok s (Dict.set n l g).
Proof.
  intros Hg Hl. induction Hg as [|[k v] g Hv Hg IH]; simpl; [by repeat constructor|].
  case_decide as E; [subst|]; by constructor.
Qed.

Lemma load_rows_groups l : forall seen g s s' g',
  registry_ok class_by_name -> groups_ok s g -> load_rows l seen g s = (s', g') -> groups_ok s' g'.
Proof.
  induction l as [|x l IH]; intros seen g s s' g' Hreg Hg E; simpl in E; [by injection E as <- <-|].
  destruct (known_class x) as [c|] eqn:Hk; [|by eapply IH].
  set (s1 := (alloc (from_row x c) s).1) in E.
  assert (groups_ok s1 g) as Hg1.
  { eapply Forall_impl; [exact Hg|]. intros [n rs] Hn. eapply Forall_impl; [exact Hn|]. intros r [Hr Hc]. simpl.
    split; [lia|]. rewrite Hc. unfold obj. simpl. by rewrite lookup_total_insert_ne by lia. }
  simpl in E. fold s1 in E. case_bool_decide; [by eapply IH|]. eapply IH; [done| |exact E].
  destruct (known_class_name x c Hreg Hk) as [[Hr _] Hn].
  assert (obj s1 (next_ref s) = from_row x c (next_ref s)) as Ho by (unfold obj; simpl; by rewrite lookup_total_insert_eq).
  change (set_next_ref (S (next_ref s)) _) with s1. rewrite Ho. unfold inst_name. simpl. apply groups_ok_set; [done|]. apply Forall_app. split.
  - destruct (Dict.get (name (config c)) g) as [rs|] eqn:Eg; simpl; [|done].
    apply Dict.get_Some_elem in Eg. unfold groups_ok in Hg1. rewrite Forall_forall in Hg1. by apply (Hg1 _ Eg).
  - apply Forall_singleton. split; [simpl; lia|]. rewrite Ho. exact Hr.
Qed.

Lemma load_groups_kept e s g : groups_ok s g ->
  concat (map (load_group e s) (Dict.values g)) = List.filter (kept e s) (concat (Dict.values g)).
Proof.
  intros Hg. unfold Dict.values. induction Hg as [|[n l] g Hl _ IH]; simpl; [done|]. rewrite List.filter_app. f_equal; [|done].
  destruct l as [|r l]; [done|]. apply Forall_cons in Hl as Hl'. destruct Hl' as [[_ Hr] _]. unfold load_group.
  destruct (is_oneshot (inst_class (instance (obj s r)))) eqn:Eo; generalize dependent (r :: l); intros rs Hl.
  all: induction Hl as [|q rs [_ Hq] _ IHl]; [done|]; simpl.
  all: assert (inst_class (instance (obj s q)) = inst_class (instance (obj s r))) as Eq by congruence.
  all: unfold kept at 1, survives; rewrite Eq, Eo; simpl; by rewrite <-IHl.
Qed.

Lemma initialize_inv e load s :
  registry_ok class_by_name -> inv s -> inv (initialize alert_sources class_by_name e load s).
Proof.
  intros Hreg Hi. unfold initialize.
  set (s1 := set_this_node_name _ s). set (s2 := set_alerts [] s1).
  assert (core_ok s2) as Hc2.
  { destruct (i_core _ Hi) as [H1 H2 H3 H4 H5 H6 H7]. constructor; try done. unfold s2, s1. simpl.
    destruct (_ && _); [by right|by left]. }
  assert (grows s s2) as Hg2 by (by constructor).
  set (s3 := if load then _ else _).
  assert (core_ok s3 /\ quiet s s3 /\ pc s3 = pc s /\ listed s3 (alerts s3)) as (Hc3 & Hq3 & Ep3 & Hl3).
  { unfold s3. destruct load.
    - destruct (load_rows (rows s2) [] [] s2) as [s4 g] eqn:El.
      destruct (load_rows_ok _ _ _ _ _ _ Hreg Hc2 ltac:(done) El) as (Hc4 & Hg4 & Hs4 & _ & Hold4 & news & Hperm & Hl).
      split_and!; [by eapply (core_ok_eq _ s4)| | |].
      + split; [do 2 (etrans; [eassumption|]); by apply grows_eq|]. intros r Hr _. by apply Hold4.
      + simpl. symmetry. apply Hs4.
      + apply (listed_eq s4); [done|]. simpl in Hperm |- *. eapply listed_sub; [|apply load_groups_sub].
        eapply listed_Permutation; [symmetry; exact Hperm|].
        eapply loaded_listed; [done| | |exact Hl].
        * apply Forall_forall. intros x Hx. pose proof (k_rows _ _ Hc2) as Hr. rewrite Forall_forall in Hr.
          apply Hr. eapply elem_of_sublist; [exact Hx|apply accepted_sub].
        * eapply sublist_NoDup; [apply (k_rows_nodup _ _ Hc2)|]. apply fmap_sublist, accepted_sub.
    - assert (listed s2 (alerts s2)) as Hl2 by (split; constructor).
      destruct (flush_ok e s2 Hc2 Hl2) as [Hc4 Hg4]. unfold flush_alerts in *.
      destruct (failover_licensed e && _); (split; [done|split; [split; [by etrans|done]|split; [done|split; constructor]]]). }
  clearbody s3. set (s4 := set_alert_source_last_run [] s3).
  eapply inv_quiet; [exact Hi| | |done| |].
  - by eapply (core_ok_eq _ s3).
  - destruct Hq3 as [Hg3 Hq3]. split; [etrans; [exact Hg3|]; by apply grows_eq|done].
  - exact Hl3.
  - unfold pols_ok. change (policies (set_policies ?p s4)) with p. apply Forall_fmap, Forall_forall.
    intros np Hnp. simpl. apply (snap_ok_grows s3); [by apply grows_eq|].
    destruct (receive_alerts (heap s3) (now e) (alerts s3) np.2) as [[p gone] new] eqn:Er.
    eapply (receive_ok s3); [by apply listed_distinct| |exact Er].
    assert (last_key_value_alerts np.2 = []) as ->; [|split; constructor].
    unfold initial_policies in Hnp. repeat (apply elem_of_cons in Hnp as [->|Hnp]; [done|]). by apply elem_of_nil in Hnp.
Qed.

(** ** One-shot alerts *)

(** The deletions leave the objects alone and shorten the list. *)
Definition shorter (s s' : st) : Prop := exists l, s' = set_alerts l s /\ l `sublist_of` alerts s.

Lemma shorter_refl s : shorter s s.
Proof. exists (alerts s). split; [by destruct s|done]. Qed.

Lemma shorter_trans s1 s2 s3 : shorter s1 s2 -> shorter s2 s3 -> shorter s1 s3.
Proof. intros (l & -> & H) (l' & -> & H'). exists l'. split; [done|]. simpl in H'. by etrans. Qed.

Lemma delete_unless_shorter left_alerts l : forall d s, shorter s (delete_unless left_alerts l d s).1.
Proof.
  induction l as [|r l IH]; intros d s; simpl; [apply shorter_refl|]. destruct (isin _ _ _); [apply IH|].
  destruct (remove s r (alerts s)) as [l'|] eqn:E; [|apply shorter_refl].
  eapply shorter_trans; [|apply IH]. exists l'. split; [done|by eapply remove_sub].
Qed.

Lemma delete_klasses_shorter ks q : forall d s, shorter s (delete_klasses class_by_name ks q d s).1.
Proof.
  induction ks as [|k ks IH]; intros d s; simpl; [apply shorter_refl|].
  destruct (Dict.get k class_by_name) as [c|]; [|apply shorter_refl].
  destruct (is_oneshot c); [|apply shorter_refl]. destruct (oneshot_left _ _ _ _) as [lft|]; [|apply shorter_refl].
  unfold mbind, ste_mbind. pose proof (delete_unless_shorter lft (bisect (related (Some (this_node_name s)) (name (config c)) s) (alerts s)).1 d s) as H.
  destruct (delete_unless _ _ _ _) as [s1 [d1|x]]; [|done]. eapply shorter_trans; [exact H|apply IH].
Qed.

Lemma shorter_inv s s' : inv s -> shorter s s' -> inv s'.
Proof.
  intros Hi (l & -> & Hs). eapply (inv_quiet s); [done| |by apply quiet_eq|done| |apply Hi].
  - eapply core_ok_eq; [|apply Hi]. done.
  - apply (listed_eq s); [done|]. eapply listed_sub; [apply Hi|done].
Qed.

Lemma flush_inv e s : inv s -> inv (flush_alerts e s).
Proof.
  intros Hi. destruct (flush_ok e s (i_core _ Hi) (i_alerts _ Hi)) as [Hc Hg]. unfold flush_alerts in *.
  destruct (_ && _); [done|]. eapply (inv_quiet s); [done|done|by split|done| |]; apply Hi.
Qed.

Lemma oneshot_delete_inv e ks q s : inv s -> inv (oneshot_delete class_by_name e ks q s).1.
Proof.
  intros Hi. unfold oneshot_delete, mbind, ste_mbind.
  pose proof (delete_klasses_shorter ks q false s) as H. destruct (delete_klasses _ _ _ _ _) as [s1 [[]|x]]; simpl in *;
    [apply flush_inv|..]; by eapply shorter_inv.
Qed.

Context (utcoffset : Z -> Z) (EALERTCHECKERUNAVAILABLE : Z).

Notation run_source := (run_source alert_sources EALERTCHECKERUNAVAILABLE).
Notation exec := (exec alert_sources class_by_name service_types utcoffset EALERTCHECKERUNAVAILABLE repr_instance).

(** ** The reply of the other controller *)

(** What the code on the other controller guarantees of its reply. *)
Definition peer_reply (n : string) (ds : list alert_dict) : Prop :=
  NoDup (map ad_key ds) /\ Forall (fun d => ad_source d = Some n) ds.

Lemma run_source_peer n t res s s' ds : run_source n t res s = (s', Ok ds) -> peer_reply n ds.
Proof.
  unfold Alerts.run_source. case_bool_decide; [|done]. rewrite run_source_eq.
  destruct (constructed n res) as [l|]; [|done].
  destruct (alloc_all (map construct l) (noted n t res s)) as [s1 rs]. intros [= <- <-].
  set (us := unique_by_key s1 [] rs).
  assert (forall r, r ∈ us -> obj (set_sources_of n us s1) r = set_source n (obj s1 r)) as Hobj.
  { intros r Hr. rewrite set_sources_of_obj. by rewrite decide_True. }
  split.
  - rewrite List.map_map. erewrite List.map_ext_in; [apply (proj1 (unique_by_key_NoDup s1 rs []))|].
    intros r Hr%list_elem_of_In. simpl. fold us in Hr |- *. by rewrite Hobj.
  - apply Forall_fmap, Forall_forall. intros r Hr. simpl. by rewrite Hobj.
Qed.

Lemma mapE_Forall2 {E A B} (f : A -> result E B) (l : list A) k : mapE f l = Ok k -> Forall2 (fun a b => f a = Ok b) l k.
Proof.
  revert k. induction l as [|a l IH]; intros k; simpl; [intros [= <-]; constructor|].
  destruct (f a) as [b|] eqn:Ef; [|done]. simpl. destruct (mapE f l) as [k'|]; [|done]. simpl. intros [= <-].
  constructor; auto.
Qed.

Lemma failed_on_backup_made n tb r : registry_ok class_by_name ->
  uuid (failed_on_backup n tb r) = None /\ source (failed_on_backup n tb r) = Some n
  /\ registered (inst_class (instance (failed_on_backup n tb r))) /\ text (failed_on_backup n tb r) ≠ "".
Proof. intros [_ Hf]. split_and!; [done|done|apply (Hf true)|by apply init_text]. Qed.

(** The alerts made for the reply. *)
Definition replied (n : string) (reply : result (exn * string) (list alert_dict)) (l : list (nat -> Alert)) : Prop :=
  forall s, run_other_node_alert_source class_by_name EALERTCHECKERUNAVAILABLE n reply s = alloc_all l s.

Definition makes (n : string) (k : string) (f : nat -> Alert) : Prop :=
  forall r, uuid (f r) = None /\ source (f r) = Some n /\ registered (inst_class (instance (f r))) /\ text (f r) ≠ ""
    /\ key (f r) = k.

Lemma failed_makes n tb : registry_ok class_by_name -> exists k, makes n k (failed_on_backup n tb).
Proof.
  intros Hreg. exists (key (failed_on_backup n tb 0)). intros r.
  destruct (failed_on_backup_made n tb r Hreg) as (? & ? & ? & ?). by split_and!.
Qed.

Lemma replied_ok n reply :
  registry_ok class_by_name -> (forall ds, reply = Ok ds -> peer_reply n ds) ->
  exists l ks, replied n reply l /\ Forall2 (fun f k => makes n k f) l ks /\ NoDup ks.
Proof.
  intros Hreg Hp.
  assert (forall tb, exists l ks, (forall s, alloc_all [failed_on_backup n tb] s = alloc_all l s)
            /\ Forall2 (fun f k => makes n k f) l ks /\ NoDup ks) as Hfail.
  { intros tb. destruct (failed_makes n tb Hreg) as [k Hk]. exists [failed_on_backup n tb], [k].
    split_and!; [done|by apply Forall2_cons|apply NoDup_singleton]. }
  assert (exists l ks, (forall s : st, (s, []) = alloc_all l s) /\ Forall2 (fun f k => makes n k f) l ks /\ NoDup ks) as Hnone.
  { exists [], []. split_and!; [done|constructor|constructor]. }
  unfold replied, run_other_node_alert_source. destruct reply as [ds|[x tb]].
  - destruct (Hp ds eq_refl) as [Hnd Hsrc]. destruct (mapE _ ds) as [l|tb] eqn:E; [|apply Hfail].
    exists l, (map ad_key ds). split_and!; [done| |done]. apply mapE_Forall2 in E. clear Hp Hnd.
    induction E as [|d f ds l Hd _ IH]; [constructor|]. apply Forall_cons in Hsrc as [Hs Hsrc].
    constructor; [|by apply IH]. destruct (Dict.get (ad_klass d) class_by_name) as [c|] eqn:Ec; [|done].
    injection Hd as <-. destruct Hreg as [Hname _]. destruct (Hname _ _ Ec) as [Hn Ht].
    intros r. split_and!; [done|done|split; [by rewrite <-Hn in Ec|done]|by apply init_text|done].
  - destruct x as [cls msg no ex|v|vs|cmd rc so se|cls str]; try apply Hfail.
    + case_bool_decide; [apply Hnone|apply Hfail].
    + destruct (String.eqb cls "ReserveFDException"); [apply Hnone|apply Hfail].
Qed.

Lemma run_other_ok n reply s s' l :
  registry_ok class_by_name -> (forall ds, reply = Ok ds -> peer_reply n ds) -> core_ok s ->
  run_other_node_alert_source class_by_name EALERTCHECKERUNAVAILABLE n reply s = (s', l) ->
  core_ok s' /\ grows s s' /\ same_lists s s' /\ (forall r, r < next_ref s -> obj s' r = obj s r)
  /\ checked s' n l /\ Forall (fun r => next_ref s <= r) l.
Proof.
  intros Hreg Hp Hc. destruct (replied_ok n reply Hreg Hp) as (fs & ks & Hrep & Hfs & Hnd). rewrite Hrep. intros Ea.
  assert (Forall (fun a => forall r, fits class_by_name s (a r)) fs) as Hfit.
  { apply Forall_forall. intros f Hf r u Hu. apply list_elem_of_lookup in Hf as [i Hi].
    destruct (Forall2_lookup_l _ _ _ _ _ Hfs Hi) as (k & _ & Hk). destruct (Hk r). congruence. }
  destruct (alloc_all_ok _ _ _ _ _ Hc Hfit Ea) as (Hc1 & Hg1 & Hs1 & -> & Hn1 & Hold & Hnew).
  assert (forall i k, ks !! i = Some k -> i < length fs /\ exists f, makes n k f /\ obj s' (next_ref s + i) = f (next_ref s + i)) as Hobj.
  { intros i k Hk. destruct (Forall2_lookup_r _ _ _ _ _ Hfs Hk) as (f & Hf & Hm).
    split; [by eapply lookup_lt_Some|]. exists f. split; [done|auto]. }
  pose proof (Forall2_length _ _ _ Hfs) as Hlen.
  assert (forall r, r ∈ seq (next_ref s) (length fs) -> exists i k, r = next_ref s + i /\ ks !! i = Some k) as Hseq.
  { intros r Hr%elem_of_seq. destruct (lookup_lt_is_Some_2 ks (r - next_ref s)) as [k Hk]; [lia|].
    exists (r - next_ref s), k. split; [lia|done]. }
  split_and!; [done..| |].
  - constructor.
    + apply NoDup_seq.
    + apply Forall_forall. intros r (i & k & -> & Hk)%Hseq. destruct (Hobj i k Hk) as (Hlt & f & Hm & E).
      destruct (Hm (next_ref s + i)) as (M1 & M2 & M3 & M4 & M5). constructor; rewrite ?E; try done; first [lia|by rewrite M2].
    + apply Forall_forall. intros r (i & k & -> & Hk)%Hseq. destruct (Hobj i k Hk) as (_ & f & Hm & E). rewrite E. apply Hm.
    + replace (map (fun r => key (obj s' r)) (seq (next_ref s) (length fs))) with ks; [done|].
      apply list_eq. intros i. change (map ?f ?l) with (f <$> l). rewrite list_lookup_fmap.
      destruct (ks !! i) as [k|] eqn:Hk.
      * destruct (Hobj i k Hk) as (Hlt & f & Hm & E). rewrite lookup_seq_lt by lia. simpl. f_equal. rewrite E. symmetry. apply Hm.
      * apply lookup_ge_None in Hk. rewrite lookup_seq_ge by lia. done.
  - apply Forall_forall. intros r Hr%elem_of_seq. lia.
Qed.

(** ** The jobs *)

(** A step that only moves the job on. *)
Lemma inv_set_pc s p : inv s -> pc_ok (set_pc p s) -> inv (set_pc p s).
Proof. intros Hi Hp. apply (inv_same s); [done|done|apply Hi|done|done]. Qed.

Lemma get_failover_info_ok e rem s : fi_ok (get_failover_info e rem s).
Proof.
  unfold get_failover_info. destruct (failover_licensed e); [|split; [by left|by right|done]].
  destruct (String.eqb (failover_node e) "A"); (split; [by left + by right..|done]).
Qed.

Lemma unblock_source_frame k s : let s' := (unblock_source k s).1 in
  core s = core s' /\ alerts s = alerts s' /\ policies s = policies s' /\ pc s = pc s' /\ log s = log s'.
Proof. unfold unblock_source. destruct (Dict.get k (sources_locks s)); [|done]. by case_bool_decide. Qed.

Lemma unblock_expired_frame e l : forall s, let s' := (unblock_expired e l s).1 in
  core s = core s' /\ alerts s = alerts s' /\ policies s = policies s' /\ pc s = pc s' /\ log s = log s'.
Proof.
  induction l as [|[k lk] l IH]; intros s; simpl; [done|]. unfold mbind, ste_mbind.
  destruct (expires_at lk <=? monotonic e)%Z; simpl.
  - pose proof (unblock_source_frame k s) as H. destruct (unblock_source k s) as [s1 [[]|x]]; simpl in *; [|done].
    specialize (IH s1). simpl in IH. destruct H as (-> & -> & -> & -> & ->). done.
  - apply IH.
Qed.

Lemma unexpired_sub e s l : forall l', unexpired e s l = Ok l' -> l' `sublist_of` l.
Proof.
  induction l as [|r l IH]; simpl; [by intros l' [= <-]|]. intros l'.
  destruct (should_expire_alert e (obj s r)) as [b|]; [|done]. destruct (unexpired e s l) as [k|]; [|done].
  intros [= <-]. specialize (IH k eq_refl). destruct b; by constructor.
Qed.

(** The environment behaves as documented: the classes of the alerts that checks
    and callers make are registered, and the other controller runs this code. *)
Definition admissible (l : label) (s : st) : Prop :=
  match l with
  | LChecked _ _ res | LRunSource _ _ res => res_ok res
  | LReplied _ (Ok ds) =>
      match pc s with
      | Some (PRemote _ _ _ src _ _) => exists t res s0 s1, run_source (src_name src) t res s0 = (s1, Ok ds)
      | _ => True
      end
  | LCreate _ c _ => registered c
  | _ => True
  end.

(** The job takes the result of a merge. *)
Lemma merged_inv s s' p :
  inv s -> core_ok s' -> grows s s' -> listed s' (alerts s') -> same_rest s s' -> pc_ok (set_pc p s') -> inv (set_pc p s').
Proof.
  intros Hi Hc Hg Hl Hs Hp. constructor; [by eapply (core_ok_eq _ s')|done|done|].
  apply (pols_ok_grows s'); [by apply grows_eq|done|]. eapply pols_ok_grows; [done|apply Hs|apply Hi].
Qed.

Lemma fresh_disjoint s this other :
  Forall (made class_by_name s) this -> Forall (fun r => next_ref s <= r) other -> this ## other.
Proof.
  rewrite !Forall_forall. intros H1 H2 r Hr Hr'. destruct (H1 r Hr). specialize (H2 r Hr'). lia.
Qed.

Lemma carried_trans s1 s2 s3 : grows s1 s2 -> carried s1 s2 -> carried s2 s3 -> carried s1 s3.
Proof.
  intros [Hle _ _] H1 H2 r Hr. destruct (H2 r Hr) as (u & Hu & [Hge|(r2 & Hr2 & Hu2 & Hd & Hdis)]).
  - exists u. split; [done|left; lia].
  - destruct (H1 r2 Hr2) as (u' & Hu' & H). rewrite Hu2 in Hu'. injection Hu' as <-. exists u. split; [done|].
    destruct H as [?|(r1 & ? & ? & ? & ?)]; [by left|right]. exists r1. split_and!; [done..| |]; congruence.
Qed.

Lemma carried_same s s' :
  listed s (alerts s) -> alerts s' = alerts s -> (forall r, r ∈ alerts s -> obj s' r = obj s r) -> carried s s'.
Proof.
  intros [_ Hl] Ea Ho r Hr. rewrite Ea in Hr. rewrite (Ho r Hr). rewrite Forall_forall in Hl.
  destruct (Hl r Hr) as [u Hu]. eauto 10.
Qed.

Lemma listed_ref s l r : core_ok s -> listed s l -> r ∈ l -> r < next_ref s.
Proof.
  intros Hc [_ Hl] Hr. rewrite Forall_forall in Hl. destruct (decide (r < next_ref s)) as [|Hn]; [done|].
  destruct (Hl r Hr) as [u Hu]. rewrite (k_fresh _ _ Hc) in Hu by lia. done.
Qed.

Lemma source_next_inv e s s' :
  inv s -> source_next utcoffset e s = Some s' -> inv s' /\ grows s s' /\ carried s s'.
Proof.
  intros Hi. unfold source_next. destruct (pc s) as [[|v pt fi [|src todo]| | | | |]|] eqn:Epc; try done.
  pose proof (i_pc _ Hi) as Hpc. unfold pc_ok in Hpc. rewrite Epc in Hpc. destruct Hpc as [Hv Hf].
  assert (carried s s) as Hcar by (apply carried_same; [apply Hi|done|done]).
  destruct (due utcoffset e pt fi src s).
  2: { intros [= <-]. split_and!; [|by apply grows_eq|done]. apply inv_set_pc; [done|]. by split. }
  set (s1 := set_alert_source_last_run _ s).
  assert (inv s1) as Hi1 by (by apply (alert_inv_frame s)).
  destruct (handle_locked_alert_source (src_name src) fi s1) as [[this other]|] eqn:El; intros [= <-].
  - destruct (merge_blocked_ok e fi _ _ _ _ (i_core _ Hi1) (i_alerts _ Hi1) Hf El) as (H1 & H2 & H3 & H4 & H5 & _).
    split_and!; [|etrans; [by apply (grows_eq s s1)|]; etrans; [exact H2|]; by apply grows_eq|exact H4].
    eapply merged_inv; [exact Hi1|done..|]. split; [|done]. apply (listed_grows s1); [|done]. etrans; [exact H2|]. by apply grows_eq.
  - split_and!; [|by apply grows_eq|done]. apply inv_set_pc; [by apply emit_inv|]. by split.
Qed.

Lemma check_done_inv e t res s s' :
  registry_ok class_by_name -> inv s -> res_ok res -> check_done e t res s = Some s' -> inv s' /\ grows s s' /\ carried s s'.
Proof.
  intros Hreg Hi Hres. unfold check_done. destruct (pc s) as [[| |v pt fi src todo| | | |]|] eqn:Epc; try done.
  pose proof (i_pc _ Hi) as Hpc. unfold pc_ok in Hpc. rewrite Epc in Hpc. destruct Hpc as [Hv Hf].
  destruct (run_source_ (src_name src) t res s) as [s1 ro] eqn:Er.
  destruct (run_source_ok _ _ _ _ _ _ Hreg (i_core _ Hi) Hres Er) as (Hc1 & Hg1 & Hs1 & Hold & Hch & Hge).
  assert (listed s1 v) as Hv1 by (by apply (listed_grows s)).
  assert (alerts s1 = alerts s) as Ea by (symmetry; apply Hs1).
  assert (listed s1 (alerts s1)) as Hl1 by (rewrite Ea; apply (listed_grows s); [done|apply Hi]).
  assert (carried s s1) as Hcar.
  { apply carried_same; [apply Hi|done|]. intros r Hr. apply Hold. eapply listed_ref; [apply Hi|apply (i_alerts _ Hi)|done]. }
  destruct (_ && _); intros [= <-].
  - split_and!; [|etrans; [exact Hg1|]; by apply grows_eq|done].
    eapply merged_inv; [exact Hi|done..|by apply same_lists_rest|].
    split_and!; [done|done|]. eapply checked_quiet; [|exact Hch]. by apply quiet_eq.
  - assert (checked s1 (src_name src) []) as Hnil by (constructor; constructor).
    destruct (merge_ok _ e fi (src_name src) (default [] ro) [] s1 Hc1 Hl1 Hf Hch Hnil) as (H1 & H2 & H3 & H4 & H5).
    { by intros r _ ?%elem_of_nil. }
    split_and!.
    + eapply merged_inv; [exact Hi|done|by etrans|done|etrans; [by apply same_lists_rest|done]|].
      split; [exact (listed_grows _ _ _ H2 Hv1)|done].
    + do 2 (etrans; [eassumption|]). by apply grows_eq.
    + by apply (carried_trans s s1).
Qed.

Lemma remote_done_inv e reply s s' :
  registry_ok class_by_name -> inv s -> admissible (LReplied e reply) s ->
  remote_done class_by_name EALERTCHECKERUNAVAILABLE e reply s = Some s' -> inv s' /\ grows s s' /\ carried s s'.
Proof.
  intros Hreg Hi Hadm. unfold remote_done. destruct (pc s) as [[| | |v pt fi src todo this| | |]|] eqn:Epc; try done.
  pose proof (i_pc _ Hi) as Hpc. unfold pc_ok in Hpc. rewrite Epc in Hpc. destruct Hpc as (Hv & Hf & Hthis).
  destruct (run_other_node_alert_source _ _ (src_name src) reply s) as [s1 other] eqn:Er. intros [= <-].
  assert (forall ds, reply = Ok ds -> peer_reply (src_name src) ds) as Hp.
  { intros ds ->. simpl in Hadm. rewrite Epc in Hadm. destruct Hadm as (t & res & s0 & s2 & Hrun). by eapply run_source_peer. }
  destruct (run_other_ok _ _ _ _ _ Hreg Hp (i_core _ Hi) Er) as (Hc1 & Hg1 & Hs1 & Hold & Hch & Hge).
  assert (alerts s1 = alerts s) as Ea by (symmetry; apply Hs1).
  assert (listed s1 (alerts s1)) as Hl1 by (rewrite Ea; apply (listed_grows s); [done|apply Hi]).
  assert (checked s1 (src_name src) this) as Hthis1.
  { eapply checked_quiet; [|exact Hthis]. split; [done|auto]. }
  assert (carried s s1) as Hcar.
  { apply carried_same; [apply Hi|done|]. intros r Hr. apply Hold. eapply listed_ref; [apply Hi|apply (i_alerts _ Hi)|done]. }
  destruct (merge_ok _ e fi (src_name src) this other s1 Hc1 Hl1 Hf Hthis1 Hch) as (H1 & H2 & H3 & H4 & H5).
  { eapply fresh_disjoint; [apply Hthis|done]. }
  split_and!.
  - eapply merged_inv; [exact Hi|done|by etrans|done|etrans; [by apply same_lists_rest|done]|].
    split; [|done]. exact (listed_grows _ _ _ H2 (listed_grows _ _ _ Hg1 Hv)).
  - do 2 (etrans; [eassumption|]). by apply grows_eq.
  - by apply (carried_trans s s1).
Qed.

Lemma carried_sub s s' :
  listed s (alerts s) -> (forall r, r ∈ alerts s' -> r ∈ alerts s) -> heap s' = heap s -> carried s s'.
Proof.
  intros [_ Hl] Hs Eh r Hr. rewrite Forall_forall in Hl. destruct (Hl r (Hs r Hr)) as [u Hu].
  unfold obj in *. rewrite Eh. eauto 10.
Qed.

Lemma process_start_inv e s s' : inv s -> process_start e s = Some s' -> inv s' /\ grows s s' /\ carried s s'.
Proof.
  intros Hi. unfold process_start. destruct (pc s) eqn:Epc; [done|].
  destruct (should_run_or_send_alerts e).
  2: { intros [= <-]. split_and!; [done|done|]. apply carried_same; [apply Hi|done|done]. }
  destruct (deepcopy (alerts s) s) as [s1 v] eqn:Ed. intros [= <-].
  destruct (deepcopy_ok _ _ _ _ (i_core _ Hi) (i_alerts _ Hi) Ed) as (Hc & Hg & Hs & Hv & Hold).
  split_and!; [|etrans; [exact Hg|]; by apply grows_eq|].
  - eapply merged_inv; [exact Hi|done|done| |by apply same_lists_rest|done].
    destruct Hs as [<- _]. eapply listed_grows; [done|apply Hi].
  - apply carried_same; [apply Hi|symmetry; apply Hs|]. intros r Hr. apply Hold.
    eapply listed_ref; [apply Hi|apply (i_alerts _ Hi)|done].
Qed.

Lemma prologue_inv e rem s s' :
  inv s -> run_prologue alert_sources e rem s = Some s' -> inv s' /\ grows s s' /\ carried s s'.
Proof.
  intros Hi. unfold run_prologue. destruct (pc s) as [[v| | | | | |]|] eqn:Epc; try done.
  pose proof (i_pc _ Hi) as Hpc. unfold pc_ok in Hpc. rewrite Epc in Hpc.
  pose proof (unblock_expired_frame e (sources_locks s) s) as Hf.
  destruct (unblock_expired e (sources_locks s) s) as [s1 r]. simpl in Hf. destruct Hf as (E1 & E2 & E3 & E4 & _).
  assert (inv s1) as Hi1 by (by apply (alert_inv_frame s)).
  assert (heap s1 = heap s) as Eh by (by injection E1).
  assert (carried s s1) as Hcar by (apply carried_sub; [apply Hi|by rewrite E2|done]).
  destruct r; intros [= <-]; (split_and!; [apply inv_set_pc; [done|]|etrans; [by apply (grows_eq s s1)|]; by apply grows_eq|done]).
  - split; [by apply (listed_eq s)|apply get_failover_info_ok].
  - done.
Qed.

Lemma run_end_inv e s s' : inv s -> run_end e s = Some s' -> inv s' /\ grows s s' /\ carried s s'.
Proof.
  intros Hi. unfold run_end, expire_alerts. destruct (pc s) as [[|v pt fi [|src todo]| | | | |]|] eqn:Epc; try done.
  pose proof (i_pc _ Hi) as Hpc. unfold pc_ok in Hpc. rewrite Epc in Hpc. destruct Hpc as [Hv _].
  destruct (unexpired e s (alerts s)) as [l|] eqn:E; intros [= <-]; (split_and!; [|by apply grows_eq|]).
  - apply unexpired_sub in E. apply (inv_same s); [done|done|eapply listed_sub; [apply Hi|done]|done|done].
  - apply unexpired_sub in E. apply carried_sub; [apply Hi| |done]. intros r Hr. by eapply elem_of_sublist.
  - by apply inv_set_pc.
  - apply carried_sub; [apply Hi|done|done].
Qed.

Lemma process_end_inv e s s' :
  inv s -> process_end e s = Some s' ->
  inv s' /\ grows s s' /\ (should_run_or_send_alerts e = true -> carried s s').
Proof.
  intros Hi. unfold process_end. destruct (pc s) as [[| | | |v| |]|] eqn:Epc; try done. intros [= <-].
  pose proof (i_pc _ Hi) as Hpc. unfold pc_ok in Hpc. rewrite Epc in Hpc.
  destruct (should_run_or_send_alerts e); (split_and!; [|by apply grows_eq|]).
  - by apply inv_set_pc.
  - intros _. apply carried_sub; [apply Hi|done|done].
  - apply (inv_same s); done.
  - done.
Qed.

Lemma send_start_inv e s s' : inv s -> send_start e s = Some s' -> inv s' /\ grows s s' /\ carried s s'.
Proof.
  intros Hi. unfold send_start. destruct (pc s) eqn:Epc; [done|]. intros [= <-].
  destruct (String.eqb _ _); (split_and!; [|by apply grows_eq|apply carried_sub; [apply Hi|done|done]]).
  - by apply inv_set_pc.
  - by apply (alert_inv_frame s).
Qed.

Lemma dict_set_Forall {V} (P : string * V -> Prop) n v (d : list (string * V)) :
  Forall P d -> P (n, v) -> Forall P (Dict.set n v d).
Proof.
  intros Hd Hv. induction d as [|[k w] d IH]; simpl; [by constructor|].
  apply Forall_cons in Hd as [Hk Hd]. case_decide; subst; constructor; auto.
Qed.

Lemma send_policy_inv e s s' : inv s -> send_policy e s = Some s' -> inv s' /\ grows s s' /\ carried s s'.
Proof.
  intros Hi. unfold send_policy. destruct (pc s) as [[| | | | |at_us pt cls [|n todo]|]|] eqn:Epc; try done.
  { intros [= <-]. split_and!; [by apply inv_set_pc|by apply grows_eq|apply carried_sub; [apply Hi|done|done]]. }
  destruct (Dict.get n (policies s)) as [p|] eqn:En; [|done].
  destruct (receive_alerts (heap s) at_us (alerts s) p) as [[p' gone] new] eqn:Er. intros [= <-].
  pose proof (i_pols _ Hi) as Hp. unfold pols_ok in Hp.
  assert (snap_ok s (last_key_value_alerts p)) as Hsp.
  { rewrite Forall_forall in Hp. apply (Hp (n, p)). by apply Dict.get_Some_elem. }
  destruct (receive_ok s at_us _ p p' gone new (listed_distinct _ _ (i_core _ Hi) (i_alerts _ Hi)) Hsp Er) as (H1 & H2 & H3).
  split_and!; [|by apply grows_eq|apply carried_sub; [apply Hi|done|done]].
  constructor; [eapply (core_ok_eq _ s); [done|apply Hi]|apply Hi|by split|].
  apply (dict_set_Forall (fun np => snap_ok _ (last_key_value_alerts np.2))); [exact Hp|exact H1].
Qed.

Lemma send_service_inv s s' : inv s -> send_service service_types s = Some s' -> inv s' /\ grows s s' /\ carried s s'.
Proof.
  intros Hi. unfold send_service. destruct (pc s) as [[| | | | | |at_us pt cls pol gone new [|svc svcs] todo]|] eqn:Epc; try done.
  pose proof (i_pc _ Hi) as Hpc. unfold pc_ok in Hpc. rewrite Epc in Hpc.
  intros [= <-]. destruct (prepare service_types s pt cls pol gone new svc);
    (split_and!; [|by apply grows_eq|apply carried_sub; [apply Hi|done|done]]).
  - by apply inv_set_pc.
  - apply inv_set_pc; [by apply emit_inv|done].
  - by apply inv_set_pc.
Qed.

(** The end of a policy writes to the log only. *)
Definition logs_only (s s' : st) : Prop := exists l, s' = set_log (log s ++ l) s.

#[global] Instance logs_only_preorder : PreOrder logs_only.
Proof.
  split; [intros s; exists []; destruct s; simpl; by rewrite app_nil_r|].
  intros s1 s2 s3 [l ->] [l' ->]. exists (l ++ l'). by rewrite app_assoc.
Qed.

Lemma emit_logs ev s : logs_only s (emit ev s).
Proof. by exists [ev]. Qed.

Lemma emit_gone_logs e l : forall s, logs_only s (foldl (emit_gone e) s l).
Proof.
  induction l as [|r l IH]; intros s; simpl; [done|]. etrans; [|apply IH]. unfold emit_gone.
  destruct (should_show_alert _ _); [apply emit_logs|done].
Qed.

Lemma emit_new_logs e l : forall s, logs_only s (emit_new e l s).1.
Proof.
  induction l as [|r l IH]; intros s; simpl; [done|]. destruct (should_show_alert _ _); [|done].
  destruct (serialize _ _); [|done]. etrans; [apply emit_logs|apply IH].
Qed.

Lemma send_mails_logs m l : forall s, logs_only s (send_mails m l s).1.
Proof.
  induction l as [|r l IH]; intros s; simpl; [done|]. destruct (truthy _); [|done].
  destruct (m _) as [|[]]; try done; [etrans; [apply emit_logs|apply IH]|]. destruct (String.eqb _ _); done.
Qed.

Lemma open_ticket_logs e b gone new s : logs_only s (open_ticket e b gone new s).
Proof. unfold open_ticket. destruct (is_enterprise e); [|done]. repeat case_match; try done; apply emit_logs. Qed.

Lemma policy_end_logs e m b s s' : send_policy_end e m b s = Some s' -> exists s1 p, s' = set_pc p s1 /\ logs_only s s1
  /\ match p with None | Some (SLoop _ _ _ _) => True | _ => False end.
Proof.
  unfold send_policy_end. destruct (pc s) as [[| | | | | |at_us pt cls pol gone new [|svc svcs] todo]|]; try done.
  destruct (String.eqb pol "IMMEDIATELY").
  2: { intros [= <-]. eexists s, _. by split_and!. }
  pose proof (emit_gone_logs e gone s) as H1. pose proof (emit_new_logs e new (foldl (emit_gone e) s gone)) as H2.
  destruct (emit_new e new (foldl (emit_gone e) s gone)) as [s1 ok]. simpl in H2.
  pose proof (send_mails_logs m new s1) as H3. destruct ok.
  - destruct (send_mails m new s1) as [s2 ok]. simpl in H3. intros [= <-].
    assert (logs_only s s2) as H by (etrans; [exact H1|]; by etrans).
    destruct ok; eexists _, _; (split; [reflexivity|]); split; try done. etrans; [exact H|]. apply open_ticket_logs.
  - intros [= <-]. eexists s1, _. split; [done|]. split; [by etrans|done].
Qed.

Lemma policy_end_inv e m b s s' : inv s -> send_policy_end e m b s = Some s' -> inv s' /\ grows s s' /\ carried s s'.
Proof.
  intros Hi (s1 & p & -> & [l ->] & Hp)%policy_end_logs.
  split_and!; [|by apply grows_eq|apply carried_sub; [apply Hi|done|done]].
  apply (inv_same s); [done|done|apply Hi|done|]. unfold pc_ok. simpl. by destruct p as [[]|].
Qed.
Lemma oneshot_create_inv e c a s :
  inv s -> pc s = None -> registered c ->
  let s' := (oneshot_create repr_instance e c a s).1 in inv s' /\ grows s s' /\ carried s s'.
Proof.
  intros Hi Hpc Hreg. unfold oneshot_create. destruct (is_oneshot c).
  2: { split_and!; [done|done|]. apply carried_sub; [apply Hi|done|done]. }
  set (mk := fun r => _). destruct (alloc mk s) as [s1 r] eqn:Ea.
  destruct (alloc_ok _ mk s s1 r (i_core _ Hi) ltac:(done) Ea) as (Hc1 & Hg1 & -> & Hn1 & Ho1).
  pose proof (alloc_frame _ _ _ _ Ea) as Ef. set (r := next_ref s) in *.
  assert (alerts s1 = alerts s) as Eal by (by rewrite Ef).
  assert (listed s1 (alerts s1)) as Hl1 by (rewrite Eal; apply (listed_grows s); [done|apply Hi]).
  assert (ready class_by_name (obj s1 r)) as Hrd.
  { rewrite Ho1. constructor; [done|apply (k_node _ _ (i_core _ Hi))|by eexists|done|].
    apply (init_text (from_args r c a) None None None None JNull None None None). apply Hreg. }
  destruct (handle_alert_ok _ e r s1 Hc1 Hl1 ltac:(lia) Hrd) as (Hc2 & Hg2 & Hu2 & Hid2).
  set (s2 := handle_alert e r s1) in *.
  assert (alerts s2 = alerts s1 /\ policies s2 = policies s /\ pc s2 = None) as (Ea2 & Ep2 & Epc2).
  { unfold s2. rewrite handle_alert_eq. rewrite Ef. by destruct (existing _ _). }
  simpl. set (keep := List.filter _ _).
  assert (listed s2 (alerts s2)) as Hl2 by (rewrite Ea2; by apply (listed_grows s1)).
  assert (listed s2 (keep ++ [r])) as Hl3.
  { assert (keep `sublist_of` alerts s2) as Hsub by apply filter_sublist.
    destruct (listed_sub _ _ _ Hl2 Hsub) as [Hk1 Hk2]. split.
    - change (map ?f ?l) with (f <$> l). rewrite fmap_app. apply NoDup_app. split_and!; [done| |apply NoDup_singleton].
      intros i (r' & -> & Hr')%list_elem_of_fmap E. simpl in E. apply list_elem_of_singleton in E.
      apply elem_filter in Hr' as [Hne Hr']. rewrite negb_true_iff, bool_decide_eq_false in Hne. apply Hne.
      rewrite Ea2 in Hr'.
      assert (identity (obj s1 r') = identity (obj s1 r)) as E'.
      { rewrite <-Hid2, <-E. destruct Hl1 as [_ Hall]. rewrite Forall_forall in Hall.
        by destruct (g_obj _ _ Hg2 r' (Hall r' Hr')) as [_ ->]. }
      destruct (existing s1 (obj s1 r)) as [r0|] eqn:Ex; [|by destruct (existing_None _ _ _ Ex Hr')].
      destruct (existing_Some _ _ _ Ex) as [Hr0 Hid0].
      assert (r0 = r') as -> by (apply (listed_inj s1 _ _ _ Hl1 Hr0 Hr'); congruence).
      unfold s2 at 2. rewrite handle_alert_eq, obj_put_eq, Ex. simpl.
      destruct Hl1 as [_ Hall]. rewrite Forall_forall in Hall. by destruct (g_obj _ _ Hg2 r' (Hall r' Hr')).
    - apply Forall_app. split; [done|]. by apply Forall_singleton. }
  assert (grows s (set_alerts (keep ++ [r]) s2)) as Hg3.
  { do 2 (etrans; [eassumption|]). by apply grows_eq. }
  split_and!; [constructor| |].
  - by eapply (core_ok_eq _ s2).
  - done.
  - unfold pc_ok. simpl. by rewrite Epc2.
  - apply (pols_ok_grows s); [done|done|apply Hi].
  - done.
  - apply (carried_trans s s1); [done|apply carried_same; [apply Hi|done|]|].
    { intros r' Hr'. rewrite Ef. unfold obj. simpl. rewrite lookup_total_insert_ne; [done|].
      pose proof (listed_ref s _ _ (i_core _ Hi) (i_alerts _ Hi) Hr'). unfold r. lia. }
    intros r' [Hr'|E%list_elem_of_singleton]%elem_of_app; simpl.
    + apply elem_filter in Hr' as [_ Hr']. rewrite Ea2 in Hr'. change (obj (set_alerts _ s2) r') with (obj s2 r').
      assert (obj s2 r' = obj s1 r') as ->.
      { unfold s2. rewrite handle_alert_eq, obj_put_ne; [by destruct (existing _ _)|].
        rewrite Eal in Hr'. pose proof (listed_ref s _ _ (i_core _ Hi) (i_alerts _ Hi) Hr'). unfold r. lia. }
      destruct Hl1 as [_ Hall]. rewrite Forall_forall in Hall. destruct (Hall r' Hr') as [u Hu]. eauto 10.
    + subst r'. change (obj (set_alerts _ s2) r) with (obj s2 r). unfold s2.
      rewrite handle_alert_eq, obj_put_eq. destruct (existing s1 (obj s1 r)) as [r0|] eqn:Ex; simpl; [|eauto].
      apply existing_Some in Ex as [Hr0 _]. destruct Hl1 as [_ Hall]. rewrite Forall_forall in Hall.
      destruct (Hall r0 Hr0) as [u Hu]. eauto 10.
Qed.


(** ** Every step *)

(** The steps that may change the dismissal of an alert, forget the list of alerts
    or bring back an old one. *)
Definition rewinds (l : label) : bool :=
  match l with
  | LInitialize _ _ | LDismiss _ _ | LRestore _ _ => true
  | LProcessEnd e => negb (should_run_or_send_alerts e)
  | _ => false
  end.

Lemma delete_on_dismiss_sub r s : alerts (delete_on_dismiss r s) `sublist_of` alerts s.
Proof. unfold delete_on_dismiss. destruct (remove s r (alerts s)) eqn:E; simpl; [by eapply remove_sub|done]. Qed.

Lemma dismiss_finish_sub i lft s s' : dismiss_finish i lft s = Some s' -> core s' = core s /\ alerts s' `sublist_of` alerts s.
Proof.
  unfold dismiss_finish. destruct (dismissals s !! i) as [[? rel]|]; [|done]. intros [= <-].
  set (s0 := set_dismissals _ s).
  assert (core s0 = core s /\ alerts s0 `sublist_of` alerts s) as H0 by done. revert H0. generalize s0. clear s0.
  induction rel as [|r rel IH]; intros s0 H0; simpl; [done|]. apply IH. destruct (isin _ _ _); [done|].
  destruct H0 as [E Hs]. destruct (delete_on_dismiss_core r s0) as [E' _]. split; [congruence|].
  etrans; [apply delete_on_dismiss_sub|done].
Qed.

Lemma dismiss_grows e u s : inv s -> grows s (dismiss e u s) /\ grows s (restore e u s).
Proof.
  intros Hi. unfold dismiss, restore. destruct (alert_by_uuid u s) as [r|]; [|done].
  assert (forall b, grows s (send_alert_changed_event e r (put r (set_dismissed b (obj s r)) s))) as H.
  { intros b. etrans; [|apply (grows_eq (put r (set_dismissed b (obj s r)) s))].
    - constructor; [done|done|]. intros r' _. rewrite obj_put. by case_decide; subst.
    - unfold send_alert_changed_event. destruct (should_show_alert _ _); [|done]. by destruct (serialize _ _). }
  split; [|apply H]. destruct (is_dismissable _); [by apply grows_eq|].
  destruct (_ && _); [|apply H]. destruct (delete_on_dismiss_core r s) as [E _]. by apply grows_eq.
Qed.

Lemma frame_ok s s' :
  inv s -> core s = core s' -> alerts s = alerts s' -> policies s = policies s' -> pc s = pc s' ->
  inv s' /\ grows s s' /\ carried s s'.
Proof.
  intros Hi E Ea Ep Epc. split_and!; [by apply (alert_inv_frame s)|by apply grows_eq|].
  apply carried_sub; [apply Hi|by rewrite Ea|by injection E].
Qed.

Lemma bump_inv s : inv s -> inv (set_next_uuid (S (next_uuid s)) s) /\ grows s (set_next_uuid (S (next_uuid s)) s).
Proof.
  intros Hi. destruct (bump_ok _ s (i_core _ Hi)) as [Hc Hg]. split; [|done].
  eapply (inv_quiet s); [done|done|by split|done| |]; apply Hi.
Qed.

Lemma block_ok e n t s : inv s -> let s' := (block_source alert_sources e n t s).1 in inv s' /\ grows s s' /\ carried s s'.
Proof.
  intros Hi. unfold block_source. case_bool_decide; [|by apply frame_ok].
  destruct (bump_inv s Hi) as [Hi1 Hg1]. simpl. split_and!.
  - by apply (alert_inv_frame (set_next_uuid (S (next_uuid s)) s)).
  - etrans; [exact Hg1|]. by apply grows_eq.
  - apply carried_sub; [apply Hi|done|done].
Qed.

Lemma run_source_step_ok n t res s : registry_ok class_by_name -> inv s -> res_ok res ->
  let s' := (run_source n t res s).1 in inv s' /\ grows s s' /\ carried s s'.
Proof.
  intros Hreg Hi Hres. unfold Alerts.run_source. case_bool_decide; [|by apply frame_ok].
  destruct (run_source_ n t res s) as [s1 ro] eqn:Er.
  destruct (run_source_ok _ _ _ _ _ _ Hreg (i_core _ Hi) Hres Er) as (Hc1 & Hg1 & Hs1 & Hold & Hch & Hge).
  assert (inv s1 /\ grows s s1 /\ carried s s1); [|by destruct ro].
  assert (alerts s1 = alerts s) as Ea by (symmetry; apply Hs1). split_and!; [|done|].
  - eapply (inv_quiet s); [done|done|by split; auto|apply Hs1|rewrite Ea; eapply listed_grows; [done|apply Hi]|].
    eapply pols_ok_grows; [done|apply Hs1|apply Hi].
  - apply carried_same; [apply Hi|done|]. intros r Hr. apply Hold. eapply listed_ref; [apply Hi|apply (i_alerts _ Hi)|done].
Qed.

Lemma initialize_grows e load s : registry_ok class_by_name -> inv s -> grows s (initialize alert_sources class_by_name e load s).
Proof.
  intros Hreg Hi. unfold initialize. set (s1 := set_alerts [] _).
  assert (core_ok s1) as Hc1.
  { destruct (i_core _ Hi) as [H1 H2 H3 H4 H5 H6 H7]. constructor; try done. simpl. destruct (_ && _); [by right|by left]. }
  assert (grows s s1) as Hg1 by (by constructor). destruct load.
  - destruct (load_rows (rows s1) [] [] s1) as [s2 g] eqn:El.
    destruct (load_rows_ok _ _ _ _ _ _ Hreg Hc1 ltac:(done) El) as (_ & Hg2 & _).
    etrans; [exact Hg1|]. etrans; [exact Hg2|]. by apply grows_eq.
  - etrans; [exact Hg1|]. unfold flush_alerts. destruct (failover_licensed e && _); by constructor.
Qed.

Lemma exec_ok l s s' :
  registry_ok class_by_name -> inv s -> admissible l s -> exec l s = Some s' ->
  inv s' /\ grows s s' /\ (rewinds l = false -> carried s s').
Proof.
  intros Hreg Hi Hadm E. destruct l; simpl in E, Hadm |- *.
  - destruct (process_start_inv _ _ _ Hi E) as (? & ? & ?). auto.
  - destruct (prologue_inv _ _ _ _ Hi E) as (? & ? & ?). auto.
  - destruct (source_next_inv _ _ _ Hi E) as (? & ? & ?). auto.
  - destruct (check_done_inv _ _ _ _ _ Hreg Hi Hadm E) as (? & ? & ?). auto.
  - destruct (remote_done_inv _ _ _ _ Hreg Hi Hadm E) as (? & ? & ?). auto.
  - destruct (run_end_inv _ _ _ Hi E) as (? & ? & ?). auto.
  - destruct (process_end_inv _ _ _ Hi E) as (? & ? & H). split_and!; [done|done|]. rewrite negb_false_iff. auto.
  - destruct (send_start_inv _ _ _ Hi E) as (? & ? & ?). auto.
  - destruct (send_policy_inv _ _ _ Hi E) as (? & ? & ?). auto.
  - destruct (send_service_inv _ _ Hi E) as (? & ? & ?). auto.
  - destruct (policy_end_inv _ _ _ _ _ Hi E) as (? & ? & ?). auto.
  - injection E as <-. split_and!; [by apply dismiss_inv|by apply dismiss_grows|done].
  - pose proof (dismiss_finish_inv _ _ _ _ Hi E). apply dismiss_finish_sub in E as [Ec Hs].
    split_and!; [done|by apply grows_eq|]. intros _. apply carried_sub; [apply Hi| |by injection Ec].
    intros r Hr. by eapply elem_of_sublist.
  - injection E as <-. split_and!; [by apply restore_inv|by apply dismiss_grows|done].
  - injection E as <-. destruct (block_ok e n timeout s Hi) as (? & ? & ?). auto.
  - injection E as <-. destruct (unblock_source_frame lock s) as (? & ? & ? & ? & _).
    destruct (frame_ok s (unblock_source lock s).1) as (? & ? & ?); auto.
  - injection E as <-. destruct (frame_ok s (block_failover_alerts e s)) as (? & ? & ?); auto.
  - injection E as <-. destruct (frame_ok s (alert_source_clear_run alert_sources n s).1) as (? & ? & ?); auto;
      unfold alert_source_clear_run; by case_bool_decide.
  - injection E as <-. destruct (run_source_step_ok n run_time res s Hreg Hi Hadm) as (? & ? & ?). auto.
  - destruct (pc s) eqn:Epc; [done|]. injection E as <-. destruct (oneshot_create_inv e c a s Hi Epc Hadm) as (? & ? & ?). auto.
  - destruct (pc s) eqn:Epc; [done|]. injection E as <-. split_and!; [by apply oneshot_delete_inv| |].
    + unfold oneshot_delete, mbind, ste_mbind. pose proof (delete_klasses_shorter klasses query false s) as (k & Ek & _).
      destruct (delete_klasses _ _ _ _ _) as [s1 [[]|x]]; simpl in *; subst s1; [|by apply grows_eq..].
      unfold flush_alerts. destruct (_ && _); by constructor.
    + intros _. unfold oneshot_delete, mbind, ste_mbind. pose proof (delete_klasses_shorter klasses query false s) as (k & Ek & Hk).
      assert (forall r, r ∈ k -> r ∈ alerts s) as Hin by (intros r Hr; by eapply elem_of_sublist).
      destruct (delete_klasses _ _ _ _ _) as [s1 [[]|x]]; simpl in *; subst s1;
        [unfold flush_alerts; destruct (_ && _)|..]; (apply carried_sub; [apply Hi|done|done]).
  - injection E as <-. split_and!; [by apply flush_inv| |].
    + apply flush_ok; apply Hi.
    + intros _. unfold flush_alerts. destruct (_ && _); (apply carried_sub; [apply Hi|done|done]).
  - destruct (sending s); [done|]. injection E as <-. split_and!; [by apply initialize_inv|by apply initialize_grows|done].
Qed.
End steps.
