(* ===== verification/AlertFrames.v ===== *)
(** * Which step writes which part of the alert service

    The locks of blocked sources, the times of the last runs, the log of effects
    and the snapshots of the policies are each written by a few steps only. *)

From S2P Require Import Prelude PyDict PyStr PyVal PyFormat Errors AlertBase Alerts AlertInv AlertSteps.

Section frames.
Context (alert_sources : list AlertSource) (class_by_name : list (string * AlertClass)) (service_types : list string).
Context (utcoffset : Z -> Z) (EALERTCHECKERUNAVAILABLE : Z) (repr_instance : AlertClass -> json -> string).

Notation exec := (exec alert_sources class_by_name service_types utcoffset EALERTCHECKERUNAVAILABLE repr_instance).

Definition locks (s : st) := (blocked_sources s, sources_locks s).

(** All of them, and the job that holds the lock. *)
Definition rest (s : st) := (locks s, alert_source_last_run s, log s, policies s, pc s).

Ltac rest_eq := unfold rest, locks in *; simpl in *; congruence.

Lemma alloc_all_rest l : forall s, rest (alloc_all l s).1 = rest s.
Proof.
  induction l as [|a l IH]; intros s; [done|]. rewrite alloc_all_cons. destruct (alloc a s) as [s1 r] eqn:E.
  pose proof (alloc_frame _ _ _ _ E) as ->. specialize (IH (set_next_ref (S (next_ref s)) (put (next_ref s) (a (next_ref s)) s))).
  destruct (alloc_all l _). exact IH.
Qed.

Lemma handle_at_rest e nd s r : rest (handle_at e nd s r) = rest s.
Proof. unfold handle_at. rewrite handle_alert_eq. by destruct (existing _ _). Qed.

Lemma merge_rest e fi n this other s : rest (merge e fi n this other s) = rest s.
Proof.
  rewrite merge_frame, handle_both_fold. change (rest (set_alerts ?l ?x)) with (rest x).
  generalize (interleave (map (pair (fi_this_node fi)) this) (map (pair (fi_other_node fi)) other)) as ps. intros ps.
  revert s. induction ps as [|p ps IH]; intros s; simpl; [done|]. rewrite IH. apply handle_at_rest.
Qed.

Lemma set_sources_of_rest n l : forall s, rest (set_sources_of n l s) = rest s.
Proof. induction l as [|r l IH]; intros s; simpl; [done|]. etrans; [apply IH|done]. Qed.

Lemma run_source_rest n t res s : rest (run_source_ n t res s).1 = rest s.
Proof.
  rewrite run_source_eq. assert (rest (noted n t res s) = rest s) as <- by (by destruct res).
  destruct (constructed n res) as [l|]; [|done].
  pose proof (alloc_all_rest (map construct l) (noted n t res s)) as H. destruct (alloc_all _ _) as [s1 rs]. simpl in *.
  by rewrite set_sources_of_rest.
Qed.

Lemma run_other_rest n reply s : rest (run_other_node_alert_source class_by_name EALERTCHECKERUNAVAILABLE n reply s).1 = rest s.
Proof.
  unfold run_other_node_alert_source. destruct reply as [ds|[[] tb]]; repeat case_match; try done; apply alloc_all_rest.
Qed.

Lemma load_rows_rest l : forall seen g s, rest (load_rows alert_sources class_by_name l seen g s).1 = rest s.
Proof.
  induction l as [|x l IH]; intros seen g s; simpl; [done|]. destruct (known_class _ _ x) as [c|]; [|apply IH].
  case_bool_decide; by rewrite IH.
Qed.

(** The steps that write the locks, the times of the last runs, the log, the
    policies. *)
Definition writes_locks (l : label) : bool :=
  match l with LPrologue _ _ | LBlock _ _ _ | LUnblock _ => true | _ => false end.
Definition writes_runs (l : label) : bool :=
  match l with LSource _ | LClearRun _ | LInitialize _ _ => true | _ => false end.
Definition writes_log (l : label) : bool :=
  match l with
  | LSource _ | LService | LPolicyEnd _ _ _ | LDismiss _ _ | LDismissed _ _ | LRestore _ _ => true
  | _ => false
  end.
Definition writes_policies (l : label) : bool :=
  match l with LPolicy _ | LDismiss _ _ | LDismissed _ _ | LInitialize _ _ => true | _ => false end.

Definition framed (l : label) (s s' : st) : Prop :=
  (writes_locks l = false -> locks s' = locks s)
  /\ (writes_runs l = false -> alert_source_last_run s' = alert_source_last_run s)
  /\ (writes_log l = false -> log s' = log s)
  /\ (writes_policies l = false -> policies s' = policies s).

Lemma framed_rest l s s' : rest s' = rest (set_pc (pc s') s) -> framed l s s'.
Proof. intros [= E1 E2 E3 E4 E5]. split_and!; intros _; [unfold locks; congruence|done..]. Qed.

(** What the deletion of a dismissed alert leaves alone. *)
Lemma delete_on_dismiss_rest r s :
  locks (delete_on_dismiss r s) = locks s /\ alert_source_last_run (delete_on_dismiss r s) = alert_source_last_run s.
Proof. unfold delete_on_dismiss. by destruct (remove s r (alerts s)). Qed.

Lemma changed_event_rest e r s :
  locks (send_alert_changed_event e r s) = locks s
  /\ alert_source_last_run (send_alert_changed_event e r s) = alert_source_last_run s
  /\ policies (send_alert_changed_event e r s) = policies s.
Proof. unfold send_alert_changed_event. destruct (should_show_alert _ _); [|done]. by destruct (serialize _ _). Qed.

Lemma dismiss_finish_rest i lft s s' : dismiss_finish i lft s = Some s' ->
  locks s' = locks s /\ alert_source_last_run s' = alert_source_last_run s.
Proof.
  unfold dismiss_finish. destruct (dismissals s !! i) as [[? rel]|]; [|done]. intros [= <-].
  set (s0 := set_dismissals _ s).
  assert (locks s0 = locks s /\ alert_source_last_run s0 = alert_source_last_run s) as H0 by done.
  revert H0. generalize s0. clear s0. induction rel as [|r rel IH]; intros s0 H0; simpl; [done|]. apply IH.
  destruct (isin _ _ _); [done|]. destruct (delete_on_dismiss_rest r s0) as [E1 E2]. destruct H0. split; congruence.
Qed.

Lemma unblock_expired_runs e l : forall s, alert_source_last_run (unblock_expired e l s).1 = alert_source_last_run s.
Proof.
  induction l as [|[k lk] l IH]; intros s; simpl; [done|]. unfold mbind, ste_mbind.
  destruct (expires_at lk <=? monotonic e)%Z; simpl; [|apply IH].
  assert (alert_source_last_run (unblock_source k s).1 = alert_source_last_run s) as H.
  { unfold unblock_source. cbv beta. by repeat case_match. }
  destruct (unblock_source k s) as [s1 [[]|x]]; simpl in *; [|done]. by rewrite IH.
Qed.

Lemma flush_rest e s : rest (flush_alerts e s) = rest s.
Proof. unfold flush_alerts. by destruct (_ && _). Qed.

Lemma exec_frame l s s' : exec l s = Some s' -> framed l s s'.
Proof.
  intros E. destruct l; simpl in E.
  - unfold process_start in E. destruct (pc s) eqn:Ep; [done|]. destruct (should_run_or_send_alerts e).
    + pose proof (alloc_all_rest (map (fun r => copy_alert (obj s r)) (alerts s)) s) as H. unfold deepcopy in E.
      destruct (alloc_all _ _) as [s1 v]. injection E as <-. apply framed_rest. rest_eq.
    + injection E as <-. by apply framed_rest.
  - unfold run_prologue in E. destruct (pc s) as [[]|] eqn:Ep; try done.
    pose proof (unblock_expired_frame e (sources_locks s) s) as (_ & _ & E3 & _ & E5).
    pose proof (unblock_expired_runs e (sources_locks s) s) as E6. destruct (unblock_expired _ _ _) as [s1 []];
      injection E as <-; (split_and!; [done|by intros _..]).
  - unfold source_next in E. destruct (pc s) as [[|v pt fi [|src todo]| | | | |]|] eqn:Ep; try done.
    destruct (due _ _ _ _ _ _); [|injection E as <-; by apply framed_rest].
    destruct (handle_locked_alert_source _ _ _) as [[this other]|]; injection E as <-; [|done].
    pose proof (merge_rest e fi (src_name src) this other (set_alert_source_last_run (Dict.set (src_name src) (now e) (alert_source_last_run s)) s)) as [= H1 H2 H3 H4 H5 H6].
    split_and!; try done; intros _; simpl; unfold locks; simpl; congruence.
  - unfold check_done in E. destruct (pc s) as [[]|] eqn:Ep; try done.
    pose proof (run_source_rest (src_name src) run_time res s) as H. destruct (run_source_ _ _ _ s) as [s1 ro]. simpl in H.
    destruct (_ && _); injection E as <-; apply framed_rest; [rest_eq|].
    pose proof (merge_rest e fi (src_name src) (default [] ro) [] s1) as H'. rest_eq.
  - unfold remote_done in E. destruct (pc s) as [[]|] eqn:Ep; try done.
    pose proof (run_other_rest (src_name src) reply s) as H. destruct (run_other_node_alert_source _ _ _ _ s) as [s1 other]. simpl in H.
    injection E as <-. apply framed_rest. pose proof (merge_rest e fi (src_name src) this other s1) as H'. rest_eq.
  - unfold run_end, expire_alerts in E. destruct (pc s) as [[|v pt fi [|src todo]| | | | |]|] eqn:Ep; try done.
    destruct (unexpired _ _ _); injection E as <-; by apply framed_rest.
  - unfold process_end in E. destruct (pc s) as [[]|] eqn:Ep; try done. injection E as <-.
    destruct (should_run_or_send_alerts e); by apply framed_rest.
  - unfold send_start in E. destruct (pc s) eqn:Ep; [done|]. injection E as <-. destruct (String.eqb _ _); by apply framed_rest.
  - unfold send_policy in E. destruct (pc s) as [[| | | | |at_us pt cls [|n todo]|]|] eqn:Ep; try done.
    { injection E as <-. by apply framed_rest. }
    destruct (Dict.get n (policies s)); [|done]. destruct (receive_alerts _ _ _ _) as [[p' gone] new]. injection E as <-. done.
  - unfold send_service in E. destruct (pc s) as [[| | | | | |at_us pt cls pol gone new [|svc svcs] todo]|] eqn:Ep; try done.
    injection E as <-. by destruct (prepare _ _ _ _ _ _ _ _).
  - apply policy_end_logs in E as (s1 & p & -> & [k ->] & _). done.
  - injection E as <-. unfold dismiss. destruct (alert_by_uuid u s) as [r|]; [|done].
    destruct (is_dismissable _); [done|]. destruct (_ && _).
    + destruct (delete_on_dismiss_rest r s). by split_and!.
    + destruct (changed_event_rest e r (put r (set_dismissed true (obj s r)) s)) as (? & ? & ?). by split_and!.
  - apply dismiss_finish_rest in E as [??]. by split_and!.
  - injection E as <-. unfold restore. destruct (alert_by_uuid u s) as [r|]; [|done].
    destruct (changed_event_rest e r (put r (set_dismissed false (obj s r)) s)) as (? & ? & ?). by split_and!.
  - injection E as <-. unfold block_source. by case_bool_decide.
  - injection E as <-. unfold unblock_source. cbv beta. by repeat case_match.
  - by injection E as <-.
  - injection E as <-. unfold alert_source_clear_run. by case_bool_decide.
  - injection E as <-. apply framed_rest. unfold run_source. case_bool_decide; [|done].
    pose proof (run_source_rest n run_time res s) as Hr. destruct (run_source_ _ _ _ s) as [s1 []]; simpl in *;
      rest_eq.
  - destruct (pc s) eqn:Ep; [done|]. injection E as <-. apply framed_rest. unfold oneshot_create. destruct (is_oneshot c); [|done].
    set (mk := fun r => _). destruct (alloc mk s) as [s1 r] eqn:Ea. pose proof (alloc_frame _ _ _ _ Ea) as ->. simpl.
    rewrite handle_alert_eq. by destruct (existing _ _).
  - destruct (pc s) eqn:Ep; [done|]. injection E as <-. apply framed_rest. unfold oneshot_delete, mbind, ste_mbind.
    pose proof (delete_klasses_shorter class_by_name klasses query false s) as (k & Ek & _).
    destruct (delete_klasses _ _ _ _ _) as [s1 [[]|x]]; simpl in *; subst s1; [|done..]. etrans; [apply flush_rest|].
    unfold flush_alerts. by destruct (_ && _).
  - injection E as <-. apply framed_rest. rewrite flush_rest. unfold flush_alerts. by destruct (_ && _).
  - destruct (sending s); [done|]. injection E as <-. split_and!; [|done| |done]; intros _; unfold initialize.
    + destruct load; [|unfold flush_alerts; by destruct (failover_licensed e && _)].
      set (s1 := set_alerts [] _). pose proof (load_rows_rest (rows s1) [] [] s1) as [= H1 H2 H3 H4 H5 H6].
      destruct (load_rows _ _ _ _ _ s1) as [s2 g]. simpl in *. unfold locks. simpl. congruence.
    + destruct load; [|unfold flush_alerts; by destruct (failover_licensed e && _)].
      set (s1 := set_alerts [] _). pose proof (load_rows_rest (rows s1) [] [] s1) as [= H1 H2 H3 H4 H5 H6].
      destruct (load_rows _ _ _ _ _ s1) as [s2 g]. simpl in *. congruence.
Qed.

(** The steps of the jobs that hold the lock. *)
Definition job_step (l : label) : bool :=
  match l with
  | LProcess _ | LPrologue _ _ | LSource _ | LChecked _ _ _ | LReplied _ _ | LRunEnd _ | LProcessEnd _
  | LSend _ | LPolicy _ | LService | LPolicyEnd _ _ _ => true
  | _ => false
  end.

Lemma dismiss_finish_pc i lft s s' : dismiss_finish i lft s = Some s' -> pc s' = pc s.
Proof.
  unfold dismiss_finish. destruct (dismissals s !! i) as [[? rel]|]; [|done]. intros [= <-].
  set (s0 := set_dismissals _ s). assert (pc s0 = pc s) as H0 by done. revert H0. generalize s0. clear s0.
  induction rel as [|r rel IH]; intros s0 H0; simpl; [done|]. apply IH. destruct (isin _ _ _); [done|].
  destruct (delete_on_dismiss_core r s0). congruence.
Qed.

Lemma changed_event_pc e r s : pc (send_alert_changed_event e r s) = pc s.
Proof. unfold send_alert_changed_event. destruct (should_show_alert _ _); [|done]. by destruct (serialize _ _). Qed.

Lemma exec_pc l s s' : exec l s = Some s' -> job_step l = false -> pc s' = pc s.
Proof.
  intros E Hj. destruct l; try done; simpl in E.
  - injection E as <-. unfold dismiss. destruct (alert_by_uuid u s) as [r|]; [|done].
    destruct (is_dismissable _); [done|]. destruct (_ && _); [by destruct (delete_on_dismiss_core r s)|].
    by rewrite changed_event_pc.
  - by apply dismiss_finish_pc in E.
  - injection E as <-. unfold restore. destruct (alert_by_uuid u s) as [r|]; [|done]. by rewrite changed_event_pc.
  - injection E as <-. unfold block_source. by case_bool_decide.
  - injection E as <-. symmetry. apply unblock_source_frame.
  - by injection E as <-.
  - injection E as <-. unfold alert_source_clear_run. by case_bool_decide.
  - injection E as <-. unfold run_source. case_bool_decide; [|done]. pose proof (run_source_rest n run_time res s) as Hr.
    destruct (run_source_ _ _ _ s) as [s1 []]; by injection Hr.
  - destruct (pc s) eqn:Ep; [done|]. injection E as <-. unfold oneshot_create. destruct (is_oneshot c); [|done].
    set (mk := fun r => _). destruct (alloc mk s) as [s1 r] eqn:Ea. pose proof (alloc_frame _ _ _ _ Ea) as ->. simpl.
    rewrite handle_alert_eq. by destruct (existing _ _).
  - destruct (pc s) eqn:Ep; [done|]. injection E as <-. unfold oneshot_delete, mbind, ste_mbind.
    pose proof (delete_klasses_shorter class_by_name klasses query false s) as (k & Ek & _).
    destruct (delete_klasses _ _ _ _ _) as [s1 [[]|x]]; simpl in *; subst s1; [|done..].
    unfold flush_alerts. by destruct (_ && _).
  - injection E as <-. unfold flush_alerts. by destruct (_ && _).
  - destruct (sending s); [done|]. injection E as <-. unfold initialize.
    destruct load; [|unfold flush_alerts; by destruct (failover_licensed e && _)].
    set (s1 := set_alerts [] _). pose proof (load_rows_rest (rows s1) [] [] s1) as [= H1 H2 H3 H4 H5 H6].
    destruct (load_rows _ _ _ _ _ s1) as [s2 g]. simpl in *. congruence.
Qed.

(** The job runs through the registered sources. *)
Definition sources_ok (s : st) : Prop :=
  match pc s with
  | Some (PLoop _ _ _ todo) => todo ⊆ alert_sources
  | Some (PCheck _ _ _ src todo) | Some (PRemote _ _ _ src todo _) => src ∈ alert_sources /\ todo ⊆ alert_sources
  | _ => True
  end.

Lemma exec_sources l s s' : sources_ok s -> exec l s = Some s' -> sources_ok s'.
Proof.
  intros Hs E. destruct (job_step l) eqn:Hj; [|unfold sources_ok; by rewrite (exec_pc l s s' E Hj)].
  unfold sources_ok in *. destruct l; try done; simpl in E.
  - unfold process_start in E. destruct (pc s) eqn:Ep; [done|]. destruct (should_run_or_send_alerts e).
    + destruct (deepcopy _ _). by injection E as <-.
    + injection E as <-. by rewrite Ep.
  - unfold run_prologue in E. destruct (pc s) as [[]|]; try done. destruct (unblock_expired _ _ _) as [s1 []]; injection E as <-; simpl; done.
  - unfold source_next in E. destruct (pc s) as [[|v pt fi [|src todo]| | | | |]|] eqn:Ep; try done.
    assert (src ∈ alert_sources /\ todo ⊆ alert_sources) as Hsub by (split; [apply Hs; by left|intros x Hx; apply Hs; by right]).
    destruct (due _ _ _ _ _ _); [|injection E as <-; apply Hsub].
    destruct (handle_locked_alert_source _ _ _) as [[this other]|]; injection E as <-; [apply Hsub|exact Hsub].
  - unfold check_done in E. destruct (pc s) as [[]|] eqn:Ep; try done. destruct (run_source_ _ _ _ s) as [s1 ro].
    destruct (_ && _); injection E as <-; [exact Hs|apply Hs].
  - unfold remote_done in E. destruct (pc s) as [[]|] eqn:Ep; try done. destruct (run_other_node_alert_source _ _ _ _ s) as [s1 other].
    injection E as <-. apply Hs.
  - unfold run_end in E. destruct (pc s) as [[|v pt fi [|src todo]| | | | |]|] eqn:Ep; try done.
    destruct (expire_alerts _ _); by injection E as <-.
  - unfold process_end in E. destruct (pc s) as [[]|] eqn:Ep; try done. injection E as <-. by destruct (should_run_or_send_alerts e).
  - unfold send_start in E. destruct (pc s) eqn:Ep; [done|]. injection E as <-. destruct (String.eqb _ _); [done|]. simpl. by rewrite Ep.
  - unfold send_policy in E. destruct (pc s) as [[| | | | |at_us pt cls [|n todo]|]|] eqn:Ep; try done; [by injection E as <-|].
    destruct (Dict.get n (policies s)); [|done]. destruct (receive_alerts _ _ _ _) as [[p' gone] new]. by injection E as <-.
  - unfold send_service in E. destruct (pc s) as [[| | | | | |at_us pt cls pol gone new [|svc svcs] todo]|] eqn:Ep; try done.
    injection E as <-. by destruct (prepare _ _ _ _ _ _ _ _).
  - apply policy_end_logs in E as (s1 & p & -> & _ & Hp). simpl. by destruct p as [[]|].
Qed.
End frames.
