(* ===== verification/AlertProps.v ===== *)
(** * Properties of the alert service *)

From stdpp Require Import sorting.
From S2P Require Import Prelude PyDict PyStr PyVal PyFormat Errors AlertBase Alerts AlertInv AlertSteps AlertFrames.

Section props.
Context (alert_sources : list AlertSource) (class_by_name : list (string * AlertClass)) (service_types : list string).
Context (repr_instance : AlertClass -> json -> string).

Notation complete := (complete class_by_name).
Notation inv := (inv class_by_name).

(** ** Nothing raises on merged alerts *)

Lemma node_map_total e n : is_node n -> is_Some (n ≫= fun n => Dict.get n (node_map e)).
Proof.
  intros Hn. assert (exists n', n = Some n' /\ (n' = "A" \/ n' = "B")) as (n' & -> & Hn') by (destruct Hn; eauto).
  simpl. apply Dict.get_is_Some. unfold node_map. destruct (failover_licensed e); [|destruct Hn'; set_solver].
  destruct (String.eqb (failover_status e) "MASTER"); [destruct (String.eqb (failover_node e) "A"); destruct Hn'; set_solver|].
  apply Dict.elem_keys_set. right. destruct Hn'; set_solver.
Qed.

Lemma serialize_total e a : complete a -> is_Some (serialize e a).
Proof. intros []. unfold serialize. by apply fmap_is_Some, node_map_total. Qed.

Lemma unexpired_total e s l : Forall (fun r => complete (obj s r)) l -> exists k, unexpired e s l = Ok k.
Proof.
  induction 1 as [|r l Hr _ [k IH]]; simpl; [by eexists|]. rewrite IH.
  assert (exists b, should_expire_alert e (obj s r) = Ok b) as [b ->]; [|by eexists].
  unfold should_expire_alert. destruct (is_oneshot _); [|by eexists].
  destruct (expires_after _); [|by eexists]. destruct (c_last _ _ Hr) as [us ->]. by eexists.
Qed.

Context (utcoffset : Z -> Z) (EALERTCHECKERUNAVAILABLE : Z).

Notation run_source := (run_source alert_sources EALERTCHECKERUNAVAILABLE).
Notation exec := (exec alert_sources class_by_name service_types utcoffset EALERTCHECKERUNAVAILABLE repr_instance).
Notation admissible := (admissible alert_sources class_by_name EALERTCHECKERUNAVAILABLE).

(** A table of alerts as [flush_alerts] leaves it, with uuids below [n]. *)
Record table_ok (l : list AlertRow) (n : nat) : Prop := {
  t_rows : Forall row_complete l;
  t_identity : NoDup (map row_identity l);
  t_uuid : forall x y, x ∈ l -> y ∈ l -> row_uuid x = row_uuid y -> row_identity x = row_identity y;
  t_bound : forall x u, x ∈ l -> row_uuid x = Some u -> u < n;
}.

(** The steps of a history, each admissible in its state. *)
Inductive history (s0 : st) : list label -> st -> Prop :=
| history_nil : history s0 [] s0
| history_snoc (ls : list label) (s : st) (l : label) (s' : st) :
    history s0 ls s -> admissible l s -> exec l s = Some s' -> history s0 (ls ++ [l]) s'.

Lemma st0_inv rows n : table_ok rows n -> inv (st0 rows n).
Proof.
  intros [H1 H2 H3 H4].
  assert (forall u i, ident (st0 rows n) u i -> exists x, x ∈ rows /\ row_uuid x = Some u /\ row_identity x = i) as Hi.
  { intros u i [(r & Hu & _)|H]; [|done]. unfold obj in Hu. simpl in Hu. by rewrite lookup_total_empty in Hu. }
  constructor; [constructor|split; constructor|done|constructor].
  - intros u i j (x & Hx & Ux & <-)%Hi (y & Hy & Uy & <-)%Hi. apply H3; congruence.
  - intros u i (x & Hx & Ux & _)%Hi. by apply (H4 x).
  - intros r. unfold obj. simpl. rewrite lookup_total_empty. by intros [].
  - intros r _. unfold obj. simpl. by rewrite lookup_total_empty.
  - done.
  - done.
  - by left.
Qed.

Context (Hreg : registry_ok class_by_name).

Lemma history_inv s0 ls s : inv s0 -> history s0 ls s -> inv s.
Proof. intros H0. induction 1 as [|ls s l s' _ IH Hadm E]; [done|]. by destruct (exec_ok _ _ _ _ _ _ l s s' Hreg IH Hadm E). Qed.

(** ** Uniqueness *)

(** C27: In every history of the alert service, started on a table of alerts as it
    writes them and with any interleaving of the checks, of notifications, of
    dismissals and of one-shot alerts, no two alerts in the list have the same
    uuid or the same node, source, class and key; every alert has a node, dates
    and a dismissal flag, so that listing the alerts never raises, and neither
    does the expiry of one-shot alerts. *)
Theorem alerts_unique rows n ls s e :
  table_ok rows n -> history (st0 rows n) ls s ->
  NoDup (map (fun r => uuid (obj s r)) (alerts s)) /\ NoDup (map (fun r => identity (obj s r)) (alerts s))
  /\ Forall (fun r => complete (obj s r)) (alerts s)
  /\ is_Some (list_serialized e s) /\ is_ok (expire_alerts e s) = true.
Proof.
  intros Ht Hh. pose proof (history_inv _ _ _ (st0_inv rows n Ht) Hh) as Hi.
  destruct (listed_distinct _ _ _ (i_core _ _ Hi) (i_alerts _ _ Hi)) as [Hd Hs].
  assert (Forall (fun r => complete (obj s r)) (alerts s)) as Hc.
  { eapply Forall_impl; [exact Hs|]. apply (k_complete _ _ (i_core _ _ Hi)). }
  split_and!; [done|apply (i_alerts _ _ Hi)|done| |].
  - unfold list_serialized, list_. apply mapM_is_Some, Forall_forall. intros a [_ Ha]%elem_filter.
    rewrite Fmt.sorted_Permutation in Ha. apply list_elem_of_fmap in Ha as (r & -> & Hr).
    apply serialize_total. rewrite Forall_forall in Hc. auto.
  - unfold expire_alerts. by destruct (unexpired_total e s _ Hc) as [k ->].
Qed.

(** ** Dismissal *)

(** The steps that may undo the dismissal of [u]: restoring it, starting over from
    the table, or rolling back the alerts because this controller is no longer
    the one to run the checks. *)
Definition undoes (u : uuid_t) (l : label) : bool :=
  match l with
  | LRestore _ u' => bool_decide (u' = u)
  | LInitialize _ _ => true
  | LProcessEnd e => negb (should_run_or_send_alerts e)
  | _ => false
  end.

(** Whoever carries the uuid [u] is dismissed, and was first seen at [d]. *)
Definition dismissed_since (u : uuid_t) (d : option datetime) (s : st) : Prop :=
  forall r, r ∈ alerts s -> uuid (obj s r) = Some u -> dismissed (obj s r) = Some true /\ a_datetime (obj s r) = d.

Lemma changed_event_frame e r s : alerts (send_alert_changed_event e r s) = alerts s /\ heap (send_alert_changed_event e r s) = heap s.
Proof. unfold send_alert_changed_event. destruct (should_show_alert _ _); [|done]. by destruct (serialize _ _). Qed.

Lemma dismissed_since_sub u d s s' :
  (forall r, r ∈ alerts s' -> r ∈ alerts s) -> heap s' = heap s -> dismissed_since u d s -> dismissed_since u d s'.
Proof. intros Ha Eh H r Hr. unfold obj. rewrite Eh. by apply H, Ha. Qed.

Lemma dismissed_since_put u d s s' r0 b :
  alerts s' = alerts s -> heap s' = heap (put r0 (set_dismissed b (obj s r0)) s) ->
  (b = true \/ uuid (obj s r0) ≠ Some u) -> dismissed_since u d s -> dismissed_since u d s'.
Proof.
  intros Ha Eh Hb H r Hr. rewrite Ha in Hr. unfold obj at 1 2 3. rewrite Eh.
  change (heap (put r0 ?a s) !!! r) with (obj (put r0 a s) r). rewrite obj_put. case_decide as E; [subst r0|by apply H].
  simpl. intros Hu. destruct Hb as [->|Hne]; [|done]. split; [done|]. by apply H.
Qed.

Lemma exec_dismissed u d l s s' :
  inv s -> admissible l s -> exec l s = Some s' -> undoes u l = false -> u < next_uuid s ->
  dismissed_since u d s -> dismissed_since u d s'.
Proof.
  intros Hi Hadm E Hun Hlt Hd. destruct (rewinds l) eqn:Hrw.
  - destruct l; try done; simpl in E, Hun, Hrw; [congruence|injection E as <-..].
    + unfold dismiss. destruct (alert_by_uuid u0 s) as [r0|]; [|done].
      destruct (is_dismissable _); [done|]. destruct (_ && _).
      * apply (dismissed_since_sub u d s); [|by destruct (delete_on_dismiss_core r0 s) as [[=] _]|done].
        intros r Hr. eapply elem_of_sublist; [exact Hr|apply delete_on_dismiss_sub].
      * destruct (changed_event_frame e r0 (put r0 (set_dismissed true (obj s r0)) s)) as [E1 E2].
        eapply (dismissed_since_put u d s); [exact E1|exact E2|by left|done].
    + rewrite bool_decide_eq_false in Hun. unfold restore. destruct (alert_by_uuid u0 s) as [r0|] eqn:Er; [|done].
      apply alert_by_uuid_Some in Er as [_ Hu0].
      destruct (changed_event_frame e r0 (put r0 (set_dismissed false (obj s r0)) s)) as [E1 E2].
      eapply (dismissed_since_put u d s); [exact E1|exact E2|right; congruence|done].
  - destruct (exec_ok _ _ _ _ _ _ l s s' Hreg Hi Hadm E) as (_ & _ & Hcar). specialize (Hcar Hrw).
    intros r Hr Hu. destruct (Hcar r Hr) as (u' & Hu' & [Hge|(r0 & Hr0 & Hu0 & Ed & Edis)]).
    + rewrite Hu in Hu'. injection Hu' as <-. lia.
    + rewrite Hu in Hu'. injection Hu' as <-. rewrite Ed, Edis. by apply Hd.
Qed.

(** C30: A dismissed alert stays dismissed: from any state the service can reach in
    which the alert [u] is dismissed, through any number of checks that find the
    same problem again and whatever else happens in between, the alert with the
    uuid [u] is still dismissed and keeps the date it was first seen, unless it
    is restored, the service starts over from the table, or the alerts of an
    interrupted run are rolled back. *)
Theorem dismissal_sticks rows n ls s r u ls' s' r' :
  table_ok rows n -> history (st0 rows n) ls s ->
  r ∈ alerts s -> uuid (obj s r) = Some u -> dismissed (obj s r) = Some true ->
  history s ls' s' -> Forall (fun l => undoes u l = false) ls' ->
  r' ∈ alerts s' -> uuid (obj s' r') = Some u ->
  dismissed (obj s' r') = Some true /\ a_datetime (obj s' r') = a_datetime (obj s r).
Proof.
  intros Ht Hh Hr Hu Hd Hh' Hun. pose proof (history_inv _ _ _ (st0_inv rows n Ht) Hh) as Hi.
  assert (u < next_uuid s /\ dismissed_since u (a_datetime (obj s r)) s) as H0.
  { split; [apply (k_bound _ _ (i_core _ _ Hi) u (identity (obj s r))); left; eauto|].
    intros r0 Hr0 Hu0. rewrite (listed_uuid_inj _ s _ r0 r (i_core _ _ Hi) (i_alerts _ _ Hi) Hr0 Hr) by congruence. done. }
  revert r'. change (dismissed_since u (a_datetime (obj s r)) s').
  assert (inv s' /\ u < next_uuid s' /\ dismissed_since u (a_datetime (obj s r)) s') as H; [|apply H].
  clear -Hreg Hh' Hun H0 Hi. induction Hh' as [|ls' s1 l s2 _ IH Hadm E]; [done|].
  apply Forall_app in Hun as [Hun Hl]. apply Forall_cons in Hl as [Hl _]. destruct (IH Hun) as (Hi1 & Hlt & Hds).
  destruct (exec_ok _ _ _ _ _ _ l s1 s2 Hreg Hi1 Hadm E) as (Hi2 & [Hg _ _] & _).
  split_and!; [done|lia|]. by eapply (exec_dismissed u _ l s1 s2).
Qed.

(** ** Blocked sources *)

(** The two tables of locks agree. *)
Record locks_ok (s : st) : Prop := {
  lk_agree : forall n (k : uuid_t), k ∈ blocked n s <-> exists lk, Dict.get k (sources_locks s) = Some lk /\ lock_source_name lk = n;
  lk_wf : Dict.wf (sources_locks s);
  lk_bound : forall k, k ∈ Dict.keys (sources_locks s) -> k < next_uuid s;
}.

Lemma locks_ok_eq s s' : locks s' = locks s -> next_uuid s <= next_uuid s' -> locks_ok s -> locks_ok s'.
Proof.
  intros [= E1 E2] Hle [H1 H2 H3]. constructor; unfold blocked; rewrite ?E1, ?E2; try done.
  intros k Hk. specialize (H3 k Hk). lia.
Qed.

Lemma blocked_set n n' v s s' :
  blocked_sources s' = Dict.set n v (blocked_sources s) -> blocked n' s' = if decide (n = n') then v else blocked n' s.
Proof.
  unfold blocked. intros ->. case_decide; [subst; by rewrite Dict.get_set_eq|by rewrite Dict.get_set_ne].
Qed.

Lemma block_source_locks e n t s : locks_ok s -> locks_ok (block_source alert_sources e n t s).1.
Proof.
  intros [H1 H2 H3]. unfold block_source. case_bool_decide; [|done]. simpl. set (s' := set_sources_locks _ _).
  assert (next_uuid s ∉ Dict.keys (sources_locks s)) as Hnew by (intros Hin%H3; lia).
  assert (sources_locks s' = Dict.set (next_uuid s) (mkLock n (monotonic e + t)) (sources_locks s)) as El by done.
  constructor.
  - intros n' k. rewrite (blocked_set n n' ({[next_uuid s]} ∪ blocked n s) s s') by done. rewrite El.
    destruct (decide (k = next_uuid s)) as [->|Hne].
    + rewrite Dict.get_set_eq. case_decide as Hn.
      * subst n'. split; [by eexists|set_solver].
      * split; [|naive_solver]. intros (lk & Hg & _)%H1. apply Dict.get_None in Hnew. congruence.
    + rewrite Dict.get_set_ne by done. case_decide; [subst n'|apply H1].
      rewrite elem_of_union, elem_of_singleton, H1. naive_solver.
  - rewrite El. by apply Dict.wf_set.
  - intros k. rewrite El, Dict.elem_keys_set. intros [->|Hk%H3]; simpl; lia.
Qed.

(** Releasing a lock never raises: [set.remove] finds it. *)
Lemma unblock_source_ok k s : locks_ok s ->
  (unblock_source k s).2 = Ok tt /\ locks_ok (unblock_source k s).1
  /\ sources_locks (unblock_source k s).1 = Dict.pop k (sources_locks s).
Proof.
  intros [H1 H2 H3]. unfold unblock_source. destruct (Dict.get k (sources_locks s)) as [lk|] eqn:E.
  2: { split_and!; [done|done|]. symmetry. apply Dict.pop_notin. by apply Dict.get_None. }
  change (blocked (lock_source_name lk) (set_sources_locks ?d s)) with (blocked (lock_source_name lk) s).
  rewrite bool_decide_true by (apply H1; eauto). simpl. split_and!; [done| |done].
  set (s' := set_blocked_sources _ _). assert (sources_locks s' = Dict.pop k (sources_locks s)) as El by done.
  constructor.
  - intros n' k'. rewrite (blocked_set (lock_source_name lk) n' (blocked (lock_source_name lk) s ∖ {[k]}) s s') by done.
    rewrite El. destruct (decide (k' = k)) as [->|Hne].
    + rewrite Dict.get_pop_eq by done. case_decide as Hn; [set_solver|]. split; [|naive_solver].
      intros (lk' & Hg & <-)%H1. congruence.
    + rewrite Dict.get_pop_ne by done. case_decide; [subst n'|apply H1]. rewrite elem_of_difference, elem_of_singleton, H1. naive_solver.
  - rewrite El. by apply Dict.wf_pop.
  - intros k' Hk'. rewrite El in Hk'. apply Dict.elem_keys_pop in Hk'; [|done]. apply H3. apply Hk'.
Qed.

Lemma unblock_expired_ok e l : forall s, locks_ok s ->
  (unblock_expired e l s).2 = Ok tt /\ locks_ok (unblock_expired e l s).1
  /\ forall k lk, Dict.get k (sources_locks (unblock_expired e l s).1) = Some lk
       <-> Dict.get k (sources_locks s) = Some lk /\ Forall (fun x => x.1 = k -> (monotonic e < expires_at x.2)%Z) l.
Proof.
  induction l as [|[k0 lk0] l IH]; intros s Hl; simpl.
  { split_and!; [done|done|]. intros k lk. split; [|tauto]. intros H. split; [done|constructor]. }
  unfold mbind, ste_mbind. destruct (Z.leb_spec (expires_at lk0) (monotonic e)) as [Hle|Hgt].
  - destruct (unblock_source_ok k0 s Hl) as (E & Hl1 & Es). destruct (unblock_source k0 s) as [s1 r]. simpl in *. subst r.
    destruct (IH s1 Hl1) as (E1 & Hl2 & Hget). split_and!; [done|done|]. intros k lk. rewrite Hget, Es, Forall_cons. simpl.
    destruct (decide (k0 = k)) as [->|Hne].
    + rewrite Dict.get_pop_eq by apply Hl. split; [naive_solver|]. intros (_ & H & _). specialize (H eq_refl). lia.
    + rewrite Dict.get_pop_ne by done. naive_solver.
  - destruct (IH s Hl) as (E1 & Hl2 & Hget). split_and!; [done|done|]. intros k lk. rewrite Hget, Forall_cons. simpl. naive_solver lia.
Qed.

Lemma exec_locks l s s' : inv s -> admissible l s -> locks_ok s -> exec l s = Some s' -> locks_ok s'.
Proof.
  intros Hi Hadm Hl E. destruct (exec_ok _ _ _ _ _ _ l s s' Hreg Hi Hadm E) as (_ & [Hle _ _] & _).
  destruct (exec_frame _ _ _ _ _ _ l s s' E) as (Hf & _). destruct (writes_locks l) eqn:Hw; [|by apply (locks_ok_eq s); auto].
  destruct l; try done; simpl in E.
  - unfold run_prologue in E. destruct (pc s) as [[]|]; try done.
    destruct (unblock_expired_ok e (sources_locks s) s Hl) as (_ & Hl' & _).
    destruct (unblock_expired _ _ s) as [s1 []]; injection E as <-; by apply (locks_ok_eq s1).
  - injection E as <-. by apply block_source_locks.
  - injection E as <-. by apply unblock_source_ok.
Qed.

Lemma st0_locks rows n : locks_ok (st0 rows n).
Proof. constructor; [|constructor|]; unfold blocked; simpl; [|set_solver]. intros m k. split; [set_solver|naive_solver]. Qed.

Lemma history_locks rows n ls s : table_ok rows n -> history (st0 rows n) ls s -> locks_ok s.
Proof.
  intros Ht. induction 1 as [|ls s l s' Hh IH Hadm E]; [apply st0_locks|].
  refine (exec_locks l s s' _ Hadm IH E). exact (history_inv _ _ _ (st0_inv rows n Ht) Hh).
Qed.

(** While a lock on an alert source is held, the run of the checks skips the
    source: [check] is not called, and the alerts of the source stay in the list
    with all their attributes but the time they were last seen.  The locks that
    count are those not expired when the run began: the others are released at
    that point, without an exception, and only they are. *)
Theorem blocked_source_kept rows n ls s e :
  table_ok rows n -> history (st0 rows n) ls s ->
  (forall v pt fi src todo k lk s', pc s = Some (PLoop v pt fi (src :: todo)) ->
     Dict.get k (sources_locks s) = Some lk -> lock_source_name lk = src_name src -> exec (LSource e) s = Some s' ->
     pc s' = Some (PLoop v pt fi todo) /\ log s' = log s /\ alerts s' ≡ₚ alerts s
     /\ forall r, obj s' r = obj s r \/ obj s' r = touch e (obj s r))
  /\ (forall v rem, pc s = Some (PPrologue v) -> exists s', exec (LPrologue e rem) s = Some s'
        /\ pc s' = Some (PLoop v (product_type e) (get_failover_info e rem s) alert_sources)
        /\ forall k lk, Dict.get k (sources_locks s') = Some lk
             <-> Dict.get k (sources_locks s) = Some lk /\ (monotonic e < expires_at lk)%Z).
Proof.
  intros Ht Hh. pose proof (history_inv _ _ _ (st0_inv rows n Ht) Hh) as Hi. pose proof (history_locks _ _ _ _ Ht Hh) as Hl.
  split.
  - intros v pt fi src todo k lk s' Epc Hk Hn. simpl. unfold source_next. rewrite Epc.
    destruct (due utcoffset e pt fi src s).
    2: { intros [= <-]. split_and!; [done|done|done|by left]. }
    set (s1 := set_alert_source_last_run _ s).
    pose proof (i_pc _ _ Hi) as Hpc. unfold pc_ok in Hpc. rewrite Epc in Hpc. destruct Hpc as [_ Hf].
    assert (inv s1) as Hi1 by (by apply (alert_inv_frame _ s)).
    assert (k ∈ blocked (src_name src) s1) as Hb by (apply (lk_agree _ Hl); eauto).
    destruct (handle_locked_alert_source (src_name src) fi s1) as [[this other]|] eqn:El.
    2: { unfold handle_locked_alert_source in El. case_decide as E0; [|done]. rewrite E0 in Hb. set_solver. }
    intros [= <-]. destruct (merge_blocked_ok _ e fi _ _ _ _ (i_core _ _ Hi1) (i_alerts _ _ Hi1) Hf El)
      as (_ & _ & _ & _ & H5 & H6 & H7).
    split_and!; [done|symmetry; apply H5|exact H6|exact H7].
  - intros v rem Epc. simpl. unfold run_prologue. rewrite Epc.
    destruct (unblock_expired_ok e (sources_locks s) s Hl) as (E & _ & Hget).
    destruct (unblock_expired e (sources_locks s) s) as [s1 r]. simpl in *. subst r. eexists. split_and!; [done|done|].
    intros k lk. simpl. rewrite Hget. split; intros [Hk Hx]; (split; [done|]).
    + rewrite Forall_forall in Hx. by apply (Hx (k, lk) (Dict.get_Some_elem _ _ _ Hk)).
    + apply Forall_forall. intros [k' lk'] Hin E'. simpl in *. subst k'.
      rewrite (Dict.elem_get _ _ _ (lk_wf _ Hl) Hin) in Hk. by injection Hk as ->.
Qed.

(** ** Schedules *)

(** The times at which [check] of the source [n] was started. *)
Definition check_of (n : string) (ev : effect) : option Z :=
  match ev with EvChecked m t => if decide (m = n) then Some t else None | _ => None end.

Definition check_times (n : string) (l : list effect) : list Z := omap (check_of n) l.

Lemma check_times_app n l k : check_times n (l ++ k) = check_times n l ++ check_times n k.
Proof. apply omap_app. Qed.

(** Effects added to the log, none of them the start of a check. *)
Definition adds_no_check (n : string) (s s' : st) : Prop := exists k, log s' = log s ++ k /\ check_times n k = [].

#[local] Instance adds_no_check_preorder n : PreOrder (adds_no_check n).
Proof.
  split; [intros s; exists []; by rewrite app_nil_r|]. intros s1 s2 s3 (k & E & H) (k' & E' & H').
  exists (k ++ k'). by rewrite E', E, app_assoc, check_times_app, H, H'.
Qed.

Lemma policy_end_quiet n e m b s s' : send_policy_end e m b s = Some s' -> adds_no_check n s s'.
Proof.
  assert (forall ev x, check_of n ev = None -> adds_no_check n x (emit ev x)) as Hemit.
  { intros ev x E. exists [ev]. split; [done|]. unfold check_times. simpl. by rewrite E. }
  assert (forall l x, adds_no_check n x (foldl (emit_gone e) x l)) as H1.
  { intros l. induction l as [|r l IH]; intros x; simpl; [done|]. etrans; [|apply IH]. unfold emit_gone.
    destruct (should_show_alert _ _); [by apply Hemit|done]. }
  assert (forall l x, adds_no_check n x (emit_new e l x).1) as H2.
  { intros l. induction l as [|r l IH]; intros x; simpl; [done|]. destruct (should_show_alert _ _); [|apply IH].
    destruct (serialize _ _); [|done]. etrans; [|apply IH]; by apply Hemit. }
  assert (forall l x, adds_no_check n x (send_mails m l x).1) as H3.
  { intros l. induction l as [|r l IH]; intros x; simpl; [done|]. destruct (truthy _); [|apply IH].
    destruct (m _) as [|[]]; try done; [etrans; [|apply IH]; by apply Hemit|]. destruct (String.eqb _ _); [apply IH|done]. }
  assert (forall g l x, adds_no_check n x (open_ticket e b g l x)) as H4.
  { intros g l x. unfold open_ticket. destruct (is_enterprise e); [|done]. repeat case_match; try done; by apply Hemit. }
  unfold send_policy_end. destruct (pc s) as [[| | | | | |at_us pt cls pol gone new [|svc svcs] todo]|]; try done.
  assert (forall p x, adds_no_check n s x -> adds_no_check n s (set_pc p x)) as Hpc by done.
  destruct (String.eqb pol "IMMEDIATELY"); [|by intros [= <-]; apply Hpc].
  specialize (H1 gone s). specialize (H2 new (foldl (emit_gone e) s gone)).
  destruct (emit_new e new (foldl (emit_gone e) s gone)) as [s1 ok]. simpl in H2. specialize (H3 new s1).
  destruct ok; [destruct (send_mails m new s1) as [s2 ok]; simpl in H3; destruct ok|]; intros [= <-]; apply Hpc.
  - etrans; [|apply H4]. etrans; [exact H1|]. by etrans.
  - etrans; [exact H1|]. by etrans.
  - by etrans.
Qed.

(** The log only grows, and only the loop over the sources starts checks. *)
Lemma exec_log l s s' n : exec l s = Some s' -> exists k, log s' = log s ++ k
  /\ (check_times n k = []
      \/ exists e v pt fi src todo, l = LSource e /\ pc s = Some (PLoop v pt fi (src :: todo)) /\ src_name src = n
           /\ due utcoffset e pt fi src s = true /\ check_times n k = [now e] /\ last_run n s' = now e).
Proof.
  intros E. destruct (writes_log l) eqn:Hw.
  2: { exists []. rewrite app_nil_r. destruct (exec_frame _ _ _ _ _ _ l s s' E) as (_ & _ & Hf & _). auto. }
  assert (forall r x, exists k, log (delete_on_dismiss r x) = log x ++ k /\ check_times n k = []) as Hdel.
  { intros r x. unfold delete_on_dismiss. destruct (remove x r (alerts x)); simpl;
      [by eexists|exists []; by rewrite app_nil_r]. }
  assert (forall e r x, exists k, log (send_alert_changed_event e r x) = log x ++ k /\ check_times n k = []) as Hch.
  { intros e r x. unfold send_alert_changed_event. destruct (should_show_alert _ _); [destruct (serialize _ _)|];
      [by eexists|exists []; by rewrite app_nil_r..]. }
  destruct l; try done; simpl in E.
  - unfold source_next in E. destruct (pc s) as [[|v pt fi [|src todo]| | | | |]|] eqn:Ep; try done.
    destruct (due _ _ _ _ _ _) eqn:Hdue.
    2: { injection E as <-. exists []. rewrite app_nil_r. auto. }
    destruct (handle_locked_alert_source _ _ _) as [[this other]|]; injection E as <-.
    + exists []. rewrite app_nil_r. split; [|by left].
      pose proof (merge_rest e fi (src_name src) this other (set_alert_source_last_run (Dict.set (src_name src) (now e) (alert_source_last_run s)) s)) as [= H1 H2 H3 H4 H5 H6].
      exact H4.
    + eexists. split; [done|]. simpl. unfold check_times. simpl. case_decide as Hn; [|by left]. right.
      exists e, v, pt, fi, src, todo. split_and!; try done. unfold last_run. simpl. rewrite <-Hn. by rewrite Dict.get_set_eq.
  - unfold send_service in E. destruct (pc s) as [[| | | | | |at_us pt cls pol gone new [|svc svcs] todo]|] eqn:Ep; try done.
    injection E as <-. destruct (prepare _ _ _ _ _ _ _ _); simpl;
      [exists []; rewrite app_nil_r; auto|eexists; split; [done|by left]|exists []; rewrite app_nil_r; auto].
  - destruct (policy_end_quiet n e mail_send support_enabled s s' E) as (k & -> & Hk). eauto.
  - injection E as <-. unfold dismiss. destruct (alert_by_uuid u s) as [r|]; [|exists []; rewrite app_nil_r; auto].
    destruct (is_dismissable _); [exists []; rewrite app_nil_r; auto|]. destruct (_ && _).
    + destruct (Hdel r s) as (k & -> & Hk). eauto.
    + destruct (Hch e r (put r (set_dismissed true (obj s r)) s)) as (k & -> & Hk). eauto.
  - unfold dismiss_finish in E. destruct (dismissals s !! i) as [[? rel]|]; [|done]. injection E as <-.
    set (s0 := set_dismissals _ s). assert (exists k, log s0 = log s ++ k /\ check_times n k = []) as H0.
    { exists []. by rewrite app_nil_r. }
    revert H0. generalize s0. clear s0. induction rel as [|r rel IH]; intros s0 (k & Hk & Ek); simpl; [eauto|].
    apply IH. destruct (isin _ _ _); [eauto|]. destruct (Hdel r s0) as (k' & -> & Ek').
    exists (k ++ k'). by rewrite Hk, app_assoc, check_times_app, Ek, Ek'.
  - injection E as <-. unfold restore. destruct (alert_by_uuid u s) as [r|]; [|exists []; rewrite app_nil_r; auto].
    destruct (Hch e r (put r (set_dismissed false (obj s r)) s)) as (k & -> & Hk). eauto.
Qed.

(** The steps that make a source due again. *)
Definition clears_run (n : string) (l : label) : bool :=
  match l with LClearRun m => String.eqb m n | LInitialize _ _ => true | _ => false end.

Lemma exec_last_run l s s' n :
  exec l s = Some s' -> clears_run n l = false ->
  last_run n s' = last_run n s
  \/ exists e v pt fi src todo, l = LSource e /\ pc s = Some (PLoop v pt fi (src :: todo)) /\ src_name src = n
       /\ due utcoffset e pt fi src s = true /\ last_run n s' = now e.
Proof.
  intros E Hcl. destruct (writes_runs l) eqn:Hw.
  2: { left. unfold last_run. destruct (exec_frame _ _ _ _ _ _ l s s' E) as (_ & Hf & _). by rewrite Hf. }
  destruct l; try done; simpl in E.
  - unfold source_next in E. destruct (pc s) as [[|v pt fi [|src todo]| | | | |]|] eqn:Ep; try done.
    destruct (due _ _ _ _ _ _) eqn:Hdue; [|injection E as <-; by left].
    set (s1 := set_alert_source_last_run (Dict.set (src_name src) (now e) (alert_source_last_run s)) s) in *.
    assert (alert_source_last_run s' = alert_source_last_run s1) as Er.
    { destruct (handle_locked_alert_source _ _ _) as [[this other]|]; injection E as <-; [|done].
      pose proof (merge_rest e fi (src_name src) this other s1) as [= H1 H2 H3 H4 H5 H6]. exact H3. }
    unfold last_run. rewrite Er. simpl. destruct (decide (src_name src = n)) as [Hn|Hn].
    + right. rewrite <-Hn. exists e, v, pt, fi, src, todo. by rewrite Dict.get_set_eq.
    + left. by rewrite Dict.get_set_ne.
  - injection E as <-. left. unfold last_run, alert_source_clear_run. simpl in Hcl. apply String.eqb_neq in Hcl.
    case_bool_decide; [|done]. simpl. by rewrite Dict.get_set_ne.
Qed.

(** Checks with an interval schedule are not run more often than the interval:
    in every history of the service, any two checks of a source started by
    [process_alerts] are at least the interval apart, whatever the clock does,
    unless the run time of the source is cleared or the service starts over. *)
Theorem checks_spaced rows n0 ls0 s0 ls s src interval :
  table_ok rows n0 -> history (st0 rows n0) ls0 s0 ->
  NoDup (source_names alert_sources) -> src ∈ alert_sources -> schedule src = IntervalSchedule interval -> (0 <= interval)%Z ->
  history s0 ls s -> Forall (fun l => clears_run (src_name src) l = false) ls ->
  exists added, log s = log s0 ++ added
    /\ StronglySorted (fun a b => (a + interval <= b)%Z) (check_times (src_name src) added).
Proof.
  intros Ht Hh0 Hnd Hsrc Hsch Hpos Hh Hcl. set (n := src_name src) in *.
  assert (sources_ok alert_sources s0) as Hs0.
  { clear -Hh0. induction Hh0 as [|ls s l s' _ IH _ E]; [done|]. by eapply exec_sources. }
  assert (exists added, log s = log s0 ++ added /\ StronglySorted (fun a b => (a + interval <= b)%Z) (check_times n added)
            /\ Forall (fun t => (t <= last_run n s)%Z) (check_times n added) /\ sources_ok alert_sources s) as (k & H1 & H2 & _); [|eauto].
  clear Hh0. induction Hh as [|ls s l s' _ IH _ E].
  { exists []. rewrite app_nil_r. split_and!; [done|constructor|constructor|done]. }
  apply Forall_app in Hcl as [Hcl Hl]. apply Forall_cons in Hl as [Hl _]. destruct (IH Hcl) as (k & Hk & Hso & Hle & Hs).
  assert (sources_ok alert_sources s') as Hs' by (by eapply exec_sources).
  assert (forall e v pt fi src0 todo, pc s = Some (PLoop v pt fi (src0 :: todo)) -> src_name src0 = n ->
            due utcoffset e pt fi src0 s = true -> (last_run n s + interval <= now e)%Z) as Hdue.
  { intros e v pt fi src0 todo Ep Hn Hd. unfold sources_ok in Hs. rewrite Ep in Hs.
    assert (src0 = src) as ->.
    { assert (src0 ∈ alert_sources) as Hin by (apply Hs; by left). unfold source_names in Hnd.
      apply list_elem_of_lookup in Hin as [i Hi]. apply list_elem_of_lookup in Hsrc as [j Hj].
      assert (i = j) as ->; [|congruence]. eapply (NoDup_lookup _ i j (src_name src0) Hnd); change (map ?f ?l) with (f <$> l);
        rewrite list_lookup_fmap; [by rewrite Hi|rewrite Hj; simpl; by rewrite Hn]. }
    unfold due in Hd. rewrite !andb_true_iff in Hd. destruct Hd as [_ Hd]. rewrite Hsch in Hd. simpl in Hd.
    by apply Z.leb_le in Hd. }
  destruct (exec_log l s s' n E) as (k' & Hk' & Hcase).
  exists (k ++ k'). rewrite Hk', Hk, app_assoc, check_times_app. split; [done|].
  destruct Hcase as [->|(e & v & pt & fi & src0 & todo & -> & Ep & Hn & Hd & -> & Hlr)].
  - rewrite app_nil_r. split_and!; [done| |done].
    destruct (exec_last_run l s s' n E Hl) as [->|(e & v & pt & fi & src0 & todo & -> & Ep & Hn & Hd & ->)]; [done|].
    specialize (Hdue e v pt fi src0 todo Ep Hn Hd). eapply Forall_impl; [exact Hle|]. intros t Ht'. simpl in *. lia.
  - specialize (Hdue e v pt fi src0 todo Ep Hn Hd). split_and!; [|rewrite Hlr|done].
    + apply StronglySorted_app_2; [|done|repeat constructor]. intros a b Ha ->%list_elem_of_singleton.
      rewrite Forall_forall in Hle. specialize (Hle a Ha). lia.
    + apply Forall_app. split; [|by repeat constructor]. eapply Forall_impl; [exact Hle|]. intros t Ht'. simpl in *. lia.
Qed.
End props.
