(* ===== verification/AlertNotify.v ===== *)
(** * Restarts and notifications of the alert service *)

From S2P Require Import Prelude PyDict PyStr PyVal PyFormat Errors AlertBase Alerts AlertInv AlertSteps AlertFrames AlertProps.

Section notify.
Context (alert_sources : list AlertSource) (class_by_name : list (string * AlertClass)) (service_types : list string).
Context (repr_instance : AlertClass -> json -> string).

Notation complete := (complete class_by_name).
Notation inv := (inv class_by_name).
Notation registered := (registered class_by_name).
Notation known_class := (known_class alert_sources class_by_name).
Notation initialize := (initialize alert_sources class_by_name).

(** ** Restart *)

Lemma to_from_row a c r : complete a -> known_class (to_row a) = Some c -> to_row (from_row (to_row a) c r) = to_row a.
Proof.
  intros [H1 H2 [d H3] [l H4] H5 [H6 _] H7] Hk.
  assert (c = inst_class (instance a)) as ->.
  { unfold Alerts.known_class in Hk. destruct (match row_source (to_row a) with Some (String _ _) => _ | _ => _ end); [done|].
    simpl in Hk. unfold inst_name in Hk. rewrite H6 in Hk. by injection Hk as <-. }
  unfold to_row, from_row, inst_name. simpl. rewrite H4. f_equal.
  - by destruct (text a).
  - unfold args. simpl. by destruct (style _).
Qed.

Lemma list_filter_Permutation {A} (p : A -> bool) (l l' : list A) : l ≡ₚ l' -> List.filter p l ≡ₚ List.filter p l'.
Proof.
  induction 1; simpl; repeat case_match; by eauto using Permutation.
Qed.

(** A policy that has seen the alerts of the list announces nothing. *)
Lemma receive_seen s l p at_us p' gone new :
  distinct s l -> last_key_value_alerts p = by_uuid (heap s) l ->
  receive_alerts (heap s) at_us l p = (p', gone, new) -> gone = [] /\ new = [].
Proof.
  intros Hd Hp. unfold receive_alerts. case_decide; intros [= _ <- <-]; [done|]. rewrite Hp, by_uuid_map by apply Hd.
  assert (forall k, (forall r, r ∈ k -> r ∈ l) ->
    List.filter (fun r => negb (Dict.mem (uuid (heap s !!! r)) (map (fun r => (uuid (obj s r), r)) l))) k = []) as Hf.
  { intros k. induction k as [|r k IH]; intros Hk; simpl; [done|].
    assert (Dict.mem (uuid (heap s !!! r)) (map (fun r => (uuid (obj s r), r)) l) = true) as ->.
    { apply Dict.mem_spec. unfold Dict.keys. change (map ?f ?l) with (f <$> l). rewrite <-list_fmap_compose.
      apply list_elem_of_fmap. exists r. split; [done|]. apply Hk. by left. }
    simpl. apply IH. intros x Hx. apply Hk. by right. }
  assert (Dict.values (map (fun r => (uuid (obj s r), r)) l) = l) as ->.
  { unfold Dict.values. change (map ?f ?l) with (f <$> l). rewrite <-list_fmap_compose. apply list_fmap_id. }
  split; apply Hf; done.
Qed.

Context (utcoffset : Z -> Z) (EALERTCHECKERUNAVAILABLE : Z).
Notation history := (history alert_sources class_by_name service_types repr_instance utcoffset EALERTCHECKERUNAVAILABLE).

Lemma filter_rows s l tbl (f : nat -> Alert) rs (p q : nat -> bool) :
  Forall2 (loaded alert_sources class_by_name s) tbl l -> tbl = map (fun r => to_row (f r)) rs -> Forall (fun r => complete (f r)) rs ->
  (forall r r', inst_class (instance (obj s r)) = inst_class (instance (f r')) -> to_row (obj s r) = to_row (f r') -> p r = q r') ->
  registry_ok class_by_name ->
  map (fun r => to_row (obj s r)) (List.filter p l) = map (fun r => to_row (f r)) (List.filter q rs).
Proof.
  intros Hl. revert rs. induction Hl as [|x r tbl l (c & Hk & Ho) _ IH]; intros [|r0 rs] E Hc Hp Hreg; simpl in *; try done.
  injection E as -> E. apply Forall_cons in Hc as [Hc Hcs].
  pose proof (to_from_row _ c r Hc Hk) as Er. rewrite <-Ho in Er.
  destruct (known_class_name _ _ _ _ Hreg Hk) as [[Hrc _] Hn]. destruct (c_class _ _ Hc) as [Hra _].
  rewrite (Hp r r0); [|rewrite Ho; simpl in Hn |- *; unfold inst_name in Hn; congruence|done].
  destruct (q r0); simpl; [rewrite Er; f_equal|]; by apply IH.
Qed.

(** The table [flush_alerts] leaves is one the service can start on. *)
Lemma flushed_table_ok s e :
  inv s -> failover_licensed e && String.eqb (failover_status e) "BACKUP" = false ->
  table_ok (map (fun r => to_row (obj s r)) (alerts s)) (next_uuid s).
Proof.
  intros Hi Hb.
  destruct (flush_ok _ e s (i_core _ _ Hi) (i_alerts _ _ Hi)) as [Hc _]. unfold flush_alerts in Hc. rewrite Hb in Hc.
  destruct Hc as [K1 K2 _ _ K5 K6 _]. simpl in *. constructor; [done|done| |].
  - intros x y Hx Hy E. rewrite Forall_forall in K5. destruct (rc_uuid _ (K5 x Hx)) as [u Hu].
    apply (K1 u); right; [by exists x|exists y; split_and!; [done|congruence|done]].
  - intros x u Hx Hu. apply (K2 u (row_identity x)). right. by exists x.
Qed.

(** C31: The alerts survive a restart: when the list of alerts is flushed to the
    database and the service is started again on that table, the new list holds
    the same alerts, less the one-shot alerts their class finds no longer
    applicable, with the same uuid, dates, dismissal, arguments and text, in the
    order of their classes; and no policy announces an alert as new or gone because
    of the restart. *)
Theorem alerts_survive_restart rows0 n0 ls s e e' :
  registry_ok class_by_name -> table_ok rows0 n0 -> history (st0 rows0 n0) ls s -> failover_licensed e && String.eqb (failover_status e) "BACKUP" = false ->
  Forall (fun r => is_Some (known_class (to_row (obj s r)))) (alerts s) ->
  let s' := initialize e' true (st0 (rows (flush_alerts e s)) (next_uuid s)) in
  map (fun r => to_row (obj s' r)) (alerts s') ≡ₚ map (fun r => to_row (obj s r)) (List.filter (fun r => survives e' (obj s r)) (alerts s))
  /\ forall n p at_us p' gone new, (n, p) ∈ policies s' ->
       receive_alerts (heap s') at_us (alerts s') p = (p', gone, new) -> gone = [] /\ new = [].
Proof.
  intros Hreg Ht0 Hh Hb Hk.
  pose proof (history_inv _ _ _ _ _ _ Hreg _ _ _ (st0_inv _ rows0 n0 Ht0) Hh) as Hi. unfold flush_alerts. rewrite Hb. cbv zeta. change (rows (set_rows ?l s)) with l. set (tbl := map (fun r => to_row (obj s r)) (alerts s)).
  assert (Forall (fun r => complete (obj s r)) (alerts s)) as Hco.
  { eapply Forall_impl; [apply (proj2 (i_alerts _ _ Hi))|]. apply (k_complete _ _ (i_core _ _ Hi)). }
  pose proof (flushed_table_ok s e Hi Hb) as Ht. fold tbl in Ht.
  pose proof (st0_inv class_by_name tbl (next_uuid s) Ht) as Hi0.
  pose proof (initialize_inv alert_sources class_by_name e' true _ Hreg Hi0) as Hi'.
  set (s' := initialize e' true (st0 tbl (next_uuid s))) in *.
  assert (accepted alert_sources class_by_name tbl [] = tbl) as Hacc.
  { apply accepted_all; [by apply Forall_fmap| |set_solver]. unfold tbl. rewrite List.map_map.
    apply (listed_distinct _ _ _ (i_core _ _ Hi) (i_alerts _ _ Hi)). }
  set (s1 := set_alerts [] (set_this_node_name (if is_enterprise e' && String.eqb (failover_node e') "B" then "B" else "A")
               (st0 tbl (next_uuid s)))).
  assert (core_ok class_by_name s1) as Hc1.
  { destruct (i_core _ _ Hi0) as [H1 H2 H3 H4 H5 H6 H7]. constructor; try done. simpl. unfold is_node. destruct (is_enterprise e' && _); auto. }
  destruct (load_rows alert_sources class_by_name (rows s1) [] [] s1) as [s2 g] eqn:El.
  assert (s' = set_policies (map (fun np => (np.1, (receive_alerts (heap s2) (now e') (List.filter (kept e' s2) (concat (Dict.values g))) np.2).1.1)) initial_policies)
               (set_alert_source_last_run [] (set_alerts (List.filter (kept e' s2) (concat (Dict.values g))) s2))) as Es'.
  { unfold s', Alerts.initialize. fold s1. rewrite El. rewrite (load_groups_kept class_by_name); [done|].
    by eapply (load_rows_groups alert_sources class_by_name); [exact Hreg|constructor|exact El]. }
  clearbody s'.
  destruct (load_rows_ok _ _ _ _ _ _ _ _ Hreg Hc1 ltac:(done) El) as (_ & _ & _ & _ & _ & news & Hperm & Hl).
  change (rows s1) with tbl in Hl. rewrite Hacc in Hl. simpl in Hperm. split.
  - rewrite Es'. simpl. etrans; [apply Permutation_map, list_filter_Permutation, Hperm|].
    change (map (fun r => to_row (obj s2 r)) (List.filter (kept e' s2) news)
            ≡ₚ map (fun r => to_row (obj s r)) (List.filter (fun r => survives e' (obj s r)) (alerts s))).
    erewrite (filter_rows s2 news tbl (obj s) (alerts s)); [done|exact Hl|done|done| |done].
    intros r r' Ec Er. unfold kept, survives. by rewrite Er, Ec.
  - intros n p at_us p' gone new Hp Hr.
    assert (distinct s' (alerts s')) as Hd by (apply (listed_distinct _ _ _ (i_core _ _ Hi') (i_alerts _ _ Hi'))).
    assert (last_key_value_alerts p = by_uuid (heap s') (alerts s') \/ policy_fun p at_us = last_key_value p) as [E|E].
    + rewrite Es' in Hp |- *. simpl in Hp |- *. unfold receive_alerts in Hp. simpl in Hp.
      repeat (apply elem_of_cons in Hp as [[= -> ->]|Hp]; [auto|]). by apply elem_of_nil in Hp.
    + by eapply (receive_seen s').
    + unfold receive_alerts in Hr. rewrite decide_True in Hr by done. by injection Hr as _ <- <-.
Qed.

(** ** What is sent to a service *)

(** In a list of merged alerts with distinct uuids, [remove] takes out the object. *)
Lemma same_distinct s l x y : distinct s l -> x ∈ l -> y ∈ l -> same s x y = true -> x = y.
Proof.
  intros [Hnd _] Hx Hy [E%bool_decide_eq_true|E%alert_eqb_uuid]%orb_true_iff; [done|].
  apply list_elem_of_lookup in Hx as [i Hi]. apply list_elem_of_lookup in Hy as [j Hj].
  assert (i = j) as ->; [|congruence]. eapply (NoDup_lookup _ i j (uuid (obj s x)) Hnd); change (map ?f ?l) with (f <$> l);
    rewrite list_lookup_fmap; [by rewrite Hi|rewrite Hj; simpl; by rewrite E].
Qed.

Lemma same_refl s x : same s x x = true.
Proof. unfold same. by rewrite bool_decide_true. Qed.

Lemma remove_middle s x l1 l2 : distinct s (l1 ++ x :: l2) -> remove s x (l1 ++ x :: l2) = Some (l1 ++ l2).
Proof.
  intros Hd. assert (forall k, (forall y, y ∈ k -> y ∈ l1) -> remove s x (k ++ x :: l2) = Some (k ++ l2)) as H; [|by apply H].
  assert (x ∉ l1) as Hx.
  { destruct Hd as [Hnd _]. apply NoDup_fmap_1, NoDup_app in Hnd as (_ & H & _). intros Hx. apply (H x Hx). by left. }
  induction k as [|r k IH]; intros Hk; simpl; [by rewrite same_refl|].
  destruct (same s x r) eqn:E; [|rewrite IH; [done|]; intros y Hy; apply Hk; by right]. exfalso. apply Hx.
  assert (x = r) as ->; [|apply Hk; by left]. apply (same_distinct s (l1 ++ x :: l2)); [done|apply elem_of_app; right; by left| |done].
  apply elem_of_app. left. apply Hk. by left.
Qed.

Lemma remove_elem s x l : distinct s l -> x ∈ l -> exists l', remove s x l = Some l' /\ l' `sublist_of` l
  /\ x ∉ l' /\ forall y, y ∈ l -> y ≠ x -> y ∈ l'.
Proof.
  intros Hd Hx. apply list_elem_of_split in Hx as (l1 & l2 & ->). exists (l1 ++ l2). split_and!.
  - by apply remove_middle.
  - apply sublist_app; [done|by constructor].
  - destruct Hd as [Hnd _]. apply NoDup_fmap_1, NoDup_app in Hnd as (_ & H & Hnd). apply NoDup_cons in Hnd as [H2 _].
    intros [H1|H1]%elem_of_app; [|done]. apply (H x H1). by left.
  - intros y. rewrite !elem_of_app, elem_of_cons. intros [H|[->|H]] Hne; [by left|done|by right].
Qed.

(** *** Alerts that went away and came back *)

(** The class and the key of an alert, by which it is recognised. *)
Definition kind (s : st) (r : nat) : string * string := (inst_name (instance (obj s r)), key (obj s r)).
Definition of_kind (s : st) (c : string * string) (l : list nat) : list nat := List.filter (fun r => bool_decide (kind s r = c)) l.

(** The gone and the new alerts that are left when, for every class and key, the gone and
    the new alerts are paired in their order and both of each pair are dropped. *)
Record unpaired (s : st) (gone new g n : list nat) : Prop := {
  up_gone_sub : g `sublist_of` gone;
  up_new_sub : n `sublist_of` new;
  up_gone c : of_kind s c g = drop (length (of_kind s c new)) (of_kind s c gone);
  up_new c : of_kind s c n = drop (length (of_kind s c gone)) (of_kind s c new);
}.

Lemma comes_back_kind s x y : comes_back s x y = bool_decide (kind s y = kind s x).
Proof.
  unfold comes_back, kind. destruct (String.eqb_spec (inst_name (instance (obj s x))) (inst_name (instance (obj s y)))) as [E1|E1];
    [destruct (String.eqb_spec (key (obj s x)) (key (obj s y))) as [E2|E2]|]; symmetry; simpl.
  - apply bool_decide_eq_true. congruence.
  - apply bool_decide_eq_false. congruence.
  - apply bool_decide_eq_false. congruence.
Qed.

Lemma of_kind_app s c l l' : of_kind s c (l ++ l') = of_kind s c l ++ of_kind s c l'.
Proof. apply List.filter_app. Qed.
Lemma of_kind_one s c r : of_kind s c [r] = if decide (kind s r = c) then [r] else [].
Proof. unfold of_kind. simpl. by repeat case_decide. Qed.

Lemma find_kind_split s c l : match List.find (fun r => bool_decide (kind s r = c)) l with
  | Some y => exists l1 l2, l = l1 ++ y :: l2 /\ kind s y = c /\ of_kind s c l1 = []
  | None => of_kind s c l = []
  end.
Proof.
  induction l as [|r l IH]; simpl; [done|]. unfold of_kind. simpl. case_bool_decide as E.
  - by exists [], l.
  - destruct (List.find _ l) as [y|]; [|done]. destruct IH as (l1 & l2 & -> & Hy & H1). exists (r :: l1), l2. split_and!; [done..|].
    unfold of_kind. simpl. by rewrite bool_decide_false.
Qed.

(** The loop: [past] was looked at, [kept] is what was kept of it. *)
Lemma cancel_unpaired s new0 todo : forall past kept new,
  distinct s (kept ++ todo) -> distinct s new -> unpaired s past new0 kept new ->
  exists g n, cancel s todo (kept ++ todo) new = Some (g, n) /\ unpaired s (past ++ todo) new0 g n.
Proof.
  induction todo as [|x todo IH]; intros past kept new Hg Hn Hu; cbn [cancel].
  { exists kept, new. by rewrite !app_nil_r. }
  assert (forall l, List.find (comes_back s x) l = List.find (fun r => bool_decide (kind s r = kind s x)) l) as ->.
  { intros l. induction l as [|r l IHl]; simpl; [done|]. by rewrite comes_back_kind, IHl. }
  pose proof (find_kind_split s (kind s x) new) as Hf. destruct Hu as [U1 U2 U3 U4].
  replace (past ++ x :: todo) with ((past ++ [x]) ++ todo) by (by rewrite <-app_assoc).
  destruct (List.find _ new) as [y|].
  - destruct Hf as (n1 & n2 & -> & Hy & H1). rewrite (remove_middle s x kept todo Hg), (remove_middle s y n1 n2 Hn).
    assert (of_kind s (kind s x) (n1 ++ y :: n2) = y :: of_kind s (kind s x) n2) as Ey.
    { rewrite of_kind_app, H1. unfold of_kind. simpl. by rewrite bool_decide_true. }
    pose proof (f_equal length (U4 (kind s x))) as L. rewrite Ey, length_drop in L. cbn [length] in L.
    assert (kept ++ todo `sublist_of` kept ++ x :: todo) as Sg by (apply sublist_app; [done|by constructor]).
    assert (n1 ++ n2 `sublist_of` n1 ++ y :: n2) as Sn by (apply sublist_app; [done|by constructor]).
    destruct (IH (past ++ [x]) kept (n1 ++ n2)) as (g & n & Ec & Hu'); [by eapply distinct_sub|by eapply distinct_sub| |by exists g, n].
    split; [by apply sublist_inserts_r|by etrans| |]; intros c; rewrite (of_kind_app s c past [x]), of_kind_one; case_decide as Ek; rewrite ?app_nil_r; [|done| |].
    + subst c. rewrite U3. rewrite !drop_ge; [done|rewrite length_app; simpl; lia|lia].
    + subst c. rewrite of_kind_app, H1. cbn [app]. rewrite length_app. cbn [length].
      rewrite <-drop_drop, <-U4, Ey. done.
    + rewrite <-U4, !of_kind_app. f_equal. unfold of_kind at 2. simpl. rewrite bool_decide_false by congruence. done.
  - destruct (IH (past ++ [x]) (kept ++ [x]) new) as (g & n & Ec & Hu'); [by rewrite <-app_assoc|done| |exists g, n; by rewrite <-app_assoc in Ec].
    pose proof (f_equal length (U4 (kind s x))) as L. rewrite Hf, length_drop in L. cbn [length] in L.
    split; [by apply sublist_app|done| |]; intros c; rewrite ?(of_kind_app s c kept [x]), (of_kind_app s c past [x]), of_kind_one; case_decide as Ek; rewrite ?app_nil_r; [|done| |done].
    + subst c. rewrite U3. by rewrite drop_app_le by lia.
    + subst c. rewrite Hf. symmetry. apply drop_ge. rewrite length_app. lia.
Qed.

Lemma cancel_all s gone new : distinct s gone -> distinct s new -> exists g n, cancel s gone gone new = Some (g, n) /\ unpaired s gone new g n.
Proof.
  intros Hg Hn. apply (cancel_unpaired s new gone [] [] new Hg Hn). split; try done. intros c. simpl. by rewrite drop_nil.
Qed.

(** C29: What [send_alerts] hands to an alert service for a policy.  Of the gone and
    the new alerts of the policy, those of a class with this policy and at or above the
    level of the service are taken, and for every class and key the gone and the new
    ones are paired in their order and dropped: they went away and came back.  When
    nothing is left nothing is sent; otherwise exactly the rest is sent, less the
    dismissed alerts, with all the current alerts of the level that are not dismissed
    and whose policy is not NEVER, unless there are no alerts at all to send.  The
    preparation never raises, when the type of the service is known. *)
Theorem notifications_exact rows0 n0 ls s at_us pt cls policy gone new svc svcs todo :
  registry_ok class_by_name -> table_ok rows0 n0 -> history (st0 rows0 n0) ls s ->
  pc s = Some (SServices at_us pt cls policy gone new (svc :: svcs) todo) -> svc_type svc ∈ service_types ->
  let want r := wanted_by pt cls (svc_level svc) policy (obj s r) in
  let undismissed := List.filter (not_dismissed s) in
  let current := undismissed (List.filter (fun r => wanted pt cls (svc_level svc) (obj s r)
                   && negb (String.eqb (get_alert_policy (obj s r) cls) "NEVER")) (alerts s)) in
  exists g n, unpaired s (List.filter want gone) (List.filter want new) g n /\
    prepare service_types s pt cls policy gone new svc =
      if bool_decide (g ++ n = []) || bool_decide (current ++ undismissed g ++ undismissed n = []) then Skip
      else Send current (undismissed g) (undismissed n).
Proof.
  intros Hreg Ht Hh Epc Hty want undismissed current.
  pose proof (history_inv _ _ _ _ _ _ Hreg _ _ _ (st0_inv _ rows0 n0 Ht) Hh) as Hi.
  pose proof (i_pc _ _ Hi) as Hpc. unfold pc_ok in Hpc. rewrite Epc in Hpc. destruct Hpc as [Hg Hn].
  assert (distinct s (List.filter want gone) /\ distinct s (List.filter want new)) as [Hg0 Hn0]
    by (split; (eapply distinct_sub; [apply filter_sublist|done])).
  destruct (cancel_all s _ _ Hg0 Hn0) as (g & n & Ec & Hu). exists g, n. split; [done|]. unfold prepare. fold want. rewrite Ec.
  rewrite bool_decide_true by done. fold undismissed. fold current. clearbody current. generalize (undismissed g), (undismissed n). intros ug un.
  destruct g, n; [done|..]; by destruct current, ug, un.
Qed.
End notify.
