(* ===== verification/AlertEvents.v ===== *)
(** * The events of [alert.list] mirror the list of alerts

    A client that subscribes to [alert.list] and reads the list once keeps its own
    copy by applying ADDED and REMOVED.  The copy agrees with the list whenever
    the notifications of the policy IMMEDIATELY have gone out, as long as no
    alert is deleted by a dismissal while they are being sent. *)

From S2P Require Import Prelude PyDict PyStr PyVal PyFormat Errors AlertBase Alerts AlertInv AlertSteps AlertFrames AlertProps AlertNotify.

(** The client applies an event to the uuids it shows. *)
Definition apply_event (m : gset (option uuid_t)) (ev : effect) : gset (option uuid_t) :=
  match ev with
  | EvAdded u _ => {[ u ]} ∪ m
  | EvRemoved u => m ∖ {[ u ]}
  | _ => m
  end.

Definition mirror (m : gset (option uuid_t)) (l : list effect) : gset (option uuid_t) := foldl apply_event m l.

Section events.
Context (class_by_name : list (string * AlertClass)) (e0 : Env).

Notation complete := (complete class_by_name).
Notation core_ok := (core_ok class_by_name).
Notation inv := (inv class_by_name).

(** Whether the alerts of this object's class are shown. *)
Definition shown (s : st) (r : nat) : bool := should_show_alert e0 (obj s r).

Lemma shown_class a b : complete a -> complete b -> identity a = identity b -> should_show_alert e0 a = should_show_alert e0 b.
Proof.
  intros [_ _ _ _ _ [Ha _] _] [_ _ _ _ _ [Hb _] _] E. unfold identity in E.
  assert (inst_name (instance a) = inst_name (instance b)) as En by congruence.
  assert (inst_class (instance a) = inst_class (instance b)) as Ec.
  { unfold inst_name in En. rewrite En in Ha. congruence. }
  unfold should_show_alert, has_product, acfg, cfg_of. by rewrite Ec, En.
Qed.

Lemma shown_uuid s r r' u : core_ok s -> uuid (obj s r) = Some u -> uuid (obj s r') = Some u -> shown s r = shown s r'.
Proof.
  intros Hc Hr Hr'. apply shown_class; [apply (k_complete _ _ Hc); by eexists..|].
  apply (k_fun _ _ Hc u); left; eauto.
Qed.

Lemma shown_grows s s' r : core_ok s -> core_ok s' -> grows s s' -> is_Some (uuid (obj s r)) -> shown s' r = shown s r.
Proof.
  intros Hc Hc' Hg Hu. destruct (g_obj _ _ Hg r Hu) as [Eu Ei]. apply shown_class; [|by apply (k_complete _ _ Hc)|done].
  apply (k_complete _ _ Hc'). by rewrite Eu.
Qed.

(** The uuids a snapshot shows. *)
Definition in_snap (s : st) (d : list (option uuid_t * nat)) (k : option uuid_t) : Prop :=
  exists r, (k, r) ∈ d /\ shown s r = true.

(** The uuids of the alerts of a list that are shown. *)
Definition in_list (s : st) (l : list nat) (k : option uuid_t) : Prop :=
  exists r, r ∈ l /\ uuid (obj s r) = k /\ shown s r = true.

Lemma in_snap_grows s s' d k : core_ok s -> core_ok s' -> grows s s' -> snap_ok s d -> in_snap s' d k <-> in_snap s d k.
Proof.
  intros Hc Hc' Hg [_ Hd]. rewrite Forall_forall in Hd. split; intros (r & Hr & Hs); exists r; (split; [done|]);
    destruct (Hd _ Hr) as [E Hk]; simpl in *; rewrite <-E in Hk; [rewrite <-Hs; symmetry|rewrite <-Hs]; by apply shown_grows.
Qed.

Lemma in_list_grows s s' l k : core_ok s -> core_ok s' -> grows s s' -> distinct s l -> in_list s' l k <-> in_list s l k.
Proof.
  intros Hc Hc' Hg [_ Hd]. rewrite Forall_forall in Hd.
  split; intros (r & Hr & E & Hs); exists r; destruct (g_obj _ _ Hg r (Hd r Hr)) as [Eu _]; split_and!; try done;
    try congruence; [rewrite <-Hs; symmetry|rewrite <-Hs]; apply shown_grows; auto.
Qed.

Lemma by_uuid_in_list s l k : distinct s l -> in_snap s (by_uuid (heap s) l) k <-> in_list s l k.
Proof.
  intros [Hnd _]. rewrite by_uuid_map by done. unfold in_snap, in_list. split.
  - intros (r & (r' & E & Hr)%list_elem_of_fmap & Hs). injection E as -> ->. eauto.
  - intros (r & Hr & <- & Hs). exists r. split; [|done]. apply list_elem_of_fmap. eauto.
Qed.

(** What [receive_alerts] announces leads from the old snapshot to the new one. *)
Lemma receive_mirror s at_us l p p' gone new k :
  core_ok s -> distinct s l -> snap_ok s (last_key_value_alerts p) -> policy_fun p at_us ≠ last_key_value p ->
  receive_alerts (heap s) at_us l p = (p', gone, new) ->
  (in_snap s (last_key_value_alerts p) k /\ ~ in_list s gone k) \/ in_list s new k <-> in_list s l k.
Proof.
  intros Hc Hl [Hwf Hd] Hkey. unfold receive_alerts. rewrite decide_False by done. intros [= _ <- <-].
  rewrite Forall_forall in Hd. set (old := last_key_value_alerts p) in *. set (bu := by_uuid (heap s) l).
  assert (forall k', Dict.mem k' bu = true <-> exists r, r ∈ l /\ uuid (obj s r) = k') as Hbu.
  { intros k'. rewrite Dict.mem_spec. unfold bu. rewrite by_uuid_map by apply Hl. unfold Dict.keys.
    change (map ?f ?l) with (f <$> l). rewrite <-list_fmap_compose, list_elem_of_fmap. simpl. naive_solver. }
  assert (Dict.values bu = l) as Ev.
  { unfold bu. rewrite by_uuid_map by apply Hl. unfold Dict.values. change (map ?f ?l) with (f <$> l).
    rewrite <-list_fmap_compose. apply list_fmap_id. }
  assert (forall r r', (uuid (obj s r), r') ∈ old -> r ∈ l -> shown s r = shown s r') as Hsame.
  { intros r r' Hr' Hr. destruct (Hd _ Hr') as [E [u Hu]]. simpl in *. apply (shown_uuid s r r' u Hc Hu). congruence. }
  split.
  - intros [[(r' & Hr' & Hs) Hng]|(r & Hr & E & Hs)].
    + destruct (Dict.mem k bu) eqn:Em.
      * apply Hbu in Em as (r & Hr & <-). exists r. split_and!; [done|done|]. by rewrite (Hsame r r').
      * destruct Hng. destruct (Hd _ Hr') as [E _]. simpl in E. exists r'. split_and!; [|done|done].
        apply elem_filter. change (heap s !!! r') with (obj s r'). rewrite E, Em. split; [done|].
        apply list_elem_of_fmap. by exists (k, r').
    + apply elem_filter in Hr as [_ Hr]. rewrite Ev in Hr. by exists r.
  - intros (r & Hr & E & Hs). destruct (Dict.mem k old) eqn:Em.
    + left. apply Dict.mem_spec, list_elem_of_fmap in Em as ([k' r'] & -> & Hr'). simpl in *. subst k'. split.
      * exists r'. split; [done|]. by rewrite <-(Hsame r r').
      * intros (x & Hx & Ex & _). apply elem_filter in Hx as [Hx _]. change (heap s !!! x) with (obj s x) in Hx.
        rewrite Ex in Hx. assert (Dict.mem (uuid (obj s r)) bu = true) as Em by (apply Hbu; eauto). by rewrite Em in Hx.
    + right. exists r. split_and!; [|done|done]. rewrite Ev. apply elem_filter. change (heap s !!! r) with (obj s r).
      by rewrite E, Em.
Qed.

(** The events at the end of the policy IMMEDIATELY. *)
Lemma emit_gone_mirror e l : forall s m,
  product_type e = product_type e0 -> classes e = classes e0 ->
  exists k, log (foldl (emit_gone e) s l) = log s ++ k /\ heap (foldl (emit_gone e) s l) = heap s
    /\ forall u, u ∈ mirror m k <-> u ∈ m /\ ~ in_list s l u.
Proof.
  intros s m Ep Ecl. revert s m. induction l as [|r l IH]; intros s m; simpl.
  { exists []. rewrite app_nil_r. split_and!; [done|done|]. intros u. unfold in_list. simpl. set_solver. }
  assert (should_show_alert e (obj s r) = shown s r) as Esh by (unfold shown, should_show_alert; by rewrite Ep, Ecl).
  unfold emit_gone at 2 4. rewrite Esh. destruct (shown s r) eqn:Hs.
  - destruct (IH (send_alert_deleted_event r s) (m ∖ {[ uuid (obj s r) ]})) as (k & -> & Eh & Hk).
    exists (EvRemoved (uuid (obj s r)) :: k). split_and!; [simpl; by rewrite <-app_assoc|done|]. intros u.
    change (mirror m (EvRemoved (uuid (obj s r)) :: k)) with (mirror (m ∖ {[ uuid (obj s r) ]}) k). rewrite Hk.
    unfold in_list. change (shown (send_alert_deleted_event r s)) with (shown s). change (obj (send_alert_deleted_event r s)) with (obj s).
    rewrite elem_of_difference, elem_of_singleton. setoid_rewrite elem_of_cons. naive_solver.
  - destruct (IH s m) as (k & -> & Eh & Hk). exists k. split_and!; [done|done|]. intros u. rewrite Hk. unfold in_list.
    setoid_rewrite elem_of_cons. naive_solver congruence.
Qed.

Lemma emit_new_mirror e l : forall s m,
  product_type e = product_type e0 -> classes e = classes e0 -> Forall (fun r => complete (obj s r)) l ->
  exists k s', emit_new e l s = (s', true) /\ log s' = log s ++ k /\ logs_only s s'
    /\ forall u, u ∈ mirror m k <-> u ∈ m \/ in_list s l u.
Proof.
  intros s m Ep Ecl. revert s m. induction l as [|r l IH]; intros s m Hco; simpl.
  { exists [], s. rewrite app_nil_r. split_and!; [done|done|done|]. intros u. unfold in_list. simpl. set_solver. }
  apply Forall_cons in Hco as [Hr Hco].
  assert (should_show_alert e (obj s r) = shown s r) as Esh by (unfold shown, should_show_alert; by rewrite Ep, Ecl).
  rewrite Esh. destruct (shown s r) eqn:Hs.
  - destruct (serialize_total _ e _ Hr) as [f ->].
    destruct (IH (emit (EvAdded (uuid (obj s r)) f) s) ({[ uuid (obj s r) ]} ∪ m) Hco) as (k & s' & -> & El & Hlo & Hk).
    exists (EvAdded (uuid (obj s r)) f :: k), s'. split_and!; [done|rewrite El; simpl; by rewrite <-app_assoc| |].
    + etrans; [apply emit_logs|done].
    + intros u. change (mirror m (EvAdded (uuid (obj s r)) f :: k)) with (mirror ({[ uuid (obj s r) ]} ∪ m) k). rewrite Hk.
      unfold in_list. change (shown (emit (EvAdded (uuid (obj s r)) f) s)) with (shown s).
      change (obj (emit (EvAdded (uuid (obj s r)) f) s)) with (obj s).
      rewrite elem_of_union, elem_of_singleton. setoid_rewrite elem_of_cons. naive_solver.
  - destruct (IH s m Hco) as (k & s' & -> & El & Hlo & Hk). exists k, s'. split_and!; [done|done|done|]. intros u. rewrite Hk. unfold in_list.
    setoid_rewrite elem_of_cons. naive_solver congruence.
Qed.

(** ** The copy of the client *)

Definition IMM : string := "IMMEDIATELY".

(** The notifications of the policy IMMEDIATELY are being sent. *)
Definition at_imm (s : st) : bool :=
  match pc s with Some (SServices _ _ _ pol _ _ _ _) => String.eqb pol IMM | _ => false end.

Definition pending (s : st) : list nat * list nat :=
  match pc s with Some (SServices _ _ _ _ gone new _ _) => (gone, new) | _ => ([], []) end.

(** The copy [m] is the snapshot; while the notifications are being sent, it will
    be once they have been applied, and the snapshot is the list of alerts. *)
Definition mirrors (s : st) (m : gset (option uuid_t)) : Prop :=
  exists p, Dict.get IMM (policies s) = Some p /\
    let snap := in_snap s (last_key_value_alerts p) in
    if at_imm s then
      (forall k, (k ∈ m /\ ~ in_list s (pending s).1 k) \/ in_list s (pending s).2 k <-> in_list s (alerts s) k)
      /\ (forall k, snap k <-> in_list s (alerts s) k)
    else forall k, k ∈ m <-> snap k.

(** A step that leaves the snapshot alone. *)
Lemma mirrors_grows s s' m :
  inv s -> core_ok s' -> grows s s' -> policies s' = policies s ->
  (at_imm s = false /\ at_imm s' = false \/ at_imm s' = at_imm s /\ pending s' = pending s /\ alerts s' = alerts s) ->
  mirrors s m -> mirrors s' m.
Proof.
  intros Hi Hc' Hg Ep Hcase (p & Hp & H). exists p. rewrite Ep. split; [done|].
  assert (snap_ok s (last_key_value_alerts p)) as Hsn.
  { pose proof (i_pols _ _ Hi) as Hpo. unfold pols_ok in Hpo. rewrite Forall_forall in Hpo.
    apply (Hpo (IMM, p)). by apply Dict.get_Some_elem. }
  pose proof (fun k => in_snap_grows s s' (last_key_value_alerts p) k (i_core _ _ Hi) Hc' Hg Hsn) as Hsnap. simpl in *.
  destruct Hcase as [[E E']|(E & Epend & Ea)].
  - rewrite E in H. rewrite E'. intros k. by rewrite Hsnap.
  - rewrite E. destruct (at_imm s) eqn:Hat; [|intros k; by rewrite Hsnap].
    assert (distinct s (pending s).1 /\ distinct s (pending s).2) as [Hd1 Hd2].
    { pose proof (i_pc _ _ Hi) as Hpc. unfold pc_ok in Hpc. unfold at_imm in Hat. unfold pending.
      destruct (pc s) as [[]|]; try done. }
    pose proof (listed_distinct _ _ _ (i_core _ _ Hi) (i_alerts _ _ Hi)) as Hda. destruct H as [H1 H2].
    rewrite Epend, Ea. split; intros k.
    + rewrite (in_list_grows s s' (pending s).1 k), (in_list_grows s s' (pending s).2 k), (in_list_grows s s' (alerts s) k); try done; apply Hi.
    + rewrite Hsnap, (in_list_grows s s' (alerts s) k); try done. apply Hi.
Qed.

(** A deletion by a dismissal, outside of the notifications. *)
Lemma delete_mirrors r s m :
  inv s -> at_imm s = false -> r ∈ alerts s -> mirrors s m ->
  log (delete_on_dismiss r s) = log s ++ [EvRemoved (uuid (obj s r))] /\ mirrors (delete_on_dismiss r s) (m ∖ {[ uuid (obj s r) ]}).
Proof.
  intros Hi Hat Hr (p & Hp & H). rewrite Hat in H.
  destruct (remove_elem s r (alerts s) (listed_distinct _ _ _ (i_core _ _ Hi) (i_alerts _ _ Hi)) Hr) as (l & El & _).
  unfold delete_on_dismiss. rewrite El. split; [done|].
  exists (delete_alert (uuid (obj s r)) p). split.
  { simpl. clear -Hp. induction (policies s) as [|[n q] d IH]; simpl in *; [done|]. case_decide; [congruence|auto]. }
  cbv zeta. change (at_imm _) with (at_imm s). rewrite Hat. intros k. rewrite elem_of_difference, elem_of_singleton, H.
  assert (snap_ok s (last_key_value_alerts p)) as [Hwf _].
  { pose proof (i_pols _ _ Hi) as Hpo. unfold pols_ok in Hpo. rewrite Forall_forall in Hpo.
    apply (Hpo (IMM, p)). by apply Dict.get_Some_elem. }
  unfold in_snap, delete_alert. simpl. change (shown (send_alert_deleted_event r ?x)) with (shown s). split.
  - intros [(x & Hx & Hs) Hne]. exists x. split; [|done]. apply Dict.get_Some_elem.
    rewrite Dict.get_pop_ne by congruence. by apply Dict.elem_get.
  - intros (x & Hx & Hs). split.
    + exists x. split; [|done]. eapply elem_of_sublist; [exact Hx|apply Dict.pop_sublist].
    + intros ->. assert (uuid (obj s r) ∈ Dict.keys (Dict.pop (uuid (obj s r)) (last_key_value_alerts p))) as Hin.
      { apply list_elem_of_fmap. by exists (uuid (obj s r), x). }
      apply Dict.elem_keys_pop in Hin; [|done]. by destruct Hin.
Qed.
End events.

Section client.
Context (alert_sources : list AlertSource) (class_by_name : list (string * AlertClass)) (service_types : list string).
Context (repr_instance : AlertClass -> json -> string) (utcoffset : Z -> Z) (EALERTCHECKERUNAVAILABLE : Z) (e0 : Env).

Notation exec := (exec alert_sources class_by_name service_types utcoffset EALERTCHECKERUNAVAILABLE repr_instance).
Notation admissible := (admissible alert_sources class_by_name EALERTCHECKERUNAVAILABLE).
Notation inv := (inv class_by_name).
Notation mirrors := (mirrors e0).
Notation history := (history alert_sources class_by_name service_types repr_instance utcoffset EALERTCHECKERUNAVAILABLE).

(** Outside of the job steps of a notification, the pending notifications stay. *)
Lemma exec_at_imm l s s' :
  exec l s = Some s' -> writes_log l = false -> writes_policies l = false ->
  at_imm s = false /\ at_imm s' = false \/ at_imm s' = at_imm s /\ pending s' = pending s /\ alerts s' = alerts s.
Proof.
  intros E Hw Hp. destruct (job_step l) eqn:Hj.
  - left. destruct l; try done; simpl in E; unfold at_imm.
    + unfold process_start in E. destruct (pc s) eqn:Ep; [done|]. split; [done|].
      destruct (should_run_or_send_alerts e); [|injection E as <-; by rewrite Ep].
      destruct (deepcopy _ _). by injection E as <-.
    + unfold run_prologue in E. destruct (pc s) as [[]|]; try done. split; [done|].
      destruct (unblock_expired _ _ _) as [s1 []]; injection E as <-; done.
    + unfold check_done in E. destruct (pc s) as [[]|]; try done. split; [done|].
      destruct (run_source_ _ _ _ s) as [s1 ro]. destruct (_ && _); by injection E as <-.
    + unfold remote_done in E. destruct (pc s) as [[]|]; try done. split; [done|].
      destruct (run_other_node_alert_source _ _ _ _ s) as [s1 other]. by injection E as <-.
    + unfold run_end in E. destruct (pc s) as [[|v pt fi [|src todo]| | | | |]|]; try done. split; [done|].
      destruct (expire_alerts _ _); by injection E as <-.
    + unfold process_end in E. destruct (pc s) as [[]|]; try done. split; [done|]. injection E as <-.
      by destruct (should_run_or_send_alerts e).
    + unfold send_start in E. destruct (pc s) eqn:Ep; [done|]. split; [done|]. injection E as <-.
      destruct (String.eqb _ _); [done|]. simpl. by rewrite Ep.
  - pose proof (exec_pc _ _ _ _ _ _ l s s' E Hj) as Epc. unfold at_imm, pending. rewrite Epc.
    destruct (pc s) as [j|] eqn:Ep; [|by left]. right. split_and!; [done|done|].
    destruct l; try done; simpl in E.
    + injection E as <-. unfold block_source. by case_bool_decide.
    + injection E as <-. symmetry. apply unblock_source_frame.
    + by injection E as <-.
    + injection E as <-. unfold alert_source_clear_run. by case_bool_decide.
    + injection E as <-. unfold run_source. case_bool_decide; [|done].
      assert (alerts (run_source_ n run_time res s).1 = alerts s) as Ha.
      { rewrite run_source_eq. destruct (noted_frame n run_time res s) as [_ Hs]. destruct (constructed n res); [|symmetry; apply Hs].
        assert (forall l x, alerts (alloc_all l x).1 = alerts x) as Hall.
        { intros k. induction k as [|a k IH]; intros x; [done|]. rewrite alloc_all_cons.
          destruct (alloc a x) as [x1 r] eqn:Ea. pose proof (alloc_frame _ _ _ _ Ea) as ->.
          specialize (IH (set_next_ref (S (next_ref x)) (put (next_ref x) (a (next_ref x)) x))). destruct (alloc_all k _). exact IH. }
        specialize (Hall (map construct l) (noted n run_time res s)). destruct (alloc_all _ _) as [s1 rs]. simpl in *.
        destruct (set_sources_of_frame n (unique_by_key s1 [] rs) s1) as [[<- _] _]. rewrite Hall. symmetry. apply Hs. }
      destruct (run_source_ n run_time res s) as [s1 []]; exact Ha.
    + by rewrite Ep in E.
    + by rewrite Ep in E.
    + injection E as <-. unfold flush_alerts. by destruct (_ && _).
Qed.

(** The steps during which the copy of the client is followed: the configuration
    of the classes does not change, the service is not started over, the clock
    has advanced since the last notification, the types of the services are
    known, and no alert is deleted by a dismissal while the notifications of the
    policy IMMEDIATELY are being sent, or after the check replaced it. *)
Definition calm (l : label) (s : st) : Prop :=
  match l with
  | LInitialize _ _ => False
  | LPolicy _ => forall at_us pt cls todo p, pc s = Some (SLoop at_us pt cls (IMM :: todo)) ->
      Dict.get IMM (policies s) = Some p -> policy_fun p at_us ≠ last_key_value p
  | LService => at_imm s = true -> forall at_us pt cls pol gone new svc svcs todo,
      pc s = Some (SServices at_us pt cls pol gone new (svc :: svcs) todo) -> svc_type svc ∈ service_types
  | LPolicyEnd e _ _ => product_type e = product_type e0 /\ classes e = classes e0
  | LDismiss _ u => at_imm s = true -> forall r, alert_by_uuid u s = Some r ->
      is_dismissable (inst_class (instance (obj s r))) = false ->
      is_oneshot (inst_class (instance (obj s r))) && negb (deleted_automatically (acfg (obj s r))) = false
  | LDismissed i left_alerts => at_imm s = false /\ forall a rel r, dismissals s !! i = Some (a, rel) -> r ∈ rel ->
      isin s r left_alerts = false -> r ∈ alerts s
  | _ => True
  end.

Context (Hreg : registry_ok class_by_name).

Lemma mirror_app m k k' : mirror m (k ++ k') = mirror (mirror m k) k'.
Proof. unfold mirror. by rewrite foldl_app. Qed.

(** The dismissal of an alert that stays in the list. *)
Lemma flag_mirrors e r b s m :
  inv s -> r ∈ alerts s -> mirrors s m ->
  exists k, log (send_alert_changed_event e r (put r (set_dismissed b (obj s r)) s)) = log s ++ k
    /\ mirrors (send_alert_changed_event e r (put r (set_dismissed b (obj s r)) s)) (mirror m k).
Proof.
  intros Hi Hr Hm. set (s1 := put r (set_dismissed b (obj s r)) s).
  assert (inv s1) as Hi1 by (by apply set_dismissed_inv).
  assert (grows s s1) as Hg.
  { constructor; [done|done|]. intros r' _. unfold s1. rewrite obj_put. by case_decide; subst. }
  assert (mirrors s1 m) as Hm1 by (apply (mirrors_grows class_by_name e0 s); [done|apply Hi1|done|done|by right|done]).
  unfold send_alert_changed_event. destruct (should_show_alert e (obj s1 r)).
  - destruct (serialize e (obj s1 r)) as [f|].
    + exists [EvChanged (uuid (obj s1 r)) f]. split; [done|]. exact Hm1.
    + exists []. by rewrite app_nil_r.
  - exists []. by rewrite app_nil_r.
Qed.

(** An alert that may be deleted: it is in the list, or nothing is left of it. *)
Definition deletable (s : st) (r : nat) : Prop :=
  r ∈ alerts s
  \/ (forall x, x ∈ alerts s -> uuid (obj s x) ≠ uuid (obj s r))
     /\ forall p, Dict.get IMM (policies s) = Some p -> uuid (obj s r) ∉ Dict.keys (last_key_value_alerts p).

Lemma remove_None s r l : (forall x, x ∈ l -> uuid (obj s x) ≠ uuid (obj s r)) -> remove s r l = None.
Proof.
  induction l as [|x l IH]; intros H; simpl; [done|]. destruct (same s r x) eqn:E.
  - destruct (H x ltac:(by left)). unfold same in E. apply orb_true_iff in E as [E|E].
    + by apply bool_decide_eq_true in E as <-.
    + symmetry. by apply alert_eqb_uuid.
  - rewrite IH; [done|]. intros y Hy. apply H. by right.
Qed.

Lemma get_map_policies f n s : Dict.get n (policies (map_policies f s)) = f <$> Dict.get n (policies s).
Proof. simpl. induction (policies s) as [|[k q] d IH]; simpl; [done|]. by case_decide. Qed.

Lemma delete_policies r s n :
  Dict.get n (policies (delete_on_dismiss r s)) = delete_alert (uuid (obj s r)) <$> Dict.get n (policies s).
Proof.
  unfold delete_on_dismiss. destruct (remove s r (alerts s)) as [l|]; [|apply get_map_policies].
  exact (get_map_policies (delete_alert (uuid (obj s r))) n (set_alerts l s)).
Qed.

Lemma deletable_after r x s : inv s -> deletable s r -> deletable s x -> deletable (delete_on_dismiss r s) x.
Proof.
  intros Hi Hr Hx. destruct (delete_on_dismiss_core r s) as [Ec _].
  assert (forall y, obj (delete_on_dismiss r s) y = obj s y) as Ho by (intros y; unfold obj; by injection Ec as ->).
  assert (forall k p, Dict.get IMM (policies (delete_on_dismiss r s)) = Some p -> k ∈ Dict.keys (last_key_value_alerts p) ->
            exists p0, Dict.get IMM (policies s) = Some p0 /\ k ∈ Dict.keys (last_key_value_alerts p0) /\ k ≠ uuid (obj s r)) as Hpol.
  { intros k p Hp Hk. rewrite delete_policies in Hp. apply fmap_Some in Hp as (p0 & Hp0 & ->). exists p0. split; [done|].
    simpl in Hk. apply Dict.elem_keys_pop in Hk; [tauto|].
    pose proof (i_pols _ _ Hi) as Hpo. unfold pols_ok in Hpo. rewrite Forall_forall in Hpo.
    apply (Hpo (IMM, p0)). by apply Dict.get_Some_elem. }
  pose proof (listed_distinct _ _ _ (i_core _ _ Hi) (i_alerts _ _ Hi)) as Hd.
  destruct Hx as [Hx|[Hx1 Hx2]].
  - destruct (decide (x = r)) as [->|Hne].
    + destruct (remove_elem s r (alerts s) Hd Hx) as (l & El & Hsub & Hni & _). right. rewrite Ho. split.
      * intros y Hy E. rewrite Ho in E.
        assert (alerts (delete_on_dismiss r s) = l) as Ea by (unfold delete_on_dismiss; by rewrite El). rewrite Ea in Hy.
        assert (y = r) as ->; [|done]. apply (listed_uuid_inj _ s (alerts s) y r (i_core _ _ Hi) (i_alerts _ _ Hi)); [|done|done].
        by eapply elem_of_sublist.
      * intros p Hp Hk. by destruct (Hpol _ p Hp Hk) as (p0 & _ & _ & ?).
    + left. unfold delete_on_dismiss. destruct Hr as [Hr|[Hr _]].
      * destruct (remove_elem s r (alerts s) Hd Hr) as (l & -> & _ & _ & Hk). simpl. auto.
      * by rewrite (remove_None s r (alerts s) Hr).
  - right. rewrite Ho. split.
    + intros y Hy. rewrite Ho. apply Hx1. eapply elem_of_sublist; [exact Hy|apply delete_on_dismiss_sub].
    + intros p Hp Hk. destruct (Hpol _ p Hp Hk) as (p0 & Hp0 & Hk0 & _). by apply (Hx2 p0).
Qed.

Lemma dismiss_finish_mirrors left_alerts rel : forall s m,
  inv s -> at_imm s = false -> (forall r, r ∈ rel -> isin s r left_alerts = false -> deletable s r) -> mirrors s m ->
  let s' := foldl (fun s r => if isin s r left_alerts then s else delete_on_dismiss r s) s rel in
  exists k, log s' = log s ++ k /\ mirrors s' (mirror m k).
Proof.
  induction rel as [|r rel IH]; intros s m Hi Hat Hrel Hm; simpl.
  { exists []. by rewrite app_nil_r. }
  destruct (isin s r left_alerts) eqn:Eis.
  { apply IH; [done|done| |done]. intros x Hx. apply Hrel. by right. }
  assert (deletable s r) as Hr by (apply Hrel; [by left|done]).
  assert (exists k, log (delete_on_dismiss r s) = log s ++ k /\ mirrors (delete_on_dismiss r s) (mirror m k)) as (k & Hk & Hmk).
  { destruct Hr as [Hr|[Hr1 Hr2]].
    - destruct (delete_mirrors class_by_name e0 r s m Hi Hat Hr Hm). by exists [EvRemoved (uuid (obj s r))].
    - exists []. rewrite app_nil_r. assert (remove s r (alerts s) = None) as El by (by apply remove_None).
      unfold delete_on_dismiss. rewrite El. split; [done|]. destruct Hm as (p & Hp & H). exists (delete_alert (uuid (obj s r)) p).
      rewrite get_map_policies, Hp. split; [done|]. cbv zeta in *. change (at_imm (map_policies ?f s)) with (at_imm s). rewrite Hat in *.
      unfold delete_alert. simpl. rewrite Dict.pop_notin by (by apply Hr2). exact H. }
  destruct (delete_on_dismiss_core r s) as [Ec Ep].
  destruct (IH (delete_on_dismiss r s) (mirror m k)) as (k' & Hk' & Hm').
  - by apply delete_on_dismiss_inv.
  - unfold at_imm in *. by rewrite Ep.
  - intros x Hx Ex. apply deletable_after; [done|done|]. apply Hrel; [by right|].
    unfold isin, same, obj in *. by injection Ec as <-.
  - done.
  - exists (k ++ k'). by rewrite Hk', Hk, app_assoc, mirror_app.
Qed.

(** Effects that are not events of the list. *)
Definition no_event (s s' : st) : Prop := exists k, s' = set_log (log s ++ k) s /\ forall m, mirror m k = m.

#[local] Instance no_event_preorder : PreOrder no_event.
Proof.
  split; [intros s; exists []; destruct s; simpl; by rewrite app_nil_r|].
  intros s1 s2 s3 (k & -> & H) (k' & -> & H'). exists (k ++ k'). split; [by rewrite app_assoc|].
  intros m. by rewrite mirror_app, H, H'.
Qed.

Lemma send_mails_no_event mail_send l : forall s, no_event s (send_mails mail_send l s).1.
Proof.
  induction l as [|r l IH]; intros s; simpl; [done|]. destruct (truthy _); [|apply IH].
  destruct (mail_send _) as [|[]]; try done.
  - etrans; [|apply IH]. eexists [_]. by split.
  - destruct (String.eqb _ _); [apply IH|done].
Qed.

Lemma open_ticket_no_event e b gone new s : no_event s (open_ticket e b gone new s).
Proof. unfold open_ticket. destruct (is_enterprise e); [|done]. repeat case_match; try done; (eexists [_]; by split). Qed.

Lemma logged_mirrors s k p m : at_imm s = false -> at_imm (set_pc p s) = false -> mirrors s m -> mirrors (set_pc p (set_log k s)) m.
Proof. intros H1 H2 (q & Hq & H). exists q. split; [done|]. cbv zeta in *. change (at_imm (set_pc p (set_log k s))) with (at_imm (set_pc p s)). by rewrite H1 in H; rewrite H2. Qed.

(** Nothing raises when the type of the service is known. *)
Lemma prepare_total s pt cls pol gone new svc :
  inv s -> distinct s gone /\ distinct s new -> svc_type svc ∈ service_types ->
  prepare service_types s pt cls pol gone new svc ≠ SendError.
Proof.
  intros Hi [Hg Hn] Hty. unfold prepare. set (g0 := List.filter _ gone). set (n0 := List.filter _ new).
  assert (distinct s g0 /\ distinct s n0) as [Hg0 Hn0] by (split; (eapply distinct_sub; [apply filter_sublist|done])).
  destruct (cancel_all s g0 n0 Hg0 Hn0) as (g & n & -> & _).
  rewrite bool_decide_true by done. repeat case_match; done.
Qed.

(** The end of the policy: the copy becomes the snapshot, which is the list. *)
Lemma policy_end_mirrors e ms b s s' m :
  inv s -> calm (LPolicyEnd e ms b) s -> mirrors s m -> send_policy_end e ms b s = Some s' ->
  exists k, log s' = log s ++ k /\ mirrors s' (mirror m k) /\ alerts s' = alerts s
    /\ (at_imm s = true -> forall u, u ∈ mirror m k <-> in_list e0 s' (alerts s') u).
Proof.
  intros Hi [Ept Ecl] Hm. unfold send_policy_end. destruct (pc s) as [[| | | | | |at_us pt cls pol gone new [|svc svcs] todo]|] eqn:Ep; try done.
  pose proof (i_pc _ _ Hi) as Hpc. unfold pc_ok in Hpc. rewrite Ep in Hpc. destruct Hpc as [_ Hn].
  destruct (String.eqb pol "IMMEDIATELY") eqn:Epol.
  2: { assert (at_imm s = false) as Hat by (unfold at_imm; by rewrite Ep). intros [= <-]. exists []. rewrite app_nil_r.
       split_and!; [done| |done|by rewrite Hat]. destruct s. by apply (logged_mirrors (mkSt _ _ _ _ _ _ _ _ _ _ _ _ _ _ log _ _)). }
  assert (at_imm s = true) as Hat by (unfold at_imm; by rewrite Ep).
  destruct (emit_gone_mirror e0 e gone s m Ept Ecl) as (kg & Lg & Hg & Mg).
  assert (logs_only s (foldl (emit_gone e) s gone)) as [kk Esg] by apply emit_gone_logs.
  set (sg := foldl (emit_gone e) s gone) in *.
  assert (Forall (fun r => AlertInv.complete class_by_name (obj sg r)) new) as Hco.
  { rewrite Esg. eapply Forall_impl; [apply (proj2 Hn)|]. apply (k_complete _ _ (i_core _ _ Hi)). }
  destruct (emit_new_mirror class_by_name e0 e new sg (mirror m kg) Ept Ecl Hco) as (kn & sn & En & Ln & [kk' Esn] & Mn).
  rewrite En.
  pose proof (send_mails_no_event ms new sn) as Hms. destruct (send_mails ms new sn) as [sm ok]. simpl in Hms. intros E.
  assert (exists sf p, s' = set_pc p sf /\ no_event sn sf /\ forall x, at_imm (set_pc p x) = false) as (sf & p & -> & (ko & Esf & Ho) & Hp).
  { destruct ok; injection E as <-; eexists _, _; (split_and!; [reflexivity| |done]); [|done].
    etrans; [exact Hms|apply open_ticket_no_event]. }
  clear E Hms En. destruct Hm as (q & Hq & H). rewrite Hat in H. destruct H as [H1 H2].
  assert (heap sf = heap s /\ alerts sf = alerts s /\ policies sf = policies s) as (Eh & Ea & Epo).
  { rewrite Esf. simpl. rewrite Esn. simpl. by rewrite Esg. }
  assert (forall u, in_list e0 s gone u <-> in_list e0 s (pending s).1 u) as Hpg by (unfold pending; by rewrite Ep).
  assert (forall u, in_list e0 s new u <-> in_list e0 s (pending s).2 u) as Hpn by (unfold pending; by rewrite Ep).
  assert (forall u, u ∈ mirror m (kg ++ kn ++ ko) <-> in_list e0 s (alerts s) u) as HM.
  { intros u. rewrite !mirror_app, Ho, Mn, Mg, <-H1, Hpg.
    assert (in_list e0 sg new u <-> in_list e0 s new u) as -> by (unfold in_list, shown, obj; by rewrite Hg). by rewrite Hpn. }
  exists (kg ++ kn ++ ko). split_and!.
  - simpl. rewrite Esf. simpl. by rewrite Ln, Lg, !app_assoc.
  - exists q. simpl. rewrite Epo. split; [done|]. rewrite Hp. intros k. rewrite HM, <-H2. unfold in_snap, shown, obj. simpl. by rewrite Eh.
  - done.
  - intros _ u. rewrite HM. simpl. unfold in_list, shown, obj. simpl. by rewrite Eh, Ea.
Qed.

Lemma exec_mirrors l s s' m :
  inv s -> admissible l s -> calm l s -> mirrors s m -> exec l s = Some s' ->
  exists k, log s' = log s ++ k /\ mirrors s' (mirror m k).
Proof.
  intros Hi Hadm Hcalm Hm E. pose proof E as E0. destruct (exec_ok _ _ _ _ _ _ l s s' Hreg Hi Hadm E) as (Hi' & Hg & _).
  destruct (exec_frame _ _ _ _ _ _ l s s' E) as (_ & _ & Hlog & Hpol).
  destruct (writes_log l) eqn:Hwl, (writes_policies l) eqn:Hwp.
  4: { exists []. rewrite app_nil_r. split; [auto|]. apply (mirrors_grows class_by_name e0 s); [done|apply Hi'|done|auto| |done].
       by apply (exec_at_imm l). }
  - destruct l; try done; simpl in E.
    + injection E as <-. unfold dismiss. destruct (alert_by_uuid u s) as [r|] eqn:Er; [|exists []; by rewrite app_nil_r].
      pose proof (alert_by_uuid_Some _ _ _ Er) as [Hr _]. destruct (is_dismissable _) eqn:Edis; [exists []; by rewrite app_nil_r|].
      destruct (_ && _) eqn:Eos; [|by apply flag_mirrors].
      destruct (at_imm s) eqn:Hat; [simpl in Hcalm; by rewrite (Hcalm Hat r Er Edis) in Eos|].
      destruct (delete_mirrors class_by_name e0 r s m Hi Hat Hr Hm). by exists [EvRemoved (uuid (obj s r))].
    + unfold dismiss_finish in E. destruct (dismissals s !! i) as [[a rel]|] eqn:Ed; [|done]. injection E as <-.
      destruct Hcalm as [Hat Hrel]. set (s0 := set_dismissals (delete i (dismissals s)) s).
      apply (dismiss_finish_mirrors left_alerts rel s0 m); [by apply (alert_inv_frame class_by_name s)|done| |done].
      intros r Hr Eis. left. by apply (Hrel a rel r).
  - destruct l; try done; simpl in E.
    + unfold source_next in E. destruct (pc s) as [[|v pt fi [|src todo]| | | | |]|] eqn:Ep; try done.
      assert (at_imm s = false) as Hat by (unfold at_imm; by rewrite Ep).
      destruct (exec_log _ _ _ _ _ _ (LSource e) s s' "" E0) as (k & Hk & _).
      assert (at_imm s' = false /\ forall m, mirror m k = m) as [Hat' Hmk].
      { destruct (due _ _ _ _ _ _); [destruct (handle_locked_alert_source _ _ _) as [[this other]|]|]; injection E as <-; (split; [done|]).
        - pose proof (merge_rest e fi (src_name src) this other (set_alert_source_last_run (Dict.set (src_name src) (now e) (alert_source_last_run s)) s)) as [= X1 X2 X3 X4 X5 X6].
          simpl in Hk. rewrite X4 in Hk. simpl in Hk. assert (k = []) as -> by (by apply (app_inv_head (log s)); rewrite app_nil_r). done.
        - simpl in Hk. apply app_inv_head in Hk as <-. done.
        - simpl in Hk. assert (k = []) as -> by (by apply (app_inv_head (log s)); rewrite app_nil_r). done. }
      exists k. split; [done|]. rewrite Hmk. apply (mirrors_grows class_by_name e0 s); [done|apply Hi'|done|auto|by left|done].
    + unfold send_service in E. destruct (pc s) as [[| | | | | |at_us pt cls pol gone new [|svc svcs] todo]|] eqn:Ep; try done.
      injection E as <-. assert (exists k, mirror m k = m /\ log s ++ k = log
        (match prepare service_types s pt cls pol gone new svc with
         | SendError => set_pc None s
         | Skip => set_pc (Some (SServices at_us pt cls pol gone new svcs todo)) s
         | Send a g n => set_pc (Some (SServices at_us pt cls pol gone new svcs todo))
                  (emit (EvSent (svc_name svc) pol (map (obj s) a) (map (obj s) g) (map (obj s) n)) s) end)) as (k & Hmk & Hk).
      { destruct (prepare _ _ _ _ _ _ _ _); [exists []|eexists [EvSent _ _ _ _ _]|exists []];
          (split; [done|]); [by rewrite app_nil_r|reflexivity|by rewrite app_nil_r]. }
      exists k. split; [done|]. rewrite Hmk.
      apply (mirrors_grows class_by_name e0 s); [done|apply Hi'|done|auto| |done].
      destruct (at_imm s) eqn:Hat.
      * right. pose proof (Hcalm Hat at_us pt cls pol gone new svc svcs todo Ep) as Hty.
        assert (prepare service_types s pt cls pol gone new svc ≠ SendError) as Hne.
        { apply prepare_total; [done| |done]. pose proof (i_pc _ _ Hi) as Hpc. unfold pc_ok in Hpc. by rewrite Ep in Hpc. }
        unfold at_imm, pending in *. rewrite Ep in Hat. rewrite Ep. destruct (prepare _ _ _ _ _ _ _ _); done.
      * left. split; [done|]. unfold at_imm in *. rewrite Ep in Hat. by destruct (prepare _ _ _ _ _ _ _ _).
    + destruct (policy_end_mirrors e mail_send support_enabled s s' m Hi Hcalm Hm E) as (k & H1 & H2 & _). eauto.
    + injection E as <-. unfold restore. destruct (alert_by_uuid u s) as [r|] eqn:Er; [|exists []; by rewrite app_nil_r].
      apply alert_by_uuid_Some in Er as [Hr _]. by apply flag_mirrors.
  - destruct l; try done; simpl in E.
    exists []. rewrite app_nil_r. split; [auto|].
    unfold send_policy in E. destruct (pc s) as [[| | | | |at_us pt cls [|n todo]|]|] eqn:Ep; try done.
    { injection E as <-. apply (mirrors_grows class_by_name e0 s); [done|apply Hi'|done|done| |done]. left. unfold at_imm. by rewrite Ep. }
    destruct (Dict.get n (policies s)) as [p|] eqn:En; [|done].
    destruct (receive_alerts (heap s) at_us (alerts s) p) as [[p' gone] new] eqn:Er. injection E as <-.
    destruct Hm as (q & Hq & H). cbv zeta in H. assert (at_imm s = false) as Hat by (unfold at_imm; by rewrite Ep). rewrite Hat in H.
    destruct (decide (n = IMM)) as [->|Hne].
    + rewrite Hq in En. injection En as ->. exists p'. simpl. rewrite Dict.get_set_eq. split; [done|].
      pose proof (listed_distinct _ _ _ (i_core _ _ Hi) (i_alerts _ _ Hi)) as Hd.
      pose proof (Hcalm at_us pt cls todo p Ep Hq) as Hkey.
      assert (snap_ok s (last_key_value_alerts p)) as Hsn.
      { pose proof (i_pols _ _ Hi) as Hpo. unfold pols_ok in Hpo. rewrite Forall_forall in Hpo.
        apply (Hpo (IMM, p)). by apply Dict.get_Some_elem. }
      split; intros k.
      * rewrite <-(receive_mirror class_by_name e0 s at_us (alerts s) p p' gone new k (i_core _ _ Hi) Hd Hsn Hkey Er). rewrite H. done.
      * unfold receive_alerts in Er. rewrite decide_False in Er by done. injection Er as <- _ _. simpl.
        apply (by_uuid_in_list e0 s (alerts s) k Hd).
    + exists q. simpl. rewrite Dict.get_set_ne by done. split; [done|]. unfold at_imm. simpl.
      destruct (String.eqb_spec n IMM); [done|]. exact H.
Qed.

(** The steps after the client has read the list. *)
Inductive calm_run (s0 : st) : st -> Prop :=
| calm_nil : calm_run s0 s0
| calm_snoc (s : st) (l : label) (s' : st) :
    calm_run s0 s -> admissible l s -> calm l s -> exec l s = Some s' -> calm_run s0 s'.

Lemma initialize_mirrors e load s m :
  inv s -> sending s = false ->
  let s' := initialize alert_sources class_by_name e load s in
  (forall k, k ∈ m <-> in_list e0 s' (alerts s') k) -> mirrors s' m.
Proof.
  intros Hi Hsend s' Hm. pose proof (initialize_inv alert_sources class_by_name e load s Hreg Hi) as Hi'. fold s' in Hi'.
  assert (exec (LInitialize e load) s = Some s') as E by (simpl; by rewrite Hsend).
  pose proof (exec_pc _ _ _ _ _ _ (LInitialize e load) s s' E eq_refl) as Ep.
  assert (at_imm s' = false) as Hat.
  { unfold at_imm. rewrite Ep. unfold sending in Hsend. by destruct (pc s) as [[]|]. }
  assert (exists p, Dict.get IMM (policies s') = Some p /\ last_key_value_alerts p = by_uuid (heap s') (alerts s')) as (p & Hp & Hs).
  { unfold s', initialize. simpl. eexists. split; [reflexivity|done]. }
  exists p. split; [done|]. cbv zeta. rewrite Hat. intros k. rewrite Hm, Hs. symmetry. apply by_uuid_in_list.
  apply (listed_distinct _ _ _ (i_core _ _ Hi') (i_alerts _ _ Hi')).
Qed.

Lemma mirrors_ext s m m' : at_imm s = false -> (forall k, k ∈ m <-> k ∈ m') -> mirrors s m -> mirrors s m'.
Proof. intros Hat E (p & Hp & H). exists p. split; [done|]. cbv zeta in *. rewrite Hat in *. intros k. by rewrite <-E. Qed.

(** Some set has the alerts of a list that are shown. *)
Lemma in_list_set s l : exists m : gset (option uuid_t), forall k, k ∈ m <-> in_list e0 s l k.
Proof.
  exists (list_to_set (map (fun r => uuid (obj s r)) (List.filter (shown e0 s) l))). intros k. rewrite elem_of_list_to_set, list_elem_of_In, in_map_iff.
  setoid_rewrite filter_In. setoid_rewrite <-list_elem_of_In. unfold in_list. naive_solver.
Qed.

Lemma run_mirrors s0 s1 m : inv s0 -> mirrors s0 m -> calm_run s0 s1 -> inv s1 /\ exists k, log s1 = log s0 ++ k /\ mirrors s1 (mirror m k).
Proof using Hreg.
  intros Hi0 Hm Hrun. induction Hrun as [|x l y _ [Hix (k & Hk & Hmk)] Hadm Hc Ex].
  - split; [done|]. exists []. by rewrite app_nil_r.
  - destruct (exec_ok _ _ _ _ _ _ l x y Hreg Hix Hadm Ex) as (Hiy & _). split; [done|].
    destruct (exec_mirrors l x y _ Hix Hadm Hc Hmk Ex) as (k' & Hk' & Hm'). exists (k ++ k'). by rewrite Hk', Hk, app_assoc, mirror_app.
Qed.

(** The states in which every alert of the list has been announced: when the service
    has been initialized, at whatever point of whatever history, and, from there on,
    whenever the notifications of the policy IMMEDIATELY have gone out. *)
Inductive announced : st -> Prop :=
| announced_start rows n ls s e load :
    table_ok rows n -> history (st0 rows n) ls s -> sending s = false -> announced (initialize alert_sources class_by_name e load s)
| announced_end s0 s1 e ms b s2 :
    announced s0 -> calm_run s0 s1 -> at_imm s1 = true -> calm (LPolicyEnd e ms b) s1 -> exec (LPolicyEnd e ms b) s1 = Some s2 -> announced s2.

Lemma end_not_imm e ms b s s' : exec (LPolicyEnd e ms b) s = Some s' -> at_imm s' = false.
Proof.
  simpl. unfold send_policy_end. destruct (pc s) as [[| | | | | |at_us pt cls pol gone new [|svc svcs] todo]|]; try done.
  destruct (String.eqb pol "IMMEDIATELY"); [|by intros [= <-]]. destruct (emit_new e new _) as [sn ok].
  destruct (if ok then _ else _) as [sm []]; by intros [= <-].
Qed.

Lemma announced_mirrors s : announced s ->
  inv s /\ forall m, (forall k, k ∈ m <-> in_list e0 s (alerts s) k) -> mirrors s m.
Proof using Hreg.
  induction 1 as [rows n ls s e load Ht Hh Hsend|s0 s1 e ms b s2 _ [Hi0 IH] Hrun Hat Hc E].
  - pose proof (history_inv _ _ _ _ _ _ Hreg _ _ _ (st0_inv _ rows n Ht) Hh) as Hi.
    split; [by apply initialize_inv|]. intros m Hm. by apply initialize_mirrors.
  - destruct (in_list_set s0 (alerts s0)) as [m0 Hm0]. destruct (run_mirrors s0 s1 m0 Hi0 (IH m0 Hm0) Hrun) as (Hi1 & k & _ & Hmk).
    destruct (policy_end_mirrors e ms b s1 s2 _ Hi1 Hc Hmk E) as (k' & _ & Hm2 & _ & HM). split; [by destruct (exec_ok _ _ _ _ _ _ (LPolicyEnd e ms b) s1 s2 Hreg Hi1 I E)|].
    intros m Hm. eapply mirrors_ext; [by eapply end_not_imm| |exact Hm2]. intros u. rewrite HM by done. by rewrite Hm.
Qed.

(** C28: A client that reads the list of alerts when all its alerts have been announced
    and then applies the events ADDED and REMOVED of [alert.list] has the list: whenever
    the notifications of the policy IMMEDIATELY have gone out, its uuids are exactly
    those of the alerts that [alert.list] shows.  This holds through any interleaving
    of checks, runs that are rolled back, one-shot alerts, dismissals and notifications
    in which the service is not initialized again, the configuration of the alert
    classes and the product stay the same, the clock advances between notifications,
    the types of the alert services are known, and no alert is deleted by a dismissal
    in the middle of a notification or after a check has replaced it. *)
Theorem events_mirror_list s0 m0 s1 e1 ms b s2 :
  announced s0 -> (forall k, k ∈ m0 <-> in_list e0 s0 (alerts s0) k) ->
  calm_run s0 s1 -> at_imm s1 = true -> calm (LPolicyEnd e1 ms b) s1 -> exec (LPolicyEnd e1 ms b) s1 = Some s2 ->
  exists added, log s2 = log s0 ++ added /\ forall k, k ∈ mirror m0 added <-> in_list e0 s2 (alerts s2) k.
Proof.
  intros [Hi0 Hann]%announced_mirrors Hm0 Hrun Hat Hcalm E.
  destruct (run_mirrors s0 s1 m0 Hi0 (Hann m0 Hm0) Hrun) as (Hi1 & k & Hk & Hmk).
  destruct (policy_end_mirrors e1 ms b s1 s2 _ Hi1 Hcalm Hmk E) as (k' & Hk' & _ & _ & HM).
  exists (k ++ k'). split; [by rewrite Hk', Hk, app_assoc|]. intros u. rewrite mirror_app. by apply HM.
Qed.
End client.
