(* ===== verification/AlertDemo.v ===== *)
(** * The alert service at work: witnesses

    A small registry of classes and sources, runs of the service on it, and the
    theorems of the previous files applied to these runs. *)

From stdpp Require Import sorting.
From S2P Require Import Prelude PyDict PyStr PyVal PyFormat Errors AlertBase Alerts AlertInv AlertSteps AlertFrames AlertProps AlertNotify AlertEvents.

Module AlertDemo.

Definition cfg (nm ttl : string) (auto : bool) : AlertClassConfig :=
  mkConfig SYSTEM WARNING ttl (Some (ttl +:+ ": %(x)s")) false [COMMUNITY_EDITION] false false auto None None nm.

(** A class of alerts that checks find, and one of one-shot alerts that are
    deleted when they are dismissed. *)
Definition Disk : AlertClass := mkClass (cfg "Disk" "Disk failing" true) Dataclass false false default_key_from_args.
Definition Note : AlertClass := mkClass (cfg "Note" "Something happened" false) Dataclass true false default_key_from_args.

Definition classes_ : list (string * AlertClass) :=
  [("Disk", Disk); ("Note", Note); ("AlertSourceRunFailed", run_failed_class false);
   ("AlertSourceRunFailedOnBackupNode", run_failed_class true)].

Definition Disks : AlertSource :=
  mkSource "Disks" (IntervalSchedule 60000000) [COMMUNITY_EDITION] false true false.

Definition no_offset (t : Z) : Z := 0.
Definition no_repr (c : AlertClass) (a : json) : string := "".

Notation exec := (exec [Disks] classes_ ["Mail"] no_offset 777 no_repr).
Notation admissible := (admissible [Disks] classes_ 777).
Notation history := (history [Disks] classes_ ["Mail"] no_repr no_offset 777).

Lemma registry : registry_ok classes_.
Proof.
  split.
  - intros n c. unfold classes_, Dict.get. repeat case_decide; intros [= <-]; subst; done.
  - intros []; done.
Qed.

Lemma empty_table n : table_ok [] n.
Proof. split; [constructor|constructor|set_solver|set_solver]. Qed.

Definition mail_service : ServiceDesc := mkService "mail" "Mail" INFO true.

(** A system on its own, [t] seconds after boot. *)
Definition at_ (t : Z) : Env :=
  mkEnv (63000000000000000 + t * 1000000) t "READY" false "" false "A" false COMMUNITY_EDITION [] [mail_service] (fun _ => true).

(** The system is shutting down. *)
Definition down (t : Z) : Env :=
  mkEnv (63000000000000000 + t * 1000000) t "SHUTTING_DOWN" false "" false "A" false COMMUNITY_EDITION [] [mail_service] (fun _ => true).

Definition alone : Remote := mkRemote "25.10" (Err (EOther "" "")) (Err (EOther "" "")) (Err (EOther "" "")) (Err (EOther "" "")).
Definition disk (x : string) : new_alert_args := mkNew Disk (JDict [("x", JStr x)]) None JNull.
Definition mail_ok (_ : json) : result exn unit := Ok tt.

(** A run of the checks that finds these alerts. *)
Definition checks (t : Z) (l : list new_alert_args) : list label :=
  [LProcess (at_ t); LPrologue (at_ t) alone; LSource (at_ t); LChecked (at_ t) 5 (CheckList l); LRunEnd (at_ t); LProcessEnd (at_ t)].

(** A run of the notifications; [k] steps of it. *)
Definition sends (t : Z) : list label :=
  LSend (at_ t) :: concat (replicate 4 [LPolicy (at_ t); LService; LPolicyEnd (at_ t) mail_ok false]) ++ [LPolicy (at_ t)].

Fixpoint run (ls : list label) (s : st) : option st :=
  match ls with
  | [] => Some s
  | l :: ls => match exec l s with Some s' => run ls s' | None => None end
  end.

(** What a label must satisfy to be admissible in every state. *)
Definition always (l : label) : Prop := forall s, admissible l s.

Lemma run_app ls ls' s : run (ls ++ ls') s = match run ls s with Some s' => run ls' s' | None => None end.
Proof. revert s. induction ls as [|l ls IH]; intros s; simpl; [done|]. destruct (exec l s); [apply IH|done]. Qed.

Lemma run_history ls s0 s : Forall always ls -> run ls s0 = Some s -> history s0 ls s.
Proof.
  revert s. induction ls as [|l ls IH] using rev_ind; intros s Hal Hr.
  - injection Hr as <-. constructor.
  - apply Forall_app in Hal as [Hal Hl]. apply Forall_cons in Hl as [Hl _]. rewrite run_app in Hr.
    destruct (run ls s0) as [s1|] eqn:E; [|done]. simpl in Hr. destruct (exec l s1) as [s2|] eqn:E2; [|done].
    injection Hr as <-. econstructor; [by apply IH|apply Hl|done].
Qed.

(** The state after a run; the service starts with an empty table. *)
Definition booted (ls : list label) : st := default (st0 [] 0) (run (LInitialize (at_ 0) true :: ls) (st0 [] 0)).

Definition runs (ls : list label) : bool :=
  match run (LInitialize (at_ 0) true :: ls) (st0 [] 0) with Some _ => true | None => false end.

Lemma disk_registered x : registered classes_ (na_class (disk x)).
Proof. split; [reflexivity|discriminate]. Qed.

Lemma note_registered : registered classes_ Note.
Proof. split; [reflexivity|discriminate]. Qed.

Lemma checks_always t l : Forall (fun a => registered classes_ (na_class a)) l -> Forall always (checks t l).
Proof. intros Hl. repeat (apply Forall_cons; split; [intros s; first [exact I|exact Hl]|]). apply Forall_nil. done. Qed.

Lemma sends_always t : Forall always (sends t).
Proof. repeat (apply Forall_cons; split; [intros s; exact I|]). apply Forall_nil. done. Qed.

(** Labels that are admissible because of what they are. *)
Ltac solve_always :=
  repeat first
    [ apply Forall_nil; exact I
    | apply checks_always; repeat (apply Forall_cons; split; [apply disk_registered|]); apply Forall_nil; exact I
    | apply sends_always
    | apply Forall_app; split
    | apply Forall_cons; split; [intros ?; first [exact I|exact note_registered
        |repeat (apply Forall_cons; split; [apply disk_registered|]); apply Forall_nil; exact I]|] ].

Lemma booted_history ls : Forall always ls -> runs ls = true ->
  history (st0 [] 0) (LInitialize (at_ 0) true :: ls) (booted ls).
Proof.
  unfold runs, booted. intros Hal Hr. destruct (run _ _) as [s|] eqn:E; [|discriminate]. simpl. apply run_history; [|done]. constructor; [by intros ?|done].
Qed.

(** Two disks fail; the first alert is dismissed; the disks are still failing at
    the next run. *)
Definition found : list label := checks 60 [disk "sda"; disk "sdb"; disk "sda"].
Definition found_again : list label := LDismiss (at_ 90) 0 :: checks 120 [disk "sda"; disk "sdb"].

Example found_alerts : map (fun r => (uuid (obj (booted found) r), key (obj (booted found) r))) (alerts (booted found))
  = [(Some 0, Fmt.dumps (JDict [("x", JStr "sda")])); (Some 1, Fmt.dumps (JDict [("x", JStr "sdb")]))].
Proof. vm_compute. reflexivity. Qed.

Lemma alerts_unique_witness :
  alerts (booted (found ++ found_again)) ≠ [] /\
  NoDup (map (fun r => uuid (obj (booted (found ++ found_again)) r)) (alerts (booted (found ++ found_again)))).
Proof.
  split; [vm_compute; discriminate|].
  apply (alerts_unique [Disks] classes_ ["Mail"] no_repr no_offset 777 registry [] 0
           (LInitialize (at_ 0) true :: found ++ found_again) (booted (found ++ found_again)) (at_ 200) (empty_table 0)).
  apply booted_history; [solve_always|]. vm_compute. reflexivity.
Defined.

Lemma booted_app ls ls' : Forall always ls' -> runs ls = true -> runs (ls ++ ls') = true ->
  history (booted ls) ls' (booted (ls ++ ls')).
Proof.
  unfold runs, booted. intros Hal H1 H2. rewrite app_comm_cons, run_app in *. destruct (run _ _) as [s|] eqn:E; [|discriminate].
  simpl. apply run_history; [done|]. by destruct (run ls' s).
Qed.

Definition dismissed_one : list label := found ++ [LDismiss (at_ 90) 0].

Lemma dismissal_sticks_witness :
  dismissed (obj (booted (dismissed_one ++ checks 120 [disk "sda"; disk "sdb"])) 5) = Some true
  /\ a_datetime (obj (booted (dismissed_one ++ checks 120 [disk "sda"; disk "sdb"])) 5) = a_datetime (obj (booted dismissed_one) 0).
Proof.
  eapply (dismissal_sticks [Disks] classes_ ["Mail"] no_repr no_offset 777 registry [] 0
    (LInitialize (at_ 0) true :: dismissed_one) (booted dismissed_one) 0 0 (checks 120 [disk "sda"; disk "sdb"])
    (booted (dismissed_one ++ checks 120 [disk "sda"; disk "sdb"])) 5 (empty_table 0)).
  - apply booted_history; [solve_always|]. vm_compute. reflexivity.
  - apply list_elem_of_In. vm_compute. left. reflexivity.
  - vm_compute. reflexivity.
  - vm_compute. reflexivity.
  - apply booted_app; [solve_always|vm_compute; reflexivity..].
  - repeat (apply Forall_cons; split; [vm_compute; reflexivity|]). apply Forall_nil. exact I.
  - apply list_elem_of_In. vm_compute. left. reflexivity.
  - vm_compute. reflexivity.
Defined.

(** The source is blocked while the disks are failing. *)
Definition blocked_run : list label :=
  found ++ [LBlock (at_ 100) "Disks" 3600; LProcess (at_ 120); LPrologue (at_ 120) alone].

Lemma blocked_source_kept_witness :
  exists s', exec (LSource (at_ 121)) (booted blocked_run) = Some s' /\ log s' = log (booted blocked_run)
    /\ alerts s' ≡ₚ alerts (booted blocked_run).
Proof.
  destruct (blocked_source_kept [Disks] classes_ ["Mail"] no_repr no_offset 777 registry [] 0
    (LInitialize (at_ 0) true :: blocked_run) (booted blocked_run) (at_ 121) (empty_table 0)) as [H _].
  { apply booted_history; [solve_always|]. vm_compute. reflexivity. }
  assert (match exec (LSource (at_ 121)) (booted blocked_run) with Some _ => true | None => false end = true) as Hs
    by (vm_compute; reflexivity).
  destruct (exec (LSource (at_ 121)) (booted blocked_run)) as [s'|] eqn:E; [|discriminate].
  exists s'. destruct (H [3; 4] COMMUNITY_EDITION (mkFI "A" "B" false false) Disks [] 2 (mkLock "Disks" 3700) s') as (_ & H1 & H2 & _).
  - vm_compute. reflexivity.
  - vm_compute. reflexivity.
  - reflexivity.
  - reflexivity.
  - split; [reflexivity|]. split; [exact H1|exact H2].
Defined.

Definition twice : list label := checks 60 [disk "sda"] ++ checks 121 [] ++ [LProcess (at_ 150); LPrologue (at_ 150) alone; LSource (at_ 150)].

Lemma checks_spaced_witness :
  exists added, log (booted twice) = log (booted []) ++ added
    /\ StronglySorted (fun a b => (a + 60000000 <= b)%Z) (check_times "Disks" added).
Proof.
  apply (checks_spaced [Disks] classes_ ["Mail"] no_repr no_offset 777 [] 0 [LInitialize (at_ 0) true] (booted [])
    twice (booted twice) Disks 60000000 (empty_table 0)).
  - apply booted_history; [solve_always|]. vm_compute. reflexivity.
  - apply NoDup_singleton.
  - apply list_elem_of_In. left. reflexivity.
  - reflexivity.
  - discriminate.
  - apply (booted_app [] twice); [solve_always|vm_compute; reflexivity..].
  - repeat (apply Forall_cons; split; [vm_compute; reflexivity|]). apply Forall_nil. exact I.
Defined.

Example twice_checked : check_times "Disks" (log (booted twice)) = [now (at_ 60); now (at_ 121)].
Proof. vm_compute. reflexivity. Qed.

Lemma alerts_survive_restart_witness :
  let s := booted dismissed_one in
  let s' := initialize [Disks] classes_ (at_ 500) true (st0 (rows (flush_alerts (at_ 400) s)) (next_uuid s)) in
  map (fun r => to_row (obj s' r)) (alerts s') ≡ₚ map (fun r => to_row (obj s r)) (List.filter (fun r => survives (at_ 500) (obj s r)) (alerts s)).
Proof.
  apply (alerts_survive_restart [Disks] classes_ ["Mail"] no_repr no_offset 777 [] 0 (LInitialize (at_ 0) true :: dismissed_one)
    (booted dismissed_one) (at_ 400) (at_ 500) registry (empty_table 0)).
  - apply booted_history; [solve_always|]. vm_compute. reflexivity.
  - reflexivity.
  - apply Forall_forall. intros r Hr%list_elem_of_In. vm_compute in Hr. destruct Hr as [<-|[<-|[]]]; eexists; vm_compute; reflexivity.
Defined.

(** The notifications of the first alerts, before the mail service gets them. *)
Definition notifying : list label := found ++ [LSend (at_ 61); LPolicy (at_ 61)].

Lemma notifications_exact_witness :
  prepare ["Mail"] (booted notifying) COMMUNITY_EDITION [] "IMMEDIATELY" [] [0; 1] mail_service = Send [0; 1] [] [0; 1] /\
  exists g n, unpaired (booted notifying) [] [0; 1] g n /\ (g ++ n ≠ []).
Proof.
  split; [vm_compute; reflexivity|].
  destruct (notifications_exact [Disks] classes_ ["Mail"] no_repr no_offset 777 [] 0 (LInitialize (at_ 0) true :: notifying)
    (booted notifying) (now (at_ 61)) COMMUNITY_EDITION [] "IMMEDIATELY" [] [0; 1] mail_service [] ["HOURLY"; "DAILY"; "NEVER"]
    registry (empty_table 0)) as (g & n & Hu & E).
  - apply booted_history; [solve_always|]. vm_compute. reflexivity.
  - vm_compute. reflexivity.
  - apply list_elem_of_In. left. reflexivity.
  - exists g, n. split; [exact Hu|]. intros H. rewrite bool_decide_true in E by exact H. vm_compute in E. discriminate.
Defined.

Notation calm := (calm ["Mail"] (at_ 0)).
Notation calm_run := (calm_run [Disks] classes_ ["Mail"] no_repr no_offset 777 (at_ 0)).

(** A check that a step is calm, for the steps of the runs below. *)
Definition calm_b (l : label) (s : st) : bool :=
  match l with
  | LPolicy _ =>
      match pc s, Dict.get IMM (policies s) with
      | Some (SLoop at_us _ _ (n :: _)), Some p => negb (bool_decide (policy_fun p at_us = last_key_value p)) || negb (String.eqb n IMM)
      | _, _ => true
      end
  | LService =>
      match pc s with
      | Some (SServices _ _ _ _ _ _ (svc :: _) _) => String.eqb (svc_type svc) "Mail"
      | _ => true
      end
  | LPolicyEnd e _ _ => String.eqb (product_type e) COMMUNITY_EDITION && match classes e with [] => true | _ => false end
  | LInitialize _ _ | LDismiss _ _ | LDismissed _ _ => false
  | _ => true
  end.

Lemma calm_b_ok l s : calm_b l s = true -> calm l s.
Proof.
  destruct l; simpl; try discriminate; try (intros _; exact I).
  - intros H at_us pt cls todo p Ep Hp. rewrite Ep, Hp in H. apply orb_true_iff in H as [H|H].
    + rewrite negb_true_iff, bool_decide_eq_false in H. exact H.
    + discriminate.
  - intros H _ at_us pt cls pol gone new svc svcs todo Ep. rewrite Ep in H. apply String.eqb_eq in H as ->. apply list_elem_of_In. left. reflexivity.
  - intros [H1 H2]%andb_true_iff. apply String.eqb_eq in H1. split; [exact H1|]. destruct (classes e); [reflexivity|discriminate].
Qed.

Fixpoint run_calmly (ls : list label) (s : st) : option st :=
  match ls with
  | [] => Some s
  | l :: ls => if calm_b l s then match exec l s with Some s' => run_calmly ls s' | None => None end else None
  end.

Lemma run_calmly_ok ls s0 : forall s s', calm_run s0 s -> Forall always ls -> run_calmly ls s = Some s' -> calm_run s0 s'.
Proof.
  induction ls as [|l ls IH]; intros s s' Hs Hal Hr; simpl in Hr.
  - injection Hr as <-. exact Hs.
  - apply Forall_cons in Hal as [Hl Hal]. destruct (calm_b l s) eqn:Ec; [|discriminate].
    destruct (exec l s) as [s1|] eqn:E; [|discriminate]. apply (IH s1); [|exact Hal|exact Hr].
    econstructor; [exact Hs|apply Hl|apply calm_b_ok, Ec|exact E].
Qed.

(** The client is there from the start; the notifications reach the mail service. *)
Definition mailed : list label := found ++ [LSend (at_ 61); LPolicy (at_ 61); LService].
Definition start : st := initialize [Disks] classes_ (at_ 0) true (st0 [] 0).
Definition mailed_state : st := default start (run_calmly mailed start).

Lemma events_mirror_list_witness :
  exists s2 added, exec (LPolicyEnd (at_ 61) mail_ok false) mailed_state = Some s2 /\ log s2 = log start ++ added
    /\ forall k, k ∈ mirror ∅ added <-> in_list (at_ 0) s2 (alerts s2) k.
Proof.
  assert (match exec (LPolicyEnd (at_ 61) mail_ok false) mailed_state with Some _ => true | None => false end = true) as Hs
    by (vm_compute; reflexivity).
  destruct (exec (LPolicyEnd (at_ 61) mail_ok false) mailed_state) as [s2|] eqn:E; [|discriminate]. exists s2.
  destruct (events_mirror_list [Disks] classes_ ["Mail"] no_repr no_offset 777 (at_ 0) registry start ∅
    mailed_state (at_ 61) mail_ok false s2) as (added & H1 & H2).
  - apply (announced_start _ _ _ _ _ _ _ [] 0 [] (st0 [] 0) (at_ 0) true (empty_table 0)); [apply history_nil|reflexivity].
  - intros k. split; [intros Hk; destruct (proj1 (elem_of_empty k) Hk)|]. intros (r & Hr & _). apply list_elem_of_In in Hr. destruct Hr.
  - assert (match run_calmly mailed start with Some _ => true | None => false end = true) as Hr by (vm_compute; reflexivity).
    unfold mailed_state. destruct (run_calmly mailed start) as [s1|] eqn:Er; [|discriminate].
    apply (run_calmly_ok mailed start start s1); [apply calm_nil|unfold mailed; solve_always|exact Er].
  - vm_compute. reflexivity.
  - apply calm_b_ok. reflexivity.
  - exact E.
  - exists added. split; [reflexivity|]. split; [exact H1|exact H2].
Defined.

(** A one-shot alert is created; while its notifications are being sent, the user
    dismisses it; then the notifications end, and another round follows. *)
Definition ghost : list label :=
  [LCreate (at_ 10) Note (JDict [("x", JStr "reboot")]); LSend (at_ 11); LPolicy (at_ 11); LDismiss (at_ 12) 0; LService;
   LPolicyEnd (at_ 13) mail_ok false; LPolicy (at_ 13); LService; LPolicyEnd (at_ 13) mail_ok false; LPolicy (at_ 13); LService;
   LPolicyEnd (at_ 13) mail_ok false; LPolicy (at_ 13); LService; LPolicyEnd (at_ 13) mail_ok false; LPolicy (at_ 13)] ++ sends 7200.

Definition no_snapshot (l : list (string * AlertPolicy)) : bool :=
  forallb (fun np => match last_key_value_alerts np.2 with [] => true | _ => false end) l.

Lemma no_snapshot_ok l : no_snapshot l = true -> Forall (fun np => last_key_value_alerts np.2 = []) l.
Proof.
  intros H. apply Forall_forall. intros np Hnp%list_elem_of_In. unfold no_snapshot in H. rewrite List.forallb_forall in H.
  specialize (H np Hnp). by destruct (last_key_value_alerts np.2).
Qed.

Definition confirmed (l : list effect) : bool :=
  existsb (fun ev => match ev with EvChanged (Some 0) f => bool_decide (ser_dismissed f = Some true) | _ => false end) l.

Lemma confirmed_ok l : confirmed l = true -> exists f, EvChanged (Some 0) f ∈ l /\ ser_dismissed f = Some true.
Proof.
  intros (ev & Hin & Hev)%List.existsb_exists. destruct ev as [| [[|]|] f | | | | |]; try discriminate.
  exists f. split; [by apply list_elem_of_In|]. by apply bool_decide_eq_true in Hev.
Qed.

(** A dismissal in the middle of a notification leaves a ghost behind: when a
    one-shot alert is dismissed while [send_alerts] waits for an alert service,
    REMOVED is sent before ADDED.  The alert is gone from the list, but a client
    of [alert.list] shows it, and the later rounds of notifications, which no
    longer know the alert, do not take it back. *)
Theorem dismissal_leaves_ghost :
  let s := booted ghost in
  history (st0 [] 0) (LInitialize (at_ 0) true :: ghost) s
  /\ pc s = None /\ alerts s = [] /\ Forall (fun np => last_key_value_alerts np.2 = []) (policies s)
  /\ Some 0 ∈ mirror ∅ (log s).
Proof.
  cbv zeta. split; [apply booted_history; [unfold ghost; solve_always|vm_compute; reflexivity]|].
  split; [vm_compute; reflexivity|]. split; [vm_compute; reflexivity|]. split.
  - apply no_snapshot_ok. vm_compute. reflexivity.
  - assert (bool_decide (Some 0 ∈ mirror ∅ (log (booted ghost))) = true) as H by (vm_compute; reflexivity).
    apply bool_decide_eq_true in H. exact H.
Qed.

(** An alert is dismissed during a run of the checks, which ends when the system is
    already shutting down. *)
Definition rolled_back : list label :=
  found ++ [LProcess (at_ 120); LPrologue (at_ 120) alone; LDismiss (at_ 121) 0; LSource (at_ 121);
            LChecked (at_ 122) 5 (CheckList [disk "sda"; disk "sdb"]); LRunEnd (at_ 122); LProcessEnd (down 123)].

(** The roll back of an interrupted run takes back a dismissal that was already
    confirmed to the clients. *)
Theorem rollback_loses_dismissal :
  let s := booted rolled_back in
  history (st0 [] 0) (LInitialize (at_ 0) true :: rolled_back) s
  /\ map (fun r => (uuid (obj s r), dismissed (obj s r))) (alerts s) = [(Some 0, Some false); (Some 1, Some false)]
  /\ exists f, EvChanged (Some 0) f ∈ log s /\ ser_dismissed f = Some true.
Proof.
  cbv zeta. split; [apply booted_history; [unfold rolled_back; solve_always|vm_compute; reflexivity]|].
  split; [vm_compute; reflexivity|].
  apply confirmed_ok. vm_compute. reflexivity.
Qed.

(** Two classes with the same key: the second alert of the check is dropped. *)
Definition Fan : AlertClass := mkClass (cfg "Fan" "Fan failing" true) Dataclass false false (fun _ => JNull).
Definition Psu : AlertClass := mkClass (cfg "Psu" "Power supply failing" true) Dataclass false false (fun _ => JNull).

(** Alerts of one check are told apart by their key alone, not by class and key. *)
Theorem same_key_dropped :
  let res := run_source_ "Chassis" 1 (CheckList [mkNew Fan JNull None JNull; mkNew Psu JNull None JNull]) (st0 [] 0) in
  res.2 = Some [0] /\ inst_name (instance (obj res.1 0)) = "Fan".
Proof. vm_compute. split; reflexivity. Qed.
End AlertDemo.
