(* ===== verification/AlertConfig.v ===== *)
(** * Settings of the alert system
    (src/middlewared/middlewared/plugins/alert/classes.py, plugins/alert/service.py and
    the categories of plugins/alert/alert.py)

    The settings of the alert classes, the alert services (where notifications
    are sent) and the catalogue of alert classes shown to the user. *)

From stdpp Require Import sorting.
From S2P Require Import Prelude PyDict PyStr PyVal PyFormat Errors AlertBase Alerts AlertSteps AlertInv.

(** ** [AlertService.list_categories] *)

Record class_desc := mkDesc {
  d_id : string;
  d_title : string;
  d_level : AlertLevel;
  d_products : list string;
  d_proactive : bool;
}.

Definition describe (c : AlertClass) : class_desc :=
  mkDesc (name (config c)) (title (config c)) (level (config c)) (products (config c)) (proactive_support (config c)).

Definition listed_class (all_products hidden : bool) (product_type : string) (c : AlertClass) : bool :=
  (all_products || bool_decide (product_type ∈ products (config c))) && (hidden || negb (exclude_from_list (config c))).

Definition in_category (k : AlertCategory) (c : AlertClass) : bool := bool_decide (category (config c) = k).

Definition list_categories (all_products hidden : bool) (product_type : string) (cs : list AlertClass)
    : list (AlertCategory * string * list class_desc) :=
  let classes := List.filter (listed_class all_products hidden product_type) cs in
  map (fun k => (k, alert_category_names k,
                 Fmt.sorted (fun a b => Fmt.str_leb (d_title a) (d_title b)) (map describe (List.filter (in_category k) classes))))
      (List.filter (fun k => existsb (in_category k) classes) categories).

Lemma categories_all k : k ∈ categories.
Proof. destruct k; set_solver. Qed.

Lemma str_leb_total s t : Fmt.str_leb s t = true \/ Fmt.str_leb t s = true.
Proof. unfold Fmt.str_leb. destruct (String.compare s t) eqn:E; auto. right. by rewrite String.compare_antisym, E. Qed.

Lemma ascii_compare_trans (a b c : Ascii.ascii) x :
  Ascii.compare a b = x -> Ascii.compare b c = x -> Ascii.compare a c = x.
Proof.
  unfold Ascii.compare. destruct x.
  - rewrite !N.compare_eq_iff. congruence.
  - rewrite !N.compare_lt_iff. lia.
  - rewrite !N.compare_gt_iff. lia.
Qed.

Lemma str_leb_cons a s b t : Fmt.str_leb (String a s) (String b t) =
  match Ascii.compare a b with Eq => Fmt.str_leb s t | Lt => true | Gt => false end.
Proof. unfold Fmt.str_leb. simpl. by destruct (Ascii.compare a b). Qed.

Lemma str_leb_trans s : forall t u, Fmt.str_leb s t = true -> Fmt.str_leb t u = true -> Fmt.str_leb s u = true.
Proof.
  induction s as [|a s IH]; intros [|b t] [|c u]; try done. rewrite !str_leb_cons.
  destruct (Ascii.compare a b) eqn:E1, (Ascii.compare b c) eqn:E2; try done.
  - rewrite (ascii_compare_trans a b c Eq E1 E2). apply IH.
  - apply Ascii.compare_eq_iff in E1 as ->. by rewrite E2.
  - apply Ascii.compare_eq_iff in E2 as ->. by rewrite E1.
  - by rewrite (ascii_compare_trans a b c Lt E1 E2).
Qed.

(** The catalogue lists every class of the product once, under its category, the
    categories in the order of the enumeration and without empty ones, the
    classes by title. *)
Theorem list_categories_complete all_products hidden pt cs :
  (forall c, c ∈ cs -> listed_class all_products hidden pt c = true ->
     exists ds, (category (config c), alert_category_names (category (config c)), ds) ∈ list_categories all_products hidden pt cs
       /\ describe c ∈ ds)
  /\ (forall k t ds, (k, t, ds) ∈ list_categories all_products hidden pt cs ->
        t = alert_category_names k /\ ds ≠ [] /\ StronglySorted (fun a b => Fmt.str_leb (d_title a) (d_title b) = true) ds
        /\ forall d, d ∈ ds -> exists c, c ∈ cs /\ listed_class all_products hidden pt c = true /\ category (config c) = k /\ d = describe c).
Proof.
  unfold list_categories. set (f := listed_class all_products hidden pt). split.
  - intros c Hc Hf. eexists. split.
    + apply list_elem_of_fmap. exists (category (config c)). split; [reflexivity|]. apply elem_filter. split; [|apply categories_all].
      apply List.existsb_exists. exists c. split; [apply List.filter_In; split; [by apply list_elem_of_In|done]|].
      unfold in_category. by apply bool_decide_eq_true.
    + rewrite Fmt.sorted_Permutation. apply list_elem_of_fmap. exists c. split; [done|]. apply elem_filter.
      split; [unfold in_category; by apply bool_decide_eq_true|]. by apply elem_filter.
  - intros k t ds (k' & [= -> -> ->] & [Hex _]%elem_filter)%list_elem_of_fmap. split_and!; [done| | |].
    + apply List.existsb_exists in Hex as (c & Hc & Hk). intros E.
      assert (describe c ∈ ([] : list class_desc)) as Hin; [|by apply elem_of_nil in Hin]. rewrite <-E, Fmt.sorted_Permutation.
      apply list_elem_of_fmap. exists c. split; [done|]. apply elem_filter. split; [done|by apply list_elem_of_In].
    + apply Fmt.sorted_sorted; [intros; apply str_leb_total|intros a b d; apply str_leb_trans].
    + intros d. rewrite Fmt.sorted_Permutation. intros (c & -> & [Hk Hc]%elem_filter)%list_elem_of_fmap.
      apply elem_filter in Hc as [Hf Hc]. exists c. split_and!; try done. unfold in_category in Hk. by apply bool_decide_eq_true in Hk.
Qed.

(** ** [alertclasses.update] *)

(** A class entry of the request: the keys that are set. *)
Definition class_entry : Type := list (string * json).

Section classes.
Context (class_by_name : list (string * AlertClass)).

(** The errors of one entry. *)
Definition entry_errors (k : string) (v : class_entry) : VErrors.t :=
  match Dict.get k class_by_name with
  | None => [mkVE (Some ("alert_class_update.classes." +:+ k)) "This alert class does not exist" EINVAL]
  | Some c =>
      if Dict.mem "proactive_support" v && negb (proactive_support (config c)) then
        [mkVE (Some ("alert_class_update.classes." +:+ k +:+ ".proactive_support"))
           "Proactive support is not supported by this alert class" EINVAL]
      else []
  end.

(** [do_update]: [old] is the stored setting, [data] the part of the request that
    is set; the result is the setting written to the database. *)
Definition alertclasses_do_update (old : list (string * class_entry)) (data : option (list (string * class_entry)))
    : result exn (list (string * class_entry)) :=
  let new := default old data in
  match VErrors.check (concat (map (fun kv => entry_errors kv.1 kv.2) new)) with
  | Ok _ => Ok new
  | Err e => Err e
  end.

(** A setting is written exactly when every class exists and proactive support is
    set only for classes that have it. *)
Theorem alertclasses_update_spec old data new :
  alertclasses_do_update old data = Ok new <->
  new = default old data /\ Forall (fun kv => exists c, Dict.get kv.1 class_by_name = Some c
    /\ (Dict.mem "proactive_support" kv.2 = true -> proactive_support (config c) = true)) new.
Proof.
  unfold alertclasses_do_update, VErrors.check, VErrors.bool.
  assert (forall l, concat (map (fun kv => entry_errors kv.1 kv.2) l) = [] <-> Forall (fun kv => exists c,
            Dict.get kv.1 class_by_name = Some c /\ (Dict.mem "proactive_support" kv.2 = true -> proactive_support (config c) = true)) l) as H.
  { intros l. induction l as [|[k v] l IH]; simpl; [done|]. rewrite app_nil, IH, Forall_cons. simpl. apply and_iff_compat_r.
    unfold entry_errors. destruct (Dict.get k class_by_name) as [c|]; [|split; [done|by intros (? & ? & _)]].
    destruct (Dict.mem "proactive_support" v), (proactive_support (config c)) eqn:Ep; simpl; split; try done; eauto.
    - intros (c' & [= <-] & Hc). rewrite Ep in Hc. by discriminate Hc. }
  destruct (concat _) eqn:E.
  - split; [intros [= <-]; by rewrite <-H|by intros [-> _]].
  - split; [done|]. intros [-> Hf]. apply H in Hf. congruence.
Qed.
End classes.

(** ** [alertservice]: rows of the table and entries of the API *)

(** A stored service: the columns of the table. *)
Record service_row := mkSvcRow {
  sr_id : Z; sr_name : string; sr_type : string; sr_attributes : list (string * json); sr_enabled : bool; sr_level : string;
}.

(** The entry: [attributes.type] instead of [type], and the title of the type. *)
Record service_entry := mkSvcEntry {
  se_id : Z; se_name : string; se_attributes : list (string * json); se_type_title : string; se_enabled : bool; se_level : string;
}.

Definition levels : list string := ["INFO"; "NOTICE"; "WARNING"; "ERROR"; "CRITICAL"; "ALERT"; "EMERGENCY"].

Section services.
(** [AlertService.by_name]: the types and their titles. *)
Context (titles : list (string * string)).

Definition extend (r : service_row) : service_entry :=
  mkSvcEntry (sr_id r) (sr_name r) (Dict.set "type" (JStr (sr_type r)) (sr_attributes r))
    (default "<Unknown>" (Dict.get (sr_type r) titles)) (sr_enabled r) (sr_level r).

(** [compress]; [None] is a missing or ill-typed [attributes.type]. *)
Definition compress (e : service_entry) : option service_row :=
  match Dict.get "type" (se_attributes e) with
  | Some (JStr t) => Some (mkSvcRow (se_id e) (se_name e) t (Dict.pop "type" (se_attributes e)) (se_enabled e) (se_level e))
  | _ => None
  end.

(** A stored service is recovered from its entry. *)
Lemma compress_extend r : "type" ∉ Dict.keys (sr_attributes r) -> compress (extend r) = Some r.
Proof.
  intros Hn. unfold compress, extend. simpl. rewrite Dict.get_set_eq. destruct r as [i n t a en l]. simpl in *. do 2 f_equal.
  rewrite Dict.set_new by done. clear -Hn. induction a as [|[k v] a IH]; [done|]. simpl.
  unfold Dict.keys in *. simpl in Hn. apply not_elem_of_cons in Hn as [Hk Hn]. case_decide; [congruence|]. f_equal. auto.
Qed.

(** [_validate] *)
Definition validate_level (schema_name level : string) : result exn unit :=
  VErrors.check (if bool_decide (level ∈ levels) then []
                 else [mkVE (Some (schema_name +:+ ".level"))
                         ("Level must be one of " +:+ Fmt.repr (JList (map JStr levels))) EINVAL]).

Definition do_create (next_id : Z) (name type : string) (attributes : list (string * json)) (enabled : bool) (level : string)
    (tbl : list service_row) : list service_row * result exn service_entry :=
  match validate_level "alert_service_create" level with
  | Err e => (tbl, Err e)
  | Ok _ => let r := mkSvcRow next_id name type attributes enabled level in (tbl ++ [r], Ok (extend r))
  end.

Definition find_service (id : Z) (tbl : list service_row) : option service_row :=
  List.find (fun r => (sr_id r =? id)%Z) tbl.

(** The request replaces every field of the stored service. *)
Definition do_update (id : Z) (name type : string) (attributes : list (string * json)) (enabled : bool) (level : string)
    (tbl : list service_row) : list service_row * result exn service_entry :=
  match find_service id tbl with
  | None => (tbl, Err (InstanceNotFound ("AlertService " +:+ pretty id +:+ " does not exist")))
  | Some _ =>
      match validate_level "alert_service_update" level with
      | Err e => (tbl, Err e)
      | Ok _ => let r := mkSvcRow id name type attributes enabled level in
                (map (fun x => if (sr_id x =? id)%Z then r else x) tbl, Ok (extend r))
      end
  end.

Definition do_delete (id : Z) (tbl : list service_row) : list service_row * result exn bool :=
  match find_service id tbl with
  | None => (tbl, Err (InstanceNotFound ("AlertService " +:+ pretty id +:+ " does not exist")))
  | Some _ => (List.filter (fun x => negb (sr_id x =? id)%Z) tbl, Ok true)
  end.

(** An error of [AlertServiceEntry.model_validate]: [extra_forbidden] at
    [attributes.<type>.<attribute>], or another one. *)
Inductive entry_error := ExtraAttribute (attribute : string) | OtherError.

(** The loop over the errors; [None] when the service is removed. *)
Fixpoint drop_extra (errors : list entry_error) (attributes : list (string * json)) : option (list (string * json)) :=
  match errors with
  | [] => Some attributes
  | ExtraAttribute a :: errors => drop_extra errors (Dict.pop a attributes)
  | OtherError :: _ => None
  end.

(** [AlertServiceService.initialize]; [model_validate] is the errors of an entry. *)
Definition initialize_service (model_validate : service_entry -> list entry_error) (r : service_row) : option service_row :=
  if Dict.mem (sr_type r) titles then
    match model_validate (extend r) with
    | [] => Some r
    | errors => (fun a => mkSvcRow (sr_id r) (sr_name r) (sr_type r) a (sr_enabled r) (sr_level r)) <$> drop_extra errors (sr_attributes r)
    end
  else None.

Definition alertservice_initialize (model_validate : service_entry -> list entry_error) (tbl : list service_row) : list service_row :=
  omap (initialize_service model_validate) tbl.

(** After the start, every stored service has a type that exists, so that
    [send_alerts] finds its factory; the other columns of the services that stay
    are as they were. *)
Theorem initialized_services_known model_validate tbl r :
  r ∈ alertservice_initialize model_validate tbl ->
  Dict.mem (sr_type r) titles = true
  /\ exists r0, r0 ∈ tbl /\ sr_id r = sr_id r0 /\ sr_name r = sr_name r0 /\ sr_type r = sr_type r0 /\ sr_enabled r = sr_enabled r0
       /\ sr_level r = sr_level r0 /\ sr_attributes r `sublist_of` sr_attributes r0.
Proof.
  unfold alertservice_initialize. intros (r0 & Hr0 & E)%list_elem_of_omap. unfold initialize_service in E.
  destruct (Dict.mem (sr_type r0) titles) eqn:Em; [|done].
  assert (forall es a a', drop_extra es a = Some a' -> a' `sublist_of` a) as Hsub.
  { intros es. induction es as [|[x|] es IH]; intros a a' H; simpl in H; [by injection H as ->| |done].
    etrans; [by apply IH|apply Dict.pop_sublist]. }
  destruct (model_validate (extend r0)) as [|er es].
  - injection E as ->. split; [done|]. by exists r.
  - apply fmap_Some in E as (a & Ha & ->). simpl. split; [done|]. exists r0. split_and!; try done. by eapply Hsub.
Qed.
End services.
