(* ===== verification/AccountDb.v ===== *)
(** * The account tables (plugins/account.py, plugins/datastore/write.py)

    The rows of local users, groups, group memberships, privileges and second
    factors, the writes the datastore offers on them with the constraints of the
    database (unique names, foreign keys with cascades, foreign keys are enforced by
    [PRAGMA foreign_keys=ON]), and the reservations of utils/reserved_ids.py.  A
    write that violates a constraint raises [IntegrityError]; rows written before it
    stay written, as the connection is in autocommit mode. *)

From S2P Require Import Prelude PyDict PyStr PyVal Errors Privilege.

Module Acct.

(** ** Constants (plugins/account_/constants.py) *)

Definition ADMIN_UID : Z := 950.
Definition ADMIN_GID : Z := 950.
Definition MIN_AUTO_XID : Z := 3000.
Definition DEFAULT_HOME_PATH : string := "/var/empty".
Definition NO_LOGIN_SHELL : string := "/usr/sbin/nologin".
Definition USERNS_IDMAP_DIRECT : Z := -1.
Definition USERNS_IDMAP_NONE : Z := 0.
Definition ALLOWED_BUILTIN_GIDS : list Z := [14; 445; 544; 545; 568; 951; 952]%Z.
Definition BASE_SYNTHETIC_DATASTORE_ID : Z := 100000000.
Definition CONTAINER_ROOT_UID : Z := 2147000001.
Definition CONTAINER_ROOT_NAME : string := "truenas_container_unpriv_root".

(** ** Rows *)

(** A value of a column [userns_idmap]: the column is an integer column, in which
    the database also keeps the text the builtin accounts are created with. *)
Inductive idmap_col := IdmapInt (n : Z) | IdmapText (s : string).

#[global] Instance idmap_col_eq_dec : EqDecision idmap_col.
Proof. solve_decision. Defined.

Record group_row := mkGroup {
  g_id : Z;
  g_gid : Z;
  g_group : string;
  g_builtin : bool;
  g_sudo_commands : list string;
  g_sudo_commands_nopasswd : list string;
  g_smb : bool;
  g_userns_idmap : idmap_col;
}.

Record user_row := mkUser {
  u_id : Z;
  u_uid : Z;
  u_username : string;
  u_unixhash : string;
  u_smbhash : string;
  u_home : string;
  u_shell : string;
  u_full_name : string;
  u_builtin : bool;
  u_smb : bool;
  u_userns_idmap : idmap_col;
  u_password_disabled : bool;
  u_ssh_password_enabled : bool;
  u_locked : bool;
  u_sudo_commands : list string;
  u_sudo_commands_nopasswd : list string;
  u_group : Z;
  u_email : option string;
  u_last_password_change : option Z;
  u_password_history : option string;
}.

(** A row of [account.privilege], around the record of [Privilege]. *)
Record priv_row := mkPrivRow { pr_id : Z; pr_builtin_name : option string; pr_priv : privilege }.

(** A row of [account_bsdgroupmembership]. *)
Record member := mkMember { m_group : Z; m_user : Z }.

#[global] Instance member_eq_dec : EqDecision member.
Proof. solve_decision. Defined.

(** ** Calls that leave the process *)

(** The calls whose outcome the environment decides, with what the model keeps of
    their arguments. *)
Inductive ext_call :=
| ReloadSsh
| ReloadUser
| EtcGenerate (what : string)
| UpdatePassdbUser (username : string)
| RemovePassdbUser (username : string) (sid : option string)
| AddGroupmap (id : Z) (group : string)
| DelGroupmap (id : Z)
| DelIdmapCacheEntry (entry_type : string) (xid : Z)
| ResetTally (username : string)
| Mkdir (path mode : string)
| SetPerm (path mode : string) (uid gid : option Z)
| Rmtree (path : string)
| Makedirs (path : string)
| HomeCopy (old new username : string) (mode : option string) (uid : Z)
| CopySkel (home : string) (uid gid : Z)
| UpdateSshPubkey (home : string) (pubkey : option string) (group : string)
| UpdateSshPubkeyRemote
| SetAuthenticationMethod (username password : string)
| ForceSend
| WebUiLoginDisabled (usernames : list string).

(** ** The state *)

Record adb := mkDb {
  users : list user_row;
  user_seq : Z;  (** the last id given to a user, ids are not used twice *)
  groups : list group_row;
  group_seq : Z;
  members : list member;
  privs : list priv_row;
  priv_seq : Z;
  twofactor : list (Z * option string);  (** user and secret *)
  webui_attributes : list Z;  (** uids with attributes of the user interface *)
  cifs_guest : option string;
  ReservedUids : list (Z * Z);  (** id and expiry *)
  ReservedGids : list (Z * Z);
  passwd : list (Z * string);  (** /etc/passwd: uid and name *)
  group_file : list (Z * string);  (** /etc/group *)
  previous_always_root : option bool;
  calls : list ext_call;
}.

Definition set_users (v : list user_row) (d : adb) : adb :=
  mkDb v (user_seq d) (groups d) (group_seq d) (members d) (privs d) (priv_seq d) (twofactor d) (webui_attributes d) (cifs_guest d) (ReservedUids d) (ReservedGids d) (passwd d) (group_file d) (previous_always_root d) (calls d).
Definition set_user_seq (v : Z) (d : adb) : adb :=
  mkDb (users d) v (groups d) (group_seq d) (members d) (privs d) (priv_seq d) (twofactor d) (webui_attributes d) (cifs_guest d) (ReservedUids d) (ReservedGids d) (passwd d) (group_file d) (previous_always_root d) (calls d).
Definition set_groups (v : list group_row) (d : adb) : adb :=
  mkDb (users d) (user_seq d) v (group_seq d) (members d) (privs d) (priv_seq d) (twofactor d) (webui_attributes d) (cifs_guest d) (ReservedUids d) (ReservedGids d) (passwd d) (group_file d) (previous_always_root d) (calls d).
Definition set_group_seq (v : Z) (d : adb) : adb :=
  mkDb (users d) (user_seq d) (groups d) v (members d) (privs d) (priv_seq d) (twofactor d) (webui_attributes d) (cifs_guest d) (ReservedUids d) (ReservedGids d) (passwd d) (group_file d) (previous_always_root d) (calls d).
Definition set_members (v : list member) (d : adb) : adb :=
  mkDb (users d) (user_seq d) (groups d) (group_seq d) v (privs d) (priv_seq d) (twofactor d) (webui_attributes d) (cifs_guest d) (ReservedUids d) (ReservedGids d) (passwd d) (group_file d) (previous_always_root d) (calls d).
Definition set_privs (v : list priv_row) (d : adb) : adb :=
  mkDb (users d) (user_seq d) (groups d) (group_seq d) (members d) v (priv_seq d) (twofactor d) (webui_attributes d) (cifs_guest d) (ReservedUids d) (ReservedGids d) (passwd d) (group_file d) (previous_always_root d) (calls d).
Definition set_priv_seq (v : Z) (d : adb) : adb :=
  mkDb (users d) (user_seq d) (groups d) (group_seq d) (members d) (privs d) v (twofactor d) (webui_attributes d) (cifs_guest d) (ReservedUids d) (ReservedGids d) (passwd d) (group_file d) (previous_always_root d) (calls d).
Definition set_twofactor (v : list (Z * option string)) (d : adb) : adb :=
  mkDb (users d) (user_seq d) (groups d) (group_seq d) (members d) (privs d) (priv_seq d) v (webui_attributes d) (cifs_guest d) (ReservedUids d) (ReservedGids d) (passwd d) (group_file d) (previous_always_root d) (calls d).
Definition set_webui_attributes (v : list Z) (d : adb) : adb :=
  mkDb (users d) (user_seq d) (groups d) (group_seq d) (members d) (privs d) (priv_seq d) (twofactor d) v (cifs_guest d) (ReservedUids d) (ReservedGids d) (passwd d) (group_file d) (previous_always_root d) (calls d).
Definition set_cifs_guest (v : option string) (d : adb) : adb :=
  mkDb (users d) (user_seq d) (groups d) (group_seq d) (members d) (privs d) (priv_seq d) (twofactor d) (webui_attributes d) v (ReservedUids d) (ReservedGids d) (passwd d) (group_file d) (previous_always_root d) (calls d).
Definition set_ReservedUids (v : list (Z * Z)) (d : adb) : adb :=
  mkDb (users d) (user_seq d) (groups d) (group_seq d) (members d) (privs d) (priv_seq d) (twofactor d) (webui_attributes d) (cifs_guest d) v (ReservedGids d) (passwd d) (group_file d) (previous_always_root d) (calls d).
Definition set_ReservedGids (v : list (Z * Z)) (d : adb) : adb :=
  mkDb (users d) (user_seq d) (groups d) (group_seq d) (members d) (privs d) (priv_seq d) (twofactor d) (webui_attributes d) (cifs_guest d) (ReservedUids d) v (passwd d) (group_file d) (previous_always_root d) (calls d).
Definition set_files (p g : list (Z * string)) (d : adb) : adb :=
  mkDb (users d) (user_seq d) (groups d) (group_seq d) (members d) (privs d) (priv_seq d) (twofactor d) (webui_attributes d) (cifs_guest d) (ReservedUids d) (ReservedGids d) p g (previous_always_root d) (calls d).
Definition set_previous_always_root (v : option bool) (d : adb) : adb :=
  mkDb (users d) (user_seq d) (groups d) (group_seq d) (members d) (privs d) (priv_seq d) (twofactor d) (webui_attributes d) (cifs_guest d) (ReservedUids d) (ReservedGids d) (passwd d) (group_file d) v (calls d).
Definition set_calls (v : list ext_call) (d : adb) : adb :=
  mkDb (users d) (user_seq d) (groups d) (group_seq d) (members d) (privs d) (priv_seq d) (twofactor d) (webui_attributes d) (cifs_guest d) (ReservedUids d) (ReservedGids d) (passwd d) (group_file d) (previous_always_root d) v.

Notation op := (STE adb exn).

(** ** Writes *)

Definition IntegrityError : exn := EOther "IntegrityError" "constraint failed".
Definition NoRowsWereUpdated : exn := EOther "NoRowsWereUpdatedException" "".
Definition MatchNotFound : exn := EOther "MatchNotFound" "".

Definition check (b : bool) (e : exn) : op unit := fun d => (d, if b then Ok tt else Err e).

Definition has_user (id : Z) (d : adb) : bool := existsb (fun u => u_id u =? id)%Z (users d).
Definition has_group (id : Z) (d : adb) : bool := existsb (fun g => g_id g =? id)%Z (groups d).

Definition find_user (id : Z) (d : adb) : option user_row := List.find (fun u => u_id u =? id)%Z (users d).
Definition find_group (id : Z) (d : adb) : option group_row := List.find (fun g => g_id g =? id)%Z (groups d).
Definition group_by_name (n : string) (d : adb) : option group_row := List.find (fun g => String.eqb (g_group g) n) (groups d).
Definition user_by_name (n : string) (d : adb) : option user_row := List.find (fun u => String.eqb (u_username u) n) (users d).

(** One row of the membership table; both foreign keys are checked. *)
Definition add_member (m : member) : op unit := fun d =>
  if has_group (m_group m) d && has_user (m_user m) d then (set_members (members d ++ [m]) d, Ok tt)
  else (d, Err IntegrityError).

Fixpoint add_members (l : list member) : op unit :=
  match l with
  | [] => mret tt
  | m :: l => _ ← add_member m; add_members l
  end.

(** [_handle_relationships]: the rows of the object are replaced, one by one. *)
Definition set_user_groups (pk : Z) (l : list Z) : op unit :=
  _ ← modify (fun d => set_members (List.filter (fun m => negb (m_user m =? pk)%Z) (members d)) d);
  add_members (map (fun g => mkMember g pk) l).

Definition set_group_users (pk : Z) (l : list Z) : op unit :=
  _ ← modify (fun d => set_members (List.filter (fun m => negb (m_group m =? pk)%Z) (members d)) d);
  add_members (map (fun u => mkMember pk u) l).

(** [try: m except Exception: h; raise] *)
Definition on_error {A} (m : op A) (h : op unit) : op A := fun d =>
  match m d with
  | (d, Ok a) => (d, Ok a)
  | (d, Err e) => match h d with (d, Ok _) => (d, Err e) | (d, Err e') => (d, Err e') end
  end.

(** [try: m finally: h] *)
Definition finally {A} (m : op A) (h : op unit) : op A := fun d =>
  match m d with
  | (d, r) => match h d with (d, Ok _) => (d, r) | (d, Err e) => (d, Err e) end
  end.

(** [try: m except Exception: pass] *)
Definition ignoring (m : op unit) : op unit := fun d => ((m d).1, Ok tt).

Definition set_g_id (id : Z) (g : group_row) : group_row :=
  mkGroup id (g_gid g) (g_group g) (g_builtin g) (g_sudo_commands g) (g_sudo_commands_nopasswd g) (g_smb g) (g_userns_idmap g).

Definition set_u_id (id : Z) (u : user_row) : user_row :=
  mkUser id (u_uid u) (u_username u) (u_unixhash u) (u_smbhash u) (u_home u) (u_shell u) (u_full_name u) (u_builtin u) (u_smb u)
    (u_userns_idmap u) (u_password_disabled u) (u_ssh_password_enabled u) (u_locked u) (u_sudo_commands u)
    (u_sudo_commands_nopasswd u) (u_group u) (u_email u) (u_last_password_change u) (u_password_history u).

Definition set_u_group (g : Z) (u : user_row) : user_row :=
  mkUser (u_id u) (u_uid u) (u_username u) (u_unixhash u) (u_smbhash u) (u_home u) (u_shell u) (u_full_name u) (u_builtin u) (u_smb u)
    (u_userns_idmap u) (u_password_disabled u) (u_ssh_password_enabled u) (u_locked u) (u_sudo_commands u)
    (u_sudo_commands_nopasswd u) g (u_email u) (u_last_password_change u) (u_password_history u).

(** The row without its memberships: the id is the next of the table. *)
Definition insert_group_row (g : group_row) : op Z := fun d =>
  if existsb (fun x => String.eqb (g_group x) (g_group g)) (groups d) then (d, Err IntegrityError)
  else let id := (group_seq d + 1)%Z in (set_group_seq id (set_groups (groups d ++ [set_g_id id g]) d), Ok id).

Definition delete_group (pk : Z) : op unit := fun d =>
  if existsb (fun u => u_group u =? pk)%Z (users d) then (d, Err IntegrityError)
  else (set_members (List.filter (fun m => negb (m_group m =? pk)%Z) (members d))
          (set_groups (List.filter (fun g => negb (g_id g =? pk)%Z) (groups d)) d), Ok tt).

Definition insert_group (g : group_row) (l : option (list Z)) : op Z :=
  pk ← insert_group_row g;
  _ ← on_error (match l with Some l => set_group_users pk l | None => mret tt end) (delete_group pk);
  mret pk.

Definition update_group_row (pk : Z) (f : group_row -> group_row) : op unit := fun d =>
  match find_group pk d with
  | None => (d, Err NoRowsWereUpdated)
  | Some g =>
      if existsb (fun x => negb (g_id x =? pk)%Z && String.eqb (g_group x) (g_group (f g))) (groups d)
      then (d, Err IntegrityError)
      else (set_groups (map (fun x => if (g_id x =? pk)%Z then set_g_id pk (f x) else x) (groups d)) d, Ok tt)
  end.

Definition insert_user_row (u : user_row) : op Z := fun d =>
  if existsb (fun x => String.eqb (u_username x) (u_username u)) (users d) || negb (has_group (u_group u) d)
  then (d, Err IntegrityError)
  else let id := (user_seq d + 1)%Z in (set_user_seq id (set_users (users d ++ [set_u_id id u]) d), Ok id).

(** Memberships and second factors of the user go with it. *)
Definition delete_user (pk : Z) : op unit := fun d =>
  (set_twofactor (List.filter (fun t => negb (t.1 =? pk)%Z) (twofactor d))
     (set_members (List.filter (fun m => negb (m_user m =? pk)%Z) (members d))
        (set_users (List.filter (fun u => negb (u_id u =? pk)%Z) (users d)) d)), Ok tt).

Definition insert_user (u : user_row) (l : list Z) : op Z :=
  pk ← insert_user_row u;
  _ ← on_error (set_user_groups pk l) (delete_user pk);
  mret pk.

Definition update_user_row (pk : Z) (f : user_row -> user_row) : op unit := fun d =>
  match find_user pk d with
  | None => (d, Err NoRowsWereUpdated)
  | Some u =>
      if existsb (fun x => negb (u_id x =? pk)%Z && String.eqb (u_username x) (u_username (f u))) (users d)
         || negb (has_group (u_group (f u)) d)
      then (d, Err IntegrityError)
      else (set_users (map (fun x => if (u_id x =? pk)%Z then set_u_id pk (f x) else x) (users d)) d, Ok tt)
  end.

Definition insert_twofactor (user : Z) : op unit := fun d =>
  if has_user user d then (set_twofactor (twofactor d ++ [(user, None)]) d, Ok tt) else (d, Err IntegrityError).

Definition insert_privilege (b : option string) (p : privilege) : op Z := fun d =>
  let id := (priv_seq d + 1)%Z in (set_priv_seq id (set_privs (privs d ++ [mkPrivRow id b p]) d), Ok id).

Definition update_privilege (pk : Z) (b : option string) (p : privilege) : op unit := fun d =>
  if existsb (fun x => pr_id x =? pk)%Z (privs d)
  then (set_privs (map (fun x => if (pr_id x =? pk)%Z then mkPrivRow pk b p else x) (privs d)) d, Ok tt)
  else (d, Err NoRowsWereUpdated).

Definition delete_privilege (pk : Z) : op unit := fun d =>
  (set_privs (List.filter (fun x => negb (pr_id x =? pk)%Z) (privs d)) d, Ok tt).

(** ** Reads of the membership *)

Definition dedup (l : list Z) : list Z := foldr (fun x l => if bool_decide (x ∈ l) then l else x :: l) [] l.

(** [user['groups']] and [group['users']]: the sets of the ids on the other side. *)
Definition groups_of (pk : Z) (d : adb) : list Z :=
  dedup (map m_group (List.filter (fun m => m_user m =? pk)%Z (members d))).
Definition users_of (pk : Z) (d : adb) : list Z :=
  dedup (map m_user (List.filter (fun m => m_group m =? pk)%Z (members d))).

(** ** Reserved ids (utils/reserved_ids.py) *)

Definition LOCKED_XID_TTL : Z := 3600.

(** [available] forgets the reservation when it has expired. *)
Definition available (now xid : Z) (in_flight : list (Z * Z)) : list (Z * Z) * bool :=
  match Dict.get xid in_flight with
  | None => (in_flight, true)
  | Some expiry => if (expiry <? now)%Z then (Dict.pop xid in_flight, true) else (in_flight, false)
  end.

Definition add_entry (now xid : Z) (in_flight : list (Z * Z)) : result exn (list (Z * Z)) :=
  let '(in_flight, b) := available now xid in_flight in
  if b then Ok (Dict.set xid (now + LOCKED_XID_TTL)%Z in_flight) else Err (EOther "AssertionError" "").

Definition remove_entry (xid : Z) (in_flight : list (Z * Z)) : list (Z * Z) := Dict.pop xid in_flight.

(** [in_use]: the reservations that hold; the others are forgotten. *)
Fixpoint in_use_loop (now : Z) (keys : list Z) (in_flight : list (Z * Z)) : list (Z * Z) * list Z :=
  match keys with
  | [] => (in_flight, [])
  | k :: keys =>
      let '(in_flight, b) := available now k in_flight in
      let '(in_flight, l) := in_use_loop now keys in_flight in
      (in_flight, if b then l else k :: l)
  end.

Definition in_use (now : Z) (in_flight : list (Z * Z)) : list (Z * Z) * list Z := in_use_loop now (Dict.keys in_flight) in_flight.

(** [max(total) if total else MIN_AUTO_XID - 1], the least gap above [MIN_AUTO_XID],
    or the next id. *)
Definition max_xid (total : list Z) : Z := match total with [] => MIN_AUTO_XID - 1 | x :: l => foldl Z.max x l end.

Definition next_xid (total : list Z) : Z :=
  let max_xid := max_xid total in
  let range := map (fun i => MIN_AUTO_XID + Z.of_nat i)%Z (seq 0 (Z.to_nat (max_xid - MIN_AUTO_XID))) in
  match List.filter (fun x => negb (bool_decide (x ∈ total))) range with
  | x :: _ => x
  | [] => (max_xid + 1)%Z
  end.

End Acct.
