(* ===== verification/Groups.v ===== *)
(** * Groups and privileges (plugins/account.py, plugins/account_/privilege.py and
    plugins/account_/builtin_administrator.py)

    The services [group] and [privilege] on the tables of [AccountDb], and the
    lookups of accounts both share with the service [user]. *)

From S2P Require Import Prelude PyDict PyStr PyVal PyFormat Errors Privilege AccountDb.

Module Groups.
Import Acct.

(** ** The environment *)

Record security_config := mkSec {
  enable_gpos_stig : bool;
  min_password_age : option Z;
  max_password_age : option Z;
  password_complexity_ruleset : list string;
  min_password_length : option Z;
  password_history_length : option Z;
}.

(** An account of a directory service. *)
Record ds_account := mkDs { ds_id : Z; ds_name : string; ds_module : string; ds_sid : option string }.

Record aenv := mkAenv {
  time_now : Z;  (** [utc_now()], in seconds *)
  clock : Z;  (** [time.monotonic()], in seconds *)
  outcome : ext_call -> result exn unit;
  ds_users : list ds_account;
  ds_groups_ : list ds_account;
  smb_is_configured : bool;
  sysdataset_path : bool;
  security : security_config;
  server_sid : string;
  (** [shlex.split]; the text of its [ValueError] *)
  shlex_split : string -> result string (list string);
  normpath : string -> string;
  glob : string -> list string;
  is_executable : string -> bool;
  (** [_ds_groups] with [include_nonexistent=False] finds the group *)
  ds_group_exists : group_id -> bool;
  (** the directory service groups of a privilege as [item_extend] shows them, named
      by SID or GID again *)
  ds_extend : list group_id -> list group_id;
  roles_known : list string;
}.

(** A call that leaves the process.  When the user files are generated they show the
    rows of the tables. *)
Definition ext (e : aenv) (c : ext_call) : op unit := fun d =>
  let d := set_calls (calls d ++ [c]) d in
  match outcome e c with
  | Err x => (d, Err x)
  | Ok _ =>
      (match c with
       | ReloadUser => set_files (map (fun u => (u_uid u, u_username u)) (users d)) (map (fun g => (g_gid g, g_group g)) (groups d)) d
       | _ => d
       end, Ok tt)
  end.

(** ** Errors *)

Definition EEXIST : Z := 17.

(** [if b: verrors.add(attr, msg, errno)] *)
Definition add_if (b : bool) (attr msg : string) (errno : Z) (v : VErrors.t) : VErrors.t :=
  if b then VErrors.add (Some attr) msg errno v else v.

Definition is_nonempty {A} (l : list A) : bool := match l with [] => false | _ => true end.

(** ** Shared validation *)

Definition DQ : string := Fmt.one Fmt.quote.
Definition TAB : Ascii.ascii := Ascii.ascii_of_nat 9.

Definition invalid_chars : list Ascii.ascii :=
  (String.list_ascii_of_string " ,:+&#%^()!@~*?<>=|/") ++ [TAB; Fmt.backslash; Fmt.quote].

Definition high_bit (c : Ascii.ascii) : bool := 128 <=? Ascii.nat_of_ascii c.

(** The invalid characters of a name: each of the list once, the others every time. *)
Fixpoint invalids (l : list Ascii.ascii) (seen : list Ascii.ascii) : list Ascii.ascii :=
  match l with
  | [] => seen
  | c :: l =>
      if (bool_decide (c ∈ invalid_chars) && negb (bool_decide (c ∈ seen))) || high_bit c
      then invalids l (seen ++ [c]) else invalids l seen
  end.

Definition pw_checkname (attribute name : string) (v : VErrors.t) : VErrors.t :=
  let v := add_if (Str.startswith "-" name) attribute
             ("Name must begin with an alphanumeric character and not a " +:+ DQ +:+ "-" +:+ DQ +:+ ".") EINVAL v in
  let v := add_if (match Str.find (Ascii.ascii_of_nat 36) name with None => false | Some i => negb (i =? String.length name - 1) end) attribute
             "The character $ is only allowed as the final character." EINVAL v in
  let bad := invalids (String.list_ascii_of_string name) [] in
  add_if (is_nonempty bad) attribute
    ("name contains invalid characters: " +:+ Str.join ", " (map Fmt.one bad)) EINVAL v.

Fixpoint rstrip_slash (s : string) : string :=
  match s with
  | EmptyString => EmptyString
  | String c s' => match rstrip_slash s' with
                   | EmptyString => if Ascii.eqb c (Ascii.ascii_of_nat 47) then EmptyString else String c EmptyString
                   | r => String c r
                   end
  end.

(** One command; the text of the [ValueError], if any.  [shlex.split] of blanks is
    empty, and the [IndexError] is not caught. *)
Definition sudo_command (e : aenv) (command : string) : result exn (option string) :=
  match shlex_split e command with
  | Err msg => Ok (Some msg)
  | Ok [] => Err (EOther "IndexError" "list index out of range")
  | Ok (x :: _) =>
      Ok (if String.eqb x "ALL" then None
          else if negb (Str.startswith "/" x) then Some "Executable must be an absolute path"
          else if negb (String.eqb (rstrip_slash (normpath e x)) (rstrip_slash x)) then Some "Executable path must be normalized"
          else match glob e x with
               | [] => Some ("No paths matching " +:+ Fmt.repr_str x +:+ " exist")
               | paths =>
                   if Str.endswith "/" x || existsb (is_executable e) paths then None
                   else Some ("None of the paths matching " +:+ Fmt.repr_str x +:+ " is executable")
               end)
  end.

Fixpoint index_of (x : string) (l : list string) (i : nat) : nat :=
  match l with [] => i | y :: l => if String.eqb x y then i else index_of x l (S i) end.

Fixpoint sudo_loop (e : aenv) (l : list string) (i : nat) (v : VErrors.t) : result exn VErrors.t :=
  match l with
  | [] => Ok v
  | c :: l =>
      m ← sudo_command e c;
      sudo_loop e l (S i) (match m with Some msg => VErrors.add (Some (pretty i)) msg EINVAL v | None => v end)
  end.

Definition validate_sudo_commands (e : aenv) (commands : list string) : result exn VErrors.t :=
  if bool_decide ("ALL" ∈ commands) && negb (length commands =? 1)
  then Ok (VErrors.add (Some (pretty (index_of "ALL" commands 0))) "ALL cannot be used with other commands" EINVAL [])
  else sudo_loop e commands 0 [].

(** [if key in data: verrors.add_child(...)] *)
Definition check_sudo (e : aenv) (attr : string) (o : option (list string)) (v : VErrors.t) : result exn VErrors.t :=
  match o with
  | None => Ok v
  | Some l => child ← validate_sudo_commands e l; Ok (VErrors.add_child attr child v)
  end.

(** ** Name service *)

Record nss_obj := mkNss { nss_id : Z; nss_name : string; nss_source : string }.

Definition source_of (module : string) : result exn string :=
  if String.eqb module "FILES" then Ok "LOCAL"
  else if String.eqb module "WINBIND" then Ok "ACTIVEDIRECTORY"
  else if String.eqb module "SSS" then Ok "LDAP"
  else Err (EOther "ValueError" (module +:+ ": unknown ID source. Please file a bug report.")).

Definition nss_entries (file : list (Z * string)) (ds : list ds_account) : list (Z * string * string) :=
  map (fun '(i, n) => (i, n, "FILES")) file ++ map (fun a => (ds_id a, ds_name a, ds_module a)) ds.

Definition nss_find (p : Z * string * string -> bool) (file : list (Z * string)) (ds : list ds_account) (missing : string)
    : result exn nss_obj :=
  match List.find p (nss_entries file ds) with
  | None => Err (EOther "KeyError" missing)
  | Some (i, n, m) => src ← source_of m; Ok (mkNss i n src)
  end.

(** [user.get_user_obj] by uid and by name, as the modelled code calls it. *)
Definition get_user_by_uid (e : aenv) (uid : Z) (d : adb) : result exn nss_obj :=
  if (uid =? CONTAINER_ROOT_UID)%Z then Ok (mkNss CONTAINER_ROOT_UID CONTAINER_ROOT_NAME "LOCAL")
  else nss_find (fun x => x.1.1 =? uid)%Z (passwd d) (ds_users e) (pretty uid +:+ ": user with this id does not exist").

Definition get_user_by_name (e : aenv) (name : string) (d : adb) : result exn nss_obj :=
  if String.eqb name "" then
    Err (EValidationErrors [mkVE (Some "get_user_obj.username") ("Either " +:+ DQ +:+ "username" +:+ DQ +:+ " or " +:+ DQ +:+ "uid" +:+ DQ +:+ " must be specified.") EINVAL])
  else if String.eqb name CONTAINER_ROOT_NAME then Ok (mkNss CONTAINER_ROOT_UID CONTAINER_ROOT_NAME "LOCAL")
  else nss_find (fun x => String.eqb x.1.2 name) (passwd d) (ds_users e) (name +:+ ": user with this name does not exist").

Definition get_group_by_gid (e : aenv) (gid : Z) (d : adb) : result exn nss_obj :=
  nss_find (fun x => x.1.1 =? gid)%Z (group_file d) (ds_groups_ e) (pretty gid +:+ ": group with this id does not exist").

Definition get_group_by_name (e : aenv) (name : string) (d : adb) : result exn nss_obj :=
  if String.eqb name "" then
    Err (EValidationErrors [mkVE (Some "get_group_obj.groupname") ("Either " +:+ DQ +:+ "groupname" +:+ DQ +:+ " or " +:+ DQ +:+ "gid" +:+ DQ +:+ " must be specified") EINVAL])
  else nss_find (fun x => String.eqb x.1.2 name) (group_file d) (ds_groups_ e) (name +:+ ": group with this name does not exist").

(** [try: obj = ... except KeyError: pass] *)
Definition unless_missing (r : result exn nss_obj) : result exn (option nss_obj) :=
  match r with
  | Ok o => Ok (Some o)
  | Err (EOther cls _ as x) => if String.eqb cls "KeyError" then Ok None else Err x
  | Err x => Err x
  end.

(** ** Entries of groups *)

(** [userns_idmap] as the API shows it and as it is stored. *)
Definition idmap_extend (c : idmap_col) : option idmap_col :=
  if decide (c = IdmapInt USERNS_IDMAP_DIRECT) then Some (IdmapText "DIRECT")
  else if decide (c = IdmapInt USERNS_IDMAP_NONE) then None else Some c.

Definition idmap_compress (v : option idmap_col) : idmap_col :=
  match v with
  | None => IdmapInt USERNS_IDMAP_NONE
  | Some c => if decide (c = IdmapText "DIRECT") then IdmapInt USERNS_IDMAP_DIRECT else c
  end.

Definition idmap_set (v : option idmap_col) : bool :=
  match v with
  | None => false
  | Some c => negb (bool_decide (c = IdmapInt 0)) && negb (bool_decide (c = IdmapText ""))
  end.

Record group_entry := mkGE {
  ge_row : group_row;
  ge_users : list Z;
  ge_userns_idmap : option idmap_col;
  ge_sid : option string;
  ge_immutable : bool;
  ge_roles : gset string;
}.

Definition group_roles (gid : Z) (d : adb) : gset string :=
  (privileges_group_mapping (map pr_priv (privs d)) [Gid gid] local_groups).1.

(** The users that have the group as their primary group. *)
Definition primary_users (pk : Z) (d : adb) : list Z := map u_id (List.filter (fun u => u_group u =? pk)%Z (users d)).

Definition group_sid (e : aenv) (g : group_row) : option string :=
  if String.eqb (g_group g) "builtin_administrators" then Some (server_sid e +:+ "-512")
  else if String.eqb (g_group g) "builtin_guests" then Some (server_sid e +:+ "-514")
  else if g_smb g then Some (server_sid e +:+ "-" +:+ pretty (g_id g + 200000)%Z) else None.

Definition group_extend (e : aenv) (d : adb) (g : group_row) : group_entry :=
  mkGE g (dedup (users_of (g_id g) d ++ primary_users (g_id g) d)) (idmap_extend (g_userns_idmap g)) (group_sid e g)
    (g_builtin g && negb (bool_decide (g_gid g ∈ ALLOWED_BUILTIN_GIDS))) (group_roles (g_gid g) d).

(** [group.get_instance] of a local group. *)
Definition group_get_instance (e : aenv) (pk : Z) : op group_entry := fun d =>
  match find_group pk d with
  | Some g => (d, Ok (group_extend e d g))
  | None => (d, Err (InstanceNotFound ("Group " +:+ pretty pk +:+ " does not exist")))
  end.

(** ** Next gid *)

Definition gids_of (p : privilege) : list Z :=
  omap (fun g => match g with Gid n => Some n | Sid _ => None end) (p_local_groups p).

(** [privilege.used_local_gids]: the first privilege that uses each gid. *)
Definition used_local_gids (d : adb) : list (Z * privilege) :=
  foldl (fun acc p => foldl (fun acc g => if Dict.mem g acc then acc else acc ++ [(g, p)]) acc (gids_of p)) [] (map pr_priv (privs d)).

Definition used_gids (d : adb) : list Z :=
  map g_gid (List.filter (fun g => (MIN_AUTO_XID <=? g_gid g)%Z && negb (g_builtin g)) (groups d))
  ++ List.filter (fun g => MIN_AUTO_XID <=? g)%Z (Dict.keys (used_local_gids d)).

Definition get_next_gid (e : aenv) : op Z := fun d =>
  let '(in_flight, reserved) := in_use (clock e) (ReservedGids d) in
  let next := next_xid (used_gids d ++ reserved) in
  match add_entry (clock e) next in_flight with
  | Ok in_flight => (set_ReservedGids in_flight d, Ok next)
  | Err x => (set_ReservedGids in_flight d, Err x)
  end.

(** ** Validation *)

(** The fields of [group.create] and [group.update]; [None] is an absent key. *)
Record group_data := mkGD {
  gd_name : option string;
  gd_gid : option Z;
  gd_smb : option bool;
  gd_sudo_commands : option (list string);
  gd_sudo_commands_nopasswd : option (list string);
  gd_userns_idmap : option (option idmap_col);
  gd_users : option (list Z);
}.

Definition SMBBuiltin : list string := ["ADMINISTRATORS"; "GUESTS"; "USERS"].

Definition upper_char (c : Ascii.ascii) : Ascii.ascii :=
  let n := Ascii.nat_of_ascii c in if (97 <=? n) && (n <=? 122) then Ascii.ascii_of_nat (n - 32) else c.
Fixpoint upper (s : string) : string := match s with EmptyString => EmptyString | String c s => String (upper_char c) (upper s) end.

(** The filter operator [C=]: equal but for case. *)
Definition same_caseless (a b : string) : bool := String.eqb (Str.lower a) (Str.lower b).

Definition other_than (pk : option Z) (id : Z) : bool := match pk with Some pk => negb (id =? pk)%Z | None => true end.

Definition validate_group_idmap (e : aenv) (d : adb) (schema : string) (data : group_data) (pk : option Z) (v : VErrors.t)
    : result exn VErrors.t :=
  match gd_userns_idmap data, pk with
  | Some _, Some pk =>
      match find_group pk d with
      | None => Err MatchNotFound
      | Some g =>
          let v := add_if (bool_decide (group_roles (g_gid g) d ≠ ∅)) (schema +:+ ".userns_idmap")
                     "User namespace idmaps may not be configured for privileged accounts." EINVAL v in
          Ok (add_if (g_builtin g) (schema +:+ ".userns_idmap")
                "User namespace idmaps may not be configured for builtin accounts." EINVAL v)
      end
  | _, _ => Ok v
  end.

Definition validate_group_name (d : adb) (schema : string) (data : group_data) (pk : option Z) (v : VErrors.t) : VErrors.t :=
  match gd_name data with
  | None => v
  | Some name =>
      let smb := default false (gd_smb data) in
      let v := add_if (smb && bool_decide (upper name ∈ SMBBuiltin)) (schema +:+ ".name")
                 ("Group name " +:+ DQ +:+ name +:+ DQ +:+ " conflicts with existing SMB Builtin entry. SMB group mapping is not permitted for this group.")
                 EEXIST v in
      let v := add_if (smb && existsb (fun g => g_smb g && other_than pk (g_id g) && same_caseless (g_group g) name) (groups d)) (schema +:+ ".name")
                 ("Group name " +:+ DQ +:+ name +:+ DQ +:+ " conflicts with existing groupmap entry. SMB group mapping is not permitted for this group. Note that SMB group names are case-insensitive.")
                 EEXIST v in
      let v := add_if (existsb (fun g => String.eqb (g_group g) name && other_than pk (g_id g)) (groups d)) (schema +:+ ".name")
                 ("A Group with the name " +:+ DQ +:+ name +:+ DQ +:+ " already exists.") EEXIST v in
      pw_checkname (schema +:+ ".name") name v
  end.

Definition validate_gid (e : aenv) (d : adb) (schema : string) (data : group_data) (v : VErrors.t) : result exn VErrors.t :=
  match gd_gid data with
  | None => Ok v
  | Some gid =>
      existing ← unless_missing (get_group_by_gid e gid d);
      let v := match existing with
               | Some x => VErrors.add (Some (schema +:+ ".gid"))
                             ("Gid " +:+ pretty gid +:+ " is already used (group " +:+ nss_name x +:+ " has it)") EEXIST v
               | None => v
               end in
      Ok (match Dict.get gid (used_local_gids d) with
          | Some p => VErrors.add (Some (schema +:+ ".gid"))
                        ("A privilege " +:+ Fmt.repr_str (p_name p) +:+ " already uses this group ID.") EINVAL v
          | None => v
          end)
  end.

(** The position of the first user of a directory service. *)
Fixpoint first_ds (l : list Z) (i : nat) : option nat :=
  match l with [] => None | x :: l => if (BASE_SYNTHETIC_DATASTORE_ID <=? x)%Z then Some i else first_ds l (S i) end.

Definition validate_members (d : adb) (schema : string) (creating : bool) (pk : option Z) (pk_groupname : option string)
    (root_user_id : Z) (l : list Z) (v : VErrors.t) : VErrors.t :=
  let admins := bool_decide (pk_groupname = Some "builtin_administrators") in
  let v := add_if ((creating || negb admins) && bool_decide (root_user_id ∈ l)) (schema +:+ ".users")
             "Cannot add the root user to this group" EINVAL v in
  let notfound := List.filter (fun x => negb (has_user x d)) (dedup l) in
  let v := add_if (is_nonempty notfound) (schema +:+ ".users")
             ("Following users do not exist: " +:+ Str.join ", " (map pretty notfound)) EINVAL v in
  let removed := match pk with
                 | Some pk => List.filter (fun u => (u_group u =? pk)%Z && negb (bool_decide (u_id u ∈ l))) (users d)
                 | None => []
                 end in
  let v := add_if (is_nonempty removed) (schema +:+ ".users")
             ("This group is primary for the following users: " +:+ Str.join ", " (map u_username removed)
              +:+ ". You can't remove them.") EINVAL v in
  match pk with
  | Some _ => add_if (admins && negb (bool_decide (root_user_id ∈ l))) (schema +:+ ".users")
                "The root user must remain a member of the builtin_administrators group." EINVAL v
  | None => v
  end.

(** [__common_validation] *)
Definition group_common_validation (e : aenv) (schema : string) (data : group_data) (pk : option Z) (d : adb)
    : result exn VErrors.t :=
  let v := add_if (default false (gd_smb data) && negb (smb_is_configured e)) (schema +:+ ".smb")
             "SMB groups may not be configured while SMB service backend is unitialized." EINVAL [] in
  v ← validate_group_idmap e d schema data pk v;
  let v := validate_group_name d schema data pk v in
  v ← validate_gid e d schema data v;
  match first_ds (default [] (gd_users data)) 0 with
  | Some i => Ok (VErrors.add (Some (schema +:+ ".users." +:+ pretty i))
                    "Directory services users may not be added as members of local groups." EINVAL v)
  | None =>
      match user_by_name "root" d with
      | None => Err MatchNotFound
      | Some root =>
          pk_groupname ← match pk with
                         | None => Ok None
                         | Some pk => match find_group pk d with
                                      | Some g => Ok (Some (g_group g))
                                      | None => Err (InstanceNotFound ("Group " +:+ pretty pk +:+ " does not exist"))
                                      end
                         end;
          let v := match gd_users data with
                   | Some l => validate_members d schema (String.eqb schema "group_create") pk pk_groupname (u_id root) l v
                   | None => v
                   end in
          v ← check_sudo e (schema +:+ ".sudo_commands") (gd_sudo_commands data) v;
          check_sudo e (schema +:+ ".sudo_commands_nopasswd") (gd_sudo_commands_nopasswd data) v
      end
  end.

Definition verify (f : adb -> result exn VErrors.t) : op unit := fun d =>
  match f d with Err x => (d, Err x) | Ok v => (d, VErrors.check v) end.

(** ** [group.create] *)

(** The validation and the choice of the gid. *)
Definition group_create_begin (e : aenv) (data : group_data) : op Z :=
  _ ← verify (group_common_validation e "group_create" data None);
  match gd_gid data with Some g => mret g | None => get_next_gid e end.

(** The row and, in any case, the end of the reservation; then the reload. *)
Definition group_create_end (e : aenv) (data : group_data) (gid : Z) (reload_users : bool) : op Z :=
  name ← expect (gd_name data) (EOther "KeyError" "name");
  pk ← finally
         (insert_group (mkGroup 0 gid name false (default [] (gd_sudo_commands data)) (default [] (gd_sudo_commands_nopasswd data))
                          (default true (gd_smb data)) (idmap_compress (default None (gd_userns_idmap data)))) (gd_users data))
         (modify (fun d => set_ReservedGids (remove_entry gid (ReservedGids d)) d));
  _ ← when reload_users (ext e ReloadUser);
  smb ← expect (gd_smb data) (EOther "KeyError" "smb");
  _ ← when (smb : bool) (ext e (AddGroupmap pk name));
  mret pk.

Definition create_internal (e : aenv) (data : group_data) (reload_users : bool) : op Z :=
  gid ← group_create_begin e data;
  group_create_end e data gid reload_users.

(** ** [group.update] *)

Definition changed {A} `{EqDecision A} (new : option A) (old : A) : bool :=
  match new with Some x => negb (bool_decide (x = old)) | None => false end.

Definition builtin_key (b : bool) (key : string) (v : VErrors.t) : VErrors.t :=
  add_if b ("group_update." +:+ key) "This configuration parameter may not be changed for builtin groups." EINVAL v.

(** The fields of a builtin group that cannot be changed. *)
Definition validate_builtin_group (g : group_entry) (data : group_data) (v : VErrors.t) : VErrors.t :=
  let r := ge_row g in
  if ge_immutable g then VErrors.add (Some "group_update.id") "Immutable groups cannot be changed" EINVAL v
  else if g_builtin r then
    let v := builtin_key (changed (gd_sudo_commands data) (g_sudo_commands r)) "sudo_commands" v in
    let v := builtin_key (changed (gd_sudo_commands_nopasswd data) (g_sudo_commands_nopasswd r)) "sudo_commands_nopasswd" v in
    let v := builtin_key (changed (gd_smb data) (g_smb r)) "smb" v in
    builtin_key (changed (gd_name data) (g_group r)) "name" v
  else v.

Definition group_update_row (g : group_entry) (data : group_data) : group_row :=
  let r := ge_row g in
  mkGroup (g_id r) (default (g_gid r) (gd_gid data)) (default (g_group r) (gd_name data)) (g_builtin r)
    (default (g_sudo_commands r) (gd_sudo_commands data)) (default (g_sudo_commands_nopasswd r) (gd_sudo_commands_nopasswd data))
    (default (g_smb r) (gd_smb data)) (idmap_compress (default (ge_userns_idmap g) (gd_userns_idmap data))).

Definition ds_refused (kind verb : string) : exn :=
  CallError (kind +:+ " provided by a directory service must be " +:+ verb +:+ " the identity provider (LDAP server or domain controller).") EPERM.

Definition group_do_update (e : aenv) (pk : Z) (data : group_data) : op Z :=
  if (BASE_SYNTHETIC_DATASTORE_ID <? pk)%Z then raise (ds_refused "Groups" "modified through")
  else
    g ← group_get_instance e pk;
    let data := if bool_decide (gd_gid data = Some (g_gid (ge_row g)))
                then mkGD (gd_name data) None (gd_smb data) (gd_sudo_commands data) (gd_sudo_commands_nopasswd data)
                       (gd_userns_idmap data) (gd_users data) else data in
    _ ← verify (fun d => v ← group_common_validation e "group_update" data (Some pk) d; Ok (validate_builtin_group g data v));
    let r := group_update_row g data in
    _ ← (if changed (gd_name data) (g_group (ge_row g)) then when (g_smb r) (ext e (AddGroupmap pk (g_group r)))
         else if g_smb r && negb (g_smb (ge_row g)) then ext e (AddGroupmap pk (g_group r))
         else when (g_smb (ge_row g) && negb (g_smb r)) (ext e (DelGroupmap pk)));
    primary ← gets (primary_users pk);
    _ ← update_group_row pk (fun _ => r);
    _ ← set_group_users pk (List.filter (fun u => negb (bool_decide (u ∈ primary))) (default (ge_users g) (gd_users data)));
    _ ← ext e ReloadUser;
    mret pk.

(** ** [group.delete] *)

(** [privilege.before_group_delete] *)
Definition before_group_delete (gid : Z) (d : adb) : result exn unit :=
  match List.find (fun p => bool_decide (Gid gid ∈ p_local_groups p)) (map pr_priv (privs d)) with
  | Some p => Err (CallError ("This group is used by privilege " +:+ Fmt.repr_str (p_name p)
                    +:+ ". Please remove it from that privilege first, then delete the group.") EACCES)
  | None => Ok tt
  end.

(** The users of the group are deleted or moved to [nogroup]. *)
Fixpoint move_users (delete_users : bool) (nogroup : Z) (l : list Z) : op unit :=
  match l with
  | [] => mret tt
  | u :: l =>
      _ ← (if delete_users then delete_user u else update_user_row u (set_u_group nogroup));
      move_users delete_users nogroup l
  end.

(** A [MatchNotFound] of the cache is ignored. *)
Definition forget_idmap (e : aenv) (entry_type : string) (xid : Z) : op unit := fun d =>
  match ext e (DelIdmapCacheEntry entry_type xid) d with
  | (d, Err (EOther cls m as x)) => if String.eqb cls "MatchNotFound" then (d, Ok tt) else (d, Err x)
  | r => r
  end.

Definition group_do_delete (e : aenv) (pk : Z) (delete_users : bool) : op Z :=
  if (BASE_SYNTHETIC_DATASTORE_ID <? pk)%Z then raise (ds_refused "Groups" "deleted from")
  else
    g ← group_get_instance e pk;
    _ ← check (negb (g_builtin (ge_row g))) (CallError "A built-in group cannot be deleted." EACCES);
    _ ← (fun d => (d, before_group_delete (g_gid (ge_row g)) d));
    no ← gets (group_by_name "nogroup");
    nogroup ← expect no MatchNotFound;
    primary ← gets (primary_users pk);
    _ ← move_users delete_users (g_id nogroup) primary;
    _ ← delete_group pk;
    _ ← when (g_smb (ge_row g)) (ext e (DelGroupmap pk));
    _ ← ext e ReloadUser;
    _ ← forget_idmap e "GID2SID" (g_gid (ge_row g));
    mret pk.

(** ** Password-enabled users (plugins/account_/builtin_administrator.py) *)

Definition unixhash_is_valid (h : string) : bool := negb (String.eqb h "x" || String.eqb h "*").

(** The users of the membership rows whose group, or whose user's primary group, is
    among the groups. *)
Definition member_users (gids exclude : list Z) (d : adb) : list user_row :=
  let group_ids := map g_id (List.filter (fun g => bool_decide (g_gid g ∈ gids)) (groups d)) in
  omap (fun m => match find_user (m_user m) d with
                 | Some u => if (bool_decide (m_group m ∈ group_ids) || bool_decide (u_group u ∈ group_ids))
                                && negb (bool_decide (m_user m ∈ exclude)) then Some u else None
                 | None => None
                 end) (members d).

Definition password_enabled (u : user_row) : bool :=
  negb (u_locked u) && negb (u_password_disabled u) && unixhash_is_valid (u_unixhash u).

Fixpoint unique_users (l : list user_row) (seen : list Z) : list user_row :=
  match l with
  | [] => []
  | u :: l => if bool_decide (u_id u ∈ seen) then unique_users l seen
              else if password_enabled u then u :: unique_users l (u_id u :: seen) else unique_users l seen
  end.

Definition get_password_enabled_users (gids exclude : list Z) (d : adb) : list user_row :=
  unique_users (member_users gids exclude d) [].

Definition has_password_enabled_user (gids exclude : list Z) (d : adb) : bool :=
  is_nonempty (get_password_enabled_users gids exclude d).

(** ** Privileges *)

Definition LOCAL_ADMINISTRATOR : string := "LOCAL_ADMINISTRATOR".
Definition READONLY_ADMINISTRATOR : string := "READONLY_ADMINISTRATOR".
Definition BUILTIN_ADMINISTRATORS : Z := 544.

Fixpoint before_deactivation (l : list priv_row) (user : Z) (error_text : string) (d : adb) : result exn unit :=
  match l with
  | [] => Ok tt
  | p :: l =>
      if has_password_enabled_user (gids_of (pr_priv p)) [user] d then before_deactivation l user error_text d
      else Err (CallError (error_text +:+ " will have built-in privilege " +:+ Fmt.repr_str (p_name (pr_priv p)) +:+ ".") EACCES)
  end.

Definition builtin_privs (n : string) (d : adb) : list priv_row :=
  List.filter (fun p => bool_decide (pr_builtin_name p = Some n)) (privs d).

Definition before_user_deactivation (user : Z) (error_text : string) (d : adb) : result exn unit :=
  before_deactivation (builtin_privs LOCAL_ADMINISTRATOR d) user error_text d.

Definition before_user_password_disable (user : Z) (d : adb) : result exn unit :=
  before_user_deactivation user "After disabling password for this user no password-enabled local user" d.

Definition before_user_delete (user : Z) (d : adb) : result exn unit :=
  before_user_deactivation user "After deleting this user no local user" d.

(** The group a gid names in [group.query], where a group of a directory service
    hides a local group of the same gid: the local group, if any is shown. *)
Definition by_gid (e : aenv) (gid : Z) (d : adb) : option (option group_row) :=
  if existsb (fun a => ds_id a =? gid)%Z (ds_groups_ e) then Some None
  else match List.find (fun g => g_gid g =? gid)%Z (rev (groups d)) with Some g => Some (Some g) | None => None end.

Definition local_group_error (e : aenv) (d : adb) (schema : string) (i : nat) (g : group_id) (v : VErrors.t) : VErrors.t :=
  match g with
  | Sid _ => v
  | Gid gid =>
      match by_gid e gid d with
      | Some (Some r) =>
          add_if (idmap_set (idmap_extend (g_userns_idmap r))) ("privilege_update.local_groups." +:+ pretty i)
            "Privileges may not be granted to groups that have a user namespace idmap configured." EINVAL v
      | _ => VErrors.add (Some (schema +:+ ".local_groups." +:+ pretty i))
               (pretty gid +:+ ": local group does not exist. This error may be addressed by either re-creating the missing group with the specified group id or removing this entry from the privilege.")
               EINVAL v
      end
  end.

Fixpoint enumerate {A} (f : nat -> A -> VErrors.t -> VErrors.t) (l : list A) (i : nat) (v : VErrors.t) : VErrors.t :=
  match l with [] => v | x :: l => enumerate f l (S i) (f i x v) end.

Definition group_id_str (g : group_id) : string := match g with Gid n => pretty n | Sid s => s end.

(** [PrivilegeService._validate] *)
Definition validate_privilege (e : aenv) (schema : string) (p : privilege) (id : option Z) (d : adb) : VErrors.t :=
  let v := add_if (existsb (fun x => String.eqb (p_name (pr_priv x)) (p_name p) && other_than id (pr_id x)) (privs d))
             (schema +:+ ".name") "Object with this name already exists" EINVAL [] in
  let v := enumerate (local_group_error e d schema) (p_local_groups p) 0 v in
  let v := enumerate (fun i g => add_if (negb (ds_group_exists e g)) (schema +:+ ".ds_groups." +:+ pretty i)
                        (group_id_str g +:+ ": directory service group does not exist. If the directory service state is healthy, then this error may be addressed by removing this entry from the privilege.") EINVAL)
             (p_ds_groups p) 0 v in
  enumerate (fun i r => add_if (negb (bool_decide (r ∈ roles_known e))) (schema +:+ ".roles." +:+ pretty i) "Invalid role" EINVAL)
    (p_roles p) 0 v.

Definition privilege_do_create (e : aenv) (p : privilege) : op Z :=
  _ ← verify (fun d => Ok (validate_privilege e "privilege_create" p None d));
  insert_privilege None p.

(** The fields of [privilege.update]. *)
Record privilege_data := mkPD {
  pd_name : option string;
  pd_local_groups : option (list group_id);
  pd_ds_groups : option (list group_id);
  pd_roles : option (list string);
  pd_web_shell : option bool;
}.

(** [_local_groups]: the gids that name a local group or no group at all. *)
Definition shown_local_groups (e : aenv) (d : adb) (l : list group_id) : list group_id :=
  List.filter (fun g => match g with Gid n => match by_gid e n d with Some None => false | _ => true end | Sid _ => true end) l.

Definition new_privilege (e : aenv) (d : adb) (old : privilege) (x : privilege_data) : privilege :=
  mkPrivilege (default (p_name old) (pd_name x)) (default (shown_local_groups e d (p_local_groups old)) (pd_local_groups x))
    (default (ds_extend e (p_ds_groups old)) (pd_ds_groups x)) (default (p_roles old) (pd_roles x)) (default (p_web_shell old) (pd_web_shell x)).

(** The restrictions on builtin privileges; [BuiltinPrivileges(name)] raises for an
    unknown name. *)
Definition validate_builtin (n : string) (old new : privilege) (d : adb) : result exn VErrors.t :=
  let v := add_if (negb (String.eqb (p_name new) (p_name old))) "privilege_update.name" "This field is read-only for built-in privileges" EINVAL [] in
  let v := add_if (negb (bool_decide (p_roles new = p_roles old))) "privilege_update.roles" "This field is read-only for built-in privileges" EINVAL v in
  if String.eqb n LOCAL_ADMINISTRATOR then
    let v := add_if (negb (bool_decide (Gid BUILTIN_ADMINISTRATORS ∈ p_local_groups new))) "privilege_update.local_groups"
               ("The group builtin_administrators must be among grantees of the " +:+ DQ +:+ "Local Administrator" +:+ DQ +:+ " privilege.") EINVAL v in
    Ok (add_if (negb (has_password_enabled_user (gids_of new) [] d)) "privilege_update.local_groups"
          ("None of the members of these groups has password login enabled. At least one grantee of the " +:+ DQ +:+ "Local Administrator" +:+ DQ +:+ " privilege must have password login enabled.") EINVAL v)
  else if String.eqb n READONLY_ADMINISTRATOR then
    Ok (add_if (p_web_shell new) "privilege_update.web_shell"
          "Web shell access may not be enabled for the built-in group for read-only administrators." EINVAL v)
  else if String.eqb n "SHARING_ADMINISTRATOR" then Ok v
  else Err (EOther "ValueError" (Fmt.repr_str n +:+ " is not a valid BuiltinPrivileges")).

Definition find_priv (id : Z) (d : adb) : option priv_row := List.find (fun p => pr_id p =? id)%Z (privs d).

Definition get_priv (id : Z) : op priv_row :=
  o ← gets (find_priv id); expect o (InstanceNotFound ("Privilege " +:+ pretty id +:+ " does not exist")).

Definition privilege_do_update (e : aenv) (id : Z) (x : privilege_data) : op unit :=
  old ← get_priv id;
  new ← gets (fun d => new_privilege e d (pr_priv old) x);
  _ ← match pr_builtin_name old with
      | Some n => if String.eqb n "" then mret tt else verify (validate_builtin n (pr_priv old) new)
      | None => mret tt
      end;
  _ ← verify (fun d => Ok (validate_privilege e "privilege_update" new (Some id) d));
  update_privilege id (pr_builtin_name old) new.

Definition privilege_do_delete (id : Z) : op bool :=
  p ← get_priv id;
  _ ← check (match pr_builtin_name p with Some n => String.eqb n "" | None => true end)
        (CallError "Unable to delete built-in privilege" EPERM);
  _ ← delete_privilege id;
  mret true.

(** [local_administrators]; [get=True] raises when a row is missing. *)
Definition local_administrators (exclude : list Z) (d : adb) : result exn (list user_row) :=
  match builtin_privs LOCAL_ADMINISTRATOR d with
  | [] => Err MatchNotFound
  | p :: _ =>
      match get_password_enabled_users (gids_of (pr_priv p)) exclude d with
      | [] =>
          match user_by_name "root" d with
          | None => Err MatchNotFound
          | Some root => Ok (if negb (bool_decide (u_id root ∈ exclude)) && unixhash_is_valid (u_unixhash root) then [root] else [])
          end
      | l => Ok l
      end
  end.

Definition always_has_root_password_enabled (e : aenv) : op bool :=
  r ← gets (user_by_name "root");
  root ← expect r MatchNotFound;
  l ← (fun d => (d, local_administrators [u_id root] d));
  match l with
  | [] => _ ← modify (set_previous_always_root (Some true)); mret true
  | _ =>
      prev ← gets previous_always_root;
      _ ← when (bool_decide (prev = Some true)) (ext e (WebUiLoginDisabled (map u_username l)));
      _ ← modify (set_previous_always_root (Some false));
      mret false
  end.

Definition has_local_administrator_set_up (d : adb) : result exn bool :=
  l ← local_administrators [] d; Ok (is_nonempty l).

End Groups.
