(* ===== verification/Users.v ===== *)
(** * Users (plugins/account.py)

    The service [user] on the tables of [AccountDb]: the entries of users, their
    validation, and [create], [update], [delete], [set_password] and
    [setup_local_administrator].  The file system, the hashes and the other
    services answer through the environment. *)

From S2P Require Import Prelude PyDict PyStr PyVal PyFormat Errors Privilege AccountDb Groups.

Module Users.
Import Acct Groups.

(** ** The environment of the service *)

Record uenv := mkUenv {
  base : aenv;
  (** hashes *)
  crypted_password : string -> string;
  nt_password : string -> string;
  check_unixhash : string -> string -> bool;
  generate_string : string;
  (** other services *)
  twofactor_enabled : bool;
  twofactor_ssh : bool;
  tally_locked_users : list string;
  api_keys : string -> list Z;
  failover_licensed : bool;
  etc_shells : list string;
  pam_authenticates : string -> string -> bool;
  (** the file system *)
  authorized_keys : string -> option string;
  is_file : string -> bool;
  is_dir : string -> bool;
  exists_ : string -> bool;
  parent : string -> string;
  n_parents : string -> nat;  (** [len(Path(p).resolve().parents)] *)
  statfs : string -> list string * string;  (** flags and type *)
  file_attributes : string -> list string;
  pools : list string;
  path_in_locked_datasets : string -> bool;
  resides_within_volume : string -> VErrors.t;  (** what [check_path_resides_within_volume] adds *)
  home_mode_of : string -> option string;
  is_dataset_path : string -> bool;
}.

Definition uext (e : uenv) (c : ext_call) : op unit := ext (base e) c.

Definition path_join (a b : string) : string :=
  if Str.startswith "/" b then b
  else if String.eqb a "" || Str.endswith "/" a then a +:+ b else a +:+ "/" +:+ b.

(** ** Entries *)

(** An entry of [user.query]: the row, with what [user_extend] changes and adds. *)
Record uentry := mkUE {
  ue_row : user_row;
  ue_groups : list Z;
  ue_sshpubkey : option string;
  ue_immutable : bool;
  ue_twofactor : bool;
  ue_userns_idmap : option idmap_col;
  ue_history : list string;
  ue_password_age : option Z;
  ue_password_change_required : bool;
  ue_roles : gset string;
  ue_sid : option string;
  ue_api_keys : list Z;
  ue_webshare : bool;
}.

Definition PASSWORD_PROMPT_AGE : Z := 6.
Definition MAX_PASSWORD_HISTORY : nat := 10.

(** [s.split()]: the words between blanks. *)
Fixpoint words_aux (s : string) (w : string) : list string :=
  match s with
  | EmptyString => if String.eqb w "" then [] else [w]
  | String c s => if Str.is_blank c then (if String.eqb w "" then words_aux s "" else w :: words_aux s "")
                  else words_aux s (w +:+ Fmt.one c)
  end.
Definition words (s : string) : list string := words_aux s "".

Definition truthy_age (o : option Z) : bool := match o with Some n => negb (n =? 0)%Z | None => false end.

Definition password_age (e : uenv) (last : option Z) : option Z :=
  match last with
  | None => None
  | Some t => let age := ((time_now (base e) - t) / 86400)%Z in if (age <? 0)%Z then None else Some age
  end.

Definition password_change_required (e : uenv) (age : option Z) : bool :=
  match age, max_password_age (security (base e)) with
  | Some a, Some m => negb (a =? 0)%Z && negb (m =? 0)%Z && (m - PASSWORD_PROMPT_AGE <=? a)%Z
  | _, _ => false
  end.

(** [roles_mapping.get(g)] of each group of the user. *)
Definition user_roles (d : adb) (l : list Z) : gset string :=
  foldl (fun acc g => match find_group g d with Some r => acc ∪ group_roles (g_gid r) d | None => acc end) ∅ l.

Definition user_sid (e : uenv) (u : user_row) : option string :=
  if u_smb u then Some (server_sid (base e) +:+ "-" +:+ pretty (u_id u + 20000)%Z) else None.

(** The row an entry shows: an empty email is null; under the STIG SMB is off and a
    user locked by the tally of failed logins is shown as locked. *)
Definition shown_row (e : uenv) (u : user_row) : user_row :=
  let stig := enable_gpos_stig (security (base e)) in
  mkUser (u_id u) (u_uid u) (u_username u) (u_unixhash u) (if stig then "*" else u_smbhash u) (u_home u) (u_shell u) (u_full_name u)
    (u_builtin u) (u_smb u && negb stig) (u_userns_idmap u) (u_password_disabled u) (u_ssh_password_enabled u)
    (u_locked u || (stig && bool_decide (u_username u ∈ tally_locked_users e))) (u_sudo_commands u) (u_sudo_commands_nopasswd u) (u_group u)
    (match u_email u with Some m => if String.eqb m "" then None else Some m | None => None end)
    (u_last_password_change u) (u_password_history u).

Definition user_extend (e : uenv) (d : adb) (u : user_row) : result exn uentry :=
  let gs := groups_of (u_id u) d in
  let stig := enable_gpos_stig (security (base e)) in
  let age := password_age e (u_last_password_change u) in
  match group_by_name "truenas_webshare" d with
  | None => Err (EOther "KeyError" "truenas_webshare")
  | Some webshare =>
      Ok (mkUE (shown_row e u) gs (authorized_keys e (u_home u)) (u_builtin u || (u_uid u =? ADMIN_UID)%Z)
            (match Dict.get (u_id u) (twofactor d) with Some (Some s) => negb (String.eqb s "") | _ => false end)
            (idmap_extend (u_userns_idmap u))
            (match u_password_history u with Some h => words h | None => [] end)
            age (password_change_required e age) (user_roles d (gs ++ [u_group u])) (if stig then None else user_sid e u)
            (api_keys e (u_username u)) (bool_decide (g_id webshare ∈ gs)))
  end.

(** [user.get_instance] of a local user. *)
Definition user_get_instance (e : uenv) (pk : Z) : op uentry := fun d =>
  match find_user pk d with
  | Some u => (d, user_extend e d u)
  | None => (d, Err (InstanceNotFound ("User " +:+ pretty pk +:+ " does not exist")))
  end.

(** ** The arguments *)

(** The fields of [user.create] and [user.update]; [None] is an absent key.  The last
    two are set by the validation. *)
Record user_data := mkUD {
  ud_username : option string;
  ud_home : option string;
  ud_home_create : option bool;
  ud_home_mode : option string;
  ud_shell : option string;
  ud_full_name : option string;
  ud_smb : option bool;
  ud_webshare : option bool;
  ud_userns_idmap : option (option idmap_col);
  ud_uid : option Z;
  ud_group : option (option Z);
  ud_groups : option (list Z);
  ud_password : option (option string);
  ud_random_password : option bool;
  ud_password_disabled : option bool;
  ud_ssh_password_enabled : option bool;
  ud_sshpubkey : option (option string);
  ud_locked : option bool;
  ud_sudo_commands : option (list string);
  ud_sudo_commands_nopasswd : option (list string);
  ud_email : option (option string);
  ud_last_password_change : option Z;
  ud_password_history : option (list string);
}.

(** [data['password'] = p; data['last_password_change'] = ...; data['password_history'] = h] *)
Definition with_password (p : option (option string)) (t : option Z) (h : option (list string)) (x : user_data) : user_data :=
  mkUD (ud_username x) (ud_home x) (ud_home_create x) (ud_home_mode x) (ud_shell x) (ud_full_name x) (ud_smb x) (ud_webshare x)
    (ud_userns_idmap x) (ud_uid x) (ud_group x) (ud_groups x) p (ud_random_password x) (ud_password_disabled x)
    (ud_ssh_password_enabled x) (ud_sshpubkey x) (ud_locked x) (ud_sudo_commands x) (ud_sudo_commands_nopasswd x) (ud_email x) t h.

Definition with_home (h : option string) (x : user_data) : user_data :=
  mkUD (ud_username x) h (ud_home_create x) (ud_home_mode x) (ud_shell x) (ud_full_name x) (ud_smb x) (ud_webshare x)
    (ud_userns_idmap x) (ud_uid x) (ud_group x) (ud_groups x) (ud_password x) (ud_random_password x) (ud_password_disabled x)
    (ud_ssh_password_enabled x) (ud_sshpubkey x) (ud_locked x) (ud_sudo_commands x) (ud_sudo_commands_nopasswd x) (ud_email x)
    (ud_last_password_change x) (ud_password_history x).

(** The defaults of [UserCreate] (api/v27_0_0/user.py). *)
Definition with_defaults (x : user_data) : user_data :=
  mkUD (ud_username x) (Some (default DEFAULT_HOME_PATH (ud_home x))) (Some (default false (ud_home_create x)))
    (Some (default "700" (ud_home_mode x))) (Some (default "/usr/bin/zsh" (ud_shell x))) (ud_full_name x)
    (Some (default true (ud_smb x))) (Some (default false (ud_webshare x))) (Some (default None (ud_userns_idmap x))) (ud_uid x)
    (Some (default None (ud_group x))) (Some (default [] (ud_groups x))) (Some (default None (ud_password x)))
    (Some (default false (ud_random_password x))) (Some (default false (ud_password_disabled x)))
    (Some (default false (ud_ssh_password_enabled x))) (Some (default None (ud_sshpubkey x))) (Some (default false (ud_locked x)))
    (Some (default [] (ud_sudo_commands x))) (Some (default [] (ud_sudo_commands_nopasswd x))) (Some (default None (ud_email x))) None None.

(** [data.get(key)] of a boolean. *)
Definition flag (o : option bool) : bool := default false o.
(** [data.get('password')], which is never empty. *)
Definition password_of (x : user_data) : option string := default None (ud_password x).

(** ** Passwords *)

Definition is_upper (c : Ascii.ascii) : bool := let n := Ascii.nat_of_ascii c in (65 <=? n) && (n <=? 90).
Definition is_lower (c : Ascii.ascii) : bool := let n := Ascii.nat_of_ascii c in (97 <=? n) && (n <=? 122).
Definition is_punct (c : Ascii.ascii) : bool :=
  let n := Ascii.nat_of_ascii c in (33 <=? n) && (n <=? 126) && negb (is_upper c) && negb (is_lower c) && negb (Str.is_digit c).

(** [PasswordComplexity.check_password] *)
Definition meets (rule password : string) : bool :=
  if String.eqb rule "UPPER" then Str.any is_upper password
  else if String.eqb rule "LOWER" then Str.any is_lower password
  else if String.eqb rule "NUMBER" then Str.any Str.is_digit password
  else Str.any is_punct password.

Definition check_password_complexity (ruleset : list string) (password : string) : list string :=
  List.filter (fun r => negb (meets r password)) ruleset.

Definition positive (o : option Z) : option Z := match o with Some n => if (n =? 0)%Z then None else Some n | None => None end.

(** The most recent hashes are at the end of the list. *)
Definition repeats (e : uenv) (password : string) (history : list string) (n : Z) : list string :=
  List.filter (check_unixhash e password) (take (Z.to_nat n) (rev history)).

Definition password_security_validate (e : uenv) (field password : string) (history : list string) (v : VErrors.t) : VErrors.t :=
  let sec := security (base e) in
  let unmet := check_password_complexity (password_complexity_ruleset sec) password in
  let v := add_if (is_nonempty unmet) field
             ("The specified password does not meet minimum complexity requirements. The following character types are absent: "
              +:+ Str.join ", " unmet) EINVAL v in
  let v := match positive (min_password_length sec) with
           | Some n => add_if (Z.of_nat (String.length password) <? n)%Z field
                         ("The specified password is too short. The minimum password length is " +:+ pretty n +:+ " characters.") EINVAL v
           | None => v
           end in
  match positive (password_history_length sec) with
  | Some n =>
      foldl (fun v _ => VErrors.add (Some field)
               ("The security configuration of the TrueNAS server requires a password that does not match any of the last "
                +:+ pretty n +:+ " passwords for this account.") EINVAL v) v (repeats e password history n)
  | None => v
  end.

(** [while len(history) > MAX_PASSWORD_HISTORY: history.pop(0)] *)
Definition trim_history (h : list string) : list string := drop (length h - MAX_PASSWORD_HISTORY) h.

(** The part of [common_validation] about passwords: the errors and the changes of
    the data. *)
Definition validate_password (e : uenv) (schema : string) (data : user_data) (old : option uentry) (v : VErrors.t)
    : user_data * VErrors.t :=
  let history := match old with Some o => Some (trim_history (ue_history o ++ [u_unixhash (ue_row o)])) | None => ud_password_history data end in
  let changed p := with_password (Some (Some p)) (Some (time_now (base e))) history data in
  if flag (ud_random_password data) then
    match password_of data with
    | Some _ => (data, VErrors.add (Some (schema +:+ ".random_password"))
                  "Requesting a randomized password while simultaneously supplying an explicit password is not permitted." EINVAL v)
    | None => (changed (generate_string e), v)
    end
  else
    match password_of data with
    | Some p =>
        (changed p, password_security_validate e (schema +:+ ".password") p
                      (match old with Some o => ue_history o ++ [u_unixhash (ue_row o)] | None => [] end) v)
    | None => (data, v)
    end.

(** [__set_password]: the hashes of the row. *)
Definition hashes (e : uenv) (p : option (option string)) (u : user_row) : string * string :=
  match p with
  | None => (u_unixhash u, u_smbhash u)
  | Some None => ("*", "*")
  | Some (Some p) => (crypted_password e p, nt_password e p)
  end.

(** ** Home directories *)

Definition validate_homedir_mountinfo (e : uenv) (schema path : string) (v : VErrors.t) : VErrors.t * bool :=
  let '(flags, fstype) := statfs e path in
  if bool_decide ("RO" ∈ flags) then (VErrors.add (Some (schema +:+ ".home")) "Path has the ZFS readonly property set." EINVAL v, false)
  else if negb (String.eqb fstype "zfs") then (VErrors.add (Some (schema +:+ ".home")) "Path is not on a ZFS filesystem" EINVAL v, false)
  else (v, true).

(** The checks of an existing or missing path. *)
Definition validate_home_exists (e : uenv) (schema home : string) (home_create : bool) (v : VErrors.t) : VErrors.t :=
  let attr := schema +:+ ".home" in
  if exists_ e home then
    let '(v, ok) := validate_homedir_mountinfo e schema home v in
    add_if (ok && bool_decide ("IMMUTABLE" ∈ file_attributes e home)) attr (home +:+ ": home directory path is immutable.") EINVAL v
  else
    let v := VErrors.add (Some attr)
               (if home_create then
                  home +:+ ": path specified to use for home directory creation does not exist. TrueNAS uses the provided path as the parent directory of the newly-created home directory."
                else home +:+ ": path specified to use as home directory does not exist.") EINVAL v in
    let v := add_if (negb (exists_ e (parent e home))) attr
               (parent e home +:+ ": parent path of specified home directory does not exist.") EINVAL v in
    if VErrors.bool v then v else (validate_homedir_mountinfo e schema (parent e home) v).1.

Definition in_pool (e : uenv) (home : string) : bool :=
  existsb (fun p => String.eqb home p || Str.startswith (p +:+ "/") home) (pools e).

Definition validate_homedir_path (e : uenv) (schema home : string) (home_create : bool) (others : list user_row) (v : VErrors.t)
    : VErrors.t * bool :=
  let attr := schema +:+ ".home" in
  let refuse msg := (VErrors.add (Some attr) msg EINVAL v, false) in
  if negb (Str.startswith "/" home) then refuse (DQ +:+ "Home Directory" +:+ DQ +:+ " must be an absolute path.")
  else if is_file e home then refuse (DQ +:+ "Home Directory" +:+ DQ +:+ " cannot be a file.")
  else if Str.contains (Ascii.ascii_of_nat 58) home then refuse (DQ +:+ "Home Directory" +:+ DQ +:+ " cannot contain colons (:).")
  else if String.eqb home DEFAULT_HOME_PATH then (v, false)
  else
    let v := validate_home_exists e schema home home_create v in
    let v := match List.find (fun u => String.eqb (u_home u) home) others with
             | Some u => VErrors.add (Some attr) (home +:+ ": homedir already used by " +:+ u_username u +:+ ".") EEXIST v
             | None => v
             end in
    let v := if negb (Str.startswith "/mnt" home) then
               VErrors.add (Some attr) (DQ +:+ "Home Directory" +:+ DQ +:+ " must begin with /mnt or set to " +:+ DEFAULT_HOME_PATH +:+ ".") EINVAL v
             else add_if (String.eqb home "/mnt" || String.eqb home "/mnt/") attr
                    (DQ +:+ "Home Directory" +:+ DQ +:+ " cannot be at root of " +:+ DQ +:+ "/mnt" +:+ DQ) EINVAL v in
    if VErrors.bool v then (v, false)
    else
      let v := if negb (in_pool e home) then
                 VErrors.add (Some attr) ("The path for the home directory " +:+ DQ +:+ "(" +:+ home +:+ ")" +:+ DQ +:+ " must include a volume or dataset.") EINVAL v
               else if path_in_locked_datasets e home then
                 VErrors.add (Some attr) ("Path component for " +:+ DQ +:+ "Home Directory" +:+ DQ +:+ " is currently encrypted and locked") EINVAL v
               else add_if ((n_parents e home =? 2) && negb home_create) attr
                      ("The specified path is a ZFS pool mountpoint " +:+ DQ +:+ "(" +:+ home +:+ ")" +:+ DQ +:+ ".") EINVAL v in
      (v, exists_ e home && negb (VErrors.bool v)).

(** [int(s, 8)]: blanks around, a sign, the prefix [0o] and single underscores between
    the digits are accepted. *)
Fixpoint octal (acc : Z) (s : string) : option Z :=
  match s with
  | EmptyString => Some acc
  | String c s => let n := Ascii.nat_of_ascii c in
                  if (48 <=? n) && (n <=? 55) then octal (acc * 8 + Z.of_nat (n - 48))%Z s else None
  end.

Definition octal_digits (s : string) : option Z :=
  let parts := Str.split (Ascii.ascii_of_nat 95) s in
  if existsb (String.eqb "") parts then None else octal 0 (Str.join "" parts).

Definition octal_unsigned (s : string) : option Z :=
  if Str.startswith "0o" s || Str.startswith "0O" s then
    let t := Str.drop 2 s in octal_digits (if Str.startswith "_" t then Str.drop 1 t else t)
  else octal_digits s.

Definition int_octal (s : string) : option Z :=
  let s := Str.strip s in
  if Str.startswith "-" s then Z.opp <$> octal_unsigned (Str.drop 1 s)
  else octal_unsigned (if Str.startswith "+" s then Str.drop 1 s else s).

Definition validate_home_mode (schema mode : string) (v : VErrors.t) : VErrors.t :=
  let attr := schema +:+ ".home_mode" in
  match int_octal mode with
  | Some o =>
      if (o =? Z.land o 511)%Z then
        let v := add_if (Z.land o 256 =? 0)%Z attr "Home directory must be readable by User." EINVAL v in
        add_if (Z.land o 64 =? 0)%Z attr "Home directory must be executable by User." EINVAL v
      else VErrors.add (Some attr) "Please provide a valid value for home_mode attribute" EINVAL v
  | None => VErrors.add (Some attr) "Please provide a valid value for home_mode attribute" EINVAL v
  end.

(** ** [common_validation] *)

(** [old | data] for the fields the validation combines. *)
Definition combined (f : user_row -> bool) (old : option uentry) (o : option bool) (dflt : bool) : bool :=
  match o with Some b => b | None => match old with Some x => f (ue_row x) | None => dflt end end.

Definition old_row {A} (f : user_row -> A) (old : option uentry) (o : option A) (dflt : A) : A :=
  match o with Some b => b | None => match old with Some x => f (ue_row x) | None => dflt end end.

Definition validate_userns (d : adb) (schema : string) (data : user_data) (group_ids : list Z) (v : VErrors.t) : VErrors.t :=
  add_if (idmap_set (default None (ud_userns_idmap data))
          && existsb (fun g => bool_decide (g_id g ∈ group_ids) && bool_decide (group_roles (g_gid g) d ≠ ∅)) (groups d))
    (schema +:+ ".userns_idmap") "User namespace idmaps may not be configured for privileged accounts." EINVAL v.

Definition validate_uid (e : uenv) (d : adb) (schema : string) (data : user_data) (v : VErrors.t) : result exn VErrors.t :=
  match ud_uid data with
  | None => Ok v
  | Some uid =>
      existing ← unless_missing (get_user_by_uid (base e) uid d);
      Ok (match existing with
          | Some x => VErrors.add (Some (schema +:+ ".uid"))
                        ("Uid " +:+ pretty uid +:+ " is already used (user " +:+ nss_name x +:+ " has it)") EEXIST v
          | None => v
          end)
  end.

Definition validate_username (schema : string) (data : user_data) (others : list user_row) (v : VErrors.t) : VErrors.t :=
  match ud_username data with
  | None => v
  | Some n =>
      let v := pw_checkname (schema +:+ ".username") n v in
      let v := add_if (existsb (fun u => String.eqb (u_username u) n) others) (schema +:+ ".username")
                 ("The username " +:+ DQ +:+ n +:+ DQ +:+ " already exists.") EEXIST v in
      add_if (flag (ud_smb data) && existsb (fun u => same_caseless (u_username u) n && u_smb u) others) (schema +:+ ".smb")
        ("Username " +:+ DQ +:+ n +:+ DQ +:+ " conflicts with existing SMB user. Note that SMB usernames are case-insensitive.") EEXIST v
  end.

Definition validate_smb (e : uenv) (schema : string) (data : user_data) (old : option uentry) (v : VErrors.t) : VErrors.t :=
  let stig := enable_gpos_stig (security (base e)) in
  if combined u_smb old (ud_smb data) false then
    let v := add_if (negb (smb_is_configured (base e))) (schema +:+ ".smb")
               (if sysdataset_path (base e) then "SMB users may not be configured while SMB service backend is unitialized."
                else "System dataset is not mounted at expected path. This may indicate an underlying issue with the pool hosting the system dataset. SMB users may not be configured until this configuration issue is addressed.") EINVAL v in
    let v := add_if (combined u_password_disabled old (ud_password_disabled data) false) (schema +:+ ".password_disabled")
               "Password authentication may not be disabled for SMB users." EINVAL v in
    add_if stig (schema +:+ ".smb")
      "SMB authentication for local user accounts is not permitted when General Purpose OS STIG compatibility is enabled." EINVAL v
  else v.

(** The unix hash cannot be among the data. *)
Definition validate_immutable (e : uenv) (schema : string) (data : user_data) (old : option uentry) (v : VErrors.t) : VErrors.t :=
  match old with
  | None => v
  | Some o =>
      let enabled := negb (combined u_password_disabled old (ud_password_disabled data) false)
                     || negb (combined u_locked old (ud_locked data) false)
                     || negb (String.eqb (u_unixhash (ue_row o)) "*") in
      add_if (enable_gpos_stig (security (base e)) && ue_immutable o && enabled) (schema +:+ ".immutable")
        (old_row u_username old (ud_username data) "" +:+ " is a System Administrator account and is not permitted to be enabled for password authentication when General Purpose OS STIG compatibility is enabled. Please disable the password or lock the account.") EINVAL v
  end.

Definition validate_has_password (schema : string) (data : user_data) (old : option uentry) (v : VErrors.t) : VErrors.t :=
  match old, password_of data with
  | None, None => add_if (negb (flag (ud_password_disabled data))) (schema +:+ ".password") "Password is required" EINVAL v
  | _, Some _ => add_if (flag (ud_password_disabled data)) (schema +:+ ".password_disabled")
                   ("Leave " +:+ DQ +:+ "Password" +:+ DQ +:+ " blank when " +:+ DQ +:+ "Disable password login" +:+ DQ +:+ " is checked.") EINVAL v
  | Some _, None => v
  end.

Definition validate_home (e : uenv) (schema : string) (data : user_data) (old : option uentry) (others : list user_row) (v : VErrors.t)
    : VErrors.t :=
  match ud_home data with
  | None => v
  | Some home =>
      let '(v, ok) := validate_homedir_path e schema home (flag (ud_home_create data)) others v in
      if ok then v ++ resides_within_volume e home
      else add_if (combined u_ssh_password_enabled old (ud_ssh_password_enabled data) false) (schema +:+ ".home")
             "SSH password login requires a valid home path." EINVAL v
  end.

Definition group_error (d : adb) (schema : string) (old : option uentry) (i : nat) (g : Z) (v : VErrors.t) : VErrors.t :=
  let attr := schema +:+ ".groups." +:+ pretty i in
  let v := add_if (negb (has_group g d)) attr "This group does not exist." EINVAL v in
  let v := add_if (BASE_SYNTHETIC_DATASTORE_ID <=? g)%Z attr "Local users may not be members of directory services groups." EINVAL v in
  match find_group g d with
  | Some r => add_if (g_builtin r && negb (bool_decide (g_gid r ∈ ALLOWED_BUILTIN_GIDS))
                      && match old with Some o => negb (bool_decide (g ∈ ue_groups o)) | None => true end) attr
                (g_group r +:+ ": membership of this builtin group may not be altered.") EINVAL v
  | None => v
  end.

Definition validate_groups (d : adb) (schema : string) (data : user_data) (old : option uentry) (v : VErrors.t) : VErrors.t :=
  match ud_groups data with
  | None => v
  | Some l =>
      let v := add_if (64 <? length l) (schema +:+ ".groups") "A user cannot belong to more than 64 auxiliary groups." EINVAL v in
      enumerate (group_error d schema old) l 0 v
  end.

(** The root user. *)
Definition validate_root (d : adb) (schema : string) (data : user_data) (old : option uentry) (v : VErrors.t) : result exn VErrors.t :=
  match old with
  | Some o =>
      if (u_uid (ue_row o) =? 0)%Z then
        let v := add_if (flag (ud_webshare data)) (schema +:+ ".webshare") "The root user is not allowed access via webshare." EINVAL v in
        match ud_groups data with
        | None => Ok v
        | Some l =>
            match group_by_name "builtin_administrators" d with
            | None => Err MatchNotFound
            | Some g =>
                let v := add_if (negb (bool_decide (g_id g ∈ l))) (schema +:+ ".groups")
                           "The root user must remain a member of the builtin_administrators group." EINVAL v in
                Ok (add_if (negb (bool_decide (l = [g_id g]))) (schema +:+ ".groups")
                      "The root user may only be a member of the builtin_administrators group." EINVAL v)
            end
        end
      else Ok v
  | None => Ok v
  end.

Definition validate_full_name (schema : string) (data : user_data) (v : VErrors.t) : VErrors.t :=
  match ud_full_name data with
  | None => v
  | Some n =>
      foldl (fun v c => add_if (Str.contains c n) (schema +:+ ".full_name")
               ("The " +:+ Fmt.repr_str (Fmt.one c) +:+ " character is not allowed.") EINVAL v) v
        [Ascii.ascii_of_nat 58; Ascii.ascii_of_nat 10]
  end.

(** [user.shell_choices] *)
Definition shell_choices (e : uenv) (d : adb) (group_ids : list Z) : list string :=
  let gids := map (fun g => Gid (g_gid g)) (List.filter (fun g => bool_decide (g_id g ∈ group_ids)) (groups d)) in
  NO_LOGIN_SHELL :: (match privileges_for_groups local_groups gids (fun _ => None) (map pr_priv (privs d)) with
                     | [] => []
                     | _ => ["/usr/bin/cli"; "/usr/bin/cli_console"]
                     end)
  ++ map Str.strip (List.filter (Str.startswith "/usr/bin") (etc_shells e)).

Definition validate_shell (e : uenv) (d : adb) (schema : string) (data : user_data) (old : option uentry) (group_ids : list Z)
    (v : VErrors.t) : VErrors.t :=
  match ud_shell data with
  | None => v
  | Some s =>
      if negb (bool_decide (s ∈ shell_choices e d group_ids)) then VErrors.add (Some (schema +:+ ".shell")) "Please select a valid shell." EINVAL v
      else add_if (combined u_ssh_password_enabled old (ud_ssh_password_enabled data) false && String.eqb s NO_LOGIN_SHELL)
             (schema +:+ ".shell") "SSH password login requires a login shell." EINVAL v
  end.

(** [translate_username] raises when the name service does not know the user. *)
Definition validate_ssh_password (e : uenv) (d : adb) (schema : string) (data : user_data) (old : option uentry) (v : VErrors.t)
    : result exn VErrors.t :=
  if flag (ud_ssh_password_enabled data) then
    let attr := schema +:+ ".ssh_password_enabled" in
    let msg := "2FA for this user needs to be explicitly configured before password based SSH access is enabled." in
    v ← (if twofactor_enabled e && twofactor_ssh e then
           match old with
           | None => Ok (VErrors.add (Some attr) (msg +:+ " User will be created with SSH password access disabled and after 2FA has been configured for this user, SSH password access can be enabled.") EINVAL v)
           | Some o =>
               match get_user_by_name (base e) (u_username (ue_row o)) d with
               | Ok _ => Ok (add_if (negb (ue_twofactor o)) attr msg EINVAL v)
               | Err _ => Err (CallError ("User " +:+ Fmt.repr_str (u_username (ue_row o)) +:+ " does not exist") ENOENT)
               end
           end
         else Ok v);
    Ok (add_if (String.eqb (old_row u_home old (ud_home data) "") DEFAULT_HOME_PATH
                || String.eqb (old_row u_shell old (ud_shell data) "") NO_LOGIN_SHELL) attr
          "Cannot be enabled without a valid home path and login shell." EINVAL v)
  else Ok v.

(** The whole validation: the changed data and the errors. *)
Definition common_validation (e : uenv) (schema : string) (data : user_data) (group_ids : list Z) (old : option uentry)
    (v : VErrors.t) (d : adb) : result exn (user_data * VErrors.t) :=
  let others := match old with Some o => List.filter (fun u => negb (u_id u =? u_id (ue_row o))%Z) (users d) | None => users d end in
  let v := validate_userns d schema data group_ids v in
  let '(data, v) := validate_password e schema data old v in
  v ← validate_uid e d schema data v;
  let v := validate_username schema data others v in
  let v := validate_smb e schema data old v in
  let v := validate_immutable e schema data old v in
  let v := validate_has_password schema data old v in
  let v := validate_home e schema data old others v in
  let v := match ud_home_mode data with Some m => validate_home_mode schema m v | None => v end in
  let v := validate_groups d schema data old v in
  v ← validate_root d schema data old v;
  let v := validate_full_name schema data v in
  let v := validate_shell e d schema data old group_ids v in
  v ← check_sudo (base e) (schema +:+ ".sudo_commands") (ud_sudo_commands data) v;
  v ← check_sudo (base e) (schema +:+ ".sudo_commands_nopasswd") (ud_sudo_commands_nopasswd data) v;
  v ← validate_ssh_password e d schema data old v;
  Ok (data, v).

(** ** Operations on the data *)

Fixpoint remove_first (x : Z) (l : list Z) : list Z :=
  match l with [] => [] | y :: l => if (x =? y)%Z then l else y :: remove_first x l end.

(** [handle_webshare]; the root user is left out. *)
Definition handle_webshare (webshare : bool) (username : string) (l : list Z) (d : adb) : result exn (list Z) :=
  match group_by_name "truenas_webshare" d with
  | None => Err MatchNotFound
  | Some g =>
      let inside := bool_decide (g_id g ∈ l) in
      Ok (if webshare && negb (String.eqb username "root") then (if inside then l else l ++ [g_id g])
          else (if inside then remove_first (g_id g) l else l))
  end.

Definition get_next_uid (e : uenv) : op Z := fun d =>
  let allocated := map u_uid (List.filter (fun u => negb (u_builtin u) && (MIN_AUTO_XID <=? u_uid u)%Z) (users d)) in
  let '(in_flight, reserved) := in_use (clock (base e)) (ReservedUids d) in
  let next := next_xid (allocated ++ reserved) in
  match add_entry (clock (base e)) next in_flight with
  | Ok in_flight => (set_ReservedUids in_flight d, Ok next)
  | Err x => (set_ReservedUids in_flight d, Err x)
  end.

Definition unreserve (uid : Z) : op unit := modify (fun d => set_ReservedUids (remove_entry uid (ReservedUids d)) d).

(** The row [user.create] inserts, before the database chooses its id. *)
Definition created_row (e : uenv) (x : user_data) (uid group : Z) (home : string) : user_row :=
  let '(unixhash, smbhash) := match password_of x with Some p => (crypted_password e p, nt_password e p) | None => ("*", "*") end in
  mkUser 0 uid (default "" (ud_username x)) unixhash smbhash home (default "" (ud_shell x)) (default "" (ud_full_name x)) false
    (flag (ud_smb x)) (idmap_compress (default None (ud_userns_idmap x))) (flag (ud_password_disabled x)) (flag (ud_ssh_password_enabled x))
    (flag (ud_locked x)) (default [] (ud_sudo_commands x)) (default [] (ud_sudo_commands_nopasswd x)) group (default None (ud_email x))
    (ud_last_password_change x) (Some "").

(** [setup_homedir]: the path of the home directory. *)
Definition setup_homedir (e : uenv) (path username mode : string) (uid gid : Z) (create : bool) : op string :=
  let target := if create then path_join path username else path in
  created ← (if create then fun d =>
               match uext e (Mkdir target mode) d with
               | (d, Ok _) => (d, Ok true)
               | (d, Err (ECallError _ _ n _)) =>
                   (d, if (n =? EEXIST)%Z && negb (is_dir e target)
                       then Err (CallError "Path for home directory already exists and is not a directory" EEXIST) else Ok false)
               | (d, Err (EOther cls m as x)) =>
                   (d, Err (if String.eqb cls "OSError"
                            then CallError ("Failed to create the home directory (" +:+ target +:+ ") for user: " +:+ m) EFAULT else x))
               | (d, Err x) => (d, Err x)
               end
             else mret false);
  _ ← on_error (uext e (SetPerm target mode (Some uid) (Some gid))) (when (created : bool) (uext e (Rmtree target)));
  mret target.

(** ** [user.create] *)

(** A creation in progress: what [do_create] knows once the uid is chosen. *)
Record pending := mkPending {
  pe_data : user_data;
  pe_uid : Z;
  pe_group : Z;
  pe_gid : Z;
  pe_group_name : string;
  pe_groups : list Z;
  pe_group_created : bool;
}.

Definition new_group_data (name : string) : group_data := mkGD (Some name) None (Some false) (Some []) (Some []) None None.

(** The primary group: id, gid, name and whether it was created. *)
Definition primary_group (e : uenv) (username : string) (group : option Z) (group_create : bool) : op (Z * Z * string * bool) :=
  if group_create then
    o ← gets (group_by_name username);
    match o with
    | Some g => mret (g_id g, g_gid g, g_group g, false)
    | None =>
        pk ← create_internal (base e) (new_group_data username) false;
        o ← gets (find_group pk);
        g ← expect o (EOther "IndexError" "list index out of range");
        mret (g_id g, g_gid g, g_group g, true)
    end
  else
    let pk := default 0%Z group in
    o ← gets (find_group pk);
    match o, List.find (fun a => BASE_SYNTHETIC_DATASTORE_ID + ds_id a =? pk)%Z (ds_groups_ (base e)) with
    | Some g, _ => mret (g_id g, g_gid g, g_group g, false)
    | None, Some a => mret (pk, ds_id a, ds_name a, false)
    | None, None => raise (EValidationErrors [mkVE (Some "user_create.group") ("Group " +:+ pretty pk +:+ " not found") ENOENT])
    end.

Definition validate_create (e : uenv) (x : user_data) (group_create : bool) (d : adb) : result exn (user_data * VErrors.t) :=
  let group := default None (ud_group x) in
  let has_group := match group with Some g => negb (g =? 0)%Z | None => false end in
  let v := add_if ((negb has_group && negb group_create) || (bool_decide (is_Some group) && group_create)) "user_create.group"
             "Enter either a group name or create a new group to continue." EINVAL [] in
  let group_ids := (if has_group then [default 0%Z group] else []) ++ default [] (ud_groups x) in
  '(x, v) ← common_validation e "user_create" x group_ids None v d;
  let home := default "" (ud_home x) in
  Ok (x, add_if (match default None (ud_sshpubkey x) with Some k => negb (String.eqb k "") | None => false end
                 && negb (Str.startswith "/mnt" home)) "user_create.sshpubkey"
           (home +:+ ": the user home directory must be set to a writable path located within a data pool.") EINVAL v).

Definition verified (f : adb -> result exn (user_data * VErrors.t)) : op user_data := fun d =>
  match f d with
  | Err x => (d, Err x)
  | Ok (data, v) => (d, match VErrors.check v with Ok _ => Ok data | Err x => Err x end)
  end.

(** Up to the choice of the uid. *)
Definition user_create_begin (e : uenv) (data : user_data) (group_create : bool) : op pending :=
  x ← verified (validate_create e (with_defaults data) group_create);
  let username := default "" (ud_username x) in
  '(group, gid, group_name, created) ← primary_group e username (default None (ud_group x)) group_create;
  gs ← (if flag (ud_smb x) then
          o ← gets (group_by_name "builtin_users");
          b ← expect o MatchNotFound;
          mret (default [] (ud_groups x) ++ [g_id b])
        else mret (default [] (ud_groups x)));
  uid ← match ud_uid x with Some u => mret u | None => get_next_uid e end;
  mret (mkPending x uid group gid group_name gs created).

(** The home directory; when it fails a created group and the reservation go. *)
Definition create_home (e : uenv) (p : pending) : op string :=
  let x := pe_data p in
  let home := default "" (ud_home x) in
  if String.eqb home "" || String.eqb home DEFAULT_HOME_PATH then mret home
  else on_error (setup_homedir e home (default "" (ud_username x)) (default "" (ud_home_mode x)) (pe_uid p) (pe_gid p) (flag (ud_home_create x)))
         (_ ← when (pe_group_created p) (_ ← group_do_delete (base e) (pe_group p) false; mret tt);
          unreserve (pe_uid p)).

(** The rows; the user is deleted again when its second factor cannot be stored. *)
Definition create_rows (e : uenv) (p : pending) (home : string) (gs : list Z) : op Z :=
  finally
    (pk ← insert_user (created_row e (pe_data p) (pe_uid p) (pe_group p) home) gs;
     _ ← on_error (insert_twofactor pk) (delete_user pk);
     mret pk)
    (unreserve (pe_uid p)).

(** [except PermissionError]: raised again as a [CallError]. *)
Definition write_sshpubkey (e : uenv) (home : string) (key : option string) (group : string) : op unit := fun d =>
  match uext e (UpdateSshPubkey home key group) d with
  | (d, Err (EOther cls m as x)) =>
      (d, Err (if String.eqb cls "PermissionError" then CallError ("Failed to update authorized keys: " +:+ m) EFAULT else x))
  | r => r
  end.

Definition user_create_end (e : uenv) (p : pending) : op Z :=
  let x := pe_data p in
  let username := default "" (ud_username x) in
  home ← create_home e p;
  gs ← (fun d => (d, handle_webshare (flag (ud_webshare x)) username (pe_groups p) d));
  pk ← create_rows e p home gs;
  _ ← uext e ReloadSsh;
  _ ← uext e ReloadUser;
  _ ← when (flag (ud_smb x)) (uext e (UpdatePassdbUser username));
  _ ← when (is_dir e "/etc/skel/" && exists_ e home && negb (String.eqb home DEFAULT_HOME_PATH))
        (_ ← uext e (CopySkel home (pe_uid p) (pe_gid p));
         write_sshpubkey e home (default None (ud_sshpubkey x)) (pe_group_name p));
  mret pk.

Definition user_do_create (e : uenv) (data : user_data) (group_create : bool) : op Z :=
  p ← user_create_begin e data group_create;
  user_create_end e p.

(** ** [user.update] *)

(** The row [datastore.update] writes: the entry with the data in it. *)
Definition updated_row (e : uenv) (o : uentry) (x : user_data) : user_row :=
  let u := ue_row o in
  let '(unixhash, smbhash) := hashes e (ud_password x) u in
  mkUser (u_id u) (u_uid u) (default (u_username u) (ud_username x)) unixhash smbhash (default (u_home u) (ud_home x))
    (default (u_shell u) (ud_shell x)) (default (u_full_name u) (ud_full_name x)) (u_builtin u) (default (u_smb u) (ud_smb x))
    (idmap_compress (default (ue_userns_idmap o) (ud_userns_idmap x))) (default (u_password_disabled u) (ud_password_disabled x))
    (default (u_ssh_password_enabled u) (ud_ssh_password_enabled x)) (default (u_locked u) (ud_locked x))
    (default (u_sudo_commands u) (ud_sudo_commands x)) (default (u_sudo_commands_nopasswd u) (ud_sudo_commands_nopasswd x))
    (match ud_group x with Some (Some g) => g | _ => u_group u end) (default (u_email u) (ud_email x))
    (match ud_last_password_change x with Some t => Some t | None => u_last_password_change u end)
    (Some (Str.join " " (default (ue_history o) (ud_password_history x)))).

(** The primary group after the update; the errors when there is none. *)
Definition update_group (o : uentry) (x : user_data) (v : VErrors.t) (d : adb) : result exn group_row :=
  match ud_group x with
  | Some None => Err (EValidationErrors (VErrors.add (Some "user_update.group") "User must have a primary group" EINVAL v))
  | Some (Some g) =>
      match find_group g d with
      | Some r => if VErrors.bool v then Err (EValidationErrors v) else Ok r
      | None => Err (EValidationErrors (VErrors.add (Some "user_update.group") ("Group " +:+ pretty g +:+ " not found") ENOENT v))
      end
  | None =>
      if VErrors.bool v then Err (EValidationErrors v)
      else match find_group (u_group (ue_row o)) d with Some r => Ok r | None => Err (EOther "TypeError" "'NoneType' object is not subscriptable") end
  end.

(** The other local users that are shown with the role FULL_ADMIN and not locked. *)
Definition other_admins (e : uenv) (pk : Z) (d : adb) : list user_row :=
  List.filter (fun u => negb (u_id u =? pk)%Z && negb (u_locked (shown_row e u))
                        && bool_decide ("FULL_ADMIN" ∈ user_roles d (groups_of (u_id u) d ++ [u_group u]))) (users d).

(** What an immutable user may not change.  [data['group']] is an id and is compared
    with the dictionary of the group. *)
Definition validate_frozen (o : uentry) (x : user_data) (v : VErrors.t) : VErrors.t :=
  let u := ue_row o in
  let refuse b k := add_if b ("user_update." +:+ k) "This attribute cannot be changed" EINVAL in
  if ue_immutable o then
    let v := refuse (bool_decide (is_Some (ud_home_mode x))) "home_mode" v in
    let v := refuse (bool_decide (is_Some (ud_group x))) "group" v in
    let v := refuse (changed (ud_home x) (u_home u)) "home" v in
    let v := refuse (changed (ud_username x) (u_username u)) "username" v in
    let v := refuse (changed (ud_smb x) (u_smb u)) "smb" v in
    refuse (changed (ud_userns_idmap x) (ue_userns_idmap o)) "userns_idmap" v
  else v.

Definition validate_update (e : uenv) (o : uentry) (x : user_data) (group : group_row) (me : option string) (d : adb)
    : result exn (user_data * VErrors.t) :=
  let u := ue_row o in
  let v := add_if (bool_decide (me = Some (u_username u)) && twofactor_enabled e && negb (ue_twofactor o)) "user_update.renew_twofactor_secret"
             "Two-factor authentication is enabled globally but not configured for this user." EINVAL [] in
  let group_ids := g_id group :: (match ud_groups x with Some (_ :: _ as l) => l | _ => ue_groups o end) in
  let v := add_if (flag (ud_locked x) && negb (is_nonempty (other_admins e (u_id u) d))) "user_update.locked"
             "After locking this user no local users will have FULL_ADMIN role" EINVAL v in
  '(x, v) ← common_validation e "user_update" x group_ids (Some o) v d;
  let home := match ud_home x with Some h => if String.eqb h "" then u_home u else h | None => u_home u end in
  let v := add_if (match default None (ud_sshpubkey x) with Some k => negb (String.eqb k "") | None => false end
                   && negb ((u_uid u =? 0)%Z || (u_uid u =? ADMIN_UID)%Z || is_dataset_path e home)) "user_update.sshpubkey"
             ("Home directory is not writable, leave this blank" +:+ DQ) EINVAL v in
  let v := validate_frozen o x v in
  Ok (x, add_if (negb (u_smb u) && flag (ud_smb x) && bool_decide (password_of x = None)) "user_update.smb"
           "Password must be reset in order to enable SMB authentication" EINVAL v).

(** The entry of Samba: whether it must be written again. *)
Definition update_passdb (e : uenv) (o : uentry) (x : user_data) : op bool :=
  let u := ue_row o in
  let renamed := changed (ud_username x) (u_username u) in
  _ ← when renamed (ignoring (uext e (RemovePassdbUser (u_username u) (ue_sid o))));
  let must := renamed || bool_decide (is_Some (password_of x)) || changed (ud_locked x) (u_locked u) in
  let off := u_smb u && bool_decide (ud_smb x = Some false) in
  _ ← when off (ignoring (uext e (RemovePassdbUser (u_username u) (ue_sid o))));
  mret ((must && negb off) || (negb (u_smb u) && flag (ud_smb x))).

(** [recreate_homedir_if_not_exists] *)
Definition recreate_homedir (e : uenv) (home : string) (uid gid : Z) (mode : string) : op unit :=
  if is_dir e home then mret tt
  else if exists_ e home then raise (CallError (Fmt.repr_str home +:+ " already exists and is not a directory") EFAULT)
  else
    _ ← (fun d => match uext e (Makedirs home) d with
                  | (d, Err _) => (d, Err (CallError ("Failed recreating " +:+ DQ +:+ home +:+ DQ) EFAULT))
                  | r => r
                  end);
    uext e (SetPerm home mode (Some uid) (Some gid)).

(** The home directory and the keys of the user.  The jobs that copy it and set its
    permissions are not waited for or may fail. *)
Definition update_home (e : uenv) (o : uentry) (x : user_data) (group : group_row) : op unit :=
  let u := ue_row o in
  let new_home := default (u_home u) (ud_home x) in
  let asked := match ud_home x with Some h => if String.eqb h "" then u_home u else h | None => u_home u end in
  let has_home := negb (String.eqb asked DEFAULT_HOME_PATH) in
  let copy := has_home && bool_decide (is_Some (ud_home x)) && negb (String.eqb (u_home u) DEFAULT_HOME_PATH)
              && negb (String.eqb (u_home u) new_home) in
  let old_mode := default "700" (home_mode_of e (u_home u)) in
  let mode := match ud_home_mode x with Some m => if String.eqb m "" then old_mode else m | None => old_mode end in
  _ ← when has_home (recreate_homedir e new_home (u_uid u) (g_gid group) mode);
  let home_mode := if ue_immutable o then None else ud_home_mode x in
  _ ← write_sshpubkey e (if copy then u_home u else new_home) (default (ue_sshpubkey o) (ud_sshpubkey x)) (g_group group);
  _ ← when (((u_uid u =? 0)%Z || (u_uid u =? ADMIN_UID)%Z) && failover_licensed e) (ignoring (uext e UpdateSshPubkeyRemote));
  if copy then ignoring (uext e (HomeCopy (u_home u) new_home (default (u_username u) (ud_username x)) home_mode (u_uid u)))
  else match home_mode with
       | Some m => when has_home (ignoring (uext e (SetPerm new_home m None None)))
       | None => mret tt
       end.

(** [data['home']] when the home directory is to be created in it. *)
Definition place_home (o : uentry) (x : user_data) : user_data :=
  let asked := match ud_home x with Some h => if String.eqb h "" then u_home (ue_row o) else h | None => u_home (ue_row o) end in
  match ud_home x with
  | Some h => if negb (String.eqb asked DEFAULT_HOME_PATH) && flag (ud_home_create x)
              then with_home (Some (path_join h (match ud_username x with Some n => if String.eqb n "" then u_username (ue_row o) else n
                                                                        | None => u_username (ue_row o) end))) x
              else x
  | None => x
  end.

(** [me]: the name of the user the session belongs to, for a user session. *)
Definition user_do_update (e : uenv) (me : option string) (pk : Z) (data : user_data) : op unit :=
  if (BASE_SYNTHETIC_DATASTORE_ID <? pk)%Z then raise (ds_refused "Users" "modified through")
  else
    o ← user_get_instance e pk;
    v ← (fun d => (d, Ok (if flag (ud_password_disabled data) then
                            match before_user_password_disable pk d with
                            | Err (ECallError _ msg _ _) => VErrors.add (Some "user_update.password_disabled") msg EINVAL []
                            | _ => []
                            end
                          else [])));
    group ← (fun d => (d, update_group o data v d));
    x ← verified (validate_update e o data group me);
    must ← update_passdb e o x;
    let placed := place_home o x in
    _ ← update_home e o placed group;
    let r := updated_row e o placed in
    gs ← (fun d => (d, handle_webshare (default (ue_webshare o) (ud_webshare x)) (u_username r) (default (ue_groups o) (ud_groups x)) d));
    _ ← update_user_row pk (fun _ => r);
    _ ← set_user_groups pk gs;
    _ ← uext e (ResetTally (u_username r));
    _ ← uext e ReloadSsh;
    _ ← uext e ReloadUser;
    when (u_smb r && must) (uext e (UpdatePassdbUser (u_username r))).

(** ** [user.delete] *)

(** The primary group is deleted when nobody else is in it; failures are logged. *)
Definition delete_primary_group (e : uenv) (pk : Z) (o : uentry) (delete_group : bool) : op unit := fun d =>
  let gid := u_group (ue_row o) in
  match find_group gid d with
  | Some g =>
      if delete_group && negb (g_builtin g) && negb (existsb (fun m => m_group m =? gid)%Z (members d))
         && negb (existsb (fun u => (u_group u =? gid)%Z && negb (u_id u =? pk)%Z) (users d))
      then ((group_do_delete (base e) gid false d).1, Ok tt) else (d, Ok tt)
  | None => (d, Ok tt)
  end.

Definition user_do_delete (e : uenv) (me : option string) (pk : Z) (delete_group : bool) : op Z :=
  if (BASE_SYNTHETIC_DATASTORE_ID <? pk)%Z then raise (ds_refused "Users" "deleted from")
  else
    o ← user_get_instance e pk;
    let u := ue_row o in
    _ ← check (negb (bool_decide (me = Some (u_username u)))) (CallError "Cannot delete the currently active user" EINVAL);
    _ ← check (negb (u_builtin u)) (CallError "Cannot delete a built-in user" EINVAL);
    _ ← check (negb (ue_immutable o)) (CallError "Cannot delete an immutable user" EINVAL);
    _ ← (fun d => (d, before_user_delete pk d));
    _ ← delete_primary_group e pk o delete_group;
    _ ← when (negb (String.eqb (u_home u) "") && negb (String.eqb (u_home u) DEFAULT_HOME_PATH))
          (ignoring (uext e (Rmtree (path_join (u_home u) ".ssh"))));
    _ ← when (u_smb u) (uext e (RemovePassdbUser (u_username u) (ue_sid o)));
    _ ← modify (fun d => if bool_decide (cifs_guest d = Some (u_username u)) then set_cifs_guest (Some "nobody") d else d);
    _ ← modify (fun d => set_webui_attributes (remove_first (u_uid u) (webui_attributes d)) d);
    _ ← delete_user pk;
    _ ← uext e ReloadSsh;
    _ ← uext e (ResetTally (u_username u));
    _ ← uext e ReloadUser;
    _ ← forget_idmap (base e) "UID2SID" (u_uid u);
    mret pk.

(** ** [user.set_password] *)

(** What the method reads of the credentials of the caller. *)
Record caller := mkCaller {
  full_admin : bool;
  session_user : option string;
  otp_login : bool;
  change_required : bool;
}.

Inductive found := FLocal (o : uentry) | FSynthetic (local : bool) | FNone.

(** [user.query([['username', '=', username]])] *)
Definition find_entry (e : uenv) (username : string) (d : adb) : result exn found :=
  match user_by_name username d with
  | Some u => o ← user_extend e d u; Ok (FLocal o)
  | None =>
      Ok (if existsb (fun a => String.eqb (ds_name a) username) (ds_users (base e)) then FSynthetic false
          else if String.eqb username CONTAINER_ROOT_NAME then FSynthetic true else FNone)
  end.

Definition TypeError (msg : string) : exn := EOther "TypeError" msg.

(** The row with the new password. *)
Definition password_row (e : uenv) (password : string) (history : list string) (u : user_row) : user_row :=
  mkUser (u_id u) (u_uid u) (u_username u) (crypted_password e password) (nt_password e password) (u_home u) (u_shell u) (u_full_name u)
    (u_builtin u) (u_smb u) (u_userns_idmap u) (u_password_disabled u) (u_ssh_password_enabled u) (u_locked u) (u_sudo_commands u)
    (u_sudo_commands_nopasswd u) (u_group u) (u_email u) (Some (time_now (base e))) (Some (Str.join ", " history)).

Definition old_password_errors (e : uenv) (c : caller) (username : string) (old_password : option string) : VErrors.t :=
  if full_admin c || otp_login c then []
  else match old_password with
       | None => [mkVE (Some "user.set_password.old_password") "FULL_ADMIN role is required in order to bypass check for current password." EINVAL]
       | Some p => add_if (negb (pam_authenticates e username p)) "user.set_password.old_password"
                     (username +:+ ": failed to validate password.") EINVAL []
       end.

Definition set_password (e : uenv) (c : caller) (username : string) (old_password : option string) (password : string) : op unit :=
  _ ← check (full_admin c || bool_decide (session_user c = Some username))
        (CallError (username +:+ ": currently authenticated credential may not reset password for this user.") EPERM);
  f ← (fun d => (d, find_entry e username d));
  match f with
  | FNone => raise (TypeError "list indices must be integers or slices, not str")
  | FSynthetic _ => raise (TypeError "unsupported operand type(s) for +: 'NoneType' and 'list'")
  | FLocal o =>
      let u := ue_row o in
      let history := ue_history o ++ [u_unixhash u] in
      _ ← lift (VErrors.check (password_security_validate e "user.set_password.new_password" password history
                                 (old_password_errors e c username old_password)));
      recent ← (match positive (min_password_age (security (base e))) with
                | Some n => if full_admin c || change_required c then mret false
                            else age ← expect (ue_password_age o) (TypeError "'<' not supported between instances of 'NoneType' and 'int'");
                                 mret (age <? n)%Z
                | None => mret false
                end);
      let attr := "user.set_password.username" in
      let v := add_if (recent : bool) attr (username +:+ ": password changed too recently. Minimum password age is: "
                 +:+ pretty (default 0%Z (min_password_age (security (base e))))) EINVAL [] in
      let v := add_if (u_password_disabled u) attr (username +:+ ": password authentication disabled for user") EINVAL v in
      let v := add_if (u_locked u) attr (username +:+ ": user account is locked.") EINVAL v in
      _ ← lift (VErrors.check v);
      _ ← update_user_row (u_id u) (password_row e password history);
      _ ← uext e (EtcGenerate "shadow");
      when (u_smb u) (uext e (UpdatePassdbUser (u_username u)))
  end.

(** ** [user.setup_local_administrator] *)

Definition taken (r : result exn nss_obj) (msg : nss_obj -> string) : result exn unit :=
  x ← unless_missing r;
  match x with Some o => Err (CallError (msg o) EEXIST) | None => Ok tt end.

Definition not_possible : string := "setting up local administrator is not possible".

(** The checks before the script that writes the account is run. *)
Definition setup_local_administrator_checks (e : uenv) (username : string) (d : adb) : result exn unit :=
  b ← has_local_administrator_set_up d;
  if (b : bool) then Err (CallError "Local administrator is already set up" EEXIST)
  else if String.eqb username "truenas_admin" then
    let src o := Str.lower (nss_source o) in
    _ ← taken (get_user_by_uid (base e) ADMIN_UID d)
          (fun o => "A " +:+ src o +:+ " user with uid=950 already exists, " +:+ not_possible);
    _ ← taken (get_user_by_name (base e) username d)
          (fun o => Fmt.repr_str username +:+ " " +:+ src o +:+ " user already exists, " +:+ not_possible);
    _ ← taken (get_group_by_gid (base e) ADMIN_GID d)
          (fun o => "A " +:+ src o +:+ " group with gid=950 already exists, " +:+ not_possible);
    _ ← taken (get_group_by_name (base e) username d)
          (fun o => Fmt.repr_str username +:+ " " +:+ src o +:+ " group already exists, " +:+ not_possible);
    if existsb (fun u => u_uid u =? ADMIN_UID)%Z (users d) then Err (CallError ("A user with uid=950 already exists, " +:+ not_possible) EEXIST)
    else if existsb (fun u => String.eqb (u_username u) username) (users d)
         then Err (CallError (Fmt.repr_str username +:+ " user already exists, " +:+ not_possible) EEXIST)
    else if existsb (fun g => g_gid g =? ADMIN_GID)%Z (groups d) then Err (CallError ("A group with gid=950 already exists, " +:+ not_possible) EEXIST)
    else if existsb (fun g => String.eqb (g_group g) username) (groups d)
         then Err (CallError (Fmt.repr_str username +:+ " group already exists, " +:+ not_possible) EEXIST)
    else Ok tt
  else Ok tt.

(** ** Histories

    The creation of an account is two steps, before and after its id is chosen and
    reserved; the other operations are one step each. *)

Record world := mkWorld {
  db : adb;
  pend_users : list (Z * pending);  (** the time of the reservation *)
  pend_groups : list (group_data * Z);
}.

Inductive label :=
| LUserBegin (e : uenv) (data : user_data) (group_create : bool)
| LUserEnd (e : uenv) (i : nat)
| LUserUpdate (e : uenv) (me : option string) (pk : Z) (data : user_data)
| LUserDelete (e : uenv) (me : option string) (pk : Z) (delete_group : bool)
| LSetPassword (e : uenv) (c : caller) (username : string) (old_password : option string) (password : string)
| LGroupBegin (e : uenv) (data : group_data)
| LGroupEnd (e : uenv) (i : nat)
| LGroupUpdate (e : uenv) (pk : Z) (data : group_data)
| LGroupDelete (e : uenv) (pk : Z) (delete_users : bool)
| LPrivCreate (e : uenv) (p : privilege)
| LPrivUpdate (e : uenv) (id : Z) (x : privilege_data)
| LPrivDelete (id : Z)
| LRootCheck (e : uenv)
| LNextUid (e : uenv)
| LNextGid (e : uenv).

Definition on_db (d : adb) (w : world) : world := mkWorld d (pend_users w) (pend_groups w).

Definition exec (l : label) (w : world) : world :=
  match l with
  | LUserBegin e data gc =>
      match user_create_begin e data gc (db w) with
      | (d, Ok p) => mkWorld d (pend_users w ++ [(clock (base e), p)]) (pend_groups w)
      | (d, Err _) => on_db d w
      end
  | LUserEnd e i =>
      match pend_users w !! i with
      | Some (_, p) => mkWorld (user_create_end e p (db w)).1 (delete i (pend_users w)) (pend_groups w)
      | None => w
      end
  | LUserUpdate e me pk x => on_db (user_do_update e me pk x (db w)).1 w
  | LUserDelete e me pk b => on_db (user_do_delete e me pk b (db w)).1 w
  | LSetPassword e c n o p => on_db (set_password e c n o p (db w)).1 w
  | LGroupBegin e data =>
      match group_create_begin (base e) data (db w) with
      | (d, Ok gid) => mkWorld d (pend_users w) (pend_groups w ++ [(data, gid)])
      | (d, Err _) => on_db d w
      end
  | LGroupEnd e i =>
      match pend_groups w !! i with
      | Some (data, gid) => mkWorld (group_create_end (base e) data gid true (db w)).1 (pend_users w) (delete i (pend_groups w))
      | None => w
      end
  | LGroupUpdate e pk x => on_db (group_do_update (base e) pk x (db w)).1 w
  | LGroupDelete e pk b => on_db (group_do_delete (base e) pk b (db w)).1 w
  | LPrivCreate e p => on_db (privilege_do_create (base e) p (db w)).1 w
  | LPrivUpdate e id x => on_db (privilege_do_update (base e) id x (db w)).1 w
  | LPrivDelete id => on_db (privilege_do_delete id (db w)).1 w
  | LRootCheck e => on_db (always_has_root_password_enabled (base e) (db w)).1 w
  | LNextUid e => on_db (get_next_uid e (db w)).1 w
  | LNextGid e => on_db (get_next_gid (base e) (db w)).1 w
  end.

End Users.
