(* ===== verification/AccountInv.v ===== *)
(** * Invariants of the account tables

    The constraints the tables always satisfy, the operations that leave the tables
    alone, and what every write keeps. *)

From S2P Require Import Prelude PyDict PyStr PyVal PyFormat Errors Privilege AccountDb Groups Users.

Module AccountInv.
Import Acct Groups Users.

(** ** What operations leave alone *)

(** A part of the state that neither the calls that leave the process nor the files
    they generate belong to. *)
Class Calm {T} (pr : adb -> T) : Prop := {
  calm_calls : forall v d, pr (set_calls v d) = pr d;
  calm_files : forall p g d, pr (set_files p g d) = pr d;
}.

(** The operation leaves the part as it is. *)
Definition frames {T} (pr : adb -> T) {A} (m : op A) : Prop := forall d, pr (m d).1 = pr d.

Section frames.
Context {T} (pr : adb -> T).

Lemma frames_ret {A} (a : A) : frames pr (mret a).
Proof. done. Qed.
Lemma frames_raise {A} (x : exn) : frames pr (A:=A) (raise x).
Proof. done. Qed.
Lemma frames_gets {A} (f : adb -> A) : frames pr (gets f).
Proof. done. Qed.
Lemma frames_read {A} (f : adb -> result exn A) : frames pr (fun d => (d, f d)).
Proof. done. Qed.
Lemma frames_expect {A} (o : option A) (x : exn) : frames pr (expect o x).
Proof. done. Qed.
Lemma frames_lift {A} (r : result exn A) : frames pr (lift r).
Proof. done. Qed.
Lemma frames_check b x : frames pr (check b x).
Proof. done. Qed.
Lemma frames_bind {A B} (m : op A) (f : A -> op B) : frames pr m -> (forall a, frames pr (f a)) -> frames pr (m ≫= f).
Proof.
  intros Hm Hf d. unfold mbind, ste_mbind. specialize (Hm d). destruct (m d) as [d1 [a|x]]; [|done]. simpl in *.
  by rewrite Hf.
Qed.
Lemma frames_if {A} (b : bool) (m n : op A) : frames pr m -> frames pr n -> frames pr (if b then m else n).
Proof. by destruct b. Qed.
Lemma frames_ignoring m : frames pr m -> frames pr (ignoring m).
Proof. intros H d. apply H. Qed.
Lemma frames_on_error {A} (m : op A) h : frames pr m -> frames pr h -> frames pr (on_error m h).
Proof.
  intros Hm Hh d. unfold on_error. specialize (Hm d). destruct (m d) as [d1 [a|x]]; [done|]. specialize (Hh d1).
  destruct (h d1) as [d2 [|]]; simpl in *; congruence.
Qed.
Lemma frames_finally {A} (m : op A) h : frames pr m -> frames pr h -> frames pr (finally m h).
Proof.
  intros Hm Hh d. unfold finally. specialize (Hm d). destruct (m d) as [d1 r]. specialize (Hh d1).
  destruct (h d1) as [d2 [|]]; simpl in *; congruence.
Qed.
Lemma frames_verify f : frames pr (verify f).
Proof. intros d. unfold verify. by destruct (f d). Qed.
Lemma frames_verified f : frames pr (verified f).
Proof. intros d. unfold verified. by destruct (f d) as [[]|]. Qed.
Lemma frames_get_instance e pk : frames pr (user_get_instance e pk).
Proof. intros d. unfold user_get_instance. by destruct (find_user pk d). Qed.
Lemma frames_group_instance e pk : frames pr (group_get_instance e pk).
Proof. intros d. unfold group_get_instance. by destruct (find_group pk d). Qed.

Context `{!Calm pr}.

Lemma frames_ext e c : frames pr (ext e c).
Proof.
  intros d. unfold ext. destruct (outcome e c); [|apply calm_calls]. destruct c; simpl; rewrite ?calm_files; apply calm_calls.
Qed.
Lemma frames_uext e c : frames pr (uext e c).
Proof. apply frames_ext. Qed.
Lemma frames_forget e t x : frames pr (forget_idmap e t x).
Proof.
  intros d. unfold forget_idmap. pose proof (frames_ext e (DelIdmapCacheEntry t x) d) as H.
  destruct (ext e _ d) as [d1 [[]|[]]]; simpl in *; try done. by destruct (String.eqb _ _).
Qed.
Lemma frames_sshpubkey e h k g : frames pr (write_sshpubkey e h k g).
Proof.
  intros d. unfold write_sshpubkey. pose proof (frames_uext e (UpdateSshPubkey h k g) d) as H.
  by destruct (uext e _ d) as [d1 [[]|[]]].
Qed.
End frames.

Create HintDb quiet.
#[export] Hint Resolve frames_ret frames_raise frames_gets frames_read frames_expect frames_lift frames_check frames_if
  frames_ignoring frames_ext frames_uext frames_verify frames_verified frames_get_instance frames_group_instance frames_on_error
  frames_finally frames_forget frames_sshpubkey : quiet.
#[export] Hint Extern 1 (frames _ (modify _)) => (intros ?; reflexivity) : quiet.

(** Goes through a chain of operations. *)
Ltac quiet_steps := repeat first [solve [auto with quiet typeclass_instances] | apply frames_bind; [|intros ?] | apply frames_if].

Section homes.
Context {T} (pr : adb -> T) `{!Calm pr}.

Lemma frames_recreate e h u g m : frames pr (recreate_homedir e h u g m).
Proof.
  unfold recreate_homedir. quiet_steps. intros d. pose proof (frames_uext pr e (Makedirs h) d) as H.
  by destruct (uext e _ d) as [d1 [[]|x]].
Qed.

Lemma frames_setup e p n m u g c : frames pr (setup_homedir e p n m u g c).
Proof.
  unfold setup_homedir. apply frames_bind.
  - destruct c; [|done]. intros d. pose proof (frames_uext pr e (Mkdir (path_join p n) m) d) as H.
    by destruct (uext e _ d) as [d1 [[]|[]]].
  - intros b. quiet_steps.
Qed.

Lemma frames_passdb e o x : frames pr (update_passdb e o x).
Proof. unfold update_passdb. quiet_steps. Qed.
End homes.
#[export] Hint Resolve frames_recreate frames_setup frames_passdb : quiet.

Lemma frames_home {T} (pr : adb -> T) `{!Calm pr} e o x g : frames pr (update_home e o x g).
Proof.
  unfold update_home. quiet_steps. destruct (if ue_immutable o then None else ud_home_mode x); quiet_steps.
Qed.
#[export] Hint Resolve frames_home : quiet.

(** ** The tables *)

Definition tables (d : adb) :=
  (users d, user_seq d, groups d, group_seq d, members d, privs d, priv_seq d, twofactor d).

#[export] Instance tables_calm : Calm tables.
Proof. done. Qed.

(** An operation that does not write the tables. *)
Notation quiet := (frames tables).

Lemma quiet_next_gid e : quiet (get_next_gid e).
Proof.
  intros d. unfold get_next_gid. destruct (in_use _ _) as [fl r]. by destruct (add_entry _ _ _).
Qed.
Lemma quiet_next_uid e : quiet (get_next_uid e).
Proof.
  intros d. unfold get_next_uid. destruct (in_use _ _) as [fl r]. by destruct (add_entry _ _ _).
Qed.
Lemma quiet_unreserve uid : quiet (unreserve uid).
Proof. done. Qed.
#[export] Hint Resolve tables_calm quiet_next_gid quiet_next_uid quiet_unreserve : quiet.

(** ** Consistency *)

(** What the constraints of the database ensure. *)
Record db_ok (d : adb) : Prop := {
  k_user_ids : NoDup (map u_id (users d));
  k_user_seq : Forall (fun u => u_id u <= user_seq d)%Z (users d);
  k_user_names : NoDup (map u_username (users d));
  k_group_ids : NoDup (map g_id (groups d));
  k_group_seq : Forall (fun g => g_id g <= group_seq d)%Z (groups d);
  k_group_names : NoDup (map g_group (groups d));
  k_primary : Forall (fun u => u_group u ∈ map g_id (groups d)) (users d);
  k_members : Forall (fun m => m_group m ∈ map g_id (groups d) /\ m_user m ∈ map u_id (users d)) (members d);
  k_twofactor : Forall (fun t => t.1 ∈ map u_id (users d)) (twofactor d);
  k_priv_ids : NoDup (map pr_id (privs d));
  k_priv_seq : Forall (fun p => pr_id p <= priv_seq d)%Z (privs d);
}.

Lemma db_ok_tables d d' : tables d' = tables d -> db_ok d -> db_ok d'.
Proof. intros [= E1 E2 E3 E4 E5 E6 E7 E8] []. constructor; by rewrite ?E1, ?E2, ?E3, ?E4, ?E5, ?E6, ?E7, ?E8. Qed.

Lemma has_group_elem id d : has_group id d = true <-> id ∈ map g_id (groups d).
Proof.
  unfold has_group. rewrite existsb_exists. change (map g_id (groups d)) with (g_id <$> groups d). rewrite list_elem_of_fmap. split.
  - intros (g & Hg & E%Z.eqb_eq). exists g. split; [done|]. by apply list_elem_of_In.
  - intros (g & -> & Hg). exists g. split; [by apply list_elem_of_In|by apply Z.eqb_eq].
Qed.

Lemma has_user_elem id d : has_user id d = true <-> id ∈ map u_id (users d).
Proof.
  unfold has_user. rewrite existsb_exists. change (map u_id (users d)) with (u_id <$> users d). rewrite list_elem_of_fmap. split.
  - intros (g & Hg & E%Z.eqb_eq). exists g. split; [done|]. by apply list_elem_of_In.
  - intros (g & -> & Hg). exists g. split; [by apply list_elem_of_In|by apply Z.eqb_eq].
Qed.

Lemma find_user_elem id d u : find_user id d = Some u -> u ∈ users d /\ u_id u = id.
Proof. intros [H E%Z.eqb_eq]%find_elem. done. Qed.

Lemma find_group_elem id d g : find_group id d = Some g -> g ∈ groups d /\ g_id g = id.
Proof. intros [H E%Z.eqb_eq]%find_elem. done. Qed.

(** A fresh key at the end of a table. *)
Lemma NoDup_snoc {A B} (f : A -> B) (l : list A) x : NoDup (map f l) -> (forall y, y ∈ l -> f y ≠ f x) -> NoDup (map f (l ++ [x])).
Proof.
  intros Hnd Hx. rewrite map_app. apply NoDup_app. split_and!; [done| |apply NoDup_singleton].
  intros k Hk [=->]%list_elem_of_singleton. change (map f l) with (f <$> l) in Hk. apply list_elem_of_fmap in Hk as (y & E & Hy). by apply (Hx y).
Qed.

(** Rewriting rows in place. *)
Lemma map_key {A B} (f : A -> B) (p : A -> bool) (g : A -> A) l :
  (forall x, x ∈ l -> p x = true -> f (g x) = f x) -> map f (map (fun x => if p x then g x else x) l) = map f l.
Proof.
  intros H. rewrite map_map. apply map_ext_in. intros x Hx%list_elem_of_In. destruct (p x) eqn:E; [by apply H|done].
Qed.

(** ** What the writes keep *)

Definition keeps_ok {A} (m : op A) : Prop := forall d, db_ok d -> db_ok (m d).1.

Lemma quiet_keeps {A} (m : op A) : quiet m -> keeps_ok m.
Proof. intros Hq d Hd. eapply db_ok_tables; [apply Hq|done]. Qed.

Lemma keeps_ok_bind {A B} (m : op A) (f : A -> op B) : keeps_ok m -> (forall a, keeps_ok (f a)) -> keeps_ok (m ≫= f).
Proof.
  intros Hm Hf d Hd. unfold mbind, ste_mbind. specialize (Hm d Hd). destruct (m d) as [d1 [a|x]]; [by apply Hf|done].
Qed.

Lemma keeps_ok_on_error {A} (m : op A) h : keeps_ok m -> keeps_ok h -> keeps_ok (on_error m h).
Proof.
  intros Hm Hh d Hd. unfold on_error. specialize (Hm d Hd). destruct (m d) as [d1 [a|x]]; [done|]. specialize (Hh d1 Hm).
  by destruct (h d1) as [d2 [|]].
Qed.

Lemma keeps_ok_finally {A} (m : op A) h : keeps_ok m -> keeps_ok h -> keeps_ok (finally m h).
Proof.
  intros Hm Hh d Hd. unfold finally. specialize (Hm d Hd). destruct (m d) as [d1 r]. specialize (Hh d1 Hm).
  by destruct (h d1) as [d2 [|]].
Qed.

Lemma add_member_ok m : keeps_ok (add_member m).
Proof.
  intros d Hd. unfold add_member. destruct (has_group _ d && has_user _ d) eqn:E; [|done].
  apply andb_true_iff in E as [E1%has_group_elem E2%has_user_elem]. destruct Hd. constructor; try done. simpl.
  apply Forall_app. split; [done|]. by apply Forall_singleton.
Qed.

Lemma add_members_ok l : keeps_ok (add_members l).
Proof. induction l as [|m l IH]; [by intros d Hd|]. apply keeps_ok_bind; [apply add_member_ok|done]. Qed.

Lemma set_members_sub d l : l ⊆ members d -> db_ok d -> db_ok (set_members l d).
Proof.
  intros Hl []. constructor; try done. simpl. rewrite Forall_forall in *. intros m Hm. auto.
Qed.

Lemma set_user_groups_ok pk l : keeps_ok (set_user_groups pk l).
Proof. apply keeps_ok_bind; [|intros; apply add_members_ok]. intros d Hd. by apply set_members_sub, Hd; apply filter_subseteq. Qed.

Lemma set_group_users_ok pk l : keeps_ok (set_group_users pk l).
Proof. apply keeps_ok_bind; [|intros; apply add_members_ok]. intros d Hd. by apply set_members_sub, Hd; apply filter_subseteq. Qed.

Lemma keep_other_ids {A} (f : A -> Z) (l : list A) pk x : x ∈ map f l -> x ≠ pk -> x ∈ map f (List.filter (fun y => negb (f y =? pk)%Z) l).
Proof.
  change (map f l) with (f <$> l). intros (y & -> & Hy)%list_elem_of_fmap Hne. apply list_elem_of_fmap. exists y. split; [done|].
  apply filter_elem. split; [done|]. by apply negb_true_iff, Z.eqb_neq.
Qed.

Lemma delete_user_ok pk : keeps_ok (delete_user pk).
Proof.
  intros d []. constructor; simpl; try done.
  - by apply filter_NoDup.
  - by apply filter_Forall.
  - by apply filter_NoDup.
  - by apply filter_Forall.
  - apply Forall_forall. intros m [Hm E%negb_true_iff%Z.eqb_neq]%filter_elem. rewrite Forall_forall in k_members0.
    destruct (k_members0 m Hm). split; [done|]. by apply keep_other_ids.
  - apply Forall_forall. intros t [Ht E%negb_true_iff%Z.eqb_neq]%filter_elem. rewrite Forall_forall in k_twofactor0.
    apply keep_other_ids; auto.
Qed.

Lemma delete_group_ok pk : keeps_ok (delete_group pk).
Proof.
  intros d Hd. unfold delete_group. destruct (existsb _ (users d)) eqn:E; [done|]. pose proof (existsb_false _ _ E) as Hu.
  destruct Hd. constructor; simpl; try done.
  - by apply filter_NoDup.
  - by apply filter_Forall.
  - by apply filter_NoDup.
  - rewrite Forall_forall in *. intros u Hin. apply keep_other_ids; [auto|]. specialize (Hu u Hin). simpl in Hu. by apply Z.eqb_neq in Hu.
  - apply Forall_forall. intros m [Hm E'%negb_true_iff%Z.eqb_neq]%filter_elem. rewrite Forall_forall in k_members0.
    destruct (k_members0 m Hm). split; [by apply keep_other_ids|done].
Qed.

Lemma elem_map_app {A B} (f : A -> B) l l' x : x ∈ map f l -> x ∈ map f (l ++ l').
Proof. rewrite map_app. intros H. apply elem_of_app. by left. Qed.

Lemma insert_group_row_ok g : keeps_ok (insert_group_row g).
Proof.
  intros d Hd. unfold insert_group_row. destruct (existsb _ (groups d)) eqn:E; [done|]. pose proof (existsb_false _ _ E) as Hn.
  destruct Hd. rewrite Forall_forall in k_group_seq0. constructor; simpl; try done.
  - apply NoDup_snoc; [done|]. intros y Hy. specialize (k_group_seq0 y Hy). simpl. lia.
  - apply Forall_app. split; [|apply Forall_singleton; simpl; lia]. apply Forall_forall. intros y Hy. specialize (k_group_seq0 y Hy). lia.
  - apply NoDup_snoc; [done|]. intros y Hy. specialize (Hn y Hy). simpl in *. by apply String.eqb_neq.
  - eapply Forall_impl; [exact k_primary0|]. intros u. apply elem_map_app.
  - eapply Forall_impl; [exact k_members0|]. intros m [H1 H2]. split; [by apply elem_map_app|done].
Qed.

Lemma insert_user_row_ok u : keeps_ok (insert_user_row u).
Proof.
  intros d Hd. unfold insert_user_row. destruct (existsb _ (users d) || _) eqn:E; [done|].
  apply orb_false_iff in E as [E G%negb_false_iff%has_group_elem]. pose proof (existsb_false _ _ E) as Hn.
  destruct Hd. rewrite Forall_forall in k_user_seq0. constructor; simpl; try done.
  - apply NoDup_snoc; [done|]. intros y Hy. specialize (k_user_seq0 y Hy). simpl. lia.
  - apply Forall_app. split; [|apply Forall_singleton; simpl; lia]. apply Forall_forall. intros y Hy. specialize (k_user_seq0 y Hy). lia.
  - apply NoDup_snoc; [done|]. intros y Hy. specialize (Hn y Hy). simpl in *. by apply String.eqb_neq.
  - apply Forall_app. split; [done|]. by apply Forall_singleton.
  - eapply Forall_impl; [exact k_members0|]. intros m [H1 H2]. split; [done|by apply elem_map_app].
  - eapply Forall_impl; [exact k_twofactor0|]. intros t. apply elem_map_app.
Qed.

(** Renaming one row to a name nobody else has. *)
Lemma NoDup_rename {A} (id : A -> Z) (nm : A -> string) (g : A -> A) pk r (l : list A) :
  NoDup (map id l) -> NoDup (map nm l) -> r ∈ l -> id r = pk -> (forall x, x ∈ l -> id x ≠ pk -> nm x ≠ nm (g r)) ->
  NoDup (map nm (map (fun x => if (id x =? pk)%Z then g x else x) l)).
Proof.
  intros Hid Hnm Hr Epk Hx. induction l as [|y l IH]; [by apply elem_of_nil in Hr|]. simpl in *.
  apply NoDup_cons in Hid as [Hy Hid]. apply NoDup_cons in Hnm as [Hyn Hnm].
  assert (forall z, z ∈ map nm (map (fun x => if (id x =? pk)%Z then g x else x) l) -> z ∈ map nm l \/ (z = nm (g r) /\ r ∈ l)) as Hin.
  { intros z. rewrite map_map. change (map ?f l) with (f <$> l). intros (x & -> & Hx')%list_elem_of_fmap. destruct (id x =? pk)%Z eqn:E.
    - apply Z.eqb_eq in E. right. apply elem_of_cons in Hr as [->|Hr].
      + exfalso. apply Hy. apply list_elem_of_fmap. exists x. by rewrite E, Epk.
      + assert (x = r) as ->; [|done]. eapply (key_inj id l); [done..|by rewrite E].
    - left. apply list_elem_of_fmap. by exists x. }
  apply NoDup_cons. split.
  - destruct (id y =? pk)%Z eqn:E; [apply Z.eqb_eq in E|apply Z.eqb_neq in E]; intros [Hz|[Hz Hrl]]%Hin.
    + assert (y = r) as ->.
      { apply elem_of_cons in Hr as [->|Hr]; [done|]. exfalso. apply Hy. change (map id l) with (id <$> l). apply list_elem_of_fmap. exists r. by rewrite E, Epk. }
      change (map nm l) with (nm <$> l) in Hz. apply list_elem_of_fmap in Hz as (x & Ex & Hxl).
      apply (Hx x); [by right| |done]. intros E'. apply Hy. change (map id l) with (id <$> l). apply list_elem_of_fmap. exists x. by rewrite E, E'.
    + apply Hy. change (map id l) with (id <$> l). apply list_elem_of_fmap. exists r. by rewrite E, Epk.
    + done.
    + by apply (Hx y); [left|..].
  - clear Hin. apply elem_of_cons in Hr as [->|Hr].
    + assert (map (fun x => if (id x =? pk)%Z then g x else x) l = l) as ->; [|done].
      rewrite <-(map_id l) at 2. apply map_ext_in. intros x Hxl%list_elem_of_In. destruct (id x =? pk)%Z eqn:E; [|done].
      apply Z.eqb_eq in E. exfalso. apply Hy. change (map id l) with (id <$> l). apply list_elem_of_fmap. exists x. by rewrite E, Epk.
    + apply IH; [done..|]. intros x Hxl. apply Hx. by right.
Qed.

Lemma update_group_row_ok pk f : keeps_ok (update_group_row pk f).
Proof.
  intros d Hd. unfold update_group_row. destruct (find_group pk d) as [g|] eqn:Eg; [|done].
  apply find_group_elem in Eg as [Hg Ei]. destruct (existsb _ (groups d)) eqn:E; [done|]. pose proof (existsb_false _ _ E) as Hn.
  assert (map g_id (map (fun x => if (g_id x =? pk)%Z then set_g_id pk (f x) else x) (groups d)) = map g_id (groups d)) as Eids.
  { apply (map_key g_id). intros x _ ->%Z.eqb_eq. done. }
  destruct Hd. constructor; simpl; rewrite ?Eids; try done.
  - rewrite Forall_forall in *. intros x. change (map ?h (groups d)) with (h <$> groups d).
    intros (y & -> & Hy)%list_elem_of_fmap. destruct (g_id y =? pk)%Z eqn:Ey; [|by auto]. simpl. rewrite <-Ei. auto.
  - apply (NoDup_rename g_id g_group (fun x => set_g_id pk (f x)) pk g); [done..|].
    intros x Hx Hne. specialize (Hn x Hx). apply Z.eqb_neq in Hne. simpl in Hn. rewrite Hne in Hn. by apply String.eqb_neq.
Qed.

Lemma update_user_row_ok pk f : keeps_ok (update_user_row pk f).
Proof.
  intros d Hd. unfold update_user_row. destruct (find_user pk d) as [u|] eqn:Eu; [|done].
  apply find_user_elem in Eu as [Hu Ei]. destruct (existsb _ (users d) || _) eqn:E; [done|].
  apply orb_false_iff in E as [E G%negb_false_iff%has_group_elem]. pose proof (existsb_false _ _ E) as Hn.
  assert (map u_id (map (fun x => if (u_id x =? pk)%Z then set_u_id pk (f x) else x) (users d)) = map u_id (users d)) as Eids.
  { apply (map_key u_id). intros x _ ->%Z.eqb_eq. done. }
  destruct Hd. constructor; simpl; rewrite ?Eids; try done.
  - rewrite Forall_forall in *. intros x. change (map ?h (users d)) with (h <$> users d).
    intros (y & -> & Hy)%list_elem_of_fmap. destruct (u_id y =? pk)%Z eqn:Ey; [|by auto]. simpl. rewrite <-Ei. auto.
  - apply (NoDup_rename u_id u_username (fun x => set_u_id pk (f x)) pk u); [done..|].
    intros x Hx Hne. specialize (Hn x Hx). apply Z.eqb_neq in Hne. simpl in Hn. rewrite Hne in Hn. by apply String.eqb_neq.
  - rewrite Forall_forall in *. intros x. change (map ?h (users d)) with (h <$> users d).
    intros (y & -> & Hy)%list_elem_of_fmap. destruct (u_id y =? pk)%Z eqn:Ey; [|by auto]. apply Z.eqb_eq in Ey. simpl.
    assert (y = u) as -> by (eapply (key_inj u_id); [apply k_user_ids0|done..|congruence]). done.
Qed.

Lemma insert_twofactor_ok u : keeps_ok (insert_twofactor u).
Proof.
  intros d Hd. unfold insert_twofactor. destruct (has_user u d) eqn:E; [|done]. apply has_user_elem in E. destruct Hd.
  constructor; try done. simpl. apply Forall_app. split; [done|]. by apply Forall_singleton.
Qed.

Lemma insert_privilege_ok b p : keeps_ok (insert_privilege b p).
Proof.
  intros d []. rewrite Forall_forall in k_priv_seq0. constructor; simpl; try done.
  - apply NoDup_snoc; [done|]. intros y Hy. specialize (k_priv_seq0 y Hy). simpl. lia.
  - apply Forall_app. split; [|apply Forall_singleton; simpl; lia]. apply Forall_forall. intros y Hy. specialize (k_priv_seq0 y Hy). lia.
Qed.

Lemma update_privilege_ok pk b p : keeps_ok (update_privilege pk b p).
Proof.
  intros d Hd. unfold update_privilege. destruct (existsb _ (privs d)) eqn:E; [|done].
  apply existsb_exists in E as (r & Hr%list_elem_of_In & Er%Z.eqb_eq). destruct Hd. constructor; simpl; try done.
  - rewrite (map_key pr_id (fun x => pr_id x =? pk)%Z (fun _ => mkPrivRow pk b p)); [done|]. intros x _ ->%Z.eqb_eq. done.
  - rewrite Forall_forall in *. intros x. change (map ?h (privs d)) with (h <$> privs d).
    intros (y & -> & Hy)%list_elem_of_fmap. destruct (pr_id y =? pk)%Z eqn:Ey; [|by auto]. simpl. rewrite <-Er. auto.
Qed.

Lemma delete_privilege_ok pk : keeps_ok (delete_privilege pk).
Proof. intros d []. constructor; simpl; try done; [by apply filter_NoDup|by apply filter_Forall]. Qed.

#[export] Hint Resolve quiet_keeps add_members_ok set_user_groups_ok set_group_users_ok delete_user_ok delete_group_ok insert_group_row_ok
  insert_user_row_ok update_group_row_ok update_user_row_ok insert_twofactor_ok insert_privilege_ok update_privilege_ok delete_privilege_ok
  keeps_ok_on_error keeps_ok_finally : keeps.

Ltac keeps_steps :=
  repeat first [solve [auto with keeps quiet] | apply keeps_ok_bind; [|intros ?] | case_match].

(** ** Every operation keeps the tables consistent *)

Lemma insert_group_ok g l : keeps_ok (insert_group g l).
Proof. unfold insert_group. keeps_steps. Qed.

Lemma insert_user_ok u l : keeps_ok (insert_user u l).
Proof. unfold insert_user. keeps_steps. Qed.

Lemma move_users_ok b n l : keeps_ok (move_users b n l).
Proof. induction l as [|u l IH]; [by intros d Hd|]. simpl. apply keeps_ok_bind; [|done]. destruct b; auto with keeps. Qed.
#[export] Hint Resolve insert_group_ok insert_user_ok move_users_ok : keeps.

Lemma group_create_begin_quiet e x : quiet (group_create_begin e x).
Proof. unfold group_create_begin. quiet_steps. destruct (gd_gid x); quiet_steps. Qed.
#[export] Hint Resolve group_create_begin_quiet : quiet.

Lemma group_create_end_ok e x gid b : keeps_ok (group_create_end e x gid b).
Proof. unfold group_create_end. keeps_steps. Qed.

Lemma group_do_update_ok e pk x : keeps_ok (group_do_update e pk x).
Proof. unfold group_do_update. keeps_steps. Qed.

Lemma group_do_delete_ok e pk b : keeps_ok (group_do_delete e pk b).
Proof. unfold group_do_delete. keeps_steps. Qed.
#[export] Hint Resolve group_create_end_ok group_do_update_ok group_do_delete_ok : keeps.

Lemma create_internal_ok e x b : keeps_ok (create_internal e x b).
Proof. unfold create_internal. keeps_steps. Qed.
#[export] Hint Resolve create_internal_ok : keeps.

Lemma primary_group_ok e n g b : keeps_ok (primary_group e n g b).
Proof. unfold primary_group. keeps_steps. Qed.
#[export] Hint Resolve primary_group_ok : keeps.

Lemma user_create_begin_ok e x b : keeps_ok (user_create_begin e x b).
Proof. unfold user_create_begin. keeps_steps. Qed.

Lemma user_create_end_ok e p : keeps_ok (user_create_end e p).
Proof.
  unfold user_create_end, create_home, create_rows.
  repeat first [solve [auto with keeps quiet] | apply keeps_ok_bind; [|intros ?] | apply keeps_ok_on_error | apply keeps_ok_finally | case_match].
Qed.

Lemma user_do_update_ok e me pk x : keeps_ok (user_do_update e me pk x).
Proof. unfold user_do_update. keeps_steps. Qed.

Lemma delete_primary_group_ok e pk o b : keeps_ok (delete_primary_group e pk o b).
Proof.
  intros d Hd. unfold delete_primary_group. destruct (find_group _ d); [|done]. destruct (_ && _); [|done].
  by apply group_do_delete_ok.
Qed.

Lemma user_do_delete_ok e me pk b : keeps_ok (user_do_delete e me pk b).
Proof.
  unfold user_do_delete. keeps_steps; [by apply delete_primary_group_ok|].
  apply quiet_keeps. intros d. simpl. by case_bool_decide.
Qed.

Lemma set_password_ok e c n o p : keeps_ok (set_password e c n o p).
Proof. unfold set_password. keeps_steps. Qed.

Lemma privilege_create_ok e p : keeps_ok (privilege_do_create e p).
Proof. unfold privilege_do_create. keeps_steps. Qed.

Lemma privilege_update_ok e id x : keeps_ok (privilege_do_update e id x).
Proof. unfold privilege_do_update, get_priv. keeps_steps. Qed.

Lemma privilege_delete_ok id : keeps_ok (privilege_do_delete id).
Proof. unfold privilege_do_delete, get_priv. keeps_steps. Qed.

Lemma root_check_quiet e : quiet (always_has_root_password_enabled e).
Proof. unfold always_has_root_password_enabled. quiet_steps. destruct a1; quiet_steps. Qed.

Lemma exec_db_ok l w : db_ok (db w) -> db_ok (db (exec l w)).
Proof.
  intros Hd. destruct l; simpl.
  - pose proof (user_create_begin_ok e data group_create _ Hd). by destruct (user_create_begin e data group_create (db w)) as [d [p|]].
  - destruct (pend_users w !! i) as [[t p]|]; [|done]. by apply user_create_end_ok.
  - by apply user_do_update_ok.
  - by apply user_do_delete_ok.
  - by apply set_password_ok.
  - pose proof (quiet_keeps _ (group_create_begin_quiet (base e) data) _ Hd). by destruct (group_create_begin (base e) data (db w)) as [d [p|]].
  - destruct (pend_groups w !! i) as [[t p]|]; [|done]. by apply group_create_end_ok.
  - by apply group_do_update_ok.
  - by apply group_do_delete_ok.
  - by apply privilege_create_ok.
  - by apply privilege_update_ok.
  - by apply privilege_delete_ok.
  - by apply (quiet_keeps _ (root_check_quiet (base e))).
  - by apply (quiet_keeps _ (quiet_next_uid e)).
  - by apply (quiet_keeps _ (quiet_next_gid (base e))).
Qed.

End AccountInv.
