(* ===== verification/AccountRoot.v ===== *)
(** * The root account keeps its authority

    What protects the root user, the group of the administrators and the privilege of
    the local administrators from every operation of the account services. *)

From S2P Require Import Prelude PyDict PyStr PyVal PyFormat Errors Privilege AccountDb Groups Users AccountInv.

Module AccountRoot.
Import Acct Groups Users AccountInv.

(** ** Validation errors *)

Lemma check_nil v : VErrors.check v = Ok tt -> v = [].
Proof. by destruct v. Qed.

Lemma add_if_nil b a m n v : add_if b a m n v = [] -> b = false /\ v = [].
Proof. unfold add_if, VErrors.add. destruct b; [|done]. by destruct v. Qed.

Lemma verify_ok f d : (verify f d).2 = Ok tt -> f d = Ok [].
Proof. unfold verify. destruct (f d) as [v|]; [|done]. simpl. by intros ->%check_nil. Qed.

Lemma verified_ok f d x : (verified f d).2 = Ok x -> f d = Ok (x, []).
Proof.
  unfold verified. destruct (f d) as [[y v]|]; [|done]. simpl. destruct v; [|done]. by intros [= ->].
Qed.

Lemma check_sudo_nil e a o v : check_sudo e a o v = Ok [] -> v = [].
Proof.
  unfold check_sudo. destruct o as [l|]; [|by intros [= ->]]. destruct (validate_sudo_commands e l) as [c|]; [|done]. simpl.
  intros [= E]. rewrite add_child_app in E. by destruct v.
Qed.

Lemma bind_inv {A B} (m : result exn A) (f : A -> result exn B) b : m ≫= f = Ok b -> exists a, m = Ok a /\ f a = Ok b.
Proof. by rewrite result_bind_ok. Qed.

Lemma changed_false {A} `{EqDecision A} (o : option A) (x : A) : changed o x = false -> default x o = x.
Proof. destruct o as [y|]; [|done]. simpl. intros E%negb_false_iff%bool_decide_eq_true. done. Qed.

(** ** The invariant *)

Section root.
Context (root admins : Z).

Record root_ok (d : adb) : Prop := {
  r_root : exists u, u ∈ users d /\ u_id u = root /\ u_username u = "root" /\ u_uid u = 0%Z /\ u_builtin u = true /\ u_group u ≠ admins;
  r_admins : exists g, g ∈ groups d /\ g_id g = admins /\ g_group g = "builtin_administrators" /\ g_gid g = BUILTIN_ADMINISTRATORS
               /\ g_builtin g = true;
  r_member : mkMember admins root ∈ members d;
  r_priv : exists p, p ∈ privs d /\ pr_builtin_name p = Some LOCAL_ADMINISTRATOR /\ Gid BUILTIN_ADMINISTRATORS ∈ p_local_groups (pr_priv p)
             /\ "FULL_ADMIN" ∈ p_roles (pr_priv p);
  r_builtin : forall u, u ∈ users d -> u_builtin u = true -> exists g, g ∈ groups d /\ g_id g = u_group u /\ g_builtin g = true;
}.

Definition inv (d : adb) : Prop := db_ok d /\ root_ok d.

Lemma root_ok_same d d' :
  users d' = users d -> groups d' = groups d -> privs d' = privs d -> mkMember admins root ∈ members d' -> root_ok d -> root_ok d'.
Proof. intros E1 E2 E3 Hm []. constructor; rewrite ?E1, ?E2, ?E3; done. Qed.

Lemma inv_tables d d' : tables d' = tables d -> inv d -> inv d'.
Proof.
  intros E [Hd Hr]. split; [by eapply db_ok_tables|]. injection E as E1 E2 E3 E4 E5 E6 E7 E8.
  eapply root_ok_same; [done..| |exact Hr]. rewrite E5. apply Hr.
Qed.

Definition safe {A} (m : op A) : Prop := forall d, inv d -> inv (m d).1.

Lemma safe_run {A} (m : op A) d : safe m -> inv d -> inv (m d).1.
Proof. intros H. apply H. Qed.

Lemma quiet_safe {A} (m : op A) : quiet m -> safe m.
Proof. intros H d Hd. by eapply inv_tables, Hd. Qed.

Lemma safe_bind {A B} (m : op A) (f : A -> op B) : safe m -> (forall a, safe (f a)) -> safe (m ≫= f).
Proof.
  intros Hm Hf d Hd. unfold mbind, ste_mbind. specialize (Hm d Hd). destruct (m d) as [d1 [a|x]]; [by apply Hf|done].
Qed.

Lemma safe_on_error {A} (m : op A) h : safe m -> safe h -> safe (on_error m h).
Proof.
  intros Hm Hh d Hd. unfold on_error. specialize (Hm d Hd). destruct (m d) as [d1 [a|x]]; [done|]. specialize (Hh d1 Hm).
  by destruct (h d1) as [d2 [|]].
Qed.

Lemma safe_finally {A} (m : op A) h : safe m -> safe h -> safe (finally m h).
Proof.
  intros Hm Hh d Hd. unfold finally. specialize (Hm d Hd). destruct (m d) as [d1 r]. specialize (Hh d1 Hm).
  by destruct (h d1) as [d2 [|]].
Qed.

(** A read followed by what depends on it, in a state with the same tables. *)
Lemma inv_bind_quiet {A B} (m : op A) (f : A -> op B) d :
  quiet m -> inv d -> (forall a d', tables d' = tables d -> (m d).2 = Ok a -> inv (f a d').1) -> inv ((m ≫= f) d).1.
Proof.
  intros Hq Hd Hf. unfold mbind, ste_mbind. specialize (Hq d). destruct (m d) as [d1 [a|x]] eqn:E; simpl in *.
  - by apply Hf.
  - by eapply inv_tables.
Qed.

Lemma inv_bind_safe {A B} (m : op A) (f : A -> op B) d :
  inv (m d).1 -> (forall a, safe (f a)) -> inv ((m ≫= f) d).1.
Proof. intros Hm Hf. unfold mbind, ste_mbind. destruct (m d) as [d1 [a|x]]; simpl in *; [by apply Hf|done]. Qed.

(** ** The writes *)

Lemma add_members_grow l d :
  users (add_members l d).1 = users d /\ groups (add_members l d).1 = groups d /\ privs (add_members l d).1 = privs d
  /\ members d ⊆ members (add_members l d).1
  /\ (Forall (fun m => has_group (m_group m) d && has_user (m_user m) d = true) l -> l ⊆ members (add_members l d).1).
Proof.
  revert d. induction l as [|m l IH]; intros d; simpl; [set_solver|]. unfold mbind, ste_mbind, add_member.
  destruct (has_group _ d && has_user _ d) eqn:E.
  - destruct (IH (set_members (members d ++ [m]) d)) as (E1 & E2 & E3 & H4 & H5). split_and!; [done..| |].
    + etrans; [|exact H4]. simpl. set_solver.
    + intros [_ Hl]%Forall_cons x [->|Hx]%elem_of_cons; [|by apply H5]. apply H4. simpl. set_solver.
  - simpl. split_and!; [done..|]. intros [Hm _]%Forall_cons. simpl in Hm. congruence.
Qed.

Lemma set_user_groups_safe pk l : pk ≠ root -> safe (set_user_groups pk l).
Proof.
  intros Hne d [Hd Hr]. split; [by apply set_user_groups_ok|]. unfold set_user_groups, mbind, ste_mbind. simpl.
  set (d1 := set_members _ d). destruct (add_members_grow (map (fun g => mkMember g pk) l) d1) as (E1 & E2 & E3 & H4 & _).
  eapply (root_ok_same d); [done..| |done]. apply H4. simpl. apply filter_elem. split; [apply Hr|]. simpl.
  apply negb_true_iff, Z.eqb_neq. done.
Qed.

Lemma set_user_groups_root l d :
  inv d -> admins ∈ l -> Forall (fun g => has_group g d = true) l -> inv (set_user_groups root l d).1.
Proof.
  intros [Hd Hr] Ha Hl. split; [by apply set_user_groups_ok|]. unfold set_user_groups, mbind, ste_mbind. simpl.
  set (d1 := set_members _ d). destruct (add_members_grow (map (fun g => mkMember g root) l) d1) as (E1 & E2 & E3 & _ & H5).
  eapply (root_ok_same d); [done..| |done]. apply H5.
  - apply Forall_fmap. eapply Forall_impl; [exact Hl|]. intros g Hg. simpl. change (has_group g d1) with (has_group g d). rewrite Hg. simpl.
    change (has_user root d1) with (has_user root d). apply has_user_elem. destruct (r_root _ Hr) as (u & Hu & <- & _).
    apply list_elem_of_fmap. by exists u.
  - apply list_elem_of_fmap. by exists admins.
Qed.

Lemma set_group_users_safe pk l : pk ≠ admins -> safe (set_group_users pk l).
Proof.
  intros Hne d [Hd Hr]. split; [by apply set_group_users_ok|]. unfold set_group_users, mbind, ste_mbind. simpl.
  set (d1 := set_members _ d). destruct (add_members_grow (map (fun u => mkMember pk u) l) d1) as (E1 & E2 & E3 & H4 & _).
  eapply (root_ok_same d); [done..| |done]. apply H4. simpl. apply filter_elem. split; [apply Hr|]. simpl.
  apply negb_true_iff, Z.eqb_neq. done.
Qed.

Lemma set_group_users_admins l d :
  inv d -> root ∈ l -> Forall (fun u => has_user u d = true) l -> inv (set_group_users admins l d).1.
Proof.
  intros [Hd Hr] Ha Hl. split; [by apply set_group_users_ok|]. unfold set_group_users, mbind, ste_mbind. simpl.
  set (d1 := set_members _ d). destruct (add_members_grow (map (fun u => mkMember admins u) l) d1) as (E1 & E2 & E3 & _ & H5).
  eapply (root_ok_same d); [done..| |done]. apply H5.
  - apply Forall_fmap. eapply Forall_impl; [exact Hl|]. intros u Hu. simpl. change (has_user u d1) with (has_user u d). rewrite Hu.
    rewrite andb_true_r. change (has_group admins d1) with (has_group admins d). apply has_group_elem. destruct (r_admins _ Hr) as (g & Hg & <- & _).
    apply list_elem_of_fmap. by exists g.
  - apply list_elem_of_fmap. by exists root.
Qed.

Lemma delete_user_safe pk d : inv d -> pk ≠ root -> inv (delete_user pk d).1.
Proof.
  intros [Hd Hr] Hne. split; [by apply delete_user_ok|]. destruct Hr as [(u & Hu & E & Hr) H2 H3 H4 H5]. constructor; simpl; [|done| |done|].
  - exists u. split; [|done]. apply filter_elem. split; [done|]. apply negb_true_iff, Z.eqb_neq. congruence.
  - apply filter_elem. split; [done|]. apply negb_true_iff, Z.eqb_neq. done.
  - intros x [Hx _]%filter_elem. auto.
Qed.

Lemma delete_group_safe pk d : inv d -> (forall g, g ∈ groups d -> g_id g = pk -> g_builtin g = false) -> inv (delete_group pk d).1.
Proof.
  intros [Hd Hr] Hb. split; [by apply delete_group_ok|]. unfold delete_group. destruct (existsb _ (users d)); [done|].
  assert (pk ≠ admins) as Hne.
  { intros ->. destruct (r_admins _ Hr) as (g & Hg & E & _ & _ & Hgb). by rewrite (Hb g Hg E) in Hgb. }
  destruct Hr as [H1 (g & Hg & E & Hrest) H3 H4 H5]. constructor; simpl; [done| | |done|].
  - exists g. split; [|done]. apply filter_elem. split; [done|]. apply negb_true_iff, Z.eqb_neq. congruence.
  - apply filter_elem. split; [done|]. apply negb_true_iff, Z.eqb_neq. done.
  - intros x Hx Hxb. destruct (H5 x Hx Hxb) as (y & Hy & Ey & Hyb). exists y. split; [|done]. apply filter_elem. split; [done|].
    apply negb_true_iff, Z.eqb_neq. intros E'. by rewrite (Hb y Hy E') in Hyb.
Qed.

Lemma insert_group_row_safe g : safe (insert_group_row g).
Proof.
  intros d [Hd Hr]. split; [by apply insert_group_row_ok|]. unfold insert_group_row. destruct (existsb _ (groups d)); [done|].
  destruct Hr as [H1 (x & Hx & Hrest) H3 H4 H5]. constructor; simpl; [done| |done|done|].
  - exists x. split; [|done]. apply elem_of_app. by left.
  - intros u Hu Hb. destruct (H5 u Hu Hb) as (y & Hy & Hyb). exists y. split; [|done]. apply elem_of_app. by left.
Qed.

Lemma insert_user_row_safe u : u_builtin u = false -> safe (insert_user_row u).
Proof.
  intros Hb d [Hd Hr]. split; [by apply insert_user_row_ok|]. unfold insert_user_row. destruct (existsb _ (users d) || _); [done|].
  destruct Hr as [(x & Hx & Hrest) H2 H3 H4 H5]. constructor; simpl; [|done|done|done|].
  - exists x. split; [|done]. apply elem_of_app. by left.
  - intros y [Hy|Hy%list_elem_of_singleton]%elem_of_app Hyb; [by apply H5|]. subst y. simpl in Hyb. congruence.
Qed.

(** A user keeps being builtin or not; a builtin user keeps its primary group, and
    the root user its name and uid. *)
Lemma update_user_row_safe pk f d :
  inv d ->
  (forall u, u ∈ users d -> u_id u = pk -> u_builtin (f u) = u_builtin u /\ (u_builtin u = true -> u_group (f u) = u_group u)
     /\ (pk = root -> u_username (f u) = u_username u /\ u_uid (f u) = u_uid u)) ->
  inv (update_user_row pk f d).1.
Proof.
  intros [Hd Hr] Hf. split; [by apply update_user_row_ok|]. unfold update_user_row. destruct (find_user pk d); [|done].
  destruct (existsb _ (users d) || _); [done|].
  assert (forall y, y ∈ map (fun x => if (u_id x =? pk)%Z then set_u_id pk (f x) else x) (users d) ->
    exists x, x ∈ users d /\ u_id y = u_id x /\ u_builtin y = u_builtin x /\ (u_builtin x = true -> u_group y = u_group x)
      /\ (u_id x = root -> u_username y = u_username x /\ u_uid y = u_uid x)) as Hmap.
  { intros y. change (map ?h (users d)) with (h <$> users d). intros (x & -> & Hx)%list_elem_of_fmap. exists x. split; [done|].
    destruct (u_id x =? pk)%Z eqn:E; [|done]. apply Z.eqb_eq in E. destruct (Hf x Hx E) as (F1 & F2 & F3). simpl.
    split_and!; [done|done|done|]. intros E'. apply F3. congruence. }
  assert (forall x, x ∈ users d -> exists y, y ∈ map (fun x => if (u_id x =? pk)%Z then set_u_id pk (f x) else x) (users d) /\ u_id y = u_id x) as Hinv.
  { intros x Hx. exists (if (u_id x =? pk)%Z then set_u_id pk (f x) else x). split.
    - change (map ?h (users d)) with (h <$> users d). apply list_elem_of_fmap. by exists x.
    - destruct (u_id x =? pk)%Z eqn:E; [|done]. by apply Z.eqb_eq in E. }
  destruct Hr as [(x & Hx & Ex & Hn & Hu & Hb & Hg) H2 H3 H4 H5]. constructor; simpl; [|done|done|done|].
  - destruct (Hinv x Hx) as (y & Hy & Ey). exists y. destruct (Hmap y Hy) as (z & Hz & Ez & F1 & F2 & F3).
    assert (z = x) as -> by (eapply (key_inj u_id); [apply Hd|done..|congruence]). destruct (F3 Ex) as [F4 F5].
    split_and!; [done|congruence|congruence|congruence|congruence|]. rewrite F2; done.
  - intros y Hy Hyb. destruct (Hmap y Hy) as (z & Hz & Ez & F1 & F2 & F3). rewrite F1 in Hyb. destruct (H5 z Hz Hyb) as (g & ? & E & ?).
    exists g. by rewrite (F2 Hyb).
Qed.

Lemma update_group_row_safe pk f d :
  inv d ->
  (forall g, g ∈ groups d -> g_id g = pk -> g_builtin (f g) = g_builtin g /\ (pk = admins -> g_group (f g) = g_group g /\ g_gid (f g) = g_gid g)) ->
  inv (update_group_row pk f d).1.
Proof.
  intros [Hd Hr] Hf. split; [by apply update_group_row_ok|]. unfold update_group_row. destruct (find_group pk d) as [g0|]; [|done].
  destruct (existsb _ (groups d)); [done|].
  assert (forall x, x ∈ groups d -> exists y, y ∈ map (fun x => if (g_id x =? pk)%Z then set_g_id pk (f x) else x) (groups d)
    /\ g_id y = g_id x /\ g_builtin y = g_builtin x /\ (g_id x = admins -> g_group y = g_group x /\ g_gid y = g_gid x)) as Hinv.
  { intros x Hx. exists (if (g_id x =? pk)%Z then set_g_id pk (f x) else x). split.
    - change (map ?h (groups d)) with (h <$> groups d). apply list_elem_of_fmap. by exists x.
    - destruct (g_id x =? pk)%Z eqn:E; [|done]. apply Z.eqb_eq in E. destruct (Hf x Hx E) as [F1 F2]. simpl.
      split_and!; [done|done|]. intros E'. apply F2. congruence. }
  destruct Hr as [H1 (x & Hx & Ex & Hn & Hg & Hb) H3 H4 H5]. constructor; simpl; [done| |done|done|].
  - destruct (Hinv x Hx) as (y & Hy & E1 & E2 & E3). destruct (E3 Ex). exists y. split_and!; congruence.
  - intros u Hu Hub. destruct (H5 u Hu Hub) as (g & Hg' & E & Hgb). destruct (Hinv g Hg') as (y & Hy & E1 & E2 & _).
    exists y. split_and!; congruence.
Qed.

Lemma insert_twofactor_safe u : safe (insert_twofactor u).
Proof.
  intros d [Hd Hr]. split; [by apply insert_twofactor_ok|]. unfold insert_twofactor. destruct (has_user u d); [|done].
  eapply (root_ok_same d); [done..|apply Hr|done].
Qed.

Lemma insert_privilege_safe b p : safe (insert_privilege b p).
Proof.
  intros d [Hd Hr]. split; [by apply insert_privilege_ok|]. destruct Hr as [H1 H2 H3 (x & Hx & Hrest) H5]. constructor; try done.
  exists x. split; [|done]. simpl. apply elem_of_app. by left.
Qed.

Lemma find_priv_elem id d p : find_priv id d = Some p -> p ∈ privs d /\ pr_id p = id.
Proof. intros [H E%Z.eqb_eq]%find_elem. done. Qed.

Lemma update_privilege_safe pk old p d :
  inv d -> find_priv pk d = Some old ->
  (pr_builtin_name old = Some LOCAL_ADMINISTRATOR -> Gid BUILTIN_ADMINISTRATORS ∈ p_local_groups p /\ p_roles p = p_roles (pr_priv old)) ->
  inv (update_privilege pk (pr_builtin_name old) p d).1.
Proof.
  intros [Hd Hr] Ho Hp. split; [by apply update_privilege_ok|]. unfold update_privilege. destruct (existsb _ (privs d)); [|done].
  apply find_priv_elem in Ho as [Ho Eo]. destruct Hr as [H1 H2 H3 (x & Hx & Hn & Hl & Hro) H5]. constructor; try done. simpl.
  exists (if (pr_id x =? pk)%Z then mkPrivRow pk (pr_builtin_name old) p else x). split.
  { change (map ?h (privs d)) with (h <$> privs d). apply list_elem_of_fmap. by exists x. }
  destruct (pr_id x =? pk)%Z eqn:E; [|done]. apply Z.eqb_eq in E.
  assert (x = old) as -> by (eapply (key_inj pr_id); [apply Hd|done..|congruence]). simpl. destruct (Hp Hn) as [F1 F2].
  split_and!; [done|done|by rewrite F2].
Qed.

Lemma delete_privilege_safe pk old d :
  inv d -> find_priv pk d = Some old -> pr_builtin_name old ≠ Some LOCAL_ADMINISTRATOR -> inv (delete_privilege pk d).1.
Proof.
  intros [Hd Hr] Ho Hn. split; [by apply delete_privilege_ok|]. apply find_priv_elem in Ho as [Ho Eo].
  destruct Hr as [H1 H2 H3 (x & Hx & Hxn & Hrest) H5]. constructor; try done. simpl. exists x. split; [|done].
  apply filter_elem. split; [done|]. apply negb_true_iff, Z.eqb_neq. intros E. apply Hn.
  assert (x = old) as <- by (eapply (key_inj pr_id); [apply Hd|done..|congruence]). done.
Qed.

(** ** Insertions *)

Lemma set_members_frame pk l d :
  groups (set_group_users pk l d).1 = groups d /\ users (set_user_groups pk l d).1 = users d.
Proof.
  unfold set_group_users, set_user_groups, mbind, ste_mbind. simpl. split.
  - by destruct (add_members_grow (map (fun u => mkMember pk u) l) (set_members (List.filter (fun m => negb (m_group m =? pk)%Z) (members d)) d)) as (_ & -> & _).
  - by destruct (add_members_grow (map (fun g => mkMember g pk) l) (set_members (List.filter (fun m => negb (m_user m =? pk)%Z) (members d)) d)) as (-> & _).
Qed.

Lemma insert_group_safe g l : g_builtin g = false -> safe (insert_group g l).
Proof.
  intros Hb d Hi. unfold insert_group, mbind, ste_mbind at 1. pose proof (insert_group_row_safe g d Hi) as Hi1.
  destruct (insert_group_row g d) as [d1 [pk|x]] eqn:E; [|done]. simpl in Hi1. unfold insert_group_row in E.
  destruct (existsb _ (groups d)); [done|]. injection E as <- <-. set (pk := (group_seq d + 1)%Z) in *.
  set (d1 := set_group_seq pk _) in *.
  assert (pk ≠ admins) as Hne.
  { destruct Hi as [Hd Hr]. destruct (r_admins _ Hr) as (y & Hy & <- & _). pose proof (k_group_seq _ Hd) as Hs. rewrite Forall_forall in Hs.
    specialize (Hs y Hy). lia. }
  assert (forall d2, inv d2 -> groups d2 = groups d1 -> inv (delete_group pk d2).1) as Hdel.
  { intros d2 Hi2 E2. apply delete_group_safe; [done|]. intros y Hy Ey. rewrite E2 in Hy. simpl in Hy.
    apply elem_of_app in Hy as [Hy|Hy%list_elem_of_singleton]; [|by subst y].
    exfalso. destruct Hi as [Hd _]. pose proof (k_group_seq _ Hd) as Hs. rewrite Forall_forall in Hs. specialize (Hs y Hy). lia. }
  apply (inv_bind_safe (on_error _ _)); [|intros a; by apply quiet_safe]. unfold on_error. destruct l as [l|]; [|done].
  pose proof (set_group_users_safe pk l Hne d1 Hi1) as Hi2. destruct (set_members_frame pk l d1) as [Eg _].
  destruct (set_group_users pk l d1) as [d2 [[]|x]]; simpl in *; [done|].
  specialize (Hdel d2 Hi2 Eg). by destruct (delete_group pk d2) as [d3 [|]].
Qed.

Lemma insert_user_safe u l : u_builtin u = false -> safe (insert_user u l).
Proof.
  intros Hb d Hi. unfold insert_user, mbind, ste_mbind at 1. pose proof (insert_user_row_safe u Hb d Hi) as Hi1.
  destruct (insert_user_row u d) as [d1 [pk|x]] eqn:E; [|done]. simpl in Hi1. unfold insert_user_row in E.
  destruct (existsb _ (users d) || _); [done|]. injection E as <- <-. set (pk := (user_seq d + 1)%Z) in *.
  assert (pk ≠ root) as Hne.
  { destruct Hi as [Hd Hr]. destruct (r_root _ Hr) as (y & Hy & <- & _). pose proof (k_user_seq _ Hd) as Hs. rewrite Forall_forall in Hs.
    specialize (Hs y Hy). lia. }
  apply (inv_bind_safe (on_error _ _)); [|intros a; by apply quiet_safe].
  apply safe_on_error; [by apply set_user_groups_safe| |done]. intros d2 Hi2. by apply delete_user_safe.
Qed.

Lemma group_create_end_safe e x gid b : safe (group_create_end e x gid b).
Proof.
  unfold group_create_end. apply safe_bind; [by apply quiet_safe|]. intros name. apply safe_bind.
  - apply safe_finally; [by apply insert_group_safe|by apply quiet_safe].
  - intros pk. apply quiet_safe. quiet_steps.
Qed.

Lemma create_internal_safe e x b : safe (create_internal e x b).
Proof. apply safe_bind; [apply quiet_safe, group_create_begin_quiet|]. intros gid. apply group_create_end_safe. Qed.

Lemma primary_group_safe e n g b : safe (primary_group e n g b).
Proof.
  unfold primary_group. destruct b.
  - apply safe_bind; [by apply quiet_safe|]. intros [r|]; [by apply quiet_safe|]. apply safe_bind; [apply create_internal_safe|].
    intros pk. apply quiet_safe. quiet_steps.
  - apply quiet_safe. quiet_steps. repeat case_match; auto with quiet.
Qed.

Lemma user_create_begin_safe e x b : safe (user_create_begin e x b).
Proof.
  unfold user_create_begin. apply safe_bind; [apply quiet_safe, frames_verified|]. intros y. apply safe_bind; [apply primary_group_safe|].
  intros [[[g gid] n] c]. apply quiet_safe. quiet_steps. destruct (ud_uid y); auto with quiet.
Qed.

(** ** Deletions *)

Lemma move_users_safe b n l d :
  inv d -> (forall u, u ∈ users d -> u_id u ∈ l -> u_builtin u = false) -> inv (move_users b n l d).1.
Proof.
  revert d. induction l as [|pk l IH]; intros d Hi Hl; [done|]. simpl.
  set (m := if b then _ else _).
  assert (inv (m d).1 /\ forall u, u ∈ users (m d).1 -> u_id u ∈ l -> u_builtin u = false) as [Hi1 Hl1].
  { unfold m. destruct b.
    - split.
      + apply delete_user_safe; [done|]. intros ->. destruct Hi as [_ Hr]. destruct (r_root _ Hr) as (u & Hu & E & _ & _ & Hb & _).
        rewrite (Hl u Hu) in Hb; [done|]. rewrite E. by left.
      + simpl. intros u [Hu _]%filter_elem Hin. apply Hl; [done|by right].
    - split.
      + apply update_user_row_safe; [done|]. intros u Hu E. simpl. split_and!; [done| |done]. intros Hb.
        rewrite (Hl u Hu) in Hb; [done|]. rewrite E. by left.
      + unfold update_user_row. destruct (find_user pk d); simpl; [|intros u Hu Hin; apply Hl; [done|by right]].
        destruct (existsb _ (users d) || _); simpl; [intros v Hv Hin; apply Hl; [done|by right]|].
        intros v. change (map ?h (users d)) with (h <$> users d). intros (x & -> & Hx)%list_elem_of_fmap.
        destruct (u_id x =? pk)%Z eqn:E; simpl; intros Hin; apply Hl; try done; [|by right].
        apply Z.eqb_eq in E. rewrite E. by left. }
  unfold mbind, ste_mbind. destruct (m d) as [d1 [[]|x]]; simpl in *; [|done]. by apply IH.
Qed.

Lemma tables_users d d' : tables d' = tables d -> users d' = users d.
Proof. by intros [= ?]. Qed.
Lemma tables_groups d d' : tables d' = tables d -> groups d' = groups d.
Proof. by intros [= _ _ ?]. Qed.
Lemma tables_members d d' : tables d' = tables d -> members d' = members d.
Proof. by intros [= _ _ _ _ ?]. Qed.
Lemma tables_privs d d' : tables d' = tables d -> privs d' = privs d.
Proof. by intros [= _ _ _ _ _ ?]. Qed.

Lemma group_instance_ok e pk d g : (group_get_instance e pk d).2 = Ok g -> exists r, find_group pk d = Some r /\ g = group_extend e d r.
Proof. unfold group_get_instance. destruct (find_group pk d) as [r|]; [|done]. intros [= <-]. by exists r. Qed.

(** The users with a primary group that is not builtin are not builtin. *)
Lemma primary_not_builtin d pk r u :
  inv d -> find_group pk d = Some r -> g_builtin r = false -> u ∈ users d -> u_group u = pk -> u_builtin u = false.
Proof.
  intros [Hd Hr] Hf Hb Hu Eu. destruct (u_builtin u) eqn:E; [|done]. destruct (r_builtin _ Hr u Hu E) as (g & Hg & Eg & Hgb).
  apply find_group_elem in Hf as [Hr' Er]. assert (g = r) as ->; [|congruence]. eapply (key_inj g_id); [apply Hd|done..|congruence].
Qed.

Lemma move_users_groups b n l d : groups (move_users b n l d).1 = groups d.
Proof.
  revert d. induction l as [|pk l IH]; intros d; [done|]. simpl. set (m := if b then _ else _).
  assert (groups (m d).1 = groups d) as E.
  { unfold m. destruct b; [done|]. unfold update_user_row. destruct (find_user pk d); [|done]. by destruct (_ || _). }
  unfold mbind, ste_mbind. destruct (m d) as [d1 [[]|x]]; simpl in *; [|done]. by rewrite IH.
Qed.

Lemma group_do_delete_safe e pk b : safe (group_do_delete e pk b).
Proof.
  intros d Hi. unfold group_do_delete. destruct (_ <? pk)%Z; [done|].
  apply inv_bind_quiet; [auto with quiet|done|]. intros g d1 T1 Hg. apply group_instance_ok in Hg as (r & Hr & ->).
  apply inv_bind_quiet; [auto with quiet|by eapply inv_tables|]. intros [] d2 T2 Hb. simpl in Hb.
  assert (g_builtin r = false) as Hrb by (by destruct (g_builtin r)). clear Hb.
  apply inv_bind_quiet; [auto with quiet|eapply inv_tables; [|exact Hi]; congruence|]. intros [] d3 T3 _.
  apply inv_bind_quiet; [auto with quiet|eapply inv_tables; [|exact Hi]; congruence|]. intros no d4 T4 _.
  apply inv_bind_quiet; [auto with quiet|eapply inv_tables; [|exact Hi]; congruence|]. intros ng d5 T5 _.
  apply inv_bind_quiet; [auto with quiet|eapply inv_tables; [|exact Hi]; congruence|]. intros prim d6 T6 Hp.
  injection Hp as <-.
  assert (tables d6 = tables d) as T by congruence.
  assert (inv d6) as Hi6 by (by eapply inv_tables).
  assert (find_group pk d6 = Some r) as Hr6 by (unfold find_group in *; by rewrite (tables_groups _ _ T)).
  unfold mbind at 1, ste_mbind at 1.
  assert (inv (move_users b (g_id ng) (primary_users pk d5) d6).1) as Hi7.
  { apply move_users_safe; [done|]. intros u Hu Hin. unfold primary_users in Hin. change (map u_id ?l) with (u_id <$> l) in Hin.
    apply list_elem_of_fmap in Hin as (x & Ex & [Hx Eg%Z.eqb_eq]%filter_elem). eapply (primary_not_builtin d6); [done..|].
    rewrite (tables_users d5 d6) in Hu by congruence.
    assert (x = u) as <-; [|done]. eapply (key_inj u_id); [|done..]. apply (db_ok_tables d); [congruence|apply Hi]. }
  pose proof (move_users_groups b (g_id ng) (primary_users pk d5) d6) as Eg.
  destruct (move_users b (g_id ng) (primary_users pk d5) d6) as [d7 [[]|x]]; [|done]. simpl in *.
  apply inv_bind_safe; [|intros a; apply quiet_safe; quiet_steps].
  apply delete_group_safe; [done|]. intros y Hy Ey. rewrite Eg in Hy. apply find_group_elem in Hr6 as [Hr6 Er].
  assert (y = r) as ->; [|done]. eapply (key_inj g_id); [apply Hi6|done..|congruence].
Qed.

Lemma delete_primary_group_safe e pk o b : safe (delete_primary_group e pk o b).
Proof.
  intros d Hd. unfold delete_primary_group. destruct (find_group _ d); [|done]. destruct (_ && _); [|done].
  by apply group_do_delete_safe.
Qed.

Lemma user_instance_ok e pk d o :
  (user_get_instance e pk d).2 = Ok o -> exists u, find_user pk d = Some u /\ user_extend e d u = Ok o.
Proof. unfold user_get_instance. destruct (find_user pk d) as [u|]; [|done]. by exists u. Qed.

Lemma extend_row e d u o : user_extend e d u = Ok o ->
  ue_row o = shown_row e u /\ ue_groups o = groups_of (u_id u) d /\ ue_immutable o = u_builtin u || (u_uid u =? ADMIN_UID)%Z.
Proof. unfold user_extend. destruct (group_by_name _ d); [|done]. by intros [= <-]. Qed.

Lemma user_do_delete_safe e me pk b : safe (user_do_delete e me pk b).
Proof.
  intros d Hi. unfold user_do_delete. destruct (_ <? pk)%Z; [done|].
  apply inv_bind_quiet; [auto with quiet|done|]. intros o d1 T1 Ho. apply user_instance_ok in Ho as (u & Hu & Ho).
  apply extend_row in Ho as (Er & _ & _).
  apply inv_bind_quiet; [auto with quiet|by eapply inv_tables|]. intros [] d2 T2 _.
  apply inv_bind_quiet; [auto with quiet|eapply inv_tables; [|exact Hi]; congruence|]. intros [] d3 T3 Hb.
  assert (pk ≠ root) as Hne.
  { intros ->. apply find_user_elem in Hu as [Hu Eu]. destruct Hi as [Hd Hr]. destruct (r_root _ Hr) as (x & Hx & Ex & _ & _ & Hxb & _).
    assert (x = u) as -> by (eapply (key_inj u_id); [apply Hd|done..|congruence]).
    simpl in Hb. rewrite Er in Hb. simpl in Hb. by rewrite Hxb in Hb. }
  assert (inv d3) as Hi3 by (eapply inv_tables; [|exact Hi]; congruence).
  eapply safe_run; [|exact Hi3]. clear -Hne.
  apply safe_bind; [apply quiet_safe; auto with quiet|intros _]. apply safe_bind; [apply quiet_safe; auto with quiet|intros _].
  apply safe_bind; [apply delete_primary_group_safe|intros _].
  apply safe_bind; [apply quiet_safe; auto with quiet|intros _]. apply safe_bind; [apply quiet_safe; auto with quiet|intros _].
  apply safe_bind; [apply quiet_safe; intros d; simpl; by case_bool_decide|intros _].
  apply safe_bind; [apply quiet_safe; auto with quiet|intros _].
  apply safe_bind; [intros d Hd; by apply delete_user_safe|intros _]. apply quiet_safe. quiet_steps.
Qed.

(** ** The end of a creation *)

Lemma insert_user_id u l d pk : (insert_user u l d).2 = Ok pk -> pk = (user_seq d + 1)%Z.
Proof.
  unfold insert_user, mbind, ste_mbind, insert_user_row. destruct (existsb _ (users d) || _); [done|].
  destruct (on_error _ _ _) as [d2 [[]|x]]; simpl; [|done]. by intros [= <-].
Qed.

Lemma fresh_user d : inv d -> (user_seq d + 1)%Z ≠ root.
Proof.
  intros [Hd Hr] E. destruct (r_root _ Hr) as (y & Hy & Ey & _). pose proof (k_user_seq _ Hd) as Hs. rewrite Forall_forall in Hs.
  specialize (Hs y Hy). lia.
Qed.

Lemma created_not_builtin e x uid g h : u_builtin (created_row e x uid g h) = false.
Proof. unfold created_row. by destruct (password_of x). Qed.

Lemma create_rows_safe e p h gs : safe (create_rows e p h gs).
Proof.
  apply safe_finally; [|by apply quiet_safe, quiet_unreserve]. intros d Hi. unfold mbind, ste_mbind.
  set (m := insert_user _ gs). pose proof (insert_user_safe _ gs (created_not_builtin e (pe_data p) (pe_uid p) (pe_group p) h) d Hi) as Hi1.
  pose proof (insert_user_id (created_row e (pe_data p) (pe_uid p) (pe_group p) h) gs d) as Hpk. fold m in Hi1, Hpk.
  destruct (m d) as [d1 [pk|x]]; [|done]. simpl in *. specialize (Hpk pk eq_refl).
  assert (inv (on_error (insert_twofactor pk) (delete_user pk) d1).1) as Hi2.
  { apply safe_on_error; [apply insert_twofactor_safe| |done]. intros d2 Hi2. apply delete_user_safe; [done|].
    rewrite Hpk. by apply fresh_user. }
  by destruct (on_error _ _ d1) as [d2 [[]|x]].
Qed.

Lemma create_home_safe e p : safe (create_home e p).
Proof.
  unfold create_home. destruct (_ || _); [by apply quiet_safe|]. apply safe_on_error; [apply quiet_safe; auto with quiet|].
  apply safe_bind; [|intros _; apply quiet_safe; auto with quiet]. destruct (pe_group_created p); [|by apply quiet_safe].
  simpl. apply safe_bind; [apply group_do_delete_safe|by intros _; apply quiet_safe].
Qed.

Lemma user_create_end_safe e p : safe (user_create_end e p).
Proof.
  unfold user_create_end. apply safe_bind; [apply create_home_safe|intros h]. apply safe_bind; [by apply quiet_safe|intros gs].
  apply safe_bind; [apply create_rows_safe|intros pk]. apply quiet_safe. quiet_steps.
Qed.

(** ** [group.update] *)

Lemma dedup_elem x l : x ∈ dedup l <-> x ∈ l.
Proof.
  induction l as [|y l IH]; simpl; [done|]. case_bool_decide as H; rewrite !elem_of_cons, ?IH; [|done].
  split; [tauto|]. intros [->|?]; [by apply IH|done].
Qed.

Lemma is_nonempty_false {A} (l : list A) : is_nonempty l = false -> l = [].
Proof. by destruct l. Qed.

Lemma filter_nil {A} (f : A -> bool) l x : List.filter f l = [] -> x ∈ l -> f x = false.
Proof.
  intros E Hx. destruct (f x) eqn:Ef; [|done]. assert (x ∈ List.filter f l) as H by (by apply filter_elem). rewrite E in H. by apply elem_of_nil in H.
Qed.

Lemma validated_members e pk x d l :
  group_common_validation e "group_update" x (Some pk) d = Ok [] -> gd_users x = Some l ->
  exists u g v, user_by_name "root" d = Some u /\ find_group pk d = Some g
    /\ validate_members d "group_update" false (Some pk) (Some (g_group g)) (u_id u) l v = [].
Proof.
  unfold group_common_validation. intros H Hl. apply bind_inv in H as (v1 & _ & H). apply bind_inv in H as (v2 & _ & H).
  destruct (first_ds _ _) as [i|].
  { injection H as H. unfold VErrors.add in H. by destruct v2. }
  destruct (user_by_name "root" d) as [u|]; [|done]. apply bind_inv in H as (n & Hn & H).
  destruct (find_group pk d) as [g|]; [|done]. injection Hn as <-. rewrite Hl in H.
  apply bind_inv in H as (v3 & H3 & H). apply check_sudo_nil in H as ->. apply check_sudo_nil in H3. by exists u, g, v2.
Qed.

Lemma members_all_exist d schema c pk n u l v :
  validate_members d schema c pk n u l v = [] -> Forall (fun x => has_user x d = true) l.
Proof.
  unfold validate_members. intros H.
  assert (is_nonempty (List.filter (fun x => negb (has_user x d)) (dedup l)) = false) as E%is_nonempty_false.
  { destruct pk; repeat match goal with H : add_if _ _ _ _ _ = [] |- _ => apply add_if_nil in H as [? H] end; done. }
  apply Forall_forall. intros x Hx%dedup_elem. pose proof (filter_nil _ _ _ E Hx) as Hf. simpl in Hf. by apply negb_false_iff.
Qed.

Lemma members_keep_root d schema c pk u l v :
  validate_members d schema c (Some pk) (Some "builtin_administrators") u l v = [] -> u ∈ l.
Proof.
  unfold validate_members. intros [H _]%add_if_nil. simpl in H. by apply negb_false_iff, bool_decide_eq_true in H.
Qed.

Lemma root_found d : inv d -> exists u, user_by_name "root" d = Some u /\ u_id u = root /\ u_group u ≠ admins.
Proof.
  intros [Hd Hr]. destruct (r_root _ Hr) as (u & Hu & E & En & _ & _ & Hg). exists u. split; [|done]. unfold user_by_name. rewrite <-En.
  by apply find_name; [apply Hd|].
Qed.

Lemma admins_found d : inv d -> exists g, find_group admins d = Some g /\ g_id g = admins /\ g_group g = "builtin_administrators"
  /\ g_gid g = BUILTIN_ADMINISTRATORS /\ g_builtin g = true.
Proof.
  intros [Hd Hr]. destruct (r_admins _ Hr) as (g & Hg & E & Hrest). exists g. split; [|done]. unfold find_group. rewrite <-E.
  by apply (find_key g_id); [apply Hd|].
Qed.

(** The members the update of the group of the administrators writes. *)
Lemma admins_members e x d g :
  inv d -> find_group admins d = Some g -> group_common_validation e "group_update" x (Some admins) d = Ok [] ->
  let l := List.filter (fun u => negb (bool_decide (u ∈ primary_users admins d))) (default (ge_users (group_extend e d g)) (gd_users x)) in
  root ∈ l /\ Forall (fun u => has_user u d = true) l.
Proof.
  intros Hi Hg Hv. simpl. destruct (root_found d Hi) as (u & Hu & Eu & Hp). destruct (admins_found d Hi) as (g' & Hg' & Eg & En & _).
  assert (g' = g) as -> by congruence.
  assert (root ∉ primary_users admins d) as Hnp.
  { unfold primary_users. change (map u_id ?l) with (u_id <$> l). intros (y & Ey & [Hy Hyg%Z.eqb_eq]%filter_elem)%list_elem_of_fmap.
    apply Hp. apply find_elem in Hu as [Hu _]. assert (u = y) as -> by (eapply (key_inj u_id); [apply Hi|done..|congruence]). done. }
  assert (root ∈ default (dedup (users_of (g_id g) d ++ primary_users (g_id g) d)) (gd_users x)
    /\ Forall (fun u => has_user u d = true) (default (dedup (users_of (g_id g) d ++ primary_users (g_id g) d)) (gd_users x))) as [H1 H2].
  { destruct (gd_users x) as [l|] eqn:El; simpl.
    - destruct (validated_members e admins x d l Hv El) as (u' & g' & v & Hu' & Hg'' & Hm).       rewrite Hu in Hu'. rewrite Hg in Hg''. injection Hu' as <-. injection Hg'' as <-. rewrite Eu, En in Hm.
      split; [by eapply members_keep_root|by eapply members_all_exist].
    - rewrite Eg. split.
      + apply dedup_elem, elem_of_app. left. apply dedup_elem. change (map m_user ?l) with (m_user <$> l). apply list_elem_of_fmap.
        exists (mkMember admins root). split; [done|]. apply filter_elem. split; [apply Hi|]. simpl. apply Z.eqb_refl.
      + apply Forall_forall. intros y [Hy|Hy]%dedup_elem%elem_of_app; apply has_user_elem.
        * unfold users_of in Hy. apply (proj1 (dedup_elem _ _)) in Hy. change (map m_user ?l) with (m_user <$> l) in Hy. apply list_elem_of_fmap in Hy as (m & -> & [Hm _]%filter_elem).
          destruct Hi as [Hd _]. pose proof (k_members _ Hd) as Hk. rewrite Forall_forall in Hk. by apply Hk.
        * unfold primary_users in Hy. change (map u_id ?l) with (u_id <$> l) in *.
          apply list_elem_of_fmap in Hy as (w & -> & [Hw _]%filter_elem). apply list_elem_of_fmap. by exists w. }
  split.
  - apply filter_elem. split; [done|]. by rewrite bool_decide_eq_false_2.
  - by apply filter_Forall.
Qed.

Lemma update_group_row_frame pk f d :
  users (update_group_row pk f d).1 = users d /\ members (update_group_row pk f d).1 = members d.
Proof. unfold update_group_row. destruct (find_group pk d); [|done]. by destruct (existsb _ _). Qed.

Lemma frozen_name g x v : validate_builtin_group g x v = [] -> ge_immutable g = false -> g_builtin (ge_row g) = true ->
  default (g_group (ge_row g)) (gd_name x) = g_group (ge_row g).
Proof.
  unfold validate_builtin_group, builtin_key. intros H Him Hb. rewrite Him, Hb in H. apply add_if_nil in H as [H _]. by apply changed_false.
Qed.

Lemma group_do_update_safe e pk x : gd_gid x = None -> safe (group_do_update e pk x).
Proof.
  intros Hx d Hi. unfold group_do_update. destruct (_ <? pk)%Z; [done|].
  apply inv_bind_quiet; [auto with quiet|done|]. intros g d1 T1 Hg. apply group_instance_ok in Hg as (r & Hr & ->).
  rewrite Hx. rewrite bool_decide_eq_false_2 by done. simpl.
  assert (inv d1) as Hi1 by (by eapply inv_tables). 
  apply inv_bind_quiet; [auto with quiet|done|]. intros [] d2 T2 Hv. apply verify_ok in Hv. apply bind_inv in Hv as (v & Hc & Hv).
  injection Hv as Hv.
  apply inv_bind_quiet; [quiet_steps|by eapply inv_tables|]. intros [] d3 T3 _.
  apply inv_bind_quiet; [auto with quiet|eapply inv_tables; [|exact Hi]; congruence|]. intros prim d4 T4 Hp. injection Hp as <-.
  assert (inv d4) as Hi4 by (eapply inv_tables; [|exact Hi]; congruence).
  assert (v = []) as ->.
  { clear -Hv. unfold validate_builtin_group, builtin_key in Hv. repeat case_match;
      repeat match goal with H : add_if _ _ _ _ _ = [] |- _ => apply add_if_nil in H as [? H] end; try done. by destruct v. }
  set (row := group_update_row (group_extend e d r) x).
  assert (inv (update_group_row pk (fun _ => row) d4).1) as Hi5.
  { apply update_group_row_safe; [done|]. intros y Hy Ey. rewrite (tables_groups d d4) in Hy by congruence.
    apply find_group_elem in Hr as [Hr Er]. assert (y = r) as -> by (eapply (key_inj g_id); [apply Hi|done..|congruence]).
    unfold row, group_update_row. rewrite Hx. simpl. split; [done|]. intros ->. split; [|done].
    destruct (admins_found d Hi) as (a & Ha & Ea & _ & Eg & Eb). apply find_group_elem in Ha as [Ha _].
    assert (a = r) as -> by (eapply (key_inj g_id); [apply Hi|done..|congruence]).
    eapply frozen_name in Hv; [exact Hv| |done]. unfold group_extend. simpl. by rewrite Eg, Eb. }
  destruct (update_group_row_frame pk (fun _ => row) d4) as [Fu Fm].
  unfold mbind at 1, ste_mbind at 1. destruct (update_group_row pk (fun _ => row) d4) as [d5 [[]|y]]; [|done]. simpl in *.
  apply inv_bind_safe; [|intros _; apply quiet_safe; quiet_steps].
  destruct (decide (pk = admins)) as [->|Hne]; [|by apply set_group_users_safe].
  assert (find_group admins d1 = Some r) as Hr1 by (unfold find_group in *; by rewrite (tables_groups d d1)).
  destruct (admins_members e x d1 r Hi1 Hr1 Hc) as [H1 H2].
  assert (primary_users admins d3 = primary_users admins d1) as Ep by (unfold primary_users; rewrite (tables_users d1 d3); [done|congruence]).
  assert (ge_users (group_extend e d1 r) = dedup (users_of (g_id r) d ++ primary_users (g_id r) d)) as Eu.
  { simpl. unfold users_of, primary_users. rewrite (tables_users d d1), (tables_members d d1); done. }
  rewrite Ep. rewrite Eu in H1, H2. apply set_group_users_admins; [done..|].
  eapply Forall_impl; [exact H2|]. intros w. unfold has_user. rewrite Fu, (tables_users d1 d4) by congruence. done.
Qed.

(** ** [user.update] *)

Lemma full_name_nil s x v : validate_full_name s x v = [] -> v = [].
Proof.
  unfold validate_full_name. destruct (ud_full_name x); [|done]. simpl. by intros [_ [_ H]%add_if_nil]%add_if_nil.
Qed.

Lemma shell_nil e d s x o l v : validate_shell e d s x o l v = [] -> v = [].
Proof.
  unfold validate_shell. destruct (ud_shell x); [|done]. destruct (negb _); [by intros ?%VErrors.add_not_nil|]. by intros [_ H]%add_if_nil.
Qed.

Lemma ssh_password_nil e d s x o v : validate_ssh_password e d s x o v = Ok [] -> v = [].
Proof.
  unfold validate_ssh_password. destruct (flag _); [|by intros [= ->]]. intros (v1 & H1 & H)%bind_inv. injection H as [_ ->]%add_if_nil.
  destruct (_ && _); [|by injection H1]. destruct o as [o|]; [|injection H1 as H1; by apply VErrors.add_not_nil in H1].
  destruct (get_user_by_name _ _ _); [|done]. injection H1 as [_ H1]%add_if_nil. done.
Qed.

Lemma password_keeps e s x o v : let y := (validate_password e s x o v).1 in
  ud_groups y = ud_groups x /\ ud_group y = ud_group x /\ ud_username y = ud_username x.
Proof. unfold validate_password. destruct (flag _), (password_of x); done. Qed.

(** What an accepted update satisfies. *)
Lemma accepted_update e o x g me d y :
  validate_update e o x g me d = Ok (y, []) -> (exists v, validate_frozen o y v = []) /\ exists v, validate_root d "user_update" y (Some o) v = Ok [].
Proof.
  unfold validate_update. intros ([z v] & Hc & H)%bind_inv. injection H as <- H. apply add_if_nil in H as [_ H].
  split; [by eexists|].
  assert (v = []) as ->.
  { unfold validate_frozen in H. destruct (ue_immutable o); repeat match goal with H : add_if _ _ _ _ _ = [] |- _ => apply add_if_nil in H as [? H] end; done. }
  clear H. unfold common_validation in Hc.
  destruct (validate_password _ _ _ _ _) as [y v1] in Hc. apply bind_inv in Hc as (v2 & _ & Hc). apply bind_inv in Hc as (v3 & Hr & Hc).
  apply bind_inv in Hc as (v4 & H4 & Hc). apply bind_inv in Hc as (v5 & H5 & Hc). apply bind_inv in Hc as (v6 & H6 & Hc).
  injection Hc as <- ->. apply ssh_password_nil in H6 as ->. apply check_sudo_nil in H5 as ->. apply check_sudo_nil, shell_nil, full_name_nil in H4 as ->.
  by eexists.
Qed.

Lemma frozen_update o x v : validate_frozen o x v = [] -> ue_immutable o = true ->
  ud_group x = None /\ default (u_username (ue_row o)) (ud_username x) = u_username (ue_row o).
Proof.
  unfold validate_frozen. intros H Him. rewrite Him in H. repeat match goal with H : add_if _ _ _ _ _ = [] |- _ => apply add_if_nil in H as [? H] end.
  split; [|by apply changed_false]. destruct (ud_group x); [|done]. rewrite bool_decide_eq_true_2 in *; done.
Qed.

Lemma place_home_keeps o x : let y := place_home o x in ud_group y = ud_group x /\ ud_username y = ud_username x.
Proof. unfold place_home. destruct (ud_home x); [|done]. by destruct (_ && _). Qed.

Lemma remove_first_other x y l : y ∈ l -> y ≠ x -> y ∈ remove_first x l.
Proof.
  induction l as [|z l IH]; simpl; [done|]. intros [->|Hy]%elem_of_cons Hne; destruct (x =? _)%Z eqn:E; try done.
  - by apply Z.eqb_eq in E.
  - by left.
  - right. auto.
Qed.

Lemma remove_first_sub x l : remove_first x l ⊆ l.
Proof. induction l as [|z l IH]; simpl; [done|]. destruct (x =? z)%Z; set_solver. Qed.

(** The groups of the root user after an accepted update. *)
Lemma root_groups e o x v w d gs u :
  inv d -> user_extend e d u = Ok o -> u ∈ users d -> u_id u = root -> validate_root d "user_update" x (Some o) v = Ok [] ->
  handle_webshare w "root" (default (ue_groups o) (ud_groups x)) d = Ok gs ->
  admins ∈ gs /\ Forall (fun g => has_group g d = true) gs.
Proof.
  intros Hi He Hu Eu Hv Hw. destruct (extend_row _ _ _ _ He) as (Er & Eg & _). destruct (admins_found d Hi) as (g & Hg & Eid & En & _).
  apply find_group_elem in Hg as [Hg _].
  assert (u_uid u = 0%Z) as Hz.
  { destruct Hi as [Hd Hr]. destruct (r_root _ Hr) as (r & Hr' & Ei & _ & Ez & _).
    assert (r = u) as <- by (eapply (key_inj u_id); [apply Hd|done..|congruence]). done. }
  assert (group_by_name "builtin_administrators" d = Some g) as Hn.
  { unfold group_by_name. rewrite <-En. by apply find_name; [apply Hi|]. }
  assert (admins ∈ default (ue_groups o) (ud_groups x) /\ Forall (fun g => has_group g d = true) (default (ue_groups o) (ud_groups x))) as [H1 H2].
  { unfold validate_root in Hv. rewrite Er in Hv. simpl in Hv. rewrite Hz in Hv. simpl in Hv. destruct (ud_groups x) as [l|]; simpl.
    - rewrite Hn in Hv. injection Hv as [Hl _]%add_if_nil. apply negb_false_iff, bool_decide_eq_true in Hl. subst l. rewrite Eid.
      split; [by left|]. apply Forall_singleton, has_group_elem. change (map g_id ?l) with (g_id <$> l). apply list_elem_of_fmap. by exists g.
    - rewrite Eg, Eu. unfold groups_of. split.
      + apply dedup_elem. change (map m_group ?l) with (m_group <$> l). apply list_elem_of_fmap. exists (mkMember admins root). split; [done|].
        apply filter_elem. split; [apply Hi|apply Z.eqb_refl].
      + apply Forall_forall. intros y Hy. apply (proj1 (dedup_elem _ _)) in Hy. change (map m_group ?l) with (m_group <$> l) in Hy.
        apply list_elem_of_fmap in Hy as (m & -> & [Hm _]%filter_elem). apply has_group_elem.
        destruct Hi as [Hd _]. pose proof (k_members _ Hd) as Hk. rewrite Forall_forall in Hk. by apply Hk. }
  unfold handle_webshare in Hw. destruct (group_by_name "truenas_webshare" d) as [t|] eqn:Ht; [|done]. rewrite andb_false_r in Hw.
  apply find_elem in Ht as [Ht Et%String.eqb_eq]. case_bool_decide; injection Hw as <-; [|done]. split.
  - apply remove_first_other; [done|]. intros E. assert (g = t) as -> by (eapply (key_inj g_id); [apply Hi|done..|congruence]). congruence.
  - rewrite Forall_forall in *. intros y Hy%remove_first_sub. auto.
Qed.

Lemma update_user_row_frame pk f d :
  groups (update_user_row pk f d).1 = groups d /\ members (update_user_row pk f d).1 = members d /\ privs (update_user_row pk f d).1 = privs d.
Proof. unfold update_user_row. destruct (find_user pk d); [|done]. by destruct (_ || _). Qed.

Lemma extend_tables e d d' u : tables d' = tables d -> user_extend e d' u = user_extend e d u.
Proof.
  intros [= E1 E2 E3 E4 E5 E6 E7 E8]. unfold user_extend, group_by_name, groups_of, user_roles, find_group, group_roles. by rewrite E3, E5, E6, E8.
Qed.

Lemma webshare_groups w n l d d' : groups d' = groups d -> handle_webshare w n l d' = handle_webshare w n l d.
Proof. intros E. unfold handle_webshare, group_by_name. by rewrite E. Qed.

Lemma validate_root_groups d d' s x o v : groups d' = groups d -> validate_root d' s x o v = validate_root d s x o v.
Proof. intros E. unfold validate_root, group_by_name. by rewrite E. Qed.

(** The row an accepted update writes keeps what protects the root user. *)
Lemma accepted_row e o y u d v :
  user_extend e d u = Ok o -> inv d -> u ∈ users d -> validate_frozen o y v = [] ->
  let r := updated_row e o (place_home o y) in
  u_builtin r = u_builtin u /\ (u_builtin u = true -> u_group r = u_group u) /\ (u_id u = root -> u_username r = u_username u /\ u_uid r = u_uid u).
Proof.
  intros Ho Hi Hu Hf. destruct (extend_row _ _ _ _ Ho) as (Er & _ & Eim). destruct (place_home_keeps o y) as [P1 P2].
  simpl. unfold updated_row. rewrite P1, P2, Er. destruct (hashes _ _ _) as [h1 h2]. simpl. split; [done|]. split.
  - intros Hb. destruct (frozen_update _ _ _ Hf) as [-> _]; [by rewrite Eim, Hb|done].
  - intros Eu. split; [|done]. destruct Hi as [Hd Hr]. destruct (r_root _ Hr) as (x & Hx & Ex & _ & _ & Hb & _).
    assert (x = u) as -> by (eapply (key_inj u_id); [apply Hd|done..|congruence]).
    destruct (frozen_update _ _ _ Hf) as [_ En]; [by rewrite Eim, Hb|]. by rewrite Er in En.
Qed.

Lemma user_do_update_safe e me pk x : safe (user_do_update e me pk x).
Proof.
  intros d Hi. unfold user_do_update. destruct (_ <? pk)%Z; [done|].
  apply inv_bind_quiet; [auto with quiet|done|]. intros o d1 T1 Ho. apply user_instance_ok in Ho as (u & Hu & Ho).
  apply find_user_elem in Hu as [Hu Eu]. assert (inv d1) as Hi1 by (by eapply inv_tables).
  apply inv_bind_quiet; [auto with quiet|done|]. intros v d2 T2 _.
  apply inv_bind_quiet; [auto with quiet|by eapply inv_tables|]. intros g d3 T3 _.
  assert (tables d3 = tables d) as T by congruence. assert (inv d3) as Hi3 by (by eapply inv_tables). clear d1 d2 T1 T2 T3 Hi1.
  apply inv_bind_quiet; [auto with quiet|done|]. intros y d4 T4 Hy. apply verified_ok, accepted_update in Hy as [[v1 Hf] [v2 Hroot]].
  apply inv_bind_quiet; [auto with quiet|by eapply inv_tables|]. intros must d5 T5 _.
  apply inv_bind_quiet; [auto with quiet|eapply inv_tables; [|exact Hi]; congruence|]. intros [] d6 T6 _.
  apply inv_bind_quiet; [auto with quiet|eapply inv_tables; [|exact Hi]; congruence|]. intros gs d7 T7 Hgs. simpl in Hgs.
  assert (tables d7 = tables d) as T' by congruence. assert (inv d7) as Hi7 by (by eapply inv_tables).
  pose proof (accepted_row _ _ _ _ _ _ Ho Hi Hu Hf) as Hrow. set (r := updated_row e o (place_home o y)) in *.
  assert (inv (update_user_row pk (fun _ => r) d7).1) as Hi8.
  { apply update_user_row_safe; [done|]. intros w Hw Ew. rewrite (tables_users _ _ T') in Hw.
    assert (w = u) as -> by (eapply (key_inj u_id); [apply Hi|done..|congruence]). destruct Hrow as (R1 & R2 & R3).
    split_and!; [done..|]. intros ->. by apply R3. }
  destruct (update_user_row_frame pk (fun _ => r) d7) as (Fg & _ & _).
  unfold mbind at 1, ste_mbind at 1. destruct (update_user_row pk (fun _ => r) d7) as [d8 [[]|z]]; [|done]. simpl in Hi8, Fg |- *.
  apply inv_bind_safe; [|intros _; apply quiet_safe; quiet_steps].
  destruct (decide (pk = root)) as [->|Hne]; [|by apply set_user_groups_safe].
  assert (u_username r = "root") as En.
  { destruct (root_found d Hi) as (w & Hw & Ew & _). apply find_elem in Hw as [Hw En%String.eqb_eq]. 
    assert (w = u) as -> by (eapply (key_inj u_id); [apply Hi|done..|congruence]). destruct Hrow as (_ & _ & R3). destruct (R3 Eu). congruence. }
  rewrite En, (webshare_groups _ _ _ d) in Hgs by (apply tables_groups; congruence).
  rewrite (validate_root_groups d) in Hroot by (by apply tables_groups).
  destruct (root_groups _ _ _ _ _ _ _ _ Hi Ho Hu Eu Hroot Hgs) as [G1 G2].
  apply set_user_groups_root; [done..|]. eapply Forall_impl; [exact G2|]. intros w. unfold has_group. by rewrite Fg, (tables_groups _ _ T').
Qed.

(** ** Passwords and privileges *)

Lemma set_password_safe e c n o p : safe (set_password e c n o p).
Proof.
  unfold set_password. apply safe_bind; [apply quiet_safe; auto with quiet|intros _]. apply safe_bind; [apply quiet_safe; auto with quiet|].
  intros [f| |]; [|apply quiet_safe; auto with quiet..]. apply safe_bind; [apply quiet_safe; auto with quiet|intros _].
  apply safe_bind; [apply quiet_safe; destruct (positive _); quiet_steps|intros b].
  apply safe_bind; [apply quiet_safe; auto with quiet|intros _].
  apply safe_bind; [|intros _; apply quiet_safe; quiet_steps]. intros d Hi. by apply update_user_row_safe.
Qed.

Lemma get_priv_ok id d p : (get_priv id d).2 = Ok p -> find_priv id d = Some p.
Proof. unfold get_priv, mbind, ste_mbind. simpl. unfold expect. destruct (find_priv id d); [|done]. by intros [= ->]. Qed.

Lemma builtin_local_administrator old new d : validate_builtin LOCAL_ADMINISTRATOR old new d = Ok [] ->
  Gid BUILTIN_ADMINISTRATORS ∈ p_local_groups new /\ p_roles new = p_roles old.
Proof.
  unfold validate_builtin. simpl. intros [= H]. repeat match goal with H : add_if _ _ _ _ _ = [] |- _ => apply add_if_nil in H as [? H] end.
  rewrite negb_false_iff, ?bool_decide_eq_true in *. done.
Qed.

Lemma privilege_do_update_safe e id x : safe (privilege_do_update e id x).
Proof.
  intros d Hi. unfold privilege_do_update. apply inv_bind_quiet; [unfold get_priv; quiet_steps|done|]. intros old d1 T1 Ho.
  apply get_priv_ok in Ho. apply inv_bind_quiet; [auto with quiet|by eapply inv_tables|]. intros new d2 T2 _.
  apply inv_bind_quiet; [destruct (pr_builtin_name old); quiet_steps|eapply inv_tables; [|exact Hi]; congruence|]. intros [] d3 T3 Hb.
  apply inv_bind_quiet; [auto with quiet|eapply inv_tables; [|exact Hi]; congruence|]. intros [] d4 T4 _.
  assert (tables d4 = tables d) as T by congruence. apply update_privilege_safe; [by eapply inv_tables| |].
  - unfold find_priv in *. by rewrite (tables_privs _ _ T).
  - intros En. rewrite En in Hb. by apply verify_ok, builtin_local_administrator in Hb.
Qed.

Lemma privilege_do_delete_safe id : safe (privilege_do_delete id).
Proof.
  intros d Hi. unfold privilege_do_delete. apply inv_bind_quiet; [unfold get_priv; quiet_steps|done|]. intros old d1 T1 Ho.
  apply get_priv_ok in Ho. apply inv_bind_quiet; [auto with quiet|by eapply inv_tables|]. intros [] d2 T2 Hb. simpl in Hb.
  apply inv_bind_safe; [|by intros _; apply quiet_safe]. assert (tables d2 = tables d) as T by congruence.
  eapply delete_privilege_safe; [by eapply inv_tables| |].
  - unfold find_priv in *. by rewrite (tables_privs _ _ T).
  - intros En. by rewrite En in Hb.
Qed.

(** ** Histories *)

(** The API has no field [gid] in [group.update]. *)
Definition api_label (l : label) : Prop := match l with LGroupUpdate _ _ x => gd_gid x = None | _ => True end.

Lemma exec_root_inv l w : api_label l -> inv (db w) -> inv (db (exec l w)).
Proof.
  intros Hl Hi. destruct l; simpl in *.
  - pose proof (user_create_begin_safe e data group_create _ Hi). by destruct (user_create_begin e data group_create (db w)) as [d [p|]].
  - destruct (pend_users w !! i) as [[t p]|]; [|done]. by apply user_create_end_safe.
  - by apply user_do_update_safe.
  - by apply user_do_delete_safe.
  - by apply set_password_safe.
  - pose proof (quiet_safe _ (group_create_begin_quiet (base e) data) _ Hi). by destruct (group_create_begin (base e) data (db w)) as [d [p|]].
  - destruct (pend_groups w !! i) as [[t p]|]; [|done]. by apply group_create_end_safe.
  - by apply group_do_update_safe.
  - by apply group_do_delete_safe.
  - apply safe_bind; [apply quiet_safe; auto with quiet|intros _; apply insert_privilege_safe|done].
  - by apply privilege_do_update_safe.
  - by apply privilege_do_delete_safe.
  - by apply (quiet_safe _ (root_check_quiet (base e))).
  - by apply (quiet_safe _ (quiet_next_uid e)).
  - by apply (quiet_safe _ (quiet_next_gid (base e))).
Qed.

Lemma run_inv ls w : Forall api_label ls -> inv (db w) -> inv (db (foldl (fun w l => exec l w) w ls)).
Proof.
  revert w. induction ls as [|l ls IH]; intros w; simpl; [done|]. intros [Hl Hls]%Forall_cons Hi. apply IH; [done|]. by apply exec_root_inv.
Qed.

End root.

(** ** The roles of a user *)

Lemma mapping_roles_app privs (ids : gset group_id) k (acc : gset string * list privilege) :
  acc.1 ⊆ (foldl (fun '(roles, out) p =>
    if decide ((list_to_set (key_groups k p) : gset group_id) ∩ ids = ∅) then (roles, out)
    else (roles ∪ list_to_set (p_roles p), out ++ [p])) acc privs).1.
Proof. revert acc. induction privs as [|p l IH]; intros [r o]; simpl; [done|]. etrans; [|apply IH]. case_decide; set_solver. Qed.

Lemma mapping_roles privs ids k p r g :
  p ∈ privs -> g ∈ key_groups k p -> g ∈ ids -> r ∈ p_roles p -> r ∈ (privileges_group_mapping privs ids k).1.
Proof.
  intros Hp Hg Hi Hr. unfold privileges_group_mapping. generalize (∅ : gset string, [] : list privilege).
  induction privs as [|q l IH]; intros [a b]; [by apply elem_of_nil in Hp|]. simpl. apply elem_of_cons in Hp as [<-|Hp]; [|by apply IH].
  case_decide as E; [set_solver|]. apply mapping_roles_app. simpl. set_solver.
Qed.

Lemma user_roles_group d l g r : g ∈ l -> (exists x, find_group g d = Some x /\ r ∈ group_roles (g_gid x) d) -> r ∈ user_roles d l.
Proof.
  intros Hg (x & Hx & Hr). unfold user_roles.
  assert (forall l acc, acc ⊆ foldl (fun acc g => match find_group g d with Some r => acc ∪ group_roles (g_gid r) d | None => acc end) acc l) as Hmono.
  { clear. induction l as [|y l IH]; intros acc; simpl; [done|]. etrans; [|apply IH]. destruct (find_group y d); set_solver. }
  generalize (∅ : gset string). induction l as [|y l IH]; intros acc; [by apply elem_of_nil in Hg|]. simpl.
  apply elem_of_cons in Hg as [<-|Hg]; [|by apply IH]. rewrite Hx. apply Hmono. set_solver.
Qed.

(** The root user has the role of a full administrator. *)
Lemma inv_full_admin root admins d : inv root admins d ->
  exists u, user_by_name "root" d = Some u /\ u_uid u = 0%Z /\ "FULL_ADMIN" ∈ user_roles d (groups_of (u_id u) d ++ [u_group u]).
Proof.
  intros Hi. destruct (r_root _ _ _ (proj2 Hi)) as (u & Hu & Eu & En & Hz & _). exists u. split_and!; [|done|].
  { unfold user_by_name. rewrite <-En. by apply find_name; [apply Hi|]. }
  destruct (admins_found _ _ _ Hi) as (g & Hg & _ & _ & Egid & _). destruct (r_priv _ _ _ (proj2 Hi)) as (p & Hp & _ & Hl & Hr).
  apply (user_roles_group _ _ admins).
  - apply elem_of_app. left. apply dedup_elem. change (map m_group ?l) with (m_group <$> l). apply list_elem_of_fmap.
    exists (mkMember admins root). split; [done|]. apply filter_elem. split; [apply (proj2 Hi)|]. rewrite Eu. apply Z.eqb_refl.
  - exists g. split; [done|]. rewrite Egid. eapply mapping_roles; [|exact Hl|by left|exact Hr].
    change (map pr_priv ?l) with (pr_priv <$> l). apply list_elem_of_fmap. by exists p.
Qed.
End AccountRoot.
