(* ===== verification/AccountUids.v ===== *)
(** * The choice of uids

    The ids the service chooses are the least that are free, reservations keep the
    ids of creations in progress apart, and no two users get the same id this way. *)

From S2P Require Import Prelude PyDict PyStr PyVal PyFormat Errors Privilege AccountDb Groups Users AccountInv.

Module AccountUids.
Import Acct Groups Users AccountInv.

(** ** The next id *)

Lemma foldl_max x l : (x <= foldl Z.max x l)%Z /\ Forall (fun y => y <= foldl Z.max x l)%Z l /\ foldl Z.max x l ∈ x :: l.
Proof.
  revert x. induction l as [|y l IH]; intros x; simpl; [split_and!; [lia|done|by left]|]. destruct (IH (Z.max x y)) as (H1 & H2 & H3).
  split_and!; [lia|constructor; [lia|done]|]. apply elem_of_cons in H3 as [E|H3]; [|by right; right].
  rewrite E. destruct (Z.max_spec x y) as [[_ ->]|[_ ->]]; [by right; left|by left].
Qed.

Lemma max_xid_elem l x : x ∈ l -> (x <= max_xid l)%Z.
Proof.
  destruct l as [|y l]; [by intros ?%elem_of_nil|]. simpl. destruct (foldl_max y l) as (H1 & H2 & _).
  intros [->|Hx]%elem_of_cons; [done|]. rewrite Forall_forall in H2. by apply H2.
Qed.

(** The first element of a range that passes a test. *)
Lemma filter_range (p : Z -> bool) a n k :
  match List.filter p (map (fun i => a + Z.of_nat i)%Z (seq k n)) with
  | x :: _ => p x = true /\ (a + Z.of_nat k <= x < a + Z.of_nat (k + n))%Z /\ forall y, (a + Z.of_nat k <= y < x)%Z -> p y = false
  | [] => forall y, (a + Z.of_nat k <= y < a + Z.of_nat (k + n))%Z -> p y = false
  end.
Proof.
  revert k. induction n as [|n IH]; intros k; simpl; [intros y; lia|]. destruct (p (a + Z.of_nat k)%Z) eqn:E.
  - split_and!; [done|lia|lia|]. intros y; lia.
  - specialize (IH (S k)). destruct (List.filter _ _) as [|x l].
    + intros y Hy. destruct (decide (y = (a + Z.of_nat k)%Z)) as [->|]; [done|]. apply IH. lia.
    + destruct IH as (H1 & H2 & H3). split_and!; [done|lia|lia|]. intros y Hy.
      destruct (decide (y = (a + Z.of_nat k)%Z)) as [->|]; [done|]. apply H3. lia.
Qed.

Lemma next_xid_spec l : Forall (fun x => MIN_AUTO_XID <= x)%Z l ->
  (MIN_AUTO_XID <= next_xid l)%Z /\ next_xid l ∉ l /\ forall y, (MIN_AUTO_XID <= y < next_xid l)%Z -> y ∈ l.
Proof.
  intros Hl. unfold next_xid. set (p := fun x => negb (bool_decide (x ∈ l))).
  pose proof (filter_range p MIN_AUTO_XID (Z.to_nat (max_xid l - MIN_AUTO_XID)) 0) as H.
  assert (forall y, p y = false -> y ∈ l) as Hp by (intros y E; by apply negb_false_iff, bool_decide_eq_true in E).
  assert (MIN_AUTO_XID - 1 <= max_xid l)%Z as Hm.
  { destruct l as [|x l]; [done|]. assert (x <= max_xid (x :: l))%Z by (apply max_xid_elem; by left). apply Forall_cons in Hl as [Hx _]. lia. }
  destruct (List.filter _ _) as [|x r].
  - split_and!; [lia|intros Hin%max_xid_elem; lia|]. intros y Hy. destruct (decide (y = max_xid l)) as [->|].
    + destruct l as [|x l]; [unfold max_xid in *; lia|]. simpl. apply foldl_max.
    + apply Hp, H. lia.
  - destruct H as (H1 & H2 & H3). split_and!; [lia|by apply negb_true_iff, bool_decide_eq_false in H1|]. intros y Hy. apply Hp, H3. lia.
Qed.

(** ** Reservations *)

Definition live (now k : Z) (fl : list (Z * Z)) : bool :=
  match Dict.get k fl with Some expiry => negb (expiry <? now)%Z | None => false end.

Lemma available_spec now k fl : Dict.wf fl ->
  (available now k fl).2 = negb (live now k fl) /\ Dict.wf (available now k fl).1
  /\ forall j, Dict.get j (available now k fl).1 = if decide (j = k) then (if live now k fl then Dict.get k fl else None) else Dict.get j fl.
Proof.
  intros Hw. unfold available, live. destruct (Dict.get k fl) as [x|] eqn:E; [destruct (x <? now)%Z|]; simpl; split_and!; try done.
  - by apply Dict.wf_pop.
  - intros j. case_decide; subst; [by apply Dict.get_pop_eq|by apply Dict.get_pop_ne].
  - intros j. by case_decide; subst.
  - intros j. by case_decide; subst.
Qed.

Lemma live_other now j k fl fl' : j ≠ k -> Dict.get j fl' = Dict.get j fl -> live now j fl' = live now j fl.
Proof. intros _ E. unfold live. by rewrite E. Qed.

Lemma in_use_loop_spec now ks fl : Dict.wf fl -> NoDup ks ->
  let r := in_use_loop now ks fl in
  Dict.wf r.1 /\ (forall j, Dict.get j r.1 = if decide (j ∈ ks) then (if live now j fl then Dict.get j fl else None) else Dict.get j fl)
  /\ forall j, j ∈ r.2 <-> j ∈ ks /\ live now j fl = true.
Proof.
  revert fl. induction ks as [|k ks IH]; intros fl Hw Hnd; cbn [in_use_loop]; cbv zeta.
  { cbn [fst snd]. split_and!; [done| |]; intros j; [|rewrite elem_of_nil; tauto]. by rewrite decide_False by apply not_elem_of_nil. }
  apply NoDup_cons in Hnd as [Hk Hnd]. destruct (available_spec now k fl Hw) as (E1 & E2 & E3).
  destruct (available now k fl) as [f1 b]. simpl in *. subst b. specialize (IH f1 E2 Hnd). destruct (in_use_loop now ks f1) as [f2 l]. simpl in *.
  destruct IH as (H1 & H2 & H3).
  assert (forall j, j ≠ k -> live now j f1 = live now j fl) as Hl by (intros j Hj; unfold live; rewrite E3; by rewrite decide_False).
  split_and!; [done| |].
  - intros j. rewrite H2. destruct (decide (j = k)) as [->|Hj].
    + rewrite decide_False by done. rewrite E3, !decide_True; [done|by left|done].
    + rewrite Hl, !E3, (decide_False (P:=j = k)) by done. destruct (decide (j ∈ ks)) as [Hin|Hin].
      * rewrite decide_True; [done|by right].
      * rewrite decide_False; [done|set_solver].
  - intros j. destruct (live now k fl) eqn:Ek; simpl; rewrite ?elem_of_cons, H3.
    + split; [intros [->|[Hin Hj]]|intros [[->|Hin] Hj]]; auto.
      * rewrite Hl in Hj; [auto|by intros ->].
      * right. rewrite Hl; [auto|by intros ->].
    + split; [intros [Hin Hj]|intros [[->|Hin] Hj]].
      * rewrite Hl in Hj; [auto|by intros ->].
      * congruence.
      * rewrite Hl; [auto|by intros ->].
Qed.

Lemma in_use_spec now fl : Dict.wf fl ->
  Dict.wf (in_use now fl).1 /\ (forall j, Dict.get j (in_use now fl).1 = if live now j fl then Dict.get j fl else None)
  /\ forall j, j ∈ (in_use now fl).2 <-> live now j fl = true.
Proof.
  intros Hw. destruct (in_use_loop_spec now (Dict.keys fl) fl Hw Hw) as (H1 & H2 & H3). split_and!; [done| |].
  - intros j. unfold in_use. rewrite H2. destruct (decide (j ∈ Dict.keys fl)) as [Hd|Hd]; [done|]. unfold live. by apply Dict.get_None in Hd as ->.
  - intros j. unfold in_use. rewrite H3. split; [tauto|]. intros Hl. split; [|done]. apply Dict.get_is_Some. unfold live in Hl.
    by destruct (Dict.get j fl).
Qed.

(** The uids the service counts as used. *)
Definition allocated (d : adb) : list Z :=
  map u_uid (List.filter (fun u => negb (u_builtin u) && (MIN_AUTO_XID <=? u_uid u)%Z) (users d)).

Definition reserved_ok (fl : list (Z * Z)) : Prop := Dict.wf fl /\ forall k, k ∈ Dict.keys fl -> (MIN_AUTO_XID <= k)%Z.

(** The choice always succeeds, with the least id that no user has and that is not
    reserved; the reservations that hold are kept and the id is reserved. *)
Lemma next_uid_spec e d : reserved_ok (ReservedUids d) ->
  exists x fl, get_next_uid e d = (set_ReservedUids fl d, Ok x)
    /\ (MIN_AUTO_XID <= x)%Z /\ x ∉ allocated d /\ live (clock (base e)) x (ReservedUids d) = false
    /\ (forall y, (MIN_AUTO_XID <= y < x)%Z -> y ∈ allocated d \/ live (clock (base e)) y (ReservedUids d) = true)
    /\ reserved_ok fl /\ Dict.get x fl = Some (clock (base e) + LOCKED_XID_TTL)%Z
    /\ (forall k, live (clock (base e)) k (ReservedUids d) = true -> Dict.get k fl = Dict.get k (ReservedUids d)).
Proof.
  intros [Hw Hk]. unfold get_next_uid. fold (allocated d). set (now := clock (base e)).
  destruct (in_use_spec now _ Hw) as (H1 & H2 & H3). destruct (in_use now (ReservedUids d)) as [fl l]. simpl in *.
  assert (forall j, live now j (ReservedUids d) = true -> (MIN_AUTO_XID <= j)%Z) as Hlive.
  { intros j Hj. apply Hk, Dict.get_is_Some. unfold live in Hj. by destruct (Dict.get j _). }
  destruct (next_xid_spec (allocated d ++ l)) as (N1 & N2 & N3).
  { apply Forall_app. split; apply Forall_forall.
    - unfold allocated. change (map u_uid ?l) with (u_uid <$> l). intros j (u & -> & [_ [_ Hu%Z.leb_le]%andb_true_iff]%filter_elem)%list_elem_of_fmap. done.
    - intros j Hj%H3. auto. }
  rewrite elem_of_app in N2. set (x := next_xid (allocated d ++ l)) in *.
  assert (live now x (ReservedUids d) = false) as Hx by (destruct (live now x _) eqn:E; [destruct N2; right; by apply H3|done]).
  assert (Dict.get x fl = None) as Hn by (by rewrite H2, Hx).
  unfold add_entry, available. rewrite Hn. eexists x, _. split_and!; [done|done|tauto|done| |split| |].
  - intros y Hy. apply N3, elem_of_app in Hy as [Hy|Hy%H3]; auto.
  - by apply Dict.wf_set.
  - intros k [->|Hin]%Dict.elem_keys_set; [done|]. apply Dict.get_is_Some in Hin. rewrite H2 in Hin.
    destruct (live now k _) eqn:E; [auto|]. by destruct Hin.
  - apply Dict.get_set_eq.
  - intros k Hl. rewrite Dict.get_set_ne by (intros <-; congruence). by rewrite H2, Hl.
Qed.

(** ** Operations that do not choose uids *)

#[export] Instance reserved_calm : Calm ReservedUids.
Proof. done. Qed.

(** The uids and whether the accounts are builtin. *)
Definition accts (d : adb) : list (Z * bool) := map (fun u => (u_uid u, u_builtin u)) (users d).

(** No account is added and no account changes its uid; the reservations stay. *)
Definition steady {A} (m : op A) : Prop := forall d, ReservedUids (m d).1 = ReservedUids d /\ accts (m d).1 `sublist_of` accts d.

Lemma steady_frames {A} (m : op A) : frames ReservedUids m -> frames users m -> steady m.
Proof. intros H1 H2 d. split; [apply H1|]. unfold accts. by rewrite H2. Qed.

Lemma steady_bind {A B} (m : op A) (f : A -> op B) : steady m -> (forall a, steady (f a)) -> steady (m ≫= f).
Proof.
  intros Hm Hf d. unfold mbind, ste_mbind. destruct (Hm d) as [H1 H2]. destruct (m d) as [d1 [a|x]]; [|done]. simpl in *.
  destruct (Hf a d1) as [H3 H4]. split; [congruence|by etrans].
Qed.

Lemma steady_if {A} (b : bool) (m n : op A) : steady m -> steady n -> steady (if b then m else n).
Proof. by destruct b. Qed.

Lemma steady_on_error {A} (m : op A) h : steady m -> steady h -> steady (on_error m h).
Proof.
  intros Hm Hh d. unfold on_error. destruct (Hm d) as [H1 H2]. destruct (m d) as [d1 [a|x]]; [done|]. simpl in *.
  destruct (Hh d1) as [H3 H4]. destruct (h d1) as [d2 [|]]; simpl in *; (split; [congruence|by etrans]).
Qed.

Lemma steady_finally {A} (m : op A) h : steady m -> steady h -> steady (finally m h).
Proof.
  intros Hm Hh d. unfold finally. destruct (Hm d) as [H1 H2]. destruct (m d) as [d1 r]. simpl in *.
  destruct (Hh d1) as [H3 H4]. destruct (h d1) as [d2 [|]]; simpl in *; (split; [congruence|by etrans]).
Qed.

#[export] Instance users_calm : Calm users.
Proof. done. Qed.

Create HintDb steady.
#[export] Hint Resolve reserved_calm users_calm : quiet.
#[export] Hint Resolve steady_on_error steady_finally : steady.
#[export] Hint Extern 5 (steady _) => (apply steady_frames; solve [quiet_steps]) : steady.

Ltac steady_steps := repeat first [solve [auto with steady] | apply steady_bind; [|intros ?] | apply steady_finally | apply steady_on_error | apply steady_if | case_match].

Lemma add_members_steady l : steady (add_members l).
Proof.
  induction l as [|m l IH]; [by intros d|]. apply steady_bind; [|done]. intros d. unfold add_member. by destruct (_ && _).
Qed.

Lemma set_user_groups_steady pk l : steady (set_user_groups pk l).
Proof. apply steady_bind; [by intros d|intros _; apply add_members_steady]. Qed.

Lemma set_group_users_steady pk l : steady (set_group_users pk l).
Proof. apply steady_bind; [by intros d|intros _; apply add_members_steady]. Qed.

Lemma insert_group_row_steady g : steady (insert_group_row g).
Proof. intros d. unfold insert_group_row. by destruct (existsb _ _). Qed.

Lemma delete_group_steady pk : steady (delete_group pk).
Proof. intros d. unfold delete_group. by destruct (existsb _ _). Qed.

Lemma update_group_row_steady pk f : steady (update_group_row pk f).
Proof. intros d. unfold update_group_row. destruct (find_group pk d); [|done]. by destruct (existsb _ _). Qed.

Lemma delete_user_steady pk : steady (delete_user pk).
Proof. intros d. split; [done|]. simpl. apply (fmap_sublist (fun u => (u_uid u, u_builtin u))), filter_sublist. Qed.

Lemma update_user_row_accts pk f d :
  (forall u, u ∈ users d -> u_id u = pk -> u_uid (f u) = u_uid u /\ u_builtin (f u) = u_builtin u) ->
  ReservedUids (update_user_row pk f d).1 = ReservedUids d /\ accts (update_user_row pk f d).1 = accts d.
Proof.
  intros Hf. unfold update_user_row. destruct (find_user pk d); [|done]. destruct (_ || _); [done|]. split; [done|].
  unfold accts. simpl. apply (map_key (fun u => (u_uid u, u_builtin u))). intros x Hx E%Z.eqb_eq. simpl. by destruct (Hf x Hx E) as [-> ->].
Qed.

Lemma update_user_row_steady pk f : (forall u, u_uid (f u) = u_uid u /\ u_builtin (f u) = u_builtin u) -> steady (update_user_row pk f).
Proof. intros Hf d. destruct (update_user_row_accts pk f d) as [H1 H2]; [auto|]. by rewrite H2. Qed.

Lemma insert_twofactor_steady u : steady (insert_twofactor u).
Proof. intros d. unfold insert_twofactor. by destruct (has_user u d). Qed.

Lemma insert_privilege_steady b p : steady (insert_privilege b p).
Proof. by intros d. Qed.

Lemma update_privilege_steady pk b p : steady (update_privilege pk b p).
Proof. intros d. unfold update_privilege. by destruct (existsb _ _). Qed.

Lemma delete_privilege_steady pk : steady (delete_privilege pk).
Proof. by intros d. Qed.

Lemma move_users_steady b n l : steady (move_users b n l).
Proof.
  induction l as [|u l IH]; [by intros d|]. simpl. apply steady_bind; [|done]. destruct b; [apply delete_user_steady|by apply update_user_row_steady].
Qed.
#[export] Hint Resolve set_user_groups_steady set_group_users_steady insert_group_row_steady delete_group_steady update_group_row_steady
  delete_user_steady insert_twofactor_steady move_users_steady insert_privilege_steady
  update_privilege_steady delete_privilege_steady : steady.

Lemma frames_next_gid {T} (pr : adb -> T) e : (forall v d, pr (set_ReservedGids v d) = pr d) -> frames pr (get_next_gid e).
Proof. intros H d. unfold get_next_gid. destruct (in_use _ _). destruct (add_entry _ _ _); apply H. Qed.

Lemma group_create_begin_steady e x : steady (group_create_begin e x).
Proof.
  unfold group_create_begin. steady_steps. apply steady_frames; by apply frames_next_gid.
Qed.

Lemma group_create_end_steady e x g b : steady (group_create_end e x g b).
Proof. unfold group_create_end, insert_group. steady_steps.
Qed.

Lemma group_do_update_steady e pk x : steady (group_do_update e pk x).
Proof. unfold group_do_update. steady_steps. Qed.

Lemma group_do_delete_steady e pk b : steady (group_do_delete e pk b).
Proof. unfold group_do_delete. steady_steps. Qed.
#[export] Hint Resolve group_create_begin_steady group_create_end_steady group_do_delete_steady : steady.

Lemma primary_group_steady e n g b : steady (primary_group e n g b).
Proof. unfold primary_group, create_internal. steady_steps. Qed.

Lemma user_do_delete_steady e me pk b : steady (user_do_delete e me pk b).
Proof.
  unfold user_do_delete. steady_steps.
  - intros d. unfold delete_primary_group. destruct (find_group _ d); [|done]. destruct (_ && _); [|done]. apply group_do_delete_steady.
  - intros d. simpl. by case_bool_decide.
Qed.

Lemma set_password_steady e c n o p : steady (set_password e c n o p).
Proof. unfold set_password. steady_steps; by apply update_user_row_steady. Qed.

Lemma privilege_create_steady e p : steady (privilege_do_create e p).
Proof. unfold privilege_do_create. steady_steps. Qed.

Lemma privilege_update_steady e id x : steady (privilege_do_update e id x).
Proof. unfold privilege_do_update, get_priv. steady_steps. Qed.

Lemma privilege_delete_steady id : steady (privilege_do_delete id).
Proof. unfold privilege_do_delete, get_priv. steady_steps. Qed.

Lemma root_check_steady e : steady (always_has_root_password_enabled e).
Proof. unfold always_has_root_password_enabled. steady_steps. Qed.

(** The same in the states with the users [l]. *)
Definition steady_with (l : list user_row) {A} (m : op A) : Prop := forall d, users d = l ->
  ReservedUids (m d).1 = ReservedUids d /\ accts (m d).1 `sublist_of` accts d.

Lemma steady_with_bind l {A B} (m : op A) (f : A -> op B) :
  frames ReservedUids m -> frames users m -> (forall a, steady_with l (f a)) -> steady_with l (m ≫= f).
Proof.
  intros H1 H2 Hf d Hd. unfold mbind, ste_mbind. specialize (H1 d). specialize (H2 d). destruct (m d) as [d1 [a|x]]; simpl in *.
  - destruct (Hf a d1) as [H3 H4]; [congruence|]. unfold accts in *. rewrite H2 in H4. split; [congruence|done].
  - unfold accts. by rewrite H2.
Qed.

Lemma steady_with_write l {A B} (m : op A) (f : A -> op B) : steady_with l m -> (forall a, steady (f a)) -> steady_with l (m ≫= f).
Proof.
  intros Hm Hf d Hd. unfold mbind, ste_mbind. destruct (Hm d Hd) as [H1 H2]. destruct (m d) as [d1 [a|x]]; [|done]. simpl in *.
  destruct (Hf a d1) as [H3 H4]. split; [congruence|by etrans].
Qed.

(** An update writes the uid of the entry it has read. *)
Lemma user_do_update_steady e me pk x d : db_ok d ->
  ReservedUids (user_do_update e me pk x d).1 = ReservedUids d /\ accts (user_do_update e me pk x d).1 `sublist_of` accts d.
Proof.
  intros Hd. unfold user_do_update. destruct (_ <? pk)%Z; [done|].
  match goal with |- context [user_get_instance e pk ≫= ?f] => set (rest := f) end.
  change ((user_get_instance e pk ≫= rest) d) with (match user_get_instance e pk d with (d, Ok o) => rest o d | (d, Err x) => (d, Err x) end).
  unfold user_get_instance. destruct (find_user pk d) as [u|] eqn:Hu; [|done]. apply find_user_elem in Hu as [Hu Eu].
  destruct (user_extend e d u) as [o|] eqn:Ho; [|done].
  assert (u_uid (ue_row o) = u_uid u /\ u_builtin (ue_row o) = u_builtin u) as [E1 E2].
  { unfold user_extend in Ho. destruct (group_by_name _ d); [|done]. by injection Ho as <-. }
  enough (steady_with (users d) (rest o)) as H by (by apply H). unfold rest. clear rest.
  do 6 (apply steady_with_bind; [quiet_steps..|intros ?]).
  apply steady_with_write; [|intros _; steady_steps]. intros d' Ed.
  match goal with |- context [update_user_row pk ?f] => destruct (update_user_row_accts pk f d') as [H1 H2]; [|by rewrite H2] end.
  intros w Hw Ew. rewrite Ed in Hw. assert (w = u) as -> by (eapply (key_inj u_id); [apply Hd|done..|congruence]).
  unfold updated_row. by destruct (hashes _ _ _).
Qed.

(** ** The first part of a creation *)

Lemma password_uid e s x o v : ud_uid (validate_password e s x o v).1 = ud_uid x.
Proof. unfold validate_password. by destruct (flag _), (password_of x). Qed.

Lemma create_uid e x gc d y v : validate_create e x gc d = Ok (y, v) -> ud_uid y = ud_uid x.
Proof.
  unfold validate_create. intros ([z v1] & Hc & H)%result_bind_ok. injection H as <- _. unfold common_validation in Hc.
  pose proof (password_uid e "user_create" x None) as Hp.
  match type of Hc with context [validate_password e "user_create" x None ?w] => specialize (Hp w); destruct (validate_password e "user_create" x None w) as [y v0] end.
  simpl in Hp. repeat (apply result_bind_ok in Hc as (? & _ & Hc)). by injection Hc as <- _.
Qed.

(** What a creation has done when its uid is chosen at [now]. *)
Definition begins (now : Z) (m : op pending) : Prop := forall d, reserved_ok (ReservedUids d) ->
  let r := m d in
  reserved_ok (ReservedUids r.1) /\ accts r.1 `sublist_of` accts d
  /\ (forall k, live now k (ReservedUids d) = true -> Dict.get k (ReservedUids r.1) = Dict.get k (ReservedUids d))
  /\ match r.2 with
     | Ok p => (MIN_AUTO_XID <= pe_uid p)%Z /\ pe_uid p ∉ allocated r.1 /\ live now (pe_uid p) (ReservedUids d) = false
               /\ Dict.get (pe_uid p) (ReservedUids r.1) = Some (now + LOCKED_XID_TTL)%Z
     | Err _ => True
     end.

Lemma begins_bind now {A} (m : op A) f : steady m -> (forall a, begins now (f a)) -> begins now (m ≫= f).
Proof.
  intros Hm Hf d Hd. unfold mbind, ste_mbind. destruct (Hm d) as [H1 H2]. destruct (m d) as [d1 [a|x]]; simpl in *; rewrite <-?H1 in *; [|done].
  destruct (Hf a d1 Hd) as (F1 & F2 & F3 & F4). split_and!; [done|by etrans|done..].
Qed.

Lemma begins_next e x g gid n gs c : begins (clock (base e)) (uid ← get_next_uid e; mret (mkPending x uid g gid n gs c)).
Proof.
  intros d Hd. unfold mbind, ste_mbind. destruct (next_uid_spec e d Hd) as (u & fl & -> & H1 & H2 & H3 & _ & H4 & H5 & H6). done.
Qed.

Lemma user_create_begin_uid e x gc : ud_uid x = None -> begins (clock (base e)) (user_create_begin e x gc).
Proof.
  intros Hx d Hd. unfold user_create_begin. match goal with |- context [verified ?f ≫= ?g] => set (v := verified f); set (rest := g) end.
  change ((v ≫= rest) d) with (match v d with (d, Ok o) => rest o d | (d, Err x) => (d, Err x) end).
  pose proof (frames_verified (fun d => d) (validate_create e (with_defaults x) gc) d) as Ed. fold v in Ed.
  destruct (v d) as [d1 [y|z]] eqn:Ev; simpl in Ed; subst d1; [|done].
  assert (ud_uid y = None) as Hy.
  { unfold v, verified in Ev. destruct (validate_create _ _ _ d) as [[w ve]|] eqn:E; [|done]. apply create_uid in E.
    destruct (VErrors.check ve); [|done]. injection Ev as <-. by rewrite E. }
  clear Ev. revert d Hd. change (begins (clock (base e)) (rest y)). unfold rest. apply begins_bind; [apply primary_group_steady|].
  intros [[[g gid] n] c]. apply begins_bind; [steady_steps|intros gs]. rewrite Hy. apply begins_next.
Qed.

(** ** The second part *)

(** Only the reservation of [u] is touched. *)
Definition touches (u : Z) (d d' : adb) : Prop :=
  (reserved_ok (ReservedUids d) -> reserved_ok (ReservedUids d'))
  /\ forall k, k ≠ u -> Dict.get k (ReservedUids d') = Dict.get k (ReservedUids d).

Lemma touches_trans u d1 d2 d3 : touches u d1 d2 -> touches u d2 d3 -> touches u d1 d3.
Proof. intros [A1 A2] [B1 B2]. split; [auto|]. intros k Hk. by rewrite B2, A2. Qed.

Definition closes (u : Z) {A} (m : op A) : Prop := forall d, touches u d (m d).1 /\ accts (m d).1 `sublist_of` accts d.
Definition adds (u : Z) {A} (m : op A) : Prop := forall d, touches u d (m d).1 /\ accts (m d).1 `sublist_of` accts d ++ [(u, false)].

Lemma steady_closes u {A} (m : op A) : steady m -> closes u m.
Proof. intros H d. destruct (H d) as [H1 H2]. split; [|done]. split; by rewrite H1. Qed.

Lemma closes_adds u {A} (m : op A) : closes u m -> adds u m.
Proof. intros H d. destruct (H d) as [H1 H2]. split; [done|]. by apply sublist_inserts_r. Qed.

Lemma closes_bind u {A B} (m : op A) (f : A -> op B) : closes u m -> (forall a, closes u (f a)) -> closes u (m ≫= f).
Proof.
  intros Hm Hf d. unfold mbind, ste_mbind. destruct (Hm d) as [H1 H2]. destruct (m d) as [d1 [a|x]]; [|done]. simpl in *.
  destruct (Hf a d1) as [H3 H4]. split; [by eapply touches_trans|by etrans].
Qed.

Lemma closes_on_error u {A} (m : op A) h : closes u m -> closes u h -> closes u (on_error m h).
Proof.
  intros Hm Hh d. unfold on_error. destruct (Hm d) as [H1 H2]. destruct (m d) as [d1 [a|x]]; [done|]. simpl in *.
  destruct (Hh d1) as [H3 H4]. destruct (h d1) as [d2 [|]]; simpl in *; (split; [by eapply touches_trans|by etrans]).
Qed.

Lemma adds_after u {A B} (m : op A) (f : A -> op B) : closes u m -> (forall a, adds u (f a)) -> adds u (m ≫= f).
Proof.
  intros Hm Hf d. unfold mbind, ste_mbind. destruct (Hm d) as [H1 H2]. destruct (m d) as [d1 [a|x]]; simpl in *.
  - destruct (Hf a d1) as [H3 H4]. split; [by eapply touches_trans|]. etrans; [exact H4|]. by apply sublist_app.
  - split; [done|]. by apply sublist_inserts_r.
Qed.

Lemma adds_then u {A B} (m : op A) (f : A -> op B) : adds u m -> (forall a, closes u (f a)) -> adds u (m ≫= f).
Proof.
  intros Hm Hf d. unfold mbind, ste_mbind. destruct (Hm d) as [H1 H2]. destruct (m d) as [d1 [a|x]]; [|done]. simpl in *.
  destruct (Hf a d1) as [H3 H4]. split; [by eapply touches_trans|by etrans].
Qed.

Lemma adds_finally u {A} (m : op A) h : adds u m -> closes u h -> adds u (finally m h).
Proof.
  intros Hm Hh d. unfold finally. destruct (Hm d) as [H1 H2]. destruct (m d) as [d1 r]. simpl in *.
  destruct (Hh d1) as [H3 H4]. destruct (h d1) as [d2 [|]]; simpl in *; (split; [by eapply touches_trans|by etrans]).
Qed.

Lemma unreserve_closes u : closes u (unreserve u).
Proof.
  intros d. split; [|done]. simpl. split.
  - intros [Hw Hk]. split; [by apply Dict.wf_pop|]. intros k Hin. apply Hk. revert Hin. apply sublist_subseteq, Dict.keys_pop_sublist.
  - intros k Hne. by apply Dict.get_pop_ne.
Qed.

Lemma insert_user_row_adds u r : u_uid r = u -> u_builtin r = false -> adds u (insert_user_row r).
Proof.
  intros <- Hb d. unfold insert_user_row. destruct (_ || _); simpl.
  - split; [done|]. by apply sublist_inserts_r.
  - split; [done|]. unfold accts. simpl. rewrite map_app. simpl. by rewrite Hb.
Qed.

Lemma create_rows_adds e p h gs : adds (pe_uid p) (create_rows e p h gs).
Proof.
  unfold create_rows, insert_user. apply adds_finally; [|apply unreserve_closes].
  apply adds_then; [|intros pk; apply steady_closes; steady_steps].
  apply adds_then; [|intros pk; apply steady_closes; steady_steps].
  apply insert_user_row_adds; unfold created_row; by destruct (password_of _).
Qed.

Lemma user_create_end_adds e p : adds (pe_uid p) (user_create_end e p).
Proof.
  unfold user_create_end. apply adds_after.
  - unfold create_home. destruct (_ || _); [by apply steady_closes|]. apply closes_on_error; [apply steady_closes; steady_steps|].
    apply closes_bind; [apply steady_closes; steady_steps|intros _; apply unreserve_closes].
  - intros h. apply adds_after; [apply steady_closes; steady_steps|intros gs]. apply adds_then; [apply create_rows_adds|].
    intros pk. apply steady_closes. steady_steps.
Qed.

(** ** Histories *)

Definition pend_uids (w : world) : list Z := map (fun x => pe_uid x.2) (pend_users w).

(** The uids the service chooses are apart from each other and from those of the
    creations in progress, whose reservations are there. *)
Record uids_ok (w : world) : Prop := {
  i_db : db_ok (db w);
  i_reserved : reserved_ok (ReservedUids (db w));
  i_builtin : forall u, (u, true) ∈ accts (db w) -> (u < MIN_AUTO_XID)%Z;
  i_distinct : NoDup (List.filter (fun u => MIN_AUTO_XID <=? u)%Z (accts (db w)).*1);
  i_pending : NoDup (pend_uids w);
  i_held : Forall (fun x => (MIN_AUTO_XID <= pe_uid x.2)%Z /\ pe_uid x.2 ∉ (accts (db w)).*1
             /\ Dict.get (pe_uid x.2) (ReservedUids (db w)) = Some (x.1 + LOCKED_XID_TTL)%Z) (pend_users w);
}.

Lemma free_uid d u : (forall v, (v, true) ∈ accts d -> (v < MIN_AUTO_XID)%Z) -> (MIN_AUTO_XID <= u)%Z -> u ∉ allocated d -> u ∉ (accts d).*1.
Proof.
  intros Hb Hu Hn ([v b] & -> & Hin)%list_elem_of_fmap. simpl in *. destruct b; [apply Hb in Hin; lia|]. apply Hn.
  unfold accts, allocated in *. change (map ?f ?l) with (f <$> l) in *. apply list_elem_of_fmap in Hin as (r & [= -> E] & Hr).
  apply list_elem_of_fmap. exists r. split; [done|]. apply filter_elem. rewrite <-E. split; [done|]. by apply Z.leb_le.
Qed.

(** A step that adds no account and leaves the reservations of the creations. *)
Lemma uids_ok_shrink w d : uids_ok w -> db_ok d -> reserved_ok (ReservedUids d) -> accts d `sublist_of` accts (db w) ->
  (forall x, x ∈ pend_users w -> Dict.get (pe_uid x.2) (ReservedUids d) = Dict.get (pe_uid x.2) (ReservedUids (db w))) -> uids_ok (on_db d w).
Proof.
  intros [H1 H2 H3 H4 H5 H6] Hd Hr Ha Hp. constructor; try done; simpl.
  - intros u Hu. apply H3. by eapply sublist_subseteq.
  - eapply sublist_NoDup; [exact H4|]. by apply bool_filter_sublist, fmap_sublist.
  - rewrite Forall_forall in *. intros x Hx. destruct (H6 x Hx) as (F1 & F2 & F3). split_and!; [done| |by rewrite Hp].
    intros Hin. apply F2. eapply sublist_subseteq; [apply fmap_sublist, Ha|exact Hin].
Qed.

Lemma uids_ok_steady w d : uids_ok w -> db_ok d -> ReservedUids d = ReservedUids (db w) /\ accts d `sublist_of` accts (db w) -> uids_ok (on_db d w).
Proof. intros Hw Hd [E Ha]. apply uids_ok_shrink; rewrite ?E; try done. apply Hw. Qed.

(** No creation in progress has outlived its reservation. *)
Definition in_time (e : uenv) (w : world) : Prop := Forall (fun x => clock (base e) <= x.1 + LOCKED_XID_TTL)%Z (pend_users w).

(** When a uid is chosen the creations in progress hold theirs, and a new creation
    leaves the uid to the service. *)
Definition on_time (l : label) (w : world) : Prop :=
  match l with
  | LUserBegin e x _ => ud_uid x = None /\ in_time e w
  | LNextUid e => in_time e w
  | _ => True
  end.

Lemma in_time_live e w : in_time e w -> uids_ok w ->
  forall y, y ∈ pend_users w -> live (clock (base e)) (pe_uid y.2) (ReservedUids (db w)) = true.
Proof.
  unfold in_time. intros Ht Hw y Hy. pose proof (i_held _ Hw) as Hh. rewrite Forall_forall in Hh, Ht. destruct (Hh y Hy) as (_ & _ & E).
  unfold live. rewrite E. specialize (Ht y Hy). apply negb_true_iff, Z.ltb_ge. lia.
Qed.

Lemma begin_uids_ok e x gc w : on_time (LUserBegin e x gc) w -> uids_ok w -> uids_ok (exec (LUserBegin e x gc) w).
Proof.
  intros [Hx Ht] Hw. pose proof (exec_db_ok (LUserBegin e x gc) w (i_db _ Hw)) as Hd. simpl in *.
  destruct (user_create_begin_uid e x gc Hx (db w) (i_reserved _ Hw)) as (H1 & H2 & H3 & H4).
  pose proof (in_time_live e w Ht Hw) as Hl.
  destruct (user_create_begin e x gc (db w)) as [d [p|z]]; simpl in *.
  - assert (uids_ok (on_db d w)) as Hk by (apply uids_ok_shrink; auto).
    destruct H4 as (F1 & F2 & F3 & F4). destruct Hk. constructor; try done; simpl in *.
    + unfold pend_uids in *. simpl. rewrite map_app. simpl. apply NoDup_app. split_and!; [done| |apply NoDup_singleton].
      intros u Hu ->%list_elem_of_singleton. change (map ?f ?l) with (f <$> l) in Hu. apply list_elem_of_fmap in Hu as (y & E & Hy).
      rewrite E, (Hl y Hy) in F3. done.
    + apply Forall_app. split; [done|]. apply Forall_singleton. simpl. split_and!; [done| |done]. by apply free_uid.
  - apply uids_ok_shrink; auto.
Qed.

Lemma end_uids_ok e i w : uids_ok w -> uids_ok (exec (LUserEnd e i) w).
Proof.
  intros Hw. pose proof (exec_db_ok (LUserEnd e i) w (i_db _ Hw)) as Hd. simpl in *. destruct (pend_users w !! i) as [[t p]|] eqn:Ei; [|done].
  destruct (user_create_end_adds e p (db w)) as [[T1 T2] Ha]. set (d := (user_create_end e p (db w)).1) in *. simpl in *.
  assert ((t, p) ∈ pend_users w) as Hin by (by eapply list_elem_of_lookup_2).
  destruct Hw as [H1 H2 H3 H4 H5 H6]. rewrite Forall_forall in H6. destruct (H6 _ Hin) as (F1 & F2 & _). simpl in *.
  assert (forall y, y ∈ delete i (pend_users w) -> y ∈ pend_users w /\ pe_uid y.2 ≠ pe_uid p) as Hdel.
  { intros y Hy. pose proof (sublist_delete (pend_users w) i) as Hs. split; [by eapply sublist_subseteq|]. intros E.
    unfold pend_uids in H5. rewrite <-(take_drop_middle _ _ _ Ei) in H5. rewrite delete_take_drop in Hy.
    rewrite map_app in H5. simpl in H5. apply NoDup_app in H5 as (_ & Hn & [Hn2 _]%NoDup_cons). apply elem_of_app in Hy as [Hy|Hy].
    - apply (Hn (pe_uid y.2)); [change (map ?f ?l) with (f <$> l); apply list_elem_of_fmap; by exists y|]. rewrite E. by left.
    - apply Hn2. rewrite <-E. change (map ?f ?l) with (f <$> l). apply list_elem_of_fmap. by exists y. }
  constructor; simpl; try done.
  - auto.
  - intros u Hu. eapply sublist_subseteq in Hu; [|exact Ha]. apply elem_of_app in Hu as [Hu|Hu]; [auto|]. by apply list_elem_of_singleton in Hu.
  - eapply sublist_NoDup; [|apply bool_filter_sublist, fmap_sublist, Ha]. rewrite fmap_app, List.filter_app. simpl. 
    rewrite (proj2 (Z.leb_le _ _) F1). apply NoDup_app. split_and!; [done| |apply NoDup_singleton].
    intros u [Hu _]%filter_elem ->%list_elem_of_singleton. done.
  - eapply sublist_NoDup; [exact H5|]. apply (fmap_sublist (fun x => pe_uid x.2)), sublist_delete.
  - apply Forall_forall. intros y Hy. destruct (Hdel y Hy) as [Hy' Hne]. destruct (H6 y Hy') as (G1 & G2 & G3).
    split_and!; [done| |by rewrite T2]. intros Hu. eapply sublist_subseteq in Hu; [|apply fmap_sublist, Ha].
    rewrite fmap_app in Hu. apply elem_of_app in Hu as [Hu|Hu]; [done|]. by apply list_elem_of_singleton in Hu.
Qed.

Lemma next_uids_ok e w : in_time e w -> uids_ok w -> uids_ok (on_db (get_next_uid e (db w)).1 w).
Proof.
  intros Ht Hw. pose proof (quiet_keeps _ (quiet_next_uid e) _ (i_db _ Hw)) as Hd.
  destruct (next_uid_spec e (db w) (i_reserved _ Hw)) as (x & fl & E & _ & _ & _ & _ & H1 & _ & H2). rewrite E in *. simpl in *.
  apply uids_ok_shrink; [done..| ]. intros y Hy. apply H2. by apply in_time_live.
Qed.

Lemma exec_uids_ok l w : on_time l w -> uids_ok w -> uids_ok (exec l w).
Proof.
  intros Hl Hw. pose proof (exec_db_ok l w (i_db _ Hw)) as Hd. destruct l; simpl in *.
  - by apply begin_uids_ok.
  - by apply end_uids_ok.
  - apply uids_ok_steady; [done|done|]. by apply user_do_update_steady, Hw.
  - apply uids_ok_steady; [done|done|]. apply user_do_delete_steady.
  - apply uids_ok_steady; [done|done|]. apply set_password_steady.
  - pose proof (group_create_begin_steady (base e) data (db w)) as H. destruct (group_create_begin (base e) data (db w)) as [d [g|x]]; simpl in *;
      [|by apply uids_ok_steady]. pose proof (uids_ok_steady w d Hw Hd H) as []. by constructor.
  - destruct (pend_groups w !! i) as [[t g]|]; [|done].
    pose proof (uids_ok_steady w _ Hw Hd (group_create_end_steady (base e) t g true (db w))) as []. by constructor.
  - apply uids_ok_steady; [done|done|]. apply group_do_update_steady.
  - apply uids_ok_steady; [done|done|]. apply group_do_delete_steady.
  - apply uids_ok_steady; [done|done|]. apply privilege_create_steady.
  - apply uids_ok_steady; [done|done|]. apply privilege_update_steady.
  - apply uids_ok_steady; [done|done|]. apply privilege_delete_steady.
  - apply uids_ok_steady; [done|done|]. apply root_check_steady.
  - by apply next_uids_ok.
  - apply uids_ok_steady; [done|done|]. apply (steady_frames (get_next_gid (base e))); by apply frames_next_gid.
Qed.

End AccountUids.
