(* ===== verification/AccountSample.v ===== *)
(** * A system with its first administrator

    The tables of a system after [setup_local_administrator], an environment in which
    every call succeeds, and requests; the witnesses and the examples run on them. *)

From S2P Require Import Prelude PyDict PyStr PyVal PyFormat Errors Privilege AccountDb Groups Users AccountInv AccountRoot AccountUids.

Module AccountSample.
Import Acct Groups Users AccountInv AccountRoot AccountUids.

Definition sec0 : security_config := mkSec false None None [] None (Some 5%Z).

Definition aenv_at (now : Z) (sec : security_config) : aenv :=
  mkAenv (1700000000 + now) now (fun _ => Ok tt) [] [] true true sec "S-1-5-21" (fun s => Ok [s]) id (fun p => [p]) (fun _ => true)
    (fun _ => true) id ["FULL_ADMIN"; "READONLY_ADMIN"].

(** A hash is the password behind a mark. *)
Definition hash (p : string) : string := "$" +:+ p.

Definition uenv_with (now : Z) (sec : security_config) (tally : list string) : uenv :=
  mkUenv (aenv_at now sec) hash hash (fun p h => String.eqb (hash p) h) "random" false false tally (fun _ => []) false ["/usr/bin/zsh"]
    (fun _ p => String.eqb p "old") (fun _ => None) (fun _ => false) (fun _ => true) (fun _ => true) id (fun _ => 3)
    (fun _ => ([], "zfs")) (fun _ => []) ["/mnt/tank"] (fun _ => false) (fun _ => []) (fun _ => None) (fun _ => true).

Definition env_at (now : Z) : uenv := uenv_with now sec0 [].

Definition group0 (id gid : Z) (name : string) (builtin : bool) : group_row := mkGroup id gid name builtin [] [] false (IdmapInt 0).

Definition user0 (id uid : Z) (name password : string) (builtin : bool) (group : Z) : user_row :=
  mkUser id uid name (hash password) (hash password) DEFAULT_HOME_PATH "/usr/bin/zsh" name builtin false (IdmapInt 0) false false false [] []
    group None None None.

Definition db0 : adb :=
  mkDb [user0 1 0 "root" "A" true 3; user0 2 950 "truenas_admin" "A" false 6] 2
    [group0 1 544 "builtin_administrators" true; group0 2 545 "builtin_users" true; group0 3 0 "root" true; group0 4 65534 "nogroup" true;
     group0 5 446 "truenas_webshare" true; group0 6 950 "truenas_admin" false] 6
    [mkMember 1 1; mkMember 1 2]
    [mkPrivRow 1 (Some LOCAL_ADMINISTRATOR) (mkPrivilege "Local Administrator" [Gid 544] [] ["FULL_ADMIN"] true)] 1
    [] [] None [] [] [(0, "root"); (950, "truenas_admin")]%Z [] None [].

Definition world0 : world := mkWorld db0 [] [].

(** [user.create] with a name, a password, possibly a uid, and the group of the users. *)
Definition request (name : string) (uid : option Z) (group : Z) : user_data :=
  mkUD (Some name) None None None None (Some name) (Some false) None None uid (Some (Some group)) None (Some (Some "pw")) None None None None None
    None None None None None.

(** [user.update] with nothing in it. *)
Definition no_change : user_data :=
  mkUD None None None None None None None None None None None None None None None None None None None None None None None.

Definition admin_caller : caller := mkCaller true (Some "truenas_admin") false false.
Definition own_caller : caller := mkCaller false (Some "truenas_admin") false false.

(** ** The tables satisfy the invariants *)

Ltac decided := refine (proj1 (bool_decide_eq_true _) _); vm_compute; reflexivity.

Lemma db0_ok : db_ok db0.
Proof. constructor; decided. Qed.

Lemma db0_root : root_ok 1 1 db0.
Proof.
  constructor.
  - exists (user0 1 0 "root" "A" true 3). split; [by left|done].
  - exists (group0 1 544 "builtin_administrators" true). split; [by left|done].
  - by left.
  - eexists. split; [by left|]. simpl. repeat split; by left.
  - intros u Hu Hb. repeat (apply elem_of_cons in Hu as [->|Hu]); [|done|by apply elem_of_nil in Hu].
    exists (group0 3 0 "root" true). split; [do 2 right; by left|done].
Qed.

Lemma world0_uids : uids_ok world0.
Proof.
  constructor; [apply db0_ok|split; [decided|by intros k ?%elem_of_nil]| |decided|decided|decided].
  intros u Hu. repeat (apply elem_of_cons in Hu as [[= ->]|Hu]); [done|by apply elem_of_nil in Hu].
Qed.

End AccountSample.
