(* ===== verification/AccountProps.v ===== *)
(** * Properties of the account services

    The authority of the root user, the uids of new accounts, the changes of passwords,
    the roll back of a failed creation, and the modes of home directories. *)

From S2P Require Import Prelude PyDict PyStr PyVal PyFormat Errors Privilege AccountDb Groups Users AccountInv AccountRoot AccountUids AccountSample.

Module AccountProps.
Import Acct Groups Users AccountInv AccountRoot AccountUids AccountSample.

Definition run (ls : list label) (w : world) : world := foldl (fun w l => exec l w) w ls.


(** ** The root user *)



(** ** Uids *)

(** Every creation of the history leaves the uid to the service and finds the
    creations in progress younger than their reservations. *)
Fixpoint timely (ls : list label) (w : world) : Prop :=
  match ls with [] => True | l :: ls => on_time l w /\ timely ls (exec l w) end.

Lemma run_uids_ok ls w : timely ls w -> uids_ok w -> uids_ok (run ls w).
Proof. revert w. induction ls as [|l ls IH]; intros w; simpl; [done|]. intros [Hl Hls] Hw. apply IH; [done|]. by apply exec_uids_ok. Qed.

(** C35: Accounts that are created at the same time get different uids: when the service
    chooses the uids and the creations end before their reservations expire, the uids
    from 3000 on are distinct, whatever else is done in between. *)
Theorem created_uids_distinct ls w :
  uids_ok w -> timely ls w ->
  NoDup (List.filter (fun uid => MIN_AUTO_XID <=? uid)%Z (map u_uid (users (db (run ls w)))) ++ pend_uids (run ls w)).
Proof.
  intros Hw Ht. destruct (run_uids_ok ls w Ht Hw) as [_ _ _ H4 H5 H6].
  assert ((accts (db (run ls w))).*1 = map u_uid (users (db (run ls w)))) as E.
  { unfold accts. rewrite <-list_fmap_compose. done. }
  rewrite E in *. apply NoDup_app. split_and!; [done| |done]. intros x [Hx _]%filter_elem Hp.
  unfold pend_uids in Hp. change (map ?f ?l) with (f <$> l) in Hp. apply list_elem_of_fmap in Hp as (y & -> & Hy).
  rewrite Forall_forall in H6. by apply (H6 y Hy).
Qed.

Definition two_creations : list label :=
  [LUserBegin (env_at 10) (request "bob" None 2) false; LUserBegin (env_at 11) (request "eve" None 2) false;
   LUserEnd (env_at 12) 1; LUserEnd (env_at 13) 0].

Lemma created_uids_distinct_witness :
  NoDup (List.filter (fun uid => MIN_AUTO_XID <=? uid)%Z (map u_uid (users (db (run two_creations world0)))) ++ pend_uids (run two_creations world0))
  /\ map u_uid (users (db (run two_creations world0))) = [0; 950; 3001; 3000]%Z.
Proof.
  split; [|vm_compute; reflexivity]. apply (created_uids_distinct two_creations world0); [apply world0_uids|].
  repeat split; try done; vm_compute; repeat constructor; discriminate.
Defined.

(** The choice of a uid never fails, and it is the least from 3000 on that no account
    has and no creation in progress holds; the reservations that hold are kept. *)
Theorem next_uid_least e d : reserved_ok (ReservedUids d) ->
  exists x fl, get_next_uid e d = (set_ReservedUids fl d, Ok x)
    /\ (MIN_AUTO_XID <= x)%Z /\ x ∉ allocated d /\ live (clock (base e)) x (ReservedUids d) = false
    /\ (forall y, (MIN_AUTO_XID <= y < x)%Z -> y ∈ allocated d \/ live (clock (base e)) y (ReservedUids d) = true)
    /\ Dict.get x fl = Some (clock (base e) + LOCKED_XID_TTL)%Z
    /\ (forall k, live (clock (base e)) k (ReservedUids d) = true -> Dict.get k fl = Dict.get k (ReservedUids d)).
Proof.
  intros H. destruct (next_uid_spec e d H) as (x & fl & H1 & H2 & H3 & H4 & H5 & H6 & H7 & H8). exists x, fl. done.
Qed.

Definition reserved0 : adb := set_ReservedUids [(3000, 1000); (3001, 5000)]%Z db0.

Lemma next_uid_least_witness : exists x fl, get_next_uid (env_at 2000) reserved0 = (set_ReservedUids fl reserved0, Ok x)
  /\ x = 3000%Z /\ Dict.get 3001%Z fl = Some 5000%Z.
Proof.
  destruct (next_uid_least (env_at 2000) reserved0) as (x & fl & E & _ & _ & _ & _ & _ & Hk).
  - split; [decided|]. intros k Hk. repeat (apply elem_of_cons in Hk as [->|Hk]); [done|done|by apply elem_of_nil in Hk].
  - exists x, fl. split; [exact E|]. split; [|exact (Hk 3001%Z eq_refl)].
    assert ((get_next_uid (env_at 2000) reserved0).2 = Ok 3000%Z) as E2 by (vm_compute; reflexivity). rewrite E in E2. by injection E2.
Defined.

(** ** Passwords *)

Lemma bind_ok_inv {A B} (m : op A) (f : A -> op B) d d' b :
  (m ≫= f) d = (d', Ok b) -> exists a d1, m d = (d1, Ok a) /\ f a d1 = (d', Ok b).
Proof. unfold mbind, ste_mbind. destruct (m d) as [d1 [a|x]]; [|done]. eauto. Qed.

Lemma foldl_add_nil {A} a m n (l : list A) v : foldl (fun v _ => VErrors.add a m n v) v l = [] -> v = [] /\ l = [].
Proof.
  revert v. induction l as [|x l IH]; intros v; simpl; [done|]. intros [H _]%IH. unfold VErrors.add in H. by destruct v.
Qed.

Lemma security_nil e f p h v : password_security_validate e f p h v = [] ->
  v = [] /\ check_password_complexity (password_complexity_ruleset (security (base e))) p = []
  /\ (forall n, positive (min_password_length (security (base e))) = Some n -> (n <= Z.of_nat (String.length p))%Z)
  /\ (forall n, positive (password_history_length (security (base e))) = Some n ->
        forall x, x ∈ take (Z.to_nat n) (rev h) -> check_unixhash e p x = false).
Proof.
  unfold password_security_validate. set (v1 := add_if _ _ _ _ v). set (v2 := match positive (min_password_length _) with Some n => _ | None => _ end).
  intros H.
  assert (v2 = [] /\ forall n, positive (password_history_length (security (base e))) = Some n -> repeats e p h n = []) as [E2 Hh].
  { destruct (positive (password_history_length _)) as [n|]; [|done]. destruct (repeats e p h n) as [|x l] eqn:E.
    - split; [exact H|]. by intros m [= <-].
    - exfalso. by apply foldl_add_nil in H as [_ ?]. }
  assert (v1 = [] /\ forall n, positive (min_password_length (security (base e))) = Some n -> (n <= Z.of_nat (String.length p))%Z) as [E1 Hn].
  { unfold v2 in E2. destruct (positive (min_password_length _)) as [n|]; [|done]. apply add_if_nil in E2 as [E2 E1]. split; [done|].
    intros m [= <-]. by apply Z.ltb_ge in E2. }
  apply add_if_nil in E1 as [E1%is_nonempty_false E0]. split_and!; [done..|]. intros n En x Hx. by apply (filter_nil _ _ _ (Hh n En)).
Qed.

Lemma old_password_nil e c n o : old_password_errors e c n o = [] ->
  full_admin c = true \/ otp_login c = true \/ exists q, o = Some q /\ pam_authenticates e n q = true.
Proof.
  unfold old_password_errors. destruct (full_admin c); [by left|]. destruct (otp_login c); [by right; left|]. simpl.
  destruct o as [q|]; [|done]. intros [H _]%add_if_nil. apply negb_false_iff in H. right. right. by exists q.
Qed.

(** The hashes the policy compares a new password with: the history and the present
    password, the most recent at the end. *)
Definition past (u : user_row) : list string := (match u_password_history u with Some h => words h | None => [] end) ++ [u_unixhash u].

Definition old_enough (e : uenv) (c : caller) (u : user_row) : Prop :=
  forall n, positive (min_password_age (security (base e))) = Some n ->
  full_admin c = true \/ change_required c = true \/ exists age, password_age e (u_last_password_change u) = Some age /\ (n <= age)%Z.

Lemma extend_fields e d u o : user_extend e d u = Ok o ->
  ue_row o = shown_row e u /\ ue_history o ++ [u_unixhash (ue_row o)] = past u /\ ue_password_age o = password_age e (u_last_password_change u).
Proof. unfold user_extend. destruct (group_by_name _ d); [|done]. by intros [= <-]. Qed.

Lemma quiet_tables_ok {A} (m : op A) d d' r : quiet m -> m d = (d', r) -> tables d' = tables d.
Proof. intros H E. specialize (H d). by rewrite E in H. Qed.

Lemma update_row_cases pk f d d' r : update_user_row pk f d = (d', r) ->
  (d' = d /\ exists x, r = Err x) \/
  (r = Ok tt /\ d' = set_users (map (fun x => if (u_id x =? pk)%Z then set_u_id pk (f x) else x) (users d)) d).
Proof. unfold update_user_row. destruct (find_user pk d); [|intros [= <- <-]; left; eauto]. destruct (_ || _); intros [= <- <-]; [left; eauto|by right]. Qed.

(** The first part raises, or it returns and the second part runs. *)
Lemma bind_cases {A B} (m : op A) (f : A -> op B) d d' r :
  (m ≫= f) d = (d', r) -> (exists x, m d = (d', Err x) /\ r = Err x) \/ exists a d1, m d = (d1, Ok a) /\ f a d1 = (d', r).
Proof. unfold mbind, ste_mbind. destruct (m d) as [d1 [a|x]]; [eauto|]. intros [= <- <-]. left. eauto. Qed.

(** The checks between the password policy and the write. *)
Lemma account_checks e c u o (recent : bool) d d1 a :
  ue_row o = shown_row e u -> ue_password_age o = password_age e (u_last_password_change u) ->
  (match positive (min_password_age (security (base e))) with
   | Some n => if full_admin c || change_required c then mret false
               else age ← expect (ue_password_age o) a; mret (age <? n)%Z
   | None => mret false
   end : op bool) d = (d1, Ok recent) -> recent = false -> old_enough e c u.
Proof.
  intros Er Ea H -> n Hn. rewrite Hn in H. destruct (full_admin c); [by left|]. destruct (change_required c); [by right; left|].
  simpl in H. rewrite Ea in H. unfold mbind, ste_mbind, expect in H. destruct (password_age _ _) as [age|]; [|done].
  injection H as _ H%Z.ltb_ge. right. right. by exists age.
Qed.

(** What [set_password] demands before it writes the row [u] of the account [n]. *)
Definition password_accepted (e : uenv) (c : caller) (n : string) (o : option string) (p : string) (u : user_row) : Prop :=
  (full_admin c = true \/ (session_user c = Some n /\ (otp_login c = true \/ exists q, o = Some q /\ pam_authenticates e n q = true)))
  /\ u_locked u = false /\ u_password_disabled u = false /\ old_enough e c u
  /\ check_password_complexity (password_complexity_ruleset (security (base e))) p = []
  /\ (forall m, positive (min_password_length (security (base e))) = Some m -> (m <= Z.of_nat (String.length p))%Z)
  /\ (forall m, positive (password_history_length (security (base e))) = Some m ->
        forall h, h ∈ take (Z.to_nat m) (rev (past u)) -> check_unixhash e p h = false).

(** C34: [user.set_password], whatever its outcome: either it raises and no table has
    changed, or the caller is a full administrator or the account itself, with its old
    password or after a login with a one-time password, the account is not locked and has
    password authentication, its password is old enough, the new one has the demanded
    length and complexity and matches none of the last passwords as the history of the
    account reads; and then the tables are as before but for the row of the account,
    which has the new hashes, history and date. *)
Theorem set_password_guarded e c n o p d d' r :
  set_password e c n o p d = (d', r) ->
  (tables d' = tables d /\ exists x, r = Err x) \/
  exists u, user_by_name n d = Some u /\ password_accepted e c n o p u /\
    tables d' = tables (set_users (map (fun x => if (u_id x =? u_id u)%Z then set_u_id (u_id u) (password_row e p (past u) x) else x) (users d)) d).
Proof.
  unfold set_password. intros [(x & [= <- _] & ->)|([] & d1 & H1 & H)]%bind_cases; [left; eauto|]. injection H1 as <- H1.
  assert (full_admin c || bool_decide (session_user c = Some n) = true) as Hc by (by destruct (_ || _)). clear H1.
  apply bind_cases in H as [(x & [= <- _] & ->)|(f & d2 & H2 & H)]; [left; eauto|]. injection H2 as <- H2. destruct f as [x| |]; [|injection H as <- <-; left; eauto..].
  unfold find_entry in H2. destruct (user_by_name n d) as [u|] eqn:Hu; [|by repeat case_match].
  apply result_bind_ok in H2 as (x' & H2 & E). injection E as ->. apply extend_fields in H2 as (Er & Eh & Ea). cbv zeta in H. rewrite Eh in H.
  apply bind_cases in H as [(y & [= <- _] & ->)|([] & d3 & H3 & H)]; [left; eauto|]. injection H3 as <- H3%check_nil%security_nil.
  destruct H3 as (Hold%old_password_nil & P1 & P2 & P3).
  apply bind_cases in H as [(y & H4 & ->)|(recent & d4 & H4 & H)];
    (assert (quiet (match positive (min_password_age (security (base e))) with
      | Some n => if full_admin c || change_required c then mret false
                  else age ← expect (ue_password_age x) (TypeError "'<' not supported between instances of 'NoneType' and 'int'"); mret (age <? n)%Z
      | None => mret false end : op bool)) as Hq by (destruct (positive (min_password_age _)); quiet_steps));
    pose proof (quiet_tables_ok _ _ _ _ Hq H4) as T4; [left; eauto|].
  apply bind_cases in H as [(y & [= <- _] & ->)|([] & d5 & H5 & H)]; [left; eauto|]. injection H5 as <- H5%check_nil.
  apply add_if_nil in H5 as [Hlock H5]. apply add_if_nil in H5 as [Hdis H5]. apply add_if_nil in H5 as [Hrec _].
  apply bind_cases in H as [(y & H6 & ->)|([] & d6 & H6 & H)]; apply update_row_cases in H6 as [[-> (z & Hz)]|[Hz ->]]; try done; [left; eauto|]. right.
  match type of H with _ _ = (d', r) => pose proof (fun Q => quiet_tables_ok _ _ _ _ Q H) as T6 end.
  exists u. rewrite Er in Hlock, Hdis, H. simpl in Hlock, Hdis. apply orb_false_iff in Hlock as [Hlock _]. split; [done|]. split.
  - split_and!; [|done..| |done|done|done].
    + destruct (full_admin c); [by left|]. simpl in Hc. apply bool_decide_eq_true in Hc. right. split; [done|]. destruct Hold as [?|Hold]; [done|exact Hold].
    + eapply account_checks; [exact Er|exact Ea|exact H4|exact Hrec].
  - rewrite T6 by quiet_steps. rewrite Er. unfold tables in *. simpl in *. injection T4 as -> -> -> -> -> -> -> ->. done.
Qed.

Lemma set_password_guarded_witness :
  let r := set_password (env_at 100) own_caller "truenas_admin" (Some "old") "new" db0 in
  r.2 = Ok tt /\ exists u, user_by_name "truenas_admin" db0 = Some u /\
    password_accepted (env_at 100) own_caller "truenas_admin" (Some "old") "new" u /\ members r.1 = members db0.
Proof.
  cbv zeta. destruct (set_password (env_at 100) own_caller "truenas_admin" (Some "old") "new" db0) as [d' [[]|x]] eqn:E; [|by vm_compute in E].
  split; [done|]. destruct (set_password_guarded _ _ _ _ _ _ _ _ E) as [[_ [x [=]]]|(u & Hu & Ha & T)]. exists u. split; [exact Hu|]. split; [exact Ha|].
  unfold tables in T. simpl in T. by injection T.
Defined.

(** ** The history of passwords *)

(** A hash is a word: it is not empty and has no blanks. *)
Fixpoint no_blanks (s : string) : bool := match s with EmptyString => true | String c s => negb (Str.is_blank c) && no_blanks s end.
Definition is_word (s : string) : Prop := s ≠ "" /\ no_blanks s = true.

(** The letters of a word go to the word in progress. *)
Lemma words_letters w s acc : no_blanks w = true -> words_aux (w +:+ s) acc = words_aux s (acc +:+ w).
Proof.
  revert acc. induction w as [|c w IH]; intros acc; simpl; [by rewrite Str.app_nil_r|]. intros [Hc Hw]%andb_true_iff.
  apply negb_true_iff in Hc. rewrite Hc, IH by done. by rewrite Str.app_assoc.
Qed.

Lemma words_join l : Forall is_word l -> words (Str.join " " l) = l.
Proof.
  unfold words. induction l as [|w l IH]; [done|]. intros [[Hne Hw] Hl]%Forall_cons. destruct l as [|w' l].
  - change (Str.join " " [w]) with w. rewrite <-(Str.app_nil_r w) at 1. rewrite words_letters by done. simpl. by destruct w.
  - change (Str.join " " (w :: w' :: l)) with (w +:+ String (Ascii.ascii_of_nat 32) (Str.join " " (w' :: l))). rewrite words_letters by done.
    change ("" +:+ w) with w. simpl words_aux. destruct w as [|c w]; [done|]. f_equal. by apply IH.
Qed.

(** What [user.update] stores as the history of passwords is what the next query
    reads: the blanks between the hashes separate them again. *)
Theorem history_roundtrip e o x :
  let h := default (ue_history o) (ud_password_history x) in
  Forall is_word h ->
  match u_password_history (updated_row e o x) with Some s => words s | None => [] end = h.
Proof.
  cbv zeta. intros H. unfold updated_row. destruct (hashes _ _ _). simpl. by apply words_join.
Qed.

Definition entry0 : uentry :=
  mkUE (user0 2 950 "truenas_admin" "C" false 6) [] None true false None ["$A"; "$B"] None false ∅ None [] false.

Lemma history_roundtrip_witness :
  match u_password_history (updated_row (env_at 0) entry0 no_change) with Some s => words s | None => [] end = ["$A"; "$B"].
Proof. apply (history_roundtrip (env_at 0) entry0 no_change). repeat constructor; discriminate. Defined.

(** ** Roll back *)










(** ** Modes of home directories *)

Lemma add_length a m n v : length (VErrors.add a m n v) = S (length v).
Proof. unfold VErrors.add. rewrite length_app. simpl. lia. Qed.

Lemma add_if_same b a m n v w : add_if b a m n v = w -> length w <= length v -> b = false /\ v = w.
Proof. unfold add_if. destruct b; [|done]. intros <-. rewrite add_length. lia. Qed.

Lemma land_bit o k : (0 <= k)%Z -> (Z.land o (2 ^ k) =? 0)%Z = negb (Z.testbit o k).
Proof.
  intros Hk. destruct (Z.testbit o k) eqn:E; simpl.
  - apply Z.eqb_neq. intros H. assert (Z.testbit (Z.land o (2 ^ k)) k = true) as Hb by (by rewrite Z.land_spec, E, Z.pow2_bits_true).
    rewrite H, Z.bits_0 in Hb. done.
  - apply Z.eqb_eq. apply Z.bits_inj'. intros n Hn. rewrite Z.land_spec, Z.bits_0. destruct (decide (n = k)) as [->|Hne]; [by rewrite E|].
    rewrite Z.pow2_bits_false by done. apply andb_false_r.
Qed.

Lemma nine_bits o : (o =? Z.land o 511)%Z = true <-> (0 <= o < 512)%Z.
Proof.
  rewrite Z.eqb_eq. change 511%Z with (Z.ones 9). rewrite Z.land_ones by lia. split.
  - intros ->. by apply Z.mod_pos_bound.
  - intros H. by rewrite Z.mod_small.
Qed.

(** A mode is accepted for a home directory exactly when it is an octal number of at
    most nine bits with which its owner can read the directory and enter it. *)
Theorem home_mode_accepted schema mode v :
  validate_home_mode schema mode v = v <->
  exists o, int_octal mode = Some o /\ (0 <= o < 512)%Z /\ Z.testbit o 8 = true /\ Z.testbit o 6 = true.
Proof.
  unfold validate_home_mode. destruct (int_octal mode) as [o|].
  - destruct (o =? Z.land o 511)%Z eqn:E.
    + change 256%Z with (2 ^ 8)%Z. change 64%Z with (2 ^ 6)%Z. rewrite !land_bit by lia. apply nine_bits in E. split.
      * intros H. assert (negb (Z.testbit o 6) = false /\ negb (Z.testbit o 8) = false) as [H6 H8].
        { unfold add_if in H. destruct (negb (Z.testbit o 6)), (negb (Z.testbit o 8)); try done;
            apply (f_equal length) in H; rewrite !add_length in H; lia. }
        apply negb_false_iff in H6, H8. by exists o.
      * intros (o' & [= <-] & _ & -> & ->). done.
    + split; [intros H%(f_equal length); rewrite add_length in H; lia|]. intros (o' & [= <-] & H%nine_bits & _). congruence.
  - split; [intros H%(f_equal length); rewrite add_length in H; lia|]. by intros (o & ? & _).
Qed.

End AccountProps.
