(* ===== verification/AccountDemo.v ===== *)
(** * Runs of the account services

    Executions on the sample that show where the services do not keep what they
    promise elsewhere. *)

From S2P Require Import Prelude PyDict PyStr PyVal PyFormat Errors Privilege AccountDb Groups Users AccountInv AccountRoot AccountUids AccountSample AccountProps.

Module AccountDemo.
Import Acct Groups Users AccountInv AccountSample AccountProps.

(** The sample after the password of the root user is disabled. *)
Definition root_disabled : adb :=
  set_users (map (fun u => if (u_id u =? 1)%Z then
                             mkUser 1 0 "root" "*" "*" DEFAULT_HOME_PATH "/usr/bin/zsh" "root" true false (IdmapInt 0) true false false [] [] 3 None None None
                           else u) (users db0)) db0.

(** The only local administrator cannot be deleted with [user.delete], which refuses
    it as immutable, but [group.delete] of its primary group with [delete_users]
    deletes it; the system then counts as one without an administrator, for which
    [setup_local_administrator] is open to everybody again. *)
Theorem group_delete_bypasses_guards :
  (user_do_delete (env_at 1) None 2 false root_disabled).2 = Err (CallError "Cannot delete an immutable user" EINVAL)
  /\ before_user_delete 2 root_disabled
     = Err (CallError "After deleting this user no local user will have built-in privilege 'Local Administrator'." EACCES)
  /\ has_local_administrator_set_up root_disabled = Ok true
  /\ let r := group_do_delete (aenv_at 1 sec0) 6 true root_disabled in
     r.2 = Ok 6%Z /\ map u_username (users r.1) = ["root"] /\ has_local_administrator_set_up r.1 = Ok false
     /\ setup_local_administrator_checks (env_at 2) "truenas_admin" r.1 = Ok tt.
Proof. vm_compute. repeat split. Qed.

(** The state after a change of the password by an administrator, when it succeeds. *)
Definition changed_to (p : string) (o : option adb) : option adb :=
  d ← o; match set_password (env_at 1) admin_caller "truenas_admin" None p d with (d, Ok _) => Some d | (_, Err _) => None end.

(** With a policy that forbids the last five passwords, a password is refused while
    it is the last but one and is accepted again two changes later: the history
    [set_password] stores has a comma behind every hash but the last one. *)
Theorem set_password_reuse :
  let d := changed_to "C" (changed_to "B" (Some db0)) in
  password_history_length (security (base (env_at 1))) = Some 5%Z
  /\ changed_to "A" (changed_to "B" (Some db0)) = None
  /\ (d' ← d; u ← user_by_name "truenas_admin" d'; Some (past u)) = Some ["$A,"; "$B"; "$C"]
  /\ (d' ← changed_to "A" d; u ← user_by_name "truenas_admin" d'; Some (u_unixhash u)) = Some (hash "A").
Proof. vm_compute. repeat split. Qed.

(** The sample without its administrator. *)
Definition no_admin : world := mkWorld (group_do_delete (aenv_at 1 sec0) 6 true root_disabled).1 [] [].

Definition with_bob : world :=
  run [LUserBegin (env_at 10) (request "bob" None 1) false; LUserEnd (env_at 11) 0] no_admin.

(** A user whose primary group is that of the administrators and who is in no other
    group is a full administrator with a password, but is not counted as one. *)
Theorem admin_without_membership :
  (match user_by_name "bob" (db with_bob) with
   | Some u => bool_decide ("FULL_ADMIN" ∈ user_roles (db with_bob) (groups_of (u_id u) (db with_bob) ++ [u_group u])) && password_enabled u
   | None => false
   end) = true
  /\ has_local_administrator_set_up (db with_bob) = Ok false
  /\ setup_local_administrator_checks (env_at 12) "truenas_admin" (db with_bob) = Ok tt.
Proof. vm_compute. repeat split. Qed.

(** Two creations that ask for the same uid at the same time both succeed. *)
Theorem explicit_uid_race :
  map (fun u => (u_username u, u_uid u))
    (users (db (run [LUserBegin (env_at 10) (request "bob" (Some 4000%Z) 2) false; LUserBegin (env_at 11) (request "eve" (Some 4000%Z) 2) false;
                     LUserEnd (env_at 12) 0; LUserEnd (env_at 13) 0] world0)))
  = [("root", 0); ("truenas_admin", 950); ("bob", 4000); ("eve", 4000)]%Z.
Proof. vm_compute. reflexivity. Qed.

(** Under the STIG a user is shown as locked while the tally of failed logins locks
    it, and an update that changes nothing makes that lock permanent. *)
Definition stig : security_config := mkSec true None None [] None None.

Theorem tally_lock_persists :
  let w := run [LUserBegin (env_at 10) (request "bob" None 2) false; LUserEnd (env_at 11) 0] world0 in
  let r := user_do_update (uenv_with 12 stig ["bob"]) None 3 no_change (db w) in
  option_map u_locked (user_by_name "bob" (db w)) = Some false
  /\ r.2 = Ok tt /\ ResetTally "bob" ∈ calls r.1 /\ option_map u_locked (user_by_name "bob" r.1) = Some true.
Proof.
  cbv zeta. split; [vm_compute; reflexivity|]. split; [vm_compute; reflexivity|]. split; [|vm_compute; reflexivity].
  vm_compute. repeat first [by left | right].
Qed.

(** *** Calls that overlap *)

(** [group.update] up to the deletion of the rows of its members; the rows that it
    inserts next, with an await at each. *)
Definition group_update_cut (e : aenv) (pk : Z) (data : group_data) : op (list member) :=
  if (BASE_SYNTHETIC_DATASTORE_ID <? pk)%Z then raise (ds_refused "Groups" "modified through")
  else
    g ← group_get_instance e pk;
    let data := if bool_decide (gd_gid data = Some (g_gid (ge_row g)))
                then mkGD (gd_name data) None (gd_smb data) (gd_sudo_commands data) (gd_sudo_commands_nopasswd data)
                       (gd_userns_idmap data) (gd_users data) else data in
    _ ← verify (fun d => v ← group_common_validation e "group_update" data (Some pk) d; Ok (validate_builtin_group g data v));
    let r := group_update_row g data in
    _ ← (if changed (gd_name data) (g_group (ge_row g)) then when (g_smb r) (ext e (AddGroupmap pk (g_group r)))
         else if g_smb r && negb (g_smb (ge_row g)) then ext e (AddGroupmap pk (g_group r))
         else when (g_smb (ge_row g) && negb (g_smb r)) (ext e (DelGroupmap pk)));
    primary ← gets (primary_users pk);
    _ ← update_group_row pk (fun _ => r);
    _ ← modify (fun d => set_members (List.filter (fun m => negb (m_group m =? pk)%Z) (members d)) d);
    mret (map (fun u => mkMember pk u) (List.filter (fun u => negb (bool_decide (u ∈ primary))) (default (ge_users g) (gd_users data)))).

(** The cut is in the middle of the call. *)
Lemma group_update_parts e pk data d :
  group_do_update e pk data d = (l ← group_update_cut e pk data; _ ← add_members l; _ ← ext e ReloadUser; mret pk) d.
Proof.
  unfold group_do_update, group_update_cut. destruct (_ <? pk)%Z; [done|]. unfold mbind, ste_mbind, set_group_users, modify, mbind, ste_mbind.
  repeat match goal with |- context [let (_, _) := ?x in _] => destruct x as [? [?|?]]; [|done] end. done.
Qed.

(** The administrators are given the members bob, root and truenas_admin, and while their
    rows are being replaced the row of bob is deleted, by a [user.delete] whose checks
    passed before: his membership cannot be inserted any more, the update fails, and the
    root user has lost the role FULL_ADMIN. *)
Theorem overlapping_member_update :
  let w := run [LUserBegin (env_at 10) (request "bob" None 2) false; LUserEnd (env_at 11) 0] world0 in
  let begun := group_update_cut (base (env_at 12)) 1 (mkGD None None None None None None (Some [3; 1; 2]%Z)) (db w) in
  let deleted := delete_user 3 begun.1 in
  (user_do_delete (env_at 12) None 3 false (db w)).2 = Ok 3%Z /\
  begun.2 = Ok [mkMember 1 3; mkMember 1 1; mkMember 1 2] /\ deleted.2 = Ok tt /\
  let ended := add_members [mkMember 1 3; mkMember 1 1; mkMember 1 2] deleted.1 in
  ended.2 = Err IntegrityError /\
  match user_by_name "root" ended.1 with
  | Some u => bool_decide ("FULL_ADMIN" ∈ user_roles ended.1 (groups_of (u_id u) ended.1 ++ [u_group u])) = false
  | None => False
  end.
Proof. vm_compute. repeat split. Qed.

End AccountDemo.
