(* ===== verification/Ipaddr.v ===== *)
(** * Internet addresses (the [ipaddress] module of Python)

    What the network services use of it: [ip_address], the version of an address,
    [ip_network(..., strict=False)], membership, [overlaps] and the texts of
    addresses and networks.  An address is its version, its 32 or 128 bit integer
    and, for version 6, the scope after a percent sign. *)

From Stdlib Require Import Ascii.
From S2P Require Import Prelude PyDict PyStr PyVal PyFormat.

Module Ip.

Inductive version := V4 | V6.

#[global] Instance version_eq_dec : EqDecision version.
Proof. solve_decision. Defined.

(** [_max_prefixlen] *)
Definition width (v : version) : Z := match v with V4 => 32 | V6 => 128 end.

Record t := mkIp { ver : version; num : Z; scope : option string }.

#[global] Instance ip_eq_dec : EqDecision t.
Proof. solve_decision. Defined.

Definition dot : ascii := ascii_of_nat 46.
Definition colon : ascii := ascii_of_nat 58.
Definition slash : ascii := ascii_of_nat 47.
Definition per_cent : ascii := ascii_of_nat 37.

(** ** Reading addresses *)

(** [IPv4Address._parse_octet]: at most three digits, no leading zero. *)
Definition parse_octet (s : string) : option Z :=
  if Str.isdigit s && (String.length s <=? 3) && (negb (Str.startswith "0" s) || String.eqb s "0") && (Str.to_Z s <=? 255)%Z
  then Some (Str.to_Z s) else None.

Definition parse_v4 (s : string) : option Z :=
  match Str.split dot s with
  | [a; b; c; d] =>
      a ← parse_octet a; b ← parse_octet b; c ← parse_octet c; d ← parse_octet d;
      Some (((a * 256 + b) * 256 + c) * 256 + d)%Z
  | _ => None
  end.

Definition hex_value (c : ascii) : option Z :=
  let n := nat_of_ascii c in
  if (48 <=? n) && (n <=? 57) then Some (Z.of_nat (n - 48))
  else if (97 <=? n) && (n <=? 102) then Some (Z.of_nat (n - 87))
  else if (65 <=? n) && (n <=? 70) then Some (Z.of_nat (n - 55))
  else None.

Fixpoint hex_acc (acc : Z) (s : string) : option Z :=
  match s with
  | EmptyString => Some acc
  | String c s => d ← hex_value c; hex_acc (acc * 16 + d) s
  end.

(** [IPv6Address._parse_hextet] *)
Definition parse_hextet (s : string) : option Z :=
  if (1 <=? String.length s) && (String.length s <=? 4) then hex_acc 0 s else None.

Fixpoint hextets (l : list string) : option (list Z) :=
  match l with
  | [] => Some []
  | s :: l => x ← parse_hextet s; xs ← hextets l; Some (x :: xs)
  end.

Definition join16 (l : list Z) : Z := foldl (fun acc x => acc * 65536 + x)%Z 0%Z l.

Definition is_empty (s : string) : bool := String.eqb s "".

(** The parts with an address of version 4 at the end replaced by two numbers. *)
Definition v4_tail (parts : list string) : option (list string * list Z) :=
  let l := default "" (last parts) in
  if Str.contains dot l then
    x ← parse_v4 l; Some (removelast parts, [(x / 65536)%Z; (x mod 65536)%Z])
  else Some (parts, []).

(** Around the double colon: the empty text that is not at an end. *)
Definition double_colon (parts : list string) : list nat :=
  List.filter (fun i => is_empty (default "" (parts !! i))) (seq 1 (length parts - 2)).

(** [IPv6Address._ip_int_from_string]: an empty first or last part may only be next
    to the double colon, which stands for at least one group. *)
Definition parse_v6 (s : string) : option Z :=
  let parts := Str.split colon s in
  if length parts <? 3 then None else
  '(parts, tail) ← v4_tail parts;
  let shown := parts ++ map (fun _ => "0") tail in
  if 9 <? length shown then None else
  match double_colon shown with
  | [] =>
      if length shown =? 8 then l ← hextets parts; Some (join16 (l ++ tail)) else None
  | [i] =>
      let hi := take i parts in
      let lo := drop (S i) parts in
      let hi_ok := match hi with h :: r => if is_empty h then if bool_decide (r = []) then Some [] else None else Some hi | [] => Some [] end in
      let lo_ok :=
        match tail with
        | [] => match last lo with Some h => if is_empty h then if length lo =? 1 then Some [] else None else Some lo | None => Some [] end
        | _ => Some lo
        end in
      hi ← hi_ok; lo ← lo_ok;
      hi ← hextets hi; lo ← hextets lo;
      let n := length hi + length lo + length tail in
      if n <? 8 then Some (join16 (hi ++ replicate (8 - n) 0%Z ++ lo ++ tail)) else None
  | _ => None
  end.

(** [IPv6Address._split_scope_id] *)
Definition split_scope (s : string) : option (string * option string) :=
  match Str.find per_cent s with
  | None => Some (s, None)
  | Some i =>
      let sc := Str.drop (S i) s in
      if is_empty sc || Str.contains per_cent sc then None else Some (Str.take i s, Some sc)
  end.

(** [ip_address]; [None] is its [ValueError]. *)
Definition ip_address (s : string) : option t :=
  if Str.contains slash s then None
  else match parse_v4 s with
       | Some n => Some (mkIp V4 n None)
       | None =>
           '(a, sc) ← split_scope s; n ← parse_v6 a; Some (mkIp V6 n sc)
       end.

(** ** Networks *)

(** The network address, without host bits, and the length of the prefix. *)
Record network := mkNet { net_ver : version; net_num : Z; net_scope : option string; prefixlen : Z }.

#[global] Instance network_eq_dec : EqDecision network.
Proof. solve_decision. Defined.

(** [2 ** (max_prefixlen - prefixlen)] *)
Definition size (v : version) (p : Z) : Z := 2 ^ (width v - p).

(** [ip_network(f'{a}/{p}', strict=False)]: the scope is lost with the host bits. *)
Definition ip_network (a : string) (p : Z) : option network :=
  x ← ip_address a;
  if (0 <=? p)%Z && (p <=? width (ver x))%Z then
    let n := (num x / size (ver x) p * size (ver x) p)%Z in
    Some (mkNet (ver x) n (if (n =? num x)%Z then scope x else None) p)
  else None.

Definition net_size (n : network) : Z := size (net_ver n) (prefixlen n).
Definition broadcast (n : network) : Z := (net_num n + net_size n - 1)%Z.

(** [_BaseNetwork.__contains__]: the address without its host bits is the network. *)
Definition contains (n : network) (v : version) (x : Z) : bool :=
  bool_decide (v = net_ver n) && (x / net_size n * net_size n =? net_num n)%Z.

(** [_BaseNetwork.overlaps] *)
Definition overlaps (m n : network) : bool :=
  contains m (net_ver n) (net_num n) || contains m (net_ver n) (broadcast n)
  || contains n (net_ver m) (net_num m) || contains n (net_ver m) (broadcast m).

(** ** Interfaces *)

(** [_prefix_from_ip_int]: ones, then zeroes. *)
Definition prefix_from_ip_int (n : Z) : option Z :=
  List.find (fun p => (n =? 2 ^ 32 - 2 ^ (32 - p))%Z) (map Z.of_nat (List.seq 0 33)).

(** [_make_netmask] of a text: a length, or for version 4 a mask or its complement. *)
Definition make_netmask (v : version) (s : string) : option Z :=
  if Str.isdigit s then if (Str.to_Z s <=? width v)%Z then Some (Str.to_Z s) else None
  else match v with
       | V4 => n ← parse_v4 s; match prefix_from_ip_int n with Some p => Some p | None => prefix_from_ip_int (2 ^ 32 - 1 - n) end
       | V6 => None
       end.

(** [ip_interface(f'{a}/{m}')]: the address and the length of the prefix *)
Definition ip_interface (a m : string) : option (t * Z) := x ← ip_address a; p ← make_netmask (ver x) m; Some (x, p).

(** [ip.network.broadcast_address] *)
Definition interface_broadcast (x : t) (p : Z) : Z := (num x / size (ver x) p * size (ver x) p + size (ver x) p - 1)%Z.

(** ** Texts *)

Definition str_v4 (n : Z) : string :=
  Str.join "." (map (fun k => pretty (n / 2 ^ k mod 256)%Z) [24; 16; 8; 0]%Z).

Fixpoint hex_digits (fuel : nat) (n : Z) (acc : string) : string :=
  match fuel with
  | O => acc
  | S fuel =>
      let acc := String (Fmt.hex_digit (Z.to_nat (n mod 16))) acc in
      if (n / 16 =? 0)%Z then acc else hex_digits fuel (n / 16) acc
  end.

Definition groups (n : Z) : list string :=
  map (fun k => hex_digits 4 (n / 2 ^ k mod 65536)%Z "") [112; 96; 80; 64; 48; 32; 16; 0]%Z.

(** The longest run of zero groups from [i] on, the first of them. *)
Fixpoint zero_run (l : list string) : nat :=
  match l with s :: l => if String.eqb s "0" then S (zero_run l) else 0 | [] => 0 end.

Fixpoint best_run (l : list string) (i : nat) (best : nat * nat) : nat * nat :=
  match l with
  | [] => best
  | _ :: l' => best_run l' (S i) (if snd best <? zero_run l then (i, zero_run l) else best)
  end.

(** [_compress_hextets] *)
Definition compress (l : list string) : list string :=
  let '(i, n) := best_run l 0 (0, 0) in
  if 1 <? n then
    (if i =? 0 then [""] else []) ++ take i l ++ [""] ++ drop (i + n) l ++ (if i + n =? length l then [""] else [])
  else l.

Definition with_scope (s : string) (sc : option string) : string := match sc with Some x => s +:+ "%" +:+ x | None => s end.

Definition str_num (v : version) (n : Z) (sc : option string) : string :=
  match v with V4 => str_v4 n | V6 => with_scope (Str.join ":" (compress (groups n))) sc end.

(** [str(address)] and [str(network)] *)
Definition str (a : t) : string := str_num (ver a) (num a) (scope a).
Definition str_net (n : network) : string := str_num (net_ver n) (net_num n) (net_scope n) +:+ "/" +:+ pretty (prefixlen n).

(** ** Facts *)

Lemma overlaps_comm m n : overlaps m n = overlaps n m.
Proof.
  unfold overlaps. set (a := contains m _ _). set (b := contains m _ _). set (c := contains n _ _). set (d := contains n _ _).
  by destruct a, b, c, d.
Qed.

Lemma contains_range n v x : (0 < net_size n)%Z -> net_num n = (net_num n / net_size n * net_size n)%Z ->
  contains n v x = true <-> v = net_ver n /\ (net_num n <= x < net_num n + net_size n)%Z.
Proof.
  intros Hs Hn. unfold contains. rewrite andb_true_iff, bool_decide_eq_true, Z.eqb_eq. apply and_iff_compat_l.
  set (s := net_size n) in *. split.
  - intros <-. pose proof (Z.mul_div_le x s Hs). pose proof (Z.mul_succ_div_gt x s Hs). lia.
  - intros [H1 H2]. replace (x / s)%Z with (net_num n / s)%Z; [done|]. apply (Z.div_unique x s _ (x - net_num n)); lia.
Qed.

(** A network has addresses, and the first is a multiple of their number. *)
Lemma ip_network_ok a p n : ip_network a p = Some n -> (0 < net_size n)%Z /\ net_num n = (net_num n / net_size n * net_size n)%Z.
Proof.
  unfold ip_network. destruct (ip_address a) as [x|]; simpl; [|done]. destruct ((0 <=? p)%Z && (p <=? width (ver x))%Z) eqn:E; [|done].
  apply andb_true_iff in E as [E1%Z.leb_le E2%Z.leb_le]. intros [= <-]. unfold net_size. simpl.
  assert (0 < size (ver x) p)%Z by (apply Z.pow_pos_nonneg; lia). split; [done|]. by rewrite Z.div_mul by lia.
Qed.

(** Networks that do not overlap have no address in common. *)
Lemma overlaps_disjoint a p m b q n v x :
  ip_network a p = Some m -> ip_network b q = Some n -> overlaps m n = false -> contains m v x && contains n v x = false.
Proof.
  intros [Sm Nm]%ip_network_ok [Sn Nn]%ip_network_ok H. apply not_true_iff_false. intros [Hm Hn]%andb_true_iff.
  apply contains_range in Hm as [-> Hm]; [|done..]. apply contains_range in Hn as [Hv Hn]; [|done..].
  apply not_true_iff_false in H. apply H. unfold overlaps. rewrite !orb_true_iff.
  destruct (Z.le_ge_cases (net_num m) (net_num n)).
  - left. left. left. apply contains_range; [done..|]. split; [done|lia].
  - left. right. apply contains_range; [done..|]. split; [done|lia].
Qed.

End Ip.
