(* ===== verification/NetDb.v ===== *)
(** * The network tables (the models of plugins/network.py, plugins/datastore/write.py)

    The rows of interfaces, aliases, bridges, VLANs, link aggregations and their
    members, and the writes of the datastore with the constraints of the database:
    unique columns, foreign keys and their cascades.  A table keeps the last id it
    gave ([sqlite_autoincrement]); rows are listed in the order of their ids.  A write
    that violates a constraint raises; the writes before it stay, as the connection
    is in autocommit mode. *)

From S2P Require Import Prelude PyDict PyStr PyVal Errors.

Module NetDb.

(** ** Tables *)

Class Row (R : Type) := {
  rid : R -> Z;
  with_rid : Z -> R -> R;
  rid_with_rid i r : rid (with_rid i r) = i;
  with_rid_same r : with_rid (rid r) r = r;
}.

Record table (R : Type) := mkTable { rows : list R; seq : Z }.
Arguments mkTable {R} _ _.
Arguments rows {R} _.
Arguments seq {R} _.

Section table.
Context {R : Type} `{!Row R}.

Definition has_id (i : Z) (l : list R) : bool := existsb (fun r => rid r =? i)%Z l.

(** An insert, with the id of the data when it has one. *)
Definition add_row (id : option Z) (ok : bool) (r : R) (t : table R) : option (table R * Z) :=
  let i := default (seq t + 1)%Z id in
  if ok && negb (has_id i (rows t)) then Some (mkTable (rows t ++ [with_rid i r]) (Z.max (seq t) i), i) else None.

Definition drop_rows (p : R -> bool) (t : table R) : table R := mkTable (List.filter (fun r => negb (p r)) (rows t)) (seq t).

(** The row with the id, changed; the id stays. *)
Definition edit_row (i : Z) (f : R -> R) (t : table R) : table R :=
  mkTable (map (fun r => if (rid r =? i)%Z then with_rid i (f r) else r) (rows t)) (seq t).
End table.

(** ** Rows *)

(** An integer column in which the empty text is stored when there is no address. *)
Inductive num_col := NumInt (n : Z) | NumEmpty.

#[global] Instance num_col_eq_dec : EqDecision num_col.
Proof. solve_decision. Defined.

Record iface_row := mkIface {
  i_id : Z;
  int_interface : string;
  int_name : string;
  int_dhcp : bool;
  int_address : string;
  int_address_b : string;
  int_version : num_col;
  int_netmask : num_col;
  int_ipv6auto : bool;
  int_vip : option string;
  int_vhid : option Z;
  int_critical : bool;
  int_group : option Z;
  int_mtu : option Z;
  int_fec_mode : option string;
}.

Record alias_row := mkAlias {
  a_id : Z;
  alias_interface : Z;
  alias_address : string;
  alias_version : num_col;
  alias_netmask : num_col;
  alias_address_b : string;
  alias_vip : string;
}.

Record bridge_row := mkBridge { b_id : Z; b_members : list string; b_interface : Z; b_stp : bool; b_enable_learning : bool }.

Record lagg_row := mkLagg {
  l_id : Z;
  lagg_interface : Z;
  lagg_protocol : string;
  lagg_xmit_hash_policy : option string;
  lagg_lacpdu_rate : option string;
}.

Record member_row := mkMember { m_id : Z; lagg_ordernum : Z; lagg_physnic : string; lagg_interfacegroup : Z }.

Record vlan_row := mkVlan {
  v_id : Z;
  vlan_vint : string;
  vlan_pint : string;
  vlan_tag : Z;
  vlan_description : string;
  vlan_pcp : option Z;
}.

Record link_row := mkLink { k_id : Z; k_interface : string; k_link_address : option string; k_link_address_b : option string }.

#[global] Instance iface_row_eq_dec : EqDecision iface_row.
Proof. solve_decision. Defined.
#[global] Instance alias_row_eq_dec : EqDecision alias_row.
Proof. solve_decision. Defined.
#[global] Instance bridge_row_eq_dec : EqDecision bridge_row.
Proof. solve_decision. Defined.
#[global] Instance lagg_row_eq_dec : EqDecision lagg_row.
Proof. solve_decision. Defined.
#[global] Instance member_row_eq_dec : EqDecision member_row.
Proof. solve_decision. Defined.
#[global] Instance vlan_row_eq_dec : EqDecision vlan_row.
Proof. solve_decision. Defined.

#[global] Program Instance iface_Row : Row iface_row := {
  rid := i_id;
  with_rid i r := mkIface i (int_interface r) (int_name r) (int_dhcp r) (int_address r) (int_address_b r) (int_version r)
    (int_netmask r) (int_ipv6auto r) (int_vip r) (int_vhid r) (int_critical r) (int_group r) (int_mtu r) (int_fec_mode r) }.
Next Obligation. done. Qed.
Next Obligation. by intros []. Qed.
#[global] Program Instance alias_Row : Row alias_row := {
  rid := a_id;
  with_rid i r := mkAlias i (alias_interface r) (alias_address r) (alias_version r) (alias_netmask r) (alias_address_b r) (alias_vip r) }.
Next Obligation. done. Qed.
Next Obligation. by intros []. Qed.
#[global] Program Instance bridge_Row : Row bridge_row := {
  rid := b_id; with_rid i r := mkBridge i (b_members r) (b_interface r) (b_stp r) (b_enable_learning r) }.
Next Obligation. done. Qed.
Next Obligation. by intros []. Qed.
#[global] Program Instance lagg_Row : Row lagg_row := {
  rid := l_id; with_rid i r := mkLagg i (lagg_interface r) (lagg_protocol r) (lagg_xmit_hash_policy r) (lagg_lacpdu_rate r) }.
Next Obligation. done. Qed.
Next Obligation. by intros []. Qed.
#[global] Program Instance member_Row : Row member_row := {
  rid := m_id; with_rid i r := mkMember i (lagg_ordernum r) (lagg_physnic r) (lagg_interfacegroup r) }.
Next Obligation. done. Qed.
Next Obligation. by intros []. Qed.
#[global] Program Instance vlan_Row : Row vlan_row := {
  rid := v_id; with_rid i r := mkVlan i (vlan_vint r) (vlan_pint r) (vlan_tag r) (vlan_description r) (vlan_pcp r) }.
Next Obligation. done. Qed.
Next Obligation. by intros []. Qed.
#[global] Program Instance link_Row : Row link_row := {
  rid := k_id; with_rid i r := mkLink i (k_interface r) (k_link_address r) (k_link_address_b r) }.
Next Obligation. done. Qed.
Next Obligation. by intros []. Qed.

(** ** The database *)

(** The columns [gc_nameserver1] to [gc_nameserver3] of the global configuration are
    in [nameservers], by name. *)
Record db := mkDb {
  interfaces : table iface_row;
  alias : table alias_row;
  bridge : table bridge_row;
  vlan : table vlan_row;
  lagg : table lagg_row;
  laggmembers : table member_row;
  link_address : table link_row;
  ipv4gateway : string;
  nameservers : list (string * string);
}.

Definition set_interfaces v d := mkDb v (alias d) (bridge d) (vlan d) (lagg d) (laggmembers d) (link_address d) (ipv4gateway d) (nameservers d).
Definition set_alias v d := mkDb (interfaces d) v (bridge d) (vlan d) (lagg d) (laggmembers d) (link_address d) (ipv4gateway d) (nameservers d).
Definition set_bridge v d := mkDb (interfaces d) (alias d) v (vlan d) (lagg d) (laggmembers d) (link_address d) (ipv4gateway d) (nameservers d).
Definition set_vlan v d := mkDb (interfaces d) (alias d) (bridge d) v (lagg d) (laggmembers d) (link_address d) (ipv4gateway d) (nameservers d).
Definition set_lagg v d := mkDb (interfaces d) (alias d) (bridge d) (vlan d) v (laggmembers d) (link_address d) (ipv4gateway d) (nameservers d).
Definition set_laggmembers v d := mkDb (interfaces d) (alias d) (bridge d) (vlan d) (lagg d) v (link_address d) (ipv4gateway d) (nameservers d).
Definition set_link_address v d := mkDb (interfaces d) (alias d) (bridge d) (vlan d) (lagg d) (laggmembers d) v (ipv4gateway d) (nameservers d).
Definition set_ipv4gateway v d := mkDb (interfaces d) (alias d) (bridge d) (vlan d) (lagg d) (laggmembers d) (link_address d) v (nameservers d).
Definition set_nameservers v d := mkDb (interfaces d) (alias d) (bridge d) (vlan d) (lagg d) (laggmembers d) (link_address d) (ipv4gateway d) v.

Notation dop := (STE db exn).

Definition IntegrityError : exn := EOther "IntegrityError" "constraint failed".
Definition NoRowsWereUpdated : exn := EOther "NoRowsWereUpdatedException" "".
Definition NotOne (n : nat) : exn := EOther "RuntimeError" (pretty n +:+ " found, expecting one").

(** [try: m except Exception: h; raise] and [with suppress(Exception): m] *)
Definition rescue {S A} (m : STE S exn A) (h : STE S exn unit) : STE S exn A := fun s =>
  match m s with
  | (s, Ok a) => (s, Ok a)
  | (s, Err e) => match h s with (s, Ok _) => (s, Err e) | (s, Err e') => (s, Err e') end
  end.
Definition suppress {S} (m : STE S exn unit) : STE S exn unit := fun s => ((m s).1, Ok tt).

(** A loop over a list. *)
Fixpoint for_each {S A} (f : A -> STE S exn unit) (l : list A) : STE S exn unit :=
  match l with
  | [] => mret tt
  | x :: l => _ ← f x; for_each f l
  end.

(** ** Inserts *)

Definition stored {T} (put : T -> db -> db) (o : option (T * Z)) : dop Z := fun d =>
  match o with Some (t, i) => (put t d, Ok i) | None => (d, Err IntegrityError) end.

Definition insert_interfaces (id : option Z) (r : iface_row) : dop Z := fun d =>
  stored set_interfaces
    (add_row id (negb (existsb (fun x => String.eqb (int_interface x) (int_interface r)) (rows (interfaces d)))) r (interfaces d)) d.
Definition insert_alias (id : option Z) (r : alias_row) : dop Z := fun d =>
  stored set_alias (add_row id (has_id (alias_interface r) (rows (interfaces d))) r (alias d)) d.
Definition insert_bridge (id : option Z) (r : bridge_row) : dop Z := fun d =>
  stored set_bridge (add_row id (has_id (b_interface r) (rows (interfaces d))) r (bridge d)) d.
Definition insert_vlan (id : option Z) (r : vlan_row) : dop Z := fun d => stored set_vlan (add_row id true r (vlan d)) d.
Definition insert_lagg (id : option Z) (r : lagg_row) : dop Z := fun d =>
  stored set_lagg (add_row id (has_id (lagg_interface r) (rows (interfaces d))) r (lagg d)) d.
Definition insert_member (id : option Z) (r : member_row) : dop Z := fun d =>
  stored set_laggmembers
    (add_row id (has_id (lagg_interfacegroup r) (rows (lagg d))
                 && negb (existsb (fun x => String.eqb (lagg_physnic x) (lagg_physnic r)) (rows (laggmembers d)))) r (laggmembers d)) d.
Definition insert_link (r : link_row) : dop Z := fun d => stored set_link_address (add_row None true r (link_address d)) d.

(** ** Deletes, with their cascades *)

Definition delete_alias (p : alias_row -> bool) : dop unit := modify (fun d => set_alias (drop_rows p (alias d)) d).
Definition delete_vlan (p : vlan_row -> bool) : dop unit := modify (fun d => set_vlan (drop_rows p (vlan d)) d).
Definition delete_members (p : member_row -> bool) : dop unit := modify (fun d => set_laggmembers (drop_rows p (laggmembers d)) d).

(** The rows of a table whose foreign key leads to no row any more go. *)
Definition cascade_members (d : db) : db :=
  set_laggmembers (drop_rows (fun m => negb (has_id (lagg_interfacegroup m) (rows (lagg d)))) (laggmembers d)) d.
Definition delete_lagg (p : lagg_row -> bool) : dop unit := modify (fun d => cascade_members (set_lagg (drop_rows p (lagg d)) d)).

Definition cascade_interfaces (d : db) : db :=
  let gone i := negb (has_id i (rows (interfaces d))) in
  cascade_members
    (set_lagg (drop_rows (fun l => gone (lagg_interface l)) (lagg d))
       (set_bridge (drop_rows (fun b => gone (b_interface b)) (bridge d))
          (set_alias (drop_rows (fun a => gone (alias_interface a)) (alias d)) d))).
Definition delete_interfaces (p : iface_row -> bool) : dop unit :=
  modify (fun d => cascade_interfaces (set_interfaces (drop_rows p (interfaces d)) d)).

(** ** Updates *)

(** By id; a foreign key or a unique column of the new row is checked. *)
Definition update_interfaces (i : Z) (f : iface_row -> iface_row) : dop unit := fun d =>
  match List.find (fun r => i_id r =? i)%Z (rows (interfaces d)) with
  | None => (d, Err NoRowsWereUpdated)
  | Some r =>
      if existsb (fun x => negb (i_id x =? i)%Z && String.eqb (int_interface x) (int_interface (f r))) (rows (interfaces d))
      then (d, Err IntegrityError)
      else (set_interfaces (edit_row i f (interfaces d)) d, Ok tt)
  end.
Definition update_alias (i : Z) (f : alias_row -> alias_row) : dop unit := fun d =>
  match List.find (fun r => a_id r =? i)%Z (rows (alias d)) with
  | None => (d, Err NoRowsWereUpdated)
  | Some r =>
      if has_id (alias_interface (f r)) (rows (interfaces d)) then (set_alias (edit_row i f (alias d)) d, Ok tt)
      else (d, Err IntegrityError)
  end.
Definition update_link (i : Z) (f : link_row -> link_row) : dop unit := fun d =>
  if has_id i (rows (link_address d)) then (set_link_address (edit_row i f (link_address d)) d, Ok tt) else (d, Err NoRowsWereUpdated).

(** By filters, which have to find one row.  The fields that are foreign keys are
    not among those the service changes this way. *)
Definition update_one {R} `{!Row R} (get : db -> table R) (put : table R -> db -> db) (p : R -> bool) (f : R -> R) : dop Z := fun d =>
  match List.filter p (rows (get d)) with
  | [r] => (put (edit_row (rid r) f (get d)) d, Ok (rid r))
  | l => (d, Err (NotOne (length l)))
  end.

Definition set_b (members : option (list string)) (stp learning : option bool) (b : bridge_row) : bridge_row :=
  mkBridge (b_id b) (default (b_members b) members) (b_interface b) (default (b_stp b) stp) (default (b_enable_learning b) learning).
Definition update_bridge (interface : Z) (members : option (list string)) (stp learning : option bool) : dop Z :=
  update_one bridge set_bridge (fun b => b_interface b =? interface)%Z (set_b members stp learning).
Definition set_l (protocol : string) (xmit rate : option string) (l : lagg_row) : lagg_row :=
  mkLagg (l_id l) (lagg_interface l) protocol xmit rate.
Definition update_lagg (interface : Z) (protocol : string) (xmit rate : option string) : dop Z :=
  update_one lagg set_lagg (fun l => lagg_interface l =? interface)%Z (set_l protocol xmit rate).
Definition set_v (vint pint : string) (tag : Z) (pcp : option Z) (v : vlan_row) : vlan_row :=
  mkVlan (v_id v) vint pint tag (vlan_description v) pcp.
(** The columns of the parent and of the tag are not nullable. *)
Definition update_vlan (name vint : string) (pint : option string) (tag : option Z) (pcp : option Z) : dop Z :=
  let p v := String.eqb (vlan_vint v) name in
  match pint, tag with
  | Some pint, Some tag => update_one vlan set_vlan p (set_v vint pint tag pcp)
  | _, _ => fun d => (d, Err (match List.filter p (rows (vlan d)) with [_] => IntegrityError | l => NotOne (length l) end))
  end.

End NetDb.
