(* ===== verification/Ifaces.v ===== *)
(** * Interfaces as the API shows them (plugins/network.py, plugins/interface/)

    The dictionaries of the service [interface]: the data of a request and the entry
    [query] makes of the state of the kernel and of the rows of [NetDb].  A field of
    [idata] is [None] when the key is absent. *)

From S2P Require Import Prelude PyDict PyStr PyVal Errors Ipaddr NetDb.

Module Ifaces.
Import NetDb.

(** ** Texts *)

Definition upper_char (c : Ascii.ascii) : Ascii.ascii :=
  let n := Ascii.nat_of_ascii c in if (97 <=? n) && (n <=? 122) then Ascii.ascii_of_nat (n - 32) else c.
Fixpoint upper (s : string) : string :=
  match s with EmptyString => EmptyString | String c s => String (upper_char c) (upper s) end.

Definition nonempty (s : string) : bool := negb (String.eqb s "").

(** ** Types of interfaces (plugins/interface/interface_types.py) *)

Inductive itype := BRIDGE | LINK_AGGREGATION | PHYSICAL | UNKNOWN | VLAN.

#[global] Instance itype_eq_dec : EqDecision itype.
Proof. solve_decision. Defined.

Definition type_value (t : itype) : string :=
  match t with
  | BRIDGE => "BRIDGE" | LINK_AGGREGATION => "LINK_AGGREGATION" | PHYSICAL => "PHYSICAL" | UNKNOWN => "UNKNOWN" | VLAN => "VLAN"
  end.

Definition type_ (name : string) (cloned : bool) : itype :=
  if Str.startswith "br" name then BRIDGE
  else if Str.startswith "bond" name then LINK_AGGREGATION
  else if Str.startswith "vlan" name then VLAN
  else if negb cloned then PHYSICAL else UNKNOWN.

Definition DQ : string := String (Ascii.ascii_of_nat 34) "".

(** The text of the [ValueError], if any. *)
Definition validate_name (t : itype) (name : string) : option string :=
  match t with
  | BRIDGE =>
      if Str.startswith "br" name && Str.isdigit (Str.drop 2 name) then None
      else Some ("Bridge interface must start with " +:+ DQ +:+ "br" +:+ DQ +:+ " followed by an unique number.")
  | LINK_AGGREGATION =>
      if Str.startswith "bond" name && Str.isdigit (Str.drop 4 name) then None
      else Some ("Link aggregation interface must start with " +:+ DQ +:+ "bond" +:+ DQ +:+ " followed by an unique number.")
  | VLAN =>
      if Str.startswith "vlan" name && Str.isdigit (Str.drop 4 name) then None
      else Some ("VLAN interface must start with " +:+ DQ +:+ "vlan" +:+ DQ +:+ " followed by an unique number.")
  | _ => None
  end.

(** [interface.lag_supported_protocols] *)
Definition lag_supported_protocols : list string := ["LACP"; "FAILOVER"; "LOADBALANCE"].

(** ** Data *)

(** An alias; those of the standby node and the virtual ones may have no netmask. *)
Record ali := mkAli { al_type : string; al_address : string; al_netmask : option num_col }.

#[global] Instance ali_eq_dec : EqDecision ali.
Proof. solve_decision. Defined.

Record idata := mkData {
  d_name : option string;
  d_description : option string;
  d_ipv4_dhcp : option bool;
  d_ipv6_auto : option bool;
  d_aliases : option (list ali);
  d_failover_critical : option bool;
  d_failover_group : option (option Z);
  d_failover_vhid : option (option Z);
  d_failover_aliases : option (list ali);
  d_failover_virtual_aliases : option (list ali);
  d_bridge_members : option (list string);
  d_stp : option bool;
  d_enable_learning : option bool;
  d_lag_protocol : option string;
  d_xmit_hash_policy : option (option string);
  d_lacpdu_rate : option (option string);
  d_lag_ports : option (list string);
  d_vlan_parent_interface : option (option string);
  d_vlan_tag : option (option Z);
  d_vlan_pcp : option (option Z);
  d_mtu : option (option Z);
  d_fec_mode : option string;
}.

Definition no_data : idata := mkData None None None None None None None None None None None None None None None None None None None None None None.

Definition set_d_name (v : option string) (d : idata) : idata :=
  mkData v (d_description d) (d_ipv4_dhcp d) (d_ipv6_auto d) (d_aliases d) (d_failover_critical d) (d_failover_group d) (d_failover_vhid d) (d_failover_aliases d) (d_failover_virtual_aliases d) (d_bridge_members d) (d_stp d) (d_enable_learning d) (d_lag_protocol d) (d_xmit_hash_policy d) (d_lacpdu_rate d) (d_lag_ports d) (d_vlan_parent_interface d) (d_vlan_tag d) (d_vlan_pcp d) (d_mtu d) (d_fec_mode d).
Definition set_d_description (v : option string) (d : idata) : idata :=
  mkData (d_name d) v (d_ipv4_dhcp d) (d_ipv6_auto d) (d_aliases d) (d_failover_critical d) (d_failover_group d) (d_failover_vhid d) (d_failover_aliases d) (d_failover_virtual_aliases d) (d_bridge_members d) (d_stp d) (d_enable_learning d) (d_lag_protocol d) (d_xmit_hash_policy d) (d_lacpdu_rate d) (d_lag_ports d) (d_vlan_parent_interface d) (d_vlan_tag d) (d_vlan_pcp d) (d_mtu d) (d_fec_mode d).
Definition set_d_ipv4_dhcp (v : option bool) (d : idata) : idata :=
  mkData (d_name d) (d_description d) v (d_ipv6_auto d) (d_aliases d) (d_failover_critical d) (d_failover_group d) (d_failover_vhid d) (d_failover_aliases d) (d_failover_virtual_aliases d) (d_bridge_members d) (d_stp d) (d_enable_learning d) (d_lag_protocol d) (d_xmit_hash_policy d) (d_lacpdu_rate d) (d_lag_ports d) (d_vlan_parent_interface d) (d_vlan_tag d) (d_vlan_pcp d) (d_mtu d) (d_fec_mode d).
Definition set_d_ipv6_auto (v : option bool) (d : idata) : idata :=
  mkData (d_name d) (d_description d) (d_ipv4_dhcp d) v (d_aliases d) (d_failover_critical d) (d_failover_group d) (d_failover_vhid d) (d_failover_aliases d) (d_failover_virtual_aliases d) (d_bridge_members d) (d_stp d) (d_enable_learning d) (d_lag_protocol d) (d_xmit_hash_policy d) (d_lacpdu_rate d) (d_lag_ports d) (d_vlan_parent_interface d) (d_vlan_tag d) (d_vlan_pcp d) (d_mtu d) (d_fec_mode d).
Definition set_d_aliases (v : option (list ali)) (d : idata) : idata :=
  mkData (d_name d) (d_description d) (d_ipv4_dhcp d) (d_ipv6_auto d) v (d_failover_critical d) (d_failover_group d) (d_failover_vhid d) (d_failover_aliases d) (d_failover_virtual_aliases d) (d_bridge_members d) (d_stp d) (d_enable_learning d) (d_lag_protocol d) (d_xmit_hash_policy d) (d_lacpdu_rate d) (d_lag_ports d) (d_vlan_parent_interface d) (d_vlan_tag d) (d_vlan_pcp d) (d_mtu d) (d_fec_mode d).
Definition set_d_failover_critical (v : option bool) (d : idata) : idata :=
  mkData (d_name d) (d_description d) (d_ipv4_dhcp d) (d_ipv6_auto d) (d_aliases d) v (d_failover_group d) (d_failover_vhid d) (d_failover_aliases d) (d_failover_virtual_aliases d) (d_bridge_members d) (d_stp d) (d_enable_learning d) (d_lag_protocol d) (d_xmit_hash_policy d) (d_lacpdu_rate d) (d_lag_ports d) (d_vlan_parent_interface d) (d_vlan_tag d) (d_vlan_pcp d) (d_mtu d) (d_fec_mode d).
Definition set_d_failover_group (v : option (option Z)) (d : idata) : idata :=
  mkData (d_name d) (d_description d) (d_ipv4_dhcp d) (d_ipv6_auto d) (d_aliases d) (d_failover_critical d) v (d_failover_vhid d) (d_failover_aliases d) (d_failover_virtual_aliases d) (d_bridge_members d) (d_stp d) (d_enable_learning d) (d_lag_protocol d) (d_xmit_hash_policy d) (d_lacpdu_rate d) (d_lag_ports d) (d_vlan_parent_interface d) (d_vlan_tag d) (d_vlan_pcp d) (d_mtu d) (d_fec_mode d).
Definition set_d_failover_vhid (v : option (option Z)) (d : idata) : idata :=
  mkData (d_name d) (d_description d) (d_ipv4_dhcp d) (d_ipv6_auto d) (d_aliases d) (d_failover_critical d) (d_failover_group d) v (d_failover_aliases d) (d_failover_virtual_aliases d) (d_bridge_members d) (d_stp d) (d_enable_learning d) (d_lag_protocol d) (d_xmit_hash_policy d) (d_lacpdu_rate d) (d_lag_ports d) (d_vlan_parent_interface d) (d_vlan_tag d) (d_vlan_pcp d) (d_mtu d) (d_fec_mode d).
Definition set_d_failover_aliases (v : option (list ali)) (d : idata) : idata :=
  mkData (d_name d) (d_description d) (d_ipv4_dhcp d) (d_ipv6_auto d) (d_aliases d) (d_failover_critical d) (d_failover_group d) (d_failover_vhid d) v (d_failover_virtual_aliases d) (d_bridge_members d) (d_stp d) (d_enable_learning d) (d_lag_protocol d) (d_xmit_hash_policy d) (d_lacpdu_rate d) (d_lag_ports d) (d_vlan_parent_interface d) (d_vlan_tag d) (d_vlan_pcp d) (d_mtu d) (d_fec_mode d).
Definition set_d_failover_virtual_aliases (v : option (list ali)) (d : idata) : idata :=
  mkData (d_name d) (d_description d) (d_ipv4_dhcp d) (d_ipv6_auto d) (d_aliases d) (d_failover_critical d) (d_failover_group d) (d_failover_vhid d) (d_failover_aliases d) v (d_bridge_members d) (d_stp d) (d_enable_learning d) (d_lag_protocol d) (d_xmit_hash_policy d) (d_lacpdu_rate d) (d_lag_ports d) (d_vlan_parent_interface d) (d_vlan_tag d) (d_vlan_pcp d) (d_mtu d) (d_fec_mode d).
Definition set_d_bridge_members (v : option (list string)) (d : idata) : idata :=
  mkData (d_name d) (d_description d) (d_ipv4_dhcp d) (d_ipv6_auto d) (d_aliases d) (d_failover_critical d) (d_failover_group d) (d_failover_vhid d) (d_failover_aliases d) (d_failover_virtual_aliases d) v (d_stp d) (d_enable_learning d) (d_lag_protocol d) (d_xmit_hash_policy d) (d_lacpdu_rate d) (d_lag_ports d) (d_vlan_parent_interface d) (d_vlan_tag d) (d_vlan_pcp d) (d_mtu d) (d_fec_mode d).
Definition set_d_stp (v : option bool) (d : idata) : idata :=
  mkData (d_name d) (d_description d) (d_ipv4_dhcp d) (d_ipv6_auto d) (d_aliases d) (d_failover_critical d) (d_failover_group d) (d_failover_vhid d) (d_failover_aliases d) (d_failover_virtual_aliases d) (d_bridge_members d) v (d_enable_learning d) (d_lag_protocol d) (d_xmit_hash_policy d) (d_lacpdu_rate d) (d_lag_ports d) (d_vlan_parent_interface d) (d_vlan_tag d) (d_vlan_pcp d) (d_mtu d) (d_fec_mode d).
Definition set_d_enable_learning (v : option bool) (d : idata) : idata :=
  mkData (d_name d) (d_description d) (d_ipv4_dhcp d) (d_ipv6_auto d) (d_aliases d) (d_failover_critical d) (d_failover_group d) (d_failover_vhid d) (d_failover_aliases d) (d_failover_virtual_aliases d) (d_bridge_members d) (d_stp d) v (d_lag_protocol d) (d_xmit_hash_policy d) (d_lacpdu_rate d) (d_lag_ports d) (d_vlan_parent_interface d) (d_vlan_tag d) (d_vlan_pcp d) (d_mtu d) (d_fec_mode d).
Definition set_d_lag_protocol (v : option string) (d : idata) : idata :=
  mkData (d_name d) (d_description d) (d_ipv4_dhcp d) (d_ipv6_auto d) (d_aliases d) (d_failover_critical d) (d_failover_group d) (d_failover_vhid d) (d_failover_aliases d) (d_failover_virtual_aliases d) (d_bridge_members d) (d_stp d) (d_enable_learning d) v (d_xmit_hash_policy d) (d_lacpdu_rate d) (d_lag_ports d) (d_vlan_parent_interface d) (d_vlan_tag d) (d_vlan_pcp d) (d_mtu d) (d_fec_mode d).
Definition set_d_xmit_hash_policy (v : option (option string)) (d : idata) : idata :=
  mkData (d_name d) (d_description d) (d_ipv4_dhcp d) (d_ipv6_auto d) (d_aliases d) (d_failover_critical d) (d_failover_group d) (d_failover_vhid d) (d_failover_aliases d) (d_failover_virtual_aliases d) (d_bridge_members d) (d_stp d) (d_enable_learning d) (d_lag_protocol d) v (d_lacpdu_rate d) (d_lag_ports d) (d_vlan_parent_interface d) (d_vlan_tag d) (d_vlan_pcp d) (d_mtu d) (d_fec_mode d).
Definition set_d_lacpdu_rate (v : option (option string)) (d : idata) : idata :=
  mkData (d_name d) (d_description d) (d_ipv4_dhcp d) (d_ipv6_auto d) (d_aliases d) (d_failover_critical d) (d_failover_group d) (d_failover_vhid d) (d_failover_aliases d) (d_failover_virtual_aliases d) (d_bridge_members d) (d_stp d) (d_enable_learning d) (d_lag_protocol d) (d_xmit_hash_policy d) v (d_lag_ports d) (d_vlan_parent_interface d) (d_vlan_tag d) (d_vlan_pcp d) (d_mtu d) (d_fec_mode d).
Definition set_d_lag_ports (v : option (list string)) (d : idata) : idata :=
  mkData (d_name d) (d_description d) (d_ipv4_dhcp d) (d_ipv6_auto d) (d_aliases d) (d_failover_critical d) (d_failover_group d) (d_failover_vhid d) (d_failover_aliases d) (d_failover_virtual_aliases d) (d_bridge_members d) (d_stp d) (d_enable_learning d) (d_lag_protocol d) (d_xmit_hash_policy d) (d_lacpdu_rate d) v (d_vlan_parent_interface d) (d_vlan_tag d) (d_vlan_pcp d) (d_mtu d) (d_fec_mode d).
Definition set_d_vlan_parent_interface (v : option (option string)) (d : idata) : idata :=
  mkData (d_name d) (d_description d) (d_ipv4_dhcp d) (d_ipv6_auto d) (d_aliases d) (d_failover_critical d) (d_failover_group d) (d_failover_vhid d) (d_failover_aliases d) (d_failover_virtual_aliases d) (d_bridge_members d) (d_stp d) (d_enable_learning d) (d_lag_protocol d) (d_xmit_hash_policy d) (d_lacpdu_rate d) (d_lag_ports d) v (d_vlan_tag d) (d_vlan_pcp d) (d_mtu d) (d_fec_mode d).
Definition set_d_vlan_tag (v : option (option Z)) (d : idata) : idata :=
  mkData (d_name d) (d_description d) (d_ipv4_dhcp d) (d_ipv6_auto d) (d_aliases d) (d_failover_critical d) (d_failover_group d) (d_failover_vhid d) (d_failover_aliases d) (d_failover_virtual_aliases d) (d_bridge_members d) (d_stp d) (d_enable_learning d) (d_lag_protocol d) (d_xmit_hash_policy d) (d_lacpdu_rate d) (d_lag_ports d) (d_vlan_parent_interface d) v (d_vlan_pcp d) (d_mtu d) (d_fec_mode d).
Definition set_d_vlan_pcp (v : option (option Z)) (d : idata) : idata :=
  mkData (d_name d) (d_description d) (d_ipv4_dhcp d) (d_ipv6_auto d) (d_aliases d) (d_failover_critical d) (d_failover_group d) (d_failover_vhid d) (d_failover_aliases d) (d_failover_virtual_aliases d) (d_bridge_members d) (d_stp d) (d_enable_learning d) (d_lag_protocol d) (d_xmit_hash_policy d) (d_lacpdu_rate d) (d_lag_ports d) (d_vlan_parent_interface d) (d_vlan_tag d) v (d_mtu d) (d_fec_mode d).
Definition set_d_mtu (v : option (option Z)) (d : idata) : idata :=
  mkData (d_name d) (d_description d) (d_ipv4_dhcp d) (d_ipv6_auto d) (d_aliases d) (d_failover_critical d) (d_failover_group d) (d_failover_vhid d) (d_failover_aliases d) (d_failover_virtual_aliases d) (d_bridge_members d) (d_stp d) (d_enable_learning d) (d_lag_protocol d) (d_xmit_hash_policy d) (d_lacpdu_rate d) (d_lag_ports d) (d_vlan_parent_interface d) (d_vlan_tag d) (d_vlan_pcp d) v (d_fec_mode d).
Definition set_d_fec_mode (v : option string) (d : idata) : idata :=
  mkData (d_name d) (d_description d) (d_ipv4_dhcp d) (d_ipv6_auto d) (d_aliases d) (d_failover_critical d) (d_failover_group d) (d_failover_vhid d) (d_failover_aliases d) (d_failover_virtual_aliases d) (d_bridge_members d) (d_stp d) (d_enable_learning d) (d_lag_protocol d) (d_xmit_hash_policy d) (d_lacpdu_rate d) (d_lag_ports d) (d_vlan_parent_interface d) (d_vlan_tag d) (d_vlan_pcp d) (d_mtu d) v.

(** [{**d, **new}]: what is in [new] replaces what is in [d]. *)
Definition or_old {A} (n o : option A) : option A := match n with Some a => Some a | None => o end.
Definition merge (d new : idata) : idata :=
  mkData (or_old (d_name new) (d_name d))
    (or_old (d_description new) (d_description d))
    (or_old (d_ipv4_dhcp new) (d_ipv4_dhcp d))
    (or_old (d_ipv6_auto new) (d_ipv6_auto d))
    (or_old (d_aliases new) (d_aliases d))
    (or_old (d_failover_critical new) (d_failover_critical d))
    (or_old (d_failover_group new) (d_failover_group d))
    (or_old (d_failover_vhid new) (d_failover_vhid d))
    (or_old (d_failover_aliases new) (d_failover_aliases d))
    (or_old (d_failover_virtual_aliases new) (d_failover_virtual_aliases d))
    (or_old (d_bridge_members new) (d_bridge_members d))
    (or_old (d_stp new) (d_stp d))
    (or_old (d_enable_learning new) (d_enable_learning d))
    (or_old (d_lag_protocol new) (d_lag_protocol d))
    (or_old (d_xmit_hash_policy new) (d_xmit_hash_policy d))
    (or_old (d_lacpdu_rate new) (d_lacpdu_rate d))
    (or_old (d_lag_ports new) (d_lag_ports d))
    (or_old (d_vlan_parent_interface new) (d_vlan_parent_interface d))
    (or_old (d_vlan_tag new) (d_vlan_tag d))
    (or_old (d_vlan_pcp new) (d_vlan_pcp d))
    (or_old (d_mtu new) (d_mtu d))
    (or_old (d_fec_mode new) (d_fec_mode d)).

(** ** The environment *)

(** An interface as the kernel has it; [st_oserror]: reading its state fails. *)
Record istate := mkState {
  st_cloned : bool;
  st_bus : string;
  st_aliases : list (string * string);  (** type and address *)
  st_hardware_link_address : string;
  st_oserror : bool;
}.

(** What the service asks others for.  [sync_outcome] is the outcome of [sync] on
    the tables as they are. *)
Record nenv := mkNenv {
  kernel : list (string * istate);
  internal_interfaces : list string;
  is_ha_capable : bool;
  chassis_hardware : string;
  failover_licensed : bool;
  failover_status : string;
  failover_disabled : bool;
  failover_node : string;
  is_ix_hardware : bool;
  is_enterprise : bool;
  available_fec_modes : string -> list string;
  app_used_host_ips : result exn (list (string * list string));
  post_rollback_outcome : result exn unit;
  sync_outcome : db -> result exn unit;
}.

Definition ignore_usb_nics (e : nenv) : bool :=
  if is_ha_capable e then true
  else negb (String.eqb (chassis_hardware e) "TRUENAS-UNKNOWN" || Str.has_sub "MINI" (chassis_hardware e)).

(** ** Entries *)

(** [state['vrrp_config']]: the address of a master, [None] for a backup. *)
Record entry := mkEntry {
  en_name : string;  (** also its [id] *)
  en_fake : bool;
  en_type : itype;
  en_hardware_link_address : string;
  en_state_aliases : list (string * string);
  en_vrrp_config : list (option string);
  en_data : idata;
}.

Definition inet (v : num_col) : string := if bool_decide (v = NumInt 4) then "INET" else "INET6".
Definition host_bits (v : num_col) : num_col := NumInt (if bool_decide (v = NumInt 4) then 32 else 128).

(** The state of a virtual address: one of the addresses the kernel has or not. *)
Definition vrrp_state (aliases : list (string * string)) (vip : string) : option string :=
  if existsb (fun a => negb (String.eqb (fst a) "LINK") && String.eqb (snd a) vip) aliases then Some vip else None.

Definition vip_of (r : iface_row) : string := default "" (int_vip r).

Definition aliases_of (d : db) (r : iface_row) : list alias_row :=
  List.filter (fun a => alias_interface a =? i_id r)%Z (rows (alias d)).

(** [iface['aliases']]: the address of the row, unless both kinds of automatic
    configuration are on, then those of the alias table. *)
Definition shown_aliases (d : db) (r : iface_row) : list ali :=
  (if (negb (int_dhcp r) || negb (int_ipv6auto r)) && nonempty (int_address r)
   then [mkAli (inet (int_version r)) (int_address r) (Some (int_netmask r))] else [])
  ++ map (fun a => mkAli (inet (alias_version a)) (alias_address a) (Some (alias_netmask a)))
       (List.filter (fun a => nonempty (alias_address a)) (aliases_of d r)).

Definition shown_failover_aliases (d : db) (r : iface_row) : list ali :=
  (if nonempty (int_address_b r) then [mkAli (inet (int_version r)) (int_address_b r) (Some (int_netmask r))] else [])
  ++ map (fun a => mkAli (inet (alias_version a)) (alias_address_b a) (Some (alias_netmask a)))
       (List.filter (fun a => nonempty (alias_address_b a)) (aliases_of d r)).

Definition shown_virtual_aliases (d : db) (r : iface_row) : list ali :=
  (if nonempty (vip_of r) then [mkAli (inet (int_version r)) (vip_of r) (Some (host_bits (int_version r)))] else [])
  ++ map (fun a => mkAli (inet (alias_version a)) (alias_vip a) (Some (host_bits (alias_version a))))
       (List.filter (fun a => nonempty (alias_vip a)) (aliases_of d r)).

Definition shown_vrrp (st : list (string * string)) (d : db) (r : iface_row) : list (option string) :=
  (if nonempty (vip_of r) then [vrrp_state st (vip_of r)] else [])
  ++ map (fun a => vrrp_state st (alias_vip a)) (aliases_of d r).

(** The part of a bridge, of a link aggregation and of a VLAN. *)
Definition bridge_part (d : db) (r : iface_row) (x : idata) : idata :=
  let '(m, s, l) :=
    match List.find (fun b => b_interface b =? i_id r)%Z (rows (bridge d)) with
    | Some b => (b_members b, b_stp b, b_enable_learning b)
    | None => ([], true, true)
    end in
  set_d_bridge_members (Some m) (set_d_stp (Some s) (set_d_enable_learning (Some l) x)).

(** [(o or d).upper()] *)
Definition upper_or (o : option string) (dflt : string) : string :=
  let s := default "" o in upper (if nonempty s then s else dflt).

Definition members_of (d : db) (lag : Z) : list member_row :=
  List.filter (fun m => lagg_interfacegroup m =? lag)%Z (rows (laggmembers d)).

Definition lag_part (d : db) (r : iface_row) (x : idata) : idata :=
  match List.find (fun l => lagg_interface l =? i_id r)%Z (rows (lagg d)) with
  | Some l =>
      let lacp := String.eqb (lagg_protocol l) "lacp" in
      let x := if lacp || String.eqb (lagg_protocol l) "loadbalance"
               then set_d_xmit_hash_policy (Some (Some (upper_or (lagg_xmit_hash_policy l) "layer2+3"))) x else x in
      let x := if lacp then set_d_lacpdu_rate (Some (Some (upper_or (lagg_lacpdu_rate l) "slow"))) x else x in
      set_d_lag_protocol (Some (upper (lagg_protocol l)))
        (set_d_lag_ports (Some (map lagg_physnic (members_of d (l_id l)))) x)
  | None => set_d_lag_ports (Some []) x
  end.

Definition vlan_part (d : db) (name : string) (x : idata) : idata :=
  let '(p, t, c) :=
    match List.find (fun v => String.eqb (vlan_vint v) name) (rows (vlan d)) with
    | Some v => (Some (vlan_pint v), Some (vlan_tag v), vlan_pcp v)
    | None => (None, None, None)
    end in
  set_d_vlan_parent_interface (Some p) (set_d_vlan_tag (Some t) (set_d_vlan_pcp (Some c) x)).

Definition type_part (t : itype) (d : db) (r : iface_row) (x : idata) : idata :=
  match t with
  | BRIDGE => bridge_part d r x
  | LINK_AGGREGATION => lag_part d r x
  | VLAN => vlan_part d (int_interface r) x
  | _ => x
  end.

(** The dictionary before the configuration is looked up. *)
Definition bare_data (name : string) (unconfigured ha_hardware : bool) : idata :=
  let x := set_d_name (Some name) (set_d_aliases (Some []) (set_d_ipv4_dhcp (Some unconfigured)
             (set_d_ipv6_auto (Some unconfigured) (set_d_description (Some "") (set_d_mtu (Some None) no_data))))) in
  if ha_hardware then
    set_d_failover_critical (Some false) (set_d_failover_vhid (Some None) (set_d_failover_group (Some None)
      (set_d_failover_aliases (Some []) (set_d_failover_virtual_aliases (Some []) x))))
  else x.

Definition failover_part (d : db) (r : iface_row) (x : idata) : idata :=
  set_d_failover_critical (Some (int_critical r)) (set_d_failover_vhid (Some (int_vhid r))
    (set_d_failover_group (Some (int_group r)) (set_d_failover_aliases (Some (shown_failover_aliases d r))
      (set_d_failover_virtual_aliases (Some (shown_virtual_aliases d r)) x)))).

Definition config_data (t : itype) (ha_hardware : bool) (d : db) (r : iface_row) (x : idata) : idata :=
  let x := set_d_ipv4_dhcp (Some (int_dhcp r)) (set_d_ipv6_auto (Some (int_ipv6auto r))
             (set_d_description (Some (int_name r)) (set_d_mtu (Some (int_mtu r)) x))) in
  let x := match t, int_fec_mode r with
           | PHYSICAL, Some m => if nonempty m then set_d_fec_mode (Some m) x else x
           | _, _ => x
           end in
  let x := if ha_hardware then failover_part d r x else x in
  set_d_aliases (Some (shown_aliases d r)) (type_part t d r x).

(** [iface_extend] for an interface of this name, whose configuration is the row. *)
Definition iface_extend (name : string) (st : istate) (d : db) (config : option iface_row) (ha_hardware fake : bool) : entry :=
  let t := type_ name (st_cloned st) in
  let x := bare_data name (match rows (interfaces d) with [] => true | _ => false end) ha_hardware in
  let '(x, v) :=
    match config with
    | None => (x, [])
    | Some r => (config_data t ha_hardware d r x, if ha_hardware then shown_vrrp (st_aliases st) d r else [])
    end in
  mkEntry name fake t (st_hardware_link_address st) (st_aliases st) v x.

(** ** Queries *)

Definition configs (d : db) : list (string * iface_row) := map (fun r => (int_interface r, r)) (rows (interfaces d)).

(** The state of an interface the kernel does not have. *)
Definition fake_state : istate := mkState true "" [] "" false.

Definition kernel_entries (e : nenv) (d : db) : list (string * entry) :=
  omap (fun '(name, st) =>
          if bool_decide (name ∈ internal_interfaces e) || (st_cloned st && negb (Dict.mem name (configs d))) then None
          else if ignore_usb_nics e && String.eqb (st_bus st) "usb" then None
          else if st_oserror st then None
          else Some (name, iface_extend name st d (Dict.get name (configs d)) (is_ha_capable e) false))
    (kernel e).

Definition query_dict (e : nenv) (d : db) : list (string * entry) :=
  let data := kernel_entries e d in
  data ++ map (fun '(name, r) => (name, iface_extend name fake_state d (Some r) (is_ha_capable e) true))
            (List.filter (fun '(name, _) => negb (Dict.mem name data)) (configs d)).

Definition query (e : nenv) (d : db) : list entry := Dict.values (query_dict e d).

Definition query_names_only (d : db) : list string := map int_interface (rows (interfaces d)).

(** [get_instance] *)
Definition get_instance (e : nenv) (oid : string) (d : db) : result exn entry :=
  match List.find (fun x => String.eqb (en_name x) oid) (query e d) with
  | Some x => Ok x
  | None => Err (InstanceNotFound ("Interface " +:+ oid +:+ " does not exist"))
  end.

End Ifaces.
