(* ===== verification/NetCheck.v ===== *)
(** * Validation of interfaces (plugins/network.py, plugins/network_/common.py)

    [_common_validation], shared by [interface.create] and [interface.update], and the
    checks on failover.  The errors are collected; some conditions raise at once.
    Where the code goes over a set of attributes, the model takes them in the order
    of the table [validation_attrs]. *)

From S2P Require Import Prelude PyDict PyStr PyVal PyFormat Errors Ipaddr NetDb Ifaces.

Module NetCheck.
Import NetDb Ifaces.

Definition KeyError (k : string) : exn := EOther "KeyError" (Fmt.repr_str k).
Definition ValueError : exn := EOther "ValueError" "not an address or a network".

(** [if b: verrors.add(attr, msg)] *)
Definition add_if (b : bool) (attr msg : string) (v : VErrors.t) : VErrors.t :=
  if b then VErrors.add (Some attr) msg EINVAL v else v.

(** [check_failover_disabled] *)
Definition check_failover_disabled (e : nenv) (schema : string) (v : VErrors.t) : VErrors.t :=
  add_if (failover_licensed e && negb (String.eqb (failover_status e) "SINGLE") && negb (failover_disabled e))
    schema "Failover must be disabled." v.

(** [check_dhcp_or_aliases]: [any] is given the list of the three values of each
    interface, and a list of three values is true whatever they are. *)
Definition dhcp_or_aliases (x : entry) : list bool :=
  [default false (d_ipv4_dhcp (en_data x)); default false (d_ipv6_auto (en_data x));
   match d_aliases (en_data x) with Some (_ :: _) => true | _ => false end].
Definition check_dhcp_or_aliases (e : nenv) (d : db) (schema : string) (v : VErrors.t) : VErrors.t :=
  add_if (negb (existsb (fun x => negb (bool_decide (dhcp_or_aliases x = []))) (query e d))) schema
    "At least one interface must be configured with IPv4 DHCP, IPv6 Autoconfig or a static IP." v.

(** ** Aliases *)

(** [ip_network(f'{address}/{netmask}', strict=False)] *)
Definition alias_network (a : ali) : result exn Ip.network :=
  match al_netmask a with
  | None => Err (KeyError "netmask")
  | Some NumEmpty => Err ValueError
  | Some (NumInt p) => match Ip.ip_network (al_address a) p with Some n => Ok n | None => Err ValueError end
  end.

Definition is_inet (a : ali) : bool := String.eqb (al_type a) "INET".
Definition is_inet6 (a : ali) : bool := String.eqb (al_type a) "INET6".

Definition used_networks (ifaces : list (string * entry)) : result exn (list (ali * Ip.network)) :=
  mapE (fun a => n ← alias_network a; Ok (a, n))
    (List.filter (fun a => is_inet a || is_inet6 a) (flat_map (fun x => default [] (d_aliases (en_data x))) (Dict.values ifaces))).

Fixpoint check_aliases (schema : string) (used : list (ali * Ip.network)) (i : nat) (l : list ali) (v : VErrors.t) : result exn VErrors.t :=
  match l with
  | [] => Ok v
  | a :: l =>
      n ← alias_network a;
      let same := map snd (List.filter (fun u => if bool_decide (Ip.net_ver n = Ip.V4) then is_inet (fst u) else negb (is_inet (fst u))) used) in
      check_aliases schema used (S i) l
        (add_if (existsb (fun u => Ip.overlaps u n) same) (schema +:+ ".aliases." +:+ pretty i)
           ("The network " +:+ Ip.str_net n +:+ " is already in use by another interface.") v)
  end.

(** [__validate_aliases] *)
Definition validate_aliases (schema : string) (data : idata) (ifaces : list (string * entry)) (v : VErrors.t) : result exn VErrors.t :=
  used ← used_networks ifaces;
  check_aliases schema used 0 (default [] (d_aliases data)) v.

(** ** Interfaces in use *)

(** The dictionaries [bridge_used], [vlan_used] and [lag_used]. *)
Record used := mkUsed { bridge_used : list (string * string); vlan_used : list (string * option string); lag_used : list (string * string) }.

Definition set_all {V} (ports : list string) (v : V) (d : list (string * V)) : list (string * V) :=
  foldl (fun d p => Dict.set p v d) d ports.

Definition use_iface (u : used) (x : string * entry) : result exn used :=
  let '(k, v) := x in
  if Str.startswith "br" k then Ok (mkUsed (set_all (default [] (d_bridge_members (en_data v))) k (bridge_used u)) (vlan_used u) (lag_used u))
  else if Str.startswith "vlan" k then
    match d_vlan_parent_interface (en_data v) with
    | Some p => Ok (mkUsed (bridge_used u) (Dict.set k p (vlan_used u)) (lag_used u))
    | None => Err (KeyError "vlan_parent_interface")
    end
  else if Str.startswith "bond" k then Ok (mkUsed (bridge_used u) (vlan_used u) (set_all (default [] (d_lag_ports (en_data v))) k (lag_used u)))
  else Ok u.

Definition interfaces_used (ifaces : list (string * entry)) : result exn used := foldE use_iface ifaces (mkUsed [] [] []).

Definition in_use_by (i k : string) : string := "Interface " +:+ i +:+ " is currently in use by " +:+ k +:+ ".".

(** [validation_attrs]: the key, its name, and whether it is one of failover *)
Definition validation_attrs : list (string * string * bool) :=
  [("aliases", "Active node IP address", true); ("failover_aliases", "Standby node IP address", true);
   ("failover_virtual_aliases", "Virtual IP address", true); ("failover_group", "Failover group number", true);
   ("mtu", "MTU", false); ("ipv4_dhcp", "DHCP", false); ("ipv6_auto", "Autoconfig for IPv6", false)].

Definition is_cons {A} (l : list A) : bool := match l with [] => false | _ => true end.
Definition nonzero (o : option (option Z)) : bool := match o with Some (Some z) => negb (z =? 0)%Z | _ => false end.

(** [bool(data.get(k))] *)
Definition given (data : idata) (k : string) : bool :=
  if String.eqb k "aliases" then is_cons (default [] (d_aliases data))
  else if String.eqb k "failover_aliases" then is_cons (default [] (d_failover_aliases data))
  else if String.eqb k "failover_virtual_aliases" then is_cons (default [] (d_failover_virtual_aliases data))
  else if String.eqb k "failover_group" then nonzero (d_failover_group data)
  else if String.eqb k "mtu" then nonzero (d_mtu data)
  else if String.eqb k "ipv4_dhcp" then default false (d_ipv4_dhcp data)
  else if String.eqb k "ipv6_auto" then default false (d_ipv6_auto data)
  else false.

(** ** The checks of each type *)

Definition check_physical (schema : string) (data : idata) (u : used) (v : VErrors.t) : result exn VErrors.t :=
  match d_name data with
  | None => Err (KeyError "name")
  | Some name =>
      Ok (match Dict.get name (lag_used u) with
          | None => v
          | Some lag =>
              foldl (fun v '(k, what, _) => add_if (given data k) (schema +:+ "." +:+ k)
                       ("Interface in use by " +:+ lag +:+ ". " +:+ what +:+ " cannot be changed.") v) v validation_attrs
          end)
  end.

Definition check_name (t : itype) (schema : string) (data : idata) (v : VErrors.t) : VErrors.t :=
  match d_name data ≫= validate_name t with
  | Some msg => VErrors.add (Some (schema +:+ ".name")) msg EINVAL v
  | None => v
  end.

Fixpoint check_members (schema : string) (ifaces : list (string * entry)) (u : used) (i : nat) (l : list string) (v : VErrors.t) : VErrors.t :=
  match l with
  | [] => v
  | m :: l =>
      let attr := schema +:+ ".bridge_members." +:+ pretty i in
      check_members schema ifaces u (S i) l
        (if negb (Dict.mem m ifaces) then VErrors.add (Some attr) "Not a valid interface." EINVAL v
         else match Dict.get m (bridge_used u), Dict.get m (lag_used u) with
              | Some k, _ => VErrors.add (Some attr) (in_use_by m k) EINVAL v
              | None, Some k => VErrors.add (Some attr) (in_use_by m k) EINVAL v
              | None, None => v
              end)
  end.

Definition check_bridge (schema : string) (data : idata) (ifaces : list (string * entry)) (u : used) (v : VErrors.t) : VErrors.t :=
  check_members schema ifaces u 0 (default [] (d_bridge_members data)) (check_name BRIDGE schema data v).

Fixpoint check_ports (schema : string) (ifaces : list (string * entry)) (ds_ifaces : list iface_row) (u : used) (i : nat) (l : list string) (v : VErrors.t) : VErrors.t :=
  match l with
  | [] => v
  | m :: l =>
      let attr := schema +:+ ".lag_ports." +:+ pretty i in
      check_ports schema ifaces ds_ifaces u (S i) l
        (if negb (Dict.mem m ifaces) then VErrors.add (Some attr) (DQ +:+ m +:+ DQ +:+ " is not a valid interface.") EINVAL v
         else match Dict.get m (lag_used u), Dict.get m (bridge_used u), Dict.get m (vlan_used u) with
              | Some k, _, _ => VErrors.add (Some attr) (in_use_by m k) EINVAL v
              | None, Some k, _ => VErrors.add (Some attr) (in_use_by m k) EINVAL v
              | None, None, Some k => VErrors.add (Some attr) (in_use_by m (default "None" k)) EINVAL v
              | None, None, None =>
                  add_if (bool_decide (m ∈ map int_interface ds_ifaces)) attr ("Interface " +:+ m +:+ " is currently in use") v
              end)
  end.

Definition check_lag (schema : string) (data : idata) (ifaces : list (string * entry)) (ds_ifaces : list iface_row) (u : used) (v : VErrors.t) : result exn VErrors.t :=
  let v := check_name LINK_AGGREGATION schema data v in
  match d_lag_protocol data with
  | None => Err (KeyError "lag_protocol")
  | Some p =>
      let v := add_if (negb (bool_decide (p ∈ lag_supported_protocols))) (schema +:+ ".lag_protocol")
                 ("TrueNAS SCALE does not support LAG protocol " +:+ p) v in
      let v := add_if (negb (is_cons (default [] (d_lag_ports data)))) (schema +:+ ".lag_ports") "This field cannot be empty." v in
      match d_lag_ports data with
      | None => Err (EOther "TypeError" "'NoneType' object is not iterable")
      | Some l => Ok (check_ports schema ifaces ds_ifaces u 0 l v)
      end
  end.

(** [mtu and mtu > m] *)
Definition mtu_above (data : idata) (m : Z) : bool := nonzero (d_mtu data) && (m <? default 0 (default None (d_mtu data)))%Z.
Definition mtu_below (data : idata) (m : Z) : bool := nonzero (d_mtu data) && (default 0 (default None (d_mtu data)) <? m)%Z.

Definition check_vlan (schema : string) (data : idata) (ifaces : list (string * entry)) (u : used) (v : VErrors.t) : VErrors.t :=
  let v := check_name VLAN schema data v in
  let attr := schema +:+ ".vlan_parent_interface" in
  match default None (d_vlan_parent_interface data) with
  | None => VErrors.add (Some attr) "Not a valid interface." EINVAL v
  | Some parent =>
      match Dict.get parent ifaces with
      | None => VErrors.add (Some attr) "Not a valid interface." EINVAL v
      | Some p =>
          match Dict.get parent (lag_used u) with
          | Some k => VErrors.add (Some attr) (in_use_by parent k) EINVAL v
          | None =>
              if Str.startswith "br" parent then VErrors.add (Some attr) "Bridge interfaces are not allowed." EINVAL v
              else
                let pm := default 0%Z (default None (d_mtu (en_data p))) in
                add_if (mtu_above data (if (pm =? 0)%Z then 1500 else pm)) (schema +:+ ".mtu")
                  "VLAN MTU cannot be bigger than parent interface." v
          end
      end
  end.

Definition check_type (t : itype) (schema : string) (data : idata) (ifaces : list (string * entry)) (ds_ifaces : list iface_row) (u : used) (v : VErrors.t) : result exn VErrors.t :=
  match t with
  | PHYSICAL => check_physical schema data u v
  | BRIDGE => Ok (check_bridge schema data ifaces u v)
  | LINK_AGGREGATION => check_lag schema data ifaces ds_ifaces u v
  | VLAN => Ok (check_vlan schema data ifaces u v)
  | UNKNOWN => Ok v
  end.

(** ** Failover *)

Definition pop_failover (data : idata) : idata :=
  set_d_failover_critical None (set_d_failover_group None (set_d_failover_aliases None
    (set_d_failover_vhid None (set_d_failover_virtual_aliases None data)))).

Definition check_create_failover (schema : string) (data : idata) (v : VErrors.t) : VErrors.t :=
  let attrs := List.filter (fun x => snd x) validation_attrs in
  if existsb (fun '(k, _, _) => given data k) attrs then
    foldl (fun v '(k, what, _) => add_if (negb (given data k)) (schema +:+ "." +:+ k) (what +:+ " is required when configuring HA.") v) v attrs
  else v.

Definition check_critical_lag (schema : string) (data : idata) (v : VErrors.t) : VErrors.t :=
  let critical := default false (d_failover_critical data) in
  if critical && bool_decide (d_lag_protocol data = Some "FAILOVER") then
    VErrors.add (Some (schema +:+ ".failover_critical"))
      ("A bond interface using the " +:+ DQ +:+ "Failover" +:+ DQ +:+ " protocol is not allowed to be marked critical for failover.") EINVAL v
  else add_if (negb (is_cons (default [] (d_failover_virtual_aliases data))) && critical) (schema +:+ ".failover_critical")
         "A bond interface that is marked critical for failover must have ip addresses configured." v.

Definition check_failover (e : nenv) (t : itype) (schema : string) (data : idata) (is_update : bool) (v : VErrors.t) : result exn (VErrors.t * idata) :=
  if negb (failover_licensed e) then Ok (v, pop_failover data)
  else if negb (String.eqb (failover_status e) "SINGLE") && negb (failover_disabled e) then
    Err (CallError "Failover needs to be disabled to perform network configuration changes." EFAULT)
  else
    let n := length (default [] (d_aliases data)) in
    let v := add_if (negb ((n =? length (default [] (d_failover_aliases data)))
                           && (length (default [] (d_failover_aliases data)) =? length (default [] (d_failover_virtual_aliases data)))))
               (schema +:+ ".failover_aliases") "The number of active, standby and virtual IP addresses must be the same." v in
    let v := if is_update then
               add_if (default false (d_failover_critical data) && bool_decide (default None (d_failover_group data) = None))
                 (schema +:+ ".failover_group") "A failover group is required when configuring a critical failover interface." v
             else check_create_failover schema data v in
    let v := if bool_decide (t = LINK_AGGREGATION) && negb is_update then check_critical_lag schema data v else v in
    Ok (v, data).

(** ** Addresses in use by applications *)

(** Failing to ask is logged and does not block. *)
Definition check_apps (e : nenv) (schema : string) (data : idata) (current : entry) (v : VErrors.t) : VErrors.t :=
  let addresses x := map al_address (default [] (d_aliases x)) in
  let removed := remove_dups (List.filter (fun a => negb (bool_decide (a ∈ addresses data))) (addresses (en_data current))) in
  match app_used_host_ips e with
  | Err _ => v
  | Ok apps =>
      foldl (fun v ip => match Dict.get ip apps with
                         | None => v
                         | Some l => VErrors.add (Some (schema +:+ ".aliases"))
                                       ("IP address " +:+ ip +:+ " cannot be removed as it is being used by apps: " +:+ Str.join ", " l) EINVAL v
                         end) v removed
  end.

(** ** [_common_validation] *)

(** [any(filter(lambda x: f(x) and not ifaces[x['int_interface']]['fake'], rows))] *)
Fixpoint conflict (f : iface_row -> bool) (ifaces : list (string * entry)) (l : list iface_row) : result exn bool :=
  match l with
  | [] => Ok false
  | r :: l =>
      if f r then match Dict.get (int_interface r) ifaces with
                  | None => Err (KeyError (int_interface r))
                  | Some x => if negb (en_fake x) then Ok true else conflict f ifaces l
                  end
      else conflict f ifaces l
  end.

Definition automatic (f : iface_row -> bool) (on : option bool) (attr msg : string) (ifaces : list (string * entry)) (ds_ifaces : list iface_row) (v : VErrors.t) : result exn VErrors.t :=
  if default false on then b ← conflict f ifaces ds_ifaces; Ok (add_if b attr msg v) else Ok v.

Definition other (update : option entry) (name : string) : bool := match update with Some u => negb (String.eqb name (en_name u)) | None => true end.
Definition other_ifaces (e : nenv) (d : db) (update : option entry) : list (string * entry) :=
  List.filter (fun x => other update (fst x)) (map (fun x => (en_name x, x)) (query e d)).
Definition other_rows (d : db) (update : option entry) : list iface_row :=
  List.filter (fun r => other update (int_interface r)) (rows (interfaces d)).

(** The errors and the data, which loses its fields of failover on a system without
    the license. *)
Definition common_validation (e : nenv) (d : db) (schema : string) (data : idata) (t : itype) (update : option entry) (v : VErrors.t) : result exn (VErrors.t * idata) :=
  let ifaces := other_ifaces e d update in
  let ds_ifaces := other_rows d update in
  let v := add_if (match d_name data with Some n => Dict.mem n ifaces | None => false end) (schema +:+ ".name") "Interface name is already in use." v in
  v ← automatic int_dhcp (d_ipv4_dhcp data) (schema +:+ ".ipv4_dhcp") "Only one interface can be used for DHCP." ifaces ds_ifaces v;
  v ← automatic int_ipv6auto (d_ipv6_auto data) (schema +:+ ".ipv6_auto") "Only one interface can have IPv6 autoconfiguration enabled." ifaces ds_ifaces v;
  v ← validate_aliases schema data ifaces v;
  u ← interfaces_used ifaces;
  v ← check_type t schema data ifaces ds_ifaces u v;
  let all := default [] (d_aliases data) ++ default [] (d_failover_aliases data) ++ default [] (d_failover_virtual_aliases data) in
  let v := add_if (mtu_below data 1280 && existsb is_inet6 all) (schema +:+ ".mtu")
             "When specifying an IPv6 address, the MTU cannot be smaller than 1280" v in
  '(v, data) ← check_failover e t schema data (bool_decide (is_Some update)) v;
  Ok (match update with Some u => check_apps e schema data u v | None => v end, data).

End NetCheck.
