(* ===== verification/NetOps.v ===== *)
(** * Writing interfaces (plugins/network.py)

    The part of [do_create], [do_update] and [delete_network_interface] that writes
    the tables, after the validation of [NetCheck]. *)

From S2P Require Import Prelude PyDict PyStr PyVal PyFormat Errors Ipaddr NetDb Ifaces NetCheck.

Module NetOps.
Import NetDb Ifaces NetCheck.

(** [data[k]] *)
Definition item {A} (k : string) (o : option A) : result exn A := match o with Some a => Ok a | None => Err (KeyError k) end.

(** ** Addresses *)

(** The addresses of an interface row or of an alias row. *)
Record addrs := mkAddrs { ad_address : string; ad_address_b : string; ad_netmask : num_col; ad_version : num_col; ad_vip : string }.

#[global] Instance addrs_eq_dec : EqDecision addrs.
Proof. solve_decision. Defined.

Definition no_addrs : addrs := mkAddrs "" "" NumEmpty NumEmpty "".

Definition version_num (v : Ip.version) : num_col := NumInt (match v with Ip.V4 => 4 | Ip.V6 => 6 end).

(** One round of the loop of [convert_aliases_to_datastore]; a list that is too short
    gives an empty dictionary. *)
Definition convert_alias (x : option ali * option ali * option ali) : result exn addrs :=
  let '(a, fa, fva) := x in
  a ← item "netmask" a;
  netmask ← item "netmask" (al_netmask a);
  match Ip.ip_address (al_address a) with
  | None => Err ValueError
  | Some ip =>
      Ok (mkAddrs (al_address a) (default "" (al_address <$> fa)) netmask (version_num (Ip.ver ip)) (default "" (al_address <$> fva)))
  end.

Fixpoint zip_longest (a b c : list ali) {struct a} : list (option ali * option ali * option ali) :=
  match a with
  | x :: a => (Some x, head b, head c) :: zip_longest a (tail b) (tail c)
  | [] =>
      (fix go (b c : list ali) {struct b} :=
         match b with
         | y :: b => (None, Some y, head c) :: go b (tail c)
         | [] => map (fun z => (None, None, Some z)) c
         end) b c
  end.

(** The first goes to the interface table, the others to the alias table. *)
Definition convert_aliases_to_datastore (data : idata) : result exn (addrs * list addrs) :=
  da ← item "aliases" (d_aliases data);
  l ← mapE convert_alias (zip_longest da (default [] (d_failover_aliases data)) (default [] (d_failover_virtual_aliases data)));
  Ok (match l with [] => (no_addrs, []) | x :: l => (x, l) end).

(** [__convert_interface_datastore] *)
Record conv := mkConv {
  c_name : string; c_dhcp : bool; c_ipv6auto : bool; c_vhid : option Z; c_critical : bool; c_group : option Z;
  c_mtu : option Z; c_fec_mode : option string;
}.

Definition convert_interface_datastore (data : idata) : result exn conv :=
  name ← item "description" (d_description data);
  dhcp ← item "ipv4_dhcp" (d_ipv4_dhcp data);
  auto ← item "ipv6_auto" (d_ipv6_auto data);
  Ok (mkConv name dhcp auto (default None (d_failover_vhid data)) (default false (d_failover_critical data))
        (default None (d_failover_group data)) (if nonzero (d_mtu data) then default None (d_mtu data) else None) (d_fec_mode data)).

Definition interface_values (c : conv) (a : addrs) (id : Z) (name : string) : iface_row :=
  mkIface id name (c_name c) (c_dhcp c) (ad_address a) (ad_address_b a) (ad_version a) (ad_netmask a) (c_ipv6auto c)
    (Some (ad_vip a)) (c_vhid c) (c_critical c) (c_group c) (c_mtu c) (c_fec_mode c).

Definition alias_values (a : addrs) (id interface : Z) : alias_row :=
  mkAlias id interface (ad_address a) (ad_version a) (ad_netmask a) (ad_address_b a) (ad_vip a).

(** [__create_interface_datastore]: up to its [yield] and after it. *)
Definition create_interface_row (data : idata) (name : string) : dop (Z * list addrs) :=
  '(a, aliases) ← lift (convert_aliases_to_datastore data);
  c ← lift (convert_interface_datastore data);
  id ← insert_interfaces None (interface_values c a 0 name);
  mret (id, aliases).

Definition insert_aliases (id : Z) (l : list addrs) : dop unit :=
  for_each (fun a => _ ← insert_alias None (alias_values a 0 id); mret tt) l.

(** ** Ports of link aggregations *)

Definition reset_port (r : iface_row) : iface_row :=
  mkIface (i_id r) (int_interface r) (int_name r) false "" "" (int_version r) (NumInt 0) false (Some "") None false None None (int_fec_mode r).

Definition set_lag_port (lag_id : Z) (x : nat * string) : dop unit :=
  let '(idx, port) := x in
  _ ← insert_member None (mkMember 0 (Z.of_nat idx) port lag_id);
  o ← gets (fun d => List.find (fun r => String.eqb (int_interface r) port) (rows (interfaces d)));
  match o with
  | None => mret tt
  | Some r =>
      _ ← update_interfaces (i_id r) reset_port;
      delete_alias (fun a => alias_interface a =? i_id r)%Z
  end.

(** [__set_lag_ports] *)
Definition set_lag_ports (lag_id : Z) (ports : list string) : dop unit :=
  for_each (set_lag_port lag_id) (imap (fun i p => (i, p)) ports).

(** ** [do_create] *)

Definition by_id (i : Z) (r : iface_row) : bool := (i_id r =? i)%Z.

(** [lacp] and [loadbalance] have a policy, [lacp] has a rate *)
Definition create_lagg_row (data : idata) (id : Z) : result exn lagg_row :=
  proto ← item "lag_protocol" (d_lag_protocol data);
  let proto := Str.lower proto in
  let lacp := String.eqb proto "lacp" in
  if lacp || String.eqb proto "loadbalance" then
    x ← item "xmit_hash_policy" (d_xmit_hash_policy data);
    let xmit := match x with Some p => Str.lower p | None => "layer2+3" end in
    if lacp then
      y ← item "lacpdu_rate" (d_lacpdu_rate data);
      Ok (mkLagg 0 id proto (Some xmit) (Some (if nonempty (default "" y) then Str.lower (default "" y) else "slow")))
    else Ok (mkLagg 0 id proto (Some xmit) None)
  else Ok (mkLagg 0 id proto None None).

Definition create_part (t : itype) (name : string) (data : idata) (id : Z) (aliases : list addrs) : dop unit :=
  match t with
  | BRIDGE =>
      m ← lift (item "bridge_members" (d_bridge_members data));
      s ← lift (item "stp" (d_stp data));
      l ← lift (item "enable_learning" (d_enable_learning data));
      _ ← insert_bridge None (mkBridge 0 m id s l);
      insert_aliases id aliases
  | LINK_AGGREGATION =>
      row ← lift (create_lagg_row data id);
      lag_id ← insert_lagg None row;
      rescue (ports ← lift (item "lag_ports" (d_lag_ports data));
              _ ← set_lag_ports lag_id ports;
              insert_aliases id aliases)
        (suppress (delete_lagg (fun l => l_id l =? lag_id)%Z))
  | VLAN =>
      p ← lift (item "vlan_parent_interface" (d_vlan_parent_interface data));
      t ← lift (item "vlan_tag" (d_vlan_tag data));
      p ← expect p IntegrityError;
      t ← expect t IntegrityError;
      _ ← insert_vlan None (mkVlan 0 name p t "" (default None (d_vlan_pcp data)));
      insert_aliases id aliases
  | _ => insert_aliases id aliases
  end.

Definition create_rows (t : itype) (name : string) (data : idata) : dop unit :=
  '(id, aliases) ← create_interface_row data name;
  rescue (create_part t name data id aliases) (delete_interfaces (by_id id)).

(** [get_next] *)
Fixpoint next_free (fuel : nat) (prefix : string) (names : list string) (number : nat) : option string :=
  match fuel with
  | O => None
  | S fuel =>
      let n := prefix +:+ pretty number in
      if bool_decide (n ∈ names) then next_free fuel prefix names (S number) else Some n
  end.
Definition get_next (prefix : string) (start : nat) (d : db) : option string :=
  let names := List.filter (Str.startswith prefix) (map int_interface (rows (interfaces d))) in
  next_free (S (length names)) prefix names start.

Definition type_prefix (t : itype) : result exn string :=
  match t with BRIDGE => Ok "br" | LINK_AGGREGATION => Ok "bond" | VLAN => Ok "vlan" | _ => Err (KeyError (type_value t)) end.

(** The fields that have to be given, in the order they are looked for. *)
Definition missing_attrs (t : itype) (data : idata) : result exn (list string) :=
  let need {A} (k : string) (o : option A) := match o with Some _ => [] | None => [k] end in
  match t with
  | BRIDGE => Ok (need "bridge_members" (d_bridge_members data))
  | LINK_AGGREGATION => Ok (need "lag_protocol" (d_lag_protocol data) ++ need "lag_ports" (d_lag_ports data))
  | VLAN => Ok (need "vlan_parent_interface" (d_vlan_parent_interface data) ++ need "vlan_tag" (d_vlan_tag data))
  | _ => Err (EOther "UnboundLocalError" "required_attrs")
  end.

(** Up to the point where the tables are saved: the data to write. *)
Definition create_checks (e : nenv) (d : db) (t : itype) (data : idata) : result exn idata :=
  let v := check_failover_disabled e "interface.create" [] in
  missing ← missing_attrs t data;
  let v := foldl (fun v i => VErrors.add (Some ("interface_create." +:+ i)) "This field is required" EINVAL v) v missing in
  _ ← VErrors.check v;
  '(v, data) ← common_validation e d "interface_create" data t None v;
  _ ← VErrors.check v;
  Ok data.

Definition create_writes (t : itype) (data : idata) : dop string :=
  name ← match d_name data with
         | Some n => mret n
         | None => p ← lift (type_prefix t); o ← gets (get_next p 0); expect o (EOther "OutOfFuel" "get_next")
         end;
  _ ← create_rows t name data;
  mret name.

(** ** [do_update] *)

Definition set_int_interface (name : string) (r : iface_row) : iface_row :=
  mkIface (i_id r) name (int_name r) (int_dhcp r) (int_address r) (int_address_b r) (int_version r) (int_netmask r) (int_ipv6auto r)
    (int_vip r) (int_vhid r) (int_critical r) (int_group r) (int_mtu r) (int_fec_mode r).

Definition update_link_address (e : nenv) (name hw : string) : dop unit :=
  let b := is_ix_hardware e && String.eqb (failover_node e) "B" in
  let f k := if b then mkLink (k_id k) (k_interface k) (k_link_address k) (Some hw)
             else mkLink (k_id k) (k_interface k) (Some hw) (k_link_address_b k) in
  o ← gets (fun d => List.find (fun k => String.eqb (k_interface k) name) (rows (link_address d)));
  match o with
  | Some k => update_link (k_id k) f
  | None => _ ← insert_link (f (mkLink 0 name None None)); mret tt
  end.

Definition update_bridge_part (data : idata) (id : Z) : dop unit :=
  match d_bridge_members data, d_stp data, d_enable_learning data with
  | None, None, None => mret tt
  | m, s, l => _ ← update_bridge id m s l; mret tt
  end.

Definition update_lag_part (new data : idata) (id : Z) : dop unit :=
  proto ← lift (item "lag_protocol" (d_lag_protocol new));
  let lacp := String.eqb proto "LACP" in
  let xmit := if lacp || String.eqb proto "LOADBALANCE" then default (Some "layer2+3") (d_xmit_hash_policy new) else None in
  let rate := if lacp then default (Some "slow") (d_lacpdu_rate new) else None in
  lag_id ← update_lagg id (Str.lower proto) xmit rate;
  match d_lag_ports data with
  | None => mret tt
  | Some ports =>
      _ ← delete_members (fun m => lagg_interfacegroup m =? lag_id)%Z;
      set_lag_ports lag_id ports
  end.

Definition update_vlan_part (old : string) (new : idata) (name : string) : dop unit :=
  p ← lift (item "vlan_parent_interface" (d_vlan_parent_interface new));
  t ← lift (item "vlan_tag" (d_vlan_tag new));
  c ← lift (item "vlan_pcp" (d_vlan_pcp new));
  _ ← update_vlan old name p t c;
  mret tt.

Definition update_part (e : nenv) (iface : entry) (new data : idata) (name : string) (id : Z) : dop unit :=
  match en_type iface with
  | PHYSICAL => update_link_address e name (en_hardware_link_address iface)
  | BRIDGE => update_bridge_part data id
  | LINK_AGGREGATION => update_lag_part new data id
  | VLAN => update_vlan_part (en_name iface) new name
  | UNKNOWN => mret tt
  end.

(** [l.pop(i)] *)
Definition pop_at {A} (i : nat) (l : list A) : result exn (list A) :=
  if i <? length l then Ok (take i l ++ drop (S i) l) else Err (EOther "IndexError" "pop index out of range").

Definition alias_addrs (a : alias_row) : addrs := mkAddrs (alias_address a) (alias_address_b a) (alias_netmask a) (alias_version a) (alias_vip a).

Definition write_alias (a : addrs) (r : alias_row) : alias_row := alias_values a (a_id r) (alias_interface r).

(** The inner loop over a copy of the list: every entry with the address of the row
    is written to it when it differs, and removed by its index in the copy. *)
Fixpoint match_alias (curr : alias_row) (i : nat) (copy new_aliases : list addrs) : dop (list addrs) :=
  match copy with
  | [] => mret new_aliases
  | a :: copy =>
      if String.eqb (alias_address curr) (ad_address a) then
        _ ← when (negb (bool_decide (alias_addrs curr = a))) (update_alias (a_id curr) (write_alias a));
        new_aliases ← lift (pop_at i new_aliases);
        match_alias curr (S i) copy new_aliases
      else match_alias curr (S i) copy new_aliases
  end.

Fixpoint match_aliases (l : list alias_row) (new_aliases : list addrs) : dop (list addrs) :=
  match l with
  | [] => mret new_aliases
  | curr :: l =>
      new_aliases ←
        (if existsb (fun a => String.eqb (ad_address a) (alias_address curr)) new_aliases
         then match_alias curr 0 new_aliases new_aliases
         else _ ← delete_alias (fun r => a_id r =? a_id curr)%Z; mret new_aliases);
      match_aliases l new_aliases
  end.

Definition update_addresses (new : idata) (id : Z) : dop unit :=
  '(a, new_aliases) ← lift (convert_aliases_to_datastore new);
  c ← lift (convert_interface_datastore new);
  _ ← update_interfaces id (fun r => interface_values c a (i_id r) (int_interface r));
  l ← gets (fun d => List.filter (fun x => alias_interface x =? id)%Z (rows (alias d)));
  rest ← match_aliases l new_aliases;
  insert_aliases id rest.

Definition find_iface (name : string) (d : db) : option iface_row :=
  List.find (fun r => String.eqb (int_interface r) name) (rows (interfaces d)).

Definition update_rows (e : nenv) (iface : entry) (new data : idata) (name : string) : dop unit :=
  config ← gets (find_iface (en_name iface));
  match config with
  | None =>
      '(id, aliases) ← create_interface_row new (en_name iface);
      rescue (_ ← insert_aliases id aliases; update_part e iface new data name id) (suppress (delete_interfaces (by_id id)))
  | Some r =>
      _ ← when (negb (String.eqb (int_interface r) name)) (update_interfaces (i_id r) (set_int_interface name));
      _ ← update_part e iface new data name (i_id r);
      update_addresses new (i_id r)
  end.

Definition check_fec_mode (e : nenv) (oid : string) (t : itype) (data : idata) (v : VErrors.t) : VErrors.t :=
  let err msg := VErrors.add (Some "interface_update.fec_mode") msg EINVAL v in
  match d_fec_mode data with
  | None => v
  | Some m =>
      if is_enterprise e then
        if bool_decide (t = PHYSICAL) then
          match available_fec_modes e oid with
          | [] => err "This interface does not support FEC mode configuration."
          | l => if bool_decide (m ∈ l) then v else err ("Unsupported FEC mode. Available: " +:+ Str.join ", " l)
          end
        else err "FEC mode can only be set on physical interfaces."
      else err "Configuring FEC mode is an enterprise feature."
  end.

(** The entry that is updated and its new data. *)
Definition update_checks (e : nenv) (d : db) (oid : string) (data : idata) : result exn (entry * idata) :=
  let v := check_failover_disabled e "interface.update" [] in
  iface ← get_instance e oid d;
  '(v, new) ← common_validation e d "interface_update" (merge (en_data iface) data) (en_type iface) (Some iface) v;
  let v := add_if (failover_licensed e && (default false (d_ipv4_dhcp new) || default false (d_ipv6_auto new))) "interface_update.dhcp"
             "Enabling DHCPv4/v6 on HA systems is unsupported." v in
  _ ← VErrors.check (check_fec_mode e oid (en_type iface) data v);
  Ok (iface, new).

(** ** [do_delete] *)

Definition delete_checks (e : nenv) (d : db) (oid : string) : result exn entry :=
  let v := check_failover_disabled e "interface.delete" [] in
  iface ← get_instance e oid d;
  let vlans := List.filter (fun x => bool_decide (en_type x = VLAN)
                                     && bool_decide (d_vlan_parent_interface (en_data x) = Some (Some (en_name iface)))) (query e d) in
  let l := Str.join ", " (map en_name vlans) in
  _ ← VErrors.check (add_if (nonempty l) "interface.delete" ("The following VLANs depend on this interface: " +:+ l) v);
  Ok iface.

(** The link aggregations on the interface of this name. *)
Definition laggs_on (oid : string) (d : db) : list lagg_row :=
  List.filter (fun l => match List.find (fun r => i_id r =? lagg_interface l)%Z (rows (interfaces d)) with
                        | Some r => String.eqb (int_interface r) oid
                        | None => false
                        end) (rows (lagg d)).

Definition OutOfFuel : exn := EOther "RecursionError" "maximum recursion depth exceeded".

(** [delete_network_interface] on the members of a link aggregation that are not on
    the way from the first interface to it. *)
Fixpoint delete_network_interface (fuel : nat) (oid : string) (parents : list string) : dop unit :=
  match fuel with
  | O => raise OutOfFuel
  | S fuel =>
      let parents := oid :: parents in
      laggs ← gets (laggs_on oid);
      _ ← for_each (fun l =>
             members ← gets (fun d => members_of d (l_id l));
             _ ← for_each (fun m => if bool_decide (lagg_physnic m ∈ parents) then mret tt
                                    else delete_network_interface fuel (lagg_physnic m) parents) members;
             delete_lagg (fun x => l_id x =? l_id l)%Z) laggs;
      _ ← delete_vlan (fun v => String.eqb (vlan_pint v) oid);
      _ ← delete_vlan (fun v => String.eqb (vlan_vint v) oid);
      delete_interfaces (fun r => String.eqb (int_interface r) oid)
  end.

(** Deep enough: the interfaces on the way have different link aggregations. *)
Definition delete_fuel (d : db) : nat := S (S (length (rows (lagg d)))).
Definition delete_writes (oid : string) : dop unit := fun d => delete_network_interface (delete_fuel d) oid [] d.

End NetOps.
