(* ===== verification/NetPending.v ===== *)
(** * Pending changes of interfaces (plugins/network.py)

    The service [interface]: changes are written to the tables at once, but the
    tables of before the first of them are kept until the changes are checked in, and
    put back by [rollback], by a commit that fails or when the time to check in has
    passed. *)

From S2P Require Import Prelude PyDict PyStr PyVal PyFormat Errors Ipaddr NetDb Ifaces NetCheck NetOps.

Module Net.
Import NetDb Ifaces NetCheck NetOps.

(** ** State *)

(** The dictionary [get_datastores] returns: rows with the ids of their foreign
    keys. *)
Record datastores := mkDs {
  ds_interfaces : list iface_row;
  ds_alias : list alias_row;
  ds_bridge : list bridge_row;
  ds_vlan : list vlan_row;
  ds_lagg : list lagg_row;
  ds_laggmembers : list member_row;
  ds_ipv4gateway : string;
}.

#[global] Instance datastores_eq_dec : EqDecision datastores.
Proof. solve_decision. Defined.

Definition get_datastores (d : db) : datastores :=
  mkDs (rows (interfaces d)) (rows (alias d)) (rows (bridge d)) (rows (vlan d)) (rows (lagg d)) (rows (laggmembers d)) (ipv4gateway d).

(** A handle of [loop.call_later]; times are in microseconds. *)
Record handle := mkHandle { h_id : nat; h_when : Z }.

#[global] Instance handle_eq_dec : EqDecision handle.
Proof. solve_decision. Defined.

Record nst := mkNst {
  tabs : db;
  original : option datastores;  (** [_original_datastores], [None] when empty *)
  rollback_timer : option handle;  (** [_rollback_timer] *)
  armed : list handle;  (** calls the event loop still has to make *)
  timer_seq : nat;
}.

Definition set_tabs v s := mkNst v (original s) (rollback_timer s) (armed s) (timer_seq s).
Definition set_original v s := mkNst (tabs s) v (rollback_timer s) (armed s) (timer_seq s).
Definition set_rollback_timer v s := mkNst (tabs s) (original s) v (armed s) (timer_seq s).
Definition set_armed v s := mkNst (tabs s) (original s) (rollback_timer s) v (timer_seq s).

Notation nop := (STE nst exn).

Definition on_db {A} (m : dop A) : nop A := fun s => let '(d, r) := m (tabs s) in (set_tabs d s, r).
Definition reading {A} (f : db -> result exn A) : nop A := fun s => (s, f (tabs s)).

(** ** Saving and restoring *)

(** [__save_datastores] *)
Definition save_datastores : nop unit := modify (fun s =>
  match original s with Some _ => s | None => set_original (Some (get_datastores (tabs s))) s end).

Definition all_rows {R} (_ : R) : bool := true.

(** Every row of the list is inserted again, with its id. *)
Definition reinsert {R} `{!Row R} (ins : option Z -> R -> dop Z) (l : list R) : dop unit :=
  for_each (fun r => _ ← ins (Some (rid r)) r; mret tt) l.

Definition wipe : dop unit :=
  _ ← delete_lagg all_rows;
  _ ← delete_interfaces all_rows;
  _ ← delete_vlan all_rows;
  modify (set_ipv4gateway "").

Definition restore_rows (o : datastores) : dop unit :=
  _ ← wipe;
  _ ← reinsert insert_interfaces (ds_interfaces o);
  _ ← reinsert insert_alias (ds_alias o);
  _ ← reinsert insert_bridge (ds_bridge o);
  _ ← reinsert insert_vlan (ds_vlan o);
  _ ← reinsert insert_lagg (ds_lagg o);
  _ ← reinsert insert_member (ds_laggmembers o);
  modify (set_ipv4gateway (ds_ipv4gateway o)).

(** [__restore_datastores] *)
Definition restore_datastores : nop unit :=
  o ← gets original;
  match o with
  | None => mret tt
  | Some o => _ ← on_db (restore_rows o); modify (set_original None)
  end.

Definition has_pending_changes (s : nst) : bool := bool_decide (is_Some (original s)).

(** ** Rolling back and checking in *)

(** [if self._rollback_timer: self._rollback_timer.cancel()] and forgetting it *)
Definition cancel_timer : nop unit := modify (fun s =>
  set_rollback_timer None
    (match rollback_timer s with
     | Some h => set_armed (List.filter (fun x => negb (bool_decide (x = h))) (armed s)) s
     | None => s
     end)).

Definition sync (e : nenv) : nop unit := reading (sync_outcome e).

Definition rollback (e : nenv) : nop unit :=
  _ ← cancel_timer;
  _ ← restore_datastores;
  _ ← lift (post_rollback_outcome e);
  sync e.

Definition checkin_impl (clear_cache : bool) : nop unit :=
  _ ← cancel_timer;
  when clear_cache (modify (set_original None)).

Definition checkin : nop unit := checkin_impl true.
Definition cancel_rollback : nop unit := checkin_impl false.

(** Whole seconds until the changes are rolled back. *)
Definition checkin_waiting (now : Z) (s : nst) : option Z :=
  match rollback_timer s with
  | Some h => let remaining := (h_when h - now)%Z in if (0 <? remaining)%Z then Some (Z.quot remaining 1000000) else None
  | None => None
  end.

(** [loop.call_later] *)
Definition call_later (now timeout : Z) : nop handle := update (fun s =>
  let h := mkHandle (timer_seq s) (now + timeout * 1000000)%Z in
  (mkNst (tabs s) (original s) (rollback_timer s) (armed s ++ [h]) (S (timer_seq s)), h)).

Definition commit_checks (e : nenv) (d : db) : result exn unit :=
  VErrors.check (check_dhcp_or_aliases e d "interface.commit" (check_failover_disabled e "interface.commit" [])).

Definition commit (e : nenv) (now : Z) (rollback_ : bool) (checkin_timeout : Z) : nop unit :=
  _ ← reading (commit_checks e);
  _ ← rescue (sync e) (when rollback_ (rollback e));
  if rollback_ && negb (checkin_timeout =? 0)%Z then
    h ← call_later now checkin_timeout;
    modify (set_rollback_timer (Some h))
  else modify (set_original None).

(** The event loop makes the call: the task of the timer rolls back. *)
Definition timer_fires (e : nenv) (h : handle) : nop unit :=
  _ ← modify (fun s => set_armed (List.filter (fun x => negb (bool_decide (x = h))) (armed s)) s);
  rollback e.

(** ** The default gateway *)

(** [gw in ip_interface(f'{address}/{netmask}').network]; [None] is its
    [ValueError]. *)
Definition reachable_from (gw : Ip.t) (address : string) (netmask : num_col) : option bool :=
  match netmask with
  | NumEmpty => None
  | NumInt p => n ← Ip.ip_network address p; Some (Ip.contains n (Ip.ver gw) (Ip.num gw))
  end.

Fixpoint alias_reaches (gw : Ip.t) (l : list alias_row) : result exn bool :=
  match l with
  | [] => Ok false
  | a :: l =>
      match reachable_from gw (alias_address a) (alias_netmask a) with
      | None => Err ValueError
      | Some true => Ok true
      | Some false => alias_reaches gw l
      end
  end.

Definition gateway_reachable (gw : Ip.t) (d : db) : result exn bool :=
  if existsb (fun r => default false (reachable_from gw (int_address r) (int_netmask r))) (rows (interfaces d)) then Ok true
  else alias_reaches gw (rows (alias d)).

(** [save_network_config]: the nameservers are those of the request, by name. *)
Definition save_network_config (gateway : string) (servers : list (string * string)) : nop unit :=
  pending ← gets original;
  match pending with
  | None => raise (CallError "There are no pending interface changes." EFAULT)
  | Some _ =>
      gw ← expect (Ip.ip_address gateway) ValueError;
      ok ← reading (gateway_reachable gw);
      if ok : bool then
        on_db (modify (fun d => set_ipv4gateway (Ip.str gw) (set_nameservers (foldl (fun m '(k, v) => Dict.set k v m) (nameservers d) servers) d)))
      else raise (CallError (Fmt.repr_str (Ip.str gw) +:+ " is not reachable from any interface on the system.") EFAULT)
  end.

(** [network_config_to_be_removed]: the route of the kernel, the configured gateway
    and nameservers, and the nameservers in use. *)
Definition network_config_to_be_removed (rtgw : option string) (in_use : list (string * string)) (d : db) : list string :=
  (match rtgw with
   | Some gw => match rows (interfaces d) with
                | [] => ["ipv4gateway"]
                | _ => if String.eqb (ipv4gateway d) gw then [] else ["ipv4gateway"]
                end
   | None => []
   end)
  ++ List.filter (fun ns => nonempty (default "" (Dict.get ns in_use)) && negb (nonempty (default "" (Dict.get ns (nameservers d)))))
       ["nameserver1"; "nameserver2"; "nameserver3"].

(** ** Changing interfaces *)

Definition do_create (e : nenv) (t : itype) (data : idata) : nop entry :=
  data ← reading (fun d => create_checks e d t data);
  _ ← save_datastores;
  name ← on_db (create_writes t data);
  reading (get_instance e name).

Definition do_update (e : nenv) (oid : string) (data : idata) : nop entry :=
  '(iface, new) ← reading (fun d => update_checks e d oid data);
  _ ← save_datastores;
  name ← lift (item "name" (d_name new));
  _ ← on_db (update_rows e iface new data name);
  reading (get_instance e name).

Definition do_delete (e : nenv) (oid : string) : nop string :=
  _ ← reading (fun d => delete_checks e d oid);
  _ ← save_datastores;
  _ ← on_db (delete_writes oid);
  mret oid.

(** ** Histories *)

Inductive label :=
| LCreate (e : nenv) (t : itype) (data : idata)
| LUpdate (e : nenv) (oid : string) (data : idata)
| LDelete (e : nenv) (oid : string)
| LSaveConfig (gateway : string) (servers : list (string * string))
| LCommit (e : nenv) (now : Z) (rollback : bool) (checkin_timeout : Z)
| LCheckin
| LCancelRollback
| LRollback (e : nenv)
| LTimer (e : nenv) (h : handle).

(** The state after a call, whether it raises or not; a timer fires when the event
    loop has it. *)
Definition step (l : label) (s : nst) : nst :=
  match l with
  | LCreate e t data => (do_create e t data s).1
  | LUpdate e oid data => (do_update e oid data s).1
  | LDelete e oid => (do_delete e oid s).1
  | LSaveConfig gw ns => (save_network_config gw ns s).1
  | LCommit e now r t => (commit e now r t s).1
  | LCheckin => (checkin s).1
  | LCancelRollback => (cancel_rollback s).1
  | LRollback e => (rollback e s).1
  | LTimer e h => if bool_decide (h ∈ armed s) then (timer_fires e h s).1 else s
  end.

Definition exec (ls : list label) (s : nst) : nst := foldl (fun s l => step l s) s ls.

End Net.
