(* ===== verification/NetInv.v ===== *)
(** * Consistency of the network tables

    What the constraints of the database ensure of the tables of [NetDb], and that
    every write of [NetOps] and [NetPending] keeps it, also when it raises. *)

From S2P Require Import Prelude PyDict PyStr PyVal PyFormat Errors Ipaddr NetDb Ifaces NetCheck NetOps NetPending.

Module NetInv.
Import NetDb Ifaces NetCheck NetOps Net.

(** ** Tables *)

Section table.
Context {R : Type} `{!Row R}.
Implicit Types (t : table R) (l : list R) (r : R).

Lemma has_id_spec i l : has_id i l = true <-> exists r, r ∈ l /\ rid r = i.
Proof.
  unfold has_id. rewrite existsb_exists. setoid_rewrite <-list_elem_of_In. setoid_rewrite Z.eqb_eq. naive_solver.
Qed.

Lemma has_id_elem l r : r ∈ l -> has_id (rid r) l = true.
Proof. intros H. apply has_id_spec. eauto. Qed.

Lemma has_id_false i l : has_id i l = false <-> forall r, r ∈ l -> rid r ≠ i.
Proof.
  split.
  - intros E r Hr <-. by rewrite has_id_elem in E.
  - intros H. apply not_true_iff_false. rewrite has_id_spec. intros (r & Hr & E). by eapply H.
Qed.

Lemma has_id_mono i l l' : l ⊆ l' -> has_id i l = true -> has_id i l' = true.
Proof. rewrite !has_id_spec. intros H (r & Hr & E). eauto. Qed.

Lemma has_id_map f l i : (forall r, rid (f r) = rid r) -> has_id i (map f l) = has_id i l.
Proof. intros Hf. unfold has_id. induction l as [|x l IH]; simpl; [done|]. by rewrite Hf, IH. Qed.

(** Ids are not used twice, and none is above the last one that was given. *)
Record table_ok t : Prop := {
  ids_nodup : NoDup (map rid (rows t));
  ids_seq : Forall (fun r => rid r <= seq t)%Z (rows t);
}.

Lemma add_row_inv id ok r t t' i :
  add_row id ok r t = Some (t', i) ->
  ok = true /\ has_id i (rows t) = false /\ rows t' = rows t ++ [with_rid i r] /\ i = default (seq t + 1)%Z id /\ seq t' = Z.max (seq t) i.
Proof.
  unfold add_row. destruct ok; simpl; [|done]. destruct (has_id _ _) eqn:E; simpl; [done|]. intros [= <- <-]. by simpl.
Qed.

Lemma add_row_fresh ok r t : table_ok t -> ok = true -> add_row None ok r t = Some (mkTable (rows t ++ [with_rid (seq t + 1)%Z r]) (seq t + 1)%Z, (seq t + 1)%Z).
Proof.
  intros [_ Hs] ->. unfold add_row. simpl. assert (has_id (seq t + 1)%Z (rows t) = false) as ->.
  - apply has_id_false. intros x Hx E. rewrite Forall_forall in Hs. specialize (Hs x Hx). simpl in Hs. lia.
  - simpl. rewrite Z.max_r by lia. done.
Qed.

Lemma add_row_ok id ok r t t' i : add_row id ok r t = Some (t', i) -> table_ok t -> table_ok t'.
Proof.
  intros (_ & Hf & Hr & _ & Hs)%add_row_inv [Hn Hb]. split.
  - rewrite Hr, map_app. apply NoDup_app. split_and!; [done| |apply NoDup_singleton].
    intros x Hx ->%list_elem_of_singleton. rewrite rid_with_rid in Hx. change (map rid (rows t)) with (rid <$> rows t) in Hx.
    apply list_elem_of_fmap in Hx as (y & E & Hy). rewrite has_id_false in Hf. by apply (Hf y Hy).
  - rewrite Hr, Hs. apply Forall_app. split; [|apply Forall_singleton; rewrite rid_with_rid; lia].
    eapply Forall_impl; [exact Hb|]. simpl. lia.
Qed.

Lemma drop_rows_ok p t : table_ok t -> table_ok (drop_rows p t).
Proof. intros [Hn Hb]. split; simpl; [by apply filter_NoDup|by apply filter_Forall]. Qed.

Lemma rid_edit i f r : rid (if (rid r =? i)%Z then with_rid i (f r) else r) = rid r.
Proof. destruct (Z.eqb_spec (rid r) i) as [<-|]; [apply rid_with_rid|done]. Qed.

Lemma map_edit_key {B} (k : R -> B) i f t :
  (forall r, rid r = i -> k (with_rid i (f r)) = k r) -> map k (rows (edit_row i f t)) = map k (rows t).
Proof.
  intros H. unfold edit_row. simpl. rewrite map_map. apply map_ext. intros r. destruct (Z.eqb_spec (rid r) i); auto.
Qed.

Lemma edit_row_ok i f t : table_ok t -> table_ok (edit_row i f t).
Proof.
  intros [Hn Hb]. split.
  - rewrite map_edit_key; [done|]. intros r <-. apply rid_with_rid.
  - unfold edit_row. simpl. rewrite Forall_map. eapply Forall_impl; [exact Hb|]. intros r H. cbn beta. by rewrite rid_edit.
Qed.

Lemma has_id_edit i f j t : has_id j (rows (edit_row i f t)) = has_id j (rows t).
Proof. apply has_id_map, rid_edit. Qed.

Lemma edit_elem i f t r : r ∈ rows (edit_row i f t) -> exists x, x ∈ rows t /\ r = if (rid x =? i)%Z then with_rid i (f x) else x.
Proof. unfold edit_row. simpl. change (map ?g ?l) with (g <$> l). intros (x & -> & Hx)%list_elem_of_fmap. eauto. Qed.

Lemma drop_elem p t r : r ∈ rows (drop_rows p t) <-> r ∈ rows t /\ p r = false.
Proof. simpl. rewrite filter_elem. by rewrite negb_true_iff. Qed.

Lemma drop_has_id p t i r : has_id i (rows t) = true -> (forall r, r ∈ rows t -> rid r = i -> p r = false) -> has_id i (rows (drop_rows p t)) = true.
Proof. rewrite !has_id_spec. intros (x & Hx & E) H. exists x. split; [|done]. apply drop_elem. auto. Qed.

(** A row that was just added is taken away again. *)
Lemma drop_added ok r t t' i :
  add_row None ok r t = Some (t', i) -> rows (drop_rows (fun x => rid x =? i)%Z t') = rows t.
Proof.
  intros (_ & Hf & Hr & _)%add_row_inv. simpl. rewrite Hr, List.filter_app. simpl. rewrite rid_with_rid, Z.eqb_refl. simpl. rewrite app_nil_r.
  apply filter_all. intros x Hx. rewrite has_id_false in Hf. by apply negb_true_iff, Z.eqb_neq, Hf.
Qed.
End table.

(** ** Consistency *)

(** The rows lead where they should: every foreign key to a row, no name and no port
    twice. *)
Record linked (o : datastores) : Prop := {
  names_nodup : NoDup (map int_interface (ds_interfaces o));
  ports_nodup : NoDup (map lagg_physnic (ds_laggmembers o));
  alias_fk a : a ∈ ds_alias o -> has_id (alias_interface a) (ds_interfaces o) = true;
  bridge_fk b : b ∈ ds_bridge o -> has_id (b_interface b) (ds_interfaces o) = true;
  lagg_fk l : l ∈ ds_lagg o -> has_id (lagg_interface l) (ds_interfaces o) = true;
  member_fk m : m ∈ ds_laggmembers o -> has_id (lagg_interfacegroup m) (ds_lagg o) = true;
}.

Record wf (d : db) : Prop := {
  wf_interfaces : table_ok (interfaces d);
  wf_alias : table_ok (alias d);
  wf_bridge : table_ok (bridge d);
  wf_vlan : table_ok (vlan d);
  wf_lagg : table_ok (lagg d);
  wf_members : table_ok (laggmembers d);
  wf_linked : linked (get_datastores d);
}.

Create HintDb nettab.
#[export] Hint Resolve wf_interfaces wf_alias wf_bridge wf_vlan wf_lagg wf_members wf_linked add_row_ok drop_rows_ok edit_row_ok : nettab.

(** Tables with fewer rows, where what is needed is still there. *)
Lemma linked_sub o o' :
  linked o -> ds_interfaces o' `sublist_of` ds_interfaces o -> ds_laggmembers o' `sublist_of` ds_laggmembers o ->
  (forall a, a ∈ ds_alias o' -> has_id (alias_interface a) (ds_interfaces o') = true) ->
  (forall b, b ∈ ds_bridge o' -> has_id (b_interface b) (ds_interfaces o') = true) ->
  (forall l, l ∈ ds_lagg o' -> has_id (lagg_interface l) (ds_interfaces o') = true) ->
  (forall m, m ∈ ds_laggmembers o' -> has_id (lagg_interfacegroup m) (ds_lagg o') = true) -> linked o'.
Proof.
  intros H Hi Hm Ha Hb Hl Hg. split; [..|exact Ha|exact Hb|exact Hl|exact Hg].
  - eapply sublist_NoDup; [apply (names_nodup _ H)|]. by apply fmap_sublist.
  - eapply sublist_NoDup; [apply (ports_nodup _ H)|]. by apply fmap_sublist.
Qed.

(** ** What keeps the tables consistent *)

Definition safe {A} (m : dop A) : Prop := forall d, wf d -> wf (m d).1.

Lemma safe_ret {A} (a : A) : safe (mret a).
Proof. by intros d Hd. Qed.
Lemma safe_raise {A} e : safe (A:=A) (raise e).
Proof. by intros d Hd. Qed.
Lemma safe_gets {A} (f : db -> A) : safe (gets f).
Proof. by intros d Hd. Qed.
Lemma safe_lift {A} (r : result exn A) : safe (lift r).
Proof. by intros d Hd. Qed.
Lemma safe_expect {A} (o : option A) e : safe (expect o e).
Proof. by intros d Hd. Qed.
Lemma net_safe_bind {A B} (m : dop A) (f : A -> dop B) : safe m -> (forall a, safe (f a)) -> safe (m ≫= f).
Proof.
  intros Hm Hf d Hd. unfold mbind, ste_mbind. specialize (Hm d Hd). destruct (m d) as [d1 [a|e]]; [|done]. by apply Hf.
Qed.
Lemma safe_rescue {A} (m : dop A) h : safe m -> safe h -> safe (rescue m h).
Proof.
  intros Hm Hh d Hd. unfold rescue. specialize (Hm d Hd). destruct (m d) as [d1 [a|e]]; [done|]. specialize (Hh d1 Hm).
  by destruct (h d1) as [d2 [|]].
Qed.
Lemma safe_suppress m : safe m -> safe (suppress m).
Proof. intros H d Hd. by apply H. Qed.
Lemma safe_for_each {A} (f : A -> dop unit) l : (forall x, safe (f x)) -> safe (for_each f l).
Proof. intros H. induction l as [|x l IH]; simpl; [apply safe_ret|]. apply net_safe_bind; auto. Qed.

#[export] Hint Resolve safe_ret safe_raise safe_gets safe_lift safe_expect safe_rescue safe_suppress safe_for_each : nettab.

(** Goes through a chain of writes. *)
Ltac safe_steps :=
  repeat first
    [ solve [auto with nettab]
    | apply net_safe_bind; [|intros ?]
    | match goal with
      | |- safe (rescue _ _) => apply safe_rescue
      | |- safe (suppress _) => apply safe_suppress
      | |- safe (for_each _ _) => apply safe_for_each; intros ?
      | |- safe (match ?x with _ => _ end) => destruct x
      | |- safe (let '(_, _) := ?x in _) => destruct x
      end ].

(** One table changes. *)
Section put.
Context (d : db) (Hd : wf d).

Lemma wf_set_interfaces t :
  table_ok t -> NoDup (map int_interface (rows t)) ->
  (forall i, has_id i (rows (interfaces d)) = true -> has_id i (rows t) = true) -> wf (set_interfaces t d).
Proof using Hd. intros Ht Hn Hi. destruct Hd as [? ? ? ? ? ? [? ? ? ? ? ?]]. split; try done. split; simpl; auto. Qed.
Lemma wf_set_alias t :
  table_ok t -> (forall a, a ∈ rows t -> has_id (alias_interface a) (rows (interfaces d)) = true) -> wf (set_alias t d).
Proof using Hd. intros Ht Hf. destruct Hd as [? ? ? ? ? ? [? ? ? ? ? ?]]. by split. Qed.
Lemma wf_set_bridge t :
  table_ok t -> (forall b, b ∈ rows t -> has_id (b_interface b) (rows (interfaces d)) = true) -> wf (set_bridge t d).
Proof using Hd. intros Ht Hf. destruct Hd as [? ? ? ? ? ? [? ? ? ? ? ?]]. by split. Qed.
Lemma wf_set_vlan t : table_ok t -> wf (set_vlan t d).
Proof using Hd. intros Ht. destruct Hd as [? ? ? ? ? ? [? ? ? ? ? ?]]. by split. Qed.
Lemma wf_set_lagg t :
  table_ok t -> (forall l, l ∈ rows t -> has_id (lagg_interface l) (rows (interfaces d)) = true) ->
  (forall i, has_id i (rows (lagg d)) = true -> has_id i (rows t) = true) -> wf (set_lagg t d).
Proof using Hd. intros Ht Hf Hi. destruct Hd as [? ? ? ? ? ? [? ? ? ? ? ?]]. split; try done. split; simpl; auto. Qed.
Lemma wf_set_members t :
  table_ok t -> NoDup (map lagg_physnic (rows t)) ->
  (forall m, m ∈ rows t -> has_id (lagg_interfacegroup m) (rows (lagg d)) = true) -> wf (set_laggmembers t d).
Proof using Hd. intros Ht Hn Hf. destruct Hd as [? ? ? ? ? ? [? ? ? ? ? ?]]. by split. Qed.
Lemma wf_set_link t : wf (set_link_address t d).
Proof using Hd. by destruct Hd as [? ? ? ? ? ? [? ? ? ? ? ?]]. Qed.
End put.

(** A row added to a table whose rows satisfy a condition, or have different keys. *)
Section added.
Context {R : Type} `{!Row R} {id : option Z} {ok : bool} {r : R} {t t' : table R} {i : Z} (E : add_row id ok r t = Some (t', i)).

Lemma added_all (P : R -> Prop) : (forall x, x ∈ rows t -> P x) -> (ok = true -> P (with_rid i r)) -> forall x, x ∈ rows t' -> P x.
Proof using E.
  apply add_row_inv in E as (Hk & _ & Hr & _). rewrite Hr. intros Ht Hn x. rewrite elem_of_app, list_elem_of_singleton.
  intros [Hx| ->]; auto.
Qed.
Lemma added_has_id j : has_id j (rows t) = true -> has_id j (rows t') = true.
Proof using E. apply add_row_inv in E as (_ & _ & Hr & _). rewrite Hr. apply has_id_mono. set_solver. Qed.
Lemma added_key (k : R -> string) :
  NoDup (map k (rows t)) -> (ok = true -> existsb (fun x => String.eqb (k x) (k r)) (rows t) = false) -> k (with_rid i r) = k r ->
  NoDup (map k (rows t')).
Proof using E.
  apply add_row_inv in E as (Hk & _ & Hr & _). intros Hn Hx Ek. rewrite Hr, map_app. apply NoDup_app.
  split_and!; [done| |apply NoDup_singleton]. change (map k (rows t)) with (k <$> rows t).
  intros n (x & -> & Hxt)%list_elem_of_fmap E'%list_elem_of_singleton. eapply existsb_false in Hx; [|done..].
  rewrite E', Ek in Hx. by rewrite String.eqb_refl in Hx.
Qed.
End added.

Ltac insert_cases E := intros d Hd; unfold stored; destruct (add_row _ _ _ _) as [[t i]|] eqn:E; [|done]; simpl.

Lemma safe_insert_interfaces id r : safe (insert_interfaces id r).
Proof.
  unfold insert_interfaces. insert_cases E. pose proof (wf_linked _ Hd) as L. apply wf_set_interfaces; [done|eauto with nettab|..].
  - apply (added_key E); [apply (names_nodup _ L)| |done]. apply negb_true_iff.
  - apply (added_has_id E).
Qed.
Lemma safe_insert_alias id r : safe (insert_alias id r).
Proof.
  unfold insert_alias. insert_cases E. apply wf_set_alias; [done|eauto with nettab|]. apply (added_all E); [|done].
  apply (alias_fk _ (wf_linked _ Hd)).
Qed.
Lemma safe_insert_bridge id r : safe (insert_bridge id r).
Proof.
  unfold insert_bridge. insert_cases E. apply wf_set_bridge; [done|eauto with nettab|]. apply (added_all E); [|done].
  apply (bridge_fk _ (wf_linked _ Hd)).
Qed.
Lemma safe_insert_vlan id r : safe (insert_vlan id r).
Proof. unfold insert_vlan. insert_cases E. apply wf_set_vlan; [done|eauto with nettab]. Qed.
Lemma safe_insert_link r : safe (insert_link r).
Proof. unfold insert_link. insert_cases E. by apply wf_set_link. Qed.
Lemma safe_insert_lagg id r : safe (insert_lagg id r).
Proof.
  unfold insert_lagg. insert_cases E. apply wf_set_lagg; [done|eauto with nettab|..|apply (added_has_id E)]. apply (added_all E); [|done].
  apply (lagg_fk _ (wf_linked _ Hd)).
Qed.
Lemma safe_insert_member id r : safe (insert_member id r).
Proof.
  unfold insert_member. insert_cases E. pose proof (wf_linked _ Hd) as L. apply wf_set_members; [done|eauto with nettab|..].
  - apply (added_key E); [apply (ports_nodup _ L)| |done]. by intros [_ ?%negb_true_iff]%andb_true_iff.
  - apply (added_all E); [apply (member_fk _ L)|]. by intros [? _]%andb_true_iff.
Qed.

Lemma safe_delete_alias p : safe (delete_alias p).
Proof.
  intros d Hd. apply wf_set_alias; [done|eauto with nettab|]. intros a [Ha _]%drop_elem. by apply (alias_fk _ (wf_linked _ Hd)).
Qed.
Lemma safe_delete_vlan p : safe (delete_vlan p).
Proof. intros d Hd. apply wf_set_vlan; eauto with nettab. Qed.
Lemma safe_delete_members p : safe (delete_members p).
Proof.
  intros d Hd. apply wf_set_members; [done|eauto with nettab|..].
  - apply filter_NoDup, (ports_nodup _ (wf_linked _ Hd)).
  - intros a [Ha _]%drop_elem. by apply (member_fk _ (wf_linked _ Hd)).
Qed.

Lemma kept_elem {A} (p : A -> bool) l x : x ∈ List.filter (fun x => negb (negb (p x))) l -> p x = true.
Proof. intros [_ E]%filter_elem. by rewrite negb_involutive in E. Qed.

Lemma safe_delete_lagg p : safe (delete_lagg p).
Proof.
  intros d [? ? ? ? ? ? H]. split; simpl; auto with nettab. eapply linked_sub; [exact H|simpl..].
  - done.
  - apply filter_sublist.
  - apply (alias_fk _ H).
  - apply (bridge_fk _ H).
  - intros l [Hl _]%filter_elem. by apply (lagg_fk _ H).
  - intros m. apply (kept_elem (fun m => has_id (lagg_interfacegroup m) _)).
Qed.

Lemma safe_delete_interfaces p : safe (delete_interfaces p).
Proof.
  intros d [? ? ? ? ? ? H]. split; simpl; auto with nettab. eapply linked_sub; [exact H|simpl..].
  1-2: apply filter_sublist.
  - intros x. apply (kept_elem (fun a => has_id (alias_interface a) _)).
  - intros x. apply (kept_elem (fun a => has_id (b_interface a) _)).
  - intros x. apply (kept_elem (fun a => has_id (lagg_interface a) _)).
  - intros x. apply (kept_elem (fun a => has_id (lagg_interfacegroup a) _)).
Qed.

(** A row is renamed to a name no other row has. *)
Lemma edit_nodup {R} `{!Row R} (k : R -> string) i f (t : table R) r :
  table_ok t -> NoDup (map k (rows t)) -> r ∈ rows t -> rid r = i ->
  existsb (fun x => negb (rid x =? i)%Z && String.eqb (k x) (k (with_rid i (f r)))) (rows t) = false ->
  NoDup (map k (rows (edit_row i f t))).
Proof.
  intros Hi Nn Hr E Ex.
  assert (forall x, x ∈ rows t -> rid x = i -> x = r) as Hone.
  { intros x Hx Ei. eapply (key_inj _ _ _ _ (ids_nodup _ Hi)); [done..|congruence]. }
  assert (forall x y, x ∈ rows t -> y ∈ rows t -> rid x = i -> rid y ≠ i -> k (with_rid i (f x)) ≠ k y) as Hne.
  { intros x y Hx Hy Ei Ny En. rewrite (Hone x) in En by done. eapply existsb_false in Ex; [|exact Hy]. simpl in Ex.
    apply Z.eqb_neq in Ny. by rewrite Ny, <-En, String.eqb_refl in Ex. }
  unfold edit_row. simpl. rewrite map_map.
  assert (forall x y, x ∈ rows t -> y ∈ rows t -> k (if (rid x =? i)%Z then with_rid i (f x) else x) = k (if (rid y =? i)%Z then with_rid i (f y) else y) -> x = y) as Hinj.
  { intros x y Hx Hy. destruct (Z.eqb_spec (rid x) i), (Z.eqb_spec (rid y) i); intros En.
    - rewrite (Hone x), (Hone y); done.
    - by apply Hne in En.
    - symmetry in En. by apply Hne in En.
    - by apply (key_inj _ _ _ _ Nn). }
  apply (NoDup_fmap_2_strong (fun x => k (if (rid x =? i)%Z then with_rid i (f x) else x))); [done|].
  apply (NoDup_fmap_1 rid), (ids_nodup _ Hi).
Qed.

Lemma safe_update_interfaces i f : safe (update_interfaces i f).
Proof.
  intros d Hd. unfold update_interfaces. destruct (List.find _ _) as [r|] eqn:Ef; [|done]. destruct (existsb _ _) eqn:Ex; [done|].
  apply find_elem in Ef as [Hr E%Z.eqb_eq]. simpl. apply wf_set_interfaces; [done|eauto with nettab|..].
  - by apply (edit_nodup int_interface i f _ r (wf_interfaces _ Hd) (names_nodup _ (wf_linked _ Hd))).
  - intros j. by rewrite has_id_edit.
Qed.

Lemma safe_update_alias i f : safe (update_alias i f).
Proof.
  intros d Hd. unfold update_alias. destruct (List.find _ _) as [r|] eqn:Ef; [|done]. destruct (has_id _ _) eqn:Ex; [|done].
  apply find_elem in Ef as [Hr E%Z.eqb_eq]. simpl. apply wf_set_alias; [done|eauto with nettab|].
  intros a (x & Hx & ->)%edit_elem. destruct (Z.eqb_spec (rid x) i) as [E'|]; [|by apply (alias_fk _ (wf_linked _ Hd))].
  assert (x = r) as -> by (eapply (key_inj _ _ _ _ (ids_nodup _ (wf_alias _ Hd))); [..|simpl in *; congruence]; done). done.
Qed.

Lemma safe_update_link i f : safe (update_link i f).
Proof. intros d Hd. unfold update_link. destruct (has_id _ _); [|done]. by apply wf_set_link. Qed.

(** Changed rows whose foreign keys stay. *)
Lemma edit_fk {R} `{!Row R} (k : R -> Z) (ok : Z -> bool) i f (t : table R) :
  (forall r, k (with_rid i (f r)) = k r) -> (forall r, r ∈ rows t -> ok (k r) = true) ->
  forall r, r ∈ rows (edit_row i f t) -> ok (k r) = true.
Proof. intros Hk H r (x & Hx & ->)%edit_elem. destruct (_ =? _)%Z; rewrite ?Hk; auto. Qed.

Lemma safe_update_bridge i m s l : safe (update_bridge i m s l).
Proof.
  intros d Hd. unfold update_bridge, update_one. destruct (List.filter _ _) as [|r []]; try done. simpl.
  apply wf_set_bridge; [done|eauto with nettab|]. apply (edit_fk b_interface (fun i => has_id i _)); [done|]. apply (bridge_fk _ (wf_linked _ Hd)).
Qed.
Lemma safe_update_lagg i p x r : safe (update_lagg i p x r).
Proof.
  intros d Hd. unfold update_lagg, update_one. destruct (List.filter _ _) as [|y []]; try done. simpl.
  apply wf_set_lagg; [done|eauto with nettab|..].
  - apply (edit_fk lagg_interface (fun i => has_id i _)); [done|]. apply (lagg_fk _ (wf_linked _ Hd)).
  - intros j. by rewrite has_id_edit.
Qed.
Lemma safe_update_vlan n v p t c : safe (update_vlan n v p t c).
Proof.
  intros d Hd. unfold update_vlan, update_one. destruct p, t; try done. destruct (List.filter _ _) as [|y []]; try done.
  apply wf_set_vlan; [done|]. simpl. eauto with nettab.
Qed.

#[export] Hint Resolve safe_insert_interfaces safe_insert_alias safe_insert_bridge safe_insert_vlan safe_insert_link safe_insert_lagg
  safe_insert_member safe_delete_alias safe_delete_vlan safe_delete_members safe_delete_lagg safe_delete_interfaces
  safe_update_interfaces safe_update_alias safe_update_link safe_update_bridge safe_update_lagg safe_update_vlan : nettab.

(** ** The operations *)

Lemma safe_insert_aliases id l : safe (insert_aliases id l).
Proof. unfold insert_aliases. safe_steps. Qed.
Lemma safe_set_lag_ports id l : safe (set_lag_ports id l).
Proof. unfold set_lag_ports, set_lag_port. safe_steps. Qed.
#[export] Hint Resolve safe_insert_aliases safe_set_lag_ports : nettab.

Lemma safe_create_row data name : safe (create_interface_row data name).
Proof. unfold create_interface_row. safe_steps. Qed.
#[export] Hint Resolve safe_create_row : nettab.

Lemma safe_create_writes t data : safe (create_writes t data).
Proof. unfold create_writes, create_rows, create_part. safe_steps. Qed.

Lemma safe_match_alias c i l n : safe (match_alias c i l n).
Proof. revert i n. induction l as [|a l IH]; intros i n; simpl; safe_steps. Qed.
#[export] Hint Resolve safe_match_alias : nettab.
Lemma safe_match_aliases l n : safe (match_aliases l n).
Proof. revert n. induction l as [|a l IH]; intros n; simpl; safe_steps. Qed.
#[export] Hint Resolve safe_match_aliases : nettab.

Lemma safe_update_part e iface new data name id : safe (update_part e iface new data name id).
Proof. unfold update_part, update_link_address, update_bridge_part, update_lag_part, update_vlan_part. safe_steps. Qed.
#[export] Hint Resolve safe_update_part : nettab.

Lemma safe_update_rows e iface new data name : safe (update_rows e iface new data name).
Proof. unfold update_rows, update_addresses. safe_steps. Qed.

Lemma safe_delete_network fuel oid parents : safe (delete_network_interface fuel oid parents).
Proof. revert oid parents. induction fuel as [|fuel IH]; intros oid parents; simpl; [apply safe_raise|]. safe_steps. Qed.

Lemma safe_delete_writes oid : safe (delete_writes oid).
Proof. intros d Hd. by apply safe_delete_network. Qed.

End NetInv.
