(* ===== verification/NetRestore.v ===== *)
(** * Restoring the network tables

    The rows that were saved can be inserted again, in their order and with their
    ids, and give the tables that were saved: [restore_rows] never raises on a saved
    state of consistent tables.  From this, what every step of the service keeps. *)

From S2P Require Import Prelude PyDict PyStr PyVal PyFormat Errors Ipaddr NetDb Ifaces NetCheck NetOps NetPending NetInv.

Module NetRestore.
Import NetDb Ifaces NetCheck NetOps Net NetInv.

(** Saved rows that satisfy the constraints of the database. *)
Record saved_ok (o : datastores) : Prop := {
  so_interfaces : NoDup (map rid (ds_interfaces o));
  so_alias : NoDup (map rid (ds_alias o));
  so_bridge : NoDup (map rid (ds_bridge o));
  so_vlan : NoDup (map rid (ds_vlan o));
  so_lagg : NoDup (map rid (ds_lagg o));
  so_members : NoDup (map rid (ds_laggmembers o));
  so_linked : linked o;
}.

Lemma saved_of_wf d : wf d -> saved_ok (get_datastores d).
Proof. intros [? ? ? ? ? ? ?]. split; by try apply ids_nodup. Qed.

(** ** Inserting rows again *)

Lemma elem_middle {A} (l pre post : list A) x : l = pre ++ x :: post -> x ∈ l.
Proof. intros ->. set_solver. Qed.

Section again.
Context {R : Type} `{!Row R}.

Lemma add_row_again (pre post : list R) r ok t :
  NoDup (map rid (pre ++ r :: post)) -> rows t = pre -> ok = true ->
  exists q, add_row (Some (rid r)) ok r t = Some (mkTable (pre ++ [r]) q, rid r).
Proof.
  intros Hn Ht ->. unfold add_row. simpl. rewrite Ht. assert (has_id (rid r) pre = false) as ->.
  - apply has_id_false. intros x Hx E. rewrite map_app in Hn. apply NoDup_app in Hn as (_ & Hn & _). apply (Hn (rid r)).
    + rewrite <-E. change (map rid pre) with (rid <$> pre). by apply list_elem_of_fmap_2.
    + by left.
  - simpl. rewrite with_rid_same. eauto.
Qed.

Lemma key_fresh {B} `{!EqDecision B} (k : R -> B) (eqb : B -> B -> bool) pre post r :
  (forall a b, eqb a b = true <-> a = b) -> NoDup (map k (pre ++ r :: post)) -> existsb (fun x => eqb (k x) (k r)) pre = false.
Proof.
  intros He Hn. apply not_true_iff_false. rewrite existsb_exists. intros (x & Hx%list_elem_of_In & E%He).
  rewrite map_app in Hn. apply NoDup_app in Hn as (_ & Hn & _). apply (Hn (k x)).
  - change (map k pre) with (k <$> pre). by apply list_elem_of_fmap_2.
  - rewrite E. by left.
Qed.

Lemma reinsert_shape (ins : option Z -> R -> dop Z) (F : list R -> datastores) (l : list R) :
  (forall pre r post d, l = pre ++ r :: post -> get_datastores d = F pre ->
     exists i, (ins (Some (rid r)) r d).2 = Ok i /\ get_datastores (ins (Some (rid r)) r d).1 = F (pre ++ [r])) ->
  forall d, get_datastores d = F [] -> get_datastores (reinsert ins l d).1 = F l /\ (reinsert ins l d).2 = Ok tt.
Proof.
  intros H. unfold reinsert.
  assert (forall post pre d, l = pre ++ post -> get_datastores d = F pre ->
    let r := for_each (fun r => _ ← ins (Some (rid r)) r; mret tt) post d in get_datastores r.1 = F l /\ r.2 = Ok tt) as G.
  - induction post as [|r post IH]; intros pre d El Hd.
    + rewrite app_nil_r in El. by subst.
    + destruct (H pre r post d El Hd) as (i & E1 & E2). cbn [for_each]. unfold mbind, ste_mbind.
      destruct (ins (Some (rid r)) r d) as [d1 [j|e]] eqn:Ei; [|done]. apply (IH (pre ++ [r])); [by rewrite <-app_assoc|done].
  - intros d Hd. by apply (G l []).
Qed.
End again.

(** [stored] after an insert that is possible. *)
Lemma stored_ok {T} (put : T -> db -> db) t i d : stored put (Some (t, i)) d = (put t d, Ok i).
Proof. done. Qed.

(** The table is the one the rows so far make; every other part is as it was. *)
Ltac reinserted Hn :=
  let q := fresh "q" in let Eq := fresh "Eq" in
  match goal with
  | |- context [add_row (Some ?i) ?ok ?r ?t] =>
      destruct (add_row_again _ _ r ok t Hn) as [q Eq]; [congruence| |rewrite Eq, stored_ok; eexists; split; [done|];
        unfold get_datastores; simpl; congruence]
  end.

Section restore.
Context (o : datastores) (Ho : saved_ok o).

Lemma reinsert_interfaces g d :
  get_datastores d = mkDs [] [] [] [] [] [] g ->
  let r := reinsert insert_interfaces (ds_interfaces o) d in
  get_datastores r.1 = mkDs (ds_interfaces o) [] [] [] [] [] g /\ r.2 = Ok tt.
Proof using Ho.
  intros Hd. apply (reinsert_shape _ (fun l => mkDs l [] [] [] [] [] g)); [|done]. intros pre r post d' El E. injection E as E1 E2 E3 E4 E5 E6 E7.
  pose proof (so_interfaces _ Ho) as Hn. pose proof (names_nodup _ (so_linked _ Ho)) as Hk. rewrite El in Hn, Hk.
  unfold insert_interfaces. reinserted Hn. rewrite E1. apply negb_true_iff, (key_fresh int_interface String.eqb _ post); [apply String.eqb_eq|done].
Qed.

Lemma reinsert_alias g d :
  get_datastores d = mkDs (ds_interfaces o) [] [] [] [] [] g ->
  let r := reinsert insert_alias (ds_alias o) d in
  get_datastores r.1 = mkDs (ds_interfaces o) (ds_alias o) [] [] [] [] g /\ r.2 = Ok tt.
Proof using Ho.
  intros Hd. apply (reinsert_shape _ (fun l => mkDs (ds_interfaces o) l [] [] [] [] g)); [|done].
  intros pre r post d' El E. injection E as E1 E2 E3 E4 E5 E6 E7. pose proof (so_alias _ Ho) as Hn. rewrite El in Hn.
  unfold insert_alias. reinserted Hn. rewrite E1. by eapply (alias_fk _ (so_linked _ Ho)), elem_middle.
Qed.

Lemma reinsert_bridge g d :
  get_datastores d = mkDs (ds_interfaces o) (ds_alias o) [] [] [] [] g ->
  let r := reinsert insert_bridge (ds_bridge o) d in
  get_datastores r.1 = mkDs (ds_interfaces o) (ds_alias o) (ds_bridge o) [] [] [] g /\ r.2 = Ok tt.
Proof using Ho.
  intros Hd. apply (reinsert_shape _ (fun l => mkDs (ds_interfaces o) (ds_alias o) l [] [] [] g)); [|done].
  intros pre r post d' El E. injection E as E1 E2 E3 E4 E5 E6 E7. pose proof (so_bridge _ Ho) as Hn. rewrite El in Hn.
  unfold insert_bridge. reinserted Hn. rewrite E1. by eapply (bridge_fk _ (so_linked _ Ho)), elem_middle.
Qed.

Lemma reinsert_vlan g d :
  get_datastores d = mkDs (ds_interfaces o) (ds_alias o) (ds_bridge o) [] [] [] g ->
  let r := reinsert insert_vlan (ds_vlan o) d in
  get_datastores r.1 = mkDs (ds_interfaces o) (ds_alias o) (ds_bridge o) (ds_vlan o) [] [] g /\ r.2 = Ok tt.
Proof using Ho.
  intros Hd. apply (reinsert_shape _ (fun l => mkDs (ds_interfaces o) (ds_alias o) (ds_bridge o) l [] [] g)); [|done].
  intros pre r post d' El E. injection E as E1 E2 E3 E4 E5 E6 E7. pose proof (so_vlan _ Ho) as Hn. rewrite El in Hn.
  unfold insert_vlan. reinserted Hn. done.
Qed.

Lemma reinsert_lagg g d :
  get_datastores d = mkDs (ds_interfaces o) (ds_alias o) (ds_bridge o) (ds_vlan o) [] [] g ->
  let r := reinsert insert_lagg (ds_lagg o) d in
  get_datastores r.1 = mkDs (ds_interfaces o) (ds_alias o) (ds_bridge o) (ds_vlan o) (ds_lagg o) [] g /\ r.2 = Ok tt.
Proof using Ho.
  intros Hd. apply (reinsert_shape _ (fun l => mkDs (ds_interfaces o) (ds_alias o) (ds_bridge o) (ds_vlan o) l [] g)); [|done].
  intros pre r post d' El E. injection E as E1 E2 E3 E4 E5 E6 E7. pose proof (so_lagg _ Ho) as Hn. rewrite El in Hn.
  unfold insert_lagg. reinserted Hn. rewrite E1. by eapply (lagg_fk _ (so_linked _ Ho)), elem_middle.
Qed.

Lemma reinsert_members g d :
  get_datastores d = mkDs (ds_interfaces o) (ds_alias o) (ds_bridge o) (ds_vlan o) (ds_lagg o) [] g ->
  let r := reinsert insert_member (ds_laggmembers o) d in
  get_datastores r.1 = mkDs (ds_interfaces o) (ds_alias o) (ds_bridge o) (ds_vlan o) (ds_lagg o) (ds_laggmembers o) g /\ r.2 = Ok tt.
Proof using Ho.
  intros Hd. apply (reinsert_shape _ (fun l => mkDs (ds_interfaces o) (ds_alias o) (ds_bridge o) (ds_vlan o) (ds_lagg o) l g)); [|done].
  intros pre r post d' El E. injection E as E1 E2 E3 E4 E5 E6 E7.
  pose proof (so_members _ Ho) as Hn. pose proof (ports_nodup _ (so_linked _ Ho)) as Hk. rewrite El in Hn, Hk.
  unfold insert_member. reinserted Hn. rewrite E5, E6. apply andb_true_iff. split.
  - by eapply (member_fk _ (so_linked _ Ho)), elem_middle.
  - apply negb_true_iff, (key_fresh lagg_physnic String.eqb _ post); [apply String.eqb_eq|done].
Qed.

Lemma wiped d : get_datastores (wipe d).1 = mkDs [] [] [] [] [] [] "" /\ (wipe d).2 = Ok tt.
Proof. split; [|done]. unfold get_datastores. simpl. by rewrite !(filter_none (A:=_)). Qed.

Lemma restore_rows_spec d : get_datastores (restore_rows o d).1 = o /\ (restore_rows o d).2 = Ok tt.
Proof using Ho.
  unfold restore_rows, mbind, ste_mbind. destruct (wiped d) as [E1 E2]. destruct (wipe d) as [d0 r0]. simpl in *. subst r0.
  destruct (reinsert_interfaces _ _ E1) as [F1 F2]. destruct (reinsert insert_interfaces _ d0) as [d1 r1]. simpl in *. subst r1.
  destruct (reinsert_alias _ _ F1) as [G1 G2]. destruct (reinsert insert_alias _ d1) as [d2 r2]. simpl in *. subst r2.
  destruct (reinsert_bridge _ _ G1) as [H1 H2]. destruct (reinsert insert_bridge _ d2) as [d3 r3]. simpl in *. subst r3.
  destruct (reinsert_vlan _ _ H1) as [I1 I2]. destruct (reinsert insert_vlan _ d3) as [d4 r4]. simpl in *. subst r4.
  destruct (reinsert_lagg _ _ I1) as [J1 J2]. destruct (reinsert insert_lagg _ d4) as [d5 r5]. simpl in *. subst r5.
  destruct (reinsert_members _ _ J1) as [K1 K2]. destruct (reinsert insert_member _ d5) as [d6 r6]. simpl in *. subst r6.
  split; [|done]. injection K1 as L1 L2 L3 L4 L5 L6 L7. unfold get_datastores. simpl. rewrite L1, L2, L3, L4, L5, L6. by destruct o.
Qed.
End restore.

End NetRestore.
