(* ===== verification/NetSpec.v ===== *)
(** * What pending changes promise

    The service against an abstract specification: two copies of the tables, the
    committed one and the one that is worked on.  Edits change the working copy,
    rolling back makes it the committed one, accepting commits it. *)

From S2P Require Import Prelude PyDict PyStr PyVal PyFormat Errors Ipaddr NetDb Ifaces NetCheck NetOps NetPending NetInv NetRestore.

Module NetSpec.
Import NetDb Ifaces NetCheck NetOps Net NetInv NetRestore.

(** ** The invariant of the service *)

Record inv (s : nst) : Prop := {
  inv_tabs : wf (tabs s);
  inv_saved o : original s = Some o -> saved_ok o;
}.

Lemma net_inv_same s s' : tabs s' = tabs s -> original s' = original s -> inv s -> inv s'.
Proof. intros E1 E2 [H1 H2]. split; [by rewrite E1|]. intros o. rewrite E2. apply H2. Qed.

Lemma safe_set_gateway g : safe (modify (set_ipv4gateway g)).
Proof. intros d [? ? ? ? ? ? [? ? ? ? ? ?]]. split; try done. Qed.
Lemma safe_set_config g f : safe (modify (fun d => set_ipv4gateway g (set_nameservers (f d) d))).
Proof. intros d [? ? ? ? ? ? [? ? ? ? ? ?]]. split; try done. Qed.
#[export] Hint Resolve safe_set_gateway safe_set_config : nettab.

Lemma safe_reinsert {R} `{!Row R} (ins : option Z -> R -> dop Z) l : (forall i r, safe (ins i r)) -> safe (reinsert ins l).
Proof. intros H. unfold reinsert. safe_steps. Qed.
#[export] Hint Resolve safe_reinsert : nettab.

Lemma safe_restore_rows o : safe (restore_rows o).
Proof. unfold restore_rows, wipe. safe_steps. Qed.

(** ** The specification *)

Record spec := mkSpec { committed : datastores; working : datastores }.

Inductive action := Edit | Rollback | Accept | Wait.

Inductive spec_step : action -> spec -> spec -> Prop :=
| spec_edit c w w' : spec_step Edit (mkSpec c w) (mkSpec c w')
| spec_rollback c w : spec_step Rollback (mkSpec c w) (mkSpec c c)
| spec_accept c w : spec_step Accept (mkSpec c w) (mkSpec w w)
| spec_wait c w : spec_step Wait (mkSpec c w) (mkSpec c w).

(** The saved tables are the committed ones; without pending changes the working
    copy is. *)
Definition abs (s : nst) : spec :=
  mkSpec (default (get_datastores (tabs s)) (original s)) (get_datastores (tabs s)).

(** What a call does to the copies. *)
Definition action_of (l : label) (s : nst) : action :=
  match l with
  | LCreate _ _ _ | LUpdate _ _ _ | LDelete _ _ | LSaveConfig _ _ => Edit
  | LCommit e _ r t =>
      match commit_checks e (tabs s), sync_outcome e (tabs s) with
      | Err _, _ => Wait
      | Ok _, Err _ => if r then Rollback else Wait
      | Ok _, Ok _ => if r && negb (t =? 0)%Z then Wait else Accept
      end
  | LCheckin => Accept
  | LCancelRollback => Wait
  | LRollback _ => Rollback
  | LTimer _ h => if bool_decide (h ∈ armed s) then Rollback else Wait
  end.

(** ** Edits *)

(** A call that saves the tables before it writes them. *)
Definition edits {A} (m : nop A) : Prop := forall s, inv s ->
  inv (m s).1 /\ committed (abs (m s).1) = committed (abs s).

Definition pending (s : nst) : Prop := is_Some (original s).

(** Once the tables are saved, writes do not touch the committed copy. *)
Lemma pending_write {A} (m : dop A) s :
  safe m -> inv s -> pending s -> let s' := (on_db m s).1 in inv s' /\ pending s' /\ committed (abs s') = committed (abs s).
Proof.
  intros Hm [Hw Hs] [o Ho]. unfold on_db. specialize (Hm _ Hw). destruct (m (tabs s)) as [d r]. simpl in *.
  split_and!; [by split|by exists o|]. unfold abs. simpl. by rewrite Ho.
Qed.

Lemma save_pending s : inv s -> let s' := (save_datastores s).1 in inv s' /\ pending s' /\ abs s' = abs s.
Proof.
  intros [Hw Hs]. unfold save_datastores, modify. simpl. destruct (original s) as [o|] eqn:Ho.
  - split_and!; [split; [done|]; naive_solver|by exists o|done].
  - split_and!; [|by eexists|by unfold abs; simpl; rewrite Ho]. split; [done|]. intros o [= <-]. by apply saved_of_wf.
Qed.

Lemma edits_reading {A B} (f : db -> result exn A) (k : A -> nop B) : (forall a, edits (k a)) -> edits (reading f ≫= k).
Proof.
  intros Hk s Hs. unfold mbind, ste_mbind, reading. destruct (f (tabs s)) as [a|e]; [by apply Hk|by split].
Qed.

Lemma edits_pending {A B} (m : dop A) (k : A -> nop B) s :
  safe m -> inv s -> pending s -> (forall a s, (k a s).1 = s) ->
  let s' := ((on_db m ≫= k) s).1 in inv s' /\ committed (abs s') = committed (abs s).
Proof.
  intros Hm Hs Hp Hk. unfold mbind, ste_mbind. destruct (pending_write m s Hm Hs Hp) as (H1 & _ & H3).
  destruct (on_db m s) as [s1 [a|e]]; simpl in *; [|done]. by rewrite Hk.
Qed.

Lemma edits_saved {A} (k : nop A) :
  (forall s, inv s -> pending s -> inv (k s).1 /\ committed (abs (k s).1) = committed (abs s)) ->
  edits (_ ← save_datastores; k).
Proof.
  intros Hk s Hs. destruct (save_pending s Hs) as (H1 & H2 & H3). unfold mbind, ste_mbind.
  destruct (save_datastores s) as [s1 [u|e]] eqn:E; [|done]. simpl in *. destruct (Hk s1 H1 H2) as [H4 H5]. split; [done|]. rewrite H5. by injection H3.
Qed.

Lemma edits_create e t data : edits (do_create e t data).
Proof.
  apply edits_reading. intros x. apply edits_saved. intros s Hs Hp.
  by apply (edits_pending _ _ s (safe_create_writes t x) Hs Hp).
Qed.

Lemma edits_update e oid data : edits (do_update e oid data).
Proof.
  apply edits_reading. intros [iface new]. apply edits_saved. intros s Hs Hp.
  destruct (d_name new) as [name|]; [|by split].
  by apply (edits_pending _ _ s (safe_update_rows e iface new data name) Hs Hp).
Qed.

Lemma edits_delete e oid : edits (do_delete e oid).
Proof.
  apply edits_reading. intros iface. apply edits_saved. intros s Hs Hp. by apply (edits_pending _ _ s (safe_delete_writes oid) Hs Hp).
Qed.

Lemma edits_save_config gw ns : edits (save_network_config gw ns).
Proof.
  intros s Hs. unfold save_network_config. rewrite ste_bind_gets. destruct (original s) as [o|] eqn:Ho; [|by split].
  unfold mbind, ste_mbind, expect, reading. destruct (Ip.ip_address gw) as [a|]; [|by split].
  destruct (gateway_reachable a (tabs s)) as [[]|]; [|by split..].
  destruct (pending_write (modify (fun d => set_ipv4gateway (Ip.str a) (set_nameservers (foldl (fun m '(k, v) => Dict.set k v m) (nameservers d) ns) d)))
    s ltac:(auto with nettab) Hs) as (H1 & _ & H2); [by exists o|]. done.
Qed.

(** ** Rolling back *)

Lemma cancel_same s : let s' := (cancel_timer s).1 in tabs s' = tabs s /\ original s' = original s.
Proof. unfold cancel_timer, modify. simpl. by destruct (rollback_timer s). Qed.

Lemma restore_spec s : inv s ->
  let s' := (restore_datastores s).1 in
  (restore_datastores s).2 = Ok tt /\ inv s' /\ original s' = None /\ get_datastores (tabs s') = committed (abs s).
Proof.
  intros [Hw Hs]. unfold restore_datastores. rewrite ste_bind_gets. destruct (original s) as [o|] eqn:Ho; simpl.
  - specialize (Hs o eq_refl). destruct (restore_rows_spec o Hs (tabs s)) as [E1 E2]. pose proof (safe_restore_rows o _ Hw) as Hw'.
    unfold mbind, ste_mbind, on_db. destruct (restore_rows o (tabs s)) as [d r]. simpl in *. subst r. simpl. split_and!; try done. rewrite Ho. done.
  - split_and!; try done; [split; [done|]; by rewrite Ho|by rewrite Ho].
Qed.

(** The outcome of what follows the restoration. *)
Definition rollback_outcome (e : nenv) (d : db) : result exn unit := _ ← post_rollback_outcome e; sync_outcome e d.

Lemma rollback_spec e s : inv s ->
  let s' := (rollback e s).1 in
  inv s' /\ abs s' = mkSpec (committed (abs s)) (committed (abs s)) /\ original s' = None
  /\ (rollback e s).2 = rollback_outcome e (tabs s').
Proof.
  intros Hs. destruct (cancel_same s) as [E1 E2]. destruct (cancel_timer s) as [s1 [u|x]] eqn:Ec; [|done]. simpl in E1, E2.
  assert (inv s1) as Hs1 by (by apply (net_inv_same s)).
  assert (abs s1 = abs s) as Ea by (unfold abs; by rewrite E1, E2).
  destruct (restore_spec s1 Hs1) as (F1 & F2 & F3 & F4). destruct (restore_datastores s1) as [s2 r] eqn:Er. simpl in F1, F2, F3, F4. subst r.
  assert (rollback e s = (s2, rollback_outcome e (tabs s2))) as ->.
  { unfold rollback, mbind, ste_mbind. rewrite Ec, Er. unfold lift, sync, reading, rollback_outcome. by destruct (post_rollback_outcome e). }
  cbn [fst snd]. split_and!; try done. rewrite <-Ea. unfold abs at 1. by rewrite F3, F4.
Qed.

(** What is not saved: the table of link addresses and the nameservers. *)
Definition unsaved (d : db) := (link_address d, nameservers d).
Definition spares_unsaved {A} (m : dop A) : Prop := forall d, unsaved (m d).1 = unsaved d.

Lemma spares_bind {A B} (m : dop A) (f : A -> dop B) : spares_unsaved m -> (forall a, spares_unsaved (f a)) -> spares_unsaved (m ≫= f).
Proof.
  intros Hm Hf d. unfold mbind, ste_mbind. specialize (Hm d). destruct (m d) as [d1 [a|e]]; [|done]. simpl in Hm. by rewrite Hf.
Qed.

Lemma spares_reinsert {R} `{!Row R} (ins : option Z -> R -> dop Z) l : (forall i r, spares_unsaved (ins i r)) -> spares_unsaved (reinsert ins l).
Proof.
  intros H. induction l as [|r l IH]; [done|]. cbn. apply spares_bind; [|by intros []]. apply spares_bind; [apply H|done].
Qed.

Lemma spares_stored {T} (put : T -> db -> db) (o : db -> option (T * Z)) :
  (forall t d, unsaved (put t d) = unsaved d) -> spares_unsaved (fun d => stored put (o d) d).
Proof. intros H d. unfold stored. destruct (o d) as [[t i]|]; [apply H|done]. Qed.

Lemma restore_rows_spares o : spares_unsaved (restore_rows o).
Proof.
  unfold restore_rows, wipe. repeat first [done | apply spares_bind; [|intros ?] | apply spares_reinsert; intros; by apply spares_stored].
Qed.

Lemma restore_spares s : unsaved (tabs (restore_datastores s).1) = unsaved (tabs s).
Proof.
  unfold restore_datastores. rewrite ste_bind_gets. destruct (original s) as [o|]; [|done].
  unfold mbind, ste_mbind, on_db. pose proof (restore_rows_spares o (tabs s)) as H. by destruct (restore_rows o (tabs s)) as [d [[]|]].
Qed.

Lemma rollback_spares e s : unsaved (tabs (rollback e s).1) = unsaved (tabs s).
Proof.
  unfold rollback. unfold mbind, ste_mbind. destruct (cancel_same s) as [E1 _]. destruct (cancel_timer s) as [s1 [u|x]]; simpl in E1; [|by simpl; rewrite E1].
  rewrite <-E1. pose proof (restore_spares s1) as H. destruct (restore_datastores s1) as [s2 [[]|]]; [|done].
  unfold lift, sync, reading. by destruct (post_rollback_outcome e).
Qed.

(** ** Timers *)

(** Edits leave the timers alone. *)
Definition same_timers (s s' : nst) : Prop := rollback_timer s' = rollback_timer s /\ armed s' = armed s.
Definition spares_timers {A} (m : nop A) : Prop := forall s, same_timers s (m s).1.

Lemma timers_bind {A B} (m : nop A) (f : A -> nop B) : spares_timers m -> (forall a, spares_timers (f a)) -> spares_timers (m ≫= f).
Proof.
  intros Hm Hf s. unfold mbind, ste_mbind. destruct (Hm s) as [E1 E2]. destruct (m s) as [s1 [a|e]]; [|done]. simpl in *.
  unfold same_timers. rewrite <-E1, <-E2. apply Hf.
Qed.
Lemma timers_db {A} (m : dop A) : spares_timers (on_db m).
Proof. intros s. unfold on_db. by destruct (m (tabs s)). Qed.
Lemma timers_save : spares_timers save_datastores.
Proof. intros s. unfold save_datastores, modify. simpl. by destruct (original s). Qed.

Definition is_edit (l : label) : bool :=
  match l with LCreate _ _ _ | LUpdate _ _ _ | LDelete _ _ | LSaveConfig _ _ => true | _ => false end.

Lemma edit_timers l s : is_edit l = true -> same_timers s (step l s).
Proof.
  destruct l as [e t data|e oid data|e oid|gw ns| | | | |]; try done; intros _; cbn [step]; revert s;
    match goal with |- forall s, same_timers s (?m s).1 => change (spares_timers m) end;
    unfold do_create, do_update, do_delete, save_network_config;
    repeat first [done | apply timers_db | apply timers_save | apply timers_bind; [|intros ?] | match goal with |- spares_timers (match ?x with _ => _ end) => destruct x end].
Qed.

Lemma edits_timers ls s : Forall (fun l => is_edit l = true) ls -> same_timers s (exec ls s).
Proof.
  revert s. induction ls as [|l ls IH]; intros s; [done|]. intros [Hl Hls]%Forall_cons. destruct (edit_timers l s Hl) as [E1 E2].
  unfold same_timers. rewrite <-E1, <-E2. by apply IH.
Qed.

(** ** Every step *)

Definition simulated (l : label) (s s' : nst) : Prop := inv s' /\ spec_step (action_of l s) (abs s) (abs s').

Lemma abs_rolled s s' : abs s' = mkSpec (committed (abs s)) (committed (abs s)) -> spec_step Rollback (abs s) (abs s').
Proof. intros ->. apply (spec_rollback (committed (abs s)) (working (abs s))). Qed.

Lemma abs_same s s' : tabs s' = tabs s -> original s' = original s -> spec_step Wait (abs s) (abs s').
Proof. intros E1 E2. unfold abs. rewrite E1, E2. constructor. Qed.

Lemma commit_simulated e now r t s : inv s -> simulated (LCommit e now r t) s (step (LCommit e now r t) s).
Proof.
  intros Hs. unfold simulated. simpl. unfold commit, mbind, ste_mbind, rescue, sync, reading.
  destruct (commit_checks e (tabs s)) as [u|x]; [|split; [done|by apply abs_same]].
  destruct (sync_outcome e (tabs s)) as [u'|x].
  - destruct (r && negb (t =? 0)%Z).
    + split; [by apply (net_inv_same s)|by apply abs_same].
    + split; [destruct Hs; by split|]. unfold abs. simpl. constructor.
  - destruct r; [|split; [done|by apply abs_same]]. destruct (rollback_spec e s Hs) as (H1 & H2 & _).
    destruct (rollback e s) as [s1 [|]]; simpl in H1, H2; (split; [done|by apply abs_rolled]).
Qed.

Lemma step_simulated l s : inv s -> simulated l s (step l s).
Proof.
  intros Hs. assert (forall A (m : nop A), edits m -> inv (m s).1 /\ spec_step Edit (abs s) (abs (m s).1)) as He.
  { intros A m Hm. destruct (Hm s Hs) as [H1 H2]. split; [done|]. unfold abs in *. simpl in *. rewrite H2. constructor. }
  destruct l; simpl; unfold simulated; simpl.
  - apply He, edits_create.
  - apply He, edits_update.
  - apply He, edits_delete.
  - apply He, edits_save_config.
  - by apply commit_simulated.
  - destruct (rollback_timer s); (split; [destruct Hs; by split|constructor]).
  - destruct (rollback_timer s); (split; [by apply (net_inv_same s)|by apply abs_same]).
  - destruct (rollback_spec e s Hs) as (H1 & H2 & _). split; [done|by apply abs_rolled].
  - case_bool_decide; [|split; [done|by apply abs_same]]. unfold timer_fires. unfold mbind, ste_mbind, modify.
    set (s1 := set_armed _ s). assert (inv s1) as Hs1 by (by destruct Hs). destruct (rollback_spec e s1 Hs1) as (H1 & H2 & _).
    split; [done|]. by apply abs_rolled.
Qed.

(** Whatever rolls back leaves nothing pending. *)
Lemma rolled_back l s : inv s -> action_of l s = Rollback -> original (step l s) = None.
Proof.
  intros Hs. destruct l as [| | | |e now r t| | |e|e h]; cbn [action_of step]; try done.
  - unfold commit, mbind, ste_mbind, rescue, sync, reading. destruct (commit_checks e (tabs s)) as [u|x]; [|done].
    destruct (sync_outcome e (tabs s)) as [v|x]; [by destruct (r && _)|]. destruct r; [|done]. intros _.
    destruct (rollback_spec e s Hs) as (_ & _ & H & _). by destruct (rollback e s) as [s1 [|]].
  - intros _. by apply rollback_spec.
  - case_bool_decide; [|done]. intros _. unfold timer_fires, mbind, ste_mbind, modify.
    set (s1 := set_armed _ s). assert (inv s1) as Hs1 by (by destruct Hs). by apply (rollback_spec e s1 Hs1).
Qed.

Lemma rolled_spares l s : action_of l s = Rollback -> unsaved (tabs (step l s)) = unsaved (tabs s).
Proof.
  destruct l as [| | | |e now r t| | |e|e h]; cbn [action_of step]; try done.
  - unfold commit, mbind, ste_mbind, rescue, sync, reading. destruct (commit_checks e (tabs s)) as [u|x]; [|done].
    destruct (sync_outcome e (tabs s)) as [v|x]; [by destruct (r && _)|]. destruct r; [|done]. intros _.
    pose proof (rollback_spares e s) as H. by destruct (rollback e s) as [s1 [|]].
  - intros _. apply rollback_spares.
  - case_bool_decide; [|done]. intros _. unfold timer_fires, mbind, ste_mbind, modify. apply (rollback_spares e (set_armed _ s)).
Qed.

(** No call of the history accepts the changes. *)
Fixpoint unaccepted (ls : list label) (s : nst) : Prop :=
  match ls with
  | [] => True
  | l :: ls => action_of l s ≠ Accept /\ unaccepted ls (step l s)
  end.

Lemma edits_unaccepted ls s : Forall (fun l => is_edit l = true) ls -> unaccepted ls s.
Proof.
  revert s. induction ls as [|l ls IH]; intros s; [done|]. intros [Hl Hls]%Forall_cons. split; [by destruct l|by apply IH].
Qed.

Lemma exec_inv_net ls s : inv s -> inv (exec ls s).
Proof.
  revert s. induction ls as [|l ls IH]; intros s Hs; simpl; [done|]. apply IH. by apply step_simulated.
Qed.

Lemma spec_committed a x y : spec_step a x y -> a ≠ Accept -> committed y = committed x.
Proof. by destruct 1. Qed.

Lemma unaccepted_committed ls s : inv s -> unaccepted ls s -> committed (abs (exec ls s)) = committed (abs s).
Proof.
  revert s. induction ls as [|l ls IH]; intros s Hs; simpl; [done|]. intros [Ha Hu]. destruct (step_simulated l s Hs) as [Hi Hp].
  transitivity (committed (abs (step l s))); [by apply IH|]. by apply (spec_committed _ _ _ Hp).
Qed.

End NetSpec.
