(* ===== verification/NetChecked.v ===== *)
(** * What the validation of interfaces establishes

    The errors a check has found stay, so data that is accepted has passed every
    check; and [query] shows every configured interface, so the checks have seen
    them all. *)

From S2P Require Import Prelude PyDict PyStr PyVal PyFormat Errors Ipaddr NetDb Ifaces NetCheck NetOps NetPending NetInv.

Module NetChecked.
Import NetDb Ifaces NetCheck NetOps Net NetInv.

(** ** Errors stay *)

Lemma net_add_if_nil b a m v : add_if b a m v = [] -> v = [] /\ b = false.
Proof. unfold add_if. destruct b; [intros []%VErrors.add_not_nil|done]. Qed.

Lemma fold_nil {A} (f : VErrors.t -> A -> VErrors.t) l v : (forall v x, f v x = [] -> v = []) -> foldl f v l = [] -> v = [].
Proof. intros Hf. revert v. induction l as [|x l IH]; intros v; simpl; [done|]. intros H%IH. by eapply Hf. Qed.

Lemma check_name_nil t schema data v :
  check_name t schema data v = [] -> v = [] /\ forall n, d_name data = Some n -> validate_name t n = None.
Proof.
  unfold check_name. destruct (d_name data) as [n|]; simpl; [|naive_solver].
  destruct (validate_name t n) eqn:E; [intros []%VErrors.add_not_nil|]. intros ->. split; [done|]. by intros ? [= <-].
Qed.

Lemma check_aliases_nil schema used i l v :
  check_aliases schema used i l v = Ok [] ->
  v = [] /\ forall a, a ∈ l -> exists n, alias_network a = Ok n /\
    forall u, u ∈ used -> (if bool_decide (Ip.net_ver n = Ip.V4) then is_inet (fst u) else negb (is_inet (fst u))) = true -> Ip.overlaps (snd u) n = false.
Proof.
  revert i v. induction l as [|a l IH]; intros i v; simpl.
  - intros [= ->]. split; [done|]. by intros a ?%elem_of_nil.
  - destruct (alias_network a) as [n|e] eqn:En; simpl; [|done]. intros [[-> Hx]%net_add_if_nil Hl]%IH. split; [done|].
    intros b [->|Hb]%elem_of_cons; [|by apply Hl]. exists n. split; [done|]. intros u Hu Hk.
    apply (existsb_false _ _ Hx). change (map snd ?l) with (snd <$> l). apply list_elem_of_fmap. exists u. split; [done|]. by apply filter_elem.
Qed.

Lemma check_members_nil schema ifaces u i l v :
  check_members schema ifaces u i l v = [] ->
  v = [] /\ forall m, m ∈ l -> Dict.get m (bridge_used u) = None /\ Dict.get m (lag_used u) = None.
Proof.
  revert i v. induction l as [|a l IH]; intros i v; simpl.
  - intros ->. split; [done|]. by intros a ?%elem_of_nil.
  - intros [Hv Hl]%IH. destruct (negb _); [by apply VErrors.add_not_nil in Hv|].
    destruct (Dict.get a (bridge_used u)) eqn:Eb; [by apply VErrors.add_not_nil in Hv|].
    destruct (Dict.get a (lag_used u)) eqn:El; [by apply VErrors.add_not_nil in Hv|].
    split; [done|]. intros m [->|Hm]%elem_of_cons; auto.
Qed.

Lemma check_ports_nil schema ifaces ds u i l v :
  check_ports schema ifaces ds u i l v = [] ->
  v = [] /\ forall m, m ∈ l -> Dict.get m (bridge_used u) = None /\ Dict.get m (lag_used u) = None /\ m ∉ map int_interface ds.
Proof.
  revert i v. induction l as [|a l IH]; intros i v; simpl.
  - intros ->. split; [done|]. by intros a ?%elem_of_nil.
  - intros [Hv Hl]%IH. destruct (negb _); [by apply VErrors.add_not_nil in Hv|].
    destruct (Dict.get a (lag_used u)) eqn:El; [by apply VErrors.add_not_nil in Hv|].
    destruct (Dict.get a (bridge_used u)) eqn:Eb; [by apply VErrors.add_not_nil in Hv|].
    destruct (Dict.get a (vlan_used u)) eqn:Ev; [by apply VErrors.add_not_nil in Hv|].
    apply net_add_if_nil in Hv as [-> Hn%bool_decide_eq_false]. split; [done|]. intros m [->|Hm]%elem_of_cons; auto.
Qed.

(** What a type's check leaves when it finds nothing. *)
Definition type_checked (t : itype) (data : idata) (ds : list iface_row) (u : used) : Prop :=
  match t with
  | BRIDGE => (forall n, d_name data = Some n -> validate_name BRIDGE n = None) /\
      forall m, m ∈ default [] (d_bridge_members data) -> Dict.get m (bridge_used u) = None /\ Dict.get m (lag_used u) = None
  | LINK_AGGREGATION => (forall n, d_name data = Some n -> validate_name LINK_AGGREGATION n = None) /\
      exists p l, d_lag_protocol data = Some p /\ d_lag_ports data = Some l /\
      forall m, m ∈ l -> Dict.get m (bridge_used u) = None /\ Dict.get m (lag_used u) = None /\ m ∉ map int_interface ds
  | VLAN => (forall n, d_name data = Some n -> validate_name VLAN n = None)
  | _ => True
  end.

Lemma check_vlan_nil schema data ifaces u v :
  check_vlan schema data ifaces u v = [] -> check_name VLAN schema data v = [].
Proof.
  unfold check_vlan. destruct (default None _); [|intros []%VErrors.add_not_nil]. destruct (Dict.get _ ifaces); [|intros []%VErrors.add_not_nil].
  destruct (Dict.get _ (lag_used u)); [intros []%VErrors.add_not_nil|]. destruct (Str.startswith _ _); [intros []%VErrors.add_not_nil|].
  by intros [? _]%net_add_if_nil.
Qed.

Lemma check_physical_nil schema data u v : check_physical schema data u v = Ok [] -> v = [].
Proof.
  unfold check_physical. destruct (d_name data) as [n|]; [|done]. destruct (Dict.get n _) as [k|]; [|by intros [= ->]].
  generalize validation_attrs. intros l [= H]. eapply fold_nil; [|exact H]. intros w [[k' what] b]. by intros [? _]%net_add_if_nil.
Qed.

Lemma check_type_nil t schema data ifaces ds u v :
  check_type t schema data ifaces ds u v = Ok [] -> v = [] /\ type_checked t data ds u.
Proof.
  destruct t; simpl.
  - intros [= [[Hv Hn]%check_name_nil Hm]%check_members_nil]. done.
  - unfold check_lag. destruct (d_lag_protocol data) as [p|] eqn:Ep; [|done]. destruct (d_lag_ports data) as [l|] eqn:El; [|done].
    intros [= [[[[Hv Hn]%check_name_nil _]%net_add_if_nil _]%net_add_if_nil Hm]%check_ports_nil]. split_and!; [done..|]. by exists p, l.
  - by intros ->%check_physical_nil.
  - by intros [= ->].
  - by intros [= [Hv Hn]%check_vlan_nil%check_name_nil].
Qed.

Lemma check_critical_lag_nil schema data v : check_critical_lag schema data v = [] -> v = [].
Proof. unfold check_critical_lag. destruct (_ && _); [by intros ?%VErrors.add_not_nil|by intros [? _]%net_add_if_nil]. Qed.

Lemma check_create_failover_nil schema data v : check_create_failover schema data v = [] -> v = [].
Proof.
  unfold check_create_failover. destruct (existsb _ _); [|done]. apply fold_nil. intros w [[k what] b]. by intros [? _]%net_add_if_nil.
Qed.

Lemma check_failover_nil e t schema data up v data' :
  check_failover e t schema data up v = Ok ([], data') -> v = [] /\ (data' = data \/ data' = pop_failover data).
Proof.
  unfold check_failover. destruct (negb (failover_licensed e)); [intros [= -> <-]; auto|].
  destruct (_ && negb (failover_disabled e)); [done|]. intros [= H <-]. split; [|by left].
  assert (forall w, (if bool_decide (t = LINK_AGGREGATION) && negb up then check_critical_lag schema data w else w) = [] -> w = []) as H1.
  { intros w. destruct (_ && _); [apply check_critical_lag_nil|done]. }
  apply H1 in H. destruct up; [apply net_add_if_nil in H as [H _]|apply check_create_failover_nil in H]; by apply net_add_if_nil in H as [H _].
Qed.

Lemma check_apps_nil e schema data x v : check_apps e schema data x v = [] -> v = [].
Proof.
  unfold check_apps. destruct (app_used_host_ips e); [|done]. apply fold_nil. intros w ip. destruct (Dict.get _ _); [|done]. by intros ?%VErrors.add_not_nil.
Qed.

Lemma automatic_nil f on a m ifaces ds v : automatic f on a m ifaces ds v = Ok [] -> v = [].
Proof.
  unfold automatic. destruct (default false on); [|by intros [= ->]]. destruct (conflict _ _ _); simpl; [|done]. by intros [= [? _]%net_add_if_nil].
Qed.

(** ** Accepted data *)

(** The data that is written is the data that was checked, but for failover. *)
Definition same_but_failover (data data' : idata) : Prop := data' = data \/ data' = pop_failover data.

Record accepted (e : nenv) (d : db) (t : itype) (update : option entry) (data : idata) : Prop := {
  acc_name n : d_name data = Some n -> n ∉ Dict.keys (other_ifaces e d update);
  acc_aliases : exists used, used_networks (other_ifaces e d update) = Ok used /\
    forall a, a ∈ default [] (d_aliases data) -> exists n, alias_network a = Ok n /\
      forall u, u ∈ used -> (if bool_decide (Ip.net_ver n = Ip.V4) then is_inet (fst u) else negb (is_inet (fst u))) = true ->
                Ip.overlaps (snd u) n = false;
  acc_type : exists u, interfaces_used (other_ifaces e d update) = Ok u /\ type_checked t data (other_rows d update) u;
}.

Lemma common_validation_nil e d schema data t update v data' :
  common_validation e d schema data t update v = Ok ([], data') ->
  v = [] /\ accepted e d t update data /\ same_but_failover data data'.
Proof.
  unfold common_validation. set (ifaces := other_ifaces e d update). set (ds := other_rows d update).
  set (v1 := add_if _ _ _ v). intros H.
  apply result_bind_ok in H as (v2 & E2 & H). apply result_bind_ok in H as (v3 & E3 & H).
  apply result_bind_ok in H as (v4 & E4 & H). apply result_bind_ok in H as (u & Eu & H). apply result_bind_ok in H as (v5 & E5 & H).
  apply result_bind_ok in H as ([v6 dat] & E6 & H). injection H as H <-.
  assert (v6 = []) as -> by (destruct update; [by apply check_apps_nil in H|done]).
  apply check_failover_nil in E6 as [[-> _]%net_add_if_nil Hd]. apply check_type_nil in E5 as [-> Ht].
  unfold validate_aliases in E4. apply result_bind_ok in E4 as (used & Eu4 & [-> Ha]%check_aliases_nil).
  apply automatic_nil in E3 as ->. apply automatic_nil in E2. unfold v1 in E2. apply net_add_if_nil in E2 as [-> Hn].
  split_and!; [done| |done]. split; [|by exists used|by exists u].
  intros n En. rewrite En in Hn. rewrite <-Dict.mem_spec. fold ifaces. congruence.
Qed.

Lemma verrors_check_ok v u : VErrors.check v = Ok u -> v = [].
Proof. unfold VErrors.check. by destruct v. Qed.

Lemma create_checks_ok e d t data data' :
  create_checks e d t data = Ok data' -> accepted e d t None data /\ same_but_failover data data'.
Proof.
  unfold create_checks. intros H. apply result_bind_ok in H as (m & _ & H). apply result_bind_ok in H as (u & _ & H).
  apply result_bind_ok in H as ([v x] & E & H). apply result_bind_ok in H as (u2 & ->%verrors_check_ok & [= <-]).
  by apply common_validation_nil in E as (_ & ? & ?).
Qed.

Lemma check_fec_nil e oid t data v : check_fec_mode e oid t data v = [] -> v = [].
Proof.
  unfold check_fec_mode. destruct (d_fec_mode data); [|done]. destruct (is_enterprise e); [|intros []%VErrors.add_not_nil].
  destruct (bool_decide _); [|intros []%VErrors.add_not_nil]. destruct (available_fec_modes e oid); [intros []%VErrors.add_not_nil|].
  destruct (bool_decide _); [done|intros []%VErrors.add_not_nil].
Qed.

Lemma get_instance_ok e oid d x : get_instance e oid d = Ok x -> x ∈ query e d /\ en_name x = oid.
Proof.
  unfold get_instance. destruct (List.find _ _) as [y|] eqn:E; [|done]. intros [= ->]. apply find_elem in E as [Hx En%String.eqb_eq]. done.
Qed.

Lemma update_checks_ok e d oid data iface new :
  update_checks e d oid data = Ok (iface, new) ->
  iface ∈ query e d /\ en_name iface = oid /\ exists full, full = merge (en_data iface) data /\
  accepted e d (en_type iface) (Some iface) full /\ same_but_failover full new.
Proof.
  unfold update_checks. intros H. apply result_bind_ok in H as (x & [Hx En]%get_instance_ok & H).
  apply result_bind_ok in H as ([v n] & E & H). apply result_bind_ok in H as (u & Hv%verrors_check_ok & [= <- <-]).
  apply check_fec_nil in Hv. apply net_add_if_nil in Hv as [-> _]. apply common_validation_nil in E as (_ & Ha & Hs). split_and!; eauto.
Qed.

(** ** Every configured interface is shown *)

(** An entry made from the row. *)
Definition shows (d : db) (r : iface_row) (x : entry) : Prop :=
  exists st ha fake, x = iface_extend (int_interface r) st d (Some r) ha fake.

Lemma configs_get d r : wf d -> r ∈ rows (interfaces d) -> Dict.get (int_interface r) (configs d) = Some r.
Proof.
  intros Hd Hr. apply Dict.elem_get.
  - unfold Dict.wf, Dict.keys, configs. change (map ?f ?l) with (f <$> l). rewrite <-list_fmap_compose. apply (names_nodup _ (wf_linked _ Hd)).
  - unfold configs. change (map ?f ?l) with (f <$> l). apply list_elem_of_fmap. by exists r.
Qed.

Lemma query_shows e d r : wf d -> r ∈ rows (interfaces d) -> exists x, x ∈ query e d /\ en_name x = int_interface r /\ shows d r x.
Proof.
  intros Hd Hr. unfold query, query_dict, Dict.values. destruct (Dict.mem (int_interface r) (kernel_entries e d)) eqn:Em.
  - apply Dict.mem_spec in Em. unfold Dict.keys in Em. apply list_elem_of_fmap in Em as ([k x] & Ek & Hx). simpl in Ek. subst k.
    exists x. split; [rewrite fmap_app, elem_of_app; left; apply list_elem_of_fmap; by exists (int_interface r, x)|].
    unfold kernel_entries in Hx. apply list_elem_of_omap in Hx as ([k st] & _ & H).
    destruct (_ || _); [done|]. destruct (_ && _); [done|]. destruct (st_oserror st); [done|]. injection H as -> <-.
    rewrite (configs_get d r Hd Hr). split; [done|]. by eexists _, _, _.
  - eexists. split.
    + rewrite fmap_app, elem_of_app. right. apply list_elem_of_fmap. eexists (int_interface r, _). split; [simpl; reflexivity|].
      change (map ?f ?l) with (f <$> l). apply list_elem_of_fmap. exists (int_interface r, r). split; [done|]. apply filter_elem.
      split; [by apply Dict.get_Some_elem, configs_get|]. by rewrite Em.
    + split; [done|]. by eexists _, _, _.
Qed.

(** The validation has seen the entry of every other row. *)
Lemma other_shows e d update r : wf d -> r ∈ rows (interfaces d) -> other update (int_interface r) = true ->
  exists x, (int_interface r, x) ∈ other_ifaces e d update /\ shows d r x.
Proof.
  intros Hd Hr Ho. destruct (query_shows e d r Hd Hr) as (x & Hx & En & Hs). exists x. split; [|done]. apply filter_elem. split; [|done].
  change (map ?f ?l) with (f <$> l). apply list_elem_of_fmap. exists x. by rewrite En.
Qed.

Lemma shows_aliases d r x : shows d r x -> d_aliases (en_data x) = Some (shown_aliases d r).
Proof. by intros (st & ha & fake & ->). Qed.

Lemma used_networks_elem ifaces used k x a :
  used_networks ifaces = Ok used -> (k, x) ∈ ifaces -> a ∈ default [] (d_aliases (en_data x)) -> is_inet a || is_inet6 a = true ->
  exists n, alias_network a = Ok n /\ (a, n) ∈ used.
Proof.
  unfold used_networks. intros Hu Hx Ha Ht.
  assert (a ∈ List.filter (fun a => is_inet a || is_inet6 a) (flat_map (fun x => default [] (d_aliases (en_data x))) (Dict.values ifaces))) as Hin.
  { apply filter_elem. split; [|done]. apply list_elem_of_In, in_flat_map. exists x. rewrite <-!list_elem_of_In. split; [|done].
    apply list_elem_of_fmap. by exists (k, x). }
  revert used Hu Hin. generalize (List.filter (fun a => is_inet a || is_inet6 a) (flat_map (fun x => default [] (d_aliases (en_data x))) (Dict.values ifaces))).
  intros l. induction l as [|b l IH]; intros used Hu Hin; [by apply elem_of_nil in Hin|].
  simpl in Hu. apply result_bind_ok in Hu as (p & Ep & Hu). apply result_bind_ok in Hu as (ps & Eps & [= <-]).
  apply result_bind_ok in Ep as (n & En & [= <-]). apply elem_of_cons in Hin as [->|Hin].
  - exists n. split; [done|by left].
  - destruct (IH ps Eps Hin) as (n' & ? & ?). exists n'. split; [done|by right].
Qed.

End NetChecked.
