(* ===== verification/NetClaims.v ===== *)
(** * Claims of interfaces on addresses and ports

    An interface claims the addresses [query] shows for it and, when it is a bridge or
    a link aggregation, its members.  What a write may add is a claim of the
    interface it is about; the claims of the others only get fewer.  With the
    validation of [NetChecked] this keeps networks disjoint and ports exclusive. *)

From S2P Require Import Prelude PyDict PyStr PyVal PyFormat Errors Ipaddr NetDb Ifaces NetCheck NetOps NetPending NetInv NetRestore NetSpec NetChecked.

Module NetClaims.
Import NetDb Ifaces NetCheck NetOps Net NetInv NetRestore NetSpec NetChecked.

(** ** Writes and what they relate *)

(** The tables stay consistent, and those of before and after are related. *)
Section steps.
Context (Rl : db -> db -> Prop) `{!PreOrder Rl}.

Definition leads (d d' : db) : Prop := wf d' /\ Rl d d'.
Definition steps {A} (m : dop A) : Prop := forall d, wf d -> leads d (m d).1.

Lemma leads_refl d : wf d -> leads d d.
Proof. by split. Qed.
Lemma leads_trans d1 d2 d3 : leads d1 d2 -> leads d2 d3 -> leads d1 d3.
Proof. intros [_ H1] [H2 H3]. split; [done|]. by etrans. Qed.

Lemma steps_pure {A} (m : dop A) : (forall d, (m d).1 = d) -> steps m.
Proof. intros H d Hd. rewrite H. by apply leads_refl. Qed.
Lemma steps_ret {A} (a : A) : steps (mret a).
Proof. by apply steps_pure. Qed.
Lemma steps_raise {A} e : steps (A:=A) (raise e).
Proof. by apply steps_pure. Qed.
Lemma steps_gets {A} (f : db -> A) : steps (gets f).
Proof. by apply steps_pure. Qed.
Lemma steps_lift {A} (r : result exn A) : steps (lift r).
Proof. by apply steps_pure. Qed.
Lemma steps_expect {A} (o : option A) e : steps (expect o e).
Proof. by apply steps_pure. Qed.
Lemma steps_bind {A B} (m : dop A) (f : A -> dop B) : steps m -> (forall a, steps (f a)) -> steps (m ≫= f).
Proof.
  intros Hm Hf d Hd. unfold mbind, ste_mbind. pose proof (Hm d Hd) as H. destruct (m d) as [d1 [a|e]]; [|done].
  eapply leads_trans; [exact H|]. apply Hf, H.
Qed.
Lemma steps_rescue {A} (m : dop A) h : steps m -> steps h -> steps (rescue m h).
Proof.
  intros Hm Hh d Hd. unfold rescue. pose proof (Hm d Hd) as H. destruct (m d) as [d1 [a|e]]; [done|].
  pose proof (Hh d1 (proj1 H)) as H'. destruct (h d1) as [d2 [|]]; by eapply leads_trans.
Qed.
Lemma steps_suppress m : steps m -> steps (suppress m).
Proof. intros H d Hd. by apply H. Qed.
Lemma steps_for_each {A} (f : A -> dop unit) l : (forall x, x ∈ l -> steps (f x)) -> steps (for_each f l).
Proof.
  induction l as [|x l IH]; intros H; simpl; [apply steps_ret|]. apply steps_bind; [apply H; by left|]. intros _. apply IH.
  intros y Hy. apply H. by right.
Qed.
End steps.

Create HintDb claims.
#[export] Hint Resolve steps_ret steps_raise steps_gets steps_lift steps_expect : claims.

Ltac grow_steps :=
  repeat first
    [ solve [auto with claims typeclass_instances]
    | apply steps_bind; [typeclasses eauto| |intros ?]
    | match goal with
      | |- steps _ (rescue _ _) => apply steps_rescue; [typeclasses eauto|..]
      | |- steps _ (suppress _) => apply steps_suppress
      | |- steps _ (for_each _ _) => apply steps_for_each; [typeclasses eauto|intros ? ?]
      | |- steps _ (match ?x with _ => _ end) => destruct x
      end ].

(** Only claims of [i] in [N] are new. *)
Definition adds {X} (C : db -> Z -> X -> Prop) (i : Z) (N : X -> Prop) (d d' : db) : Prop :=
  forall j x, C d' j x -> C d j x \/ (j = i /\ N x).

#[export] Instance adds_preorder {X} (C : db -> Z -> X -> Prop) i N : PreOrder (adds C i N).
Proof. split; [by left|]. intros d1 d2 d3 H1 H2 j x [H|H]%H2; auto. Qed.

Notation grown C i N := (leads (adds C i N)).
Notation grows C i N := (steps (adds C i N)).

(** A write that adds no claims. *)
Lemma grows_frame {X} (C : db -> Z -> X -> Prop) i N {A} (m : dop A) : safe m -> (forall d j x, wf d -> C (m d).1 j x -> C d j x) -> grows C i N m.
Proof. intros Hs H d Hd. split; [by apply Hs|]. intros j x Hc. left. by apply H in Hc. Qed.

(** ** Addresses *)

Definition address_claim (d : db) (j : Z) (a : ali) : Prop := exists r, r ∈ rows (interfaces d) /\ i_id r = j /\ a ∈ shown_aliases d r.

(** The address of a row, and that of an alias row. *)
Definition own_alias (r : iface_row) (a : ali) : Prop :=
  (negb (int_dhcp r) || negb (int_ipv6auto r)) && nonempty (int_address r) = true /\ a = mkAli (inet (int_version r)) (int_address r) (Some (int_netmask r)).
Definition row_alias (x : alias_row) (a : ali) : Prop :=
  nonempty (alias_address x) = true /\ a = mkAli (inet (alias_version x)) (alias_address x) (Some (alias_netmask x)).

Lemma shown_alias_spec d r a :
  a ∈ shown_aliases d r <-> own_alias r a \/ exists x, x ∈ rows (alias d) /\ alias_interface x = i_id r /\ row_alias x a.
Proof.
  unfold shown_aliases, own_alias, row_alias, aliases_of. rewrite elem_of_app. split.
  - intros [H|H].
    + left. destruct (_ && _); [by apply list_elem_of_singleton in H|by apply elem_of_nil in H].
    + right. change (map ?f ?l) with (f <$> l) in H. apply list_elem_of_fmap in H as (x & -> & [[Hx E%Z.eqb_eq]%filter_elem Hn]%filter_elem).
      exists x. done.
  - intros [[-> ->]|(x & Hx & E & Hn & ->)]; [left; by left|]. right. change (map ?f ?l) with (f <$> l). apply list_elem_of_fmap. exists x.
    split; [done|]. apply filter_elem. split; [|done]. apply filter_elem. split; [done|]. by apply Z.eqb_eq.
Qed.

(** The claims are those of the interface rows and of the alias rows. *)
Lemma address_claim_spec d j a :
  address_claim d j a <-> exists r, r ∈ rows (interfaces d) /\ i_id r = j /\
    (own_alias r a \/ exists x, x ∈ rows (alias d) /\ alias_interface x = j /\ row_alias x a).
Proof.
  unfold address_claim. setoid_rewrite shown_alias_spec. split; intros (r & Hr & <- & H); exists r; naive_solver.
Qed.

Section addresses.
Context (i : Z) (N : ali -> Prop).
Notation agrows := (grows address_claim i N).

Lemma address_frame {A} (m : dop A) :
  safe m -> (forall d, interfaces (m d).1 = interfaces d) -> (forall d, alias (m d).1 = alias d) -> agrows m.
Proof.
  intros Hs H1 H2. apply grows_frame; [done|]. intros d j a _. unfold address_claim, shown_aliases, aliases_of. by rewrite H1, H2.
Qed.

Lemma agrows_insert_bridge id r : agrows (insert_bridge id r).
Proof. apply address_frame; [auto with nettab|..]; intros d; unfold insert_bridge, stored; by destruct (add_row _ _ _ _) as [[]|]. Qed.
Lemma agrows_insert_vlan id r : agrows (insert_vlan id r).
Proof. apply address_frame; [auto with nettab|..]; intros d; unfold insert_vlan, stored; by destruct (add_row _ _ _ _) as [[]|]. Qed.
Lemma agrows_insert_lagg id r : agrows (insert_lagg id r).
Proof. apply address_frame; [auto with nettab|..]; intros d; unfold insert_lagg, stored; by destruct (add_row _ _ _ _) as [[]|]. Qed.
Lemma agrows_insert_member id r : agrows (insert_member id r).
Proof. apply address_frame; [auto with nettab|..]; intros d; unfold insert_member, stored; by destruct (add_row _ _ _ _) as [[]|]. Qed.
Lemma agrows_insert_link r : agrows (insert_link r).
Proof. apply address_frame; [auto with nettab|..]; intros d; unfold insert_link, stored; by destruct (add_row _ _ _ _) as [[]|]. Qed.
Lemma agrows_delete_vlan p : agrows (delete_vlan p).
Proof. by apply address_frame; [auto with nettab|..]. Qed.
Lemma agrows_delete_members p : agrows (delete_members p).
Proof. by apply address_frame; [auto with nettab|..]. Qed.
Lemma agrows_delete_lagg p : agrows (delete_lagg p).
Proof. by apply address_frame; [auto with nettab|..]. Qed.
Lemma agrows_update_one {R} `{!Row R} (get : db -> table R) put p f :
  safe (update_one get put p f) -> (forall t d, interfaces (put t d) = interfaces d) -> (forall t d, alias (put t d) = alias d) ->
  agrows (update_one get put p f).
Proof. intros Hs H1 H2. apply address_frame; [done|..]; intros d; unfold update_one; destruct (List.filter _ _) as [|y []]; simpl; auto. Qed.
Lemma agrows_update_link k f : agrows (update_link k f).
Proof. apply address_frame; [auto with nettab|..]; intros d; unfold update_link; by destruct (has_id _ _). Qed.

Lemma agrows_delete_alias p : agrows (delete_alias p).
Proof.
  apply grows_frame; [auto with nettab|]. intros d j a _. rewrite !address_claim_spec. intros (r & Hr & E & H). exists r. split_and!; [done..|].
  destruct H as [H|(x & [Hx _]%filter_elem & H)]; [by left|right]. by exists x.
Qed.
Lemma agrows_delete_interfaces p : agrows (delete_interfaces p).
Proof.
  apply grows_frame; [auto with nettab|]. intros d j a _. rewrite !address_claim_spec. intros (r & [Hr _]%filter_elem & E & H).
  exists r. split_and!; [done..|]. destruct H as [H|(x & [Hx _]%filter_elem & H)]; [by left|right]. by exists x.
Qed.

Lemma agrows_insert_alias x :
  alias_interface x = i -> (forall a, row_alias x a -> N a) -> agrows (insert_alias None x).
Proof.
  intros Hi HN d Hd. split; [by apply safe_insert_alias|]. unfold insert_alias, stored.
  destruct (add_row _ _ _ _) as [[t k]|] eqn:E; [|by left]. apply add_row_inv in E as (_ & _ & Er & _). simpl. intros j a.
  rewrite !address_claim_spec. simpl. rewrite Er. intros (r & Hr & Ej & [H|(y & Hy & Eh & Ha)]); [left; exists r; naive_solver|].
  apply elem_of_app in Hy as [Hy|Hy]; [left; exists r; naive_solver|]. apply list_elem_of_singleton in Hy as ->. right. naive_solver.
Qed.

(** A changed interface row that shows no other address than before, or one of [N]
    when it is the row [i]. *)
Lemma agrows_update_interfaces k f :
  (forall r, (forall a, own_alias (with_rid (i_id r) (f r)) a -> own_alias r a) \/ (k = i /\ forall a, own_alias (with_rid (i_id r) (f r)) a -> N a)) ->
  agrows (update_interfaces k f).
Proof.
  intros Hf d Hd. split; [by apply safe_update_interfaces|]. unfold update_interfaces.
  destruct (List.find _ _) as [r0|] eqn:Ef; [|by left]. destruct (existsb _ _); [by left|]. intros j a. rewrite !address_claim_spec. cbn [fst interfaces alias set_interfaces].
  intros (r & (x & Hx & ->)%edit_elem & Ej & [H|H]).
  - destruct (Z.eqb_spec (rid x) k) as [Ek|Nk]; [|left; exists x; naive_solver].
    simpl in Ek. subst k. destruct (Hf x) as [Hs|[Hi Hs]].
    + left. exists x. split_and!; [done..|]. left. by apply Hs.
    + right. split; [simpl in Ej; congruence|]. by apply Hs.
  - left. exists x. split_and!; [done| |by right]. rewrite <-Ej. symmetry. exact (rid_edit (R:=iface_row) k f x).
Qed.

Lemma agrows_reset k : agrows (update_interfaces k reset_port).
Proof. apply agrows_update_interfaces. intros r. left. by intros a [H _]. Qed.
Lemma agrows_rename k name : agrows (update_interfaces k (set_int_interface name)).
Proof. apply agrows_update_interfaces. intros r. by left. Qed.
End addresses.

#[export] Hint Resolve agrows_insert_bridge agrows_insert_vlan agrows_insert_lagg agrows_insert_member agrows_insert_link agrows_delete_vlan
  agrows_delete_members agrows_delete_lagg agrows_update_link agrows_delete_alias agrows_delete_interfaces agrows_reset agrows_rename : claims.

End NetClaims.
