(* ===== verification/NetNets.v ===== *)
(** * Networks of different interfaces do not overlap

    The addresses of [NetClaims] under the operations of the service. *)

From S2P Require Import Prelude PyDict PyStr PyVal PyFormat Errors Ipaddr NetDb Ifaces NetCheck NetOps NetPending NetInv NetRestore NetSpec NetChecked NetClaims.

Module NetNets.
Import NetDb Ifaces NetCheck NetOps Net NetInv NetRestore NetSpec NetChecked NetClaims.

(** ** Properties of the tables through the life of the service *)

Definition same_rows (d d' : db) : Prop :=
  rows (interfaces d') = rows (interfaces d) /\ rows (alias d') = rows (alias d) /\ rows (bridge d') = rows (bridge d) /\
  rows (vlan d') = rows (vlan d) /\ rows (lagg d') = rows (lagg d) /\ rows (laggmembers d') = rows (laggmembers d).

Lemma same_datastores d d' : get_datastores d' = get_datastores d -> same_rows d d'.
Proof. intros H. by injection H. Qed.

Section life.
Context (G : db -> Prop).
Hypothesis G_rows : forall d d', same_rows d d' -> G d -> G d'.
Hypothesis G_create : forall e d t data data', wf d -> G d -> create_checks e d t data = Ok data' -> G (create_writes t data' d).1.
Hypothesis G_update : forall e d oid data iface new name, wf d -> G d -> update_checks e d oid data = Ok (iface, new) ->
  d_name new = Some name -> G (update_rows e iface new data name d).1.
Hypothesis G_delete : forall d oid, wf d -> G d -> G (delete_writes oid d).1.

Record good (s : nst) : Prop := {
  good_inv : inv s;
  good_tabs : G (tabs s);
  good_saved o d : original s = Some o -> get_datastores d = o -> G d;
}.

(** The tables are saved, then written. *)
Lemma good_save s : good s -> good (save_datastores s).1 /\ tabs (save_datastores s).1 = tabs s.
Proof using G_rows.
  intros Hs. pose proof Hs as [Hi Ht _]. unfold save_datastores, modify. simpl. destruct (original s) as [o|] eqn:Ho; [done|]. split; [|done].
  destruct (save_pending s Hi) as (Hi' & _). unfold save_datastores, modify in Hi'. simpl in Hi'. rewrite Ho in Hi'.
  split; [done..|]. simpl. intros o d [= <-] E. by apply (G_rows (tabs s)); [apply same_datastores|].
Qed.

Lemma good_write {A} (m : dop A) s : good s -> safe m -> G (m (tabs s)).1 -> good (on_db m s).1.
Proof using.
  intros [[Hw Hi] Ht Hs] Hm HG. unfold on_db. specialize (Hm _ Hw). destruct (m (tabs s)) as [d r]. by split; [split|..].
Qed.

Lemma good_edit {A B C} (f : db -> result exn A) (m : A -> dop B) (k : A -> B -> nop C) s :
  good s -> (forall a, safe (m a)) -> (forall a b s, (k a b s).1 = s) ->
  (forall a, f (tabs s) = Ok a -> G (m a (tabs s)).1) ->
  good ((a ← reading f; _ ← save_datastores; b ← on_db (m a); k a b) s).1.
Proof using G_rows.
  intros Hs Hm Hk HG. unfold mbind, ste_mbind, reading. destruct (f (tabs s)) as [a|e] eqn:Ef; [|done].
  destruct (good_save s Hs) as [Hs' Et]. destruct (save_datastores s) as [s1 [u|e]] eqn:Es; [|done]. simpl in Hs', Et.
  pose proof (good_write (m a) s1 Hs' (Hm a)) as Hw. rewrite Et in Hw. specialize (Hw (HG a eq_refl)).
  destruct (on_db (m a) s1) as [s2 [b|e]]; [|done]. by rewrite Hk.
Qed.

Lemma good_update s e oid data : good s -> good (do_update e oid data s).1.
Proof using G_rows G_update.
  intros Hs. unfold do_update, mbind, ste_mbind, reading. destruct (update_checks e (tabs s) oid data) as [[iface new]|x] eqn:Ef; [|done].
  destruct (good_save s Hs) as [Hs' Et]. destruct (save_datastores s) as [s1 [u|x]] eqn:Es; [|done]. simpl in Hs', Et.
  unfold lift. destruct (d_name new) as [name|] eqn:En; [|done]. simpl.
  pose proof (good_write (update_rows e iface new data name) s1 Hs' ltac:(apply safe_update_rows)) as Hw. rewrite Et in Hw.
  specialize (Hw (G_update _ _ _ _ _ _ _ (inv_tabs _ (good_inv _ Hs)) (good_tabs _ Hs) Ef En)).
  by destruct (on_db (update_rows e iface new data name) s1) as [s2 [b|x]].
Qed.

Lemma good_rollback e s : good s -> good (rollback e s).1.
Proof using G_rows.
  intros Hs. destruct (rollback_spec e s (good_inv _ Hs)) as (H1 & H2 & H3 & _). split; [done| |by rewrite H3].
  injection H2 as _ H2. destruct (original s) as [o|] eqn:Ho; simpl in H2.
  - by apply (good_saved _ Hs o).
  - apply (G_rows (tabs s)); [by apply same_datastores|apply (good_tabs _ Hs)].
Qed.

Lemma good_same s s' : tabs s' = tabs s -> original s' = original s -> good s -> good s'.
Proof using. intros E1 E2 [Hi Ht Hs]. split; [by apply (net_inv_same s)|by rewrite E1|]. intros o d. rewrite E2. apply Hs. Qed.

Lemma good_accept s s' : tabs s' = tabs s -> original s' = None -> good s -> good s'.
Proof using. intros E1 E2 [[Hw _] Ht Hs]. split; [split; [by rewrite E1|by rewrite E2]|by rewrite E1|by rewrite E2]. Qed.

Lemma good_save_config gw ns s : good s -> good (save_network_config gw ns s).1.
Proof using G_rows.
  intros Hs. unfold save_network_config. rewrite ste_bind_gets. destruct (original s) as [o|] eqn:Ho; [|done].
  unfold mbind, ste_mbind, expect, reading. destruct (Ip.ip_address gw) as [a|]; [|done].
  destruct (gateway_reachable a (tabs s)) as [[]|]; [|done..]. apply good_write; [done|auto with nettab|].
  by apply (G_rows (tabs s)); [|apply (good_tabs _ Hs)].
Qed.

Lemma good_commit e now r t s : good s -> good (commit e now r t s).1.
Proof using G_rows.
  intros Hs. unfold commit, mbind, ste_mbind, rescue, sync, reading. destruct (commit_checks e (tabs s)); [|done].
  destruct (sync_outcome e (tabs s)).
  - destruct (_ && _); [by apply (good_same s)|by apply (good_accept s)].
  - destruct r; [|done]. pose proof (good_rollback e s Hs). by destruct (rollback e s) as [s1 [|]].
Qed.

Lemma good_step l s : good s -> good (step l s).
Proof using G_rows G_create G_update G_delete.
  intros Hs. pose proof (inv_tabs _ (good_inv _ Hs)) as Hw. pose proof (good_tabs _ Hs) as Ht. destruct l; simpl.
  - apply good_edit; [done|intros; apply safe_create_writes|done|]. intros x. by apply G_create.
  - by apply good_update.
  - apply good_edit; [done|intros; apply safe_delete_writes|done|]. intros x _. by apply G_delete.
  - by apply good_save_config.
  - by apply good_commit.
  - destruct (rollback_timer s); by apply (good_accept s).
  - destruct (rollback_timer s); by apply (good_same s).
  - by apply good_rollback.
  - case_bool_decide; [|done]. unfold timer_fires, mbind, ste_mbind, modify. apply good_rollback. by apply (good_same s).
Qed.

Lemma good_exec ls s : good s -> good (exec ls s).
Proof using G_rows G_create G_update G_delete. revert s. induction ls as [|l ls IH]; intros s Hs; simpl; [done|]. by apply IH, good_step. Qed.
End life.

(** ** Converted aliases *)

Definition shown_of (a : addrs) : ali := mkAli (inet (ad_version a)) (ad_address a) (Some (ad_netmask a)).

(** The type of an alias is that of its address. *)
Definition typed (a : ali) : Prop := is_inet a || is_inet6 a = true /\ forall n, alias_network a = Ok n -> is_inet a = bool_decide (Ip.net_ver n = Ip.V4).

(** An alias with the address and the netmask of one of the list. *)
Definition among (l : list ali) (x : ali) : Prop := typed x /\ exists a, a ∈ l /\ al_address x = al_address a /\ al_netmask x = al_netmask a.

Lemma inet_types v : is_inet (mkAli (inet v) "" None) || is_inet6 (mkAli (inet v) "" None) = true.
Proof. unfold inet. by case_bool_decide. Qed.

Lemma shown_typed a ip : Ip.ip_address (ad_address a) = Some ip -> ad_version a = version_num (Ip.ver ip) -> typed (shown_of a).
Proof.
  intros Hip Hv. split; [apply (inet_types (ad_version a))|]. intros n. unfold alias_network, shown_of. simpl. destruct (ad_netmask a) as [p|]; [|done].
  unfold Ip.ip_network. rewrite Hip. simpl. destruct (_ && _); [|done]. intros [= <-]. simpl. rewrite Hv.
  unfold is_inet, inet, version_num. simpl. by destruct (Ip.ver ip).
Qed.

Lemma zip_longest_elem a b c x : x ∈ zip_longest a b c -> forall y, x.1.1 = Some y -> y ∈ a.
Proof.
  revert b c. induction a as [|z a IH]; intros b c; simpl.
  - revert c. induction b as [|w b IHb]; intros c; simpl.
    + change (map ?f ?l) with (f <$> l). intros (v & -> & _)%list_elem_of_fmap. done.
    + intros [->|Hx]%elem_of_cons; [done|]. by apply (IHb (tail c)).
  - intros [->|Hx]%elem_of_cons y; simpl; [intros [= <-]; by left|]. intros E. right. by eapply IH.
Qed.

Lemma convert_alias_ok x a : convert_alias x = Ok a ->
  exists y ip, x.1.1 = Some y /\ ad_address a = al_address y /\ Some (ad_netmask a) = al_netmask y /\
    Ip.ip_address (ad_address a) = Some ip /\ ad_version a = version_num (Ip.ver ip).
Proof.
  destruct x as [[[y|] fa] fva]; simpl; [|done]. destruct (al_netmask y) as [m|] eqn:Em; simpl; [|done].
  destruct (Ip.ip_address (al_address y)) as [ip|] eqn:Ei; [|done]. intros [= <-]. simpl. exists y, ip. done.
Qed.

Lemma mapE_elem {E A B} (f : A -> result E B) l l' y : mapE f l = Ok l' -> y ∈ l' -> exists x, x ∈ l /\ f x = Ok y.
Proof.
  revert l'. induction l as [|x l IH]; intros l'; simpl; [intros [= <-] ?%elem_of_nil; done|].
  intros (z & Ez & (zs & Ezs & [= <-])%result_bind_ok)%result_bind_ok. intros [->|Hy]%elem_of_cons.
  - exists x. split; [by left|done].
  - destruct (IH zs Ezs Hy) as (w & ? & ?). exists w. split; [by right|done].
Qed.

Lemma converted_among data a l : convert_aliases_to_datastore data = Ok (a, l) ->
  (nonempty (ad_address a) = true -> among (default [] (d_aliases data)) (shown_of a)) /\
  forall b, b ∈ l -> among (default [] (d_aliases data)) (shown_of b).
Proof.
  unfold convert_aliases_to_datastore. destruct (d_aliases data) as [da|]; simpl; [|done].
  intros (all & Eall & H)%result_bind_ok.
  assert (forall b, b ∈ all -> among da (shown_of b)) as Hb.
  { intros b (x & Hx & (y & ip & E1 & E2 & E3 & E4 & E5)%convert_alias_ok)%(mapE_elem _ _ _ _ Eall). split; [by eapply shown_typed|].
    exists y. split_and!; [by eapply zip_longest_elem|done..]. }
  destruct all as [|x all]; injection H as <- <-; [split; [done|by intros b ?%elem_of_nil]|]. split; [intros _; apply Hb; by left|].
  intros b Hin. apply Hb. by right.
Qed.

(** ** Writes of addresses *)

Section writes.
Context (i : Z) (N : ali -> Prop).
Notation agrows := (grows address_claim i N).

Lemma row_alias_values a k j x : row_alias (alias_values a k j) x -> x = shown_of a.
Proof. by intros [_ ->]. Qed.

Lemma agrows_insert_aliases l : (forall a, a ∈ l -> N (shown_of a)) -> agrows (insert_aliases i l).
Proof.
  intros H. unfold insert_aliases. apply (steps_for_each _). intros a Ha. apply (steps_bind _); [|intros; apply (steps_ret _)].
  apply agrows_insert_alias; [done|]. intros x ->%row_alias_values. auto.
Qed.

Lemma agrows_set_lag_ports lag l : agrows (set_lag_ports lag l).
Proof. unfold set_lag_ports, set_lag_port. grow_steps. Qed.

Lemma agrows_update_bridge k m s l : agrows (update_bridge k m s l).
Proof. by apply agrows_update_one; [apply safe_update_bridge|..]. Qed.
Lemma agrows_update_lagg k p x r : agrows (update_lagg k p x r).
Proof. by apply agrows_update_one; [apply safe_update_lagg|..]. Qed.
Lemma agrows_update_vlan n v p t c : agrows (update_vlan n v p t c).
Proof.
  pose proof (safe_update_vlan n v p t c) as Hs. unfold update_vlan in *. destruct p, t; [by apply agrows_update_one|by apply (steps_pure _)..].
Qed.
Hint Resolve agrows_set_lag_ports agrows_update_bridge agrows_update_lagg agrows_update_vlan : claims.

Lemma agrows_update_part e iface new data name k : agrows (update_part e iface new data name k).
Proof. unfold update_part, update_link_address, update_bridge_part, update_lag_part, update_vlan_part. grow_steps. Qed.

(** *** Alias rows in place *)

(** Every alias row was there, of the same interface. *)
Definition alias_kept (d d' : db) : Prop :=
  forall r, r ∈ rows (alias d') -> exists r0, r0 ∈ rows (alias d) /\ a_id r0 = a_id r /\ alias_interface r0 = alias_interface r.

Definition tame (d d' : db) : Prop := grown address_claim i N d d' /\ alias_kept d d'.

Lemma tame_refl d : wf d -> tame d d.
Proof. intros H. split; [by apply (leads_refl _)|]. intros r Hr. by exists r. Qed.
Lemma tame_trans d1 d2 d3 : tame d1 d2 -> tame d2 d3 -> tame d1 d3.
Proof.
  intros [H1 H2] [H3 H4]. split; [by eapply (leads_trans _)|]. intros r (r0 & Hr & E1 & E2)%H4. apply H2 in Hr as (r1 & Hr & E3 & E4).
  exists r1. split; [done|]. by rewrite E3, E4.
Qed.

(** The alias rows with the id are of the interface [i]. *)
Definition owned (k : Z) (d : db) : Prop := forall r, r ∈ rows (alias d) -> a_id r = k -> alias_interface r = i.

Lemma tame_owned k d d' : tame d d' -> owned k d -> owned k d'.
Proof. intros [_ H] Ho r (r0 & Hr & E1 & E2)%H E. rewrite <-E2. apply Ho; [done|congruence]. Qed.

Lemma tame_write_alias k a d : wf d -> owned k d -> N (shown_of a) -> tame d (update_alias k (write_alias a) d).1.
Proof.
  intros Hd Ho Ha. pose proof (safe_update_alias k (write_alias a) d Hd) as Hw. unfold update_alias in *.
  destruct (List.find _ _) as [r0|]; [|by apply tame_refl]. destruct (has_id _ _); [|by apply tame_refl].
  cbn [fst] in *. split; [split; [done|]|].
  - intros j x. rewrite !address_claim_spec. cbn [interfaces alias set_alias]. intros (r & Hr & Ej & [H|(y & (z & Hz & ->)%edit_elem & Ey & Hx)]).
    + left. exists r. naive_solver.
    + destruct (Z.eqb_spec (rid z) k) as [Ek|Nk]; [|left; exists r; naive_solver]. right.
      split; [rewrite <-Ey; by apply (Ho z)|]. by apply row_alias_values in Hx as ->.
  - intros r. cbn [interfaces alias set_alias]. intros (z & Hz & ->)%edit_elem. exists z. destruct (Z.eqb_spec (rid z) k); [|done]. done.
Qed.

Lemma pop_at_sub {A} k (l l' : list A) : pop_at k l = Ok l' -> forall x, x ∈ l' -> x ∈ l.
Proof.
  unfold pop_at. destruct (_ <? _); [|done]. intros [= <-] x. rewrite elem_of_app. intros [H|H].
  - by eapply (sublist_subseteq _ _ (sublist_take l k)).
  - by eapply (sublist_subseteq _ _ (sublist_drop l (S k))).
Qed.

Lemma tame_match_alias curr copy k n d :
  wf d -> owned (a_id curr) d -> (forall a, a ∈ copy -> N (shown_of a)) ->
  tame d (match_alias curr k copy n d).1 /\ forall n', (match_alias curr k copy n d).2 = Ok n' -> forall a, a ∈ n' -> a ∈ n.
Proof.
  revert k n d. induction copy as [|a copy IH]; intros k n d Hd Ho Hc; simpl.
  - split; [by apply tame_refl|]. by intros n' [= <-].
  - destruct (String.eqb _ _); [|apply IH; auto; intros; apply Hc; by right].
    set (w := if negb (bool_decide (alias_addrs curr = a)) then update_alias (a_id curr) (write_alias a) else mret tt).
    assert (tame d (w d).1) as Hw.
    { unfold w. destruct (negb _); [|by apply tame_refl]. apply tame_write_alias; [done..|]. apply Hc. by left. }
    unfold mbind, ste_mbind. destruct (w d) as [d1 [u|e]]; [|by split]. unfold lift. destruct (pop_at k n) as [n1|e] eqn:Ep; [|by split].
    simpl in Hw. destruct (IH (S k) n1 d1) as [H1 H2]; [apply Hw|by eapply tame_owned|intros; apply Hc; by right|].
    split; [by eapply tame_trans|]. intros n' E b Hb. eapply pop_at_sub; [exact Ep|]. by eapply H2.
Qed.

Lemma tame_delete_alias p d : wf d -> tame d (delete_alias p d).1.
Proof. intros Hd. split; [by apply agrows_delete_alias|]. intros r [Hr _]%drop_elem. by exists r. Qed.

Lemma tame_match_aliases l n d :
  wf d -> (forall c, c ∈ l -> owned (a_id c) d) -> (forall a, a ∈ n -> N (shown_of a)) ->
  tame d (match_aliases l n d).1 /\ forall n', (match_aliases l n d).2 = Ok n' -> forall a, a ∈ n' -> a ∈ n.
Proof.
  revert n d. induction l as [|c l IH]; intros n d Hd Ho Hn; simpl; [split; [by apply tame_refl|by intros n' [= <-]]|].
  set (w := if existsb _ n then match_alias c 0 n n else _). unfold mbind, ste_mbind.
  assert (tame d (w d).1 /\ forall n', (w d).2 = Ok n' -> forall a, a ∈ n' -> a ∈ n) as [Hw1 Hw2].
  { unfold w. destruct (existsb _ n); [apply tame_match_alias; [done|apply Ho; by left|done]|].
    split; [by apply tame_delete_alias|by intros n' [= <-]]. }
  destruct (w d) as [d1 [n1|e]]; [|by split]. simpl in Hw1. destruct (IH n1 d1) as [H1 H2].
  - apply Hw1.
  - intros x Hx. eapply tame_owned; [done|]. apply Ho. by right.
  - intros a Ha. apply Hn. by eapply Hw2.
  - split; [by eapply tame_trans|]. intros n' E a Ha. eapply Hw2; [done|]. by eapply H2.
Qed.
End writes.

(** ** The operations *)

Lemma own_alias_values c a k name x : own_alias (interface_values c a k name) x -> nonempty (ad_address a) = true /\ x = shown_of a.
Proof. unfold own_alias. simpl. intros [[_ ?]%andb_true_iff ->]. done. Qed.

(** A new interface row: its id is fresh, its claims are among those asked for. *)
Lemma create_row_spec data name d : wf d ->
  match create_interface_row data name d with
  | (d1, Ok (id, aliases)) =>
      wf d1 /\ has_id id (rows (interfaces d)) = false /\ (forall b, b ∈ aliases -> among (default [] (d_aliases data)) (shown_of b)) /\
      grown address_claim id (among (default [] (d_aliases data))) d d1 /\
      bridge d1 = bridge d /\ lagg d1 = lagg d /\ laggmembers d1 = laggmembers d /\
      exists r, rows (interfaces d1) = rows (interfaces d) ++ [r] /\ i_id r = id /\ int_interface r = name
  | (d1, Err _) => d1 = d
  end.
Proof.
  intros Hd. pose proof (safe_create_row data name d Hd) as Hw. unfold create_interface_row in *. unfold mbind, ste_mbind, lift in *.
  destruct (convert_aliases_to_datastore data) as [[a l]|] eqn:Ec; [|done]. destruct (convert_interface_datastore data) as [c|]; [|done].
  unfold insert_interfaces, stored in *. destruct (add_row _ _ _ _) as [[t k]|] eqn:E; [|done]. simpl in *.
  apply converted_among in Ec as [Ha Hl]. apply add_row_inv in E as (_ & Hf & Er & _). split_and!; [done..|split; [done|]|done|done|done|].
  - intros j x. rewrite !address_claim_spec. simpl. rewrite Er. intros (r & Hr & Ej & H).
    apply elem_of_app in Hr as [Hr|Hr]; [left; by exists r|]. apply list_elem_of_singleton in Hr as ->. right. simpl in Ej. subst j.
    split; [done|]. destruct H as [[Hn ->]%own_alias_values|(y & Hy & Ey & _)]; [auto|].
    apply (alias_fk _ (wf_linked _ Hd)) in Hy. simpl in Hy. congruence.
  - eexists. by split.
Qed.

(** The rest of a creation, when the row of the interface is there. *)
Lemma agrows_create_part N t name data id aliases :
  (forall a, a ∈ aliases -> N (shown_of a)) -> grows address_claim id N (create_part t name data id aliases).
Proof.
  intros Ha. pose proof (agrows_insert_aliases id N aliases Ha) as Hi. pose proof (agrows_set_lag_ports id N) as Hl.
  unfold create_part. grow_steps.
Qed.


Lemma fresh_id d : wf d -> has_id (seq (interfaces d) + 1)%Z (rows (interfaces d)) = false.
Proof.
  intros Hd. apply has_id_false. intros r Hr E. pose proof (ids_seq _ (wf_interfaces _ Hd)) as H. rewrite Forall_forall in H.
  specialize (H r Hr). simpl in *. lia.
Qed.

(** Claims only of an interface that was not there before. *)
Lemma create_rows_claims t name data d : wf d ->
  exists id, has_id id (rows (interfaces d)) = false /\ grown address_claim id (among (default [] (d_aliases data))) d (create_rows t name data d).1.
Proof.
  intros Hd. unfold create_rows. unfold mbind at 1, ste_mbind at 1. pose proof (create_row_spec data name d Hd) as H.
  destruct (create_interface_row data name d) as [d1 [[id aliases]|e]].
  - destruct H as (Hw & Hf & Ha & Hg & _). exists id. split; [done|]. eapply (leads_trans _); [exact Hg|].
    apply (steps_rescue _); [by apply agrows_create_part|auto with claims|done].
  - subst d1. exists (seq (interfaces d) + 1)%Z. split; [by apply fresh_id|by apply (leads_refl _)].
Qed.

Lemma create_writes_rows t data d :
  (create_writes t data d).1 = d \/ exists name, (create_writes t data d).1 = (create_rows t name data d).1 /\
    (forall n, d_name data = Some n -> name = n) /\
    (d_name data = None -> exists p, type_prefix t = Ok p /\ get_next p 0 d = Some name).
Proof.
  unfold create_writes, mbind, ste_mbind. destruct (d_name data) as [n|]; simpl.
  - right. exists n. split; [by destruct (create_rows t n data d) as [d1 [|]]|naive_solver].
  - unfold lift. destruct (type_prefix t) as [p|]; simpl; [|by left]. unfold expect. destruct (get_next p 0 d) as [n|] eqn:En; [|by left].
    right. exists n. split; [by destruct (create_rows t n data d) as [d1 [|]]|]. split; [done|]. intros _. by exists p.
Qed.

Lemma create_writes_claims t data d : wf d ->
  exists id, has_id id (rows (interfaces d)) = false /\ grown address_claim id (among (default [] (d_aliases data))) d (create_writes t data d).1.
Proof.
  intros Hd. destruct (create_writes_rows t data d) as [->|(name & -> & _)]; [|by apply create_rows_claims].
  exists (seq (interfaces d) + 1)%Z. split; [by apply fresh_id|by apply (leads_refl _)].
Qed.

Lemma update_addresses_claims new id d : wf d ->
  grown address_claim id (among (default [] (d_aliases new))) d (update_addresses new id d).1.
Proof.
  intros Hd. unfold update_addresses, mbind, ste_mbind, lift. destruct (convert_aliases_to_datastore new) as [[a l]|] eqn:Ec; [|by apply (leads_refl _)].
  destruct (convert_interface_datastore new) as [c|]; [|by apply (leads_refl _)]. apply converted_among in Ec as [Ha Hl].
  set (N := among _) in *. assert (grows address_claim id N (update_interfaces id (fun r => interface_values c a (i_id r) (int_interface r)))) as Hg.
  { apply agrows_update_interfaces. intros r. right. split; [done|]. intros x [? ->]%(own_alias_values c a). auto. }
  specialize (Hg d Hd). destruct (update_interfaces id _ d) as [d1 [u|e]]; [|done]. eapply (leads_trans _); [exact Hg|]. destruct Hg as [Hw _].
  cbn [fst] in *. unfold gets. destruct (tame_match_aliases id N (List.filter (fun x => alias_interface x =? id)%Z (rows (alias d1))) l d1) as [[Hm _] Hs].
  - done.
  - intros x [Hx Ex%Z.eqb_eq]%filter_elem r Hr E. assert (r = x) as ->; [|done]. by apply (key_inj _ _ _ _ (ids_nodup _ (wf_alias _ Hw))).
  - done.
  - destruct (match_aliases _ l d1) as [d2 [rest|e]]; [|done]. eapply (leads_trans _); [exact Hm|].
    apply agrows_insert_aliases; [|apply Hm]. intros b Hb. apply Hl. by eapply Hs.
Qed.

Lemma find_iface_none name d : find_iface name d = None -> forall r, r ∈ rows (interfaces d) -> int_interface r ≠ name.
Proof. intros H r Hr <-. eapply find_none in H; [|by apply list_elem_of_In]. by rewrite String.eqb_refl in H. Qed.

(** Claims only of the interface that is updated. *)
Lemma update_rows_claims e iface new data name d : wf d ->
  exists id, (forall r, r ∈ rows (interfaces d) -> i_id r ≠ id -> int_interface r ≠ en_name iface) /\
    grown address_claim id (among (default [] (d_aliases new))) d (update_rows e iface new data name d).1.
Proof.
  intros Hd. unfold update_rows. rewrite ste_bind_gets. destruct (find_iface (en_name iface) d) as [r|] eqn:Ef.
  - apply find_elem in Ef as [Hr En%String.eqb_eq]. exists (i_id r). split.
    { intros r' Hr' Hne E. apply Hne. f_equal. apply (key_inj _ _ _ _ (names_nodup _ (wf_linked _ Hd))); [done..|congruence]. }
    apply (steps_bind _); [grow_steps|intros _|done]. apply (steps_bind _); [apply agrows_update_part|intros _]. intros d' Hd'. by apply update_addresses_claims.
  - unfold mbind, ste_mbind. pose proof (create_row_spec new (en_name iface) d Hd) as H.
    destruct (create_interface_row new (en_name iface) d) as [d1 [[id aliases]|x]].
    + destruct H as (Hw & Hf & Ha & Hg & _). exists id. split; [intros r Hr _; by eapply find_iface_none|]. eapply (leads_trans _); [exact Hg|].
      refine (steps_rescue _ _ _ _ _ d1 Hw); [|apply steps_suppress; auto with claims].
      apply (steps_bind _); [by apply agrows_insert_aliases|intros; apply agrows_update_part].
    + subst d1. exists 0%Z. split; [intros r Hr _; by eapply find_iface_none|by apply (leads_refl _)].
Qed.

Lemma agrows_delete_network i N fuel oid parents : grows address_claim i N (delete_network_interface fuel oid parents).
Proof.
  revert oid parents. induction fuel as [|fuel IH]; intros oid parents; simpl; [apply (steps_raise _)|]. grow_steps.
Qed.

(** ** Disjoint networks *)

Definition clash (a b : ali) : bool :=
  match alias_network a, alias_network b with Ok m, Ok n => Ip.overlaps m n | _, _ => false end.

Lemma clash_comm a b : clash a b = clash b a.
Proof. unfold clash. destruct (alias_network a), (alias_network b); try done. apply Ip.overlaps_comm. Qed.

Lemma alias_network_ext a b : al_address a = al_address b -> al_netmask a = al_netmask b -> alias_network a = alias_network b.
Proof. unfold alias_network. by intros -> ->. Qed.

Lemma overlaps_version m n : Ip.net_ver m ≠ Ip.net_ver n -> Ip.overlaps m n = false.
Proof. intros H. unfold Ip.overlaps, Ip.contains. rewrite !(bool_decide_eq_false_2 (_ = _)) by congruence. done. Qed.

(** Networks shown for different interfaces do not overlap. *)
Record nets_ok (d : db) : Prop := {
  nets_typed j a : address_claim d j a -> typed a;
  nets_disjoint i j a b : address_claim d i a -> address_claim d j b -> i ≠ j -> clash a b = false;
}.

Lemma nets_grown i N d d' :
  nets_ok d -> grown address_claim i N d d' -> (forall x, N x -> typed x) ->
  (forall x j b, N x -> address_claim d j b -> j ≠ i -> clash x b = false) -> nets_ok d'.
Proof.
  intros [Ht Hj] [_ Hg] HN HNc. split.
  - intros j a [H|[_ H]]%Hg; eauto.
  - intros j k a b [Ha|[-> Ha]]%Hg [Hb|[-> Hb]]%Hg Hne; [eauto| |eauto|done]. rewrite clash_comm. eauto.
Qed.

(** Accepted data asks for networks no other interface has. *)
Lemma accepted_clash e d t update data x j b :
  wf d -> nets_ok d -> accepted e d t update data -> among (default [] (d_aliases data)) x ->
  (forall r, r ∈ rows (interfaces d) -> i_id r = j -> other update (int_interface r) = true) -> address_claim d j b -> clash x b = false.
Proof.
  intros Hd Hn [_ (used & Eu & Ha) _] (Htx & a & Hain & E1 & E2) Ho Hb. pose proof (nets_typed _ Hn _ _ Hb) as [Hk Htb].
  destruct Hb as (r & Hr & Ej & Hb). destruct (other_shows e d update r Hd Hr (Ho r Hr Ej)) as (y & Hy & Hs).
  assert (b ∈ default [] (d_aliases (en_data y))) as Hin by (by rewrite (shows_aliases _ _ _ Hs)).
  destruct (used_networks_elem _ _ _ _ _ Eu Hy Hin Hk) as (nb & Enb & Hu). destruct (Ha a Hain) as (n & En & Hno).
  unfold clash. rewrite (alias_network_ext x a E1 E2), En, Enb. destruct (decide (Ip.net_ver n = Ip.net_ver nb)) as [Ev|Nv]; [|by apply overlaps_version].
  rewrite Ip.overlaps_comm. apply (Hno (b, nb) Hu). simpl. rewrite (Htb nb Enb), Ev. by repeat case_bool_decide.
Qed.

Lemma same_aliases data data' : same_but_failover data data' -> d_aliases data' = d_aliases data.
Proof. by intros [->| ->]. Qed.

Lemma nets_create e d t data data' :
  wf d -> nets_ok d -> create_checks e d t data = Ok data' -> nets_ok (create_writes t data' d).1.
Proof.
  intros Hd Hn [Ha Hs%same_aliases]%create_checks_ok. destruct (create_writes_claims t data' d Hd) as (id & Hf & Hg). rewrite Hs in Hg.
  eapply nets_grown; [done|exact Hg|by intros x [? _]|]. intros x j b Hx Hb _. by eapply accepted_clash.
Qed.

Lemma nets_update e d oid data iface new name :
  wf d -> nets_ok d -> update_checks e d oid data = Ok (iface, new) -> d_name new = Some name ->
  nets_ok (update_rows e iface new data name d).1.
Proof.
  intros Hd Hn (_ & Eo & full & _ & Ha & Hs%same_aliases)%update_checks_ok _.
  destruct (update_rows_claims e iface new data name d Hd) as (id & Hf & Hg). rewrite Hs in Hg.
  eapply nets_grown; [done|exact Hg|by intros x [? _]|]. intros x j b Hx Hb Hne. eapply accepted_clash; [done..| |done].
  intros r Hr E. simpl. apply negb_true_iff, String.eqb_neq, Hf; [done|congruence].
Qed.

Lemma nets_delete d oid : wf d -> nets_ok d -> nets_ok (delete_writes oid d).1.
Proof.
  intros Hd Hn. eapply (nets_grown 0 (fun _ => False)); [done|by apply agrows_delete_network|done|done].
Qed.

Lemma nets_rows d d' : same_rows d d' -> nets_ok d -> nets_ok d'.
Proof.
  intros (E1 & E2 & _) [Ht Hj].
  assert (forall j a, address_claim d' j a -> address_claim d j a) as H.
  { intros j a. unfold address_claim, shown_aliases, aliases_of. by rewrite E1, E2. }
  split; [intros j a ?%H|intros i j a b ?%H ?%H]; eauto.
Qed.

End NetNets.
