(* ===== verification/NetPorts.v ===== *)
(** * A port belongs to one bridge or link aggregation

    The members of bridges and link aggregations under the operations of the
    service, and the names their interfaces have. *)

From S2P Require Import Prelude PyDict PyStr PyVal PyFormat Errors Ipaddr NetDb Ifaces NetCheck NetOps NetPending NetInv NetRestore NetSpec NetChecked NetClaims NetNets.

Module NetPorts.
Import NetDb Ifaces NetCheck NetOps Net NetInv NetRestore NetSpec NetChecked NetClaims NetNets.

(** ** Claims on ports *)

Definition bridge_claim (d : db) (j : Z) (p : string) : Prop := exists b, b ∈ rows (bridge d) /\ b_interface b = j /\ p ∈ b_members b.
Definition lag_claim (d : db) (j : Z) (p : string) : Prop :=
  exists l m, l ∈ rows (lagg d) /\ m ∈ rows (laggmembers d) /\ lagg_interface l = j /\ lagg_interfacegroup m = l_id l /\ lagg_physnic m = p.
Definition port_claim (d : db) (j : Z) (p : string) : Prop := bridge_claim d j p \/ lag_claim d j p.

(** Rows keep their names, and no interface gets a bridge or a link aggregation. *)
Record tighter (d d' : db) : Prop := {
  tight_names r' : r' ∈ rows (interfaces d') -> exists r, r ∈ rows (interfaces d) /\ i_id r = i_id r' /\ int_interface r = int_interface r';
  tight_bridge : map b_interface (rows (bridge d')) `sublist_of` map b_interface (rows (bridge d));
  tight_lagg : map lagg_interface (rows (lagg d')) `sublist_of` map lagg_interface (rows (lagg d));
}.

#[export] Instance tighter_preorder : PreOrder tighter.
Proof.
  split; [intros d; split; [intros r Hr; by exists r|done|done]|]. intros d1 d2 d3 [N1 B1 L1] [N2 B2 L2]. split; [|by etrans|by etrans].
  intros r (r1 & Hr & E1 & E2)%N2. apply N1 in Hr as (r2 & Hr & E3 & E4). exists r2. split; [done|]. by rewrite E3, E4.
Qed.

Definition ports_step (i : Z) (N : string -> Prop) (d d' : db) : Prop := adds port_claim i N d d' /\ tighter d d'.

#[export] Instance ports_step_preorder i N : PreOrder (ports_step i N).
Proof. split; [by intros d|]. intros d1 d2 d3 [H1 H2] [H3 H4]. split; by etrans. Qed.

Section ports.
Context (i : Z) (N : string -> Prop).
Notation psteps := (steps (ports_step i N)).

(** Writes of the other tables, and of rows that stay where they are. *)
Lemma port_frame {A} (m : dop A) :
  safe m -> (forall d, bridge (m d).1 = bridge d) -> (forall d, lagg (m d).1 = lagg d) -> (forall d, laggmembers (m d).1 = laggmembers d) ->
  (forall d, interfaces (m d).1 = interfaces d) -> psteps m.
Proof.
  intros Hs H1 H2 H3 H4 d Hd. split; [by apply Hs|]. split.
  - intros j p. unfold port_claim, bridge_claim, lag_claim. rewrite H1, H2, H3. by left.
  - split; [rewrite H4; intros r Hr; by exists r|by rewrite H1|by rewrite H2].
Qed.

Lemma psteps_insert_alias id r : psteps (insert_alias id r).
Proof. apply port_frame; [auto with nettab|..]; intros d; unfold insert_alias, stored; by destruct (add_row _ _ _ _) as [[]|]. Qed.
Lemma psteps_insert_vlan id r : psteps (insert_vlan id r).
Proof. apply port_frame; [auto with nettab|..]; intros d; unfold insert_vlan, stored; by destruct (add_row _ _ _ _) as [[]|]. Qed.
Lemma psteps_insert_link r : psteps (insert_link r).
Proof. apply port_frame; [auto with nettab|..]; intros d; unfold insert_link, stored; by destruct (add_row _ _ _ _) as [[]|]. Qed.
Lemma psteps_delete_alias p : psteps (delete_alias p).
Proof. by apply port_frame; [auto with nettab|..]. Qed.
Lemma psteps_delete_vlan p : psteps (delete_vlan p).
Proof. by apply port_frame; [auto with nettab|..]. Qed.
Lemma psteps_update_alias k f : psteps (update_alias k f).
Proof.
  apply port_frame; [auto with nettab|..]; intros d; unfold update_alias; destruct (List.find _ _); try done; by destruct (has_id _ _).
Qed.
Lemma psteps_update_link k f : psteps (update_link k f).
Proof. apply port_frame; [auto with nettab|..]; intros d; unfold update_link; by destruct (has_id _ _). Qed.
Lemma psteps_update_vlan n v p t c : psteps (update_vlan n v p t c).
Proof.
  pose proof (safe_update_vlan n v p t c) as Hs. unfold update_vlan, update_one in *.
  destruct p, t; try by (apply (steps_pure _)). apply port_frame; [done|..]; intros d; by destruct (List.filter _ _) as [|y []].
Qed.

(** Fewer rows. *)
Lemma port_shrink d d' :
  rows (interfaces d') `sublist_of` rows (interfaces d) -> rows (bridge d') `sublist_of` rows (bridge d) ->
  rows (lagg d') `sublist_of` rows (lagg d) -> rows (laggmembers d') `sublist_of` rows (laggmembers d) -> ports_step i N d d'.
Proof.
  intros Hi Hb Hl Hm. split.
  - intros j p [(b & Hin & H)|(l & m & Hin & Hin' & H)]; left.
    + left. exists b. split; [|done]. by eapply sublist_subseteq.
    + right. exists l, m. split; [by eapply sublist_subseteq|]. split; [|done]. by eapply sublist_subseteq.
  - split; [intros r Hr; exists r; split; [by eapply sublist_subseteq|done]|by apply fmap_sublist|by apply fmap_sublist].
Qed.

Lemma psteps_delete_members p : psteps (delete_members p).
Proof. intros d Hd. split; [by apply safe_delete_members|]. apply port_shrink; try done. apply filter_sublist. Qed.
Lemma psteps_delete_lagg p : psteps (delete_lagg p).
Proof. intros d Hd. split; [by apply safe_delete_lagg|]. apply port_shrink; try done; apply filter_sublist. Qed.
Lemma psteps_delete_interfaces p : psteps (delete_interfaces p).
Proof. intros d Hd. split; [by apply safe_delete_interfaces|]. apply port_shrink; apply filter_sublist. Qed.

(** An interface row that keeps its name. *)
Lemma psteps_update_interfaces k f : (forall r, int_interface (f r) = int_interface r) -> psteps (update_interfaces k f).
Proof.
  intros Hf d Hd. split; [by apply safe_update_interfaces|]. unfold update_interfaces. destruct (List.find _ _); [|done]. destruct (existsb _ _); [done|].
  split; [by left|]. split; [|done|done]. intros r. cbn [fst interfaces set_interfaces]. intros (x & Hx & ->)%edit_elem. exists x.
  split; [done|]. destruct (Z.eqb_spec (rid x) k) as [E|]; [|done]. simpl. split; [done|by rewrite Hf].
Qed.

Lemma psteps_update_bridge m s l : (forall ps p, m = Some ps -> p ∈ ps -> N p) -> psteps (update_bridge i m s l).
Proof.
  intros HN d Hd. split; [by apply safe_update_bridge|]. unfold update_bridge, update_one. destruct (List.filter _ _) as [|y []] eqn:Ef; try done.
  assert (y ∈ rows (bridge d) /\ b_interface y = i) as [Hy Ey].
  { assert (y ∈ List.filter (fun b => (b_interface b =? i)%Z) (rows (bridge d))) as H by (rewrite Ef; by left). apply filter_elem in H as [? ?%Z.eqb_eq]. done. }
  split.
  - intros j p. cbn [fst]. intros [(b & (x & Hx & ->)%edit_elem & Ej & Hp)|H]; [|left; by right].
    destruct (Z.eqb_spec (rid x) (rid y)) as [E|]; [|left; left; by exists x].
    assert (x = y) as -> by (by apply (key_inj _ _ _ _ (ids_nodup _ (wf_bridge _ Hd)))). simpl in Ej, Hp.
    destruct m as [ps|]; simpl in Hp; [right; split; [congruence|by eapply HN]|left; left; by exists y].
  - split; [intros r Hr; by exists r| |done]. cbn [fst bridge set_bridge]. by rewrite (map_edit_key b_interface).
Qed.

Lemma psteps_update_lagg p x r : psteps (update_lagg i p x r).
Proof.
  intros d Hd. split; [by apply safe_update_lagg|]. unfold update_lagg, update_one. destruct (List.filter _ _) as [|y []] eqn:Ef; try done. split.
  - intros j q. cbn [fst]. intros [H|(l & m & (z & Hz & ->)%edit_elem & Hm & E1 & E2 & E3)]; left; [by left|]. right. exists z, m.
    destruct (Z.eqb_spec (rid z) (rid y)) as [E|]; [|done]. split_and!; try done. by rewrite E2.
  - split; [intros z Hz; by exists z|done|]. cbn [fst lagg set_lagg]. by rewrite (map_edit_key lagg_interface).
Qed.

(** *** Members of a link aggregation *)

Definition lag_owned (lag : Z) (d : db) : Prop := forall l, l ∈ rows (lagg d) -> l_id l = lag -> lagg_interface l = i.

Lemma insert_member_ports lag idx p d : wf d -> lag_owned lag d -> N p ->
  leads (ports_step i N) d (insert_member None (mkMember 0 idx p lag) d).1.
Proof.
  intros Hd Ho HN. split; [by apply safe_insert_member|]. unfold insert_member, stored. destruct (add_row _ _ _ _) as [[t k]|] eqn:E; [|done].
  apply add_row_inv in E as (_ & _ & Er & _). split; [|split; [intros r Hr; by exists r|done|done]].
  intros j q. cbn [fst]. intros [H|(l & m & Hl & Hm & E1 & E2 & E3)]; [left; by left|]. cbn [lagg laggmembers set_laggmembers] in *. rewrite Er in Hm.
  apply elem_of_app in Hm as [Hm|Hm]; [left; right; by exists l, m|]. apply list_elem_of_singleton in Hm as ->. right. simpl in *.
  split; [rewrite <-E1; by apply Ho|congruence].
Qed.

(** The table of link aggregations does not change. *)
Definition lag_frame {A} (m : dop A) : Prop := forall d, lagg (m d).1 = lagg d.

Lemma lag_frame_bind {A B} (m : dop A) (f : A -> dop B) : lag_frame m -> (forall a, lag_frame (f a)) -> lag_frame (m ≫= f).
Proof. intros Hm Hf d. unfold mbind, ste_mbind. specialize (Hm d). destruct (m d) as [d1 [a|e]]; [|done]. by rewrite Hf. Qed.

Lemma lag_frame_reset k f : lag_frame (update_interfaces k f).
Proof. intros d. unfold update_interfaces. destruct (List.find _ _); [|done]. by destruct (existsb _ _). Qed.

Lemma lag_frame_port lag x : lag_frame (set_lag_port lag x).
Proof.
  destruct x as [k p]. unfold set_lag_port. apply lag_frame_bind.
  - intros d. unfold insert_member, stored. by destruct (add_row _ _ _ _) as [[]|].
  - intros _. apply lag_frame_bind; [done|]. intros [r|]; [|done]. apply lag_frame_bind; [apply lag_frame_reset|done].
Qed.

Lemma set_lag_port_ports lag k p d : wf d -> lag_owned lag d -> N p -> leads (ports_step i N) d (set_lag_port lag (k, p) d).1.
Proof.
  intros Hd Ho HN. unfold set_lag_port, mbind at 1, ste_mbind at 1. pose proof (insert_member_ports lag (Z.of_nat k) p d Hd Ho HN) as H.
  destruct (insert_member _ _ d) as [d1 [u|e]]; [|done]. eapply (leads_trans _); [exact H|]. cbn [fst] in H.
  apply (steps_bind _); [apply (steps_gets _)| |apply H]. intros [r|]; [|apply (steps_ret _)].
  apply (steps_bind _); [by apply psteps_update_interfaces|]. intros _. apply psteps_delete_alias.
Qed.

Lemma set_lag_ports_ports lag l d : wf d -> lag_owned lag d -> (forall p, p ∈ l -> N p) -> leads (ports_step i N) d (set_lag_ports lag l d).1.
Proof.
  unfold set_lag_ports. intros Hd Ho HN. assert (forall x, x ∈ imap (fun k p => (k, p)) l -> N x.2) as HN'.
  { intros x (k & p & -> & Hk)%elem_of_lookup_imap. apply HN. by eapply list_elem_of_lookup_2. }
  revert HN' d Hd Ho. generalize (imap (fun k p => (k, p)) l). clear HN. intros xs. induction xs as [|[k p] xs IH]; intros HN d Hd Ho; cbn [for_each].
  - by apply (leads_refl _).
  - unfold mbind, ste_mbind. pose proof (set_lag_port_ports lag k p d Hd Ho (HN (k, p) ltac:(by left))) as H. pose proof (lag_frame_port lag (k, p) d) as Hf.
    destruct (set_lag_port lag (k, p) d) as [d1 [u|e]]; [|done]. eapply (leads_trans _); [exact H|]. apply IH; [|apply H|].
    + intros x Hx. apply HN. by right.
    + unfold lag_owned. simpl in Hf. by rewrite Hf.
Qed.
End ports.

#[export] Hint Resolve psteps_insert_alias psteps_insert_vlan psteps_insert_link psteps_delete_alias psteps_delete_vlan psteps_update_alias
  psteps_update_link psteps_update_vlan psteps_delete_members psteps_delete_lagg psteps_delete_interfaces psteps_update_lagg : claims.

(** ** Names of bridges and link aggregations *)

(** A bridge is on an interface with the name of a bridge, an interface has at most
    one; so for link aggregations. *)
Record kinds (d : db) : Prop := {
  kind_bridge b r : b ∈ rows (bridge d) -> r ∈ rows (interfaces d) -> i_id r = b_interface b -> Str.startswith "br" (int_interface r) = true;
  kind_lagg l r : l ∈ rows (lagg d) -> r ∈ rows (interfaces d) -> i_id r = lagg_interface l -> Str.startswith "bond" (int_interface r) = true;
  one_bridge : NoDup (map b_interface (rows (bridge d)));
  one_lagg : NoDup (map lagg_interface (rows (lagg d)));
}.

Lemma sublist_map_elem {A} (f : A -> Z) l l' x : map f l' `sublist_of` map f l -> x ∈ l' -> exists y, y ∈ l /\ f y = f x.
Proof.
  intros Hs Hx. assert (f x ∈ map f l) as H.
  { apply (sublist_subseteq _ _ Hs). change (map f l') with (f <$> l'). by apply list_elem_of_fmap_2. }
  change (map f l) with (f <$> l) in H. apply list_elem_of_fmap in H as (y & E & Hy). by exists y.
Qed.

Lemma kinds_tighter d d' : tighter d d' -> kinds d -> kinds d'.
Proof.
  intros [Tn Tb Tl] [Kb Kl Ob Ol]. split.
  - intros b r Hb (r0 & Hr & E1 & E2)%Tn E. apply (sublist_map_elem _ _ _ _ Tb) in Hb as (b0 & Hb & Eb). rewrite <-E2. apply (Kb b0); [done..|congruence].
  - intros l r Hl (r0 & Hr & E1 & E2)%Tn E. apply (sublist_map_elem _ _ _ _ Tl) in Hl as (l0 & Hl & El). rewrite <-E2. apply (Kl l0); [done..|congruence].
  - eapply sublist_NoDup; [exact Ob|done].
  - eapply sublist_NoDup; [exact Ol|done].
Qed.

Lemma snoc_NoDup {A} (f : A -> Z) l x : NoDup (map f l) -> (forall y, y ∈ l -> f y ≠ f x) -> NoDup (map f (l ++ [x])).
Proof.
  intros Hn Hf. rewrite map_app. apply NoDup_app. split_and!; [done| |apply NoDup_singleton]. change (map f l) with (f <$> l).
  intros z (y & -> & Hy)%list_elem_of_fmap E%list_elem_of_singleton. by apply (Hf y).
Qed.

Lemma kinds_insert_bridge b d :
  kinds d -> (forall b', b' ∈ rows (bridge d) -> b_interface b' ≠ b_interface b) ->
  (forall r, r ∈ rows (interfaces d) -> i_id r = b_interface b -> Str.startswith "br" (int_interface r) = true) -> kinds (insert_bridge None b d).1.
Proof.
  intros [Kb Kl Ob Ol] Hf Hn. unfold insert_bridge, stored. destruct (add_row _ _ _ _) as [[t k]|] eqn:E; [|done].
  apply add_row_inv in E as (_ & _ & Er & _). split; [|done| |done]; cbn [fst bridge interfaces set_bridge]; rewrite Er.
  - intros b' r [Hb|Hb]%elem_of_app; [by apply Kb|]. apply list_elem_of_singleton in Hb as ->. apply Hn.
  - by apply snoc_NoDup.
Qed.

Lemma kinds_insert_lagg l d :
  kinds d -> (forall l', l' ∈ rows (lagg d) -> lagg_interface l' ≠ lagg_interface l) ->
  (forall r, r ∈ rows (interfaces d) -> i_id r = lagg_interface l -> Str.startswith "bond" (int_interface r) = true) -> kinds (insert_lagg None l d).1.
Proof.
  intros [Kb Kl Ob Ol] Hf Hn. unfold insert_lagg, stored. destruct (add_row _ _ _ _) as [[t k]|] eqn:E; [|done].
  apply add_row_inv in E as (_ & _ & Er & _). split; [done| |done|]; cbn [fst lagg interfaces set_lagg]; rewrite Er.
  - intros l' r [Hl|Hl]%elem_of_app; [by apply Kl|]. apply list_elem_of_singleton in Hl as ->. apply Hn.
  - by apply snoc_NoDup.
Qed.

(** The interface has no bridge and no link aggregation. *)
Definition vacant (id : Z) (d : db) : Prop :=
  (forall b, b ∈ rows (bridge d) -> b_interface b ≠ id) /\ (forall l, l ∈ rows (lagg d) -> lagg_interface l ≠ id).

(** A new row, before anything is put on it. *)
Lemma create_row_ports data name d id aliases d1 : wf d -> kinds d ->
  create_interface_row data name d = (d1, Ok (id, aliases)) ->
  wf d1 /\ kinds d1 /\ vacant id d1 /\ (forall j p, port_claim d1 j p <-> port_claim d j p) /\
  has_id id (rows (interfaces d)) = false /\ (forall r, r ∈ rows (interfaces d1) -> i_id r = id -> int_interface r = name).
Proof.
  intros Hd [Kb Kl Ob Ol] E. pose proof (create_row_spec data name d Hd) as H. rewrite E in H.
  destruct H as (Hw & Hf & _ & _ & E1 & E2 & E3 & r & Er & Eid & En). pose proof (wf_linked _ Hd) as L. rewrite has_id_false in Hf.
  assert (forall i, has_id i (rows (interfaces d)) = true -> i ≠ id) as Hne.
  { intros i (x & Hx & <-)%has_id_spec. by apply Hf. }
  split_and!; [done|split| |by unfold port_claim, bridge_claim, lag_claim; rewrite E1, E2, E3|by apply has_id_false|].
  - intros b x. rewrite E1, Er. intros Hb Hx Ei. apply elem_of_app in Hx as [Hx|Hx]; [by apply (Kb b)|].
    apply list_elem_of_singleton in Hx as ->. apply (bridge_fk _ L) in Hb. apply Hne in Hb. congruence.
  - intros l x. rewrite E2, Er. intros Hl Hx Ei. apply elem_of_app in Hx as [Hx|Hx]; [by apply (Kl l)|].
    apply list_elem_of_singleton in Hx as ->. apply (lagg_fk _ L) in Hl. apply Hne in Hl. congruence.
  - by rewrite E1.
  - by rewrite E2.
  - split; [rewrite E1; intros b Hb|rewrite E2; intros l Hl]; apply Hne; [by apply (bridge_fk _ L)|by apply (lagg_fk _ L)].
  - intros x. rewrite Er. intros [Hx|Hx]%elem_of_app Ex; [by apply Hf in Hx|]. apply list_elem_of_singleton in Hx as ->. done.
Qed.

(** ** Creation *)

(** Consistent tables, with new claims of [i] in [N] only. *)
Record sound (i : Z) (N : string -> Prop) (d d' : db) : Prop := {
  sound_wf : wf d';
  sound_kinds : kinds d';
  sound_adds : adds port_claim i N d d';
}.

Lemma sound_refl i N d : wf d -> kinds d -> sound i N d d.
Proof. intros Hd Hk. split; [done..|]. by left. Qed.
Lemma sound_trans i N d1 d2 d3 : sound i N d1 d2 -> sound i N d2 d3 -> sound i N d1 d3.
Proof. intros [_ _ H1] [H2 H3 H4]. split; [done..|]. by etrans. Qed.
Lemma sound_leads i N d d' : kinds d -> leads (ports_step i N) d d' -> sound i N d d'.
Proof. intros Hk [Hw [Ha Ht]]. split; [done|by eapply kinds_tighter|done]. Qed.
Lemma sound_rescue {A} i N (m : dop A) h d :
  sound i N d (m d).1 -> steps (ports_step i N) h -> sound i N d (rescue m h d).1.
Proof.
  intros Hm Hh. unfold rescue. destruct (m d) as [d1 [a|e]]; [done|]. cbn [fst] in Hm. pose proof (Hh d1 (sound_wf _ _ _ _ Hm)) as H.
  apply (sound_leads i N) in H; [|apply Hm]. destruct (h d1) as [d2 [|]]; by eapply sound_trans.
Qed.

Lemma psteps_insert_aliases i N id l : steps (ports_step i N) (insert_aliases id l).
Proof. unfold insert_aliases. grow_steps. Qed.
#[local] Hint Resolve psteps_insert_aliases : claims.

(** The ports a request asks for. *)
Definition wanted (t : itype) (data : idata) (p : string) : Prop :=
  match t with
  | BRIDGE => p ∈ default [] (d_bridge_members data)
  | LINK_AGGREGATION => p ∈ default [] (d_lag_ports data)
  | _ => False
  end.

Section create.
Context (name : string) (data : idata) (id : Z) (d : db).
Hypothesis Hd : wf d.
Hypothesis Hk : kinds d.
Hypothesis Hv : vacant id d.
Hypothesis Hname : forall r, r ∈ rows (interfaces d) -> i_id r = id -> int_interface r = name.

Lemma insert_bridge_sound m s l :
  Str.startswith "br" name = true -> sound id (fun p => p ∈ m) d (insert_bridge None (mkBridge 0 m id s l) d).1.
Proof using Hd Hk Hv Hname.
  intros Hb. split.
  - by apply safe_insert_bridge.
  - apply kinds_insert_bridge; [done|apply Hv|]. intros r Hr E. by rewrite (Hname r Hr E).
  - unfold insert_bridge, stored. destruct (add_row _ _ _ _) as [[t k]|] eqn:E; [|done]. apply add_row_inv in E as (_ & _ & Er & _).
    intros j p. cbn [fst]. intros [(b & Hin & Ej & Hp)|H]; [|left; by right]. cbn [bridge set_bridge] in Hin. rewrite Er in Hin.
    apply elem_of_app in Hin as [Hin|Hin]; [left; left; by exists b|]. apply list_elem_of_singleton in Hin as ->. by right.
Qed.

Lemma insert_lagg_sound N row : lagg_interface row = id -> Str.startswith "bond" name = true ->
  sound id N d (insert_lagg None row d).1 /\ forall lag, (insert_lagg None row d).2 = Ok lag -> lag_owned id lag (insert_lagg None row d).1.
Proof using Hd Hk Hv Hname.
  intros Hi Hb. split; [split|].
  - by apply safe_insert_lagg.
  - apply kinds_insert_lagg; [done|rewrite Hi; apply Hv|]. intros r Hr E. rewrite (Hname r Hr); [done|congruence].
  - unfold insert_lagg, stored. destruct (add_row _ _ _ _) as [[t k]|] eqn:E; [|done]. apply add_row_inv in E as (_ & Hf & Er & _).
    intros j p. cbn [fst]. intros [H|(l & m & Hl & Hm & E1 & E2 & E3)]; left; [by left|]. right. cbn [lagg laggmembers set_lagg] in *. rewrite Er in Hl.
    apply elem_of_app in Hl as [Hl|Hl]; [by exists l, m|]. apply list_elem_of_singleton in Hl as ->. exfalso.
    apply (member_fk _ (wf_linked _ Hd)) in Hm. simpl in Hm, E2. congruence.
  - unfold insert_lagg, stored. destruct (add_row _ _ _ _) as [[t k]|] eqn:E; [|done]. apply add_row_inv in E as (_ & Hf & Er & _).
    intros lag [= <-] l. cbn [fst lagg set_lagg]. rewrite Er. intros [Hl|Hl]%elem_of_app El.
    + rewrite has_id_false in Hf. by apply Hf in Hl.
    + by apply list_elem_of_singleton in Hl as ->.
Qed.

Lemma create_bridge_sound aliases : Str.startswith "br" name = true ->
  sound id (wanted BRIDGE data) d (create_part BRIDGE name data id aliases d).1.
Proof using Hd Hk Hv Hname.
  intros Hb. unfold create_part, mbind, ste_mbind, lift. destruct (d_bridge_members data) as [m|] eqn:Em; [|by apply sound_refl].
  destruct (d_stp data) as [s|]; [|by apply sound_refl]. destruct (d_enable_learning data) as [l|]; [|by apply sound_refl]. cbn [item].
  assert (sound id (wanted BRIDGE data) d (insert_bridge None (mkBridge 0 m id s l) d).1) as H.
  { destruct (insert_bridge_sound m s l Hb) as [H1 H2 H3]. split; [done..|]. unfold wanted. by rewrite Em. }
  destruct (insert_bridge _ _ d) as [d1 [u|e]]; [|done]. eapply sound_trans; [exact H|]. apply sound_leads; [apply H|].
  apply psteps_insert_aliases, H.
Qed.

Lemma create_lagg_interface row : create_lagg_row data id = Ok row -> lagg_interface row = id.
Proof using.
  unfold create_lagg_row. destruct (d_lag_protocol data) as [p|]; simpl; [|done]. destruct (_ || _); simpl; [|by intros [= <-]].
  destruct (d_xmit_hash_policy data); simpl; [|done]. destruct (String.eqb _ _); [|by intros [= <-]].
  destruct (d_lacpdu_rate data); simpl; [|done]. by intros [= <-].
Qed.

Lemma create_lag_sound aliases : Str.startswith "bond" name = true ->
  sound id (wanted LINK_AGGREGATION data) d (create_part LINK_AGGREGATION name data id aliases d).1.
Proof using Hd Hk Hv Hname.
  intros Hb. unfold create_part. unfold mbind at 1, ste_mbind at 1, lift at 1. destruct (create_lagg_row data id) as [row|] eqn:Er; [|by apply sound_refl].
  unfold mbind at 1, ste_mbind at 1.
  destruct (insert_lagg_sound (wanted LINK_AGGREGATION data) row (create_lagg_interface row Er) Hb) as [H Ho].
  destruct (insert_lagg None row d) as [d1 [lag|e]]; [|done]. specialize (Ho lag eq_refl). cbn [fst] in *. eapply sound_trans; [exact H|].
  apply sound_rescue; [|apply steps_suppress; auto with claims]. unfold mbind, ste_mbind, lift. destruct (d_lag_ports data) as [ports|] eqn:Ep; cbn [item]; [|apply sound_refl; apply H].
  assert (sound id (wanted LINK_AGGREGATION data) d1 (set_lag_ports lag ports d1).1) as Hs.
  { apply sound_leads; [apply H|]. apply set_lag_ports_ports; [apply H|done|]. intros p Hp. simpl. by rewrite Ep. }
  destruct (set_lag_ports lag ports d1) as [d2 [u|e]]; [|done]. eapply sound_trans; [exact Hs|]. apply sound_leads; [apply Hs|].
  apply psteps_insert_aliases, Hs.
Qed.

Lemma create_part_sound t aliases : (t = BRIDGE -> Str.startswith "br" name = true) -> (t = LINK_AGGREGATION -> Str.startswith "bond" name = true) ->
  sound id (wanted t data) d (create_part t name data id aliases d).1.
Proof using Hd Hk Hv Hname.
  intros Hb Hl. destruct t; [by apply create_bridge_sound, Hb|by apply create_lag_sound, Hl|..].
  - by apply sound_leads, psteps_insert_aliases.
  - by apply sound_leads, psteps_insert_aliases.
  - apply sound_leads; [done|]. assert (steps (ports_step id (wanted VLAN data)) (create_part VLAN name data id aliases)) as H; [|by apply H].
    unfold create_part. grow_steps.
Qed.
End create.

Lemma create_rows_sound t name data d :
  wf d -> kinds d -> (t = BRIDGE -> Str.startswith "br" name = true) -> (t = LINK_AGGREGATION -> Str.startswith "bond" name = true) ->
  exists id, has_id id (rows (interfaces d)) = false /\ sound id (wanted t data) d (create_rows t name data d).1.
Proof.
  intros Hd Hk Hb Hl. unfold create_rows, mbind at 1, ste_mbind at 1. pose proof (create_row_spec data name d Hd) as H.
  destruct (create_interface_row data name d) as [d1 [[id aliases]|e]] eqn:Ec.
  - apply create_row_ports in Ec as (Hw & Hk1 & Hv & Hp & Hf & Hn); [|done..]. exists id. split; [done|].
    assert (sound id (wanted t data) d d1) as H1 by (split; [done..|]; intros j p ?%Hp; by left).
    eapply sound_trans; [exact H1|]. apply sound_rescue; [by apply create_part_sound|auto with claims].
  - subst d1. exists (seq (interfaces d) + 1)%Z. split; [by apply fresh_id|by apply sound_refl].
Qed.

(** ** What the validation has seen *)

Lemma bond_not_br n : Str.startswith "bond" n = true -> Str.startswith "br" n = false /\ Str.startswith "vlan" n = false.
Proof. intros [t ->]%Str.startswith_spec. done. Qed.

Lemma set_all_get {V} ports (v : V) d p : is_Some (Dict.get p d) \/ p ∈ ports -> is_Some (Dict.get p (set_all ports v d)).
Proof.
  unfold set_all. revert d. induction ports as [|q ports IH]; intros d; simpl.
  - intros [H|H%elem_of_nil]; done.
  - intros H. apply IH. destruct (decide (p = q)) as [->|Hne]; [left; rewrite Dict.get_set_eq; by eexists|].
    destruct H as [H|H]; [left; by rewrite Dict.get_set_ne|]. apply elem_of_cons in H as [?|?]; [done|by right].
Qed.

(** Ports that are in use stay in use while the interfaces are gone through. *)
Definition in_use (p : string) (u : used) : Prop := is_Some (Dict.get p (bridge_used u)) \/ is_Some (Dict.get p (lag_used u)).

Lemma use_iface_mono u x u' p : use_iface u x = Ok u' -> in_use p u -> in_use p u'.
Proof.
  destruct x as [k x]. unfold use_iface, in_use. destruct (Str.startswith "br" k).
  - intros [= <-] [H|H]; [left; apply set_all_get; by left|by right].
  - destruct (Str.startswith "vlan" k); [destruct (d_vlan_parent_interface _); [|done]; by intros [= <-]|].
    destruct (Str.startswith "bond" k); [|by intros [= <-]]. intros [= <-] [H|H]; [by left|right; apply set_all_get; by left].
Qed.

(** The members an entry shows by the name of its interface. *)
Definition shows_port (k : string) (x : entry) (p : string) : Prop :=
  (Str.startswith "br" k = true /\ p ∈ default [] (d_bridge_members (en_data x))) \/
  (Str.startswith "bond" k = true /\ p ∈ default [] (d_lag_ports (en_data x))).

Lemma use_iface_port u k x u' p : use_iface u (k, x) = Ok u' -> shows_port k x p -> in_use p u'.
Proof.
  unfold use_iface, in_use. intros H [[Hk Hp]|[Hk Hp]].
  - rewrite Hk in H. injection H as <-. left. apply set_all_get. by right.
  - apply bond_not_br in Hk as Hk'. destruct Hk' as [E1 E2]. rewrite E1, E2, Hk in H. injection H as <-. right. apply set_all_get. by right.
Qed.

Lemma interfaces_used_port ifaces u k x p : interfaces_used ifaces = Ok u -> (k, x) ∈ ifaces -> shows_port k x p -> in_use p u.
Proof.
  unfold interfaces_used. generalize (mkUsed [] [] []). intros u0 H Hin Hp.
  assert (forall l u0 u, foldE use_iface l u0 = Ok u -> in_use p u0 -> in_use p u) as Hm.
  { clear. intros l. induction l as [|y l IH]; intros u0 u; simpl; [by intros [= <-]|]. intros (u1 & E & H)%result_bind_ok Hu.
    eapply IH; [done|]. by eapply use_iface_mono. }
  revert u0 H. induction ifaces as [|y l IH]; intros u0; [by apply elem_of_nil in Hin|]. simpl. intros (u1 & E & H)%result_bind_ok.
  apply elem_of_cons in Hin as [<-|Hin]; [|by eapply IH]. eapply Hm; [done|]. by eapply use_iface_port.
Qed.

Lemma shows_claim d r x p : kinds d -> shows d r x -> r ∈ rows (interfaces d) -> port_claim d (i_id r) p -> shows_port (int_interface r) x p.
Proof.
  intros [Kb Kl Ob Ol] (st & ha & fake & ->) Hr [(b & Hb & Eb & Hp)|(l & m & Hl & Hm & El & Eg & Ep)].
  - left. pose proof (Kb b r Hb Hr (eq_sym Eb)) as Hn. split; [done|]. unfold iface_extend, config_data, type_part, bridge_part, type_. rewrite Hn. simpl.
    pose proof (find_key b_interface _ b Ob Hb) as E. rewrite Eb in E. by rewrite E.
  - right. pose proof (Kl l r Hl Hr (eq_sym El)) as Hn. split; [done|]. apply bond_not_br in Hn as Hn'. destruct Hn' as [E1 E2].
    unfold iface_extend, config_data, type_part, lag_part, type_. rewrite E1, Hn. simpl.
    pose proof (find_key lagg_interface _ l Ol Hl) as E. rewrite El in E. rewrite E. simpl.
    change (map ?f ?l) with (f <$> l). apply list_elem_of_fmap. exists m. split; [done|]. apply filter_elem. split; [done|]. by apply Z.eqb_eq.
Qed.

Lemma claim_row d j p : wf d -> port_claim d j p -> exists r, r ∈ rows (interfaces d) /\ i_id r = j.
Proof.
  intros Hd [(b & Hb & <- & _)|(l & m & Hl & _ & <- & _)].
  - by apply (bridge_fk _ (wf_linked _ Hd)), has_id_spec in Hb.
  - by apply (lagg_fk _ (wf_linked _ Hd)), has_id_spec in Hl.
Qed.

(** Accepted data asks for ports no other interface has. *)
Lemma accepted_port e d t update data p j :
  wf d -> kinds d -> accepted e d t update data -> wanted t data p -> port_claim d j p ->
  exists r, r ∈ rows (interfaces d) /\ i_id r = j /\ other update (int_interface r) = false.
Proof.
  intros Hd Hk [_ _ (u & Eu & Ht)] Hw Hc. destruct (claim_row d j p Hd Hc) as (r & Hr & Ej). exists r. split_and!; [done..|].
  apply not_true_iff_false. intros Ho. destruct (other_shows e d update r Hd Hr Ho) as (x & Hx & Hs). rewrite <-Ej in Hc.
  pose proof (interfaces_used_port _ _ _ _ p Eu Hx (shows_claim d r x p Hk Hs Hr Hc)) as Hu.
  assert (Dict.get p (bridge_used u) = None /\ Dict.get p (lag_used u) = None) as [E1 E2].
  { destruct t; simpl in Hw, Ht; try done; [by apply Ht|]. destruct Ht as (_ & q & l & _ & El & Hl). rewrite El in Hw. by apply Hl in Hw as (? & ? & _). }
  destruct Hu as [[? Hu]|[? Hu]]; congruence.
Qed.

(** ** Exclusive ports *)

Definition exclusive (d : db) : Prop := forall i j p, port_claim d i p -> port_claim d j p -> i = j.

Lemma exclusive_adds i N d d' : exclusive d -> adds port_claim i N d d' -> (forall p j, N p -> port_claim d j p -> j = i) -> exclusive d'.
Proof.
  intros He Ha HN j k p [H1|[-> H1]]%Ha [H2|[-> H2]]%Ha; [by eapply He|by eapply HN|symmetry; by eapply HN|done].
Qed.

Record ports_ok (d : db) : Prop := { ports_kinds : kinds d; ports_exclusive_ : exclusive d }.

Lemma ports_rows d d' : same_rows d d' -> ports_ok d -> ports_ok d'.
Proof.
  intros (E1 & _ & E3 & _ & E5 & E6) [[Kb Kl Ob Ol] He]. split; [split|].
  - rewrite E1, E3. done.
  - rewrite E1, E5. done.
  - by rewrite E3.
  - by rewrite E5.
  - intros i j p. unfold port_claim, bridge_claim, lag_claim. rewrite E3, E5, E6. apply He.
Qed.

Lemma next_free_prefix fuel p names n name : next_free fuel p names n = Some name -> Str.startswith p name = true.
Proof.
  revert n. induction fuel as [|fuel IH]; intros n; cbn [next_free]; [done|]. destruct (bool_decide _); [apply IH|]. intros [= <-].
  apply Str.startswith_spec. by eexists.
Qed.

Lemma validate_name_prefix t p n : type_prefix t = Ok p -> validate_name t n = None -> Str.startswith p n = true.
Proof. destruct t; try done; intros [= <-]; unfold validate_name; destruct (_ && _) eqn:E; try done; by apply andb_true_iff in E as [? _]. Qed.

Lemma accepted_name e d t update data n : accepted e d t update data -> d_name data = Some n -> validate_name t n = None.
Proof. intros [_ _ (u & _ & Ht)] Hn. destruct t; simpl in Ht; try done; try by apply Ht. all: by destruct Ht as [Ht _]; apply Ht. Qed.

Lemma same_name data data' : same_but_failover data data' ->
  d_name data' = d_name data /\ d_bridge_members data' = d_bridge_members data /\ d_lag_ports data' = d_lag_ports data.
Proof. by intros [->| ->]. Qed.

Lemma wanted_same t data data' p : same_but_failover data data' -> wanted t data' p -> wanted t data p.
Proof. by intros [->| ->]. Qed.

Lemma ports_create e d t data data' :
  wf d -> ports_ok d -> create_checks e d t data = Ok data' -> ports_ok (create_writes t data' d).1.
Proof.
  intros Hd [Hk He] [Ha Hs]%create_checks_ok. destruct (create_writes_rows t data' d) as [->|(name & -> & Hn & Hg)]; [done|].
  assert (forall p, type_prefix t = Ok p -> Str.startswith p name = true) as Hp.
  { intros p Ep. destruct (same_name _ _ Hs) as [En _]. destruct (d_name data') as [n|] eqn:E.
    - rewrite (Hn n eq_refl). eapply validate_name_prefix; [done|]. by eapply accepted_name.
    - destruct (Hg eq_refl) as (q & Eq & Hnext). assert (q = p) as -> by congruence. by eapply next_free_prefix. }
  destruct (create_rows_sound t name data' d Hd Hk) as (id & Hf & [Hw' Hk' Ha']); [by intros ->; apply Hp..|]. split; [done|].
  eapply exclusive_adds; [done..|]. intros p j Hwant%(wanted_same _ _ _ _ Hs) Hc.
  by destruct (accepted_port e d t None data p j Hd Hk Ha Hwant Hc) as (r & _ & _ & ?).
Qed.

(** ** Update *)

(** A chain of writes that start from sound tables. *)
Lemma sound_bind {A B} i N (m : dop A) (f : A -> dop B) d :
  sound i N d (m d).1 -> (forall a d', wf d' -> kinds d' -> sound i N d' (f a d').1) -> sound i N d ((m ≫= f) d).1.
Proof.
  intros Hm Hf. unfold mbind, ste_mbind. destruct (m d) as [d1 [a|e]]; [|done]. eapply sound_trans; [exact Hm|]. apply Hf; apply Hm.
Qed.

Lemma sound_steps {A} i N (m : dop A) d : steps (ports_step i N) m -> wf d -> kinds d -> sound i N d (m d).1.
Proof. intros Hm Hd Hk. apply sound_leads; auto. Qed.

Lemma update_lagg_owned id p x r d lag : wf d -> (update_lagg id p x r d).2 = Ok lag -> lag_owned id lag (update_lagg id p x r d).1.
Proof.
  intros Hd. unfold update_lagg, update_one. destruct (List.filter _ _) as [|y []] eqn:Ef; try done.
  assert (y ∈ rows (lagg d) /\ lagg_interface y = id) as [Hy Ey].
  { assert (y ∈ List.filter (fun l => (lagg_interface l =? id)%Z) (rows (lagg d))) as H by (rewrite Ef; by left). apply filter_elem in H as [? ?%Z.eqb_eq]. done. }
  cbn [fst snd]. intros [= <-] l. cbn [lagg set_lagg]. intros (z & Hz & ->)%edit_elem.
  destruct (Z.eqb_spec (rid z) (rid y)) as [E|Ne]; intros El; [|by simpl in Ne].
  assert (z = y) as -> by (by apply (key_inj _ _ _ _ (ids_nodup _ (wf_lagg _ Hd)))). done.
Qed.

Lemma update_lag_sound (N : string -> Prop) new data id d :
  wf d -> kinds d -> (forall l p, d_lag_ports data = Some l -> p ∈ l -> N p) -> sound id N d (update_lag_part new data id d).1.
Proof.
  intros Hd Hk HN. unfold update_lag_part, mbind, ste_mbind, lift. destruct (d_lag_protocol new) as [proto|]; [|by apply sound_refl]. cbn [item].
  set (up := update_lagg _ _ _ _). assert (sound id N d (up d).1) as H by (by apply sound_steps; [apply psteps_update_lagg|..]).
  assert (forall lag, (up d).2 = Ok lag -> lag_owned id lag (up d).1) as Ho by (intros lag; by apply update_lagg_owned).
  destruct (up d) as [d1 [lag|e]]; [|done]. specialize (Ho lag eq_refl). destruct (d_lag_ports data) as [l|] eqn:El; [|done]. cbn [fst] in *.
  assert (sound id N d1 (delete_members (fun m => lagg_interfacegroup m =? lag)%Z d1).1) as H1 by (apply sound_steps; [apply psteps_delete_members|apply H..]).
  eapply sound_trans; [exact H|]. unfold delete_members, modify in *. cbn [fst] in *. eapply sound_trans; [exact H1|]. apply sound_leads; [apply H1|].
  apply set_lag_ports_ports; [apply H1|done|]. intros p Hp. by eapply HN.
Qed.

(** The ports of the data are among those of the merged data that was checked. *)
Lemma update_part_sound e iface new data full name id d :
  wf d -> kinds d -> full = merge (en_data iface) data -> sound id (wanted (en_type iface) full) d (update_part e iface new data name id d).1.
Proof.
  intros Hd Hk ->. unfold update_part. destruct (en_type iface) eqn:Et.
  - apply sound_steps; [|done..]. unfold update_bridge_part. destruct (d_bridge_members data) as [ps|] eqn:Em.
    + apply (steps_bind _); [|intros; apply (steps_ret _)]. apply psteps_update_bridge. intros ? p [= <-] Hp. simpl. by rewrite Em.
    + assert (forall s l, steps (ports_step id (wanted BRIDGE (merge (en_data iface) data))) (update_bridge id None s l)) as Hu by (intros; by apply psteps_update_bridge).
      destruct (d_stp data), (d_enable_learning data); grow_steps.
  - apply update_lag_sound; [done..|]. intros l p El Hp. simpl. by rewrite El.
  - apply sound_steps; [|done..]. unfold update_link_address. grow_steps.
  - by apply sound_refl.
  - apply sound_steps; [|done..]. unfold update_vlan_part. grow_steps.
Qed.

Lemma psteps_match_alias i N c k l n : steps (ports_step i N) (match_alias c k l n).
Proof. revert k n. induction l as [|a l IH]; intros k n; cbn [match_alias]; grow_steps. Qed.
#[local] Hint Resolve psteps_match_alias : claims.
Lemma psteps_match_aliases i N l n : steps (ports_step i N) (match_aliases l n).
Proof. revert n. induction l as [|a l IH]; intros n; cbn [match_aliases]; grow_steps. Qed.
#[local] Hint Resolve psteps_match_aliases : claims.

Lemma psteps_update_addresses i N new id : steps (ports_step i N) (update_addresses new id).
Proof.
  unfold update_addresses. apply (steps_bind _); [grow_steps|]. intros [a l]. apply (steps_bind _); [grow_steps|]. intros c.
  apply (steps_bind _); [by apply psteps_update_interfaces|]. intros _. grow_steps.
Qed.

(** A row gets a name that fits what is on it. *)
Lemma rename_sound i N k name d :
  wf d -> kinds d -> (forall b, b ∈ rows (bridge d) -> b_interface b = k -> Str.startswith "br" name = true) ->
  (forall l, l ∈ rows (lagg d) -> lagg_interface l = k -> Str.startswith "bond" name = true) ->
  sound i N d (update_interfaces k (set_int_interface name) d).1.
Proof.
  intros Hd Hk Hb Hl. pose proof (safe_update_interfaces k (set_int_interface name) d Hd) as Hw. unfold update_interfaces in *.
  destruct (List.find _ _); [|by apply sound_refl]. destruct (existsb _ _); [by apply sound_refl|]. destruct Hk as [Kb Kl Ob Ol].
  split; [done|split; [..|done|done]|by left]; cbn [fst interfaces bridge lagg set_interfaces].
  - intros b r Hin (x & Hx & ->)%edit_elem E. destruct (Z.eqb_spec (rid x) k) as [Ek|]; [|by apply (Kb b)]. apply (Hb b); [done|by rewrite <-E].
  - intros l r Hin (x & Hx & ->)%edit_elem E. destruct (Z.eqb_spec (rid x) k) as [Ek|]; [|by apply (Kl l)]. apply (Hl l); [done|by rewrite <-E].
Qed.

Lemma query_type e d x : x ∈ query e d -> exists cloned, en_type x = type_ (en_name x) cloned.
Proof.
  unfold query, query_dict, Dict.values. intros ([k y] & -> & [H|H]%elem_of_app)%list_elem_of_fmap; simpl.
  - unfold kernel_entries in H. apply list_elem_of_omap in H as ([n st] & _ & H). destruct (_ || _); [done|]. destruct (_ && _); [done|].
    destruct (st_oserror st); [done|]. injection H as -> <-. unfold iface_extend. destruct (Dict.get _ _); by eexists.
  - change (map ?f ?l) with (f <$> l) in H. apply list_elem_of_fmap in H as ([n r] & [= -> ->] & _). by eexists.
Qed.

Lemma update_rows_sound e d oid data iface new name :
  wf d -> kinds d -> update_checks e d oid data = Ok (iface, new) -> d_name new = Some name ->
  exists id, (forall r, r ∈ rows (interfaces d) -> int_interface r = en_name iface -> i_id r = id) /\
    sound id (wanted (en_type iface) (merge (en_data iface) data)) d (update_rows e iface new data name d).1.
Proof.
  intros Hd Hk (Hq & Eo & full & Ef & Ha & Hs)%update_checks_ok Hn. unfold update_rows. rewrite ste_bind_gets.
  destruct (find_iface (en_name iface) d) as [r|] eqn:Er.
  - apply find_elem in Er as [Hr En%String.eqb_eq]. exists (i_id r). split.
    { intros r' Hr' E. f_equal. apply (key_inj _ _ _ _ (names_nodup _ (wf_linked _ Hd))); [done..|congruence]. }
    destruct (same_name _ _ Hs) as [Hname _]. rewrite Hn in Hname. symmetry in Hname. pose proof (accepted_name _ _ _ _ _ _ Ha Hname) as Hv.
    apply query_type in Hq as [cl Ht]. apply sound_bind.
    + destruct (negb _); [|by apply sound_refl]. apply rename_sound; [done..| |].
      * intros b Hb E. pose proof (kind_bridge _ Hk b r Hb Hr (eq_sym E)) as Hp. rewrite Ht, <-En in Hv. unfold type_ in Hv. rewrite Hp in Hv.
        by apply (validate_name_prefix BRIDGE).
      * intros l Hl E. pose proof (kind_lagg _ Hk l r Hl Hr (eq_sym E)) as Hp. rewrite Ht, <-En in Hv. unfold type_ in Hv.
        apply bond_not_br in Hp as Hp'. destruct Hp' as [E1 _]. rewrite E1, Hp in Hv. by apply (validate_name_prefix LINK_AGGREGATION).
    + intros _ d1 Hd1 Hk1. apply sound_bind; [by apply update_part_sound|]. intros _ d2 Hd2 Hk2. by apply sound_steps; [apply psteps_update_addresses|..].
  - unfold mbind at 1, ste_mbind at 1. pose proof (create_row_spec new (en_name iface) d Hd) as H.
    destruct (create_interface_row new (en_name iface) d) as [d1 [[id aliases]|x]] eqn:Ec.
    + apply create_row_ports in Ec as (Hw & Hk1 & Hv & Hp & Hf & Hnm); [|done..]. exists id.
      split; [intros r Hr E; by apply (find_iface_none _ _ Er) in Hr|]. set (N := wanted _ _).
      assert (sound id N d d1) as H1 by (split; [done..|]; intros j p ?%Hp; by left). eapply sound_trans; [exact H1|].
      apply sound_rescue; [|apply steps_suppress; auto with claims]. apply sound_bind; [by apply sound_steps; [apply psteps_insert_aliases|..]|].
      intros _ d2 Hd2 Hk2. by apply update_part_sound.
    + subst d1. exists 0%Z. split; [intros r Hr E; by apply (find_iface_none _ _ Er) in Hr|by apply sound_refl].
Qed.

Lemma ports_update e d oid data iface new name :
  wf d -> ports_ok d -> update_checks e d oid data = Ok (iface, new) -> d_name new = Some name ->
  ports_ok (update_rows e iface new data name d).1.
Proof.
  intros Hd [Hk He] Hu Hn. destruct (update_rows_sound e d oid data iface new name Hd Hk Hu Hn) as (id & Hid & [Hw Hk' Ha]). split; [done|].
  apply update_checks_ok in Hu as (_ & Eo & full & Ef & Hacc & _). subst full. eapply exclusive_adds; [done..|]. intros p j Hp Hc.
  destruct (accepted_port _ _ _ _ _ p j Hd Hk Hacc Hp Hc) as (r & Hr & <- & Ho). simpl in Ho. apply negb_false_iff, String.eqb_eq in Ho. by apply Hid.
Qed.

Lemma psteps_delete_network i N fuel oid parents : steps (ports_step i N) (delete_network_interface fuel oid parents).
Proof. revert oid parents. induction fuel as [|fuel IH]; intros oid parents; cbn [delete_network_interface]; [apply (steps_raise _)|]. grow_steps. Qed.

Lemma ports_delete d oid : wf d -> ports_ok d -> ports_ok (delete_writes oid d).1.
Proof.
  intros Hd [Hk He]. pose proof (sound_steps 0 (fun _ => False) _ d (psteps_delete_network _ _ (delete_fuel d) oid []) Hd Hk) as [Hw Hk' Ha].
  split; [done|]. by eapply exclusive_adds.
Qed.

End NetPorts.
