(* ===== verification/NetDelete.v ===== *)
(** * Deleting an interface

    [delete_network_interface] follows the members of link aggregations.  It
    terminates, since the interfaces on the way have different link aggregations,
    and what it deletes is the interface, what depends on it and what is below
    it. *)

From S2P Require Import Prelude PyDict PyStr PyVal PyFormat Errors Ipaddr NetDb Ifaces NetCheck NetOps NetPending NetInv NetClaims.

Module NetDelete.
Import NetDb Ifaces NetCheck NetOps Net NetInv NetClaims.

(** ** Fewer rows *)

Record shrunk (d d' : db) : Prop := {
  shrunk_interfaces : rows (interfaces d') `sublist_of` rows (interfaces d);
  shrunk_lagg : rows (lagg d') `sublist_of` rows (lagg d);
  shrunk_members : rows (laggmembers d') `sublist_of` rows (laggmembers d);
}.

#[export] Instance shrunk_preorder : PreOrder shrunk.
Proof. split; [done|]. intros d1 d2 d3 [? ? ?] [? ? ?]. split; by etrans. Qed.

(** The name of the interface a link aggregation is on. *)
Definition lag_on (l : lagg_row) (n : string) (d : db) : Prop :=
  exists r, r ∈ rows (interfaces d) /\ i_id r = lagg_interface l /\ int_interface r = n.

Lemma find_iface_id d l r : wf d -> r ∈ rows (interfaces d) -> i_id r = lagg_interface l ->
  List.find (fun r => i_id r =? lagg_interface l)%Z (rows (interfaces d)) = Some r.
Proof. intros Hd Hr <-. apply (find_key i_id); [apply (ids_nodup _ (wf_interfaces _ Hd))|done]. Qed.

Lemma laggs_on_spec d l n : wf d -> l ∈ laggs_on n d <-> l ∈ rows (lagg d) /\ lag_on l n d.
Proof.
  intros Hd. unfold laggs_on. rewrite filter_elem. split; intros [Hl H]; split; try done.
  - destruct (List.find _ _) as [r|] eqn:E; [|done]. apply find_elem in E as [Hr E%Z.eqb_eq]. apply String.eqb_eq in H. by exists r.
  - destruct H as (r & Hr & E & <-). rewrite (find_iface_id d l r); [|done..]. apply String.eqb_refl.
Qed.

(** What is below an interface: it, and the members of the link aggregations on what
    is below it. *)
Inductive below (d : db) (oid : string) : string -> Prop :=
| below_self : below d oid oid
| below_member a l m : below d oid a -> l ∈ rows (lagg d) -> lag_on l a d -> m ∈ rows (laggmembers d) ->
    lagg_interfacegroup m = l_id l -> below d oid (lagg_physnic m).

(** Rows that are not below stay; VLANs on what is below go. *)
Record spares (B : string -> Prop) (d d' : db) : Prop := {
  spares_shrunk : shrunk d d';
  spares_rows r : r ∈ rows (interfaces d) -> r ∈ rows (interfaces d') \/ B (int_interface r);
  spares_vlan v : v ∈ rows (vlan d) -> v ∈ rows (vlan d') \/ B (vlan_vint v) \/ B (vlan_pint v);
}.

#[export] Instance spares_preorder B : PreOrder (spares B).
Proof.
  split; [intros d; split; auto; done|]. intros d1 d2 d3 [S1 R1 V1] [S2 R2 V2]. split; [by etrans|..].
  - intros r [H|H]%R1; auto.
  - intros v [H|H]%V1; auto.
Qed.

Section deletes.
Context (B : string -> Prop).

Lemma spares_delete_lagg p : steps (spares B) (delete_lagg p).
Proof. intros d Hd. split; [by apply safe_delete_lagg|]. split; [split; [done|apply filter_sublist..]|by left|by left]. Qed.

Lemma spares_delete_vlan p : (forall v, p v = true -> B (vlan_vint v) \/ B (vlan_pint v)) -> steps (spares B) (delete_vlan p).
Proof.
  intros Hp d Hd. split; [by apply safe_delete_vlan|]. split; [done|by left|]. intros v Hv. destruct (p v) eqn:E; [right; by apply Hp|].
  left. by apply drop_elem.
Qed.

Lemma spares_delete_interfaces n : B n -> steps (spares B) (delete_interfaces (fun r => String.eqb (int_interface r) n)).
Proof.
  intros HB d Hd. split; [by apply safe_delete_interfaces|]. split; [split; apply filter_sublist| |by left].
  intros r Hr. destruct (String.eqb_spec (int_interface r) n) as [<-|Hne]; [by right|]. left. apply drop_elem. split; [done|].
  by apply String.eqb_neq.
Qed.
End deletes.

(** ** Depth of the recursion *)

(** The link aggregations that are not on the way. *)
Definition off_way (parents : list string) (d : db) (l : lagg_row) : bool :=
  match List.find (fun r => i_id r =? lagg_interface l)%Z (rows (interfaces d)) with
  | Some r => negb (bool_decide (int_interface r ∈ parents))
  | None => false
  end.
Definition remaining (parents : list string) (d : db) : nat := length (List.filter (off_way parents d) (rows (lagg d))).

Lemma filter_length_le {A} (f g : A -> bool) l : (forall x, x ∈ l -> f x = true -> g x = true) -> length (List.filter f l) <= length (List.filter g l).
Proof.
  induction l as [|x l IH]; intros H; simpl; [done|]. assert (length (List.filter f l) <= length (List.filter g l)) by (apply IH; intros; apply H; [by right|done]).
  pose proof (H x ltac:(by left)). destruct (f x), (g x); simpl; try lia; exfalso; naive_solver.
Qed.

Lemma filter_length_lt {A} (f g : A -> bool) l x :
  (forall x, x ∈ l -> f x = true -> g x = true) -> x ∈ l -> f x = false -> g x = true -> length (List.filter f l) < length (List.filter g l).
Proof.
  induction l as [|y l IH]; intros H Hx Hf Hg; [by apply elem_of_nil in Hx|]. simpl.
  assert (forall z, z ∈ l -> f z = true -> g z = true) as H' by (intros; apply H; [by right|done]).
  apply elem_of_cons in Hx as [<-|Hx].
  - rewrite Hf, Hg. simpl. pose proof (filter_length_le f g l H'). lia.
  - specialize (IH H' Hx Hf Hg). pose proof (H y ltac:(by left)). destruct (f y), (g y); simpl; try lia; exfalso; naive_solver.
Qed.

Lemma remaining_shrunk parents d d' : wf d -> wf d' -> shrunk d d' -> remaining parents d' <= remaining parents d.
Proof.
  intros Hd Hd' [Si Sl _]. unfold remaining. transitivity (length (List.filter (off_way parents d) (rows (lagg d')))).
  - apply filter_length_le. intros l Hl. unfold off_way. destruct (List.find _ (rows (interfaces d'))) as [r|] eqn:E; [|done].
    apply find_elem in E as [Hr E%Z.eqb_eq]. rewrite (find_iface_id d l r); [done|done| |done]. by eapply sublist_subseteq.
  - by apply sublist_length, bool_filter_sublist.
Qed.

Lemma remaining_way oid parents d l : wf d -> l ∈ laggs_on oid d -> oid ∉ parents -> remaining (oid :: parents) d < remaining parents d.
Proof.
  intros Hd [Hl (r & Hr & E & En)]%laggs_on_spec Hn; [|done]. unfold remaining. apply filter_length_lt with l; [|done|..].
  - intros x _. unfold off_way. destruct (List.find _ _); [|done]. rewrite !negb_true_iff, !bool_decide_eq_false. set_solver.
  - unfold off_way. rewrite (find_iface_id d l r); [|done..]. apply negb_false_iff, bool_decide_eq_true. rewrite En. by left.
  - unfold off_way. rewrite (find_iface_id d l r); [|done..]. apply negb_true_iff, bool_decide_eq_false. by rewrite En.
Qed.

(** ** The recursion *)

Lemma for_each_ok {A} (P : db -> Prop) (f : A -> dop unit) l d :
  (forall x d, x ∈ l -> P d -> P (f x d).1 /\ (f x d).2 = Ok tt) -> P d -> P (for_each f l d).1 /\ (for_each f l d).2 = Ok tt.
Proof.
  revert d. induction l as [|x l IH]; intros d H Hd; simpl; [done|]. destruct (H x d ltac:(by left) Hd) as [H1 H2].
  unfold mbind, ste_mbind. destruct (f x d) as [d1 r]. simpl in *. subst r. apply IH; [|done]. intros y d' Hy. apply H. by right.
Qed.

Section delete.
Context (d0 : db) (oid0 : string) (Hd0 : wf d0).
Notation B := (below d0 oid0).

(** A member found in tables that have shrunk is below when its interface is. *)
Lemma member_below d1 d2 oid l m :
  wf d1 -> shrunk d0 d1 -> shrunk d0 d2 -> B oid -> l ∈ laggs_on oid d1 -> m ∈ members_of d2 (l_id l) -> B (lagg_physnic m).
Proof using Hd0.
  intros Hd1 [Si Sl _] [_ _ Sm] HB [Hl (r & Hr & E & En)]%laggs_on_spec [Hm Eg%Z.eqb_eq]%filter_elem; [|done].
  apply (below_member _ _ oid l m); [done|by eapply sublist_subseteq| |by eapply sublist_subseteq|done].
  exists r. split; [by eapply sublist_subseteq|done].
Qed.

Lemma delete_network_spec fuel oid parents d :
  wf d -> shrunk d0 d -> B oid -> oid ∉ parents -> remaining parents d < fuel ->
  leads (spares B) d (delete_network_interface fuel oid parents d).1 /\ (delete_network_interface fuel oid parents d).2 = Ok tt.
Proof using Hd0.
  revert oid parents d. induction fuel as [|fuel IH]; intros oid parents d Hd Hs HB Hn Hf; [lia|]. cbn [delete_network_interface].
  rewrite ste_bind_gets. set (loop := for_each _ (laggs_on oid d)). unfold mbind, ste_mbind.
  assert (leads (spares B) d (loop d).1 /\ (loop d).2 = Ok tt) as [H1 H2].
  { apply (for_each_ok (leads (spares B) d)); [|by apply (leads_refl _)]. intros l d1 Hl [Hd1 Hs1].
    pose proof (remaining_way oid parents d l Hd Hl Hn) as Hlt. cbv beta. rewrite ste_bind_gets. set (inner := for_each _ (members_of d1 (l_id l))).
    assert (leads (spares B) d (inner d1).1 /\ (inner d1).2 = Ok tt) as [H3 H4].
    { apply (for_each_ok (leads (spares B) d)); [|done]. intros m d2 Hm [Hd2 Hs2]. cbv beta. case_bool_decide as Hp; [done|].
      assert (shrunk d0 d2) as Hs02 by (etrans; [exact Hs|apply Hs2]).
      assert (remaining (oid :: parents) d2 < fuel) as Hr by (pose proof (remaining_shrunk (oid :: parents) d d2 Hd Hd2 (spares_shrunk _ _ _ Hs2)); lia).
      destruct (IH (lagg_physnic m) (oid :: parents) d2 Hd2 Hs02) as [H5 H6]; [|done|done|].
      - eapply (member_below d d1); [done|done| |done|done|done]. etrans; [exact Hs|apply Hs1].
      - split; [|done]. by eapply (leads_trans _). }
    unfold mbind, ste_mbind. destruct (inner d1) as [d3 r3]. simpl in H3, H4. subst r3. split; [|done].
    eapply (leads_trans _); [exact H3|]. apply spares_delete_lagg, H3. }
  destruct (loop d) as [d1 r1]. simpl in H1, H2. subst r1. split; [|done]. eapply (leads_trans _); [exact H1|].
  assert (steps (spares B) (_ ← delete_vlan (fun v => String.eqb (vlan_pint v) oid); _ ← delete_vlan (fun v => String.eqb (vlan_vint v) oid);
    delete_interfaces (fun r => String.eqb (int_interface r) oid))) as H; [|apply H, H1].
  apply (steps_bind _); [apply spares_delete_vlan; intros v ->%String.eqb_eq; by right|intros _].
  apply (steps_bind _); [apply spares_delete_vlan; intros v ->%String.eqb_eq; by left|intros _]. by apply spares_delete_interfaces.
Qed.
End delete.

(** The rows of the interface itself are gone at the end. *)
Lemma delete_network_gone fuel oid parents d :
  (delete_network_interface fuel oid parents d).2 = Ok tt ->
  let d' := (delete_network_interface fuel oid parents d).1 in
  (forall r, r ∈ rows (interfaces d') -> int_interface r ≠ oid) /\
  (forall v, v ∈ rows (vlan d') -> vlan_vint v ≠ oid /\ vlan_pint v ≠ oid).
Proof.
  destruct fuel as [|fuel]; [done|]. cbn [delete_network_interface]. rewrite ste_bind_gets. unfold mbind, ste_mbind.
  destruct (for_each _ _ d) as [d1 [u|e]]; [|done]. intros _. simpl. split.
  - intros r [_ H%negb_true_iff%String.eqb_neq]%filter_elem. done.
  - intros v [[_ H1%negb_true_iff%String.eqb_neq]%filter_elem H2%negb_true_iff%String.eqb_neq]%filter_elem. done.
Qed.

Lemma remaining_nil d : remaining [] d < delete_fuel d.
Proof.
  unfold remaining, delete_fuel. pose proof (sublist_length _ _ (filter_sublist (off_way [] d) (rows (lagg d)))). lia.
Qed.

Lemma delete_writes_spec oid d : wf d ->
  (delete_writes oid d).2 = Ok tt /\ spares (below d oid) d (delete_writes oid d).1 /\
  (forall r, r ∈ rows (interfaces (delete_writes oid d).1) -> int_interface r ≠ oid) /\
  (forall v, v ∈ rows (vlan (delete_writes oid d).1) -> vlan_vint v ≠ oid /\ vlan_pint v ≠ oid).
Proof.
  intros Hd. destruct (delete_network_spec d oid Hd (delete_fuel d) oid [] d) as [[_ H1] H2];
    [done|done|constructor|by intros ?%elem_of_nil|apply remaining_nil|].
  split_and!; [done|done|by apply (delete_network_gone (delete_fuel d) oid [] d)..].
Qed.

End NetDelete.
