(* ===== verification/NetCreate.v ===== *)
(** * Creating an interface

    A creation that fails leaves no row behind; one that succeeds shows the addresses
    that were asked for, in their order; the name that is chosen is the first free
    one. *)

From S2P Require Import Prelude PyDict PyStr PyVal PyFormat Errors Ipaddr NetDb Ifaces NetCheck NetOps NetPending NetInv NetRestore NetSpec NetChecked NetClaims NetNets NetPorts NetDelete.

Module NetCreate.
Import NetDb Ifaces NetCheck NetOps Net NetInv NetRestore NetSpec NetChecked NetClaims NetNets NetPorts NetDelete.

(** ** Inserts that cannot fail *)

Lemma add_row_ok_fresh {R} `{!Row R} (r : R) ok t : table_ok t -> ok = true -> exists t' i, add_row None ok r t = Some (t', i).
Proof. intros Ht Hk. rewrite (add_row_fresh ok r t Ht Hk). by eexists _, _. Qed.

Lemma insert_alias_ok r d : wf d -> has_id (alias_interface r) (rows (interfaces d)) = true ->
  exists i, insert_alias None r d = (set_alias (mkTable (rows (alias d) ++ [with_rid i r]) i) d, Ok i).
Proof.
  intros Hd Hf. exists (seq (alias d) + 1)%Z. unfold insert_alias. by rewrite (add_row_fresh _ r _ (wf_alias _ Hd) Hf).
Qed.

Lemma insert_bridge_ok r d : wf d -> has_id (b_interface r) (rows (interfaces d)) = true ->
  exists i, insert_bridge None r d = (set_bridge (mkTable (rows (bridge d) ++ [with_rid i r]) i) d, Ok i).
Proof.
  intros Hd Hf. exists (seq (bridge d) + 1)%Z. unfold insert_bridge. by rewrite (add_row_fresh _ r _ (wf_bridge _ Hd) Hf).
Qed.

Lemma insert_vlan_ok r d : wf d -> exists i, insert_vlan None r d = (set_vlan (mkTable (rows (vlan d) ++ [with_rid i r]) i) d, Ok i).
Proof.
  intros Hd. exists (seq (vlan d) + 1)%Z. unfold insert_vlan. by rewrite (add_row_fresh _ r _ (wf_vlan _ Hd) eq_refl).
Qed.

Lemma insert_aliases_ok id l d : wf d -> has_id id (rows (interfaces d)) = true -> (insert_aliases id l d).2 = Ok tt.
Proof.
  intros Hd Hf. apply (for_each_ok (fun d => wf d /\ has_id id (rows (interfaces d)) = true)); [|done]. intros a d1 _ [Hd1 Hf1].
  pose proof (safe_insert_alias None (alias_values a 0 id) d1 Hd1) as Hw.
  destruct (insert_alias_ok (alias_values a 0 id) d1 Hd1 Hf1) as [i E]. unfold mbind, ste_mbind. rewrite E in *. done.
Qed.

(** The alias rows of the interface are those of before and the new ones. *)
Definition addrs_of (id : Z) (d : db) : list addrs := map alias_addrs (List.filter (fun a => alias_interface a =? id)%Z (rows (alias d))).

Lemma insert_aliases_rows id l d : wf d -> has_id id (rows (interfaces d)) = true ->
  let d' := (insert_aliases id l d).1 in interfaces d' = interfaces d /\ addrs_of id d' = addrs_of id d ++ l.
Proof.
  unfold insert_aliases. set (f := fun a : addrs => _ ← insert_alias None (alias_values a 0 id); mret tt).
  revert d. induction l as [|a l IH]; intros d Hd Hf; [by rewrite app_nil_r|].
  pose proof (safe_insert_alias None (alias_values a 0 id) d Hd) as Hw.
  destruct (insert_alias_ok (alias_values a 0 id) d Hd Hf) as [i E]. rewrite E in Hw. set (d1 := set_alias _ d) in *.
  assert (f a d = (d1, Ok tt)) as Ef by (unfold f, mbind, ste_mbind; by rewrite E).
  cbn [for_each]. unfold mbind, ste_mbind. rewrite Ef. destruct (IH d1 Hw Hf) as [H1 H2]. split; [by rewrite H1|]. rewrite H2.
  unfold addrs_of, d1. simpl. rewrite List.filter_app, map_app. simpl. rewrite Z.eqb_refl. simpl. rewrite <-app_assoc. by destruct a.
Qed.

(** ** A failed creation *)

(** The tables without an interface and what depends on it. *)
Definition strip (id : Z) (d : db) : db := (delete_interfaces (by_id id) d).1.

Definition strips (id : Z) (d d' : db) : Prop := same_rows (strip id d) (strip id d').

#[export] Instance strips_preorder id : PreOrder (strips id).
Proof.
  split; [done|]. intros d1 d2 d3 (? & ? & ? & ? & ? & ?) (? & ? & ? & ? & ? & ?). unfold strips, same_rows. split_and!; by etrans.
Qed.

Lemma filter_idem_snoc {A} (f : A -> bool) l x : f x = false -> List.filter f (l ++ [x]) = List.filter f l.
Proof. intros H. rewrite List.filter_app. simpl. by rewrite H, app_nil_r. Qed.

Section strip.
Context (id : Z).

(** No row of the stripped tables has the id. *)
Lemma strip_no_id d : has_id id (rows (interfaces (strip id d))) = false.
Proof. apply has_id_false. intros r [_ H]%filter_elem E. unfold by_id in H. simpl in E. by rewrite E, Z.eqb_refl in H. Qed.

Lemma strips_insert_alias r d : alias_interface r = id -> strips id d (insert_alias None r d).1.
Proof.
  intros E. unfold insert_alias, stored. destruct (add_row _ _ _ _) as [[t k]|] eqn:Ea; [|done]. apply add_row_inv in Ea as (_ & _ & Er & _).
  split_and!; try done. simpl. rewrite Er. apply filter_idem_snoc. simpl. rewrite E. apply negb_false_iff, negb_true_iff. apply (strip_no_id d).
Qed.

Lemma strips_insert_lagg r d : wf d -> lagg_interface r = id -> strips id d (insert_lagg None r d).1.
Proof.
  intros Hd E. unfold insert_lagg, stored. destruct (add_row _ _ _ _) as [[t k]|] eqn:Ea; [|done]. apply add_row_inv in Ea as (_ & _ & Er & _).
  assert (List.filter (fun l => negb (negb (has_id (lagg_interface l) (rows (interfaces (strip id d)))))) (rows t) =
          List.filter (fun l => negb (negb (has_id (lagg_interface l) (rows (interfaces (strip id d)))))) (rows (lagg d))) as H.
  { rewrite Er. apply filter_idem_snoc. simpl. rewrite E. apply negb_false_iff, negb_true_iff. apply (strip_no_id d). }
  split_and!; try done. simpl. simpl in H. by rewrite H.
Qed.

(** A member of a link aggregation on the interface. *)
Lemma strips_insert_member idx p lag d : wf d -> lag_owned id lag d -> strips id d (insert_member None (mkMember 0 idx p lag) d).1.
Proof.
  intros Hd Ho. unfold insert_member, stored. destruct (add_row _ _ _ _) as [[t k]|] eqn:Ea; [|done]. apply add_row_inv in Ea as (_ & _ & Er & _).
  split_and!; try done. simpl. rewrite Er. apply filter_idem_snoc. simpl. apply negb_false_iff, negb_true_iff, has_id_false.
  intros l [Hl Hi]%filter_elem E. rewrite negb_involutive in Hi. pose proof (strip_no_id d) as H. simpl in H, E. rewrite (Ho l Hl E) in Hi. simpl in Hi. congruence.
Qed.

Lemma filter_map_other {A} (p : A -> bool) (g : A -> A) l : (forall x, x ∈ l -> p (g x) = p x) -> (forall x, x ∈ l -> p x = true -> g x = x) ->
  List.filter p (map g l) = List.filter p l.
Proof.
  induction l as [|x l IH]; intros H1 H2; simpl; [done|]. rewrite (H1 x) by (by left).
  assert (List.filter p (map g l) = List.filter p l) as E by (apply IH; intros; [apply H1|apply H2]; auto; by right).
  destruct (p x) eqn:Ep; [|done]. by rewrite E, H2 by (done || by left).
Qed.

Lemma strips_update_interfaces f d : strips id d (update_interfaces id f d).1.
Proof.
  unfold update_interfaces. destruct (List.find _ _); [|done]. destruct (existsb _ _); [done|]. cbn [fst].
  assert (rows (interfaces (strip id (set_interfaces (edit_row id f (interfaces d)) d))) = rows (interfaces (strip id d))) as E.
  { simpl. unfold by_id. apply filter_map_other.
    - intros x _. destruct (Z.eqb_spec (i_id x) id) as [E|Hne]; simpl; [by rewrite Z.eqb_refl|by apply Z.eqb_neq in Hne; rewrite Hne].
    - intros x _. destruct (i_id x =? id)%Z; [done|]. done. }
  simpl in E. split_and!; simpl; rewrite ?E; done.
Qed.

Lemma filter_absorb {A} (p q : A -> bool) l : (forall x, x ∈ l -> q x = false -> p x = false) -> List.filter p (List.filter q l) = List.filter p l.
Proof.
  induction l as [|x l IH]; intros H; simpl; [done|]. assert (List.filter p (List.filter q l) = List.filter p l) as E by (apply IH; intros; apply H; [by right|done]).
  destruct (q x) eqn:Eq; simpl; [by rewrite E|]. by rewrite (H x) by (done || by left).
Qed.

Lemma strips_delete_alias d : strips id d (delete_alias (fun a => alias_interface a =? id)%Z d).1.
Proof.
  split_and!; try done. apply filter_absorb. intros a _ E%negb_false_iff%Z.eqb_eq. rewrite E. apply negb_false_iff, negb_true_iff, (strip_no_id d).
Qed.

Lemma strips_delete_lagg lag d : lag_owned id lag d -> strips id d (delete_lagg (fun l => l_id l =? lag)%Z d).1.
Proof.
  intros Ho. assert (rows (lagg (strip id (delete_lagg (fun l => l_id l =? lag)%Z d).1)) = rows (lagg (strip id d))) as E.
  { apply filter_absorb. intros l Hl El%negb_false_iff%Z.eqb_eq. rewrite (Ho l Hl El). apply negb_false_iff, negb_true_iff, (strip_no_id d). }
  split_and!; try done. simpl in *. rewrite E. apply filter_absorb. intros m _ Hm%negb_false_iff%negb_true_iff. rewrite has_id_false in Hm.
  apply negb_false_iff, negb_true_iff, has_id_false. intros l Hl Eg. rewrite <-E in Hl. apply filter_elem in Hl as [Hl _]. by apply (Hm l).
Qed.
End strip.

Lemma for_each_inv {A} (P : db -> Prop) (f : A -> dop unit) l d : (forall x d, x ∈ l -> P d -> P (f x d).1) -> P d -> P (for_each f l d).1.
Proof.
  revert d. induction l as [|x l IH]; intros d H Hd; simpl; [done|]. pose proof (H x d ltac:(by left) Hd) as H1.
  unfold mbind, ste_mbind. destruct (f x d) as [d1 [u|e]]; [|done]. apply IH; [|done]. intros y d' Hy. apply H. by right.
Qed.

(** A new row and nothing else, stripped: the tables of before. *)
Lemma create_row_strip data name d d1 id aliases : wf d -> create_interface_row data name d = (d1, Ok (id, aliases)) ->
  same_rows d (strip id d1) /\ wf d1 /\ has_id id (rows (interfaces d1)) = true /\ ipv4gateway d1 = ipv4gateway d /\
  forall r, r ∈ rows (interfaces d1) -> r ∈ rows (interfaces d) \/ i_id r = id.
Proof.
  intros Hd E. pose proof (create_row_spec data name d Hd) as H. rewrite E in H. destruct H as (Hw & Hf & _ & _ & _ & _ & _ & r & Er & Eid & _).
  assert (d1 = set_interfaces (interfaces d1) d) as E1.
  { revert E. unfold create_interface_row, mbind, ste_mbind, lift. destruct (convert_aliases_to_datastore data) as [[a l]|]; [|done].
    destruct (convert_interface_datastore data); [|done]. unfold insert_interfaces, stored. by destruct (add_row _ _ _ _) as [[t k]|]; [|done]; intros [= <- <- <-]. }
  assert (rows (interfaces (strip id d1)) = rows (interfaces d)) as Ei.
  { simpl. rewrite Er, filter_idem_snoc; [|unfold by_id; by rewrite Eid, Z.eqb_refl]. apply filter_all. intros x Hx. rewrite has_id_false in Hf.
    by apply negb_true_iff, Z.eqb_neq, Hf. }
  pose proof (wf_linked _ Hd) as L. split_and!; [|done| |by rewrite E1|].
  - assert (rows (lagg (strip id d1)) = rows (lagg d)) as El.
    { simpl in *. rewrite Ei, E1. simpl. apply filter_all. intros l Hl. rewrite negb_involutive. by apply (lagg_fk _ L). }
    split_and!; [done| | |by rewrite E1|done|]; simpl in *; rewrite ?El; rewrite Ei || idtac; rewrite E1; simpl; apply filter_all; intros y Hy; rewrite negb_involutive.
    + by apply (alias_fk _ L).
    + by apply (bridge_fk _ L).
    + by apply (member_fk _ L).
  - apply has_id_spec. exists r. rewrite Er. split; [set_solver|done].
  - intros x. rewrite Er. intros [Hx|Hx]%elem_of_app; [by left|]. apply list_elem_of_singleton in Hx as ->. by right.
Qed.

Section failing.
Context (id : Z).

Lemma safe_strip d : wf d -> wf (strip id d).
Proof. apply safe_delete_interfaces. Qed.

(** While the ports are set: everything that is written belongs to the interface. *)
Record inside (ports : list string) (lag : Z) (d d' : db) : Prop := {
  in_wf : wf d';
  in_strips : strips id d d';
  in_owned : lag_owned id lag d';
  in_ports r : r ∈ rows (interfaces d') -> int_interface r ∈ ports -> i_id r = id;
}.

Lemma inside_member ports lag d d' idx p : inside ports lag d d' -> inside ports lag d (insert_member None (mkMember 0 idx p lag) d').1.
Proof.
  intros [Hw Hs Ho Hp]. split; [by apply safe_insert_member| | |].
  - etrans; [exact Hs|]. by apply strips_insert_member.
  - unfold insert_member, stored. by destruct (add_row _ _ _ _) as [[]|].
  - unfold insert_member, stored. by destruct (add_row _ _ _ _) as [[]|].
Qed.

Lemma inside_reset ports lag d d' : inside ports lag d d' -> inside ports lag d (update_interfaces id reset_port d').1.
Proof.
  intros [Hw Hs Ho Hp]. split; [by apply safe_update_interfaces| | |].
  - etrans; [exact Hs|]. by apply strips_update_interfaces.
  - unfold lag_owned. by rewrite lag_frame_reset.
  - unfold update_interfaces. destruct (List.find _ _); [|done]. destruct (existsb _ _); [done|]. cbn [fst interfaces set_interfaces].
    intros r (x & Hx & ->)%edit_elem Hn. destruct (Z.eqb_spec (rid x) id); [done|by apply Hp].
Qed.

Lemma inside_delete_alias ports lag d d' : inside ports lag d d' -> inside ports lag d (delete_alias (fun a => alias_interface a =? id)%Z d').1.
Proof. intros [Hw Hs Ho Hp]. split; [by apply safe_delete_alias| |done|done]. etrans; [exact Hs|]. apply strips_delete_alias. Qed.

Lemma inside_port ports lag d d' k p : p ∈ ports -> inside ports lag d d' -> inside ports lag d (set_lag_port lag (k, p) d').1.
Proof.
  intros Hin H. unfold set_lag_port. unfold mbind at 1, ste_mbind at 1. pose proof (inside_member ports lag d d' (Z.of_nat k) p H) as H1.
  destruct (insert_member _ _ d') as [d1 [u|e]]; [|done]. cbn [fst] in H1. rewrite ste_bind_gets.
  destruct (List.find _ (rows (interfaces d1))) as [r|] eqn:Ef; [|done]. apply find_elem in Ef as [Hr En%String.eqb_eq].
  assert (i_id r = id) as -> by (apply (in_ports _ _ _ _ H1); [done|by rewrite En]). unfold mbind, ste_mbind.
  pose proof (inside_reset ports lag d d1 H1) as H2. destruct (update_interfaces id reset_port d1) as [d2 [v|e]]; [|done]. by apply inside_delete_alias.
Qed.

Lemma inside_ports lag ports d d' : inside ports lag d d' -> inside ports lag d (set_lag_ports lag ports d').1.
Proof.
  intros H. apply (for_each_inv (inside ports lag d)); [|done]. intros x d1 (k & p & -> & Hk)%elem_of_lookup_imap H1. apply inside_port; [|done]. by eapply list_elem_of_lookup_2.
Qed.

Lemma inside_aliases ports lag l d d' : inside ports lag d d' -> inside ports lag d (insert_aliases id l d').1.
Proof.
  intros H. apply (for_each_inv (inside ports lag d)); [|done]. intros a d1 _ [Hw Hs Ho Hp]. unfold mbind, ste_mbind.
  assert (inside ports lag d (insert_alias None (alias_values a 0 id) d1).1) as H1.
  { split; [by apply safe_insert_alias| | |].
    - etrans; [exact Hs|]. by apply strips_insert_alias.
    - unfold insert_alias, stored. by destruct (add_row _ _ _ _) as [[]|].
    - unfold insert_alias, stored. by destruct (add_row _ _ _ _) as [[]|]. }
  by destruct (insert_alias _ _ d1) as [d2 [|]].
Qed.

Section part.
Context (name : string) (data : idata) (aliases : list addrs) (d : db).
Hypothesis Hd : wf d.
Hypothesis Hid : has_id id (rows (interfaces d)) = true.

Lemma create_bridge_fails x d2 : create_part BRIDGE name data id aliases d = (d2, Err x) -> d2 = d.
Proof using Hd Hid.
  unfold create_part, mbind, ste_mbind, lift. destruct (d_bridge_members data) as [m|]; [|by intros [= <- _]].
  destruct (d_stp data) as [s|]; [|by intros [= <- _]]. destruct (d_enable_learning data) as [l|]; [|by intros [= <- _]]. cbn [item].
  pose proof (safe_insert_bridge None (mkBridge 0 m id s l) d Hd) as Hw.
  destruct (insert_bridge_ok (mkBridge 0 m id s l) d Hd Hid) as [i E1]. rewrite E1 in *. set (d1 := set_bridge _ d) in *.
  pose proof (insert_aliases_ok id aliases d1 Hw Hid) as E. intros H. by rewrite H in E.
Qed.

Lemma create_vlan_fails x d2 : create_part VLAN name data id aliases d = (d2, Err x) -> d2 = d.
Proof using Hd Hid.
  unfold create_part, mbind, ste_mbind, lift, expect. destruct (d_vlan_parent_interface data) as [p|]; [|by intros [= <- _]].
  destruct (d_vlan_tag data) as [t|]; [|by intros [= <- _]]. cbn [item]. destruct p as [p|]; [|by intros [= <- _]]. destruct t as [t|]; [|by intros [= <- _]].
  pose proof (safe_insert_vlan None (mkVlan 0 name p t "" (default None (d_vlan_pcp data))) d Hd) as Hw.
  destruct (insert_vlan_ok (mkVlan 0 name p t "" (default None (d_vlan_pcp data))) d Hd) as [i E1]. rewrite E1 in *. set (d1 := set_vlan _ d) in *.
  pose proof (insert_aliases_ok id aliases d1 Hw Hid) as E. intros H. by rewrite H in E.
Qed.

Lemma create_lag_fails x d2 :
  (forall r, r ∈ rows (interfaces d) -> int_interface r ∈ default [] (d_lag_ports data) -> i_id r = id) ->
  vacant id d -> create_part LINK_AGGREGATION name data id aliases d = (d2, Err x) -> strips id d d2.
Proof using Hd Hid.
  intros Hp Hv. unfold create_part. unfold mbind at 1, ste_mbind at 1, lift at 1. destruct (create_lagg_row data id) as [row|] eqn:Er; [|by intros [= <- _]].
  pose proof (create_lagg_interface data id row Er) as Hi. unfold mbind at 1, ste_mbind at 1.
  assert (strips id d (insert_lagg None row d).1) as Hs by (by apply strips_insert_lagg).
  pose proof (safe_insert_lagg None row d Hd) as Hw.
  assert (forall lag, (insert_lagg None row d).2 = Ok lag -> lag_owned id lag (insert_lagg None row d).1) as Ho.
  { unfold insert_lagg, stored. destruct (add_row _ _ _ _) as [[t k]|] eqn:E; [|done]. apply add_row_inv in E as (_ & Hf & Et & _).
    intros lag [= <-] l. cbn [fst lagg set_lagg]. rewrite Et. intros [Hl|Hl]%elem_of_app El; [rewrite has_id_false in Hf; by apply Hf in Hl|].
    by apply list_elem_of_singleton in Hl as ->. }
  assert (interfaces (insert_lagg None row d).1 = interfaces d) as Ei by (unfold insert_lagg, stored; by destruct (add_row _ _ _ _) as [[]|]).
  destruct (insert_lagg None row d) as [d1 [lag|e]]; cbn [fst snd] in *; [|intros [= <- _]; done]. specialize (Ho lag eq_refl).
  unfold rescue. set (body := _ ≫= _).
  assert (inside (default [] (d_lag_ports data)) lag d (body d1).1) as H.
  { unfold body, mbind, ste_mbind, lift. assert (inside (default [] (d_lag_ports data)) lag d d1) as H0 by (split; [done..|by rewrite Ei]).
    destruct (d_lag_ports data) as [ports|]; [|done]. cbn [item default] in *. pose proof (inside_ports lag ports d d1 H0) as H1.
    destruct (set_lag_ports lag ports d1) as [d2' [u|e]]; [|done]. by apply inside_aliases. }
  destruct (body d1) as [d2' [u|e]]; [done|]. unfold suppress. intros [= <- _]. destruct H as [H1 H2 H3 _]. etrans; [exact H2|]. by apply strips_delete_lagg.
Qed.
End part.
End failing.

(** A creation that fails leaves the rows as they were. *)
Lemma create_rows_fails t name data d d' x :
  wf d -> kinds d -> (t = LINK_AGGREGATION -> forall r, r ∈ rows (interfaces d) -> int_interface r ∉ default [] (d_lag_ports data)) ->
  create_rows t name data d = (d', Err x) -> same_rows d d'.
Proof.
  intros Hd Hk Hp. unfold create_rows, mbind at 1, ste_mbind at 1. pose proof (create_row_spec data name d Hd) as Hs.
  destruct (create_interface_row data name d) as [d1 [[id aliases]|e]] eqn:Ec; [|intros [= <- _]; by subst]. clear Hs.
  pose proof (create_row_ports _ _ _ _ _ _ Hd Hk Ec) as (_ & _ & Hv & _). apply create_row_strip in Ec as (Hs & Hw & Hid & _ & Hr); [|done].
  unfold rescue. destruct (create_part t name data id aliases d1) as [d2 [u|e]] eqn:Ep; [done|].
  assert (strips id d1 d2) as (E1 & E2 & E3 & E4 & E5 & E6).
  { destruct t.
    - by apply create_bridge_fails in Ep as ->.
    - apply (create_lag_fails id name data aliases d1 Hw Hid e d2); [|exact Hv|exact Ep]. intros r [H|H]%Hr Hin; [|done]. by apply (Hp eq_refl) in H.
    - simpl in Ep. pose proof (insert_aliases_ok id aliases d1 Hw Hid) as E. by rewrite Ep in E.
    - simpl in Ep. pose proof (insert_aliases_ok id aliases d1 Hw Hid) as E. by rewrite Ep in E.
    - by apply create_vlan_fails in Ep as ->. }
  destruct Hs as (F1 & F2 & F3 & F4 & F5 & F6). unfold delete_interfaces, modify. intros [= <- _].
  split_and!; [by rewrite <-F1, <-E1|by rewrite <-F2, <-E2|by rewrite <-F3, <-E3|by rewrite <-F4, <-E4|by rewrite <-F5, <-E5|by rewrite <-F6, <-E6].
Qed.

(** ** The name that is chosen *)

Lemma name_inj (p : string) (m n : nat) : p +:+ pretty m = p +:+ pretty n -> m = n.
Proof.
  intros H. apply (inj (pretty (A:=nat))). revert H. induction p as [|c p IH]; simpl; [done|]. intros [= H]. by apply IH.
Qed.

(** The first numbers are all taken. *)
Definition taken (p : string) (names : list string) (a b : nat) : Prop := forall k, a <= k < b -> p +:+ pretty k ∈ names.

Lemma taken_bound p names a b : taken p names a b -> a <= b -> b - a <= length names.
Proof.
  intros H Hab. pose proof (submseteq_length (map (fun k => p +:+ pretty k) (List.seq a (b - a))) names) as L.
  rewrite length_map, length_seq in L. apply L. apply NoDup_submseteq.
  - assert (Inj (=) (=) (fun k : nat => p +:+ pretty k)) by (intros m n; apply name_inj).
    apply (NoDup_fmap_2 (fun k : nat => p +:+ pretty k)), NoDup_ListNoDup, seq_NoDup.
  - intros s. change (map ?f ?l) with (f <$> l). intros (k & -> & Hk%list_elem_of_In%in_seq)%list_elem_of_fmap. apply H. lia.
Qed.

Lemma next_free_spec fuel p names start n :
  taken p names start n -> start <= n -> length names < fuel + (n - start) ->
  exists k, next_free fuel p names n = Some (p +:+ pretty k) /\ n <= k /\ p +:+ pretty k ∉ names /\ taken p names start k.
Proof.
  revert n. induction fuel as [|fuel IH]; intros n Ht Hn Hf; cbn [next_free].
  - pose proof (taken_bound _ _ _ _ Ht Hn). lia.
  - case_bool_decide as Hin; [|by exists n].
    assert (taken p names start (S n)) as Ht'.
    { intros k Hk. destruct (decide (k = n)) as [->|]; [done|]. apply Ht. lia. }
    destruct (IH (S n) Ht') as (k & E1 & E2 & E3 & E4); [lia..|]. exists k. split_and!; [done|lia|done|done].
Qed.

Lemma get_next_spec p start d :
  exists k : nat, get_next p start d = Some (p +:+ pretty k) /\ start <= k /\
    (forall r, r ∈ rows (interfaces d) -> int_interface r ≠ p +:+ pretty k) /\
    (forall j, start <= j < k -> exists r, r ∈ rows (interfaces d) /\ int_interface r = p +:+ pretty j).
Proof.
  unfold get_next. set (names := List.filter _ _). destruct (next_free_spec (S (length names)) p names start start) as (k & E1 & E2 & E3 & E4).
  - intros k Hk. lia.
  - done.
  - lia.
  - assert (forall (k : nat) s, s = p +:+ pretty k -> s ∈ names <-> exists r, r ∈ rows (interfaces d) /\ int_interface r = s) as Hn.
    { intros j s ->. unfold names. rewrite filter_elem. change (map ?f ?l) with (f <$> l). rewrite list_elem_of_fmap. split.
      - intros [(r & -> & Hr) _]. by exists r.
      - intros (r & Hr & E). split; [by exists r|]. apply Str.startswith_spec. by eexists. }
    exists k. split_and!; [done..| |].
    + intros r Hr E. apply E3. apply (Hn k _ eq_refl). by exists r.
    + intros j Hj. apply (Hn j _ eq_refl), E4. lia.
Qed.

End NetCreate.
