(* ===== verification/NetRound.v ===== *)
(** * The outcome of creating an interface

    A creation that fails leaves the tables as they were, and the entry that a
    creation returns has the addresses of the request, in their order. *)

From S2P Require Import Prelude PyDict PyStr PyVal PyFormat Errors Ipaddr NetDb Ifaces NetCheck NetOps NetPending NetInv NetRestore NetSpec NetChecked NetClaims NetNets NetPorts NetDelete NetCreate.

Module NetRound.
Import NetDb Ifaces NetCheck NetOps Net NetInv NetRestore NetSpec NetChecked NetClaims NetNets NetPorts NetDelete NetCreate.

(** ** What stays *)

(** The gateway, and the names of the interfaces. *)
Definition same_gateway (d d' : db) : Prop := ipv4gateway d' = ipv4gateway d.
Definition quiet (d d' : db) : Prop :=
  same_gateway d d' /\ map int_interface (rows (interfaces d')) = map int_interface (rows (interfaces d)).

#[export] Instance same_gateway_preorder : PreOrder same_gateway.
Proof. split; [done|]. intros d1 d2 d3 E1 E2. unfold same_gateway in *. congruence. Qed.
#[export] Instance quiet_preorder : PreOrder quiet.
Proof. split; [done|]. intros d1 d2 d3 [E1 F1] [E2 F2]. split; [by etrans|congruence]. Qed.

Ltac stays :=
  intros d Hd; split; [match goal with |- wf (?m _).1 => cut (safe m); [by intros H; apply H|auto with nettab] end|].

Lemma gateway_insert_interfaces i r : steps same_gateway (insert_interfaces i r).
Proof. stays. unfold insert_interfaces, stored. by destruct (add_row _ _ _ _) as [[]|]. Qed.
Lemma gateway_delete_interfaces p : steps same_gateway (delete_interfaces p).
Proof. by stays. Qed.
Lemma quiet_insert_alias i r : steps quiet (insert_alias i r).
Proof. stays. unfold insert_alias, stored. by destruct (add_row _ _ _ _) as [[]|]. Qed.
Lemma quiet_insert_bridge i r : steps quiet (insert_bridge i r).
Proof. stays. unfold insert_bridge, stored. by destruct (add_row _ _ _ _) as [[]|]. Qed.
Lemma quiet_insert_vlan i r : steps quiet (insert_vlan i r).
Proof. stays. unfold insert_vlan, stored. by destruct (add_row _ _ _ _) as [[]|]. Qed.
Lemma quiet_insert_lagg i r : steps quiet (insert_lagg i r).
Proof. stays. unfold insert_lagg, stored. by destruct (add_row _ _ _ _) as [[]|]. Qed.
Lemma quiet_insert_member i r : steps quiet (insert_member i r).
Proof. stays. unfold insert_member, stored. by destruct (add_row _ _ _ _) as [[]|]. Qed.
Lemma quiet_reset i : steps quiet (update_interfaces i reset_port).
Proof.
  stays. unfold update_interfaces. destruct (List.find _ _); [|done]. destruct (existsb _ _); [done|]. split; [done|].
  cbn [fst interfaces set_interfaces]. by apply map_edit_key.
Qed.
Lemma quiet_delete_alias p : steps quiet (delete_alias p).
Proof. by stays. Qed.
Lemma quiet_delete_lagg p : steps quiet (delete_lagg p).
Proof. by stays. Qed.

#[export] Hint Resolve gateway_insert_interfaces gateway_delete_interfaces quiet_insert_alias quiet_insert_bridge quiet_insert_vlan
  quiet_insert_lagg quiet_insert_member quiet_reset quiet_delete_alias quiet_delete_lagg : claims.

Lemma quiet_create_part t name data id aliases : steps quiet (create_part t name data id aliases).
Proof. unfold create_part, set_lag_ports, set_lag_port, insert_aliases. grow_steps. Qed.

Lemma gateway_create_rows t name data : steps same_gateway (create_rows t name data).
Proof.
  unfold create_rows, create_interface_row. apply (steps_bind _); [grow_steps|]. intros [id aliases]. apply (steps_rescue _); [|auto with claims].
  intros d Hd. by destruct (quiet_create_part t name data id aliases d Hd) as [Hw [Hg _]].
Qed.

(** The interface is there when its creation has succeeded. *)
Lemma create_rows_named t name data d d' : wf d -> create_rows t name data d = (d', Ok tt) ->
  wf d' /\ exists r, r ∈ rows (interfaces d') /\ int_interface r = name.
Proof.
  intros Hd. unfold create_rows, mbind, ste_mbind. pose proof (create_row_spec data name d Hd) as Hs.
  destruct (create_interface_row data name d) as [d1 [[id aliases]|e]]; [|done]. destruct Hs as (Hw & _ & _ & _ & _ & _ & _ & r & Er & _ & En).
  unfold rescue. pose proof (quiet_create_part t name data id aliases d1 Hw) as Hq.
  destruct (create_part t name data id aliases d1) as [d2 [[]|e]]; [|done]. destruct Hq as [Hw2 [_ Hn]]. cbn [fst] in *. intros [= <-].
  split; [done|]. assert (name ∈ map int_interface (rows (interfaces d2))) as Hin.
  { rewrite Hn, Er, map_app. apply elem_of_app. right. rewrite <-En. by left. }
  change (map ?f ?l) with (f <$> l) in Hin. apply list_elem_of_fmap in Hin as (r2 & -> & Hr). by exists r2.
Qed.

(** ** A creation that fails *)

Lemma create_writes_cases t data d d' x :
  create_writes t data d = (d', x) ->
  (d' = d /\ exists e, x = Err e) \/ exists name u, create_rows t name data d = (d', u) /\ x = (_ ← u; Ok name).
Proof.
  unfold create_writes, mbind, ste_mbind, result_mbind. destruct (d_name data) as [n|]; simpl.
  - intros H. right. exists n. revert H. destruct (create_rows t n data d) as [d1 [u|e]]; intros [= -> <-]; eauto.
  - unfold lift. destruct (type_prefix t) as [p|]; simpl; [|intros [= -> <-]; eauto]. unfold expect.
    destruct (get_next p 0 d) as [n|]; [|intros [= -> <-]; eauto]. intros H. right. exists n. revert H.
    destruct (create_rows t n data d) as [d1 [u|e]]; intros [= -> <-]; eauto.
Qed.

Lemma create_writes_fails t data d d' x :
  wf d -> kinds d -> (t = LINK_AGGREGATION -> forall r, r ∈ rows (interfaces d) -> int_interface r ∉ default [] (d_lag_ports data)) ->
  create_writes t data d = (d', Err x) -> get_datastores d' = get_datastores d.
Proof.
  intros Hd Hk Hp [[-> _]|(name & [u|e] & Ec & [=])]%create_writes_cases; [done|].
  pose proof (gateway_create_rows t name data d Hd) as [_ Hg]. rewrite Ec in Hg. unfold same_gateway in Hg. cbn [fst] in Hg.
  destruct (create_rows_fails _ _ _ _ _ _ Hd Hk Hp Ec) as (E1 & E2 & E3 & E4 & E5 & E6). unfold get_datastores. by rewrite E1, E2, E3, E4, E5, E6, Hg.
Qed.

(** The ports that are accepted have no row. *)
Lemma accepted_ports_unnamed e d data data' r :
  create_checks e d LINK_AGGREGATION data = Ok data' -> r ∈ rows (interfaces d) -> int_interface r ∉ default [] (d_lag_ports data').
Proof.
  intros H Hr. apply create_checks_ok in H as [Ha Hs]. destruct (acc_type _ _ _ _ _ Ha) as (u & _ & _ & p & l & _ & Hl & Hm).
  assert (d_lag_ports data' = Some l) as -> by (by destruct Hs as [->| ->]). intros Hin. simpl in Hin. destruct (Hm _ Hin) as (_ & _ & Hn).
  apply Hn. change (map ?f ?l) with (f <$> l). apply list_elem_of_fmap. exists r. split; [done|]. by apply filter_elem.
Qed.

(** ** The entry that is returned *)

(** Every entry of the name of a row is made from the row. *)
Lemma query_name_shows e d r x : wf d -> r ∈ rows (interfaces d) -> x ∈ query e d -> en_name x = int_interface r -> shows d r x.
Proof.
  intros Hd Hr. unfold query, query_dict, Dict.values. rewrite fmap_app, elem_of_app. pose proof (configs_get d r Hd Hr) as Hc.
  intros [H|H] En; apply list_elem_of_fmap in H as ([k y] & -> & H); cbn [snd] in *.
  - unfold kernel_entries in H. apply list_elem_of_omap in H as ([k' st] & _ & H).
    destruct (_ || _); [done|]. destruct (_ && _); [done|]. destruct (st_oserror st); [done|]. injection H as -> <-.
    assert (k = int_interface r) as -> by (rewrite <-En; unfold iface_extend; by destruct (Dict.get k (configs d))).
    rewrite Hc. by eexists _, _, _.
  - change (map ?f ?l) with (f <$> l) in H. apply list_elem_of_fmap in H as ([k' r'] & [= -> ->] & [H _]%filter_elem).
    unfold configs in H. change (map ?f ?l) with (f <$> l) in H. apply list_elem_of_fmap in H as (r2 & [= -> ->] & H2). cbn in En.
    assert (r2 = r) as ->; [|by eexists _, _, _]. eapply (key_inj int_interface); [apply (names_nodup _ (wf_linked _ Hd))|done..].
Qed.

Lemma get_instance_shows e d r : wf d -> r ∈ rows (interfaces d) -> exists x, get_instance e (int_interface r) d = Ok x /\ shows d r x.
Proof.
  intros Hd Hr. destruct (query_shows e d r Hd Hr) as (y & Hy & En & _). unfold get_instance.
  destruct (List.find _ _) as [x|] eqn:Ef.
  - exists x. split; [done|]. apply find_elem in Ef as [Hx E%String.eqb_eq]. by eapply query_name_shows.
  - eapply find_none in Ef; [|by apply list_elem_of_In]. simpl in Ef. by rewrite En, String.eqb_refl in Ef.
Qed.

(** An alias as it is stored: its type is that of its address. *)
Definition requested (a : ali) : ali :=
  mkAli (match Ip.ip_address (al_address a) with Some ip => inet (version_num (Ip.ver ip)) | None => "" end) (al_address a) (al_netmask a).

Lemma mapE_zip da fa fva l : mapE convert_alias (zip_longest da fa fva) = Ok l ->
  map shown_of l = map requested da /\ forall a, a ∈ l -> nonempty (ad_address a) = true.
Proof.
  revert fa fva l. induction da as [|a da IH]; intros fa fva l; cbn [zip_longest mapE].
  - destruct fa as [|x fa]; [|by intros (y & Hy & _)%result_bind_ok]. destruct fva as [|x fva]; [|by intros (y & Hy & _)%result_bind_ok].
    intros [= <-]. split; [done|]. by intros a ?%elem_of_nil.
  - intros (y & Hy & (ys & Hys & [= <-])%result_bind_ok)%result_bind_ok. destruct (IH _ _ _ Hys) as [E1 E2].
    apply convert_alias_ok in Hy as (z & ip & [= <-] & Ea & En & Eip & Ev). split.
    + simpl. f_equal; [|done]. unfold shown_of, requested. rewrite <-Ea, Eip, Ev, En. done.
    + intros b [->|Hb]%elem_of_cons; [|by apply E2]. by destruct (ad_address y).
Qed.

Lemma converted_shown data a l da : convert_aliases_to_datastore data = Ok (a, l) -> d_aliases data = Some da ->
  (if nonempty (ad_address a) then [shown_of a] else []) ++ map shown_of l = map requested da /\
  forall b, b ∈ l -> nonempty (ad_address b) = true.
Proof.
  unfold convert_aliases_to_datastore. intros H Ed. rewrite Ed in H. simpl in H. apply result_bind_ok in H as (m & [E1 E2]%mapE_zip & H).
  rewrite <-E1. destruct m as [|x m]; injection H as <- <-; [split; [done|]; by intros b ?%elem_of_nil|].
  rewrite (E2 x) by (by left). split; [done|]. intros b Hb. apply E2. by right.
Qed.

(** The new row and its aliases, while the rest is written. *)
Record holds (r : iface_row) (l : list addrs) (d : db) : Prop := {
  holds_wf : wf d;
  holds_row : r ∈ rows (interfaces d);
  holds_addrs : addrs_of (i_id r) d = l;
}.

Lemma holds_has_id r l d : holds r l d -> has_id (i_id r) (rows (interfaces d)) = true.
Proof. intros H. apply has_id_spec. exists r. split; [apply (holds_row _ _ _ H)|done]. Qed.

Lemma holds_aliases r l' d : holds r [] d -> holds r l' (insert_aliases (i_id r) l' d).1.
Proof.
  intros H. pose proof (holds_has_id _ _ _ H) as Hi. destruct H as [Hw Hr Ha]. destruct (insert_aliases_rows (i_id r) l' d Hw Hi) as [E1 E2].
  split; [by apply safe_insert_aliases|by rewrite E1|]. by rewrite E2, Ha.
Qed.

Lemma filter_filter_id {A} (p q : A -> bool) l : (forall x, x ∈ l -> p x = true -> q x = true) -> List.filter p (List.filter q l) = List.filter p l.
Proof. intros H. apply filter_absorb. intros x Hx Hq. destruct (p x) eqn:E; [|done]. by rewrite (H x Hx E) in Hq. Qed.

(** Writes that leave the interfaces and the aliases alone. *)
Lemma holds_frame {A} (m : dop A) r l d : safe m -> interfaces (m d).1 = interfaces d -> alias (m d).1 = alias d -> holds r l d -> holds r l (m d).1.
Proof. intros Hs E1 E2 [Hw Hr Ha]. split; [by apply Hs|by rewrite E1|]. unfold addrs_of. by rewrite E2. Qed.

Lemma holds_reset r l k d : i_id r ≠ k -> holds r l d -> holds r l (update_interfaces k reset_port d).1.
Proof.
  intros Hne [Hw Hr Ha]. pose proof (safe_update_interfaces k reset_port d Hw) as Hs. unfold update_interfaces in *.
  destruct (List.find _ _); [|done]. destruct (existsb _ _); [done|]. split; [done| |done]. cbn [fst interfaces set_interfaces].
  unfold edit_row. cbn [rows]. change (map ?f ?l) with (f <$> l). apply list_elem_of_fmap. exists r. split; [|done].
  apply Z.eqb_neq in Hne. cbn. by rewrite Hne.
Qed.

Lemma holds_delete_alias r l k d : i_id r ≠ k -> holds r l d -> holds r l (delete_alias (fun a => alias_interface a =? k)%Z d).1.
Proof.
  intros Hne [Hw Hr Ha]. split; [by apply safe_delete_alias|done|]. unfold addrs_of in *. cbn. rewrite filter_filter_id; [done|].
  intros x _ E%Z.eqb_eq. apply negb_true_iff, Z.eqb_neq. congruence.
Qed.

(** Setting a port other than the interface itself. *)
Lemma holds_port r l lag k p d : p ≠ int_interface r -> holds r l d -> holds r l (set_lag_port lag (k, p) d).1.
Proof.
  intros Hp H. unfold set_lag_port. unfold mbind at 1, ste_mbind at 1.
  assert (holds r l (insert_member None (mkMember 0 (Z.of_nat k) p lag) d).1) as H1.
  { apply holds_frame; [auto with nettab|..|done]; unfold insert_member, stored; by destruct (add_row _ _ _ _) as [[]|]. }
  destruct (insert_member _ _ d) as [d1 [u|e]]; [|done]. cbn [fst] in H1. rewrite ste_bind_gets.
  destruct (List.find _ (rows (interfaces d1))) as [r'|] eqn:Ef; [|done]. apply find_elem in Ef as [Hr' En%String.eqb_eq].
  assert (i_id r ≠ i_id r') as Hne.
  { intros E. apply Hp. rewrite <-En. f_equal. destruct H1 as [Hw1 Hr _]. symmetry. eapply (key_inj i_id); [apply (ids_nodup _ (wf_interfaces _ Hw1))|done..]. }
  unfold mbind, ste_mbind. pose proof (holds_reset r l (i_id r') d1 Hne H1) as H2.
  destruct (update_interfaces _ _ d1) as [d2 [v|e]]; [|done]. by apply holds_delete_alias.
Qed.

Lemma holds_ports r l lag ports d : int_interface r ∉ ports -> holds r l d -> holds r l (set_lag_ports lag ports d).1.
Proof.
  intros Hp H. apply (for_each_inv (holds r l)); [|done]. intros x d1 (k & p & -> & Hk)%elem_of_lookup_imap. apply holds_port.
  intros ->. apply Hp. by eapply list_elem_of_lookup_2.
Qed.

Lemma holds_part t r data aliases d d' : int_interface r ∉ default [] (d_lag_ports data) -> holds r [] d ->
  create_part t (int_interface r) data (i_id r) aliases d = (d', Ok tt) -> holds r aliases d'.
Proof.
  intros Hp H. assert (forall d1, holds r [] d1 -> insert_aliases (i_id r) aliases d1 = (d', Ok tt) -> holds r aliases d') as Hal.
  { intros d1 H1 E. pose proof (holds_aliases r aliases d1 H1) as H2. by rewrite E in H2. }
  destruct t; unfold create_part; [| |by apply Hal..|].
  - unfold mbind, ste_mbind, lift. destruct (d_bridge_members data) as [m|]; [|done]. destruct (d_stp data) as [s|]; [|done].
    destruct (d_enable_learning data) as [le|]; [|done]. cbn [item].
    pose proof (holds_frame (insert_bridge None (mkBridge 0 m (i_id r) s le)) r [] d) as H1.
    destruct (insert_bridge _ _ d) as [d1 [u|e]] eqn:E; [|done]. apply Hal, H1; [auto with nettab|..|done];
      revert E; unfold insert_bridge, stored; destruct (add_row _ _ _ _) as [[]|]; by intros [= <- _].
  - unfold mbind at 1, ste_mbind at 1, lift at 1. destruct (create_lagg_row data (i_id r)) as [row|]; [|done]. unfold mbind at 1, ste_mbind at 1.
    pose proof (holds_frame (insert_lagg None row) r [] d) as H1. destruct (insert_lagg None row d) as [d1 [lag|e]] eqn:E; [|done].
    assert (holds r [] d1) as H2.
    { apply H1; [auto with nettab|..|done]; revert E; unfold insert_lagg, stored; destruct (add_row _ _ _ _) as [[]|]; by intros [= <- _]. }
    unfold rescue, mbind, ste_mbind, lift. destruct (d_lag_ports data) as [ports|]; [|done]. cbn [item default] in *.
    pose proof (holds_ports r [] lag ports d1 Hp H2) as H3. destruct (set_lag_ports lag ports d1) as [d2 [u|e]]; [|done].
    pose proof (Hal d2 H3) as H4. destruct (insert_aliases _ _ d2) as [d3 [v|e]]; [|done]. intros [= -> ->]. by apply H4.
  - unfold mbind, ste_mbind, lift, expect. destruct (d_vlan_parent_interface data) as [p|]; [|done].
    destruct (d_vlan_tag data) as [tag|]; [|done]. cbn [item]. destruct p as [p|]; [|done]. destruct tag as [tag|]; [|done].
    pose proof (holds_frame (insert_vlan None (mkVlan 0 (int_interface r) p tag "" (default None (d_vlan_pcp data)))) r [] d) as H1.
    destruct (insert_vlan _ _ d) as [d1 [u|e]] eqn:E; [|done]. apply Hal, H1; [auto with nettab|..|done];
      revert E; unfold insert_vlan, stored; destruct (add_row _ _ _ _) as [[]|]; by intros [= <- _].
Qed.

(** The row as it is created. *)
Lemma create_row_holds data name d d1 id aliases da : wf d -> d_aliases data = Some da ->
  create_interface_row data name d = (d1, Ok (id, aliases)) ->
  exists r, i_id r = id /\ int_interface r = name /\ holds r [] d1 /\
    Some (int_dhcp r) = d_ipv4_dhcp data /\ Some (int_ipv6auto r) = d_ipv6_auto data /\
    (if nonempty (int_address r) then [mkAli (inet (int_version r)) (int_address r) (Some (int_netmask r))] else []) ++ map shown_of aliases = map requested da /\
    forall b, b ∈ aliases -> nonempty (ad_address b) = true.
Proof.
  intros Hd Hda. pose proof (safe_create_row data name d Hd) as Hw. revert Hw. unfold create_interface_row, mbind, ste_mbind, lift.
  destruct (convert_aliases_to_datastore data) as [[a l]|] eqn:Ec; [|done]. destruct (convert_interface_datastore data) as [c|] eqn:Ev; [|done].
  unfold insert_interfaces, stored. destruct (add_row _ _ _ _) as [[t k]|] eqn:E; [|done]. cbn [fst]. intros Hw [= <- <- <-].
  apply (converted_shown _ _ _ da) in Ec as [E1 E2]; [|done]. apply add_row_inv in E as (_ & Hf & Er & _).
  exists (with_rid k (interface_values c a 0 name)). split_and!; [done..| | | |exact E1|exact E2].
  - split; [done|cbn; rewrite Er; set_solver|]. unfold addrs_of. cbn. rewrite filter_none; [done|]. intros x Hx. apply Z.eqb_neq.
    intros Ex. apply (alias_fk _ (wf_linked _ Hd)) in Hx. assert (has_id (alias_interface x) (rows (interfaces d)) = true) as Hx2 by exact Hx. congruence.
  - revert Ev. unfold convert_interface_datastore. destruct (d_description data); [|done]. destruct (d_ipv4_dhcp data); [|done].
    destruct (d_ipv6_auto data); [|done]. by intros [= <-].
  - revert Ev. unfold convert_interface_datastore. destruct (d_description data); [|done]. destruct (d_ipv4_dhcp data); [|done].
    destruct (d_ipv6_auto data); [|done]. by intros [= <-].
Qed.

(** The aliases of a row and of alias rows that have addresses. *)
Lemma shown_aliases_addrs d r l : addrs_of (i_id r) d = l -> (forall b, b ∈ l -> nonempty (ad_address b) = true) ->
  negb (int_dhcp r) || negb (int_ipv6auto r) = true ->
  shown_aliases d r = (if nonempty (int_address r) then [mkAli (inet (int_version r)) (int_address r) (Some (int_netmask r))] else []) ++ map shown_of l.
Proof.
  intros <- Hn Ha. unfold shown_aliases. rewrite Ha. simpl. f_equal. unfold addrs_of, aliases_of in *. rewrite map_map.
  rewrite filter_all; [done|]. intros x Hx. apply (Hn (alias_addrs x)). change (map ?f ?l) with (f <$> l). apply list_elem_of_fmap. by exists x.
Qed.

Lemma create_rows_shows t name data d d' da : wf d -> d_aliases data = Some da ->
  (d_ipv4_dhcp data ≠ Some true \/ d_ipv6_auto data ≠ Some true) -> name ∉ default [] (d_lag_ports data) ->
  create_rows t name data d = (d', Ok tt) ->
  wf d' /\ exists r, r ∈ rows (interfaces d') /\ int_interface r = name /\ shown_aliases d' r = map requested da.
Proof.
  intros Hd Hda Hauto Hp. unfold create_rows, mbind, ste_mbind. destruct (create_interface_row data name d) as [d1 [[id aliases]|e]] eqn:Ec; [|done].
  destruct (create_row_holds _ _ _ _ _ _ _ Hd Hda Ec) as (r & <- & <- & Hh & E1 & E2 & E3 & E4).
  unfold rescue. destruct (create_part t (int_interface r) data (i_id r) aliases d1) as [d2 [[]|e]] eqn:Ep; [|done].
  apply holds_part in Ep as [Hw Hr Ha]; [|done..]. intros [= <-]. split; [done|]. exists r. split_and!; [done..|].
  rewrite (shown_aliases_addrs _ _ _ Ha E4), E3; [done|]. rewrite <-E1, <-E2 in Hauto. destruct (int_dhcp r), (int_ipv6auto r); naive_solver.
Qed.

End NetRound.
