(* ===== verification/NetFault.v ===== *)
(** * Creating an interface while the database fails (plugins/network.py)

    The writes of [do_create] with calls of the datastore that raise at any point (a
    locked or full database, a call that is cancelled): a list tells for each call in
    turn whether it fails.  The except branch deletes the row of the link aggregation,
    ignoring errors, and the row of the interface; the rows that refer to them go with
    them.  The row of a VLAN refers to nothing. *)

From S2P Require Import Prelude PyDict PyStr PyVal PyFormat Errors Ipaddr NetDb Ifaces NetCheck NetOps NetPending NetInv NetRestore NetSpec NetChecked NetClaims NetNets NetPorts NetDelete NetCreate NetRound.

Module NetFault.
Import NetDb Ifaces NetCheck NetOps Net NetInv NetRestore NetSpec NetChecked NetClaims NetNets NetPorts NetDelete NetCreate NetRound.

Notation fop := (STE (db * list bool) exn).

Definition OperationalError : exn := EOther "OperationalError" "database is locked".

(** A call of the datastore, which fails if the next element of the list says so. *)
Definition datastore_call {A} (m : dop A) : fop A := fun s =>
  match s.2 with
  | true :: fs => ((s.1, fs), Err OperationalError)
  | fs => let '(d, r) := m s.1 in ((d, tail fs), r)
  end.

(** The deletion of the interface in the except branch does not fail. *)
Definition clean_up (m : dop unit) : fop unit := fun s => let '(d, r) := m s.1 in ((d, s.2), r).

Definition insert_aliases_f (id : Z) (l : list addrs) : fop unit :=
  for_each (fun a => _ ← datastore_call (insert_alias None (alias_values a 0 id)); mret tt) l.

Definition set_lag_port_f (lag_id : Z) (x : nat * string) : fop unit :=
  let '(idx, port) := x in
  _ ← datastore_call (insert_member None (mkMember 0 (Z.of_nat idx) port lag_id));
  o ← datastore_call (gets (fun d => List.find (fun r => String.eqb (int_interface r) port) (rows (interfaces d))));
  match o with
  | None => mret tt
  | Some r =>
      _ ← datastore_call (update_interfaces (i_id r) reset_port);
      datastore_call (delete_alias (fun a => alias_interface a =? i_id r)%Z)
  end.

Definition set_lag_ports_f (lag_id : Z) (ports : list string) : fop unit :=
  for_each (set_lag_port_f lag_id) (imap (fun i p => (i, p)) ports).

Definition create_part_f (t : itype) (name : string) (data : idata) (id : Z) (aliases : list addrs) : fop unit :=
  match t with
  | BRIDGE =>
      m ← lift (item "bridge_members" (d_bridge_members data));
      s ← lift (item "stp" (d_stp data));
      l ← lift (item "enable_learning" (d_enable_learning data));
      _ ← datastore_call (insert_bridge None (mkBridge 0 m id s l));
      insert_aliases_f id aliases
  | LINK_AGGREGATION =>
      row ← lift (create_lagg_row data id);
      lag_id ← datastore_call (insert_lagg None row);
      rescue (ports ← lift (item "lag_ports" (d_lag_ports data));
              _ ← set_lag_ports_f lag_id ports;
              insert_aliases_f id aliases)
        (suppress (datastore_call (delete_lagg (fun l => l_id l =? lag_id)%Z)))
  | VLAN =>
      p ← lift (item "vlan_parent_interface" (d_vlan_parent_interface data));
      t ← lift (item "vlan_tag" (d_vlan_tag data));
      p ← expect p IntegrityError;
      t ← expect t IntegrityError;
      _ ← datastore_call (insert_vlan None (mkVlan 0 name p t "" (default None (d_vlan_pcp data))));
      insert_aliases_f id aliases
  | _ => insert_aliases_f id aliases
  end.

Definition create_rows_f (t : itype) (name : string) (data : idata) : fop unit :=
  '(id, aliases) ← datastore_call (create_interface_row data name);
  rescue (create_part_f t name data id aliases) (clean_up (delete_interfaces (by_id id))).

Definition create_writes_f (t : itype) (data : idata) : fop string :=
  name ← match d_name data with
         | Some n => mret n
         | None => p ← lift (type_prefix t); o ← datastore_call (gets (get_next p 0)); expect o (EOther "OutOfFuel" "get_next")
         end;
  _ ← create_rows_f t name data;
  mret name.

(** [do_create] when the calls that write fail as [fs] tells. *)
Definition do_create_f (fs : list bool) (e : nenv) (t : itype) (data : idata) : nop entry :=
  data ← reading (fun d => create_checks e d t data);
  _ ← save_datastores;
  name ← on_db (fun d => let '((d', _), r) := create_writes_f t data (d, fs) in (d', r));
  reading (get_instance e name).

(** ** Without failures *)

(** A run that succeeds is one without failures; without failures the runs are the
    same. *)
Definition faultless {A} (mf : fop A) (m : dop A) : Prop := forall d, mf (d, []) = (((m d).1, []), (m d).2).
Definition agrees {A} (mf : fop A) (m : dop A) : Prop :=
  (forall d fs s a, mf (d, fs) = (s, Ok a) -> m d = (s.1, Ok a)) /\ faultless mf m.

Lemma agrees_datastore {A} (m : dop A) : agrees (datastore_call m) m.
Proof.
  split; [intros d fs s a|intros d]; unfold datastore_call; simpl; [|by destruct (m d)].
  destruct fs as [|[] fs]; [|done|]; destruct (m d) as [d' r]; by intros [= <- ->].
Qed.
Lemma agrees_ret {A} (a : A) : agrees (mret a) (mret a).
Proof. split; [|done]. by intros d fs s b [= <- <-]. Qed.
Lemma agrees_lift {A} (r : result exn A) : agrees (lift r) (lift r).
Proof. split; [|done]. by intros d fs s b [= <- ->]. Qed.
Lemma agrees_expect {A} (o : option A) x : agrees (expect o x) (expect o x).
Proof. destruct o; split; try done. by intros d fs s b [= <- <-]. Qed.
Lemma agrees_bind {A B} (mf : fop A) m (ff : A -> fop B) f : agrees mf m -> (forall a, agrees (ff a) (f a)) -> agrees (mf ≫= ff) (m ≫= f).
Proof.
  intros [Hm Hm0] Hf. unfold mbind, ste_mbind. split.
  - intros d fs s b. destruct (mf (d, fs)) as [[d1 fs1] [a|e]] eqn:E; [|done]. rewrite (Hm d fs _ a E). apply Hf.
  - intros d. rewrite Hm0. destruct (m d) as [d1 [a|e]]; [|done]. apply Hf.
Qed.
Lemma agrees_for_each {A} (ff : A -> fop unit) f l : (forall a, agrees (ff a) (f a)) -> agrees (for_each ff l) (for_each f l).
Proof. intros H. induction l as [|a l IH]; simpl; [apply agrees_ret|]. by apply agrees_bind. Qed.
Lemma agrees_rescue {A} (mf : fop A) m hf h : agrees mf m -> faultless hf h -> agrees (rescue mf hf) (rescue m h).
Proof.
  intros [Hm Hm0] Hh. unfold rescue. split.
  - intros d fs s b. destruct (mf (d, fs)) as [s1 [a|e]] eqn:E; [|by destruct (hf s1) as [? [|]]]. intros [= <- <-]. by rewrite (Hm d fs s1 a E).
  - intros d. rewrite Hm0. destruct (m d) as [d1 [a|e]]; [done|]. simpl. rewrite Hh. by destruct (h d1) as [d2 [|]].
Qed.
Lemma faultless_suppress (m : dop unit) : faultless (suppress (datastore_call m)) (suppress m).
Proof. intros d. unfold suppress. by rewrite (proj2 (agrees_datastore m) d). Qed.
Lemma faultless_clean_up (m : dop unit) : faultless (clean_up m) m.
Proof. intros d. unfold clean_up. simpl. by destruct (m d). Qed.

Ltac agree :=
  repeat first
    [ apply agrees_datastore | apply agrees_ret | apply agrees_lift | apply agrees_expect | apply faultless_suppress | apply faultless_clean_up
    | apply agrees_bind; [|intros ?] | apply agrees_for_each; intros ? | apply agrees_rescue
    | match goal with |- agrees (match ?x with _ => _ end) _ => destruct x end ].

Lemma create_writes_agrees t data : agrees (create_writes_f t data) (create_writes t data).
Proof.
  unfold create_writes_f, create_writes, create_rows_f, create_rows, create_part_f, create_part, set_lag_ports_f, set_lag_ports,
    set_lag_port_f, set_lag_port, insert_aliases_f, insert_aliases. agree.
Qed.

Lemma create_without_failures e t data s : do_create_f [] e t data s = do_create e t data s.
Proof.
  unfold do_create_f, do_create. unfold mbind at 1 4, ste_mbind at 1 4, reading. destruct (create_checks e (tabs s) t data) as [data'|]; [|done].
  unfold mbind, ste_mbind. destruct (save_datastores s) as [s1 [u|]]; [|done]. unfold on_db. rewrite (proj2 (create_writes_agrees t data') (tabs s1)).
  by destruct (create_writes t data' (tabs s1)) as [d [|]].
Qed.

(** ** What the failures leave *)

(** Properties of the tables that the calls keep, whichever fail. *)
Definition fkeeps (P : db -> Prop) {A} (m : fop A) : Prop := forall d fs, P d -> P (m (d, fs)).1.1.

Lemma fkeeps_datastore P {A} (m : dop A) : (forall d, P d -> P (m d).1) -> fkeeps P (datastore_call m).
Proof. intros H d fs Hd. specialize (H d Hd). unfold datastore_call. simpl. destruct fs as [|[] fs]; [|done|]; by destruct (m d). Qed.
Lemma fkeeps_bind P {A B} (m : fop A) (f : A -> fop B) : fkeeps P m -> (forall a, fkeeps P (f a)) -> fkeeps P (m ≫= f).
Proof.
  intros Hm Hf d fs Hd. specialize (Hm d fs Hd). unfold mbind, ste_mbind. destruct (m (d, fs)) as [[d1 fs1] [a|e]]; [|done]. by apply Hf.
Qed.
Lemma fkeeps_lift P {A} (r : result exn A) : fkeeps P (lift r).
Proof. by intros d fs Hd. Qed.
Lemma fkeeps_expect P {A} (o : option A) x : fkeeps P (expect o x).
Proof. intros d fs Hd. by destruct o. Qed.
Lemma fkeeps_for_each P {A} (f : A -> fop unit) l : (forall a, a ∈ l -> fkeeps P (f a)) -> fkeeps P (for_each f l).
Proof.
  induction l as [|a l IH]; intros H; simpl; [by intros d fs|]. apply fkeeps_bind; [apply H; by left|]. intros _. apply IH. intros b Hb. apply H. by right.
Qed.
Lemma fkeeps_rescue P {A} (m : fop A) h : fkeeps P m -> fkeeps P h -> fkeeps P (rescue m h).
Proof.
  intros Hm Hh d fs Hd. specialize (Hm d fs Hd). unfold rescue. destruct (m (d, fs)) as [[d1 fs1] [a|e]]; [done|]. simpl in Hm.
  specialize (Hh d1 fs1 Hm). by destruct (h (d1, fs1)) as [s [|]].
Qed.
Lemma fkeeps_suppress P (m : fop unit) : fkeeps P m -> fkeeps P (suppress m).
Proof. intros Hm d fs Hd. apply (Hm d fs Hd). Qed.

Ltac fstep :=
  first [ apply fkeeps_lift | apply fkeeps_expect | apply fkeeps_bind; [|intros ?] | apply fkeeps_rescue | apply fkeeps_suppress
        | apply fkeeps_datastore; intros ? ? | match goal with |- fkeeps _ (mret _) => by intros ? ? end ].

Lemma datastore_inv {A} (m : dop A) d fs : exists fs', datastore_call m (d, fs) = ((d, fs'), Err OperationalError) \/ datastore_call m (d, fs) = (((m d).1, fs'), (m d).2).
Proof. unfold datastore_call. simpl. destruct fs as [|[] fs]; [exists []|exists fs|exists fs]; destruct (m d); auto. Qed.

Section part.
Context (id : Z).

Lemma strips_insert_bridge r d : b_interface r = id -> strips id d (insert_bridge None r d).1.
Proof.
  intros E. unfold insert_bridge, stored. destruct (add_row _ _ _ _) as [[t k]|] eqn:Ea; [|done]. apply add_row_inv in Ea as (_ & _ & Er & _).
  split_and!; try done. simpl. rewrite Er. apply filter_idem_snoc. simpl. rewrite E. apply negb_false_iff, negb_true_iff. apply (strip_no_id id d).
Qed.

(** What was written since [d0] goes with the row of the interface. *)
Record left_over (d0 d : db) : Prop := {
  lo_wf : wf d;
  lo_strips : strips id d0 d;
  lo_gateway : ipv4gateway d = ipv4gateway d0;
}.

Lemma left_alias d0 a d : left_over d0 d -> left_over d0 (insert_alias None (alias_values a 0 id) d).1.
Proof.
  intros [Hw Hs Hg]. split; [by apply safe_insert_alias|etrans; [exact Hs|by apply strips_insert_alias]|].
  unfold insert_alias, stored. by destruct (add_row _ _ _ _) as [[]|].
Qed.

Lemma left_aliases d0 l : fkeeps (left_over d0) (insert_aliases_f id l).
Proof. apply fkeeps_for_each. intros a _. repeat fstep. by apply left_alias. Qed.

(** The ports of a link aggregation on the interface. *)
Definition porting (ports : list string) (lag : Z) (d0 d : db) : Prop := inside id ports lag d0 d /\ ipv4gateway d = ipv4gateway d0.

Lemma porting_left ports lag d0 d : porting ports lag d0 d -> left_over d0 d.
Proof. intros [[Hw Hs _ _] Hg]. by split. Qed.

Lemma porting_port ports lag d0 k p : p ∈ ports -> fkeeps (porting ports lag d0) (set_lag_port_f lag (k, p)).
Proof.
  intros Hp. unfold set_lag_port_f. apply fkeeps_bind.
  { apply fkeeps_datastore. intros d [H Hg]. split; [by apply inside_member|]. unfold insert_member, stored. by destruct (add_row _ _ _ _) as [[]|]. }
  intros _ d fs [H Hg]. unfold mbind at 1, ste_mbind at 1.
  destruct (datastore_inv (gets (fun d => List.find (fun r => String.eqb (int_interface r) p) (rows (interfaces d)))) d fs) as [fs1 [->| ->]]; [done|].
  cbn [fst snd gets]. destruct (List.find _ (rows (interfaces d))) as [r|] eqn:Ef; [|done]. apply find_elem in Ef as [Hr En%String.eqb_eq].
  assert (i_id r = id) as -> by (apply (in_ports _ _ _ _ _ H); [done|by rewrite En]).
  assert (fkeeps (porting ports lag d0) (_ ← datastore_call (update_interfaces id reset_port); datastore_call (delete_alias (fun a => alias_interface a =? id)%Z))) as K; [|by apply K].
  apply fkeeps_bind; [|intros _]; apply fkeeps_datastore; intros d1 [H1 Hg1]; (split; [by (apply inside_reset || apply inside_delete_alias)|]); [|done].
  unfold update_interfaces. destruct (List.find _ _); [|done]. by destruct (existsb _ _).
Qed.

Lemma porting_body ports lag d0 aliases : fkeeps (porting ports lag d0) (_ ← set_lag_ports_f lag ports; insert_aliases_f id aliases).
Proof.
  apply fkeeps_bind; [|intros _].
  - apply fkeeps_for_each. intros x (k & p & -> & Hk)%elem_of_lookup_imap. apply porting_port. by eapply list_elem_of_lookup_2.
  - apply fkeeps_for_each. intros a _. repeat fstep. match goal with H : porting _ _ _ _ |- _ => destruct H as [[Hw Hs Ho Hp] Hg] end.
    assert (forall P : db -> Prop, (forall t, P (set_alias t d)) -> P d -> P (insert_alias None (alias_values a 0 id) d).1) as Hf.
    { intros P H1 H2. unfold insert_alias, stored. destruct (add_row _ _ _ _) as [[]|]; [apply H1|done]. }
    split; [split; [by apply safe_insert_alias|etrans; [exact Hs|by apply strips_insert_alias]|by apply (Hf (lag_owned id lag))|]|].
    + by apply (Hf (fun d => forall r, r ∈ rows (interfaces d) -> int_interface r ∈ ports -> i_id r = id)).
    + by apply (Hf (fun d => ipv4gateway d = ipv4gateway d0)).
Qed.

Context (name : string) (data : idata) (aliases : list addrs) (d0 : db).
Hypothesis Hd : wf d0.

Lemma left_refl : left_over d0 d0.
Proof using Hd. by split. Qed.

Lemma bridge_left fs : left_over d0 (create_part_f BRIDGE name data id aliases (d0, fs)).1.1.
Proof using Hd.
  assert (fkeeps (left_over d0) (create_part_f BRIDGE name data id aliases)) as K; [|by apply K, left_refl].
  unfold create_part_f. repeat fstep; [|apply left_aliases]. match goal with H : left_over _ _ |- _ => destruct H as [Hw Hs Hg] end.
  split; [by apply safe_insert_bridge|etrans; [exact Hs|by apply strips_insert_bridge]|]. unfold insert_bridge, stored. by destruct (add_row _ _ _ _) as [[]|].
Qed.

Lemma lag_left fs :
  (forall r, r ∈ rows (interfaces d0) -> int_interface r ∈ default [] (d_lag_ports data) -> i_id r = id) ->
  left_over d0 (create_part_f LINK_AGGREGATION name data id aliases (d0, fs)).1.1.
Proof using Hd.
  intros Hp. unfold create_part_f. unfold mbind at 1, ste_mbind at 1, lift at 1. destruct (create_lagg_row data id) as [row|] eqn:Er; [|apply left_refl].
  pose proof (create_lagg_interface data id row Er) as Hi. unfold mbind at 1, ste_mbind at 1.
  destruct (datastore_inv (insert_lagg None row) d0 fs) as [fs1 [->| ->]]; [apply left_refl|].
  pose proof (strips_insert_lagg id row d0 Hd Hi) as Hs. pose proof (safe_insert_lagg None row d0 Hd) as Hw.
  assert (forall lag, (insert_lagg None row d0).2 = Ok lag -> porting (default [] (d_lag_ports data)) lag d0 (insert_lagg None row d0).1) as Ho.
  { intros lag El. split; [split; [done..| |]|]; revert El; unfold insert_lagg, stored; (destruct (add_row _ _ _ _) as [[t k]|] eqn:E; [|done]);
      [|done..]. apply add_row_inv in E as (_ & Hf & Et & _). intros [= <-] l. cbn [fst lagg set_lagg]. rewrite Et.
    intros [Hl|Hl]%elem_of_app El; [rewrite has_id_false in Hf; by apply Hf in Hl|]. by apply list_elem_of_singleton in Hl as ->. }
  assert (ipv4gateway (insert_lagg None row d0).1 = ipv4gateway d0) as Hg by (unfold insert_lagg, stored; by destruct (add_row _ _ _ _) as [[]|]).
  destruct (insert_lagg None row d0) as [d1 [lag|e]]; cbn [fst snd] in *; [|by split]. specialize (Ho lag eq_refl).
  set (body := _ ≫= _). assert (fkeeps (porting (default [] (d_lag_ports data)) lag d0) body) as K.
  { unfold body. destruct (d_lag_ports data) as [ports|]; [|by intros d fs']. apply (porting_body ports). }
  specialize (K d1 fs1 Ho). unfold rescue. destruct (body (d1, fs1)) as [[d2 fs2] [u|e]]; cbn [fst snd] in *; [by eapply porting_left|].
  unfold suppress. destruct (datastore_inv (delete_lagg (fun l => l_id l =? lag)%Z) d2 fs2) as [fs3 [->| ->]]; cbn [fst snd]; [by eapply porting_left|].
  destruct K as [[K1 K2 K3 _] Kg]. split; [by apply safe_delete_lagg| |done]. etrans; [exact K2|]. by apply strips_delete_lagg.
Qed.

(** A VLAN: its row may be left. *)
Lemma vlan_left fs : exists t, left_over (set_vlan t d0) (create_part_f VLAN name data id aliases (d0, fs)).1.1 /\
  (t = vlan d0 \/ exists v, vlan_vint v = name /\ rows t = rows (vlan d0) ++ [v]).
Proof using Hd.
  assert (exists t, left_over (set_vlan t d0) d0 /\ (t = vlan d0 \/ exists v, vlan_vint v = name /\ rows t = rows (vlan d0) ++ [v])) as H0.
  { exists (vlan d0). split; [|by left]. destruct d0. by split. }
  unfold create_part_f. unfold mbind at 1, ste_mbind at 1, lift at 1. destruct (d_vlan_parent_interface data) as [p|]; [|done].
  unfold mbind at 1, ste_mbind at 1, lift at 1. destruct (d_vlan_tag data) as [t|]; [|done]. cbn [item].
  unfold mbind at 1, ste_mbind at 1, expect at 1. destruct p as [p|]; [|done]. unfold mbind at 1, ste_mbind at 1, expect at 1. destruct t as [t|]; [|done].
  unfold mbind at 1, ste_mbind at 1. set (v := mkVlan 0 name p t "" (default None (d_vlan_pcp data))).
  destruct (datastore_inv (insert_vlan None v) d0 fs) as [fs1 [->| ->]]; [done|]. pose proof (safe_insert_vlan None v d0 Hd) as Hw.
  destruct (insert_vlan_ok v d0 Hd) as [i E1]. rewrite E1 in *. cbn [fst snd] in *. eexists. split.
  - apply (left_aliases (set_vlan (mkTable (rows (vlan d0) ++ [with_rid i v]) i) d0)). by split.
  - right. by exists (with_rid i v).
Qed.

(** The other types have only their addresses. *)
Lemma other_left t fs : t ≠ BRIDGE -> t ≠ LINK_AGGREGATION -> t ≠ VLAN -> left_over d0 (create_part_f t name data id aliases (d0, fs)).1.1.
Proof using Hd. intros. destruct t; try done; by apply (left_aliases d0), left_refl. Qed.
End part.

(** ** A creation that fails *)

(** The tables of before, or with one more VLAN of the name. *)
Definition leaves (t : itype) (name : string) (d d' : db) : Prop :=
  ipv4gateway d' = ipv4gateway d /\
  exists w, same_rows (set_vlan w d) d' /\ (rows w = rows (vlan d) \/ t = VLAN /\ exists v, vlan_vint v = name /\ rows w = rows (vlan d) ++ [v]).

Lemma leaves_refl t name d : leaves t name d d.
Proof. split; [done|]. exists (vlan d). split; [by destruct d|by left]. Qed.

Lemma part_left t id name data aliases d0 fs :
  wf d0 -> (t = LINK_AGGREGATION -> forall r, r ∈ rows (interfaces d0) -> int_interface r ∈ default [] (d_lag_ports data) -> i_id r = id) ->
  exists w, left_over id (set_vlan w d0) (create_part_f t name data id aliases (d0, fs)).1.1 /\
    (w = vlan d0 \/ t = VLAN /\ exists v, vlan_vint v = name /\ rows w = rows (vlan d0) ++ [v]).
Proof.
  intros Hd Hp. destruct (decide (t = VLAN)) as [->|Hv].
  { destruct (vlan_left id name data aliases d0 Hd fs) as (w & H & Hw). exists w. split; [done|]. destruct Hw; auto. }
  exists (vlan d0). split; [|by left]. assert (set_vlan (vlan d0) d0 = d0) as -> by (by destruct d0). destruct t; try done.
  - by apply bridge_left.
  - apply lag_left; [done|]. by apply Hp.
  - by apply other_left.
  - by apply other_left.
Qed.

Lemma create_rows_f_fails t name data d fs s x :
  wf d -> (t = LINK_AGGREGATION -> forall r, r ∈ rows (interfaces d) -> int_interface r ∉ default [] (d_lag_ports data)) ->
  create_rows_f t name data (d, fs) = (s, Err x) -> leaves t name d s.1.
Proof.
  intros Hd Hp. unfold create_rows_f, mbind at 1, ste_mbind at 1. pose proof (create_row_spec data name d Hd) as Hs.
  destruct (datastore_inv (create_interface_row data name) d fs) as [fs1 [->| ->]]; [intros [= <- _]; apply leaves_refl|].
  destruct (create_interface_row data name d) as [d1 [[id aliases]|e]] eqn:Ec; cbn [fst snd]; [|intros [= <- _]; subst; apply leaves_refl]. clear Hs.
  apply create_row_strip in Ec as ((F1 & F2 & F3 & F4 & F5 & F6) & Hw & _ & Hg & Hr); [|done].
  destruct (part_left t id name data aliases d1 fs1 Hw) as (w & [_ (E1 & E2 & E3 & E4 & E5 & E6) Lg] & Hwl).
  { intros Ht r [H|H]%Hr Hin; [|done]. by apply (Hp Ht) in H. }
  unfold rescue. destruct (create_part_f t name data id aliases (d1, fs1)) as [[d2 fs2] [u|e]]; [done|]. cbn [fst snd] in *.
  unfold clean_up, delete_interfaces, modify. cbn [fst snd]. intros [= <- _]. cbn [fst]. split; [change (ipv4gateway d2 = ipv4gateway d); by rewrite Lg, <-Hg|].
  exists w. change (rows (vlan d1) = rows (vlan d)) in F4. rewrite <-F4. split; [|destruct Hwl as [->|]; auto].
  split_and!; [exact (eq_trans E1 F1)|exact (eq_trans E2 F2)|exact (eq_trans E3 F3)|exact E4|exact (eq_trans E5 F5)|exact (eq_trans E6 F6)].
Qed.

Lemma create_writes_f_fails t data d fs s x :
  wf d -> (t = LINK_AGGREGATION -> forall r, r ∈ rows (interfaces d) -> int_interface r ∉ default [] (d_lag_ports data)) ->
  create_writes_f t data (d, fs) = (s, Err x) -> exists name, (forall n, d_name data = Some n -> n = name) /\ leaves t name d s.1.
Proof.
  intros Hd Hp. unfold create_writes_f. unfold mbind at 1, ste_mbind at 1. destruct (d_name data) as [n|].
  - unfold mret at 1, ste_mret at 1, mbind, ste_mbind. destruct (create_rows_f t n data (d, fs)) as [s1 [[]|e]] eqn:Ec; [done|]. intros [= <- <-]. exists n.
    split; [by intros ? [= <-]|]. by eapply create_rows_f_fails.
  - unfold mbind, ste_mbind, lift. destruct (type_prefix t) as [p|]; [|intros [= <- _]; exists ""; split; [done|apply leaves_refl]].
    destruct (datastore_inv (gets (get_next p 0)) d fs) as [fs1 [->| ->]]; [intros [= <- _]; exists ""; split; [done|apply leaves_refl]|].
    unfold expect, gets. cbn [fst snd]. destruct (get_next p 0 d) as [n|]; [|intros [= <- _]; exists ""; split; [done|apply leaves_refl]].
    destruct (create_rows_f t n data (d, fs1)) as [s1 [[]|e]] eqn:Ec; [done|]. intros [= <- <-]. exists n. split; [done|]. by eapply create_rows_f_fails.
Qed.

Lemma leaves_datastores t name d d' : leaves t name d d' ->
  let ds := get_datastores d in
  get_datastores d' = ds \/ t = VLAN /\ exists v, vlan_vint v = name /\
    get_datastores d' = mkDs (ds_interfaces ds) (ds_alias ds) (ds_bridge ds) (ds_vlan ds ++ [v]) (ds_lagg ds) (ds_laggmembers ds) (ds_ipv4gateway ds).
Proof.
  intros (Hg & w & (E1 & E2 & E3 & E4 & E5 & E6) & Hw). cbn zeta. unfold get_datastores. rewrite E1, E2, E3, E4, E5, E6, Hg. simpl.
  destruct Hw as [->|(-> & v & Hv & ->)]; [by left|]. right. split; [done|]. by exists v.
Qed.

End NetFault.
