(* ===== verification/NetRace.v ===== *)
(** * Overlapping calls of the service interface (plugins/network.py)

    A creation, update or deletion first checks the request against the tables and
    then, after awaiting, saves and writes them; no lock is held in between.  Calls are
    cut there and may overlap in any way.  A call is undisturbed when the tables it
    writes are those it was checked against; histories of undisturbed calls are those
    of calls made one after another. *)

From S2P Require Import Prelude PyDict PyStr PyVal PyFormat Errors Ipaddr NetDb Ifaces NetCheck NetOps NetPending.

Module NetRace.
Import NetDb Ifaces NetCheck NetOps Net.

(** ** The two parts of a call *)

Inductive edit_call :=
| CCreate (e : nenv) (t : itype) (data : idata)
| CUpdate (e : nenv) (oid : string) (data : idata)
| CDelete (e : nenv) (oid : string).

(** What a call has in its variables when its checks have passed. *)
Inductive passed :=
| PCreate (t : itype) (data : idata)
| PUpdate (e : nenv) (iface : entry) (new data : idata)
| PDelete (oid : string).

Definition checks (c : edit_call) (d : db) : result exn passed :=
  match c with
  | CCreate e t data => data ← create_checks e d t data; Ok (PCreate t data)
  | CUpdate e oid data => '(iface, new) ← update_checks e d oid data; Ok (PUpdate e iface new data)
  | CDelete e oid => _ ← delete_checks e d oid; Ok (PDelete oid)
  end.

Definition writes (p : passed) : nop unit :=
  match p with
  | PCreate t data => _ ← save_datastores; _ ← on_db (create_writes t data); mret tt
  | PUpdate e iface new data =>
      _ ← save_datastores;
      name ← lift (item "name" (d_name new));
      on_db (update_rows e iface new data name)
  | PDelete oid => _ ← save_datastores; on_db (delete_writes oid)
  end.

Definition label_of (c : edit_call) : label :=
  match c with CCreate e t data => LCreate e t data | CUpdate e oid data => LUpdate e oid data | CDelete e oid => LDelete e oid end.

(** One after the other they are the call. *)
Lemma edit_parts c s p : checks c (tabs s) = Ok p -> step (label_of c) s = (writes p s).1.
Proof.
  destruct c as [e t data|e oid data|e oid]; cbn [checks label_of step].
  - unfold do_create, mbind at 1, result_mbind, mbind, ste_mbind, reading. destruct (create_checks e (tabs s) t data) as [data'|]; [|done].
    intros [= <-]. cbn [writes]. unfold mbind, ste_mbind. destruct (save_datastores s) as [s1 [[]|]]; [|done].
    by destruct (on_db _ s1) as [s2 [|]].
  - unfold do_update, mbind at 1, result_mbind, mbind, ste_mbind, reading. destruct (update_checks e (tabs s) oid data) as [[iface new]|]; [|done].
    intros [= <-]. cbn [writes]. unfold mbind, ste_mbind, lift. destruct (save_datastores s) as [s1 [[]|]]; [|done].
    destruct (item _ _) as [name|]; [|done]. by destruct (on_db _ s1) as [s2 [|]].
  - unfold do_delete, mbind at 1, result_mbind, mbind, ste_mbind, reading. destruct (delete_checks e (tabs s) oid) as [x|]; [|done].
    intros [= <-]. cbn [writes]. unfold mbind, ste_mbind. destruct (save_datastores s) as [s1 [[]|]]; [|done].
    by destruct (on_db _ s1) as [s2 [|]].
Qed.

(** ** Interleavings *)

(** The calls in progress, with the tables they were checked against. *)
Record rst := mkR { net : nst; flight : gmap nat (edit_call * db * passed) }.

Inductive rlabel :=
| RChecks (i : nat) (c : edit_call)
| RWrites (i : nat)
| RCall (l : label).

(** The checks of a new call, which is over if they fail; the writes of a call in
    progress; any other call. *)
Definition rstep (l : rlabel) (s : rst) : rst :=
  match l with
  | RChecks i c =>
      match flight s !! i, checks c (tabs (net s)) with
      | None, Ok p => mkR (net s) (<[i := (c, tabs (net s), p)]> (flight s))
      | _, _ => s
      end
  | RWrites i =>
      match flight s !! i with
      | Some (_, _, p) => mkR (writes p (net s)).1 (delete i (flight s))
      | None => s
      end
  | RCall l => mkR (step l (net s)) (flight s)
  end.

Definition rexec (ls : list rlabel) (s : rst) : rst := foldl (fun s l => rstep l s) s ls.

(** The start of a history: no call is in progress. *)
Definition quiet (s : nst) : rst := mkR s ∅.

(** Whenever a call writes, the tables are those it was checked against. *)
Fixpoint undisturbed (ls : list rlabel) (s : rst) : Prop :=
  match ls with
  | [] => True
  | l :: ls =>
      match l with
      | RWrites i => match flight s !! i with Some (_, d, _) => tabs (net s) = d | None => True end
      | _ => True
      end /\ undisturbed ls (rstep l s)
  end.

(** ** Undisturbed calls are serial *)

Definition checked (s : rst) : Prop := forall i c d p, flight s !! i = Some (c, d, p) -> checks c d = Ok p.

Lemma checked_step l s : checked s -> checked (rstep l s).
Proof.
  intros H. destruct l as [i c|i|l]; cbn [rstep]; [..|done].
  - destruct (flight s !! i) eqn:Ei; [done|]. destruct (checks c (tabs (net s))) as [p|] eqn:Ec; [|done].
    intros j c' d' p'. simpl. rewrite lookup_insert_Some. intros [[<- [= <- <- <-]]|[_ Hj]]; [done|by eapply H].
  - destruct (flight s !! i) as [[[c d] p]|]; [|done]. intros j c' d' p'. simpl. intros [_ Hj]%lookup_delete_Some. by eapply H.
Qed.

Lemma serial_step l s : checked s -> undisturbed [l] s -> exists ls, net (rstep l s) = exec ls (net s).
Proof.
  intros H [Hu _]. destruct l as [i c|i|l]; cbn [rstep].
  - exists []. by destruct (flight s !! i), (checks c (tabs (net s))).
  - destruct (flight s !! i) as [[[c d] p]|] eqn:Ei; [|by exists []]. exists [label_of c]. simpl.
    rewrite (edit_parts c (net s) p); [done|]. rewrite Hu. by eapply H.
  - by exists [l].
Qed.

Lemma undisturbed_serial ls s : checked s -> undisturbed ls s -> exists ls', net (rexec ls s) = exec ls' (net s).
Proof.
  revert s. induction ls as [|l ls IH]; intros s Hc; [by exists []|]. intros [Hu Hrest].
  destruct (serial_step l s Hc) as [l1 E1]; [done|]. destruct (IH (rstep l s) (checked_step l s Hc) Hrest) as [l2 E2].
  exists (l1 ++ l2). simpl. rewrite E2, E1. unfold exec. by rewrite foldl_app.
Qed.

Lemma quiet_serial ls s : undisturbed ls (quiet s) -> exists ls', net (rexec ls (quiet s)) = exec ls' s.
Proof. apply (undisturbed_serial ls (quiet s)). intros i c d p. unfold quiet. simpl. by rewrite lookup_empty. Qed.

End NetRace.
