(* ===== verification/NetProps.v ===== *)
(** * Theorems on network interfaces

    The service [interface] refines its specification: the tables are consistent
    through any history, changes that were not accepted are undone, and the
    configuration stays sound. *)

From S2P Require Import Prelude PyDict PyStr PyVal PyFormat Errors Ipaddr NetDb Ifaces NetCheck NetOps NetPending NetInv NetRestore NetSpec NetChecked NetClaims NetNets NetPorts NetDelete NetCreate NetRound NetFault NetRace.

Module NetProps.
Import NetDb Ifaces NetCheck NetOps Net NetInv NetRestore NetSpec NetChecked NetClaims NetNets NetPorts NetDelete NetCreate NetRound NetFault NetRace.

(** ** Pending changes *)

(** C16: Each call is a step of the specification with two copies of the tables: an edit
    changes only the working copy, rolling back makes it the committed copy, checking
    in commits it, and a commit does one or the other by its outcome. *)
Theorem interface_calls_refine l s : inv s -> inv (step l s) /\ spec_step (action_of l s) (abs s) (abs (step l s)).
Proof. apply step_simulated. Qed.

(** C17: After any history without an acceptance, rolling back, by call, by the timer or
    by a commit that fails, makes the tables that [get_datastores] saves (interfaces,
    aliases, bridges, VLANs, link aggregations with their members, and the default
    gateway) those of the start, rows and ids, and nothing is pending any more.  The
    nameservers and the link addresses are not saved: they stay as the history left
    them. *)
Theorem unaccepted_changes_undone ls l s :
  inv s -> original s = None -> unaccepted ls s -> action_of l (exec ls s) = Rollback ->
  let s' := step l (exec ls s) in
  get_datastores (tabs s') = get_datastores (tabs s) /\ has_pending_changes s' = false /\ unsaved (tabs s') = unsaved (tabs (exec ls s)).
Proof.
  intros Hs Ho Hu Ha. cbv zeta. pose proof (exec_inv_net ls s Hs) as Hi. split_and!; [| |by apply rolled_spares].
  - pose proof (unaccepted_committed ls s Hs Hu) as Hc. destruct (step_simulated l _ Hi) as [_ Hp]. rewrite Ha in Hp. unfold abs at 2 in Hc.
    rewrite Ho in Hc. simpl in Hc. rewrite <-Hc. by inversion Hp.
  - unfold has_pending_changes. by rewrite (rolled_back l _ Hi Ha).
Qed.

(** Rolling back raises only what the hook or the synchronisation raises, after the
    tables are restored. *)
Theorem rollback_raises e s : inv s ->
  (rollback e s).2 = rollback_outcome e (tabs (rollback e s).1) /\ original (rollback e s).1 = None.
Proof. intros Hs. destruct (rollback_spec e s Hs) as (_ & _ & H3 & H4). done. Qed.

(** ** The timer *)

Lemma commit_succeeds e now t s u v : commit_checks e (tabs s) = Ok u -> sync_outcome e (tabs s) = Ok v -> t ≠ 0%Z ->
  commit e now true t s =
    (let h := mkHandle (timer_seq s) (now + t * 1000000)%Z in mkNst (tabs s) (original s) (Some h) (armed s ++ [h]) (S (timer_seq s)), Ok tt).
Proof.
  intros E1 E2 Ht. unfold commit, mbind, ste_mbind, rescue, sync, reading. rewrite E1, E2. apply Z.eqb_neq in Ht. rewrite Ht. done.
Qed.

Lemma cancelled h s : rollback_timer s = Some h -> h ∉ armed (cancel_timer s).1.
Proof.
  intros E. unfold cancel_timer, modify. cbn [fst]. rewrite E. cbn. intros [_ H%negb_true_iff%bool_decide_eq_false]%filter_elem. done.
Qed.

Lemma cancel_fewer s h : h ∈ armed (cancel_timer s).1 -> h ∈ armed s.
Proof. unfold cancel_timer, modify. cbn. destruct (rollback_timer s); [|done]. cbn. by intros [H _]%filter_elem. Qed.

Lemma waiting h when_ s : rollback_timer s = Some h -> h_when h = when_ ->
  forall now, checkin_waiting now s = if (now <? when_)%Z then Some ((when_ - now) / 1000000)%Z else None.
Proof.
  intros E <- now. unfold checkin_waiting. rewrite E. destruct (Z.ltb_spec now (h_when h)).
  - rewrite (proj2 (Z.ltb_lt _ _)) by lia. by rewrite Z.quot_div_nonneg by lia.
  - by rewrite (proj2 (Z.ltb_ge _ _)) by lia.
Qed.

Lemma committing e now t s u v : inv s -> commit_checks e (tabs s) = Ok u -> sync_outcome e (tabs s) = Ok v -> (0 < t)%Z ->
  let s' := step (LCommit e now true t) s in
  exists h, h_when h = (now + t * 1000000)%Z /\ rollback_timer s' = Some h /\ armed s' = armed s ++ [h] /\ inv s' /\ committed (abs s') = committed (abs s).
Proof.
  intros Hs E1 E2 Ht. cbn zeta. cbn [step]. rewrite (commit_succeeds e now t s u v E1 E2) by lia. cbn zeta. cbn [fst].
  eexists. split_and!; [|reflexivity|reflexivity|by apply (net_inv_same s)|done]. done.
Qed.

(** C18: A commit that succeeds, with rollback and a timeout, arms a timer at the end of
    the timeout.  Through any further edits: [checkin_waiting] tells at every time the
    whole seconds that are left, and nothing from the end on; when the timer fires, the
    tables of before the changes are restored and nothing is pending; a check-in keeps
    the tables as they are, leaves nothing pending, and the timer does not fire any more,
    nor does any other one if none was armed before the commit. *)
Theorem commit_arms_rollback e now t s u v ls e' :
  inv s -> commit_checks e (tabs s) = Ok u -> sync_outcome e (tabs s) = Ok v -> (0 < t)%Z -> Forall (fun l => is_edit l = true) ls ->
  let s' := exec ls (step (LCommit e now true t) s) in
  let deadline := (now + t * 1000000)%Z in
  exists h, h_when h = deadline /\ h ∈ armed s' /\
    (forall now', checkin_waiting now' s' = if (now' <? deadline)%Z then Some ((deadline - now') / 1000000)%Z else None) /\
    get_datastores (tabs (step (LTimer e' h) s')) = committed (abs s) /\ has_pending_changes (step (LTimer e' h) s') = false /\
    tabs (step LCheckin s') = tabs s' /\ has_pending_changes (step LCheckin s') = false /\ h ∉ armed (step LCheckin s') /\
    (armed s = [] -> forall h', step (LTimer e' h') (step LCheckin s') = step LCheckin s').
Proof.
  intros Hs E1 E2 Ht Hls. cbn zeta. destruct (committing e now t s u v Hs E1 E2 Ht) as (h & Hw & R1 & A1 & I1 & C1).
  set (s1 := step (LCommit e now true t) s) in *. destruct (edits_timers ls s1 Hls) as [R2 A2]. pose proof (exec_inv_net ls s1 I1) as Hi.
  pose proof (unaccepted_committed ls s1 I1 (edits_unaccepted ls s1 Hls)) as C2. set (s' := exec ls s1) in *. rewrite R1 in R2. rewrite A1 in A2. rewrite C1 in C2.
  exists h. assert (h ∈ armed s') as Hin by (rewrite A2; set_solver).
  assert (action_of (LTimer e' h) s' = Rollback) as Ha by (cbn [action_of]; by rewrite bool_decide_eq_true_2). split_and!; [done|done|..].
  - intros now'. by apply (waiting h).
  - destruct (step_simulated (LTimer e' h) s' Hi) as [_ Hp]. rewrite Ha in Hp. rewrite <-C2. by inversion Hp.
  - unfold has_pending_changes. by rewrite (rolled_back _ s' Hi Ha).
  - apply cancel_same.
  - done.
  - exact (cancelled h s' R2).
  - intros Hnone h'. cbn [step]. rewrite bool_decide_eq_false_2; [done|]. intros Hh'. eapply (cancelled h s' R2).
    assert (h' = h) as ->; [|exact Hh']. apply (cancel_fewer s') in Hh'. rewrite A2, Hnone in Hh'. set_solver.
Qed.

(** ** Consistency *)

(** Through any history, failures included, every alias, bridge and link aggregation
    leads to an interface, every member to its link aggregation, and no interface name
    and no port is there twice. *)
Theorem interface_tables_consistent ls s : inv s -> linked (get_datastores (tabs (exec ls s))).
Proof. intros Hs. apply (wf_linked _ (inv_tabs _ (exec_inv_net ls s Hs))). Qed.

(** The start of a history on tables that have a property. *)
Lemma good_start (G : db -> Prop) s : (forall d d', same_rows d d' -> G d -> G d') -> inv s -> original s = None -> G (tabs s) -> good G s.
Proof. intros _ Hs Ho HG. split; [done..|]. by rewrite Ho. Qed.

Lemma alias_network_inv a n : alias_network a = Ok n -> exists p, Ip.ip_network (al_address a) p = Some n.
Proof.
  unfold alias_network. destruct (al_netmask a) as [[p|]|]; [|done..]. destruct (Ip.ip_network _ p) as [m|] eqn:E; [|done]. intros [= ->]. eauto.
Qed.

(** C19: No address is in the networks of two interfaces, whatever the kernel has, through
    any history of calls, cut between their checks and their writes and interleaved in
    any way, in which nobody changes the tables between the checks of a creation, update
    or deletion and its writes: the checks keep the networks apart. *)
Theorem interface_networks_disjoint ls s r1 r2 a b m n v x :
  inv s -> original s = None -> nets_ok (tabs s) -> undisturbed ls (quiet s) ->
  let d := tabs (net (rexec ls (quiet s))) in
  r1 ∈ rows (interfaces d) -> r2 ∈ rows (interfaces d) -> int_interface r1 ≠ int_interface r2 ->
  a ∈ shown_aliases d r1 -> b ∈ shown_aliases d r2 -> alias_network a = Ok m -> alias_network b = Ok n ->
  Ip.contains m v x && Ip.contains n v x = false.
Proof.
  intros Hs Ho Hn (ls' & Els)%quiet_serial d H1 H2 Hne Ha Hb Em En. pose proof (good_start nets_ok s nets_rows Hs Ho Hn) as Hg.
  apply (good_exec nets_ok nets_rows nets_create nets_update nets_delete ls') in Hg as [Hi Hd _]. rewrite <-Els in Hi, Hd. fold d in Hd.
  assert (clash a b = false) as Hc.
  { apply (nets_disjoint _ Hd (i_id r1) (i_id r2)); [by exists r1|by exists r2|]. intros E. apply Hne. f_equal.
    eapply (key_inj i_id); [apply (ids_nodup _ (wf_interfaces _ (inv_tabs _ Hi)))|done..]. }
  unfold clash in Hc. rewrite Em, En in Hc. apply alias_network_inv in Em as [p Em], En as [q En]. by eapply Ip.overlaps_disjoint.
Qed.

(** ** Ports *)

(** The ports an entry shows. *)
Definition entry_ports (x : entry) : list string :=
  default [] (d_bridge_members (en_data x)) ++ default [] (d_lag_ports (en_data x)).

(** An entry is made from the row of its name, or it has no configuration. *)
Lemma query_entry e d x : wf d -> x ∈ query e d ->
  (exists r, r ∈ rows (interfaces d) /\ int_interface r = en_name x /\ shows d r x) \/ entry_ports x = [].
Proof.
  intros Hd Hx. destruct (List.find (fun r => String.eqb (int_interface r) (en_name x)) (rows (interfaces d))) as [r|] eqn:Ef.
  - apply find_elem in Ef as [Hr E%String.eqb_eq]. left. exists r. split_and!; [done..|]. by apply (query_name_shows e).
  - right. revert Hx. unfold query, query_dict, Dict.values. rewrite fmap_app, elem_of_app.
    intros [H|H]; apply list_elem_of_fmap in H as ([k y] & -> & H); cbn [snd] in *.
    + unfold kernel_entries in H. apply list_elem_of_omap in H as ([k' st] & _ & H).
      destruct (_ || _); [done|]. destruct (_ && _); [done|]. destruct (st_oserror st); [done|]. injection H as -> <-.
      destruct (Dict.get k (configs d)) as [r|] eqn:Eg; [|by destruct (is_ha_capable e)].
      apply Dict.get_Some_elem in Eg. unfold configs in Eg. change (map ?f ?l) with (f <$> l) in Eg. apply list_elem_of_fmap in Eg as (r' & [= -> <-] & Hr).
      eapply find_none in Ef; [|by apply list_elem_of_In]. cbn in Ef. by rewrite String.eqb_refl in Ef.
    + change (map ?f ?l) with (f <$> l) in H. apply list_elem_of_fmap in H as ([k' r'] & [= -> ->] & [H _]%filter_elem).
      unfold configs in H. change (map ?f ?l) with (f <$> l) in H. apply list_elem_of_fmap in H as (r2 & [= -> ->] & H2).
      eapply find_none in Ef; [|by apply list_elem_of_In]. cbn in Ef. by rewrite String.eqb_refl in Ef.
Qed.

Lemma shown_port d r x p : shows d r x -> p ∈ entry_ports x -> port_claim d (i_id r) p.
Proof.
  intros (st & ha & fake & ->). unfold iface_extend, entry_ports. cbn. unfold config_data.
  set (y := if ha then _ else _). set (t := type_ _ _). intros Hp.
  assert (p ∈ default [] (d_bridge_members (type_part t d r y)) ++ default [] (d_lag_ports (type_part t d r y))) as H by exact Hp. clear Hp.
  assert (d_bridge_members y = None /\ d_lag_ports y = None) as [E1 E2].
  { unfold y, bare_data. destruct ha, (rows (interfaces d)), (type_ _ _), (int_fec_mode r) as [f|]; cbn; try done; by destruct (nonempty f). }
  clearbody y. apply elem_of_app in H. destruct t; cbn [type_part] in H; rewrite ?E1, ?E2 in H; try by destruct H as [H|H]; apply elem_of_nil in H.
  - unfold bridge_part in H. destruct (List.find _ (rows (bridge d))) as [b|] eqn:Ef; cbn in H; rewrite E2 in H;
      (destruct H as [H|H]; [|by apply elem_of_nil in H]); [|by apply elem_of_nil in H].
    apply find_elem in Ef as [Hb E%Z.eqb_eq]. left. by exists b.
  - unfold lag_part in H. destruct (List.find _ (rows (lagg d))) as [l|] eqn:Ef; [|cbn in H; rewrite E1 in H; by destruct H as [H|H]; apply elem_of_nil in H].
    apply find_elem in Ef as [Hl E%Z.eqb_eq]. right.
    assert (p ∈ map lagg_physnic (members_of d (l_id l))) as Hm.
    { destruct (_ || _), (String.eqb _ "lacp"); cbn in H; rewrite E1 in H; (destruct H as [H|H]; [by apply elem_of_nil in H|exact H]). }
    change (map ?f ?l) with (f <$> l) in Hm. apply list_elem_of_fmap in Hm as (m & -> & [Hm Em%Z.eqb_eq]%filter_elem). by exists l, m.
  - unfold vlan_part in H. destruct (List.find _ (rows (vlan d))); cbn in H; rewrite E1, E2 in H; by destruct H as [H|H]; apply elem_of_nil in H.
Qed.

(** C20: No interface is shown as the member or port of two bridges or link aggregations,
    through any history of calls, cut between their checks and their writes and
    interleaved in any way, in which nobody changes the tables between the checks of a
    creation, update or deletion and its writes. *)
Theorem interface_ports_exclusive ls s e x y p :
  inv s -> original s = None -> ports_ok (tabs s) -> undisturbed ls (quiet s) ->
  let d := tabs (net (rexec ls (quiet s))) in
  x ∈ query e d -> y ∈ query e d -> p ∈ entry_ports x -> p ∈ entry_ports y -> en_name x = en_name y.
Proof.
  intros Hs Ho Hn (ls' & Els)%quiet_serial d Hx Hy Hpx Hpy. pose proof (good_start ports_ok s ports_rows Hs Ho Hn) as Hg.
  apply (good_exec ports_ok ports_rows ports_create ports_update ports_delete ls') in Hg as [Hi [_ He] _]. rewrite <-Els in Hi, He. fold d in He. pose proof (inv_tabs _ Hi) as Hd. fold d in Hd.
  apply (query_entry e d x Hd) in Hx as [(r1 & H1 & <- & S1)|E]; [|rewrite E in Hpx; by apply elem_of_nil in Hpx].
  apply (query_entry e d y Hd) in Hy as [(r2 & H2 & <- & S2)|E]; [|rewrite E in Hpy; by apply elem_of_nil in Hpy].
  f_equal. eapply (key_inj i_id); [apply (ids_nodup _ (wf_interfaces _ Hd))|done..|]. apply (He _ _ p); by eapply shown_port.
Qed.

(** ** Deleting *)

Lemma save_tabs s : tabs (save_datastores s).1 = tabs s /\ (save_datastores s).2 = Ok tt.
Proof. unfold save_datastores, modify. simpl. by destruct (original s). Qed.

(** C21: A deletion that passes its checks succeeds: the recursion over nested link
    aggregations ends, the interface and the VLANs named after it or on it are gone,
    and every interface that is not below it stays. *)
Theorem interface_delete_complete e oid s iface :
  inv s -> delete_checks e (tabs s) oid = Ok iface ->
  let d := tabs s in let d' := tabs (do_delete e oid s).1 in
  (do_delete e oid s).2 = Ok oid /\
  (forall r, r ∈ rows (interfaces d') -> int_interface r ≠ oid) /\
  (forall v, v ∈ rows (vlan d') -> vlan_vint v ≠ oid /\ vlan_pint v ≠ oid) /\
  (forall r, r ∈ rows (interfaces d) -> r ∈ rows (interfaces d') \/ below d oid (int_interface r)).
Proof.
  intros Hs Hc. pose proof (inv_tabs _ Hs) as Hd. destruct (delete_writes_spec oid (tabs s) Hd) as (E1 & E2 & E3 & E4).
  assert (do_delete e oid s = ((on_db (delete_writes oid) (save_datastores s).1).1, Ok oid)) as ->.
  { unfold do_delete, mbind, ste_mbind, reading. rewrite Hc. destruct (save_tabs s) as [Et Er]. destruct (save_datastores s) as [s1 r]. cbn in Et, Er.
    subst r. unfold on_db. cbn [fst]. rewrite Et. by destruct (delete_writes oid (tabs s)) as [d1 [[]|]]. }
  cbn [fst snd]. unfold on_db. destruct (save_tabs s) as [Et _]. rewrite Et. destruct (delete_writes oid (tabs s)) as [d1 r1]. cbn [fst tabs set_tabs] in *.
  split_and!; [done..|]. apply (spares_rows _ _ _ E2).
Qed.

(** ** Creating *)

(** A creation that raises without failures of the database left nothing. *)
Lemma refused_create_leaves_nothing e t data s s' x :
  inv s -> kinds (tabs s) -> do_create e t data s = (s', Err x) -> get_datastores (tabs s') = get_datastores (tabs s).
Proof.
  intros Hs Hk. pose proof (inv_tabs _ Hs) as Hd. unfold do_create, mbind, ste_mbind, reading. destruct (create_checks e (tabs s) t data) as [data'|y] eqn:Ec; [|by intros [= <- _]].
  destruct (save_tabs s) as [Et Er]. destruct (save_datastores s) as [s1 r]. cbn in Et, Er. subst r. unfold on_db. rewrite Et.
  destruct (create_writes t data' (tabs s)) as [d1 [name|y]] eqn:Ew.
  - cbn [tabs set_tabs]. intros H. exfalso. apply create_writes_cases in Ew as [[_ [? [=]]]|(n & [[]|?] & Ew & [= <-])].
    destruct (create_rows_named _ _ _ _ _ Hd Ew) as (Hw & r & Hr & <-).
    destruct (get_instance_shows e d1 r Hw Hr) as (y & Ey & _). by rewrite Ey in H.
  - intros [= <- _]. cbn [tabs set_tabs]. eapply create_writes_fails; [done..| |exact Ew]. intros -> r Hr. by eapply accepted_ports_unnamed.
Qed.

(** Saved tables stay what a creation rolls back to, whichever of its writes fail. *)
Lemma faulty_committed fs e t data s : inv s -> committed (abs (do_create_f fs e t data s).1) = committed (abs s).
Proof.
  intros Hs. unfold do_create_f. unfold mbind at 1, ste_mbind at 1, reading at 1. destruct (create_checks e (tabs s) t data) as [data'|]; [|done].
  destruct (save_pending s Hs) as (_ & [o Ho] & H3). unfold mbind, ste_mbind. destruct (save_datastores s) as [s1 [u|]]; [|by rewrite <-H3].
  cbn [fst] in *. rewrite <-H3. unfold on_db, reading. destruct (create_writes_f t data' (tabs s1, fs)) as [[d fs'] r].
  unfold abs. destruct r; cbn; by rewrite Ho.
Qed.

(** C22: A creation that raises, because it is refused or because any calls of the
    datastore fail while its rows are written, leaves the tables as they were, provided
    that the deletion of the interface in the except branch succeeds; only the row of a
    VLAN, which the branch does not delete, may be left over after such a failure.  The
    tables to roll back to are not touched. *)
Theorem failed_create_leaves_nothing fs e t data s s' x :
  inv s -> kinds (tabs s) -> do_create_f fs e t data s = (s', Err x) ->
  committed (abs s') = committed (abs s) /\
  let ds := get_datastores (tabs s) in
  (fs = [] \/ t ≠ VLAN -> get_datastores (tabs s') = ds) /\
  (get_datastores (tabs s') = ds \/ exists v, (forall n, d_name data = Some n -> n = vlan_vint v) /\
     get_datastores (tabs s') =
       mkDs (ds_interfaces ds) (ds_alias ds) (ds_bridge ds) (ds_vlan ds ++ [v]) (ds_lagg ds) (ds_laggmembers ds) (ds_ipv4gateway ds)).
Proof.
  intros Hs Hk Hc. split; [by rewrite <-(faulty_committed fs e t data s Hs), Hc|]. cbn zeta.
  destruct (decide (fs = [])) as [->|Hfs].
  { rewrite create_without_failures in Hc. apply refused_create_leaves_nothing in Hc; [|done..]. split; [done|by left]. }
  assert (exists name, (forall n, d_name data = Some n -> n = name) /\ leaves t name (tabs s) (tabs s')) as (name & Hn & [E|(-> & v & Hv & E)]%leaves_datastores).
  2: by split; [|left]. 2: split; [by intros []|]; right; exists v; by rewrite Hv.
  pose proof (inv_tabs _ Hs) as Hd. revert Hc. unfold do_create_f, mbind, ste_mbind, reading. destruct (create_checks e (tabs s) t data) as [data'|y] eqn:Ec.
  2: intros [= <- _]; exists (default "" (d_name data)); split; [by intros n ->|apply leaves_refl].
  destruct (save_tabs s) as [Et Er]. destruct (save_datastores s) as [s1 r]. cbn in Et, Er. subst r. unfold on_db. rewrite Et.
  pose proof Ec as [_ Hsame]%create_checks_ok. assert (d_name data' = d_name data) as En by (by destruct Hsame as [->| ->]).
  destruct (create_writes_f t data' (tabs s, fs)) as [[d1 fs'] [name|y]] eqn:Ew.
  - cbn [tabs set_tabs]. intros H. exfalso. apply (create_writes_agrees t data') in Ew.
    apply create_writes_cases in Ew as [[_ [? [=]]]|(n & [[]|?] & Ew & [= <-])].
    destruct (create_rows_named _ _ _ _ _ Hd Ew) as (Hw & r & Hr & <-). destruct (get_instance_shows e d1 r Hw Hr) as (y & Ey & _). by rewrite Ey in H.
  - intros [= <- _]. cbn [tabs set_tabs]. rewrite <-En. eapply create_writes_f_fails in Ew; [exact Ew|done|]. intros -> r Hr. by eapply accepted_ports_unnamed.
Qed.

(** C23: The entry a creation returns has the addresses of the request in their order,
    with the types of their addresses, unless the request asks for both [ipv4_dhcp] and
    [ipv6_auto] or makes the interface a port of itself. *)
Theorem create_returns_aliases e t data s s' x da :
  inv s -> do_create e t data s = (s', Ok x) -> d_aliases data = Some da ->
  (d_ipv4_dhcp data ≠ Some true \/ d_ipv6_auto data ≠ Some true) -> en_name x ∉ default [] (d_lag_ports data) ->
  d_aliases (en_data x) = Some (map requested da).
Proof.
  intros Hs Hc Hda Hauto Hp. pose proof (inv_tabs _ Hs) as Hd. revert Hc. unfold do_create, mbind, ste_mbind, reading.
  destruct (create_checks e (tabs s) t data) as [data'|y] eqn:Ec; [|done]. apply create_checks_ok in Ec as [_ Hsame].
  destruct (save_tabs s) as [Et Er]. destruct (save_datastores s) as [s1 r]. cbn in Et, Er. subst r. unfold on_db. rewrite Et.
  destruct (create_writes t data' (tabs s)) as [d1 [name|y]] eqn:Ew; [|done]. cbn [tabs set_tabs]. intros [= <- Hx].
  apply create_writes_cases in Ew as [[_ [? [=]]]|(n & [[]|?] & Ew & [= <-])]. pose proof Hx as [_ En]%get_instance_ok. rewrite En in Hp.
  destruct (create_rows_shows t name data' (tabs s) d1 da) as (Hw & r & Hr & <- & Ha); try done; [by destruct Hsame as [->| ->]..|].
  destruct (get_instance_shows e d1 r Hw Hr) as (y & Ey & Hy). rewrite Hx in Ey. injection Ey as ->. by rewrite (shows_aliases _ _ _ Hy), Ha.
Qed.

End NetProps.
