(* ===== verification/NetChoices.v ===== *)
(** * Choices of interfaces (plugins/network.py, plugins/interface/)

    What the service offers for the members of a bridge, the ports of a link
    aggregation and the parent of a VLAN, and how that relates to what
    [_common_validation] accepts. *)

From S2P Require Import Prelude PyDict PyStr PyVal PyFormat Errors Ipaddr NetDb Ifaces NetCheck NetOps NetPending NetInv NetChecked NetPorts NetRound NetProps.

Module NetChoices.
Import NetDb Ifaces NetCheck NetOps Net NetInv NetChecked NetPorts NetRound NetProps.

(** ** Fixed choices *)

Definition self_dict (l : list string) : list (string * string) := map (fun i => (i, i)) l.

Definition xmit_hash_policy_choices : list (string * string) := self_dict ["LAYER2"; "LAYER2+3"; "LAYER3+4"].
Definition lacpdu_rate_choices : list (string * string) := self_dict ["SLOW"; "FAST"].

(** ** [choices] *)

Record choice_options := mkOptions {
  o_bridge_members : bool;
  o_lag_ports : bool;
  o_vlan_parent : bool;
  o_exclude : list string;
  o_exclude_types : list itype;
  o_include : list string;
}.

Definition default_options : choice_options := mkOptions false false true ["epair"; "tap"; "vnet"] [] [].

Definition pop_all (l : list string) (c : list (string * string)) : list (string * string) := foldl (fun c k => Dict.pop k c) c l.

Definition description_of (x : entry) : string := default "" (d_description (en_data x)).

Definition choose (o : choice_options) (c : list (string * string)) (x : entry) : result exn (list (string * string)) :=
  let name := en_name x in
  let ds := description_of x in
  let c := if nonempty ds && negb (String.eqb ds name) then Dict.set name (name +:+ ": " +:+ ds) c else c in
  let c := if existsb (fun p => Str.startswith p name) (o_exclude o) then Dict.pop name c else c in
  let c := if bool_decide (en_type x ∈ o_exclude_types o) then Dict.pop name c else c in
  let spare := List.filter (fun p => negb (bool_decide (p ∈ o_include o))) in
  c ← (if negb (o_lag_ports o) && bool_decide (en_type x = LINK_AGGREGATION)
       then l ← item "lag_ports" (d_lag_ports (en_data x)); Ok (pop_all (spare l) c) else Ok c);
  c ← (if negb (o_bridge_members o) && bool_decide (en_type x = BRIDGE)
       then l ← item "bridge_members" (d_bridge_members (en_data x)); Ok (pop_all (spare l) c) else Ok c);
  if negb (o_vlan_parent o) && bool_decide (en_type x = VLAN)
  then p ← item "vlan_parent_interface" (d_vlan_parent_interface (en_data x));
       Ok (match p with Some p => Dict.pop p c | None => c end)
  else Ok c.

Definition choices (e : nenv) (d : db) (o : choice_options) : result exn (list (string * string)) :=
  let l := query e d in
  foldE (choose o) l
    (foldl (fun c x => Dict.set (en_name x) (if nonempty (description_of x) then description_of x else en_name x) c) [] l).

Definition vlan_parent_interface_choices (e : nenv) (d : db) : result exn (list (string * string)) :=
  choices e d (mkOptions true false true (o_exclude default_options) [BRIDGE; VLAN] []).

(** ** Members and ports *)

(** [d.update({i: i for i in l})] *)
Definition update_self (l : list string) (c : list (string * string)) : list (string * string) := foldl (fun c k => Dict.set k k c) c l.

(** [id_ and id_ == interface['id']] *)
Definition is_id (id_ : option string) (x : entry) : bool :=
  match id_ with Some i => nonempty i && String.eqb i (en_name x) | None => false end.

Record offer := mkOffer { excluded : list (string * string); included : list (string * string) }.

Definition offer_keys (o : offer) : list (string * string) := List.filter (fun x => negb (Dict.mem (fst x) (excluded o))) (included o).

Definition offer_member (id_ : option string) (o : offer) (x : entry) : result exn offer :=
  o ← match en_type x with
      | BRIDGE =>
          m ← item "bridge_members" (d_bridge_members (en_data x));
          if is_id id_ x then Ok (mkOffer (update_self [en_name x] (excluded o)) (update_self m (included o)))
          else Ok (mkOffer (update_self [en_name x] (update_self m (excluded o))) (included o))
      | LINK_AGGREGATION =>
          p ← item "lag_ports" (d_lag_ports (en_data x));
          Ok (mkOffer (update_self p (excluded o)) (included o))
      | _ => Ok o
      end;
  Ok (mkOffer (excluded o) (update_self [en_name x] (included o))).

Definition bridge_members_choices (e : nenv) (d : db) (id_ : option string) : result exn (list (string * string)) :=
  o ← foldE (offer_member id_) (query e d) (mkOffer [] []);
  Ok (offer_keys o).

Definition offer_port (configured : list string) (id_ : option string) (o : offer) (x : entry) : result exn offer :=
  let name := en_name x in
  o ← match en_type x with
      | LINK_AGGREGATION =>
          p ← item "lag_ports" (d_lag_ports (en_data x));
          if is_id id_ x then Ok (mkOffer (update_self [name] (excluded o)) (update_self p (included o)))
          else Ok (mkOffer (update_self p (excluded o)) (update_self [name] (included o)))
      | VLAN =>
          p ← item "vlan_parent_interface" (d_vlan_parent_interface (en_data x));
          Ok (mkOffer (update_self (name :: match p with Some p => [p] | None => [] end) (excluded o)) (included o))
      | BRIDGE =>
          m ← item "bridge_members" (d_bridge_members (en_data x));
          Ok (mkOffer (update_self (name :: m) (excluded o)) (included o))
      | _ => if bool_decide (name ∈ configured) then Ok (mkOffer (update_self [name] (excluded o)) (included o)) else Ok o
      end;
  Ok (mkOffer (excluded o) (update_self [name] (included o))).

Definition lag_ports_choices (e : nenv) (d : db) (id_ : option string) : result exn (list (string * string)) :=
  o ← foldE (offer_port (query_names_only d) id_) (query e d) (mkOffer [] []);
  Ok (offer_keys o).

(** ** Others *)

(** [websocket_interface]: the interface that has the local address of the session. *)
Definition websocket_interface (e : nenv) (d : db) (local_ip : option string) : option entry :=
  match local_ip with
  | None => None
  | Some ip => List.find (fun x => existsb (fun a => String.eqb (al_address a) ip) (default [] (d_aliases (en_data x)))
                                   || existsb (fun a => String.eqb (snd a) ip) (en_state_aliases x)) (query e d)
  end.

(** [get_configured_interfaces] (plugins/interface/configure.py), a set *)
Definition get_configured_interfaces (d : db) : gset string :=
  list_to_set (map int_interface (rows (interfaces d)) ++ flat_map b_members (rows (bridge d))
               ++ map vlan_pint (rows (vlan d)) ++ map lagg_physnic (rows (laggmembers d))).

(** ** What a loop collects *)

(** A loop whose body adds what each element gives. *)
Lemma foldE_collects {S A} (K : S -> string -> Prop) (C : A -> string -> Prop) (f : S -> A -> result exn S) k :
  (forall s x s', f s x = Ok s' -> K s' k <-> K s k \/ C x k) ->
  forall l s s', foldE f l s = Ok s' -> K s' k <-> K s k \/ exists x, x ∈ l /\ C x k.
Proof.
  intros Hf l. induction l as [|x l IH]; intros s s'; simpl.
  - intros [= <-]. split; [by left|]. intros [H|(x & H%elem_of_nil & _)]; done.
  - intros (s1 & E & H)%result_bind_ok. rewrite (IH _ _ H), (Hf _ _ _ E). split.
    + intros [[Hk|Hc]|(y & Hy & Hc)]; [by left|right; exists x; split; [by left|done]|right; exists y; split; [by right|done]].
    + intros [Hk|(y & [->|Hy]%elem_of_cons & Hc)]; [by left; left|by left; right|right; by exists y].
Qed.

Lemma update_self_keys l c k : k ∈ Dict.keys (update_self l c) <-> k ∈ Dict.keys c \/ k ∈ l.
Proof.
  unfold update_self. revert c. induction l as [|x l IH]; intros c; simpl.
  - split; [by left|]. by intros [H|H%elem_of_nil].
  - rewrite IH, Dict.elem_keys_set, elem_of_cons. tauto.
Qed.

Lemma offer_keys_spec o k : k ∈ Dict.keys (offer_keys o) <-> k ∈ Dict.keys (included o) /\ k ∉ Dict.keys (excluded o).
Proof.
  unfold offer_keys, Dict.keys at 1 2. rewrite !list_elem_of_fmap. setoid_rewrite filter_elem. split.
  - intros ([k' v] & -> & Hx & H%negb_true_iff). cbn in *. split; [by exists (k', v)|]. rewrite <-Dict.mem_spec. congruence.
  - intros [([k' v] & -> & Hx) Hk]. exists (k', v). split_and!; [done..|]. cbn in *. rewrite <-Dict.mem_spec in Hk. by destruct (Dict.mem k' _).
Qed.

(** What an interface excludes from the members of a bridge and from the ports of a
    link aggregation. *)
Definition bars_member (id_ : option string) (x : entry) (k : string) : Prop :=
  match en_type x with
  | BRIDGE => k = en_name x \/ (is_id id_ x = false /\ k ∈ default [] (d_bridge_members (en_data x)))
  | LINK_AGGREGATION => k ∈ default [] (d_lag_ports (en_data x))
  | _ => False
  end.

Definition bars_port (configured : list string) (id_ : option string) (x : entry) (k : string) : Prop :=
  match en_type x with
  | LINK_AGGREGATION => if is_id id_ x then k = en_name x else k ∈ default [] (d_lag_ports (en_data x))
  | BRIDGE => k = en_name x \/ k ∈ default [] (d_bridge_members (en_data x))
  | VLAN => k = en_name x \/ Some k = default None (d_vlan_parent_interface (en_data x))
  | _ => k = en_name x /\ k ∈ configured
  end.

Ltac keys_tac :=
  cbn [excluded included from_option id]; rewrite ?Dict.elem_keys_set, ?update_self_keys, ?Dict.elem_keys_set, ?elem_of_cons, ?elem_of_nil; naive_solver.

Lemma offer_member_excludes id_ o x o' k : offer_member id_ o x = Ok o' ->
  k ∈ Dict.keys (excluded o') <-> k ∈ Dict.keys (excluded o) \/ bars_member id_ x k.
Proof.
  unfold offer_member, bars_member. intros (o1 & E & [= <-])%result_bind_ok. cbn [excluded]. destruct (en_type x).
  - apply result_bind_ok in E as (m & Em & E). destruct (d_bridge_members (en_data x)) as [l|]; [|done]. injection Em as <-. cbn [default].
    destruct (is_id id_ x); injection E as <-; keys_tac.
  - apply result_bind_ok in E as (p & Ep & [= <-]). destruct (d_lag_ports (en_data x)) as [l|]; [|done]. injection Ep as <-. apply update_self_keys.
  - injection E as <-. tauto.
  - injection E as <-. tauto.
  - injection E as <-. tauto.
Qed.

Lemma offer_port_excludes conf id_ o x o' k : offer_port conf id_ o x = Ok o' ->
  k ∈ Dict.keys (excluded o') <-> k ∈ Dict.keys (excluded o) \/ bars_port conf id_ x k.
Proof.
  unfold offer_port, bars_port. intros (o1 & E & [= <-])%result_bind_ok. cbn [excluded]. destruct (en_type x).
  - apply result_bind_ok in E as (m & Em & [= <-]). destruct (d_bridge_members (en_data x)) as [l|]; [|done]. injection Em as <-.
    keys_tac.
  - apply result_bind_ok in E as (p & Ep & E). destruct (d_lag_ports (en_data x)) as [l|]; [|done]. injection Ep as <-.
    destruct (is_id id_ x); injection E as <-; keys_tac.
  - case_bool_decide; injection E as <-; keys_tac.
  - case_bool_decide; injection E as <-; keys_tac.
  - apply result_bind_ok in E as (p & Ep & [= <-]). destruct (d_vlan_parent_interface (en_data x)) as [l|]; [|done]. injection Ep as <-.
    destruct l; keys_tac.
Qed.

(** Every interface is included. *)
Lemma offer_member_includes id_ o x o' k : offer_member id_ o x = Ok o' -> k ∈ Dict.keys (included o) \/ k = en_name x -> k ∈ Dict.keys (included o').
Proof.
  unfold offer_member. intros (o1 & E & [= <-])%result_bind_ok H.
  assert (k ∈ Dict.keys (included o) -> k ∈ Dict.keys (included o1)) as Hk; [|keys_tac]. intros Hk. destruct (en_type x); try (by injection E as <-).
  - apply result_bind_ok in E as (m & _ & E). destruct (is_id id_ x); injection E as <-; keys_tac.
  - by apply result_bind_ok in E as (p & _ & [= <-]).
Qed.

Lemma foldE_included {A} (f : offer -> A -> result exn offer) (name : A -> string) k :
  (forall o x o', f o x = Ok o' -> k ∈ Dict.keys (included o) \/ k = name x -> k ∈ Dict.keys (included o')) ->
  forall l o o', foldE f l o = Ok o' -> k ∈ Dict.keys (included o) \/ k ∈ map name l -> k ∈ Dict.keys (included o').
Proof.
  intros Hf l. induction l as [|x l IH]; intros o o'; simpl; [intros [= <-] [H|H%elem_of_nil]; done|].
  intros (o1 & E & H)%result_bind_ok Hk. apply (IH _ _ H). rewrite elem_of_cons in Hk. pose proof (Hf _ _ _ E). tauto.
Qed.

Lemma bridge_choices_spec e d id_ c m : bridge_members_choices e d id_ = Ok c -> m ∈ map en_name (query e d) ->
  m ∈ Dict.keys c <-> forall x, x ∈ query e d -> ~ bars_member id_ x m.
Proof.
  unfold bridge_members_choices. intros (o & E & [= <-])%result_bind_ok Hm. rewrite offer_keys_spec.
  pose proof (foldE_collects (fun o k => k ∈ Dict.keys (excluded o)) (bars_member id_) _ m (fun o x o' => offer_member_excludes id_ o x o' m) _ _ _ E) as He.
  cbn [excluded] in He. change (m ∈ Dict.keys (excluded (mkOffer [] []))) with (m ∈ (@nil string)) in He. rewrite elem_of_nil in He.
  pose proof (foldE_included _ en_name m (fun o x o' => offer_member_includes id_ o x o' m) _ _ _ E (or_intror Hm)) as Hi.
  rewrite He. split; [intros [_ H] x Hx Hb; apply H; right; by exists x|]. intros H. split; [done|]. intros [[]|(x & Hx & Hb)]. by apply (H x).
Qed.

Lemma lag_choices_spec e d id_ c m : lag_ports_choices e d id_ = Ok c -> m ∈ Dict.keys c ->
  forall x, x ∈ query e d -> ~ bars_port (query_names_only d) id_ x m.
Proof.
  unfold lag_ports_choices. intros (o & E & [= <-])%result_bind_ok [_ Hm]%offer_keys_spec x Hx Hb. apply Hm.
  apply (foldE_collects (fun o k => k ∈ Dict.keys (excluded o)) (bars_port (query_names_only d) id_) _ m (fun o x o' => offer_port_excludes _ id_ o x o' m) _ _ _ E).
  right. by exists x.
Qed.

(** ** What the validation accepts *)

Lemma entry_type e d x : x ∈ query e d -> exists cloned, en_type x = type_ (en_name x) cloned.
Proof.
  unfold query, query_dict, Dict.values. rewrite fmap_app, elem_of_app.
  intros [H|H]; apply list_elem_of_fmap in H as ([k y] & -> & H); cbn [snd].
  - unfold kernel_entries in H. apply list_elem_of_omap in H as ([k' st] & _ & H).
    destruct (_ || _); [done|]. destruct (_ && _); [done|]. destruct (st_oserror st); [done|]. injection H as -> <-.
    exists (st_cloned st). unfold iface_extend. by destruct (Dict.get k (configs d)).
  - change (map ?f ?l) with (f <$> l) in H. apply list_elem_of_fmap in H as ([k' r'] & [= -> ->] & _). by exists true.
Qed.

Lemma type_bridge e d x : x ∈ query e d -> en_type x = BRIDGE <-> Str.startswith "br" (en_name x) = true.
Proof.
  intros [cl ->]%entry_type. unfold type_. destruct (Str.startswith "br" _); [done|]. destruct (Str.startswith "bond" _); [done|].
  destruct (Str.startswith "vlan" _); [done|]. by destruct cl.
Qed.

Lemma type_lag e d x : x ∈ query e d -> en_type x = LINK_AGGREGATION <-> Str.startswith "bond" (en_name x) = true.
Proof.
  intros [cl ->]%entry_type. unfold type_. destruct (Str.startswith "bond" _) eqn:E.
  - apply bond_not_br in E as [-> _]. done.
  - destruct (Str.startswith "br" _); [done|]. destruct (Str.startswith "vlan" _); [done|]. by destruct cl.
Qed.

Lemma type_vlan e d x : x ∈ query e d -> Str.startswith "vlan" (en_name x) = true -> en_type x = VLAN.
Proof.
  intros [cl ->]%entry_type Hs. unfold type_. rewrite Hs. apply Str.startswith_spec in Hs as [t ->]. done.
Qed.

(** What is used, exactly. *)
Lemma set_all_elem {V} ports (v : V) d p : is_Some (Dict.get p (set_all ports v d)) -> is_Some (Dict.get p d) \/ p ∈ ports.
Proof.
  unfold set_all. revert d. induction ports as [|q ports IH]; intros d; simpl; [by left|]. intros [H|H]%IH; [|right; by right].
  rewrite Dict.get_is_Some, Dict.elem_keys_set in H. destruct H as [->|H]; [right; by left|left; by apply Dict.get_is_Some].
Qed.

Lemma use_iface_collects p u x u' : use_iface u x = Ok u' -> in_use p u' <-> in_use p u \/ shows_port (fst x) (snd x) p.
Proof.
  intros E. split; [|intros [H|H]; [by eapply use_iface_mono|destruct x; by eapply use_iface_port]].
  destruct x as [k x]. revert E. unfold use_iface, in_use, shows_port. cbn. destruct (Str.startswith "br" k) eqn:E1.
  - intros [= <-] [[H|H]%set_all_elem|H]; cbn; tauto.
  - destruct (Str.startswith "vlan" k); [destruct (d_vlan_parent_interface _); [|done]; intros [= <-]; cbn; tauto|].
    destruct (Str.startswith "bond" k) eqn:E3; [|intros [= <-]; cbn; tauto]. intros [= <-] [H|[H|H]%set_all_elem]; cbn; tauto.
Qed.

Lemma port_in_use_spec ifaces u p : interfaces_used ifaces = Ok u -> in_use p u <-> exists k x, (k, x) ∈ ifaces /\ shows_port k x p.
Proof.
  unfold interfaces_used. intros E.
  rewrite (foldE_collects (fun u p => in_use p u) (fun x p => shows_port (fst x) (snd x) p) _ p (use_iface_collects p) _ _ _ E). split.
  - intros [[[? H]|[? H]]|([k x] & Hx & H)]; [done..|]. by exists k, x.
  - intros (k & x & Hx & H). right. by exists (k, x).
Qed.

Lemma other_elem e d update k x : (k, x) ∈ other_ifaces e d update <-> x ∈ query e d /\ k = en_name x /\ other update k = true.
Proof.
  unfold other_ifaces. rewrite filter_elem. change (map ?f ?l) with (f <$> l). rewrite list_elem_of_fmap. cbn. split.
  - intros [(y & [= -> ->] & Hy) Ho]. done.
  - intros (Hx & -> & Ho). split; [by exists x|done].
Qed.

Lemma check_member_ok schema ifaces u i m :
  check_members schema ifaces u i [m] [] = [] <-> m ∈ Dict.keys ifaces /\ ~ in_use m u.
Proof.
  cbn [check_members]. rewrite <-Dict.mem_spec. destruct (Dict.mem m ifaces); cbn [negb].
  - unfold in_use. destruct (Dict.get m (bridge_used u)) as [k|].
    + split; [by intros ?%VErrors.add_not_nil|]. intros [_ []]. left. by eexists.
    + destruct (Dict.get m (lag_used u)) as [k|]; [split; [by intros ?%VErrors.add_not_nil|]; intros [_ []]; right; by eexists|].
      split; [|done]. intros _. split; [done|]. by intros [[? [=]]|[? [=]]].
  - split; [by intros ?%VErrors.add_not_nil|by intros [[=] _]].
Qed.

(** The interface that is updated, if any, and the id it is named by. *)
Definition updating (e : nenv) (d : db) (t : itype) (update : option entry) : Prop :=
  forall y, update = Some y -> y ∈ query e d /\ en_type y = t.

Lemma is_id_other e d t update x : updating e d t update -> t = BRIDGE \/ t = LINK_AGGREGATION ->
  is_id (en_name <$> update) x = negb (other update (en_name x)).
Proof.
  intros Hu Ht. destruct update as [y|]; [|done]. cbn. rewrite negb_involutive. destruct (Hu y eq_refl) as [Hy Et].
  assert (nonempty (en_name y) = true) as ->; [|by rewrite String.eqb_sym].
  assert (exists p t, p ≠ "" /\ en_name y = p +:+ t) as (p & q & Hp & ->); [|by destruct p].
  destruct Ht as [->| ->]; [apply (type_bridge e d y Hy) in Et|apply (type_lag e d y Hy) in Et]; apply Str.startswith_spec in Et as [q ->]; (eexists _, q; split; [|done]; done).
Qed.

(** C24: The members that are offered for a bridge, new or updated, are exactly those its
    validation accepts, but for other bridges, which it accepts and which are not
    offered. *)
Theorem bridge_choices_exact e d update c u m schema i :
  updating e d BRIDGE update -> bridge_members_choices e d (en_name <$> update) = Ok c ->
  interfaces_used (other_ifaces e d update) = Ok u -> m ∈ map en_name (query e d) ->
  m ∈ Dict.keys c <-> check_members schema (other_ifaces e d update) u i [m] [] = [] /\ Str.startswith "br" m = false.
Proof.
  intros Hu Hc Eu Hm. rewrite (bridge_choices_spec _ _ _ _ _ Hc Hm), check_member_ok, (port_in_use_spec _ _ _ Eu).
  pose proof (fun x => is_id_other e d BRIDGE update x Hu (or_introl eq_refl)) as Hid.
  change (map ?f ?l) with (f <$> l) in Hm. apply list_elem_of_fmap in Hm as (z & -> & Hz). split.
  - intros H. assert (Str.startswith "br" (en_name z) = false) as Hbr.
    { apply not_true_iff_false. intros E%(type_bridge e d z Hz). apply (H z Hz). unfold bars_member. rewrite E. by left. }
    split_and!; [| |done].
    + unfold Dict.keys. apply list_elem_of_fmap. exists (en_name z, z). split; [done|]. apply other_elem. split_and!; [done..|].
      destruct update as [y|]; [|done]. cbn. apply negb_true_iff, String.eqb_neq. intros E. destruct (Hu y eq_refl) as [Hy Ey].
      apply (type_bridge e d y Hy) in Ey. congruence.
    + intros (k & x & (Hx & -> & Ho)%other_elem & Hp). apply (H x Hx). unfold bars_member. destruct Hp as [[E Hp]|[E Hp]].
      * apply (type_bridge e d x Hx) in E. rewrite E. right. by rewrite Hid, Ho.
      * apply (type_lag e d x Hx) in E. by rewrite E.
  - intros [[_ Hn] Hbr] x Hx Hb. apply Hn. exists (en_name x), x. unfold bars_member in Hb. destruct (en_type x) eqn:Et; [| |done..].
    + apply (type_bridge e d x Hx) in Et. destruct Hb as [E|[Ho Hp]]; [congruence|]. rewrite Hid in Ho. apply negb_false_iff in Ho.
      split; [by apply other_elem|by left].
    + apply (type_lag e d x Hx) in Et. split; [|by right]. apply other_elem. split_and!; [done..|]. destruct update as [y|]; [|done].
      cbn. apply negb_true_iff, String.eqb_neq. intros E. destruct (Hu y eq_refl) as [Hy Ey]. apply (type_bridge e d y Hy) in Ey.
      apply bond_not_br in Et as [Et _]. congruence.
Qed.

Lemma vlan_used_elem ifaces u p : interfaces_used ifaces = Ok u -> is_Some (Dict.get p (vlan_used u)) ->
  exists x, (p, x) ∈ ifaces /\ Str.startswith "vlan" p = true.
Proof.
  unfold interfaces_used. intros E H.
  assert (forall u x u', use_iface u x = Ok u' ->
    is_Some (Dict.get p (vlan_used u')) <-> is_Some (Dict.get p (vlan_used u)) \/ (Str.startswith "br" (fst x) = false /\ Str.startswith "vlan" (fst x) = true /\ p = fst x)) as Hf.
  { clear. intros u [k x] u'. unfold use_iface. cbn [fst]. destruct (Str.startswith "br" k); [intros [= <-]; cbn [vlan_used]; naive_solver|].
    destruct (Str.startswith "vlan" k).
    - destruct (d_vlan_parent_interface _); [|done]. intros [= <-]. cbn [vlan_used]. rewrite !Dict.get_is_Some, Dict.elem_keys_set. naive_solver.
    - destruct (Str.startswith "bond" k); intros [= <-]; cbn [vlan_used]; naive_solver. }
  apply (foldE_collects (fun u p => is_Some (Dict.get p (vlan_used u)))
    (fun x p => Str.startswith "br" (fst x) = false /\ Str.startswith "vlan" (fst x) = true /\ p = fst x) _ p Hf _ _ _ E) in H as [[? [=]]|([k x] & Hx & _ & Hk & ->)].
  by exists x.
Qed.

Lemma check_port_ok schema ifaces ds u i m :
  m ∈ Dict.keys ifaces -> ~ in_use m u -> Dict.get m (vlan_used u) = None ->
  check_ports schema ifaces ds u i [m] [] = [] <-> m ∉ map int_interface ds.
Proof.
  intros Hm%Dict.mem_spec Hn Hv. cbn [check_ports]. rewrite Hm, Hv. cbn [negb]. unfold in_use in Hn.
  destruct (Dict.get m (lag_used u)); [by destruct Hn; right; eexists|]. destruct (Dict.get m (bridge_used u)); [by destruct Hn; left; eexists|].
  unfold add_if. case_bool_decide; [|done]. split; [by intros ?%VErrors.add_not_nil|done].
Qed.

(** A port that is offered for a link aggregation, new or updated, is accepted by its
    validation exactly when the interface has no configuration: what is offered and
    refused are the other link aggregations. *)
Theorem lag_choices_accepted e d update c u m schema i :
  updating e d LINK_AGGREGATION update -> lag_ports_choices e d (en_name <$> update) = Ok c ->
  interfaces_used (other_ifaces e d update) = Ok u -> m ∈ map en_name (query e d) -> m ∈ Dict.keys c ->
  check_ports schema (other_ifaces e d update) (other_rows d update) u i [m] [] = [] <-> m ∉ query_names_only d.
Proof.
  intros Hu Hc Eu Hm Hin. pose proof (lag_choices_spec _ _ _ _ _ Hc Hin) as Hb.
  pose proof (fun x => is_id_other e d LINK_AGGREGATION update x Hu (or_intror eq_refl)) as Hid.
  change (map ?f ?l) with (f <$> l) in Hm. apply list_elem_of_fmap in Hm as (z & -> & Hz).
  assert (other update (en_name z) = true) as Hoz.
  { destruct update as [y|]; [|done]. destruct (Hu y eq_refl) as [Hy Ey]. apply not_false_iff_true. intros Ho. apply (Hb y Hy).
    unfold bars_port. rewrite Ey, Hid. cbn in *. apply negb_false_iff, String.eqb_eq in Ho. by rewrite String.eqb_refl. }
  rewrite check_port_ok.
  - unfold query_names_only, other_rows. split; intros H Hx; apply H.
    + change (map ?f ?l) with (f <$> l) in *. apply list_elem_of_fmap in Hx as (r & E & Hr). apply list_elem_of_fmap. exists r. split; [done|].
      apply filter_elem. split; [done|]. by rewrite <-E.
    + change (map ?f ?l) with (f <$> l) in *. apply list_elem_of_fmap in Hx as (r & E & [Hr _]%filter_elem). apply list_elem_of_fmap. by exists r.
  - unfold Dict.keys. apply list_elem_of_fmap. exists (en_name z, z). split; [done|]. by apply other_elem.
  - rewrite (port_in_use_spec _ _ _ Eu). intros (k & x & (Hx & -> & Ho)%other_elem & Hp). apply (Hb x Hx). unfold bars_port. destruct Hp as [[E Hp]|[E Hp]].
    + apply (type_bridge e d x Hx) in E. rewrite E. by right.
    + apply (type_lag e d x Hx) in E. by rewrite E, Hid, Ho.
  - destruct (Dict.get (en_name z) (vlan_used u)) as [p|] eqn:E; [|done]. exfalso.
    destruct (vlan_used_elem _ _ (en_name z) Eu) as (x & (Hx & En & _)%other_elem & Hv); [by eexists|]. rewrite En in Hv.
    apply (Hb x Hx). unfold bars_port. rewrite (type_vlan e d x Hx Hv). by left.
Qed.

End NetChoices.
