(* ===== verification/NetSync.v ===== *)
(** * Applying the configuration to the kernel (plugins/interface/, plugins/network.py)

    [sync] gives the kernel the configuration of the tables: it creates bonds, VLANs
    and bridges, sets the addresses of the interfaces and takes the others down.  The
    library that talks to the kernel, [truenas_pynetif], is a parameter: the commands
    that are given are recorded in order, and their outcomes, and what is read back,
    are answers that may depend on all that was done before. *)

From Stdlib Require Import Ascii.
From S2P Require Import Prelude PyDict PyStr PyVal PyFormat Errors Ipaddr NetDb Ifaces NetCheck NetOps.

Module NetSync.
Import NetDb Ifaces NetCheck NetOps.

(** ** DHCP (plugins/interface/dhcp.py) *)

Definition NUL : ascii := ascii_of_nat 0.
Definition EQUALS : ascii := ascii_of_nat 61.

(** [_parse_env_block] on the decoded text *)
Definition parse_env_block (data : string) : list (string * string) :=
  foldl (fun d item => match Str.find EQUALS item with
                       | Some i => Dict.set (Str.take i item) (Str.drop (S i) item) d
                       | None => d
                       end) [] (Str.split NUL data).

Record lease := mkLease { ls_ip_address : option string; ls_subnet_mask : option string }.

(** [_env_to_lease], the fields that are used *)
Definition env_to_lease (env : list (string * string)) : lease :=
  mkLease (Dict.get "new_ip_address" env) (Dict.get "new_subnet_mask" env).

(** [dhcp_leases]: the blocks the daemon answers with, [None] when it does not. *)
Definition dhcp_leases (answer : option (list string)) : option lease :=
  blocks ← answer;
  env_to_lease <$> List.find (fun env => bool_decide (Dict.get "protocol" env = Some "dhcp")) (map parse_env_block blocks).

(** [dhcp_status(...).running] *)
Definition dhcp_running (answer : option (list string)) : bool := bool_decide (is_Some (dhcp_leases answer)).

(** ** Data (plugins/interface/sync_data.py) *)

(** The configuration of an interface: its row and its alias rows. *)
Definition iface_config : Type := iface_row * list alias_row.

Record sync_data := mkSync {
  sd_interfaces : list (string * iface_config);
  sd_bonds : list (string * iface_row * lagg_row);  (** with the interface of the foreign key *)
  sd_bond_members : list member_row;
  sd_vlans : list vlan_row;
  sd_bridges : list (string * iface_row * bridge_row);
  sd_node : string;
}.

Definition is_bond_member (sd : sync_data) (name : string) : bool := existsb (fun m => String.eqb (lagg_physnic m) name) (sd_bond_members sd).

Definition get_bond_members_for (sd : sync_data) (id : Z) : list member_row :=
  List.filter (fun m => lagg_interfacegroup m =? id)%Z (sd_bond_members sd).

Definition parent_interfaces (sd : sync_data) : list string :=
  map lagg_physnic (sd_bond_members sd) ++ map vlan_pint (sd_vlans sd) ++ flat_map (fun b => b_members (snd b)) (sd_bridges sd).

(** The rows joined along a foreign key to the interfaces. *)
Definition with_interface {R} (d : db) (key : R -> Z) (l : list R) : list (string * iface_row * R) :=
  omap (fun x => (fun r => (int_interface r, r, x)) <$> List.find (fun r => i_id r =? key x)%Z (rows (interfaces d))) l.

(** What [sync] makes of the tables. *)
Definition sync_data_of (d : db) (node : string) : sync_data :=
  mkSync (map (fun r => (int_interface r, (r, aliases_of d r))) (rows (interfaces d)))
    (with_interface d lagg_interface (rows (lagg d))) (rows (laggmembers d)) (rows (vlan d))
    (with_interface d b_interface (rows (bridge d))) node.

(** ** Commands *)

Record link_info := mkLink_ { lk_index : Z; lk_mtu : Z; lk_up : bool }.

Record bond_config := mkBond {
  bc_name : string; bc_mode : string; bc_members : list string; bc_xmit : option string; bc_rate : option string;
  bc_miimon : Z; bc_primary : option string; bc_mtu : Z;
}.
Record vlan_config := mkVlanCfg { vc_name : string; vc_parent : string; vc_tag : Z }.
Record bridge_config := mkBridgeCfg { gc_name : string; gc_members : list string; gc_stp : bool; gc_mtu : option Z; gc_learning : bool }.

Definition DeviceNotFound : exn := EOther "DeviceNotFound" "".
Definition AddressDoesNotExist : exn := EOther "AddressDoesNotExist" "".

(** [AddressInfo]: made from the family, the length of the prefix, the address and the
    broadcast address; its equality is the library's. *)
Class AddrInfo (A : Type) := {
  addr_eq :: EqDecision A;
  AddressInfo : Ip.version -> Z -> string -> string -> A;
  addr_is_link : A -> bool;
  addr_address : A -> string;
  addr_info_address v p a b : addr_address (AddressInfo v p a b) = a;
}.

Section sync.
Context {A : Type} `{!AddrInfo A}.

Inductive command :=
| AddAddress (index : Z) (a : A)
| RemoveAddress (index : Z) (a : A)
| ReplaceAddress (index : Z) (a : A)
| FlushAddresses (index : Z)
| LinkUp (index : Z)
| LinkDown (index : Z)
| DeleteLink (index : Z)
| LinkMtu (index mtu : Z)
| LinkAlias (index : Z) (text : string)
| SetFec (name mode : string)
| SetSysctl (key value : string)
| ServiceControl (verb service : string)
| DhcpStop (name : string)
| ConfigureBond (c : bond_config)
| ConfigureVlan (c : vlan_config)
| ConfigureBridge (c : bridge_config).

(** What was done, with the outcomes, the oldest first. *)
Definition history : Type := list (command * result exn unit).

(** The answers. *)
Record kern := mkKern {
  outcome : history -> command -> result exn unit;
  link_addresses : history -> Z -> result exn (list A);
  links_after : history -> command -> list (string * link_info) -> list (string * link_info);
  dhcp_answer : history -> string -> option (list string);
  keepalived_started : history -> bool;
  netif_complete : bool;
  hash_policies : list string;  (** the names of [BondXmitHashPolicy] *)
  lacp_rates : list string;  (** the names of [BondLacpRate] *)
}.

(** The commands and the shared dictionary of links, at first that of [get_links]; the
    routines that configure bonds, VLANs and bridges are given it. *)
Record sst := mkSst { done_ : history; links : list (string * link_info) }.

Notation sop := (STE sst exn).

Context (K : kern).

Definition run (c : command) : sop unit := fun s =>
  let r := outcome K (done_ s) c in
  (mkSst (done_ s ++ [(c, r)])
     (match c with ConfigureBond _ | ConfigureVlan _ | ConfigureBridge _ => links_after K (done_ s) c (links s) | _ => links s end), r).

(** [_alias_to_addr]; [None] is its [ValueError]. *)
Definition alias_to_addr (address netmask : string) : option A :=
  '(x, p) ← Ip.ip_interface address netmask;
  Some (AddressInfo (Ip.ver x) p (Ip.str_num (Ip.ver x) (Ip.num x) None) (Ip.str_num (Ip.ver x) (Ip.interface_broadcast x p) None)).

Definition netmask_text (n : num_col) : string := match n with NumInt z => pretty z | NumEmpty => "" end.
Definition host_mask (version : num_col) : string := if bool_decide (version = NumInt 4) then "32" else "128".

(** [s.add(a)]: a set is a list without duplicates, gone through in the order in which
    its elements came in *)
Definition add_elem (a : A) (l : list A) : list A := if bool_decide (a ∈ l) then l else l ++ [a].

Definition add_addr (address netmask : string) (db : list A) : sop (list A) :=
  a ← expect (alias_to_addr address netmask) ValueError; mret (add_elem a db).

(** ** Addresses (plugins/interface/addresses.py) *)

Definition lease_addr (o : option lease) (db : list A) : sop (list A) :=
  match o with
  | Some (mkLease (Some ip) (Some mask)) => if nonempty ip && nonempty mask then add_addr ip mask db else mret db
  | _ => mret db
  end.

Fixpoint alias_addrs_of (key : alias_row -> string) (l : list alias_row) (db : list A) : sop (list A) :=
  match l with
  | [] => mret db
  | a :: l =>
      db ← add_addr (key a) (netmask_text (alias_netmask a)) db;
      db ← (if nonempty (alias_vip a) then add_addr (alias_vip a) (host_mask (alias_version a)) db else mret db);
      alias_addrs_of key l db
  end.

Definition vips_of (data : iface_row) (aliases : list alias_row) : list string :=
  option_list (int_vip data) ++ List.filter nonempty (map alias_vip aliases).

Definition is_b (sd : sync_data) : bool := String.eqb (sd_node sd) "B".

(** The addresses the database wants, after DHCP was looked after; with whether it
    runs. *)
Definition database_addrs (name : string) (cfg : iface_config) (sd : sync_data) : sop (bool * list A) :=
  let '(data, aliases) := cfg in
  running ← gets (fun s => dhcp_running (dhcp_answer K (done_ s) name));
  db ← (if running && negb (int_dhcp data) then _ ← run (DhcpStop name); mret []
        else if running then o ← gets (fun s => dhcp_leases (dhcp_answer K (done_ s) name)); lease_addr o []
        else mret []);
  let address := if is_b sd then int_address_b data else int_address data in
  db ← (if nonempty address && negb (int_dhcp data) then add_addr address (netmask_text (int_netmask data)) db else mret db);
  db ← (if nonempty (vip_of data) then add_addr (vip_of data) (host_mask (int_version data)) db else mret db);
  db ← alias_addrs_of (if is_b sd then alias_address_b else alias_address) aliases db;
  mret (running, db).

(** An address that is not looked at when addresses are removed. *)
Definition spared (vips : list string) (a : A) : bool := Str.startswith "fe80::" (addr_address a) || bool_decide (addr_address a ∈ vips).

Definition remove_stale (index : Z) (dhcp : bool) (vips : list string) (db : list A) (a : A) : sop unit :=
  if spared vips a then mret tt
  else if negb (bool_decide (a ∈ db)) then suppress (run (RemoveAddress index a))
  else if negb dhcp then run (ReplaceAddress index a)
  else mret tt.

Definition add_missing (index : Z) (vips : list string) (a : A) : sop unit :=
  if bool_decide (addr_address a ∈ vips) then mret tt else run (AddAddress index a).

Definition has_ipv6 (cfg : iface_config) : bool :=
  bool_decide (int_version (fst cfg) = NumInt 6) || int_ipv6auto (fst cfg)
  || existsb (fun a => bool_decide (alias_version a = NumInt 6)) (snd cfg).

Definition control_keepalived : sop unit :=
  started ← gets (fun s => keepalived_started K (done_ s));
  if started : bool then run (ServiceControl "RELOAD" "keepalived")
  else when (netif_complete K) (run (ServiceControl "START" "keepalived")).

Definition configure_mtu (link : link_info) (data : iface_row) : sop unit :=
  let m := default 0%Z (int_mtu data) in
  let m := if (m =? 0)%Z then 1500%Z else m in
  when (negb (lk_mtu link =? m)%Z) (run (LinkMtu (lk_index link) m)).

Definition configure_addresses_impl (name : string) (cfg : iface_config) (sd : sync_data) : sop bool :=
  let '(data, aliases) := cfg in
  o ← gets (fun s => Dict.get name (links s));
  link ← expect o (KeyError name);
  let index := lk_index link in
  l ← (fun s => (s, link_addresses K (done_ s) index));
  let configured := remove_dups (List.filter (fun a => negb (addr_is_link a)) l) in
  '(running, db) ← database_addrs name cfg sd;
  let vips := vips_of data aliases in
  _ ← for_each (remove_stale index (int_dhcp data) vips db) configured;
  _ ← run (SetSysctl ("net.ipv6.conf." +:+ name +:+ ".autoconf") (if has_ipv6 cfg then "1" else "0"));
  _ ← for_each (add_missing index vips) (List.filter (fun a => negb (bool_decide (a ∈ configured))) db);
  _ ← when (negb (lk_up link)) (run (LinkUp index));
  _ ← when (nonempty (vip_of data) || existsb (fun a => nonempty (alias_vip a)) aliases) control_keepalived;
  _ ← when (negb (is_bond_member sd name)) (configure_mtu link data);
  _ ← match int_fec_mode data with Some m => when (nonempty m) (suppress (run (SetFec name m))) | None => mret tt end;
  _ ← when (nonempty (int_name data)) (suppress (run (LinkAlias index (int_name data))));
  mret (negb running && int_dhcp data).

(** ** Bonds, VLANs and bridges (bond.py, vlan.py, bridge.py) *)

Fixpoint insert_by_order (m : member_row) (l : list member_row) : list member_row :=
  match l with
  | [] => [m]
  | x :: l' => if (lagg_ordernum m <? lagg_ordernum x)%Z then m :: l else x :: insert_by_order m l'
  end.

(** [sorted(members, key=...)], which is stable *)
Definition sort_members (l : list member_row) : list member_row := foldl (fun acc m => insert_by_order m acc) [] l.

(** [getattr(names, value.upper(), None)] of a value that is not empty *)
Definition upper_some (names : list string) (o : option string) : option string :=
  match o with
  | Some s => if nonempty s && bool_decide (upper s ∈ names) then Some (upper s) else None
  | None => None
  end.

Definition bond_config_of (name : string) (r : iface_row) (bond : lagg_row) (members : list member_row) : option bond_config :=
  let mode := upper (lagg_protocol bond) in
  if bool_decide (mode ∈ ["LACP"; "FAILOVER"; "LOADBALANCE"]) then
    let names := map lagg_physnic (sort_members members) in
    let m := default 0%Z (int_mtu r) in
    Some (mkBond name mode names (upper_some (hash_policies K) (lagg_xmit_hash_policy bond)) (upper_some (lacp_rates K) (lagg_lacpdu_rate bond)) 100
            (if String.eqb mode "FAILOVER" then head names else None) (if (m =? 0)%Z then 1500%Z else m))
  else None.

(** A loop that goes on after errors: the names that were configured. *)
Fixpoint configure_all {X} (name : X -> string) (f : X -> sop unit) (l : list X) : sop (list string) := fun s =>
  match l with
  | [] => (s, Ok [])
  | x :: l =>
      let '(s, r) := f x s in
      let '(s, ns) := configure_all name f l s in
      (s, match r, ns with Ok _, Ok ns => Ok (name x :: ns) | Err _, ns => ns | _, Err e => Err e end)
  end.

Definition configure_bonds_impl (sd : sync_data) : sop (list string) :=
  configure_all (fun b => fst (fst b))
    (fun '(name, r, bond) =>
       c ← expect (bond_config_of name r bond (get_bond_members_for sd (l_id bond))) ValueError;
       run (ConfigureBond c)) (sd_bonds sd).

Definition configure_vlans_impl (sd : sync_data) : sop (list string) :=
  configure_all vlan_vint (fun v => run (ConfigureVlan (mkVlanCfg (vlan_vint v) (vlan_pint v) (vlan_tag v)))) (sd_vlans sd).

Definition configure_bridges_impl (sd : sync_data) : sop (list string) :=
  configure_all (fun b => fst (fst b))
    (fun '(name, r, b) =>
       run (ConfigureBridge (mkBridgeCfg name (b_members b) (b_stp b)
              (match int_mtu r with Some m => if (m =? 0)%Z then None else Some m | None => None end) (b_enable_learning b)))) (sd_bridges sd).

(** ** Taking interfaces down (unconfigure.py) *)

Definition is_virtual (name : string) : bool := Str.startswith "br" name || Str.startswith "bond" name || Str.startswith "vlan" name.

(** Whether the device was still there: [DeviceNotFound] is caught. *)
Definition or_gone (m : sop unit) : sop bool := fun s =>
  match m s with
  | (s, Ok _) => (s, Ok true)
  | (s, Err e) => (s, if bool_decide (e = DeviceNotFound) then Ok false else Err e)
  end.

Definition unconfigure_impl (name : string) (cloned : list string) (sd : sync_data) : sop unit :=
  o ← gets (fun s => Dict.get name (links s));
  match o with
  | None => mret tt
  | Some link =>
      running ← gets (fun s => dhcp_running (dhcp_answer K (done_ s) name));
      _ ← when (running : bool) (run (DhcpStop name));
      there ← or_gone (run (FlushAddresses (lk_index link)));
      if there : bool then
        _ ← or_gone
              (if negb (bool_decide (name ∈ cloned)) && is_virtual name then run (DeleteLink (lk_index link))
               else when (negb (bool_decide (name ∈ parent_interfaces sd))) (run (LinkDown (lk_index link))));
        mret tt
      else mret tt
  end.

(** ** [sync_impl] (sync.py) *)

(** The names of those whose addresses could be set and that want DHCP. *)
Fixpoint addresses_of (names : list (string * iface_config)) (sd : sync_data) : sop (list string) := fun s =>
  match names with
  | [] => (s, Ok [])
  | (name, cfg) :: names =>
      let '(s, r) := configure_addresses_impl name cfg sd s in
      let '(s, ns) := addresses_of names sd s in
      (s, match r, ns with Ok true, Ok ns => Ok (name :: ns) | _, _ => ns end)
  end.

Definition in_database (sd : sync_data) (names : list string) : list (string * iface_config) :=
  omap (fun n => (fun c => (n, c)) <$> Dict.get n (sd_interfaces sd)) names.

Definition is_internal (internal : list string) (name : string) : bool := existsb (fun p => Str.startswith p name) internal.

Definition take_down (internal configured : list string) (sd : sync_data) (name : string) : sop unit :=
  if is_internal internal name then mret tt
  else when (bool_decide (sd_interfaces sd = []) || negb (Dict.mem name (sd_interfaces sd))) (unconfigure_impl name configured sd).

Record synced := mkSynced { sy_configured : list string; sy_run_dhcp : list string; sy_autoconfigure : list string }.

Definition sync_impl (sd : sync_data) (internal : list string) : sop synced :=
  bonds ← configure_bonds_impl sd;
  dhcp1 ← addresses_of (in_database sd bonds) sd;
  dhcp2 ← addresses_of (List.filter (fun x => negb (is_virtual (fst x))) (sd_interfaces sd)) sd;
  vlans ← configure_vlans_impl sd;
  dhcp3 ← addresses_of (in_database sd vlans) sd;
  bridges ← configure_bridges_impl sd;
  dhcp4 ← addresses_of (in_database sd bridges) sd;
  let configured := bonds ++ vlans ++ bridges in
  names ← gets (fun s => Dict.keys (links s));
  _ ← for_each (take_down internal configured sd) names;
  mret (mkSynced configured (dhcp1 ++ dhcp2 ++ dhcp3 ++ dhcp4)
          (if bool_decide (sd_interfaces sd = [])
           then List.filter (fun n => negb (is_internal internal n) && negb (is_virtual n)) names else [])).

(** [sync_interface_impl]: one interface, hot-plugged; whether DHCP is started.  Its
    links are those of [get_link]. *)
Definition sync_interface_impl (d : db) (name node : string) : sop bool :=
  match List.find (fun r => String.eqb (int_interface r) name) (rows (interfaces d)) with
  | None => mret false
  | Some r =>
      o ← gets (fun s => Dict.get name (links s));
      match o with
      | None => mret false
      | Some _ => configure_addresses_impl name (r, aliases_of d r) (mkSync [(name, (r, aliases_of d r))] [] [] [] [] node)
      end
  end.

(** What the hook on events of udev did: nothing, the address of the heartbeat
    interface, or an interface, for which DHCP is started or not. *)
Inductive hooked := HIgnored | HHeartbeat | HSynced (dhcp : bool).

(** [udevd_ifnet_hook]: [prefixes] is [CLONED_PREFIXES + INTERNAL_INTERFACES],
    [internal] what [interface.internal_interfaces] returns. *)
Definition udevd_ifnet_hook (subsystem action iface : option string) (prefixes internal : list string) (platform node : string) (d : db) : sop hooked :=
  if negb (bool_decide (subsystem = Some "net")) && negb (bool_decide (action = Some "add")) then mret HIgnored
  else match iface with
  | None => mret HIgnored
  | Some name =>
      if existsb (fun p => Str.startswith p name) prefixes then mret HIgnored
      else if String.eqb name "ntb0" && String.eqb platform "LAJOLLA2" && String.eqb node "B" then mret HHeartbeat
      else if existsb (fun i => Str.startswith name i) internal then mret HIgnored
      else dhcp ← sync_interface_impl d name node; mret (HSynced dhcp)
  end.

(** ** [sync] (network.py) *)

(** The outcomes of what else is called. *)
Record sync_calls := mkCalls {
  pre_sync : result exn unit;
  set_non_crit_ifaces : result exn unit;
  generate_dhcpcd : result exn unit;
  dns_sync : result exn unit;
  post_sync : result exn unit;
}.

(** Starting DHCP, static routes and routes log their errors. *)
Definition sync (c : sync_calls) (d : db) (node : string) (internal : list string) : sop unit :=
  _ ← lift (pre_sync c);
  _ ← lift (set_non_crit_ifaces c);
  r ← sync_impl (sync_data_of d node) internal;
  _ ← when (match sy_run_dhcp r with [] => false | _ => true end) (lift (generate_dhcpcd c));
  _ ← lift (dns_sync c);
  lift (post_sync c).

End sync.
End NetSync.
