(* ===== verification/NetApply.v ===== *)
(** * What synchronisation does to the interfaces

    For every behaviour of the kernel: an interface of the database is never taken
    down, and an interface whose configuration succeeds has the addresses of the
    database and no others. *)

From S2P Require Import Prelude PyDict PyStr PyVal PyFormat Errors Ipaddr NetDb Ifaces NetCheck NetOps NetSync.

Module NetApply.
Import NetDb Ifaces NetCheck NetOps NetSync.

Section apply.
Context {A : Type} `{!AddrInfo A} (K : kern (A:=A)).
Notation sop := (STE (sst (A:=A)) exn).

(** ** The commands of an operation *)

(** From states with [I], which stays, only commands with [P] are given. *)
Definition emits (I : sst (A:=A) -> Prop) (P : command (A:=A) -> Prop) {X} (m : sop X) : Prop :=
  forall s, I s -> I (m s).1 /\ exists t, done_ (m s).1 = done_ s ++ t /\ Forall (fun x => P (fst x)) t.

Section emits.
Context (I : sst (A:=A) -> Prop) (P : command (A:=A) -> Prop).

Lemma emits_none {X} (m : sop X) : (forall s, (m s).1 = s) -> emits I P m.
Proof. intros H s Hs. rewrite H. split; [done|]. exists []. by rewrite app_nil_r. Qed.
Lemma emits_ret {X} (x : X) : emits I P (mret x).
Proof. by apply emits_none. Qed.
Lemma emits_gets {X} (f : sst -> X) : emits I P (gets f).
Proof. by apply emits_none. Qed.
Lemma emits_expect {X} (o : option X) e : emits I P (expect o e).
Proof. by apply emits_none. Qed.
Lemma emits_bind {X Y} (m : sop X) (f : X -> sop Y) : emits I P m -> (forall x, emits I P (f x)) -> emits I P (m ≫= f).
Proof.
  intros Hm Hf s Hs. unfold mbind, ste_mbind. destruct (Hm s Hs) as [H1 (t & Et & Ht)]. destruct (m s) as [s1 [x|e]]; [|by split; [|exists t]].
  destruct (Hf x s1 H1) as [H2 (t2 & Et2 & Ht2)]. split; [done|]. exists (t ++ t2). cbn [fst] in Et. split; [by rewrite Et2, Et, app_assoc|by apply Forall_app].
Qed.
Lemma emits_suppress (m : sop unit) : emits I P m -> emits I P (suppress m).
Proof. intros Hm s Hs. by apply Hm. Qed.
Lemma emits_for_each {X} (f : X -> sop unit) l : (forall x, x ∈ l -> emits I P (f x)) -> emits I P (for_each f l).
Proof.
  induction l as [|x l IH]; intros H; cbn [for_each]; [apply emits_ret|]. apply emits_bind; [apply H; by left|]. intros _. apply IH.
  intros y Hy. apply H. by right.
Qed.
Lemma emits_or_gone (m : sop unit) : emits I P m -> emits I P (or_gone m).
Proof. intros Hm s Hs. specialize (Hm s Hs). unfold or_gone. by destruct (m s) as [s1 [u|e]]. Qed.
Lemma emits_all {X} name (f : X -> sop unit) l : (forall x, emits I P (f x)) -> emits I P (configure_all name f l).
Proof.
  intros Hf. induction l as [|x l IH]; intros s Hs; cbn [configure_all]; [by apply (emits_ret (@nil string))|].
  destruct (Hf x s Hs) as [H1 (t1 & E1 & F1)]. destruct (f x s) as [s1 r]. cbn [fst] in *. destruct (IH s1 H1) as [H2 (t2 & E2 & F2)].
  destruct (configure_all name f l s1) as [s2 ns]. cbn [fst] in *. split; [done|]. exists (t1 ++ t2). split; [by rewrite E2, E1, app_assoc|by apply Forall_app].
Qed.
Lemma emits_addresses l sd : (forall name cfg, emits I P (configure_addresses_impl K name cfg sd)) -> emits I P (addresses_of K l sd).
Proof.
  intros Hf. induction l as [|[n c] l IH]; intros s Hs; cbn [addresses_of]; [by apply (emits_ret (@nil string))|].
  destruct (Hf n c s Hs) as [H1 (t1 & E1 & F1)]. destruct (configure_addresses_impl K n c sd s) as [s1 r]. cbn [fst] in *.
  destruct (IH s1 H1) as [H2 (t2 & E2 & F2)]. destruct (addresses_of K l sd s1) as [s2 ns]. cbn [fst] in *. split; [done|].
  exists (t1 ++ t2). split; [by rewrite E2, E1, app_assoc|by apply Forall_app].
Qed.
End emits.

Lemma emits_weaken I (P Q : command (A:=A) -> Prop) {X} (m : sop X) : emits I P m -> (forall c, P c -> Q c) -> emits I Q m.
Proof.
  intros Hm H s Hs. destruct (Hm s Hs) as [H1 (t & E & F)]. split; [done|]. exists t. split; [done|]. eapply Forall_impl; [exact F|]. auto.
Qed.

Create HintDb syncs.
#[local] Hint Resolve emits_ret emits_gets emits_expect : syncs.

Ltac emit_steps :=
  repeat first
    [ solve [auto with syncs]
    | apply emits_bind; [|intros ?]
    | match goal with
      | |- emits _ _ (suppress _) => apply emits_suppress
      | |- emits _ _ (or_gone _) => apply emits_or_gone
      | |- emits _ _ (for_each _ _) => apply emits_for_each; intros ? ?
      | |- emits _ _ (configure_all _ _ _) => apply emits_all; intros ?
      | |- emits _ _ (addresses_of _ _ _) => apply emits_addresses; intros ? ?
      | |- emits _ _ (match ?x with _ => _ end) => destruct x
      end ].

(** ** What is taken down *)

(** The interface a command takes addresses from or takes down. *)
Definition takes_down (c : command (A:=A)) : option Z :=
  match c with FlushAddresses i | LinkDown i | DeleteLink i => Some i | _ => None end.

Definition harmless (c : command (A:=A)) : Prop := takes_down c = None.
Definition anywhere (_ : sst (A:=A)) : Prop := True.

Lemma emits_run_any P c : P c -> emits anywhere P (run K c).
Proof. intros H s _. split; [done|]. eexists. split; [reflexivity|]. by apply Forall_singleton. Qed.

#[local] Hint Extern 1 (emits _ harmless (run _ _)) => (apply emits_run_any; reflexivity) : syncs.

Lemma harmless_addr a m db : emits anywhere harmless (add_addr a m db).
Proof. unfold add_addr. emit_steps. Qed.
#[local] Hint Resolve harmless_addr : syncs.

Lemma harmless_aliases key l db : emits anywhere harmless (alias_addrs_of key l db).
Proof. revert db. induction l as [|a l IH]; intros db; cbn [alias_addrs_of]; emit_steps. Qed.
#[local] Hint Resolve harmless_aliases : syncs.

Lemma harmless_database name cfg sd : emits anywhere harmless (database_addrs K name cfg sd).
Proof.
  unfold database_addrs, lease_addr. destruct cfg. emit_steps.
Qed.
#[local] Hint Resolve harmless_database : syncs.

Lemma harmless_configure name cfg sd : emits anywhere harmless (configure_addresses_impl K name cfg sd).
Proof.
  unfold configure_addresses_impl. destruct cfg as [data aliases].
  apply emits_bind; [emit_steps|]. intros o. apply emits_bind; [emit_steps|]. intros link. apply emits_bind; [by apply emits_none|]. intros l.
  unfold remove_stale, add_missing, control_keepalived, configure_mtu. emit_steps.
Qed.
#[local] Hint Resolve harmless_configure : syncs.

(** The interface may be taken down, by this command: it is not internal and not in
    the database; it is deleted when it is virtual, and set down when nothing is on
    it. *)
Definition may_take_down (internal : list string) (sd : sync_data) (c : command (A:=A)) (name : string) : Prop :=
  is_internal internal name = false /\ name ∉ Dict.keys (sd_interfaces sd) /\
  match c with DeleteLink _ => is_virtual name = true | LinkDown _ => name ∉ parent_interfaces sd | _ => True end.

Definition allowed (internal : list string) (sd : sync_data) (L : list (string * link_info)) (c : command (A:=A)) : Prop :=
  forall i, takes_down c = Some i -> exists name link, Dict.get name L = Some link /\ lk_index link = i /\ may_take_down internal sd c name.

Definition at_links (L : list (string * link_info)) (s : sst (A:=A)) : Prop := links s = L.

Lemma emits_run_links L (P : command (A:=A) -> Prop) c :
  P c -> match c with ConfigureBond _ | ConfigureVlan _ | ConfigureBridge _ => False | _ => True end -> emits (at_links L) P (run K c).
Proof. intros H Hc s Hs. split; [by destruct c|]. eexists. split; [reflexivity|]. by apply Forall_singleton. Qed.

Lemma take_down_allowed internal configured sd name L : emits (at_links L) (allowed internal sd L) (take_down K internal configured sd name).
Proof.
  unfold take_down. destruct (is_internal internal name) eqn:Ei; [apply emits_ret|].
  destruct (bool_decide (sd_interfaces sd = []) || negb (Dict.mem name (sd_interfaces sd))) eqn:Ed; [|apply emits_ret].
  assert (name ∉ Dict.keys (sd_interfaces sd)) as Hn.
  { apply orb_true_iff in Ed as [->%bool_decide_eq_true|Hm%negb_true_iff]; [by intros ?%elem_of_nil|]. rewrite <-Dict.mem_spec. congruence. }
  unfold unconfigure_impl. intros s Hs. rewrite ste_bind_gets. rewrite Hs. destruct (Dict.get name L) as [link|] eqn:El; [|by apply emits_ret].
  assert (forall c, (forall i, takes_down c = Some i -> i = lk_index link /\
    match c with DeleteLink _ => is_virtual name = true | LinkDown _ => name ∉ parent_interfaces sd | _ => True end) -> allowed internal sd L c) as Hc.
  { intros c H i [-> Hi]%H. by exists name, link. }
  revert s Hs. match goal with |- forall s, _ -> at_links L (?m s).1 /\ _ => change (emits (at_links L) (allowed internal sd L) m) end.
  apply emits_bind; [apply emits_gets|]. intros running. apply emits_bind.
  { destruct running; [|apply emits_ret]. by apply emits_run_links; [apply Hc|]. }
  intros _. apply emits_bind; [apply emits_or_gone, emits_run_links; [apply Hc; by intros i [= <-]|done]|]. intros [|]; [|apply emits_ret].
  apply emits_bind; [|intros; apply emits_ret]. apply emits_or_gone. destruct (_ && _) eqn:Ev.
  - apply andb_true_iff in Ev as [_ Ev]. apply emits_run_links; [|done]. apply Hc. by intros i [= <-].
  - clear Ev Ed. case_bool_decide as Hp; cbn [negb]; [apply emits_ret|]. apply emits_run_links; [|done]. apply Hc. by intros i [= <-].
Qed.

(** Every command that takes down is allowed by the links at the end. *)
Definition ends_allowed (internal : list string) (sd : sync_data) {X} (m : sop X) : Prop :=
  forall s, exists t, done_ (m s).1 = done_ s ++ t /\ Forall (fun x => allowed internal sd (links (m s).1) (fst x)) t.

Lemma harmless_allowed internal sd L t : Forall (fun x : command * result exn unit => harmless (fst x)) t -> Forall (fun x => allowed internal sd L (fst x)) t.
Proof. intros H. eapply Forall_impl; [exact H|]. intros [c r] Hc i. unfold harmless in Hc. cbn in *. by rewrite Hc. Qed.

Lemma ends_bind internal sd {X Y} (m : sop X) (f : X -> sop Y) :
  emits anywhere harmless m -> (forall x, ends_allowed internal sd (f x)) -> ends_allowed internal sd (m ≫= f).
Proof.
  intros Hm Hf s. destruct (Hm s I) as [_ (t & Et & Ht)]. unfold mbind, ste_mbind.
  destruct (m s) as [s1 [x|e]]; cbn [fst] in *; [|exists t; split; [done|by apply harmless_allowed]].
  destruct (Hf x s1) as (t2 & Et2 & Ht2). exists (t ++ t2). split; [by rewrite Et2, Et, app_assoc|]. apply Forall_app. split; [by apply harmless_allowed|done].
Qed.

Lemma ends_links internal sd {X} (m : sop X) : (forall L, emits (at_links L) (allowed internal sd L) m) -> ends_allowed internal sd m.
Proof. intros H s. destruct (H (links s) s eq_refl) as [E (t & Et & Ht)]. exists t. split; [done|]. by rewrite E. Qed.

Lemma sync_impl_allowed sd internal : ends_allowed internal sd (sync_impl K sd internal).
Proof.
  unfold sync_impl, configure_bonds_impl, configure_vlans_impl, configure_bridges_impl.
  do 7 (apply ends_bind; [emit_steps|intros ?]).
  apply ends_links. intros L. apply emits_bind; [apply emits_gets|]. intros names. apply emits_bind; [|intros; apply emits_ret].
  apply emits_for_each. intros name _. apply take_down_allowed.
Qed.


(** ** The addresses of an interface *)

(** Whether the interface has the address after the commands: those that succeed add
    and remove, and stopping DHCP takes what [kept] does not keep. *)
Section presence.
Context (kept : bool) (index : Z) (a : A).

Definition on_it (i : Z) (b : A) : bool := (i =? index)%Z && bool_decide (b = a).

Definition presence1 (p : bool) (x : command (A:=A) * result exn unit) : bool :=
  match x with
  | (AddAddress i b, Ok _) | (ReplaceAddress i b, Ok _) => on_it i b || p
  | (RemoveAddress i b, Ok _) => negb (on_it i b) && p
  | (RemoveAddress i b, Err e) => if bool_decide (e = AddressDoesNotExist) then negb (on_it i b) && p else p
  | (DhcpStop _, Ok _) => p && kept
  | (FlushAddresses i, Ok _) | (DeleteLink i, Ok _) => negb (i =? index)%Z && p
  | _ => p
  end.

Definition presence (p : bool) (t : history (A:=A)) : bool := foldl presence1 p t.

(** No removal failed for another reason than that the address was gone. *)
Definition removes_ok (t : history (A:=A)) : Prop :=
  Forall (fun x => match x with (RemoveAddress _ _, Err e) => e = AddressDoesNotExist | _ => True end) t.

(** From the first state to the second, commands with this effect. *)
Definition does (F : bool -> bool) (s s' : sst (A:=A)) : Prop :=
  exists t, done_ s' = done_ s ++ t /\ (removes_ok t -> forall p, presence p t = F p).

Lemma does_refl s : does id s s.
Proof. exists []. by rewrite app_nil_r. Qed.
Lemma does_trans F G s1 s2 s3 : does F s1 s2 -> does G s2 s3 -> does (fun p => G (F p)) s1 s3.
Proof.
  intros (t1 & E1 & H1) (t2 & E2 & H2). exists (t1 ++ t2). split; [by rewrite E2, E1, app_assoc|]. intros [R1 R2]%Forall_app p.
  unfold presence in *. by rewrite foldl_app, H1, H2.
Qed.
Lemma does_ext F G s s' : (forall p, F p = G p) -> does F s s' -> does G s s'.
Proof. intros H (t & E & Ht). exists t. split; [done|]. intros R p. by rewrite <-H, Ht. Qed.

Lemma does_run c s s' : run K c s = (s', Ok tt) -> does (fun p => presence1 p (c, Ok tt)) s s'.
Proof. unfold run. intros [= <- E]. exists [(c, Ok tt)]. cbn. by rewrite E. Qed.

(** Operations that do not touch the addresses of an interface. *)
Definition neutral (c : command (A:=A)) : Prop :=
  match c with
  | AddAddress _ _ | ReplaceAddress _ _ | RemoveAddress _ _ | DhcpStop _ | FlushAddresses _ | DeleteLink _ => False
  | _ => True
  end.

Lemma neutral_presence p t : Forall (fun x => neutral (fst x)) t -> presence p t = p.
Proof. revert p. induction t as [|[c r] t IH]; intros p; [done|]. intros [Hc Ht]%Forall_cons. cbn. rewrite IH by done. by destruct c, r. Qed.

Lemma does_neutral {X} (m : sop X) s : emits anywhere neutral m -> does id s (m s).1.
Proof. intros Hm. destruct (Hm s I) as [_ (t & E & Ht)]. exists t. split; [done|]. intros _ p. by apply neutral_presence. Qed.

Ltac same_addr b :=
  destruct (decide (b = a)) as [->|?]; [rewrite ?(bool_decide_eq_true_2 (a = a)) by done|rewrite ?(bool_decide_eq_false_2 (b = a)) by done].

(** Removing what is stale and renewing the rest, without DHCP. *)
Lemma remove_stale_does vips db b s s' : spared vips a = false ->
  remove_stale K index false vips db b s = (s', Ok tt) ->
  does (fun p => if bool_decide (b = a) then bool_decide (a ∈ db) else p) s s'.
Proof.
  intros Ha. unfold remove_stale. destruct (spared vips b) eqn:Es.
  - intros [= <-]. same_addr b; [congruence|apply does_refl].
  - destruct (bool_decide (b ∈ db)) eqn:Ed; cbn [negb].
    + intros H%does_run. eapply does_ext; [|exact H]. intros p. cbn. unfold on_it. rewrite Z.eqb_refl. cbn. same_addr b; [by rewrite Ed|done].
    + unfold suppress, run. intros [= <-]. eexists. split; [reflexivity|]. intros [R _]%Forall_cons p. cbn. destruct (outcome K _ _) as [u|e].
      * unfold on_it. rewrite Z.eqb_refl. cbn. same_addr b; [by rewrite Ed|done].
      * subst e. rewrite bool_decide_eq_true_2 by done. unfold on_it. rewrite Z.eqb_refl. cbn. same_addr b; [by rewrite Ed|done].
Qed.

Lemma stale_loop_does vips db l s s' : spared vips a = false ->
  for_each (remove_stale K index false vips db) l s = (s', Ok tt) ->
  does (fun p => if bool_decide (a ∈ l) then bool_decide (a ∈ db) else p) s s'.
Proof.
  intros Ha. revert s. induction l as [|b l IH]; intros s; cbn [for_each]; [intros [= <-]; apply does_refl|].
  intros ([] & s1 & H1%remove_stale_does & H2%IH)%ste_bind_ok; [|done]. eapply does_ext; [|by eapply does_trans]. intros p. cbn beta.
  destruct (decide (b = a)) as [->|Hne].
  - rewrite (bool_decide_eq_true_2 (a = a)), (bool_decide_eq_true_2 (a ∈ a :: l)) by (done || by left). by destruct (bool_decide (a ∈ l)).
  - rewrite (bool_decide_eq_false_2 (b = a)) by done. rewrite (bool_decide_ext (a ∈ l) (a ∈ b :: l)); [done|]. rewrite elem_of_cons. naive_solver.
Qed.

(** Adding what is missing. *)
Lemma missing_loop_does vips l s s' : bool_decide (addr_address a ∈ vips) = false ->
  for_each (add_missing K index vips) l s = (s', Ok tt) -> does (fun p => bool_decide (a ∈ l) || p) s s'.
Proof.
  intros Ha. revert s. induction l as [|b l IH]; intros s; cbn [for_each]; [intros [= <-]; apply does_refl|].
  intros ([] & s1 & H1 & H2%IH)%ste_bind_ok.
  assert (does (fun p => bool_decide (b = a) || p) s s1) as H.
  { unfold add_missing in H1. destruct (bool_decide (addr_address b ∈ vips)) eqn:Ev.
    - injection H1 as <-. same_addr b; [congruence|apply does_refl].
    - apply does_run in H1. eapply does_ext; [|exact H1]. intros p. cbn. unfold on_it. by rewrite Z.eqb_refl. }
  eapply does_ext; [|by eapply does_trans]. intros p. cbn beta. rewrite orb_assoc. f_equal.
  destruct (decide (b = a)) as [->|Hne].
  - rewrite (bool_decide_eq_true_2 (a = a)), (bool_decide_eq_true_2 (a ∈ a :: l)) by (done || by left). by rewrite orb_true_r.
  - rewrite (bool_decide_eq_false_2 (b = a)) by done. rewrite orb_false_r. apply bool_decide_ext. rewrite elem_of_cons. naive_solver.
Qed.

(** ** The addresses of the database *)

(** The address of the row, of its alias rows, and the virtual ones. *)
Definition wants (sd : sync_data) (data : iface_row) (aliases : list alias_row) (x : A) : Prop :=
  let address := if is_b sd then int_address_b data else int_address data in
  let key := if is_b sd then alias_address_b else alias_address in
  (nonempty address = true /\ alias_to_addr address (netmask_text (int_netmask data)) = Some x) \/
  (nonempty (vip_of data) = true /\ alias_to_addr (vip_of data) (host_mask (int_version data)) = Some x) \/
  exists r, r ∈ aliases /\
    (alias_to_addr (key r) (netmask_text (alias_netmask r)) = Some x \/
     (nonempty (alias_vip r) = true /\ alias_to_addr (alias_vip r) (host_mask (alias_version r)) = Some x)).

Lemma add_addr_ok ad m db s s' db' : add_addr (A:=A) ad m db s = (s', Ok db') ->
  s' = s /\ forall x, x ∈ db' <-> x ∈ db \/ alias_to_addr ad m = Some x.
Proof.
  unfold add_addr, mbind, ste_mbind, expect. destruct (alias_to_addr ad m) as [y|]; [|done]. intros [= <- <-]. split; [done|]. intros x.
  unfold add_elem. case_bool_decide; [naive_solver|]. rewrite elem_of_app, list_elem_of_singleton. naive_solver.
Qed.

Lemma add_addr_if_ok (c : bool) ad m db s s' db' : (if c then add_addr (A:=A) ad m db else mret db) s = (s', Ok db') ->
  s' = s /\ forall x, x ∈ db' <-> x ∈ db \/ (c = true /\ alias_to_addr ad m = Some x).
Proof. destruct c; [intros [-> H]%add_addr_ok; split; [done|]; naive_solver|]. intros [= <- <-]. naive_solver. Qed.

Lemma alias_addrs_ok key l db s s' db' : alias_addrs_of (A:=A) key l db s = (s', Ok db') ->
  s' = s /\ forall x, x ∈ db' <-> x ∈ db \/ exists r, r ∈ l /\
    (alias_to_addr (key r) (netmask_text (alias_netmask r)) = Some x \/
     (nonempty (alias_vip r) = true /\ alias_to_addr (alias_vip r) (host_mask (alias_version r)) = Some x)).
Proof.
  revert db s. induction l as [|r l IH]; intros db s; cbn [alias_addrs_of].
  - intros [= <- <-]. split; [done|]. intros x. split; [by left|]. intros [H|(r & H%elem_of_nil & _)]; done.
  - intros (db1 & s1 & [-> H1]%add_addr_ok & (db2 & s2 & [-> H2]%add_addr_if_ok & [-> H3]%IH)%ste_bind_ok)%ste_bind_ok.
    split; [done|]. intros x. rewrite H3, H2, H1. split.
    + intros [[[H|H]|H]|(r0 & Hr & H)]; [by left|right; exists r; split; [by left|tauto]..|right; exists r0; split; [by right|done]].
    + intros [H|(r0 & [->|Hr]%elem_of_cons & H)]; [tauto|tauto|]. right. by exists r0.
Qed.

Lemma database_addrs_ok name data aliases sd s s' running db : int_dhcp data = false ->
  database_addrs K name (data, aliases) sd s = (s', Ok (running, db)) ->
  (exists F, does F s s' /\ F false = false) /\ forall x, x ∈ db <-> wants sd data aliases x.
Proof.
  intros Hd. unfold database_addrs. rewrite Hd. intros (r & s1 & [= <- <-] & H)%ste_bind_ok. apply ste_bind_ok in H as (db0 & s2 & H0 & H).
  assert ((exists F, does F s s2 /\ F false = false) /\ db0 = []) as [HF ->].
  { rewrite andb_true_r in H0. destruct (dhcp_running _).
    - apply ste_bind_ok in H0 as ([] & s3 & H1%does_run & [= <- <-]). split; [|done]. eexists. split; [exact H1|done].
    - injection H0 as <- <-. split; [|done]. exists id. split; [apply does_refl|done]. }
  rewrite andb_true_r in H. apply ste_bind_ok in H as (db1 & s3 & [-> H1]%add_addr_if_ok & H). apply ste_bind_ok in H as (db2 & s4 & [-> H2]%add_addr_if_ok & H).
  apply ste_bind_ok in H as (db3 & s5 & [-> H3]%alias_addrs_ok & [= <- _ <-]). split; [done|]. intros x. rewrite H3, H2, H1, elem_of_nil. unfold wants. tauto.
Qed.

Lemma neutral_rest sd name data aliases link (b : bool) : emits anywhere neutral
  (_ ← when (negb (lk_up link)) (run K (LinkUp (lk_index link)));
   _ ← when (nonempty (vip_of data) || existsb (fun a => nonempty (alias_vip a)) aliases) (control_keepalived K);
   _ ← when (negb (is_bond_member sd name)) (configure_mtu K link data);
   _ ← match int_fec_mode data with Some m => when (nonempty m) (suppress (run K (SetFec name m))) | None => mret tt end;
   _ ← when (nonempty (int_name data)) (suppress (run K (LinkAlias (lk_index link) (int_name data))));
   mret b).
Proof.
  assert (forall c, neutral c -> emits anywhere neutral (run K c)) as Hr by (intros c; apply emits_run_any).
  unfold control_keepalived, configure_mtu. emit_steps; by apply Hr.
Qed.


Lemma configure_does name data aliases sd s s' b link l :
  int_dhcp data = false -> Dict.get name (links s) = Some link -> lk_index link = index -> link_addresses K (done_ s) index = Ok l ->
  configure_addresses_impl K name (data, aliases) sd s = (s', Ok b) ->
  addr_is_link a = false -> spared (vips_of data aliases) a = false ->
  exists G q, does G s s' /\ G (bool_decide (a ∈ l)) = q /\ (q = true <-> wants sd data aliases a).
Proof.
  intros Hd El Ei Ea H Hl Hs. unfold configure_addresses_impl in H. rewrite ste_bind_gets, El in H. apply ste_bind_ok in H as (? & ? & [= <- <-] & H).
  rewrite Ei in H. apply ste_bind_ok in H as (? & ? & E & H). rewrite Ea in E. injection E as <- <-.
  set (configured := remove_dups (List.filter (fun a => negb (addr_is_link a)) l)) in H.
  apply ste_bind_ok in H as ([running db] & s1 & [(F & HF & F0) Hw]%database_addrs_ok & H); [|done]. rewrite Hd in H.
  apply ste_bind_ok in H as ([] & s2 & H1%(stale_loop_does (vips_of data aliases)) & H); [|done].
  apply ste_bind_ok in H as ([] & s3 & H2%does_run & H). apply ste_bind_ok in H as ([] & s4 & H3%missing_loop_does & H);
    [|by apply orb_false_iff in Hs as [_ ?]].
  pose proof (does_neutral _ s4 (neutral_rest sd name data aliases link (negb running && false))) as H4.
  rewrite Ei, H in H4. cbn [fst] in H4.
  pose proof (does_trans _ _ _ _ _ (does_trans _ _ _ _ _ (does_trans _ _ _ _ _ (does_trans _ _ _ _ _ HF H1) H2) H3) H4) as HG.
  eexists _, _. split; [exact HG|]. split; [reflexivity|]. cbn. rewrite <-Hw.
  assert (a ∈ configured <-> a ∈ l) as Hc by (unfold configured; rewrite elem_of_remove_dups, filter_elem, Hl; naive_solver).
  rewrite (bool_decide_ext _ _ Hc). destruct (decide (a ∈ l)) as [Hin|Hin].
  - rewrite (bool_decide_eq_true_2 (a ∈ l)) by done. rewrite orb_true_iff, !bool_decide_eq_true. rewrite filter_elem. tauto.
  - rewrite (bool_decide_eq_false_2 (a ∈ l)) by done. rewrite F0, orb_false_r, bool_decide_eq_true, filter_elem.
    rewrite (bool_decide_eq_false_2 (a ∈ configured)) by tauto. naive_solver.
Qed.
End presence.

(** C25: The commands of a synchronisation that take addresses from an interface or take it
    down are for interfaces that are not in the database and not internal; only
    virtual ones are deleted, and none that others are on is set down.  This holds
    whatever the kernel answers, also when the synchronisation fails. *)
Theorem sync_spares_configured sd internal L c r i :
  let s' := (sync_impl K sd internal (mkSst [] L)).1 in
  (c, r) ∈ done_ s' -> takes_down c = Some i ->
  exists name link, Dict.get name (links s') = Some link /\ lk_index link = i /\ may_take_down internal sd c name.
Proof.
  intros s' Hin Hc. destruct (sync_impl_allowed sd internal (mkSst [] L)) as (t & Et & Ht). fold s' in Et, Ht. cbn [done_ app] in Et.
  rewrite Et in Hin. rewrite Forall_forall in Ht. by apply (Ht _ Hin).
Qed.

(** C26: When the addresses of an interface without DHCP could be set, it has exactly those
    of the database: what it had and should not have was removed, what was missing
    added, and what DHCP may have taken with it put back.  Addresses that are local
    to the link or virtual are left alone. *)
Theorem addresses_reconciled kept name data aliases sd s s' b link l t a :
  int_dhcp data = false -> Dict.get name (links s) = Some link -> link_addresses K (done_ s) (lk_index link) = Ok l ->
  configure_addresses_impl K name (data, aliases) sd s = (s', Ok b) -> done_ s' = done_ s ++ t -> removes_ok t ->
  addr_is_link a = false -> spared (vips_of data aliases) a = false ->
  presence kept (lk_index link) a (bool_decide (a ∈ l)) t = true <-> wants sd data aliases a.
Proof.
  intros Hd El Ea Hc Et Hr Hl Hs. destruct (configure_does kept (lk_index link) a _ _ _ _ _ _ _ _ _ Hd El eq_refl Ea Hc Hl Hs) as (G & q & (t' & Et' & HG) & Eq & <-).
  rewrite Et in Et'. apply app_inv_head in Et' as <-. by rewrite HG, Eq.
Qed.

End apply.
End NetApply.
