(* ===== verification/NetDemo.v ===== *)
(** * Runs of the network services

    A system with four network cards: the theorems applied to concrete histories, and
    executions that show where the services do not keep what they promise
    elsewhere. *)

From S2P Require Import Prelude PyDict PyStr PyVal PyFormat Errors Ipaddr NetDb Ifaces NetCheck NetOps NetPending NetInv NetRestore NetSpec NetChecked NetClaims NetNets NetPorts NetDelete NetCreate NetRound NetFault NetRace NetProps NetChoices NetSync NetApply.

Module NetDemo.
Import NetDb Ifaces NetCheck NetOps Net NetInv NetRestore NetSpec NetChecked NetClaims NetNets NetPorts NetDelete NetCreate NetRound NetFault NetRace NetProps NetChoices NetSync NetApply.

(** ** A system *)

Definition card (mac : string) : istate := mkState false "pci" [] mac false.

Definition cards : list (string * istate) :=
  [("eno1", card "00:00:00:00:00:01"); ("eno2", card "00:00:00:00:00:02"); ("eno3", card "00:00:00:00:00:03"); ("eno4", card "00:00:00:00:00:04")].

(** Synchronisation succeeds, or fails with the error. *)
Definition system (r : result exn unit) : nenv :=
  mkNenv cards ["lo"] false "TRUENAS-UNKNOWN" false "SINGLE" true "MANUAL" false false (fun _ => []) (Ok []) (Ok tt) (fun _ => r).

Definition e0 : nenv := system (Ok tt).

Definition no_rows {R} : table R := mkTable [] 0.

(** Nothing is configured. *)
Definition fresh : nst := mkNst (mkDb no_rows no_rows no_rows no_rows no_rows no_rows no_rows "" []) None None [] 0.

Definition static (addr : string) (len : Z) : ali := mkAli "INET" addr (Some (NumInt len)).

(** The fields every request has. *)
Definition request (name : string) (aliases : list ali) : idata :=
  set_d_name (Some name) (set_d_description (Some "") (set_d_ipv4_dhcp (Some false) (set_d_ipv6_auto (Some false)
    (set_d_aliases (Some aliases) (set_d_mtu (Some None) no_data))))).

Definition bridge_request (name : string) (members : list string) (aliases : list ali) : idata :=
  set_d_bridge_members (Some members) (set_d_stp (Some true) (set_d_enable_learning (Some true) (request name aliases))).

Definition bond_request (name : string) (ports : list string) (aliases : list ali) : idata :=
  set_d_lag_protocol (Some "FAILOVER") (set_d_lag_ports (Some ports) (set_d_xmit_hash_policy (Some None)
    (set_d_lacpdu_rate (Some None) (request name aliases)))).

Definition vlan_request (name parent : string) (tag : Z) (aliases : list ali) : idata :=
  set_d_vlan_parent_interface (Some (Some parent)) (set_d_vlan_tag (Some (Some tag)) (request name aliases)).

Definition create_bridge : label := LCreate e0 BRIDGE (bridge_request "br0" ["eno2"] [static "172.16.0.1" 16]).
Definition create_bond : label := LCreate e0 LINK_AGGREGATION (bond_request "bond0" ["eno3"; "eno4"] [static "10.0.0.1" 24; static "10.0.1.1" 24]).

(** A bridge that was accepted. *)
Definition with_bridge : nst := exec [create_bridge; LCommit e0 0 false 0] fresh.

(** ** The start satisfies what the theorems ask for *)

Lemma no_rows_ok {R} `{!Row R} : table_ok (no_rows (R:=R)).
Proof. split; constructor. Qed.

Lemma fresh_inv : inv fresh.
Proof. split; [|done]. split; try apply no_rows_ok. split; cbn; try constructor; by intros x ?%elem_of_nil. Qed.

Lemma fresh_nets : nets_ok (tabs fresh).
Proof. split; [intros j a (r & H & _)|intros i j a b (r & H & _)]; cbn in H; by apply elem_of_nil in H. Qed.

Lemma fresh_ports : ports_ok (tabs fresh).
Proof.
  split; [split; cbn; try constructor; by intros x r ?%elem_of_nil|]. intros i j p [(b & H & _)|(l & m & H & _)]; cbn in H; by apply elem_of_nil in H.
Qed.

Lemma bridge_inv : inv with_bridge.
Proof. apply exec_inv_net, fresh_inv. Qed.

Lemma nothing_pending : original with_bridge = None.
Proof. vm_compute. reflexivity. Qed.

(** ** Witnesses *)

Lemma interface_calls_refine_witness :
  spec_step Edit (abs with_bridge) (abs (step create_bond with_bridge)) /\ working (abs (step create_bond with_bridge)) ≠ working (abs with_bridge).
Proof.
  split; [|vm_compute; discriminate]. pose proof (proj2 (interface_calls_refine create_bond with_bridge bridge_inv)) as H. exact H.
Defined.

(** The bond is created and committed, then the timer fires. *)
Definition pending_bond : list label := [create_bond; LCommit e0 5000000 true 60].
Definition timer : handle := mkHandle 0 65000000.

Lemma unaccepted_changes_undone_witness :
  get_datastores (tabs (step (LTimer e0 timer) (exec pending_bond with_bridge))) = get_datastores (tabs with_bridge)
  /\ get_datastores (tabs (exec pending_bond with_bridge)) ≠ get_datastores (tabs with_bridge).
Proof.
  split; [|vm_compute; discriminate].
  refine (proj1 (unaccepted_changes_undone pending_bond (LTimer e0 timer) with_bridge bridge_inv nothing_pending _ _)); [|vm_compute; reflexivity].
  split; [vm_compute; discriminate|]. split; [vm_compute; discriminate|exact I].
Defined.

Lemma commit_arms_rollback_witness :
  let s' := exec [LDelete e0 "br0"] (step (LCommit e0 0 true 60) (step create_bond with_bridge)) in
  checkin_waiting 20500000 s' = Some 39%Z /\ checkin_waiting 60000000 s' = None /\
  forall h, step (LTimer e0 h) (step LCheckin s') = step LCheckin s'.
Proof.
  cbv zeta. destruct (commit_arms_rollback e0 0 60 (step create_bond with_bridge) tt tt [LDelete e0 "br0"] e0) as (h & _ & _ & Hw & _ & _ & _ & _ & _ & Hnone).
  - apply step_simulated, bridge_inv.
  - vm_compute. reflexivity.
  - reflexivity.
  - reflexivity.
  - repeat constructor.
  - split; [exact (Hw 20500000%Z)|]. split; [exact (Hw 60000000%Z)|]. apply Hnone. vm_compute. reflexivity.
Defined.

Notation both := (exec [create_bridge; create_bond] fresh).

(** The rows of the bridge and of the bond. *)
Definition bridge_row_ : iface_row :=
  mkIface 1 "br0" "" false "172.16.0.1" "" (NumInt 4) (NumInt 16) false (Some "") None false None None None.
Definition bond_row_ : iface_row :=
  mkIface 2 "bond0" "" false "10.0.0.1" "" (NumInt 4) (NumInt 24) false (Some "") None false None None None.

Lemma both_rows : rows (interfaces (tabs both)) = [bridge_row_; bond_row_].
Proof. vm_compute. reflexivity. Qed.

Definition net_of (a : ali) : Ip.network := match alias_network a with Ok n => n | Err _ => Ip.mkNet Ip.V4 0 None 0 end.

Lemma both_elem r : bool_decide (r ∈ [bridge_row_; bond_row_]) = true -> r ∈ rows (interfaces (tabs both)).
Proof. rewrite both_rows. by intros ?%bool_decide_eq_true. Qed.

Lemma both_shown r a : bool_decide (a ∈ shown_aliases (tabs both) r) = true -> a ∈ shown_aliases (tabs both) r.
Proof. by intros ?%bool_decide_eq_true. Qed.

(** The same two creations, cut, with other calls in between. *)
Definition creations : list rlabel :=
  [RChecks 0 (CCreate e0 BRIDGE (bridge_request "br0" ["eno2"] [static "172.16.0.1" 16])); RCall LCancelRollback; RWrites 0;
   RChecks 1 (CCreate e0 LINK_AGGREGATION (bond_request "bond0" ["eno3"; "eno4"] [static "10.0.0.1" 24; static "10.0.1.1" 24]));
   RChecks 0 (CDelete e0 "bond0"); RWrites 1].

Lemma creations_tabs : tabs (net (rexec creations (quiet fresh))) = tabs both.
Proof. vm_compute. reflexivity. Qed.

Lemma creations_undisturbed : undisturbed creations (quiet fresh).
Proof. vm_compute. done. Qed.

Lemma interface_networks_disjoint_witness :
  shown_aliases (tabs both) bond_row_ = [static "10.0.0.1" 24; static "10.0.1.1" 24] /\
  forall v x, Ip.contains (net_of (static "172.16.0.1" 16)) v x && Ip.contains (net_of (static "10.0.1.1" 24)) v x = false.
Proof.
  split; [vm_compute; reflexivity|]. intros v x.
  assert (bridge_row_ ∈ rows (interfaces (tabs both))) as H1 by (apply both_elem; vm_compute; reflexivity).
  assert (bond_row_ ∈ rows (interfaces (tabs both))) as H2 by (apply both_elem; vm_compute; reflexivity).
  assert (static "172.16.0.1" 16 ∈ shown_aliases (tabs both) bridge_row_) as H3 by (apply both_shown; vm_compute; reflexivity).
  assert (static "10.0.1.1" 24 ∈ shown_aliases (tabs both) bond_row_) as H4 by (apply both_shown; vm_compute; reflexivity).
  assert (alias_network (static "172.16.0.1" 16) = Ok (net_of (static "172.16.0.1" 16))) as H5 by (vm_compute; reflexivity).
  assert (alias_network (static "10.0.1.1" 24) = Ok (net_of (static "10.0.1.1" 24))) as H6 by (vm_compute; reflexivity).
  assert (int_interface bridge_row_ ≠ int_interface bond_row_) as H7 by discriminate.
  rewrite <-creations_tabs in H1, H2, H3, H4.
  exact (interface_networks_disjoint creations fresh bridge_row_ bond_row_ _ _ _ _ v x fresh_inv eq_refl fresh_nets creations_undisturbed H1 H2 H7 H3 H4 H5 H6).
Defined.

(** The entry of an interface, or another when there is none. *)
Definition entry_of (name : string) (d : db) : entry :=
  match get_instance e0 name d with Ok x => x | Err _ => mkEntry "" true UNKNOWN "" [] [] no_data end.

Lemma entry_of_elem name d : (exists x, get_instance e0 name d = Ok x) -> entry_of name d ∈ query e0 d.
Proof. intros [x E]. unfold entry_of. rewrite E. by apply get_instance_ok in E as [H _]. Qed.

(** A bond on the port of another one is refused, so the port stays with one. *)
Definition rival_calls : list rlabel :=
  [RChecks 0 (CCreate e0 LINK_AGGREGATION (bond_request "bond0" ["eno3"; "eno4"] [static "10.0.0.1" 24; static "10.0.1.1" 24])); RCall LCancelRollback;
   RWrites 0; RChecks 1 (CCreate e0 LINK_AGGREGATION (bond_request "bond1" ["eno4"] [])); RWrites 1].
Notation rivals := (net (rexec rival_calls (quiet fresh))).

Lemma rivals_undisturbed : undisturbed rival_calls (quiet fresh).
Proof. vm_compute. done. Qed.

Lemma interface_ports_exclusive_witness :
  "eno4" ∈ entry_ports (entry_of "bond0" (tabs rivals)) /\
  forall y, y ∈ query e0 (tabs rivals) -> "eno4" ∈ entry_ports y -> en_name y = "bond0".
Proof.
  assert ("eno4" ∈ entry_ports (entry_of "bond0" (tabs rivals))) as Hp by (apply (bool_decide_unpack _); vm_compute; exact I).
  split; [exact Hp|]. intros y Hy Hq.
  assert (exists x, get_instance e0 "bond0" (tabs rivals) = Ok x) as Hx by (eexists; vm_compute; reflexivity).
  assert (en_name (entry_of "bond0" (tabs rivals)) = "bond0") as En by (vm_compute; reflexivity). rewrite <-En. symmetry.
  exact (interface_ports_exclusive rival_calls fresh e0 _ y "eno4" fresh_inv eq_refl fresh_ports rivals_undisturbed
           (entry_of_elem "bond0" (tabs rivals) Hx) Hy Hp Hq).
Defined.

(** Without a lock, two creations that overlap are both checked against tables without
    the other: both bridges are stored, with the same member and with networks that
    have addresses in common. *)
Definition clashing : list rlabel :=
  [RChecks 0 (CCreate e0 BRIDGE (bridge_request "br0" ["eno2"] [static "10.0.0.1" 24]));
   RChecks 1 (CCreate e0 BRIDGE (bridge_request "br1" ["eno2"] [static "10.0.0.2" 24])); RWrites 0; RWrites 1].

Theorem overlapping_creations_clash :
  let d := tabs (net (rexec clashing (quiet fresh))) in
  map int_interface (rows (interfaces d)) = ["br0"; "br1"] /\
  entry_ports (entry_of "br0" d) = ["eno2"] /\ entry_ports (entry_of "br1" d) = ["eno2"] /\
  exists v x, Ip.contains (net_of (static "10.0.0.1" 24)) v x && Ip.contains (net_of (static "10.0.0.2" 24)) v x = true.
Proof. cbv zeta. split_and!; try (vm_compute; reflexivity). exists Ip.V4, 167772165%Z. vm_compute. reflexivity. Qed.

Lemma both_inv : inv both.
Proof. apply exec_inv_net, fresh_inv. Qed.

(** The bond goes, the bridge stays. *)
Lemma interface_delete_complete_witness :
  (do_delete e0 "bond0" both).2 = Ok "bond0" /\
  forall r, r ∈ rows (interfaces (tabs (do_delete e0 "bond0" both).1)) -> int_interface r ≠ "bond0".
Proof.
  destruct (interface_delete_complete e0 "bond0" both (entry_of "bond0" (tabs both)) both_inv) as (H1 & H2 & _); [vm_compute; reflexivity|].
  split; [exact H1|exact H2].
Defined.

(** A port that is given twice: the second insert fails, what was written goes. *)
Definition twice : idata := bond_request "bond0" ["eno3"; "eno3"] [static "10.0.0.1" 24].

Theorem bond_port_twice :
  (do_create e0 LINK_AGGREGATION twice with_bridge).2 = Err IntegrityError /\
  get_datastores (tabs (do_create e0 LINK_AGGREGATION twice with_bridge).1) = get_datastores (tabs with_bridge).
Proof. split; vm_compute; reflexivity. Qed.

Lemma bridge_kinds : kinds (tabs with_bridge).
Proof.
  apply ports_kinds. apply (good_tabs ports_ok). apply (good_exec ports_ok ports_rows ports_create ports_update ports_delete).
  apply (good_start ports_ok fresh ports_rows fresh_inv eq_refl fresh_ports).
Qed.

(** The database fails when the second port of a bond is stored, and again when the row
    of the bond is to be deleted. *)
Definition failing : list bool := [false; false; false; false; true; true].
Notation failed_bond := (do_create_f failing e0 LINK_AGGREGATION (bond_request "bond0" ["eno3"; "eno4"] [static "10.0.0.1" 24]) with_bridge).

Lemma failed_create_leaves_nothing_witness :
  failed_bond.2 = Err OperationalError /\ get_datastores (tabs failed_bond.1) = get_datastores (tabs with_bridge).
Proof.
  assert (failed_bond.2 = Err OperationalError) as E by (vm_compute; reflexivity). split; [exact E|].
  assert (failed_bond = (failed_bond.1, Err OperationalError)) as H by (rewrite <-E; apply surjective_pairing).
  apply (failed_create_leaves_nothing failing e0 LINK_AGGREGATION _ with_bridge _ OperationalError bridge_inv bridge_kinds H).
  right. discriminate.
Defined.

(** The creation of a VLAN that fails when its second address is stored: the row of the
    interface is gone, the row of the VLAN stays. *)
Theorem failed_vlan_left_over :
  let r := do_create_f [false; false; true] e0 VLAN (vlan_request "vlan5" "eno1" 5 [static "10.5.0.1" 24; static "10.5.1.1" 24]) with_bridge in
  r.2 = Err OperationalError /\ rows (interfaces (tabs r.1)) = rows (interfaces (tabs with_bridge)) /\
  rows (vlan (tabs with_bridge)) = [] /\ map vlan_vint (rows (vlan (tabs r.1))) = ["vlan5"].
Proof. cbv zeta. split_and!; vm_compute; reflexivity. Qed.

(** Addresses of both families and a type that is not that of the address. *)
Definition mixed : list ali := [static "10.0.0.1" 24; mkAli "INET6" "fd00::1" (Some (NumInt 64)); mkAli "INET6" "10.0.1.1" (Some (NumInt 24))].

Lemma create_returns_aliases_witness :
  d_aliases (en_data (entry_of "bond0" (tabs (do_create e0 LINK_AGGREGATION (bond_request "bond0" ["eno3"] mixed) with_bridge).1)))
  = Some [static "10.0.0.1" 24; mkAli "INET6" "fd00::1" (Some (NumInt 64)); static "10.0.1.1" 24].
Proof.
  set (m := do_create e0 LINK_AGGREGATION (bond_request "bond0" ["eno3"] mixed) with_bridge).
  assert (m.2 = Ok (entry_of "bond0" (tabs m.1))) as E by (vm_compute; reflexivity).
  assert (m = (m.1, Ok (entry_of "bond0" (tabs m.1)))) as H by (rewrite <-E; apply surjective_pairing).
  assert (en_name (entry_of "bond0" (tabs m.1)) = "bond0") as En by (vm_compute; reflexivity).
  etransitivity; [apply (create_returns_aliases e0 LINK_AGGREGATION (bond_request "bond0" ["eno3"] mixed) with_bridge m.1 _ mixed bridge_inv H eq_refl)|].
  - left. discriminate.
  - rewrite En. apply (bool_decide_unpack _). vm_compute. exact I.
  - vm_compute. reflexivity.
Defined.

(** The first card is offered for another bridge and accepted. *)
Lemma bridge_choices_exact_witness :
  exists c u, bridge_members_choices e0 (tabs with_bridge) None = Ok c /\ interfaces_used (other_ifaces e0 (tabs with_bridge) None) = Ok u /\
    "eno1" ∈ Dict.keys c /\ check_members "s" (other_ifaces e0 (tabs with_bridge) None) u 0 ["eno1"] [] = [].
Proof.
  destruct (bridge_members_choices e0 (tabs with_bridge) None) as [c|x] eqn:Ec; [|vm_compute in Ec; discriminate Ec].
  destruct (interfaces_used (other_ifaces e0 (tabs with_bridge) None)) as [u|x] eqn:Eu; [|vm_compute in Eu; discriminate Eu].
  exists c, u. split; [reflexivity|]. split; [reflexivity|].
  assert ("eno1" ∈ Dict.keys c) as Hc by (vm_compute in Ec; injection Ec as <-; apply (bool_decide_unpack _); vm_compute; exact I).
  split; [exact Hc|].
  apply (bridge_choices_exact e0 (tabs with_bridge) None c u "eno1" "s" 0); [intros y [=]|exact Ec|exact Eu| |exact Hc].
  apply (bool_decide_unpack _). vm_compute. exact I.
Defined.

(** ** Synchronisation *)

Record address := mkAddress { ad_version : Ip.version; ad_prefixlen : Z; ad_text : string; ad_broadcast : string }.

#[global] Instance address_eq_dec : EqDecision address.
Proof. solve_decision. Defined.

#[global] Program Instance address_info : AddrInfo address := {|
  AddressInfo := mkAddress; addr_is_link _ := false; addr_address := ad_text
|}.
Next Obligation. done. Qed.

(** Every command succeeds; the first card has an address, one of them stale. *)
Definition card_addresses : list address :=
  [mkAddress Ip.V4 24 "192.168.1.5" "192.168.1.255"; mkAddress Ip.V4 24 "10.9.9.9" "10.9.9.255"].

Definition kernel_of (lease_ : option (list string)) : kern (A:=address) :=
  mkKern (fun _ _ => Ok tt) (fun _ i => Ok (if (i =? 2)%Z then card_addresses else [])) (fun _ _ l => l) (fun _ _ => lease_) (fun _ => false) true
    ["LAYER2"; "LAYER23"; "LAYER34"] ["SLOW"; "FAST"].

Definition links0 : list (string * link_info) := [("lo", mkLink_ 1 65536 true); ("eno1", mkLink_ 2 1500 true); ("eno2", mkLink_ 3 1500 true)].

Definition eno1_row (dhcp : bool) (addr : string) (len : Z) (v : Z) : iface_row :=
  mkIface 1 "eno1" "" dhcp addr "" (NumInt v) (NumInt len) false (Some "") None false None None None.

Definition eno1_sync (r : iface_row) : sync_data := mkSync [("eno1", (r, []))] [] [] [] [] "MANUAL".

Definition start : sst (A:=address) := mkSst [] links0.

(** The second card is taken down; the first, in the database, is not. *)
Lemma sync_spares_configured_witness :
  let s' := (sync_impl (kernel_of None) (eno1_sync (eno1_row false "192.168.1.5" 24 4)) ["lo"] start).1 in
  (FlushAddresses 3, Ok tt) ∈ done_ s' /\
  exists name link, Dict.get name (links s') = Some link /\ lk_index link = 3%Z /\ may_take_down ["lo"] (eno1_sync (eno1_row false "192.168.1.5" 24 4)) (FlushAddresses (A:=address) 3) name.
Proof.
  cbn zeta.
  assert ((FlushAddresses 3, Ok tt) ∈ done_ (sync_impl (kernel_of None) (eno1_sync (eno1_row false "192.168.1.5" 24 4)) ["lo"] start).1) as H.
  { vm_compute. do 3 right. left. }
  split; [exact H|]. exact (sync_spares_configured (kernel_of None) _ ["lo"] links0 _ _ 3 H eq_refl).
Defined.

(** The stale address goes, the address of the database stays. *)
Lemma addresses_reconciled_witness :
  wants (eno1_sync (eno1_row false "192.168.1.5" 24 4)) (eno1_row false "192.168.1.5" 24 4) [] (mkAddress Ip.V4 24 "192.168.1.5" "192.168.1.255") /\
  ~ wants (eno1_sync (eno1_row false "192.168.1.5" 24 4)) (eno1_row false "192.168.1.5" 24 4) [] (mkAddress Ip.V4 24 "10.9.9.9" "10.9.9.255").
Proof.
  set (sd := eno1_sync (eno1_row false "192.168.1.5" 24 4)). set (m := configure_addresses_impl (kernel_of None) "eno1" (eno1_row false "192.168.1.5" 24 4, []) sd start).
  assert (m = (m.1, Ok false)) as E by (vm_compute; reflexivity).
  assert (removes_ok (done_ m.1)) as R by (vm_compute; repeat constructor).
  pose proof (fun a H => addresses_reconciled (kernel_of None) false "eno1" (eno1_row false "192.168.1.5" 24 4) [] sd start m.1 false
    (mkLink_ 2 1500 true) card_addresses (done_ m.1) a eq_refl eq_refl eq_refl E eq_refl R eq_refl H) as H.
  split.
  - apply H; vm_compute; reflexivity.
  - intros Hw. apply H in Hw; [|vm_compute; reflexivity]. vm_compute in Hw. discriminate Hw.
Defined.

(** ** Where the services fall short *)

Definition named_bridge (n : string) : label := LCreate e0 BRIDGE (bridge_request n [] []).

(** A second commit forgets the timer of the first without cancelling it: after the
    check-in, with nothing pending, the first timer fires in the middle of other
    edits and undoes them. *)
Theorem stale_timer_undoes_edits :
  let s := exec [named_bridge "br1"; LCommit e0 0 true 60; named_bridge "br2"; LCommit e0 10000000 true 60; LCheckin; named_bridge "br3"] fresh in
  checkin_waiting 20000000 s = None /\ armed s = [mkHandle 0 60000000]
  /\ query_names_only (tabs s) = ["br1"; "br2"; "br3"]
  /\ query_names_only (tabs (step (LTimer e0 (mkHandle 0 60000000)) s)) = ["br1"; "br2"].
Proof. vm_compute. repeat split. Qed.

(** The nameservers that are saved with the gateway stay after a rollback. *)
Theorem rollback_keeps_nameservers :
  let s := exec [create_bridge; LSaveConfig "172.16.0.254" [("nameserver1", "1.1.1.1")]] fresh in
  let s' := step (LRollback e0) s in
  ipv4gateway (tabs s) = "172.16.0.254" /\ ipv4gateway (tabs s') = "" /\ nameservers (tabs s') = [("nameserver1", "1.1.1.1")].
Proof. vm_compute. repeat split. Qed.

(** The check that an interface has an address never finds anything while there is an
    interface. *)
Theorem dhcp_or_aliases_never_fails e d schema v : query e d ≠ [] -> check_dhcp_or_aliases e d schema v = v.
Proof. unfold check_dhcp_or_aliases. by destruct (query e d). Qed.

(** A check-in accepts changes that were made after the commit and never applied. *)
Theorem checkin_accepts_uncommitted :
  let s := exec [named_bridge "br1"; LCommit e0 0 true 60; named_bridge "br2"; LCheckin; LRollback e0] fresh in
  query_names_only (tabs s) = ["br1"; "br2"].
Proof. vm_compute. repeat split. Qed.

(** The parent of a VLAN becomes the port of a bond; deleting the bond deletes the VLAN
    but not its interface. *)
Theorem vlan_parent_becomes_port :
  let s := exec [LCreate e0 VLAN (vlan_request "vlan5" "eno3" 5 []); LCreate e0 LINK_AGGREGATION (bond_request "bond0" ["eno3"] [])] fresh in
  map vlan_pint (rows (vlan (tabs s))) = ["eno3"] /\ map lagg_physnic (rows (laggmembers (tabs s))) = ["eno3"]
  /\ lag_ports_choices e0 (tabs (exec [LCreate e0 VLAN (vlan_request "vlan5" "eno3" 5 [])] fresh)) None
     = Ok (self_dict ["eno1"; "eno2"; "eno4"])
  /\ let s' := step (LDelete e0 "bond0") s in query_names_only (tabs s') = ["vlan5"] /\ rows (vlan (tabs s')) = [].
Proof. vm_compute. repeat split. Qed.

(** A bond is offered as a port of another bond and refused. *)
Theorem bond_offered_and_refused :
  let s := exec [create_bond] fresh in
  (c ← lag_ports_choices e0 (tabs s) None; Ok (Dict.mem "bond0" c)) = Ok true
  /\ (do_create e0 LINK_AGGREGATION (bond_request "bond1" ["bond0"] []) s).2
     = Err (EValidationErrors [mkVE (Some "interface_create.lag_ports.0") "Interface bond0 is currently in use" EINVAL]).
Proof. vm_compute. repeat split. Qed.

(** A bridge is not offered as a member of another bridge, and accepted. *)
Theorem bridge_in_bridge :
  let s := exec [named_bridge "br1"] fresh in
  (c ← bridge_members_choices e0 (tabs s) None; Ok (Dict.mem "br1" c)) = Ok false
  /\ is_ok ((do_create e0 BRIDGE (bridge_request "br2" ["br1"] []) s).2) = true.
Proof. vm_compute. repeat split. Qed.

(** An address that is given twice makes an update fail half-way. *)
Theorem update_address_twice :
  (do_update e0 "bond0" (set_d_aliases (Some [static "10.0.0.1" 24; static "10.0.1.1" 25; static "10.0.1.1" 26]) no_data) both).2
  = Err (EOther "IndexError" "pop index out of range").
Proof. vm_compute. reflexivity. Qed.

(** A static address next to DHCP is shown and is not applied. *)
Theorem static_address_with_dhcp_dropped :
  let data := set_d_ipv4_dhcp (Some true) (bridge_request "br1" [] [mkAli "INET6" "fd00::1" (Some (NumInt 64))]) in
  let s := exec [LCreate e0 BRIDGE data] fresh in
  d_aliases (en_data (entry_of "br1" (tabs s))) = Some [mkAli "INET6" "fd00::1" (Some (NumInt 64))]
  /\ let m := sync_impl (kernel_of None) (sync_data_of (tabs s) "MANUAL") ["lo"] (mkSst [] [("br1", mkLink_ 9 1500 true)]) in
     (r ← m.2; Ok (sy_run_dhcp r)) = Ok ["br1"]
     /\ List.filter (fun x => match fst x with AddAddress _ _ => true | _ => false end) (done_ m.1) = [].
Proof. vm_compute. repeat split. Qed.

(** A daemon that runs and has no lease yet counts as one that does not run. *)
Theorem dhcp_without_lease_not_running : dhcp_running (Some [String.append "protocol=link" (String NUL "carrier=up")]) = false.
Proof. vm_compute. reflexivity. Qed.

Definition eno1_db : db :=
  mkDb (mkTable [eno1_row false "192.168.1.5" 24 4] 1) no_rows no_rows no_rows no_rows no_rows no_rows "" [].

(** The hook for interfaces that are added configures one that is removed, and leaves
    one out whose name is the beginning of an internal one's. *)
Theorem hook_guards_inverted :
  (udevd_ifnet_hook (kernel_of None) (Some "net") (Some "remove") (Some "eno1") ["br"; "lo"] ["lo"] "MANUAL" "MANUAL" eno1_db start).2 = Ok (HSynced false)
  /\ (udevd_ifnet_hook (kernel_of None) (Some "net") (Some "add") (Some "eno1") ["br"; "lo"] ["lo"; "eno10"] "MANUAL" "MANUAL" eno1_db start).2 = Ok HIgnored.
Proof. vm_compute. repeat split. Qed.

End NetDemo.
